(* ===== verification/_CoqProject ===== *)
-Q . S2P
Prelude.v
Memory.v
Descriptors.v
Smp.v
Frames.v
Pmm.v
Multiboot.v
Kheap.v
Alloc.v
Paging.v
Space.v
Ring.v
Tty.v
Mouse.v
Ports.v
Pci.v
Ps2.v
Screen.v
Digits.v
Term.v
Debug.v
Bytes.v
Pcb.v
SysText.v
Panic.v
Percpu.v
Scheduler.v
Storage.v
Ide.v
Ata.v
Elf.v
Image.v
ImageDemo.v
Spaces.v
SpaceFree.v
SpaceClone.v
SpacesDemo.v
Mmap.v
Vfs.v
Process.v
Machine.v
Syscall.v
SyscallSpec.v
SyscallDemo.v
Lifecycle.v
FatName.v
Fat.v
FatDir.v
FatDemo.v
