(* ===== verification/Prelude.v ===== *)
(** * A verification of the Dynt kernel

    The kernel is a 64-bit C kernel for x86-64: a frame allocator, a heap and page
    tables; a scheduler for several processors; processes loaded from ELF files,
    with [fork], [execve] and [waitpid]; block devices, partitions, a virtual file
    system and FAT32; keyboard, terminals and a mouse.  This library models these parts
    function by function and proves what makes each of them correct.  Names are
    those of the C sources under src/.

    ** How the code is modelled

    Integers are [Z]; every store to a w-bit object is reduced by [u8] .. [u64] or
    [s8] .. [s64], so wrap-around is visible.  Kernel data that the code reaches
    through raw addresses (heap headers, page tables, images, user pages) lives in
    one byte memory [mem] with little-endian [load64]/[store64]; data reached
    through typed pointers only (process blocks, block devices, mounts) lives in
    stores of records keyed by address.  Functions take and return the state.  An
    outer [None] is undefined behaviour or a loop that did not end; a failure the
    code reports is a value (0, [false], -1, an inner [None]).  Operations under a
    spinlock are single steps; interleavings of processors are sequences of steps.

    Counted loops are [for_]; pointer-chasing loops are [while_] with a fuel larger
    than the number of objects that can exist (2^64 for heap blocks, more than the
    64-bit addresses for siblings, runqueues and directory chains); the loops of
    FAT32 are [loop] with the fuel 2^32 + 2, more than its 32-bit counters count.  That a loop
    ends is part of the theorems: they state [Some] results, with the fuel shown to
    be enough by a measure or by the length of the chain.

    ** Files, in dependency order

    - Prelude.v: machine integers, loops and their induction principles, tactics,
      the hint database [kern].
    - Memory.v: byte memory; mem/lib/memory.c and memory.h.
    - Frames.v: the interface [FrameAllocator]/[FrameAllocatorOk] between the frame
      allocator and its clients.  Pmm.v: mem/mm/pmm.c, and the instance.
    - Kheap.v: mem/mm/kheap.c over any frame allocator.  Alloc.v: the interface
      [HeapAllocator]/[HeapAllocatorOk] its clients use, and the instance.
    - Paging.v: mem/mm/paging.c over any frame allocator.  Space.v: the user memory
      an address space shows ([uview]) and its invariant [space_ok].
    - Ring.v: the bounded queue of the input stacks.  Tty.v:
      driver/stacks/input/keyboard_stack.c.  Mouse.v: mouse_stack.c.
    - Bytes.v: bounded little-endian buffers.
    - Pcb.v: process/process.h and the register frame of inter/isr.h.  Percpu.v:
      cpu/percpu.c, spinlock.h and the GS helpers.  Scheduler.v:
      scheduler/scheduler.c.
    - Storage.v: driver/stacks/storage/block.c and partition.c, over the functions
      of a hardware driver as parameters.
    - Elf.v: exec/elf.c.  Image.v: the part of process/process.c that fills an
      address space (segments, relocations, stacks); ImageDemo.v: its theorems at
      concrete states.
    - Vfs.v: fs/vfs.c, over records of file-system operations; the class
      [FileSystem] states what a file system owes its callers.
    - Process.v: the rest of process/process.c over the interface [ProcessKernel]
      (heap, address spaces, loader); Machine.v: the instance made of the
      definitions of the files above, and concrete states.
    - FatName.v: the names of fs/fat32.c (8.3 and long names, paths).  Fat.v: its
      allocation table, chains, positioned reads and writes, in a state monad over
      the interface [BlockIO]/[BlockIOOk] of a disk and a heap.  FatDir.v: its
      directories and the operations it registers with the virtual file system.
      FatDemo.v: a disk with its laws, volumes, and the theorems at them.

    ** What is proved

    - Frames: allocation is next fit, contiguous allocation first fit, exactly the
      returned frames change state, freeing undoes allocating, and after [pmm_init]
      a frame is free exactly when the memory map says so and nothing reserved
      touches it.
    - Heap: on a well-formed heap allocation and freeing end, keep the block list
      well formed and every live block with its contents, return memory apart from
      all of it, and conserve sizes.
    - Paging: mapping and unmapping change exactly the addressed page; a new address
      space has the kernel's mappings and nothing ring 3 can reach.
    - Scheduler: every operation refines an operation on lists of processes; a
      preempted process resumes with its registers and address space; the result of
      ticks and exits on every branch; which processor a new process goes to.
    - Input: no sequence of calls leaves the buffers; typed lines and raw bytes come
      back edited, in order and complete up to the capacity.
    - Storage: any disk contents are scanned without leaving the buffers; transfers
      through a partition stay inside it.
    - Programs: the ELF parser stays in the file and accepts exactly the headers of
      the reference definition; segments, stack, relocations and arguments appear in
      the process's memory as they should and nothing else changes; [execve] is all
      or nothing; [fork] and [waitpid] do what they say.
    - Files: descriptors implement a file with a position over any file system that
      has the laws; bytes written are read back; opening and mounting.
    - FAT32: table entries, chains, positioned reads and writes change and return
      exactly what they should on any well-formed volume ([vol], [chain]), other
      files included; names survive encoding; a created entry is found again.
    - Where the code does not do what it is meant to, a theorem says what it does
      (starvation of a third process, the return into a destroyed process, frame
      zero, the lost header of a split block, the scan of a full directory that
      never ends, the long name read outside its buffer).

    ** Not modelled

    Assembly (entry paths, context switch, trampolines), port and register I/O
    (PS/2, PIT, PIC, IDE, AHCI, PCI, serial, APIC), descriptor tables, start-up
    order, debug output, the TLB and caches; user programs.  Hardware drivers appear
    as the functions and reports they give to the modelled layers.  [ProcessKernelOk]
    is discharged by a small memory layer, not by the whole machine: the heap and
    the page tables are proved separately, each against the frame allocator.

    ** Plan

    The system-call dispatcher over Process.v, Vfs.v and Tty.v; the escape-sequence
    interpreter of the text screen; the ACPI table walk of the multiprocessor
    start-up; whole-file operations of FAT32 against the laws of [FileSystem]. *)

From stdpp Require Import prelude numbers list.
From Stdlib Require Import ZArith Lia.

Open Scope Z_scope.

Create HintDb kern.

(** ** Machine integers *)

(** Unsigned C types of width 8, 16, 32 and 64: a value is a [Z] and every
    assignment or cast to the type is the reduction below. *)
Definition u8 (x : Z) : Z := x mod 256.
Definition u16 (x : Z) : Z := x mod 65536.
Definition u32 (x : Z) : Z := x mod 4294967296.
Definition u64 (x : Z) : Z := x mod 18446744073709551616.

(** Two's complement reading of the same widths. *)
Definition signed_of (m x : Z) : Z :=
  if x mod m <? m / 2 then x mod m else x mod m - m.
Definition s8 (x : Z) : Z := signed_of 256 x.
Definition s16 (x : Z) : Z := signed_of 65536 x.
Definition s32 (x : Z) : Z := signed_of 4294967296 x.
Definition s64 (x : Z) : Z := signed_of 18446744073709551616 x.

(** The C truth value of an integer. *)
Definition truthy (x : Z) : bool := negb (x =? 0).

Definition is_u8 (x : Z) : Prop := 0 ≤ x < 256.
Definition is_u32 (x : Z) : Prop := 0 ≤ x < 4294967296.
Definition is_u64 (x : Z) : Prop := 0 ≤ x < 18446744073709551616.

Lemma u8_range x : 0 ≤ u8 x < 256.
Proof. apply Z.mod_pos_bound. lia. Qed.
Lemma u16_range x : 0 ≤ u16 x < 65536.
Proof. apply Z.mod_pos_bound. lia. Qed.
Lemma u32_range x : 0 ≤ u32 x < 4294967296.
Proof. apply Z.mod_pos_bound. lia. Qed.
Lemma u64_range x : 0 ≤ u64 x < 18446744073709551616.
Proof. apply Z.mod_pos_bound. lia. Qed.
Lemma u8_small x : 0 ≤ x < 256 → u8 x = x.
Proof. apply Z.mod_small. Qed.
Lemma u16_small x : 0 ≤ x < 65536 → u16 x = x.
Proof. apply Z.mod_small. Qed.
Lemma u32_small x : 0 ≤ x < 4294967296 → u32 x = x.
Proof. apply Z.mod_small. Qed.
Lemma u64_small x : 0 ≤ x < 18446744073709551616 → u64 x = x.
Proof. apply Z.mod_small. Qed.

#[export] Hint Resolve u8_range u16_range u32_range u64_range : kern.
#[export] Hint Rewrite u8_small u16_small u32_small u64_small using lia : kern.

(** ** Tactics *)

(** Splits on the boolean or match the goal (then a hypothesis) is stuck on. *)
Ltac split_if :=
  match goal with
  | |- context [if ?b then _ else _] => destruct b eqn:?
  | H : context [if ?b then _ else _] |- _ => destruct b eqn:?
  end.

(** Removes a reduction modulo the type width when [lia] shows it is idle. *)
Ltac unwrap :=
  repeat first
    [ rewrite u8_small by lia | rewrite u16_small by lia
    | rewrite u32_small by lia | rewrite u64_small by lia ].

(** [lia] with the quotient and remainder equations of every division in sight. *)
Ltac dlia := Z.div_mod_to_equations; lia.
Ltac dnia := Z.div_mod_to_equations; nia.

(** Turns [a && b = true] and friends into their components. *)
Ltac bsimp :=
  repeat match goal with
  | H : andb _ _ = true |- _ => apply andb_true_iff in H; destruct H
  | H : orb _ _ = false |- _ => apply orb_false_iff in H; destruct H
  | H : negb _ = true |- _ => apply negb_true_iff in H
  | H : negb _ = false |- _ => apply negb_false_iff in H
  end.

(** Proves the first premise of [H] as a subgoal and specializes [H] with it. *)
Ltac feed H :=
  match type of H with
  | ?P → _ => let h := fresh in assert P as h; [|specialize (H h); clear h]
  end.

(** ** Signed readings *)

Lemma signed_of_id m x : 0 < m → m mod 2 = 0 → - (m / 2) ≤ x < m / 2 → signed_of m x = x.
Proof.
  intros Hm He Hx. unfold signed_of. assert (m = 2 * (m / 2)) by dlia.
  destruct (Z.le_gt_cases 0 x).
  - rewrite Z.mod_small by lia. split_if; lia.
  - replace (x mod m) with (x + m); [split_if; lia|].
    rewrite <- (Z.mod_small (x + m) m) by lia. rewrite <- (Z_mod_plus_full x 1 m). f_equal. lia.
Qed.
Lemma s64_id x : -9223372036854775808 ≤ x < 9223372036854775808 → s64 x = x.
Proof. intros Hx. by apply signed_of_id. Qed.
Lemma s32_id x : -2147483648 ≤ x < 2147483648 → s32 x = x.
Proof. intros Hx. by apply signed_of_id. Qed.

(** ** Options *)

Lemma bind_some {A B} (x : A) (f : A → option B) : (Some x ≫= f) = f x.
Proof. done. Qed.

(** Runs the next bound computation once it is known to be [Some _]. *)
Ltac obind := rewrite bind_some; cbv beta.

(** ** Bits *)

Lemma truthy_land_1 x : truthy (Z.land x 1) = Z.testbit x 0.
Proof.
  change 1 with (Z.ones 1). rewrite Z.land_ones by lia. change (2 ^ 1) with 2.
  rewrite <- Z.bit0_mod. by destruct (Z.testbit x 0).
Qed.

Lemma land_7 x : Z.land x 7 = x mod 8.
Proof. change 7 with (Z.ones 3). by rewrite Z.land_ones by lia. Qed.

Lemma shiftr_3 x : Z.shiftr x 3 = x / 8.
Proof. by rewrite Z.shiftr_div_pow2 by lia. Qed.

Lemma byte_pos_inj i j : i / 8 = j / 8 → i mod 8 = j mod 8 → i = j.
Proof. dlia. Qed.

Lemma testbit_u8 x k : 0 ≤ k < 8 → Z.testbit (u8 x) k = Z.testbit x k.
Proof. intros H. unfold u8. change 256 with (2 ^ 8). by rewrite Z.mod_pow2_bits_low by lia. Qed.

Lemma testbit_shiftl_1 j k : 0 ≤ j → 0 ≤ k → Z.testbit (Z.shiftl 1 j) k = (j =? k).
Proof.
  intros Hj Hk. rewrite Z.shiftl_1_l, Z.pow2_bits_eqb by lia. done.
Qed.

Lemma u64_land x : u64 x = Z.land x (Z.ones 64).
Proof. by rewrite Z.land_ones by lia. Qed.

(** Masking a [uint64_t] does not see the bits of the mask above the width. *)
Lemma land_u64_r x y : is_u64 x → Z.land x (u64 y) = Z.land x y.
Proof.
  intros Hx. rewrite <- (u64_small x) at 2 by done. rewrite !u64_land, Z.land_assoc.
  by rewrite <- Z.land_assoc, (Z.land_comm y), Z.land_assoc.
Qed.

(** Clearing the low [k] bits rounds down. *)
Lemma land_lnot_ones x k : 0 ≤ k → Z.land x (Z.lnot (Z.ones k)) = x / 2 ^ k * 2 ^ k.
Proof.
  intros Hk. rewrite <- Z.ldiff_land, Z.ldiff_ones_r by lia.
  by rewrite Z.shiftl_mul_pow2, Z.shiftr_div_pow2 by lia.
Qed.

Lemma round_down_mask x k :
  0 ≤ k → is_u64 x → Z.land x (u64 (Z.lnot (2 ^ k - 1))) = x / 2 ^ k * 2 ^ k.
Proof.
  intros Hk Hx. rewrite land_u64_r by done. rewrite <- land_lnot_ones by done.
  by rewrite Z.ones_equiv, <- Z.sub_1_r.
Qed.

Lemma truthy_land_pow2 x k : 0 ≤ k → truthy (Z.land x (2 ^ k)) = Z.testbit x k.
Proof.
  intros Hk. unfold truthy. destruct (Z.testbit x k) eqn:E.
  - destruct (Z.eqb_spec (Z.land x (2 ^ k)) 0) as [H0|]; [|done].
    apply (f_equal (λ z, Z.testbit z k)) in H0.
    rewrite Z.land_spec, Z.pow2_bits_true, E, Z.bits_0 in H0 by lia. done.
  - replace (Z.land x (2 ^ k)) with 0; [done|]. symmetry. apply Z.bits_inj'. intros n Hn.
    rewrite Z.land_spec, Z.bits_0, Z.pow2_bits_eqb by lia.
    destruct (Z.eqb_spec k n); [subst; by rewrite E|apply andb_false_r].
Qed.

Lemma lor_lt_pow2 a b k : 0 ≤ k → 0 ≤ a < 2 ^ k → 0 ≤ b < 2 ^ k → 0 ≤ Z.lor a b < 2 ^ k.
Proof.
  intros Hk Ha Hb. assert (0 ≤ Z.lor a b) by (apply Z.lor_nonneg; lia). split; [done|].
  assert (Z.lor a b / 2 ^ k = 0) as E.
  { rewrite <- Z.shiftr_div_pow2, Z.shiftr_lor, !Z.shiftr_div_pow2, !Z.div_small by lia. done. }
  apply Z.div_small_iff in E; [|apply Z.pow_nonzero; lia]. destruct E; [lia|].
  pose proof (Z.pow_nonneg 2 k). lia.
Qed.

(** Low flag bits or'ed onto an aligned value. *)
Lemma lor_add a v k : 0 ≤ k → 0 ≤ a < 2 ^ k → Z.lor a (Z.shiftl v k) = a + v * 2 ^ k.
Proof.
  intros Hk Ha. assert (Z.land a (Z.shiftl v k) = 0) as E.
  { apply Z.bits_inj'. intros n Hn. rewrite Z.land_spec, Z.bits_0. destruct (Z.lt_ge_cases n k).
    - rewrite Z.shiftl_spec_low by lia. apply andb_false_r.
    - rewrite <- (Z.mod_small a (2 ^ k)) by done. by rewrite Z.mod_pow2_bits_high by lia. }
  rewrite <- Z.lxor_lor, <- Z.add_nocarry_lxor by done. by rewrite Z.shiftl_mul_pow2.
Qed.

Lemma lor_aligned_add p f k : 0 ≤ k → p mod 2 ^ k = 0 → 0 ≤ f < 2 ^ k → Z.lor p f = p + f.
Proof.
  intros Hk Hp Hf. assert (p = p / 2 ^ k * 2 ^ k) as E by (pose proof (Z.div_mod p (2 ^ k)); lia).
  rewrite E at 1. rewrite <- Z.shiftl_mul_pow2, Z.lor_comm, lor_add by done. lia.
Qed.

Lemma lor_low_div p f k : 0 ≤ k → 0 ≤ f < 2 ^ k → Z.lor p f / 2 ^ k = p / 2 ^ k.
Proof.
  intros Hk Hf. rewrite <- !Z.shiftr_div_pow2, Z.shiftr_lor by lia.
  rewrite (Z.shiftr_div_pow2 f), Z.div_small by lia. apply Z.lor_0_r.
Qed.

Lemma testbit_aligned p k j : 0 ≤ j < k → p mod 2 ^ k = 0 → Z.testbit p j = false.
Proof.
  intros Hj Hp. rewrite <- (Z.mod_pow2_bits_low p k j) by lia. by rewrite Hp, Z.bits_0.
Qed.

(** ** Loops *)

(** A C loop is a step function on its local state: [inl] goes round again,
    [inr] leaves the loop ([break], [return], or the condition failing).  The
    iterator takes its fuel in binary, so a bound as large as [2^64] can be
    given and an early exit costs nothing. *)
Section Loops.
Context {St R : Type}.

Fixpoint iter_pos (p : positive) (body : St → St + R) (s : St) : St + R :=
  match p with
  | xH => body s
  | xO q => match iter_pos q body s with
            | inl s1 => iter_pos q body s1
            | inr r => inr r
            end
  | xI q => match body s with
            | inl s0 => match iter_pos q body s0 with
                        | inl s1 => iter_pos q body s1
                        | inr r => inr r
                        end
            | inr r => inr r
            end
  end.

Fixpoint iter_nat (n : nat) (body : St → St + R) (s : St) : St + R :=
  match n with
  | O => inl s
  | Datatypes.S k => match body s with
                     | inl s1 => iter_nat k body s1
                     | inr r => inr r
                     end
  end.

Lemma iter_nat_add n k body s :
  iter_nat (n + k) body s =
  match iter_nat n body s with inl s1 => iter_nat k body s1 | inr r => inr r end.
Proof.
  revert s; induction n as [|n IH]; intros s; simpl; [done|].
  destruct (body s) as [s1|r]; [apply IH|done].
Qed.

Lemma iter_pos_nat p body s : iter_pos p body s = iter_nat (Pos.to_nat p) body s.
Proof.
  revert s; induction p as [q IH|q IH|]; intros s.
  - replace (Pos.to_nat q~1) with (Datatypes.S (Pos.to_nat q + Pos.to_nat q)) by lia.
    simpl. destruct (body s) as [s0|r]; [|done].
    rewrite iter_nat_add, IH.
    destruct (iter_nat (Pos.to_nat q) body s0); [apply IH|done].
  - replace (Pos.to_nat q~0) with (Pos.to_nat q + Pos.to_nat q)%nat by lia.
    simpl. rewrite iter_nat_add, IH.
    destruct (iter_nat (Pos.to_nat q) body s); [apply IH|done].
  - simpl. by destruct (body s).
Qed.

(** [while (..) { .. }] with a bound on the number of rounds; [None] is a loop
    that has not finished within the bound. *)
Definition while_ (fuel : positive) (body : St → St + R) (s : St) : option R :=
  match iter_pos fuel body s with
  | inl _ => None
  | inr r => Some r
  end.

Lemma iter_nat_inv (I : St → Prop) (Q : R → Prop) n body s :
  I s →
  (∀ s, I s → match body s with inl s' => I s' | inr r => Q r end) →
  match iter_nat n body s with inl s' => I s' | inr r => Q r end.
Proof.
  intros Hs Hb. revert s Hs; induction n as [|n IH]; intros s Hs; simpl; [done|].
  pose proof (Hb s Hs) as H. destruct (body s) as [s'|r]; [by apply IH|done].
Qed.

Lemma while_partial (I : St → Prop) (Q : R → Prop) fuel body s r :
  I s →
  (∀ s, I s → match body s with inl s' => I s' | inr r => Q r end) →
  while_ fuel body s = Some r → Q r.
Proof.
  intros Hs Hb. unfold while_. rewrite iter_pos_nat.
  pose proof (iter_nat_inv I Q (Pos.to_nat fuel) body s Hs Hb) as H.
  destruct (iter_nat _ _ _); [done|]. by intros [= <-].
Qed.

(** Total correctness: an invariant and a measure bounded by the fuel. *)
Lemma while_total (I : St → Prop) (μ : St → Z) (Q : R → Prop) fuel body s :
  I s → μ s < Zpos fuel →
  (∀ s, I s → 0 ≤ μ s ∧
     match body s with inl s' => I s' ∧ μ s' < μ s | inr r => Q r end) →
  ∃ r, while_ fuel body s = Some r ∧ Q r.
Proof.
  intros Hs Hm Hb. unfold while_. rewrite iter_pos_nat.
  assert (μ s < Z.of_nat (Pos.to_nat fuel)) as Hm' by lia.
  clear Hm. revert s Hs Hm'.
  induction (Pos.to_nat fuel) as [|n IH]; intros s Hs Hm; simpl.
  - destruct (Hb s Hs). lia.
  - destruct (Hb s Hs) as [H0 H1]. destruct (body s) as [s'|r]; [|by exists r].
    destruct H1. apply IH; [done|lia].
Qed.

(** A loop that can always go round again never finishes, whatever the bound. *)
Lemma while_diverges (I : St → Prop) fuel body s :
  I s → (∀ s, I s → ∃ s', body s = inl s' ∧ I s') → while_ fuel body s = None.
Proof.
  intros Hs Hb. unfold while_. rewrite iter_pos_nat. revert s Hs.
  induction (Pos.to_nat fuel) as [|n IH]; intros s Hs; simpl; [done|].
  destruct (Hb s Hs) as (s' & -> & Hs'). auto.
Qed.

Lemma iter_nat_more k n body s r :
  iter_nat k body s = inr r → (k ≤ n)%nat → iter_nat n body s = inr r.
Proof.
  intros H Hle. replace n with (k + (n - k))%nat by lia. by rewrite iter_nat_add, H.
Qed.

(** A loop known to finish after [k] rounds. *)
Lemma while_steps k fuel body s r :
  iter_nat k body s = inr r → Z.of_nat k ≤ Zpos fuel → while_ fuel body s = Some r.
Proof.
  intros H Hle. unfold while_. rewrite iter_pos_nat.
  rewrite (iter_nat_more k _ body s r) by (done || lia). done.
Qed.

(** [for (i = lo; i < hi; i++) { .. }] whose bounds the body does not change;
    [inr] is an early [return] or [break] carrying its value. *)
Definition for_step (body : Z → St → St + R) (p : Z * St) : Z * St + R :=
  match body p.1 p.2 with inl s' => inl (p.1 + 1, s') | inr r => inr r end.

End Loops.

Section For.
Context {St R : Type}.

Definition for_ (lo hi : Z) (body : Z → St → St + R) (s : St) : St + R :=
  match hi - lo with
  | Zpos p => match iter_pos p (for_step body) (lo, s) with
              | inl q => inl q.2
              | inr r => inr r
              end
  | _ => inl s
  end.

Lemma for_nat lo hi body s :
  for_ lo hi body s =
  match iter_nat (Z.to_nat (hi - lo)) (for_step body) (lo, s) with
  | inl q => inl q.2
  | inr r => inr r
  end.
Proof.
  unfold for_. destruct (hi - lo) as [|p|p] eqn:E; simpl; [done| |done].
  by rewrite iter_pos_nat.
Qed.

Lemma for_end lo hi body s : hi ≤ lo → for_ lo hi body s = inl s.
Proof. intros H. rewrite for_nat. by replace (Z.to_nat (hi - lo)) with 0%nat by lia. Qed.

Lemma for_unfold lo hi body s :
  lo < hi →
  for_ lo hi body s =
  match body lo s with inl s' => for_ (lo + 1) hi body s' | inr r => inr r end.
Proof.
  intros H. rewrite for_nat.
  replace (Z.to_nat (hi - lo)) with (Datatypes.S (Z.to_nat (hi - (lo + 1)))) by lia.
  simpl. unfold for_step at 1. simpl. destruct (body lo s); [|done].
  by rewrite for_nat.
Qed.

Lemma for_ind (I : Z → St → Prop) (Q : R → Prop) lo hi body s :
  lo ≤ hi → I lo s →
  (∀ i s, lo ≤ i < hi → I i s →
     match body i s with inl s' => I (i + 1) s' | inr r => Q r end) →
  match for_ lo hi body s with inl s' => I hi s' | inr r => Q r end.
Proof.
  intros Hle Hs Hb. remember (Z.to_nat (hi - lo)) as n eqn:En.
  revert lo s Hle Hs Hb En. induction n as [|n IH]; intros lo s Hle Hs Hb En.
  - rewrite for_end by lia. by replace hi with lo by lia.
  - rewrite for_unfold by lia. specialize (Hb lo s) as Hlo.
    destruct (body lo s) as [s'|r]; [|apply Hlo; [lia|done]].
    apply IH; [lia|apply Hlo; [lia|done]| |lia].
    intros i t Hi. apply Hb. lia.
Qed.

Lemma for_split lo mid hi body s :
  lo ≤ mid ≤ hi →
  for_ lo hi body s =
  match for_ lo mid body s with inl s' => for_ mid hi body s' | inr r => inr r end.
Proof.
  intros Hle. remember (Z.to_nat (mid - lo)) as n eqn:En.
  revert lo s Hle En. induction n as [|n IH]; intros lo s Hle En.
  - replace mid with lo by lia. by rewrite (for_end lo lo) by lia.
  - rewrite (for_unfold lo hi), (for_unfold lo mid) by lia.
    destruct (body lo s); [|done]. apply IH; lia.
Qed.
End For.

(** The loop without an early exit. *)
Definition for_do {St} (lo hi : Z) (body : Z → St → St) (s : St) : St :=
  match for_ (R:=Empty_set) lo hi (λ i s, inl (body i s)) s with
  | inl s' => s'
  | inr r => match r with end
  end.

Section ForDo.
Context {St : Type}.

Lemma for_do_end lo hi (body : Z → St → St) s : hi ≤ lo → for_do lo hi body s = s.
Proof. intros H. unfold for_do. by rewrite for_end. Qed.

Lemma for_do_unfold lo hi (body : Z → St → St) s :
  lo < hi → for_do lo hi body s = for_do (lo + 1) hi body (body lo s).
Proof. intros H. unfold for_do. by rewrite for_unfold. Qed.

Lemma for_do_ind (I : Z → St → Prop) lo hi (body : Z → St → St) s :
  lo ≤ hi → I lo s →
  (∀ i s, lo ≤ i < hi → I i s → I (i + 1) (body i s)) →
  I hi (for_do lo hi body s).
Proof.
  intros Hle Hs Hb. unfold for_do.
  pose proof (for_ind (R:=Empty_set) I (λ _, False) lo hi
                (λ i s, inl (body i s)) s Hle Hs Hb) as H.
  by destruct (for_ _ _ _ _) as [?|[]].
Qed.

(** One more round at the upper end. *)
Lemma for_do_snoc lo hi (body : Z → St → St) s :
  lo ≤ hi → for_do lo (hi + 1) body s = body hi (for_do lo hi body s).
Proof.
  intros Hle. unfold for_do. rewrite (for_split lo hi (hi + 1)) by lia.
  destruct (for_ lo hi _ s) as [s'|[]].
  by rewrite for_unfold, for_end by lia.
Qed.
End ForDo.
