(* ===== verification/Memory.v ===== *)
(** Byte-addressed memory and the freestanding string/memory layer.

    [mem] is the flat physical memory the identity-mapped kernel works on: one
    byte per address.  The [uint64_t] accesses of the heap and of the page-table
    code are [load64]/[store64] on it (little endian, as on x86-64).  The
    definitions named [k_*] translate mem/lib/memory.c and memory.h; the
    lemmas relate every loop to what it leaves in memory, and the string
    functions to operations on lists of characters ([cstr_at]). *)

From stdpp Require Import prelude numbers list.
From Stdlib Require Import ZArith Lia.
From S2P Require Import Prelude.

Open Scope Z_scope.

Definition mem : Type := Z → Z.

Definition mem_ok (m : mem) : Prop := ∀ a, 0 ≤ m a < 256.

Definition load8 (m : mem) (a : Z) : Z := m a.
Definition store8 (m : mem) (a v : Z) : mem := λ x, if x =? a then u8 v else m x.

Definition load16 (m : mem) (a : Z) : Z := m a + 256 * m (a + 1).
Definition load32 (m : mem) (a : Z) : Z := load16 m a + 65536 * load16 m (a + 2).
Definition load64 (m : mem) (a : Z) : Z := load32 m a + 4294967296 * load32 m (a + 4).

Definition store64 (m : mem) (a v : Z) : mem :=
  λ x, if (a <=? x) && (x <? a + 8) then u8 (Z.shiftr v (8 * (x - a))) else m x.
Definition store32 (m : mem) (a v : Z) : mem :=
  λ x, if (a <=? x) && (x <? a + 4) then u8 (Z.shiftr v (8 * (x - a))) else m x.

(** ** mem/lib/memory.c *)

Definition k_memset (m : mem) (dst value size : Z) : mem :=
  for_do 0 size (λ i m, store8 m (dst + i) value) m.

Definition k_memcpy (m : mem) (dst src size : Z) : mem :=
  for_do 0 size (λ i m, store8 m (dst + i) (load8 m (src + i))) m.

Definition k_memcmp (m : mem) (a b size : Z) : Z :=
  match for_ 0 size
          (λ i (_ : unit),
             if negb (load8 m (a + i) =? load8 m (b + i))
             then inr (load8 m (a + i) - load8 m (b + i)) else inl ()) () with
  | inl _ => 0
  | inr r => r
  end.

(** Rounds given to the string loops: no [size_t] counter takes more values. *)
Definition size_max : positive := 18446744073709551616.

Definition k_strlen (m : mem) (str : Z) : option Z :=
  if str =? 0 then Some 0
  else while_ size_max
         (λ len, if truthy (load8 m (str + len)) then inl (len + 1) else inr len) 0.

(** The comparison loop, over the two character accessors. *)
Definition strncmp_loop (ca cb : Z → Z) (from size : Z) : unit + Z :=
  for_ from size
    (λ i (_ : unit),
       if negb (ca i =? cb i) || (ca i =? 0) || (cb i =? 0)
       then inr (ca i - cb i) else inl ()) ().

Definition k_strncmp (m : mem) (a b size : Z) : Z :=
  match strncmp_loop (λ i, load8 m (a + i)) (λ i, load8 m (b + i)) 0 size with
  | inl _ => 0
  | inr r => r
  end.

(** The first loop stops at [size - 1], at a null [src] or at the terminator;
    the second clears the rest. *)
Definition k_strncpy (m : mem) (dst src size : Z) : mem :=
  if size =? 0 then m
  else
    let '(i, m1) :=
      match for_ 0 (size - 1)
              (λ i m,
                 if truthy src && truthy (load8 m (src + i))
                 then inl (store8 m (dst + i) (load8 m (src + i)))
                 else inr (i, m)) m with
      | inl m1 => (size - 1, m1)
      | inr p => p
      end in
    for_do i size (λ i m, store8 m (dst + i) 0) m1.

(** ** mem/lib/memory.h *)

Definition k_le16 (m : mem) (p : Z) : Z :=
  u16 (Z.lor (load8 m p) (Z.shiftl (load8 m (p + 1)) 8)).

Definition k_le32 (m : mem) (p : Z) : Z :=
  u32 (Z.lor (Z.lor (Z.lor (load8 m p) (Z.shiftl (load8 m (p + 1)) 8))
                    (Z.shiftl (load8 m (p + 2)) 16))
             (Z.shiftl (load8 m (p + 3)) 24)).

Definition k_le64 (m : mem) (p : Z) : Z :=
  u64 (Z.lor (k_le32 m p) (Z.shiftl (k_le32 m (p + 4)) 32)).

(** ** Loads and stores *)

Lemma load64_ext m m' a :
  (∀ x, a ≤ x < a + 8 → m x = m' x) → load64 m a = load64 m' a.
Proof. intros H. unfold load64, load32, load16. rewrite !H by lia. done. Qed.

Lemma load64_store64_ne m a b v :
  a + 8 ≤ b ∨ b + 8 ≤ a → load64 (store64 m a v) b = load64 m b.
Proof.
  intros H. apply load64_ext. intros x Hx. unfold store64. split_if; [lia|done].
Qed.

Lemma load64_store8_ne m a b v :
  a + 1 ≤ b ∨ b + 8 ≤ a → load64 (store8 m a v) b = load64 m b.
Proof. intros H. apply load64_ext. intros x Hx. unfold store8. split_if; [lia|done]. Qed.

Lemma store64_out m a v x : x < a ∨ a + 8 ≤ x → store64 m a v x = m x.
Proof. intros H. unfold store64. split_if; [lia|done]. Qed.

Lemma store64_byte m a v k :
  0 ≤ k < 8 → store64 m a v (a + k) = (v / 2 ^ (8 * k)) mod 256.
Proof.
  intros H. unfold store64. replace ((a <=? a + k) && (a + k <? a + 8)) with true by lia.
  unfold u8. rewrite Z.shiftr_div_pow2 by lia. do 3 f_equal. lia.
Qed.

Lemma load64_store64_eq m a v : is_u64 v → load64 (store64 m a v) a = v.
Proof.
  intros Hv. unfold is_u64 in Hv. unfold load64, load32, load16.
  replace (a + 4 + 2 + 1) with (a + 7) by lia. replace (a + 4 + 2) with (a + 6) by lia.
  replace (a + 4 + 1) with (a + 5) by lia. replace (a + 2 + 1) with (a + 3) by lia.
  replace (store64 m a v a) with (store64 m a v (a + 0)) by (f_equal; lia).
  rewrite !store64_byte by lia. simpl (2 ^ _). dlia.
Qed.

Lemma load64_range m a : mem_ok m → is_u64 (load64 m a).
Proof.
  intros H. unfold is_u64, load64, load32, load16.
  pose proof (H a); pose proof (H (a+1)); pose proof (H (a+2)); pose proof (H (a+2+1)).
  pose proof (H (a+4)); pose proof (H (a+4+1)); pose proof (H (a+4+2)); pose proof (H (a+4+2+1)).
  lia.
Qed.

Lemma mem_ok_store64 m a v : mem_ok m → mem_ok (store64 m a v).
Proof. intros H x. unfold store64. split_if; [apply u8_range|apply H]. Qed.

Lemma mem_ok_store8 m a v : mem_ok m → mem_ok (store8 m a v).
Proof. intros H x. unfold store8. split_if; [apply u8_range|apply H]. Qed.

(** ** What the loops leave in memory *)

Lemma k_memset_at m dst v n x :
  k_memset m dst v n x = if (dst <=? x) && (x <? dst + n) then u8 v else m x.
Proof.
  unfold k_memset. destruct (Z.le_gt_cases n 0) as [Hn|Hn].
  { rewrite for_do_end by lia. split_if; [lia|done]. }
  revert x. apply (for_do_ind (λ i m', ∀ x, m' x =
    if (dst <=? x) && (x <? dst + i) then u8 v else m x)); [lia| |].
  - intros x. split_if; [lia|done].
  - intros i m' Hi IH x. unfold store8. rewrite IH. repeat split_if; try done; lia.
Qed.

Lemma load64_zero m a : (∀ x, a ≤ x < a + 8 → m x = 0) → load64 m a = 0.
Proof. intros H. unfold load64, load32, load16. rewrite !H by lia. lia. Qed.

Lemma mem_ok_memset m d v n : mem_ok m → mem_ok (k_memset m d v n).
Proof. intros H x. rewrite k_memset_at. split_if; [apply u8_range|apply H]. Qed.

Lemma k_memcpy_frame m d s n x : x < d ∨ d + n ≤ x → k_memcpy m d s n x = m x.
Proof.
  intros Hx. unfold k_memcpy. destruct (Z.le_gt_cases n 0) as [Hn|Hn].
  { by rewrite for_do_end by lia. }
  apply (for_do_ind (λ _ m', m' x = m x)); [lia|done|].
  intros i m' Hi IH. unfold store8. split_if; [lia|done].
Qed.

Lemma mem_ok_memcpy m d s n : mem_ok m → mem_ok (k_memcpy m d s n).
Proof.
  intros H. unfold k_memcpy. destruct (Z.le_gt_cases n 0) as [Hn|Hn].
  { by rewrite for_do_end by lia. }
  apply (for_do_ind (λ _ m', mem_ok m')); [lia|done|].
  intros i m' Hi IH. by apply mem_ok_store8.
Qed.

(** A forward byte copy is right as long as the destination does not start
    inside the source: the regions may even overlap with [dst <= src]. *)
Lemma k_memcpy_at m d s n x :
  mem_ok m → (d ≤ s ∨ s + n ≤ d) →
  k_memcpy m d s n x = if (d <=? x) && (x <? d + n) then m (s + (x - d)) else m x.
Proof.
  intros Hok Hd. unfold k_memcpy. destruct (Z.le_gt_cases n 0) as [Hn|Hn].
  { rewrite for_do_end by lia. split_if; [lia|done]. }
  revert x. apply (for_do_ind (λ i m', ∀ x, m' x =
    if (d <=? x) && (x <? d + i) then m (s + (x - d)) else m x)); [lia| |].
  - intros x. split_if; [lia|done].
  - intros i m' Hi IH x. unfold store8, load8. destruct (x =? d + i) eqn:E.
    + replace ((d <=? x) && (x <? d + (i + 1))) with true by lia.
      rewrite IH. replace ((d <=? s + i) && (s + i <? d + i)) with false by lia.
      rewrite u8_small by apply Hok. f_equal. lia.
    + rewrite IH. repeat split_if; try done; lia.
Qed.

(** ** C strings *)

(** [s] is the character list stored at [p], up to its terminator. *)
Definition cstr_at (m : mem) (p : Z) (s : list Z) : Prop :=
  (∀ i c, s !! i = Some c → load8 m (p + Z.of_nat i) = c ∧ 0 < c < 256) ∧
  load8 m (p + Z.of_nat (length s)) = 0.

Definition chr (s : list Z) (i : Z) : Z := nth (Z.to_nat i) s 0.

(** [k_strncmp] on character lists; reading at or after the end gives the
    terminator, and the loop leaves there. *)
Definition strncmp (a b : list Z) (n : Z) : Z :=
  match strncmp_loop (chr a) (chr b) 0 n with
  | inl _ => 0
  | inr r => r
  end.

Lemma chr_end s : chr s (Z.of_nat (length s)) = 0.
Proof. unfold chr. apply nth_overflow. lia. Qed.

Lemma cstr_at_chr m p s i :
  cstr_at m p s → 0 ≤ i ≤ Z.of_nat (length s) → load8 m (p + i) = chr s i.
Proof.
  intros [Hc H0] Hi. unfold chr. destruct (decide (i = Z.of_nat (length s))) as [->|Hne].
  - rewrite H0, nth_overflow; [done|lia].
  - destruct (lookup_lt_is_Some_2 s (Z.to_nat i)) as [c Hc']; [lia|].
    rewrite (nth_lookup_Some s (Z.to_nat i) 0 c Hc').
    apply Hc in Hc' as [Hl _]. by rewrite Z2Nat.id in Hl by lia.
Qed.

Lemma cstr_chr_pos m p s i :
  cstr_at m p s → 0 ≤ i < Z.of_nat (length s) → 0 < chr s i < 256.
Proof.
  intros [Hc _] Hi. unfold chr.
  destruct (lookup_lt_is_Some_2 s (Z.to_nat i)) as [c Hc']; [lia|].
  rewrite (nth_lookup_Some s (Z.to_nat i) 0 c Hc'). by apply Hc in Hc' as [_ ?].
Qed.

Lemma k_strlen_cstr m p s :
  p ≠ 0 → cstr_at m p s → Z.of_nat (length s) < 18446744073709551616 →
  k_strlen m p = Some (Z.of_nat (length s)).
Proof.
  intros Hp Hs Hl. unfold k_strlen. replace (p =? 0) with false by lia.
  destruct (while_total (λ len, 0 ≤ len ≤ Z.of_nat (length s))
    (λ len, Z.of_nat (length s) - len) (λ r, r = Z.of_nat (length s)) size_max
    (λ len, if truthy (load8 m (p + len)) then inl (len + 1) else inr len) 0)
    as (r & -> & ->); [lia|unfold size_max; lia| |done].
  intros len Hlen. split; [lia|]. unfold truthy.
  rewrite (cstr_at_chr m p s) by (done || lia).
  destruct (decide (len = Z.of_nat (length s))) as [->|].
  - unfold chr. rewrite nth_overflow by lia. done.
  - pose proof (cstr_chr_pos m p s len Hs). split_if; lia.
Qed.

Lemma strncmp_loop_cstr m a b sa sb n k :
  cstr_at m a sa → cstr_at m b sb →
  0 ≤ k → k ≤ Z.of_nat (length sa) → k ≤ Z.of_nat (length sb) →
  strncmp_loop (λ i, load8 m (a + i)) (λ i, load8 m (b + i)) k n =
  strncmp_loop (chr sa) (chr sb) k n.
Proof.
  intros Ha Hb. unfold strncmp_loop.
  remember (Z.to_nat (n - k)) as d eqn:Ed. revert k Ed.
  induction d as [|d IH]; intros k Ed Hk Hka Hkb; [by rewrite !for_end by lia|].
  rewrite !for_unfold by lia. cbv beta.
  rewrite (cstr_at_chr m a sa), (cstr_at_chr m b sb) by (done || lia).
  destruct (negb (chr sa k =? chr sb k) || (chr sa k =? 0) || (chr sb k =? 0)) eqn:E; [done|].
  assert (k ≠ Z.of_nat (length sa) ∧ k ≠ Z.of_nat (length sb)) as [? ?].
  { bsimp. split; intros ->; rewrite chr_end in *; done. }
  apply IH; lia.
Qed.

(** The pointer routine computes the list routine, whatever the bound. *)
Lemma k_strncmp_cstr m a b sa sb n :
  cstr_at m a sa → cstr_at m b sb → k_strncmp m a b n = strncmp sa sb n.
Proof.
  intros Ha Hb. unfold k_strncmp, strncmp.
  by rewrite (strncmp_loop_cstr m a b sa sb) by (done || lia).
Qed.

(** [strncmp] is zero exactly when the two strings agree on the first [n]
    characters. *)
Lemma strncmp_zero a b n :
  (∀ i, 0 ≤ i < Z.of_nat (length a) → chr a i ≠ 0) → 0 ≤ n ≤ Z.of_nat (length a) →
  strncmp a b n = 0 ↔ (∀ i, 0 ≤ i < n → chr a i = chr b i).
Proof.
  intros Ha Hn. unfold strncmp, strncmp_loop. split.
  - intros H. eassert (match for_ 0 n _ () with
      | inl _ => ∀ i, 0 ≤ i < n → chr a i = chr b i | inr r => r ≠ 0 end) as Hf.
    { apply (for_ind (λ k _, ∀ i, 0 ≤ i < k → chr a i = chr b i) (λ r, r ≠ 0)
        0 n (λ i (_ : unit),
       if negb (chr a i =? chr b i) || (chr a i =? 0) || (chr b i =? 0)
       then inr (chr a i - chr b i) else inl ())); [lia|lia|].
      intros i [] Hi IH. pose proof (Ha i). split_if; [lia|]. bsimp. intros j Hj.
      destruct (decide (j = i)) as [->|]; [lia|apply IH; lia]. }
    by destruct (for_ _ _ _ _).
  - intros H. pose proof (for_ind (λ _ (_ : unit), True) (λ r, r = 0) 0 n (λ i (_ : unit),
       if negb (chr a i =? chr b i) || (chr a i =? 0) || (chr b i =? 0)
       then inr (chr a i - chr b i) else inl ()) ()) as Hf.
    cbv beta in Hf. destruct (for_ _ _ _ _); [done|]. apply Hf; [lia|done|].
    intros i [] Hi _. rewrite (H i) by lia. split_if; [lia|done].
Qed.

Lemma chr_take s n i : 0 ≤ i → chr (take (Z.to_nat n) s) i = if i <? n then chr s i else 0.
Proof.
  intros Hi. unfold chr. rewrite !nth_lookup. split_if.
  - by rewrite lookup_take_lt by lia.
  - by rewrite lookup_take_ge by lia.
Qed.

Lemma chr_pos_length m p s i : cstr_at m p s → 0 ≤ i → chr s i ≠ 0 → i < Z.of_nat (length s).
Proof.
  intros _ Hi H. unfold chr in H. destruct (Z.lt_ge_cases i (Z.of_nat (length s))); [done|].
  rewrite nth_overflow in H; lia.
Qed.

(** The copy loop of [k_strncpy]: it stops at the first index [i] that is the
    end of the string or the last slot, having copied everything before it. *)
Lemma strncpy_copy m dst src s size :
  mem_ok m → src ≠ 0 → cstr_at m src s → 0 < size →
  (dst + size ≤ src ∨ src + Z.of_nat (length s) < dst) →
  let r := match for_ 0 (size - 1)
              (λ i m,
                 if truthy src && truthy (load8 m (src + i))
                 then inl (store8 m (dst + i) (load8 m (src + i)))
                 else inr (i, m)) m with
           | inl m1 => (size - 1, m1)
           | inr p => p
           end in
  0 ≤ r.1 ≤ size - 1 ∧ (r.1 = size - 1 ∨ chr s r.1 = 0) ∧ r.1 ≤ Z.of_nat (length s) ∧
  ∀ x, r.2 x = if (dst <=? x) && (x <? dst + r.1) then chr s (x - dst) else m x.
Proof.
  intros Hok Hsrc Hs Hsz Hdis r.
  set (J := λ i m', i ≤ Z.of_nat (length s) ∧
    ∀ x, m' x = if (dst <=? x) && (x <? dst + i) then chr s (x - dst) else m x).
  pose proof (for_ind J (λ p, 0 ≤ p.1 ≤ size - 1 ∧ chr s p.1 = 0 ∧ J p.1 p.2) 0 (size - 1)
    (λ i m, if truthy src && truthy (load8 m (src + i))
            then inl (store8 m (dst + i) (load8 m (src + i))) else inr (i, m)) m) as Hf.
  cbv beta in Hf. unfold r.
  assert (J 0 m) as HJ0. { split; [lia|]. intros x. split_if; [lia|done]. }
  feed Hf; [lia|]. specialize (Hf HJ0). feed Hf.
  - intros i m' Hi [Hl HJ].
    assert (load8 m' (src + i) = chr s i) as Hc.
    { unfold load8. rewrite HJ. split_if; [lia|]. apply cstr_at_chr; [done|lia]. }
    unfold truthy. replace (src =? 0) with false by lia. rewrite Hc.
    destruct (Z.eqb_spec (chr s i) 0) as [E|E]; simpl; [split_and!; (lia || done)|].
    pose proof (chr_pos_length m src s i Hs).
    split; [lia|]. intros x. unfold store8. rewrite HJ.
    destruct (Z.eqb_spec x (dst + i)) as [->|].
    + replace ((dst <=? dst + i) && (dst + i <? dst + (i + 1))) with true by lia.
      replace (dst + i - dst) with i by lia. apply u8_small.
      pose proof (cstr_chr_pos m src s i Hs). lia.
    + repeat split_if; try done; lia.
  - destruct (for_ _ _ _ _) as [m1|[i m1]]; simpl.
    + destruct Hf. split_and!; [lia|lia|by left|lia|done].
    + simpl in Hf. destruct Hf as (? & ? & ? & ?). split_and!; [lia|lia|by right|lia|done].
Qed.

(** The copy is the longest prefix of the string that leaves room for the
    terminator, and the rest of the buffer is cleared: the result is always
    terminated. *)
Lemma k_strncpy_at m dst src s size x :
  mem_ok m → src ≠ 0 → cstr_at m src s → 0 < size →
  (dst + size ≤ src ∨ src + Z.of_nat (length s) < dst) →
  k_strncpy m dst src size x =
  if (dst <=? x) && (x <? dst + size)
  then chr (take (Z.to_nat (size - 1)) s) (x - dst) else m x.
Proof.
  intros Hok Hsrc Hs Hsz Hdis. unfold k_strncpy. replace (size =? 0) with false by lia.
  pose proof (strncpy_copy m dst src s size Hok Hsrc Hs Hsz Hdis) as H.
  cbv zeta in H. destruct (match for_ _ _ _ _ with inl _ => _ | inr p => p end) as [i m1].
  simpl in H. destruct H as (Hi & Hend & Hle & Hm1).
  assert (∀ x, for_do i size (λ i m, store8 m (dst + i) 0) m1 x =
            if (dst + i <=? x) && (x <? dst + size) then 0 else m1 x) as Hz.
  { apply (for_do_ind (λ k m', ∀ x, m' x =
      if (dst + i <=? x) && (x <? dst + k) then 0 else m1 x)); [lia| |].
    - intros y. split_if; [lia|done].
    - intros k m' Hk IH y. unfold store8. rewrite IH. repeat split_if; try done; lia. }
  rewrite Hz, Hm1. destruct (Z.le_gt_cases dst x) as [Hx|Hx].
  2: { repeat split_if; lia || done. }
  rewrite chr_take by lia. repeat split_if; try lia; try done.
  unfold chr. destruct Hend as [->|Hend]; [lia|].
  destruct (Z.le_gt_cases (Z.of_nat (length s)) i) as [?|Hlt].
  { rewrite nth_overflow; [done|lia]. }
  pose proof (cstr_chr_pos m src s i Hs). lia.
Qed.
