(* ===== verification/Descriptors.v ===== *)
(** Descriptor tables (arch/x86_64/inter/gdt.c, gdt.h, idt.c, idt.h and the segment
    setup of arch/x86_64/syscall/syscall_init.c).

    The tables are bytes of the kernel's memory: a processor's GDT of seven 8-byte
    slots, its TSS of 104 bytes, and the IDT of 256 16-byte gates.  The operations
    store the packed fields one by one, as the code does.  [segment_at],
    [tss_segment_at] and [gate_at] read a descriptor back the way the processor does;
    the theorems say what it finds after the tables were built, and that the segments
    [syscall] and [sysret] load are the ones the table has for them.  The addresses of
    the tables and of the interrupt stubs are those of the linker, arguments here;
    loading the registers (lgdt, ltr, lidt) is assembly. *)

From stdpp Require Import prelude numbers list functions.
From Stdlib Require Import ZArith Lia.
From S2P Require Import Prelude Memory.

Open Scope Z_scope.

Definition GDT_SEL_NULL : Z := 0x00.
Definition GDT_SEL_KCODE : Z := 0x08.
Definition GDT_SEL_KDATA : Z := 0x10.
Definition GDT_SEL_UDATA : Z := 0x18.
Definition GDT_SEL_UCODE : Z := 0x20.
Definition GDT_SEL_TSS : Z := 0x28.
Definition GDT_ENTRY_COUNT : Z := 7.
Definition IDT_ENTRIES : Z := 256.
Definition IDT_GATE_INTERRUPT : Z := 0x8E.

Definition sizeof_gdt_entry : Z := 8.
Definition sizeof_tss : Z := 104.
Definition sizeof_idt_entry : Z := 16.

Definition store16 (m : mem) (a v : Z) : mem :=
  λ x, if (a <=? x) && (x <? a + 2) then u8 (Z.shiftr v (8 * (x - a))) else m x.

(** ** gdt.c *)

(** [base_low] is a 16-bit field, but is assigned an 8-bit value. *)
Definition gdt_set_entry (m : mem) (gdt index base limit access granularity : Z) : mem :=
  let e := gdt + index * sizeof_gdt_entry in
  let m := store16 m (e + 2) (u8 (Z.land base 0xFFFF)) in
  let m := store8 m (e + 4) (Z.land (Z.shiftr base 16) 0xFF) in
  let m := store8 m (e + 7) (Z.land (Z.shiftr base 24) 0xFF) in
  let m := store16 m e (Z.land limit 0xFFFF) in
  let m := store8 m (e + 6) (Z.land (Z.shiftr limit 16) 0x0F) in
  let m := store8 m (e + 6) (Z.lor (load8 m (e + 6)) (Z.land granularity 0xF0)) in
  store8 m (e + 5) access.

Definition gdt_set_tss (m : mem) (gdt index base limit : Z) : mem :=
  let desc := gdt + index * sizeof_gdt_entry in
  let m := store16 m desc (Z.land limit 0xFFFF) in
  let m := store16 m (desc + 2) (Z.land base 0xFFFF) in
  let m := store8 m (desc + 4) (Z.land (Z.shiftr base 16) 0xFF) in
  let m := store8 m (desc + 5) 0x89 in
  let m := store8 m (desc + 6) (Z.land (Z.shiftr limit 16) 0x0F) in
  let m := store8 m (desc + 7) (Z.land (Z.shiftr base 24) 0xFF) in
  let m := store32 m (desc + 8) (u32 (Z.shiftr base 32)) in
  store32 m (desc + 12) 0.

(** The fields of a TSS: [rsp0] at 4, [iomap_base] at 102. *)
Definition tss_set_kernel_stack (m : mem) (tss rsp0 : Z) : mem := store64 m (tss + 4) rsp0.

Definition clear_tss (m : mem) (tss : Z) : mem :=
  for_do tss (tss + sizeof_tss) (λ p m, store8 m p 0) m.

Definition gdt_build_ap (m : mem) (ap_gdt ap_tss rsp0 : Z) : mem :=
  let m := clear_tss m ap_tss in
  let m := store16 m (ap_tss + 102) sizeof_tss in
  let m := store64 m (ap_tss + 4) rsp0 in
  let m := gdt_set_entry m ap_gdt 0 0 0 0 0 in
  let m := gdt_set_entry m ap_gdt 1 0 0xFFFFF 0x9A 0xA0 in
  let m := gdt_set_entry m ap_gdt 2 0 0xFFFFF 0x92 0xC0 in
  let m := gdt_set_entry m ap_gdt 3 0 0xFFFFF 0xF2 0xC0 in
  let m := gdt_set_entry m ap_gdt 4 0 0xFFFFF 0xFA 0xA0 in
  gdt_set_tss m ap_gdt 5 ap_tss (sizeof_tss - 1).

(** What [lgdt] and [lidt] are given. *)
Record table_ptr : Type := TablePtr { tp_limit : Z; tp_base : Z }.

Definition gdt_load_cpu (ap_gdt : Z) : table_ptr := TablePtr (sizeof_gdt_entry * 7 - 1) ap_gdt.

Definition gdt_init (m : mem) (gdt tss : Z) : table_ptr * mem :=
  let gdtr := TablePtr (sizeof_gdt_entry * GDT_ENTRY_COUNT - 1) gdt in
  let m := gdt_set_entry m gdt 0 0 0 0 0 in
  let m := gdt_set_entry m gdt 1 0 0xFFFFF 0x9A 0xA0 in
  let m := gdt_set_entry m gdt 2 0 0xFFFFF 0x92 0xC0 in
  let m := gdt_set_entry m gdt 3 0 0xFFFFF 0xF2 0xC0 in
  let m := gdt_set_entry m gdt 4 0 0xFFFFF 0xFA 0xA0 in
  let m := clear_tss m tss in
  let m := store16 m (tss + 102) sizeof_tss in
  (gdtr, gdt_set_tss m gdt 5 tss (sizeof_tss - 1)).

(** ** idt.c *)

Definition idt_set_gate (m : mem) (idt vector handler selector ist type_attr : Z) : mem :=
  let g := idt + u8 vector * sizeof_idt_entry in
  let m := store16 m g (Z.land handler 0xFFFF) in
  let m := store16 m (g + 6) (Z.land (Z.shiftr handler 16) 0xFFFF) in
  let m := store32 m (g + 8) (Z.land (u32 (Z.shiftr handler 32)) 0xFFFFFFFF) in
  let m := store16 m (g + 2) selector in
  let m := store8 m (g + 4) (Z.land ist 0x7) in
  let m := store8 m (g + 5) type_attr in
  store32 m (g + 12) 0.

(** The gates of the exceptions, of the remapped interrupt lines and of the local APIC
    timer; [isr i] and [irq i] are the addresses of the stubs [isr<i>] and [irq<i>]. *)
Definition idt_init (isr irq : Z → Z) (lapic_timer_irq : Z) (m : mem) (idt : Z) : table_ptr * mem :=
  let idtr := TablePtr (sizeof_idt_entry * IDT_ENTRIES - 1) idt in
  let m := for_do 0 IDT_ENTRIES (λ i m, idt_set_gate m idt i 0 0 0 0) m in
  let m := for_do 0 32 (λ i m, idt_set_gate m idt i (isr i) GDT_SEL_KCODE 0 IDT_GATE_INTERRUPT) m in
  let m := for_do 32 48 (λ i m, idt_set_gate m idt i (irq (i - 32)) GDT_SEL_KCODE 0 IDT_GATE_INTERRUPT) m in
  (idtr, idt_set_gate m idt 48 lapic_timer_irq GDT_SEL_KCODE 0 IDT_GATE_INTERRUPT).

Definition idt_get_ptr (idtr : table_ptr) : Z * Z := (tp_base idtr, tp_limit idtr).

(** ** syscall_init.c *)

Definition MSR_EFER : Z := 0xC0000080.
Definition MSR_STAR : Z := 0xC0000081.
Definition MSR_LSTAR : Z := 0xC0000082.
Definition MSR_FMASK : Z := 0xC0000084.
Definition EFER_SCE : Z := 1.

(** The model-specific registers of a processor, by number. *)
Definition msrs : Type := Z → Z.

Definition syscall_init (syscall_entry : Z) (r : msrs) : msrs :=
  let r := <[MSR_EFER := Z.lor (r MSR_EFER) EFER_SCE]> r in
  let star := Z.lor (Z.shiftl (GDT_SEL_UDATA - 8) 48) (Z.shiftl GDT_SEL_KCODE 32) in
  let r := <[MSR_STAR := star]> r in
  let r := <[MSR_LSTAR := syscall_entry]> r in
  <[MSR_FMASK := Z.shiftl 1 9]> r.

(** ** What the processor reads *)

Record segment : Type := Segment { sg_base : Z; sg_limit : Z; sg_access : Z; sg_flags : Z }.
Record gate : Type := Gate { gt_offset : Z; gt_selector : Z; gt_ist : Z; gt_type : Z }.

Definition segment_at (m : mem) (a : Z) : segment :=
  Segment (load16 m (a + 2) + 65536 * m (a + 4) + 16777216 * m (a + 7))
    (load16 m a + 65536 * (m (a + 6) mod 16)) (m (a + 5)) (m (a + 6) / 16).
(** A system descriptor: 8 more bytes, the first four of them the upper half of the base. *)
Definition tss_segment_at (m : mem) (a : Z) : segment :=
  let s := segment_at m a in
  Segment (sg_base s + 4294967296 * load32 m (a + 8)) (sg_limit s) (sg_access s) (sg_flags s).
Definition gate_at (m : mem) (a : Z) : gate :=
  Gate (load16 m a + 65536 * load16 m (a + 6) + 4294967296 * load32 m (a + 8))
    (load16 m (a + 2)) (m (a + 4)) (m (a + 5)).

Definition no_gate : gate := Gate 0 0 0 0.

(** A write that leaves everything outside of [n] bytes at [a] as it was. *)
Definition within_bytes (a n : Z) (m m' : mem) : Prop := ∀ x, x < a ∨ a + n ≤ x → m' x = m x.

Lemma within_trans a n m1 m2 m3 : within_bytes a n m1 m2 → within_bytes a n m2 m3 → within_bytes a n m1 m3.
Proof. intros H1 H2 x Hx. by rewrite H2, H1. Qed.
Lemma within_widen a n b k m m' : b ≤ a → a + n ≤ b + k → within_bytes a n m m' → within_bytes b k m m'.
Proof. intros ? ? H x Hx. apply H. lia. Qed.

(** Decides the comparisons of a byte's address with those of the stores before it. *)
Ltac hit :=
  repeat match goal with
  | |- context [if ?b then _ else _] => first [replace b with true by lia | replace b with false by lia]
  end.

Lemma byte_of v k : 0 ≤ k → u8 (Z.shiftr v (8 * k)) = v / 2 ^ (8 * k) mod 256.
Proof. intros Hk. unfold u8. by rewrite Z.shiftr_div_pow2 by lia. Qed.

Lemma load16_store16 m a v : load16 (store16 m a v) a = v mod 65536.
Proof.
  unfold load16, store16. hit. replace (a - a) with 0 by lia. replace (a + 1 - a) with 1 by lia.
  rewrite !byte_of by lia. simpl (2 ^ _). dlia.
Qed.
Lemma load32_store32 m a v : load32 (store32 m a v) a = v mod 4294967296.
Proof.
  unfold load32, load16, store32. hit. replace (a - a) with 0 by lia. replace (a + 1 - a) with 1 by lia.
  replace (a + 2 - a) with 2 by lia. replace (a + 2 + 1 - a) with 3 by lia. rewrite !byte_of by lia. simpl (2 ^ _). dlia.
Qed.

Lemma store16_out m a v x : x < a ∨ a + 2 ≤ x → store16 m a v x = m x.
Proof. intros H. unfold store16. by hit. Qed.
Lemma store32_out m a v x : x < a ∨ a + 4 ≤ x → store32 m a v x = m x.
Proof. intros H. unfold store32. by hit. Qed.
Lemma store8_out m a v x : x ≠ a → store8 m a v x = m x.
Proof. intros H. unfold store8. by hit. Qed.
Lemma store8_in m a v : store8 m a v a = v mod 256.
Proof. unfold store8. by hit. Qed.

Lemma load16_ext m m' a : (∀ x, a ≤ x < a + 2 → m x = m' x) → load16 m a = load16 m' a.
Proof. intros H. unfold load16. by rewrite !H by lia. Qed.
Lemma load32_ext m m' a : (∀ x, a ≤ x < a + 4 → m x = m' x) → load32 m a = load32 m' a.
Proof. intros H. unfold load32, load16. by rewrite !H by lia. Qed.

Lemma load16_out m m' a b n : within_bytes a n m m' → b + 2 ≤ a ∨ a + n ≤ b → load16 m' b = load16 m b.
Proof. intros H Hb. apply load16_ext. intros x Hx. apply H. lia. Qed.
Lemma load32_out m m' a b n : within_bytes a n m m' → b + 4 ≤ a ∨ a + n ≤ b → load32 m' b = load32 m b.
Proof. intros H Hb. apply load32_ext. intros x Hx. apply H. lia. Qed.
Lemma within8 m a v : within_bytes a 1 m (store8 m a v).
Proof. intros x Hx. apply store8_out. lia. Qed.
Lemma within16 m a v : within_bytes a 2 m (store16 m a v).
Proof. intros x Hx. by apply store16_out. Qed.
Lemma within32 m a v : within_bytes a 4 m (store32 m a v).
Proof. intros x Hx. by apply store32_out. Qed.

(** Reads the fields of a descriptor through the stores of the others. *)
Ltac fields := repeat first
  [rewrite load16_store16 | rewrite load32_store32 | rewrite store8_in
  | rewrite (load16_out _ _ _ _ _ (within8 _ _ _)) by lia | rewrite (load16_out _ _ _ _ _ (within16 _ _ _)) by lia
  | rewrite (load16_out _ _ _ _ _ (within32 _ _ _)) by lia | rewrite (load32_out _ _ _ _ _ (within8 _ _ _)) by lia
  | rewrite (load32_out _ _ _ _ _ (within16 _ _ _)) by lia | rewrite (load32_out _ _ _ _ _ (within32 _ _ _)) by lia
  | rewrite store8_out by lia | rewrite store16_out by lia | rewrite store32_out by lia | rewrite store64_out by lia].

Lemma segment_ext m m' a : (∀ x, a ≤ x < a + 8 → m' x = m x) → segment_at m' a = segment_at m a.
Proof.
  intros H. unfold segment_at. rewrite (load16_ext m' m a), (load16_ext m' m (a + 2)) by (intros; apply H; lia).
  by rewrite !H by lia.
Qed.
Lemma tss_segment_ext m m' a : (∀ x, a ≤ x < a + 16 → m' x = m x) → tss_segment_at m' a = tss_segment_at m a.
Proof.
  intros H. unfold tss_segment_at. rewrite (segment_ext m m'), (load32_ext m' m (a + 8)) by (intros; apply H; lia). done.
Qed.
Lemma gate_ext m m' a : (∀ x, a ≤ x < a + 16 → m' x = m x) → gate_at m' a = gate_at m a.
Proof.
  intros H. unfold gate_at. rewrite (load16_ext m' m a), (load16_ext m' m (a + 6)), (load32_ext m' m (a + 8)), (load16_ext m' m (a + 2))
    by (intros; apply H; lia). by rewrite !H by lia.
Qed.

(** A descriptor: the base loses its bits 8 to 15. *)
Lemma gdt_set_entry_spec m gdt i base limit access gran :
  let e := gdt + i * 8 in let m' := gdt_set_entry m gdt i base limit access gran in
  segment_at m' e = Segment (base mod 256 + 65536 * (base / 65536 mod 65536)) (limit mod 1048576) (access mod 256) (gran / 16 mod 16) ∧
  within_bytes e 8 m m'.
Proof.
  intros e m'. unfold m', gdt_set_entry, sizeof_gdt_entry. fold e. clearbody e. clear m'.
  change 0xFFFF with (Z.ones 16). change 0xFF with (Z.ones 8). change 0x0F with (Z.ones 4).
  rewrite !Z.land_ones, !Z.shiftr_div_pow2 by lia. simpl (2 ^ _).
  assert (Z.land gran 0xF0 = gran / 16 mod 16 * 16) as Eg.
  { change 0xF0 with (Z.shiftl (Z.ones 4) 4). change 16 with (2 ^ 4) at 3. rewrite <- Z.shiftl_mul_pow2 by lia.
    change 16 with (2 ^ 4) at 1 2. rewrite <- Z.land_ones, <- Z.shiftr_div_pow2, Z.shiftl_land by lia.
    apply Z.bits_inj'. intros n Hn. rewrite !Z.land_spec. destruct (Z.lt_ge_cases n 4).
    - rewrite (Z.shiftl_spec_low (Z.ones 4)) by lia. by rewrite !andb_false_r.
    - f_equal. rewrite Z.shiftl_spec, Z.shiftr_spec by lia. f_equal. lia. }
  rewrite Eg. split; [|intros x Hx; by fields]. unfold segment_at, load8. fields.
  rewrite (Z.lor_comm (_ mod 256)), (lor_aligned_add _ _ 4); [|lia|simpl (2 ^ _); dlia|simpl (2 ^ _); dlia].
  unfold u8. simpl (2 ^ _). f_equal; dlia.
Qed.

Lemma gdt_set_tss_spec m gdt i base limit :
  is_u64 base →
  let e := gdt + i * 8 in let m' := gdt_set_tss m gdt i base limit in
  tss_segment_at m' e = Segment base (limit mod 1048576) 0x89 0 ∧ within_bytes e 16 m m'.
Proof.
  intros Hb e m'. unfold m', gdt_set_tss, sizeof_gdt_entry. fold e. clearbody e. clear m'. unfold is_u64 in Hb.
  change 0xFFFF with (Z.ones 16). change 0xFF with (Z.ones 8). change 0x0F with (Z.ones 4).
  rewrite !Z.land_ones, !Z.shiftr_div_pow2 by lia. split; [|intros x Hx; by fields].
  unfold tss_segment_at, segment_at. cbn [sg_base sg_limit sg_access sg_flags]. fields.
  change (137 mod 256) with 137. unfold u32. simpl (2 ^ _). f_equal; dlia.
Qed.

Lemma idt_set_gate_spec m idt v handler selector ist type_attr :
  is_u64 handler → 0 ≤ v < 256 →
  let g := idt + v * 16 in let m' := idt_set_gate m idt v handler selector ist type_attr in
  gate_at m' g = Gate handler (selector mod 65536) (ist mod 8) (type_attr mod 256) ∧ within_bytes g 16 m m'.
Proof.
  intros Hh Hv g m'. unfold m', idt_set_gate, sizeof_idt_entry. rewrite u8_small by done. fold g. clearbody g. clear m'. unfold is_u64 in Hh.
  change 0xFFFF with (Z.ones 16). change 0xFFFFFFFF with (Z.ones 32). change 0x7 with (Z.ones 3).
  rewrite !Z.land_ones, !Z.shiftr_div_pow2 by lia. split; [|intros x Hx; by fields].
  unfold gate_at. fields. unfold u32. simpl (2 ^ _). f_equal; dlia.
Qed.

(** ** The tables of a processor *)

(** The flat descriptors both tables have below the one of the TSS. *)
Definition flat_segments : list segment :=
  [Segment 0 0 0 0; Segment 0 0xFFFFF 0x9A 0xA; Segment 0 0xFFFFF 0x92 0xC; Segment 0 0xFFFFF 0xF2 0xC; Segment 0 0xFFFFF 0xFA 0xA].
Definition flat_gdt (m : mem) (gdt : Z) : Prop :=
  ∀ i s, flat_segments !! i = Some s → segment_at m (gdt + 8 * Z.of_nat i) = s.

(** A processor's tables: the flat segments, its TSS described by slot 5, with the
    stack for interrupts and no bitmap of ports. *)
Record tables_ok (m : mem) (gdt tss rsp0 : Z) : Prop := {
  ta_flat : flat_gdt m gdt;
  ta_tss : tss_segment_at m (gdt + GDT_SEL_TSS) = Segment tss (sizeof_tss - 1) 0x89 0;
  ta_rsp0 : load64 m (tss + 4) = rsp0;
  ta_iomap : load16 m (tss + 102) = sizeof_tss;
  ta_zero : ∀ x, tss ≤ x < tss + 102 → ¬ tss + 4 ≤ x < tss + 12 → m x = 0
}.

(** The tables depend on their 56 and 104 bytes only. *)
Lemma tables_ext m m' gdt tss rsp0 :
  (∀ x, gdt ≤ x < gdt + 56 ∨ tss ≤ x < tss + 104 → m' x = m x) → tables_ok m gdt tss rsp0 → tables_ok m' gdt tss rsp0.
Proof.
  intros H [H1 H2 H3 H4 H5]. unfold GDT_SEL_TSS in *. split.
  - intros i s Hi. assert (i < 5)%nat by (apply lookup_lt_Some in Hi; done). rewrite <- (H1 i s Hi). apply segment_ext. intros. apply H. lia.
  - rewrite <- H2. apply tss_segment_ext. intros. apply H. unfold GDT_SEL_TSS in *. lia.
  - rewrite <- H3. apply load64_ext. intros. apply H. lia.
  - rewrite <- H4. apply load16_ext. intros. apply H. lia.
  - intros x Hx Hn. rewrite H by lia. by apply H5.
Qed.

Definition set_flat (m : mem) (gdt : Z) : mem :=
  let m := gdt_set_entry m gdt 0 0 0 0 0 in
  let m := gdt_set_entry m gdt 1 0 0xFFFFF 0x9A 0xA0 in
  let m := gdt_set_entry m gdt 2 0 0xFFFFF 0x92 0xC0 in
  let m := gdt_set_entry m gdt 3 0 0xFFFFF 0xF2 0xC0 in
  gdt_set_entry m gdt 4 0 0xFFFFF 0xFA 0xA0.

Definition flat_upto (n : nat) (m m' : mem) (gdt : Z) : Prop :=
  (∀ i s, (i < n)%nat → flat_segments !! i = Some s → segment_at m' (gdt + 8 * Z.of_nat i) = s) ∧
  within_bytes gdt (8 * Z.of_nat n) m m'.

Lemma flat_step n m m' gdt limit access gran :
  flat_upto n m m' gdt →
  flat_segments !! n = Some (Segment 0 (limit mod 1048576) (access mod 256) (gran / 16 mod 16)) →
  flat_upto (S n) m (gdt_set_entry m' gdt (Z.of_nat n) 0 limit access gran) gdt.
Proof.
  intros [Hf Hw] Hn. destruct (gdt_set_entry_spec m' gdt (Z.of_nat n) 0 limit access gran) as [E W]. split.
  - intros i s Hi Hs. destruct (decide (i = n)) as [->|Hne].
    + rewrite Hn in Hs. injection Hs as <-. rewrite Z.mul_comm. exact E.
    + rewrite <- (Hf i s) by (done || lia). apply segment_ext. intros x Hx. apply W. lia.
  - intros x Hx. rewrite W by lia. apply Hw. lia.
Qed.

Lemma set_flat_spec m gdt : flat_gdt (set_flat m gdt) gdt ∧ within_bytes gdt 40 m (set_flat m gdt).
Proof.
  assert (flat_upto 5 m (set_flat m gdt) gdt) as [Hf Hw].
  { unfold set_flat. apply (flat_step 4), eq_refl. apply (flat_step 3), eq_refl. apply (flat_step 2), eq_refl.
    apply (flat_step 1), eq_refl. apply (flat_step 0), eq_refl. split; [lia|]. intros x Hx. done. }
  split; [|exact Hw]. intros i s Hs. apply Hf; [|done]. by apply lookup_lt_Some in Hs.
Qed.

Lemma clear_tss_at m tss x : clear_tss m tss x = if (tss <=? x) && (x <? tss + 104) then 0 else m x.
Proof.
  unfold clear_tss, sizeof_tss. revert x.
  apply (for_do_ind (λ i m', ∀ x, m' x = if (tss <=? x) && (x <? i) then 0 else m x)); [lia| |].
  - intros x. by hit.
  - intros i m' Hi IH x. unfold store8. rewrite IH. repeat split_if; try done; lia.
Qed.

(** The descriptors in place and the TSS filled, the descriptor of the TSS completes the tables. *)
Lemma tables_built m m' gdt tss rsp0 :
  gdt + 56 ≤ tss ∨ tss + 104 ≤ gdt → is_u64 tss → is_u64 rsp0 →
  let filled := store64 (store16 (clear_tss m tss) (tss + 102) sizeof_tss) (tss + 4) rsp0 in
  flat_gdt m' gdt → (∀ x, x < gdt ∨ gdt + 40 ≤ x → m' x = filled x) →
  let r := gdt_set_tss m' gdt 5 tss (sizeof_tss - 1) in
  tables_ok r gdt tss rsp0 ∧ ∀ x, ¬ gdt ≤ x < gdt + 56 → ¬ tss ≤ x < tss + 104 → r x = m x.
Proof.
  intros Hd Ht Hr filled Hf Hm r. destruct (gdt_set_tss_spec m' gdt 5 tss (sizeof_tss - 1) Ht) as [Et Wt]. fold r in Et, Wt. clearbody r.
  assert (∀ x, x < gdt ∨ gdt + 56 ≤ x → r x = filled x) as Hout by (intros x Hx; rewrite Wt by lia; apply Hm; lia).
  assert (∀ x, ¬ tss + 4 ≤ x < tss + 12 → ¬ tss + 102 ≤ x < tss + 104 → filled x = clear_tss m tss x) as Hc.
  { intros x H1 H2. unfold filled. rewrite store64_out, store16_out by lia. done. }
  split; [split|].
  - intros i s Hi. rewrite <- (Hf i s Hi). apply segment_ext. apply lookup_lt_Some in Hi. simpl in Hi. intros x Hx. apply Wt. lia.
  - exact Et.
  - rewrite (load64_ext _ filled) by (intros; apply Hout; lia). by apply load64_store64_eq.
  - rewrite (load16_ext _ (store16 (clear_tss m tss) (tss + 102) sizeof_tss)).
    + by rewrite load16_store16.
    + intros x Hx. rewrite Hout by lia. apply store64_out. lia.
  - intros x Hx Hn. rewrite Hout, Hc, clear_tss_at by lia. by hit.
  - intros x Hx Hn. rewrite Hout, Hc, clear_tss_at by lia. by hit.
Qed.

Lemma gdt_build_ap_spec m gdt tss rsp0 :
  gdt + 56 ≤ tss ∨ tss + 104 ≤ gdt → is_u64 tss → is_u64 rsp0 →
  let m' := gdt_build_ap m gdt tss rsp0 in
  tables_ok m' gdt tss rsp0 ∧ ∀ x, ¬ gdt ≤ x < gdt + 56 → ¬ tss ≤ x < tss + 104 → m' x = m x.
Proof.
  intros Hd Ht Hr. apply (tables_built m); [done..| |].
  - apply (set_flat_spec (store64 (store16 (clear_tss m tss) (tss + 102) sizeof_tss) (tss + 4) rsp0) gdt).
  - apply (set_flat_spec (store64 (store16 (clear_tss m tss) (tss + 102) sizeof_tss) (tss + 4) rsp0) gdt).
Qed.

Lemma gdt_init_spec m gdt tss :
  gdt + 56 ≤ tss ∨ tss + 104 ≤ gdt → is_u64 tss →
  let m' := (gdt_init m gdt tss).2 in
  tables_ok m' gdt tss 0 ∧ ∀ x, ¬ gdt ≤ x < gdt + 56 → ¬ tss ≤ x < tss + 104 → m' x = m x.
Proof.
  intros Hd Ht. destruct (set_flat_spec m gdt) as [Hf Wf]. apply (tables_built m); [done|done|unfold is_u64; lia| |].
  - intros i s Hi. rewrite <- (Hf i s Hi). apply segment_ext. apply lookup_lt_Some in Hi. simpl in Hi. intros x Hx.
    rewrite store16_out, clear_tss_at by lia. by hit.
  - intros x Hx. change (gdt_set_entry _ gdt 4 0 _ _ _) with (set_flat m gdt). unfold store64. rewrite Z.shiftr_0_l.
    change (u8 0) with 0. split_if; [rewrite store16_out, clear_tss_at by lia; by hit|].
    unfold store16. rewrite !clear_tss_at. by rewrite Wf.
Qed.

(** A kernel stack set later is the only change. *)
Lemma tss_set_kernel_stack_spec m gdt tss rsp0 rsp :
  gdt + 56 ≤ tss ∨ tss + 104 ≤ gdt → is_u64 rsp → tables_ok m gdt tss rsp0 → tables_ok (tss_set_kernel_stack m tss rsp) gdt tss rsp.
Proof.
  intros Hd Hr [H1 H2 H3 H4 H5]. unfold tss_set_kernel_stack. split.
  - intros i s Hi. rewrite <- (H1 i s Hi). apply segment_ext. apply lookup_lt_Some in Hi. simpl in Hi. intros x Hx. apply store64_out. lia.
  - rewrite <- H2. apply tss_segment_ext. unfold GDT_SEL_TSS. intros x Hx. apply store64_out. lia.
  - by apply load64_store64_eq.
  - rewrite <- H4. apply load16_ext. intros x Hx. apply store64_out. lia.
  - intros x Hx Hn. rewrite store64_out by lia. by apply H5.
Qed.

(** ** The interrupt table *)

Lemma gates_set m idt lo hi h sel ist ty :
  0 ≤ lo ≤ hi → hi ≤ 256 → (∀ v, lo ≤ v < hi → is_u64 (h v)) →
  let m' := for_do lo hi (λ i m, idt_set_gate m idt i (h i) sel ist ty) m in
  (∀ v, lo ≤ v < hi → gate_at m' (idt + v * 16) = Gate (h v) (sel mod 65536) (ist mod 8) (ty mod 256)) ∧
  within_bytes (idt + lo * 16) ((hi - lo) * 16) m m'.
Proof.
  intros Hlo Hhi Hh. apply (for_do_ind (λ i m',
    (∀ v, lo ≤ v < i → gate_at m' (idt + v * 16) = Gate (h v) (sel mod 65536) (ist mod 8) (ty mod 256)) ∧
    within_bytes (idt + lo * 16) ((i - lo) * 16) m m')); [lia|split; [lia|by intros x _]|].
  intros i m' Hi [Hg Hw]. destruct (idt_set_gate_spec m' idt i (h i) sel ist ty) as [E W]; [apply Hh; lia|lia|]. split.
  - intros v Hv. destruct (decide (v = i)) as [->|Hne]; [exact E|]. rewrite <- (Hg v) by lia.
    apply gate_ext. intros x Hx. apply W. lia.
  - intros x Hx. rewrite W by lia. apply Hw. lia.
Qed.

(** Where the gate of a vector leads; vectors above the timer's have none. *)
Definition vector_gate (isr irq : Z → Z) (timer v : Z) : gate :=
  if v <? 32 then Gate (isr v) GDT_SEL_KCODE 0 IDT_GATE_INTERRUPT
  else if v <? 48 then Gate (irq (v - 32)) GDT_SEL_KCODE 0 IDT_GATE_INTERRUPT
  else if v =? 48 then Gate timer GDT_SEL_KCODE 0 IDT_GATE_INTERRUPT else no_gate.

(** Every gate of the table [idt_init] builds is the one of its vector: exceptions and
    interrupt lines enter their own stub through a ring-0 interrupt gate, the other
    vectors have none; nothing outside the table is written. *)
Theorem idt_init_correct isr irq timer m idt :
  (∀ v, is_u64 (isr v)) → (∀ v, is_u64 (irq v)) → is_u64 timer →
  let m' := (idt_init isr irq timer m idt).2 in
  (∀ v, 0 ≤ v < IDT_ENTRIES → gate_at m' (idt + v * sizeof_idt_entry) = vector_gate isr irq timer v) ∧
  within_bytes idt (IDT_ENTRIES * sizeof_idt_entry) m m'.
Proof.
  intros Hi Hq Ht. unfold idt_init, IDT_ENTRIES, sizeof_idt_entry. cbn [snd].
  destruct (gates_set m idt 0 256 (λ _, 0) 0 0 0) as [G0 W0]; [lia|lia|unfold is_u64; lia|]. set (m0 := for_do 0 256 _ m) in *. clearbody m0.
  destruct (gates_set m0 idt 0 32 isr GDT_SEL_KCODE 0 IDT_GATE_INTERRUPT) as [G1 W1]; [lia|lia|auto|]. set (m1 := for_do 0 32 _ m0) in *. clearbody m1.
  destruct (gates_set m1 idt 32 48 (λ i, irq (i - 32)) GDT_SEL_KCODE 0 IDT_GATE_INTERRUPT) as [G2 W2]; [lia|lia|auto|].
  set (m2 := for_do 32 48 _ m1) in *. clearbody m2.
  destruct (idt_set_gate_spec m2 idt 48 timer GDT_SEL_KCODE 0 IDT_GATE_INTERRUPT Ht) as [G3 W3]; [lia|].
  set (m3 := idt_set_gate m2 _ _ _ _ _ _) in *. clearbody m3. split.
  - intros v Hv. unfold vector_gate. destruct (Z.ltb_spec v 32).
    { rewrite (gate_ext m1), G1 by (done || lia || intros x Hx; rewrite W3, W2 by lia; done). done. }
    destruct (Z.ltb_spec v 48).
    { rewrite (gate_ext m2), G2 by (done || lia || intros x Hx; rewrite W3 by lia; done). done. }
    destruct (Z.eqb_spec v 48) as [->|]; [exact G3|].
    rewrite (gate_ext m0), G0 by (done || lia || intros x Hx; rewrite W3, W2, W1 by lia; done). done.
  - intros x Hx. rewrite W3, W2, W1, W0 by lia. done.
Qed.

(** ** The segments of system calls *)

(** What the instructions compute from STAR. *)
Definition syscall_cs (star : Z) : Z := Z.land (Z.shiftr star 32) 0xFFFC.
Definition syscall_ss (star : Z) : Z := u16 (Z.shiftr star 32) + 8.
Definition sysret_cs (star : Z) : Z := Z.lor (Z.shiftr star 48 + 16) 3.
Definition sysret_ss (star : Z) : Z := Z.lor (Z.shiftr star 48 + 8) 3.

(** The descriptor a selector names, and its privilege level and kind. *)
Definition described (m : mem) (gdt sel : Z) : segment := segment_at m (gdt + Z.land sel 0xFFF8).
Definition sg_dpl (s : segment) : Z := sg_access s / 32 mod 4.
Definition flat (s : segment) : Prop := sg_base s = 0 ∧ sg_limit s = 0xFFFFF.
Definition code64 (s : segment) : Prop := flat s ∧ sg_access s / 128 = 1 ∧ sg_access s / 8 mod 4 = 3 ∧ sg_flags s / 2 mod 2 = 1.
Definition data (s : segment) : Prop := flat s ∧ sg_access s / 128 = 1 ∧ sg_access s / 8 mod 4 = 2 ∧ sg_access s / 2 mod 2 = 1.


