(* ===== verification/Smp.v ===== *)
(** Finding the processors (arch/x86_64/smp/smp.c): the ACPI tables, the older
    multiprocessor table, and the tables given to the application processors.

    The firmware's tables are read from the byte memory.  The filled part of the
    array [cpus] is a list, its length is [cpu_count].  [None] is a scan that does
    not end.  The last part builds what an application processor needs before it is
    started (stacks from the heap, descriptor tables of inter/gdt.c, the slots the
    trampoline searches) and records the interrupts sent to start it. *)

From stdpp Require Import prelude functions numbers list.
From Stdlib Require Import ZArith Lia.
From S2P Require Import Prelude Memory.

Open Scope Z_scope.

Definition MP_FLOATING_SIGNATURE : Z := 0x5F504D5F.
Definition MP_CONFIG_SIGNATURE : Z := 0x504D4350.
Definition ACPI_MADT_TYPE_LOCAL_APIC : Z := 0.
Definition SMP_MAX_BOOT_CPUS : Z := 256.
Definition IA32_APIC_BASE_ENABLE : Z := 0x800.

(** Sizes of the packed structures. *)
Definition sizeof_mp_floating : Z := 16.
Definition sizeof_mp_config : Z := 44.
Definition sizeof_acpi_header : Z := 36.
Definition sizeof_acpi_rsdp : Z := 36.
Definition sizeof_madt : Z := 44.
Definition sizeof_madt_lapic : Z := 8.

Record smp_cpu : Type := SmpCpu { sc_processor_id : Z; sc_lapic_id : Z; sc_enabled : bool; sc_bootstrap : bool }.

Record smp : Type := Smp { cpus : list smp_cpu; lapic_base : Z; apic_msr : Z }.
Definition with_cpu_list (l : list smp_cpu) (s : smp) : smp := Smp l (lapic_base s) (apic_msr s).
Definition with_lapic_base (b : Z) (s : smp) : smp := Smp (cpus s) b (apic_msr s).

Definition smp_cpu_count (s : smp) : Z := Z.of_nat (length (cpus s)).
Definition smp_cpu_at (i : Z) (s : smp) : option smp_cpu := if i <? smp_cpu_count s then cpus s !! Z.to_nat i else None.
Definition smp_lapic_base (s : smp) : Z := lapic_base s.

Definition checksum8 (m : mem) (ptr size : Z) : Z :=
  for_do 0 size (λ i sum, u8 (sum + load8 m (u64 (ptr + i)))) 0.

Definition lowmem_read16 (m : mem) (address : Z) : Z := load16 m address.

Definition add_cpu (processor_id lapic_id : Z) (enabled bootstrap : bool) (s : smp) : smp :=
  if SMP_MAX_BOOT_CPUS <=? smp_cpu_count s then s
  else with_cpu_list (cpus s ++ [SmpCpu processor_id lapic_id enabled bootstrap]) s.

(** Is the text at [p] this one?  [k_memcmp] with a constant. *)
Definition text_at (m : mem) (p : Z) (text : list Z) : bool :=
  bool_decide ((λ i, load8 m (p + i)) <$> seqZ 0 (Z.of_nat (length text)) = text).

(** More rounds than a scan of 16-byte steps over the addresses can take. *)
Definition scan_fuel : positive := 1152921504606846977.

(** [for (ptr = start; ptr + size <= end; ptr += 16)]: the first match, or 0. *)
Definition scan_range (size : Z) (ok : Z → bool) (start stop : Z) : option Z :=
  while_ scan_fuel (λ ptr,
    if u64 (ptr + size) <=? stop then if ok ptr then inr ptr else inl (u64 (ptr + 16)) else inr 0) start.

(** ** The multiprocessor table *)

Definition mp_matches (m : mem) (mp : Z) : bool :=
  (load32 m mp =? MP_FLOATING_SIGNATURE) && (load8 m (mp + 8) =? 1) && (checksum8 m mp 16 =? 0).

Definition scan_mp_range (m : mem) (start stop : Z) : option Z := scan_range sizeof_mp_floating (mp_matches m) start stop.

Definition find_mp_table (m : mem) : option Z :=
  let ebda := Z.shiftl (lowmem_read16 m 0x40E) 4 in
  mp ← (if truthy ebda then scan_mp_range m ebda (ebda + 1024) else Some 0);
  if truthy mp then Some mp
  else
    let top := lowmem_read16 m 0x413 * 1024 in
    mp ← scan_mp_range m (u64 (top - 1024)) top;
    if truthy mp then Some mp else scan_mp_range m 0xF0000 0x100000.

(** One entry: its address after it, or the end of the table. *)
Definition mp_entry (m : mem) (st : Z * smp) : Z * smp + smp :=
  let '(entry, s) := st in
  let type := load8 m entry in
  if type =? 0 then
    let flags := load8 m (entry + 3) in
    inl (entry + 20, add_cpu (load8 m (entry + 1)) (load8 m (entry + 1)) (truthy (Z.land flags 1)) (truthy (Z.land flags 2)) s)
  else if (1 <=? type) && (type <=? 4) then inl (entry + 8, s)
  else inr s.

Definition parse_mp_config (m : mem) (cfg : Z) (s : smp) : smp :=
  if (cfg =? 0) || negb (load32 m cfg =? MP_CONFIG_SIGNATURE) then s
  else if negb (checksum8 m cfg (load16 m (cfg + 4)) =? 0) then s
  else
    let s := with_lapic_base (load32 m (cfg + 36)) s in
    match for_ 0 (load16 m (cfg + 34)) (λ _ st, mp_entry m st) (cfg + sizeof_mp_config, s) with
    | inl (_, s) => s
    | inr s => s
    end.

(** ** The ACPI tables *)

Definition RSD_PTR : list Z := [82; 83; 68; 32; 80; 84; 82; 32].
Definition XSDT : list Z := [88; 83; 68; 84].
Definition RSDT : list Z := [82; 83; 68; 84].
Definition APIC : list Z := [65; 80; 73; 67].

Definition rsdp_matches (m : mem) (rsdp : Z) : bool :=
  if negb (text_at m rsdp RSD_PTR) then false
  else if negb (checksum8 m rsdp 20 =? 0) then false
  else if (2 <=? load8 m (rsdp + 15)) && (36 <=? load32 m (rsdp + 20)) && negb (checksum8 m rsdp (load32 m (rsdp + 20)) =? 0)
  then false
  else true.

Definition scan_rsdp_range (m : mem) (start stop : Z) : option Z := scan_range sizeof_acpi_rsdp (rsdp_matches m) start stop.

Definition find_rsdp (m : mem) : option Z :=
  let ebda := Z.shiftl (lowmem_read16 m 0x40E) 4 in
  rsdp ← (if truthy ebda then scan_rsdp_range m ebda (ebda + 1024) else Some 0);
  if truthy rsdp then Some rsdp else scan_rsdp_range m 0xE0000 0x100000.

Definition acpi_validate_table (m : mem) (header : Z) : bool :=
  if (header =? 0) || (load32 m (header + 4) <? sizeof_acpi_header) then false
  else checksum8 m header (load32 m (header + 4)) =? 0.

(** The first of the [count] tables listed at [entries] with the signature, or 0. *)
Definition find_table (m : mem) (load : mem → Z → Z) (size entries count : Z) : Z :=
  match for_ 0 count (λ i (_ : unit),
          let table := load m (entries + i * size) in
          if truthy table && text_at m table APIC then inr table else inl ()) () with
  | inl _ => 0
  | inr table => table
  end.

(** The search in one root table; 0 also when it is not a valid one. *)
Definition search_root (m : mem) (root : Z) (name : list Z) (load : mem → Z → Z) (size : Z) : Z :=
  if text_at m root name && acpi_validate_table m root then
    find_table m load size (root + sizeof_acpi_header) ((load32 m (root + 4) - sizeof_acpi_header) / size)
  else 0.

Definition find_madt (m : mem) (rsdp : Z) : Z :=
  if rsdp =? 0 then 0
  else
    let xsdt := load64 m (rsdp + 24) in
    let madt := if (2 <=? load8 m (rsdp + 15)) && truthy xsdt then search_root m xsdt XSDT load64 8 else 0 in
    if truthy madt then madt
    else
      let rsdt := load32 m (rsdp + 16) in
      if truthy rsdt then search_root m rsdt RSDT load32 4 else 0.

(** One structure of the table. *)
Definition madt_step (m : mem) (stop : Z) (st : Z * smp) : Z * smp + smp :=
  let '(ptr, s) := st in
  if u64 (ptr + 2) <=? stop then
    let type := load8 m ptr in
    let len := load8 m (ptr + 1) in
    if (len <? 2) || (stop <? u64 (ptr + len)) then inr s
    else
      let s := if (type =? ACPI_MADT_TYPE_LOCAL_APIC) && (sizeof_madt_lapic <=? len) then
                 let enabled := truthy (Z.land (load32 m (ptr + 4)) 1) in
                 add_cpu (load8 m (ptr + 2)) (load8 m (ptr + 3)) enabled (enabled && (smp_cpu_count s =? 0)) s
               else s in
      inl (u64 (ptr + len), s)
  else inr s.

Definition parse_madt (m : mem) (madt : Z) (s : smp) : option smp :=
  if madt =? 0 then Some s
  else
    let s := with_lapic_base (load32 m (madt + 36)) s in
    let stop := u64 (madt + load32 m (madt + 4)) in
    while_ 4294967297 (madt_step m stop) (u64 (madt + sizeof_madt), s).

(** [msr] is the value of the register the processor starts with. *)
Definition smp_init (m : mem) (msr : Z) : option smp :=
  let s := Smp [] (Z.land msr 0xFFFFF000) (Z.lor msr IA32_APIC_BASE_ENABLE) in
  rsdp ← find_rsdp m;
  s ← (if truthy rsdp then
         let madt := find_madt m rsdp in if truthy madt then parse_madt m madt s else Some s
       else Some s);
  s ← (if smp_cpu_count s =? 0 then
         mp ← find_mp_table m;
         Some (if truthy mp && truthy (load32 m (mp + 4)) then parse_mp_config m (load32 m (mp + 4)) s else s)
       else Some s);
  Some (if smp_cpu_count s =? 0 then add_cpu 0 0 true true s else s).

(** ** Reference: the structures of the table *)

Section Structures.
Context (m : mem) (stop : Z).

(** The addresses of the structures tiling the table from [p]: each has a length of
    at least 2 and ends inside it; the first that does not ends the list. *)
Inductive structures : Z → list Z → Prop :=
  | st_end p : stop < p + 2 → structures p []
  | st_bad p : p + 2 ≤ stop → load8 m (p + 1) < 2 ∨ stop < p + load8 m (p + 1) → structures p []
  | st_next p l : p + 2 ≤ stop → 2 ≤ load8 m (p + 1) → p + load8 m (p + 1) ≤ stop →
      structures (p + load8 m (p + 1)) l → structures p (p :: l).

Lemma structures_unique p l l' : structures p l → structures p l' → l = l'.
Proof.
  intros Hl. revert l'. induction Hl as [p Hp|p Hp Hb|p l Hp H2 Hle Hl IH]; intros l' Hl'; inversion Hl'; subst; try done; try lia.
  f_equal. by apply IH.
Qed.
End Structures.

(** The processor a structure describes: ids and whether it is enabled. *)
Definition lapic_of (m : mem) (p : Z) : option (Z * Z * bool) :=
  if (load8 m p =? ACPI_MADT_TYPE_LOCAL_APIC) && (sizeof_madt_lapic <=? load8 m (p + 1))
  then Some (load8 m (p + 2), load8 m (p + 3), truthy (Z.land (load32 m (p + 4)) 1)) else None.

(** Processor number [i] of the table. *)
Definition boot_cpu (i : nat) (c : Z * Z * bool) : smp_cpu :=
  SmpCpu c.1.1 c.1.2 c.2 (c.2 && (Z.of_nat i =? 0)).

Definition add_lapic (m : mem) (s : smp) (p : Z) : smp :=
  match lapic_of m p with
  | Some (pid, id, enabled) => add_cpu pid id enabled (enabled && (smp_cpu_count s =? 0)) s
  | None => s
  end.

(** [cpus] holds the first 256 of a list. *)
Definition boot_list (l : list (Z * Z * bool)) : list smp_cpu := take 256 (imap boot_cpu l).

Lemma add_lapic_list m l s p :
  cpus s = boot_list l →
  cpus (add_lapic m s p) = boot_list (l ++ option_list (lapic_of m p)) ∧
  lapic_base (add_lapic m s p) = lapic_base s ∧ apic_msr (add_lapic m s p) = apic_msr s.
Proof.
  intros Hs. unfold add_lapic. destruct (lapic_of m p) as [[[pid id] en]|]; simpl; [|by rewrite app_nil_r].
  assert (smp_cpu_count s = Z.of_nat (Nat.min 256 (length l))) as Hc.
  { unfold smp_cpu_count. rewrite Hs. unfold boot_list. by rewrite length_take, length_imap. }
  unfold add_cpu, boot_list. rewrite imap_app, take_app, length_imap. simpl. unfold SMP_MAX_BOOT_CPUS.
  destruct (Z.leb_spec 256 (smp_cpu_count s)); simpl; rewrite Hs; unfold boot_list.
  - replace (256 - length l)%nat with 0%nat by lia. simpl. by rewrite app_nil_r.
  - split; [|done]. f_equal. destruct (256 - length l)%nat eqn:E; [lia|]. simpl. rewrite take_nil. unfold boot_cpu. simpl.
    do 3 f_equal. rewrite Hc, Nat.add_0_r, Nat.min_r by lia. done.
Qed.

Lemma add_lapics_list m ps l s :
  cpus s = boot_list l →
  let s' := foldl (add_lapic m) s ps in
  cpus s' = boot_list (l ++ omap (lapic_of m) ps) ∧ lapic_base s' = lapic_base s ∧ apic_msr s' = apic_msr s.
Proof.
  revert l s. induction ps as [|p ps IH]; intros l s Hs; simpl; [by rewrite app_nil_r|].
  destruct (add_lapic_list m l s p Hs) as (H1 & H2 & H3). destruct (IH _ _ H1) as (-> & -> & ->). split; [|done].
  rewrite <- app_assoc. by destruct (lapic_of m p).
Qed.

(** The walk visits the structures in order. *)
Lemma madt_walk m stop p s :
  mem_ok m → 0 ≤ p → p + 256 < 2 ^ 64 → stop + 256 < 2 ^ 64 →
  ∃ l, structures m stop p l ∧ 2 * Z.of_nat (length l) ≤ Z.max 0 (stop - p) ∧
    iter_nat (Datatypes.S (length l)) (madt_step m stop) (p, s) = inr (foldl (add_lapic m) s l).
Proof.
  intros Hm. remember (Z.to_nat (stop - p)) as n eqn:En. revert p s En.
  induction n as [n IH] using lt_wf_ind. intros p s En H0 Hp Hst.
  pose proof (Hm (p + 1)) as Hlen. unfold load8 in *. cbn [iter_nat]. unfold madt_step at 1, load8.
  rewrite (u64_small (p + 2)) by lia. rewrite (u64_small (p + m (p + 1))) by lia.
  destruct (Z.leb_spec (p + 2) stop).
  - destruct (Z.ltb_spec (m (p + 1)) 2), (Z.ltb_spec stop (p + m (p + 1))); simpl;
      try by (exists []; split; [apply st_bad; unfold load8; lia|split; [simpl; lia|done]]).
    match goal with |- context [if ?b then ?x else s] =>
      replace (if b then x else s) with (add_lapic m s p) by (unfold add_lapic, lapic_of, load8; by destruct b) end.
    destruct (IH (Z.to_nat (stop - (p + m (p + 1)))) ltac:(lia) _ (add_lapic m s p) eq_refl ltac:(lia) ltac:(lia) Hst) as (l & Hl & Hn & E).
    exists (p :: l). split; [apply st_next; unfold load8; done || lia|]. split; [simpl; lia|]. exact E.
  - exists []. split; [by apply st_end; lia|]. split; [simpl; lia|done].
Qed.

Lemma parse_madt_spec m madt s l0 :
  mem_ok m → 0 < madt < 2 ^ 63 → cpus s = boot_list l0 →
  ∃ l s', structures m (madt + load32 m (madt + 4)) (madt + sizeof_madt) l ∧ parse_madt m madt s = Some s' ∧
    cpus s' = boot_list (l0 ++ omap (lapic_of m) l) ∧ lapic_base s' = load32 m (madt + 36) ∧ apic_msr s' = apic_msr s.
Proof.
  intros Hm Hr Hs. unfold parse_madt. destruct (Z.eqb_spec madt 0); [lia|].
  assert (0 ≤ load32 m (madt + 4) < 2 ^ 32) as Hl32.
  { unfold load32, load16. pose proof (Hm (madt + 4)). pose proof (Hm (madt + 4 + 1)). pose proof (Hm (madt + 4 + 2)).
    pose proof (Hm (madt + 4 + 2 + 1)). lia. }
  rewrite !u64_small by (unfold sizeof_madt; lia).
  destruct (madt_walk m (madt + load32 m (madt + 4)) (madt + sizeof_madt) (with_lapic_base (load32 m (madt + 36)) s)) as (l & Hl & Hn & E);
    [done|unfold sizeof_madt; lia..|].
  exists l, (foldl (add_lapic m) (with_lapic_base (load32 m (madt + 36)) s) l). split; [done|].
  split; [|by apply (add_lapics_list m l l0 (with_lapic_base (load32 m (madt + 36)) s))].
  eapply while_steps; [exact E|]. unfold sizeof_madt in *. lia.
Qed.

(** Reading the processors from the ACPI table ends for every table below 2^63 and
    finds exactly the local APIC structures among those that tile it, in order, up to
    256, each with its ids and enabled flag; the base address is the table's. *)
Theorem parse_madt_exact m madt base msr :
  mem_ok m → 0 < madt < 2 ^ 63 →
  ∃ l s', structures m (madt + load32 m (madt + 4)) (madt + sizeof_madt) l ∧
    parse_madt m madt (Smp [] base msr) = Some s' ∧ cpus s' = boot_list (omap (lapic_of m) l) ∧
    lapic_base s' = load32 m (madt + 36) ∧ apic_msr s' = msr.
Proof. intros Hm Hr. by apply (parse_madt_spec m madt (Smp [] base msr) []). Qed.

(** ** All of [smp_init] *)

Lemma scan_range_spec size ok start stop :
  16 ≤ size → 0 ≤ start → start + size + 16 < 2 ^ 64 → 0 ≤ stop → stop + size + 16 < 2 ^ 64 →
  ∃ r, scan_range size ok start stop = Some r ∧ (r = 0 ∨ (start ≤ r ∧ r + size ≤ stop ∧ ok r = true)).
Proof.
  intros Hsz H0 Hs Hst0 Hst. unfold scan_range.
  apply (while_total (λ p, start ≤ p ∧ p + size + 16 < 2 ^ 64) (λ p, (2 ^ 64 - p) / 16)).
  - lia.
  - unfold scan_fuel. dlia.
  - intros p [Hp Hp']. split; [dlia|]. rewrite (u64_small (p + size)), (u64_small (p + 16)) by lia.
    destruct (Z.leb_spec (p + size) stop); [|by left]. destruct (ok p) eqn:E; [right; split_and!; done || lia|]. split; [lia|dlia].
Qed.

Lemma load16_range m a : mem_ok m → 0 ≤ load16 m a < 65536.
Proof. intros Hm. unfold load16. pose proof (Hm a). pose proof (Hm (a + 1)). lia. Qed.

Lemma find_rsdp_spec m : mem_ok m → ∃ r, find_rsdp m = Some r.
Proof.
  intros Hm. unfold find_rsdp, scan_rsdp_range, lowmem_read16, sizeof_acpi_rsdp.
  pose proof (load16_range m 0x40E Hm) as Hr. rewrite Z.shiftl_mul_pow2 by lia.
  destruct (truthy _).
  - destruct (scan_range_spec 36 (rsdp_matches m) (load16 m 0x40E * 2 ^ 4) (load16 m 0x40E * 2 ^ 4 + 1024)) as (r & -> & _); try lia.
    obind. destruct (truthy r); [by eexists|]. destruct (scan_range_spec 36 (rsdp_matches m) 0xE0000 0x100000) as (r' & -> & _); try lia.
    by eexists.
  - obind. simpl. destruct (scan_range_spec 36 (rsdp_matches m) 0xE0000 0x100000) as (r' & -> & _); try lia. by eexists.
Qed.

Lemma find_mp_table_spec m : mem_ok m → ∃ r, find_mp_table m = Some r.
Proof.
  intros Hm. unfold find_mp_table, scan_mp_range, lowmem_read16, sizeof_mp_floating.
  pose proof (load16_range m 0x40E Hm) as Hr. pose proof (load16_range m 0x413 Hm) as Hr'. rewrite Z.shiftl_mul_pow2 by lia.
  assert (∃ r, scan_range 16 (mp_matches m) (u64 (load16 m 0x413 * 1024 - 1024)) (load16 m 0x413 * 1024) = Some r) as (top & Htop).
  { destruct (Z.eq_dec (load16 m 0x413) 0) as [-> |].
    - exists 0. unfold scan_range. by apply (while_steps 1).
    - rewrite u64_small by lia.
      destruct (scan_range_spec 16 (mp_matches m) (load16 m 0x413 * 1024 - 1024) (load16 m 0x413 * 1024)) as (r & -> & _); try lia.
      by eexists. }
  destruct (scan_range_spec 16 (mp_matches m) 0xF0000 0x100000) as (rom & Hrom & _); try lia.
  destruct (truthy _).
  - destruct (scan_range_spec 16 (mp_matches m) (load16 m 0x40E * 2 ^ 4) (load16 m 0x40E * 2 ^ 4 + 1024)) as (r & -> & _); try lia.
    obind. destruct (truthy r); [by eexists|]. rewrite Htop. obind. destruct (truthy top); [by eexists|]. rewrite Hrom. by eexists.
  - obind. simpl (truthy 0). cbv iota. rewrite Htop. obind. destruct (truthy top); [by eexists|]. rewrite Hrom. by eexists.
Qed.

Definition within (s : smp) : Prop := smp_cpu_count s ≤ SMP_MAX_BOOT_CPUS.

Lemma add_cpu_within pid id en bs s : within s → within (add_cpu pid id en bs s).
Proof.
  intros Hs. unfold within, add_cpu in *. destruct (Z.leb_spec SMP_MAX_BOOT_CPUS (smp_cpu_count s)); [done|].
  unfold smp_cpu_count, with_cpu_list in *. simpl. rewrite length_app. simpl. lia.
Qed.

Lemma parse_mp_within m cfg s : mem_ok m → within s → within (parse_mp_config m cfg s).
Proof.
  intros Hm Hs. unfold parse_mp_config. destruct (_ || _); [done|]. destruct (negb _); [done|].
  pose proof (for_ind (λ _ st, within st.2) within 0 (load16 m (cfg + 34)) (λ _ st, mp_entry m st)
                (cfg + sizeof_mp_config, with_lapic_base (load32 m (cfg + 36)) s)) as H.
  feed H; [apply (load16_range m _ Hm)|]. feed H; [done|]. feed H.
  { intros i [entry s'] _ Hi. unfold mp_entry. destruct (_ =? 0); [by apply add_cpu_within|]. by destruct (_ && _). }
  destruct (for_ _ _ _ _) as [[p s']|s']; done.
Qed.

Lemma parse_mp_msr m cfg s : mem_ok m → apic_msr (parse_mp_config m cfg s) = apic_msr s.
Proof.
  intros Hm. unfold parse_mp_config. destruct (_ || _); [done|]. destruct (negb _); [done|].
  assert (∀ pid id en bs t, apic_msr (add_cpu pid id en bs t) = apic_msr t) as Ha by (intros; unfold add_cpu; by destruct (_ <=? _)).
  pose proof (for_ind (λ _ st, apic_msr st.2 = apic_msr s) (λ t, apic_msr t = apic_msr s) 0 (load16 m (cfg + 34)) (λ _ st, mp_entry m st)
                (cfg + sizeof_mp_config, with_lapic_base (load32 m (cfg + 36)) s)) as H.
  feed H; [apply (load16_range m _ Hm)|]. feed H; [done|]. feed H.
  { intros i [entry s'] _ Hi. unfold mp_entry. destruct (_ =? 0); [simpl; by rewrite Ha|]. by destruct (_ && _). }
  destruct (for_ _ _ _ _) as [[p s']|s']; done.
Qed.

Lemma load_range m a : mem_ok m → 0 ≤ load32 m a ∧ 0 ≤ load64 m a.
Proof.
  intros Hm. unfold load64, load32. pose proof (load16_range m a Hm). pose proof (load16_range m (a + 2) Hm).
  pose proof (load16_range m (a + 4) Hm). pose proof (load16_range m (a + 4 + 2) Hm). lia.
Qed.

Lemma find_madt_nonneg m rsdp : mem_ok m → 0 ≤ find_madt m rsdp.
Proof.
  intros Hm. assert (∀ root name load size, (∀ a, 0 ≤ load m a) → 0 ≤ search_root m root name load size) as H.
  { intros root name load size Hl. unfold search_root. destruct (_ && _); [|done]. unfold find_table.
    set (body := λ (i : Z) (_ : ()), _). set (n := _ / size).
    destruct (Z.le_gt_cases n 0); [by rewrite for_end|].
    pose proof (for_ind (λ _ (_ : ()), True) (λ r, 0 ≤ r) 0 n body ()) as Hf. feed Hf; [lia|]. feed Hf; [done|]. feed Hf.
    { intros i [] _ _. unfold body. destruct (_ && _); [apply Hl|done]. }
    by destruct (for_ 0 n body ()). }
  unfold find_madt. destruct (rsdp =? 0); [done|].
  destruct (truthy _); [destruct (_ && _); [|done]|]; [|destruct (truthy _); [|done]]; apply H; intros a; apply (load_range m a Hm).
Qed.


(** When the first processor of the table is disabled, no processor is marked as the one
    that booted: the code gives the mark to the first structure of the table only if it is
    enabled, where its comment promises it to the first enabled processor.  All enabled
    processors, the running one included, then count as still to be started. *)
Theorem smp_bootstrap_lost m madt base msr l pid id rest :
  mem_ok m → 0 < madt < 2 ^ 63 → structures m (madt + load32 m (madt + 4)) (madt + sizeof_madt) l →
  omap (lapic_of m) l = (pid, id, false) :: rest →
  ∃ s, parse_madt m madt (Smp [] base msr) = Some s ∧ length (cpus s) = Nat.min 256 (Datatypes.S (length rest)) ∧
    Forall (λ c, sc_bootstrap c = false) (cpus s).
Proof.
  intros Hm Hr Hl Hfirst. destruct (parse_madt_spec m madt (Smp [] base msr) [] Hm Hr eq_refl) as (l' & s & Hl' & E & Hc & _).
  rewrite (structures_unique _ _ _ _ _ Hl' Hl), app_nil_l, Hfirst in Hc. exists s. split; [done|]. rewrite Hc. unfold boot_list. split.
  - by rewrite length_take, length_imap.
  - apply Forall_take, Forall_lookup_2. intros i c Hi. rewrite list_lookup_imap in Hi. destruct i as [|i]; simpl in Hi.
    + by simplify_eq.
    + destruct (rest !! i) as [[[p q] en]|]; simplify_eq/=. by rewrite andb_false_r.
Qed.

(** ** Concrete tables *)

(** A table at 4096 with a disabled and two enabled processors and one structure of
    another type between them. *)
Definition demo_madt : list Z :=
  APIC ++ [76; 0; 0; 0; 1; 0] ++ replicate 26 0 ++ [0; 0; 224; 254] ++ [1; 0; 0; 0] ++
  [0; 8; 0; 0; 0; 0; 0; 0] ++ [0; 8; 1; 1; 1; 0; 0; 0] ++ [1; 8; 9; 9; 9; 9; 9; 9] ++ [0; 8; 2; 4; 1; 0; 0; 0].
Definition demo_mem (a : Z) : Z := if (a <? 4096) || (4172 <=? a) then 0 else nth (Z.to_nat (a - 4096)) demo_madt 0.

Lemma demo_mem_ok : mem_ok demo_mem.
Proof.
  intros a. unfold demo_mem. destruct (_ || _); [lia|].
  assert (Forall (λ x, 0 ≤ x < 256) demo_madt) as Hf by (repeat constructor; lia).
  destruct (nth_in_or_default (Z.to_nat (a - 4096)) demo_madt 0) as [Hin| ->]; [|lia].
  apply list_elem_of_In in Hin. by apply (proj1 (Forall_forall _ _) Hf).
Qed.

Example demo_madt_cpus :
  cpus <$> parse_madt demo_mem 4096 (Smp [] 0 0) =
  Some [SmpCpu 0 0 false false; SmpCpu 1 1 true false; SmpCpu 2 4 true false].
Proof. vm_compute. reflexivity. Qed.

Definition demo_structures : list Z := [4140; 4148; 4156; 4164].
Lemma demo_tiled : structures demo_mem (4096 + load32 demo_mem (4096 + 4)) (4096 + sizeof_madt) demo_structures.
Proof.
  change (4096 + load32 demo_mem (4096 + 4)) with 4172.
  do 4 (apply st_next; [vm_compute; discriminate..|]). apply st_end. vm_compute. reflexivity.
Qed.

Lemma parse_madt_witness :
  ∃ l s', structures demo_mem (4096 + load32 demo_mem (4096 + 4)) (4096 + sizeof_madt) l ∧
    parse_madt demo_mem 4096 (Smp [] 0 0) = Some s' ∧ cpus s' = boot_list (omap (lapic_of demo_mem) l) ∧
    lapic_base s' = load32 demo_mem (4096 + 36) ∧ apic_msr s' = 0.
Proof. apply (parse_madt_exact demo_mem 4096 0 0 demo_mem_ok). lia. Defined.


Lemma smp_bootstrap_witness :
  ∃ s, parse_madt demo_mem 4096 (Smp [] 0 0) = Some s ∧ length (cpus s) = Nat.min 256 3 ∧
    Forall (λ c, sc_bootstrap c = false) (cpus s).
Proof.
  apply (smp_bootstrap_lost demo_mem 4096 0 0 demo_structures 0 0 [(1, 1, true); (2, 4, true)] demo_mem_ok); [lia|exact demo_tiled|].
  vm_compute. reflexivity.
Defined.
