(* ===== verification/Frames.v ===== *)
(** Interface between the physical memory manager and its clients.

    The kernel heap and the paging layer only use three entry points of
    mem/mm/pmm.c: one frame, a contiguous run of frames, and giving a frame
    back.  [FrameAllocator] names them and [FrameAllocatorOk] states what the
    clients rely on: an allocated frame was free, is page aligned, lies below
    the 64 GiB the bitmap covers, and is not handed out again until it is freed.
    Pmm.v proves that the bitmap allocator implements the interface; Kheap.v and
    Paging.v are proved against the interface alone. *)

From stdpp Require Import prelude numbers list.
From Stdlib Require Import ZArith Lia.
From S2P Require Import Prelude.

Open Scope Z_scope.

(** pmm.h *)
Definition PMM_MAX_PHYS : Z := 68719476736.
Definition PMM_FRAME_SIZE : Z := 4096.

(** Number of frames the bitmap covers. *)
Definition MAX_FRAMES : Z := 16777216.

Class FrameAllocator (A : Type) : Type := {
  fa_alloc : A → Z * A;
  fa_contig : Z → A → Z * A;
  fa_free : Z → A → A
}.

Class FrameAllocatorOk (A : Type) `{!FrameAllocator A} : Type := {
  (** representation invariant of the allocator *)
  fa_ok : A → Prop;
  (** frame number [f] is free *)
  fa_avail : A → Z → Prop;
  fa_avail_range : ∀ a f, fa_avail a f → 0 ≤ f < MAX_FRAMES;
  (** a single frame: address zero is the failure value *)
  fa_alloc_spec : ∀ a, fa_ok a →
    let r := fa_alloc a in
    fa_ok r.2 ∧ (∀ g, fa_avail r.2 g → fa_avail a g) ∧
    (r.1 ≠ 0 → ∃ f, r.1 = f * PMM_FRAME_SIZE ∧ fa_avail a f ∧
                    ∀ g, fa_avail r.2 g ↔ fa_avail a g ∧ g ≠ f);
  (** failure: nothing is free, or frame 0 was, whose address means failure *)
  fa_alloc_full : ∀ a, fa_ok a →
    let r := fa_alloc a in
    r.1 = 0 → (∀ g, ¬ fa_avail a g) ∨ (fa_avail a 0 ∧ ∀ g, fa_avail r.2 g ↔ fa_avail a g ∧ g ≠ 0);
  (** a run of [n] frames *)
  fa_contig_spec : ∀ n a, fa_ok a → 0 ≤ n →
    let r := fa_contig n a in
    fa_ok r.2 ∧ (∀ g, fa_avail r.2 g → fa_avail a g) ∧
    (r.1 ≠ 0 → ∃ f, r.1 = f * PMM_FRAME_SIZE ∧
                    (∀ g, f ≤ g < f + n → fa_avail a g) ∧
                    ∀ g, fa_avail r.2 g ↔ fa_avail a g ∧ ¬ (f ≤ g < f + n));
  fa_free_spec : ∀ p a, fa_ok a → 0 ≤ p →
    fa_ok (fa_free p a) ∧
    ∀ g, fa_avail (fa_free p a) g ↔
         fa_avail a g ∨ (g = p / PMM_FRAME_SIZE ∧ g < MAX_FRAMES)
}.

Lemma fa_alloc_aligned `{FrameAllocatorOk A} (a : A) :
  fa_ok a → (fa_alloc a).1 ≠ 0 →
  (fa_alloc a).1 mod 4096 = 0 ∧ 0 < (fa_alloc a).1 < PMM_MAX_PHYS ∧
  fa_avail a ((fa_alloc a).1 / 4096) ∧ ¬ fa_avail (fa_alloc a).2 ((fa_alloc a).1 / 4096).
Proof.
  intros Ha Hne. destruct (fa_alloc_spec a Ha) as (_ & _ & Hs).
  destruct (Hs Hne) as (f & Hf & Hav & Hg). rewrite Hf in *. unfold PMM_FRAME_SIZE in *.
  pose proof (fa_avail_range a f Hav) as Hr. unfold MAX_FRAMES in Hr.
  rewrite Z.mod_mul, Z.div_mul by lia. unfold PMM_MAX_PHYS.
  split; [done|]. split; [lia|]. split; [done|]. rewrite Hg. tauto.
Qed.

(** Counting free frames without a counter: at most [k] are free, or frame 0 is, which
    the allocator may hand out as a failure. *)
Section Few.
Context `{FrameAllocatorOk A}.
Implicit Types a : A.

Definition few (k : nat) a : Prop :=
  fa_avail a 0 ∨ ∃ l : list Z, (length l ≤ k)%nat ∧ ∀ g, fa_avail a g → g ∈ l.

(** At most [k] frames that are free in [a] are taken in [a']. *)
Definition took (k : nat) a a' : Prop :=
  ∃ l : list Z, (length l ≤ k)%nat ∧ ∀ g, fa_avail a g → fa_avail a' g ∨ g ∈ l.

Lemma took_refl a : took 0 a a.
Proof. exists []. split; [done|]. auto. Qed.

Lemma took_le j k a a' : (j ≤ k)%nat → took j a a' → took k a a'.
Proof. intros Hjk (l & Hl & Hg). exists l. split; [lia|done]. Qed.

Lemma took_trans j k a a' a'' : took j a a' → took k a' a'' → took (j + k) a a''.
Proof.
  intros (l & Hl & Hg) (l' & Hl' & Hg'). exists (l ++ l'). rewrite length_app. split; [lia|].
  intros g Ha. rewrite elem_of_app. destruct (Hg g Ha) as [Ha'|]; [|auto]. destruct (Hg' g Ha'); auto.
Qed.

Lemma few_le j k a : (j ≤ k)%nat → few j a → few k a.
Proof. intros Hjk [|(l & Hl & Hg)]; [by left|right]. exists l. split; [lia|done]. Qed.

Lemma took_few j k a a' :
  took j a a' → (∀ g, fa_avail a' g → fa_avail a g) → few k a' → few (j + k) a.
Proof.
  intros (l & Hl & Hg) Hsub [H0|(l' & Hl' & Hg')]; [left; auto|right].
  exists (l ++ l'). rewrite length_app. split; [lia|]. intros g Ha. rewrite elem_of_app.
  destruct (Hg g Ha) as [Ha'|]; [|auto]. right. auto.
Qed.

Lemma alloc_took a : fa_ok a → took 1 a (fa_alloc a).2.
Proof.
  intros Ha. destruct (Z.eq_dec (fa_alloc a).1 0) as [E|E].
  - destruct (fa_alloc_full a Ha E) as [Hno|[_ Hg]]; [exists []; split; [simpl; lia|]; intros g Hg; by destruct (Hno g)|].
    exists [0]. split; [done|]. intros g Hav. rewrite Hg, list_elem_of_singleton. destruct (Z.eq_dec g 0); auto.
  - destruct (fa_alloc_spec a Ha) as (_ & _ & Hs). destruct (Hs E) as (f & _ & _ & Hg). exists [f]. split; [done|].
    intros g Hav. rewrite Hg, list_elem_of_singleton. destruct (Z.eq_dec g f); auto.
Qed.

(** Nothing is left in [a'], reached from [a] (with the same exception). *)
Definition drained a a' : Prop := fa_avail a 0 ∨ ∀ g, ¬ fa_avail a' g.

Lemma drained_from a a' a'' : (∀ g, fa_avail a' g → fa_avail a g) → drained a' a'' → drained a a''.
Proof. intros Hsub [|]; [left; auto|by right]. Qed.

Lemma alloc_drained a : fa_ok a → (fa_alloc a).1 = 0 → drained a (fa_alloc a).2.
Proof.
  intros Ha E. destruct (fa_alloc_full a Ha E) as [Hno|[H0 _]]; [right|by left].
  destruct (fa_alloc_spec a Ha) as (_ & Hsub & _). intros g Hg. by apply (Hno g), Hsub.
Qed.

Lemma alloc_empty a : fa_ok a → (∀ g, ¬ fa_avail a g) → (fa_alloc a).1 = 0.
Proof.
  intros Ha Hno. destruct (Z.eq_dec (fa_alloc a).1 0) as [|E]; [done|].
  destruct (fa_alloc_spec a Ha) as (_ & _ & Hs). destruct (Hs E) as (f & _ & Hf & _). by destruct (Hno f).
Qed.

Lemma alloc_few a : fa_ok a → (fa_alloc a).1 = 0 → few 0 a.
Proof.
  intros Ha E. destruct (fa_alloc_full a Ha E) as [Hno|[H0 _]]; [right|by left].
  exists []. split; [done|]. intros g Hg. by destruct (Hno g).
Qed.
End Few.
