(* ===== verification/Pmm.v ===== *)
(** Physical memory manager (mem/mm/pmm.c).

    The state is the file's statics: the bitmap (one bit per 4 KiB frame, set =
    free), the three counters and the [hint] that is static inside
    [pmm_alloc_frame].  Every operation runs under [pmm_lock], so an operation is
    one atomic step of the state.  [pmm_init] takes what it reads from outside:
    the multiboot memory map, the address of [kernel_end], the address of the
    bitmap and the framebuffer. *)

From stdpp Require Import prelude numbers list.
From Stdlib Require Import ZArith Lia Btauto.
From S2P Require Import Prelude Memory Frames.

Open Scope Z_scope.

Definition PMM_BITMAP_BYTES : Z := PMM_MAX_PHYS / PMM_FRAME_SIZE / 8.
Definition PMM_MAX_FRAMES : Z := PMM_BITMAP_BYTES * 8.

Record pmm_mmap_entry : Type := {
  me_addr : Z;
  me_length : Z;
  me_type : Z
}.

(** What [pmm_init] reads of [g_bootinfo] and of the linker symbols. *)
Record pmm_boot : Type := {
  pb_map : list pmm_mmap_entry;
  pb_kernel_end : Z;
  pb_bitmap : Z;
  pb_framebuffer : Z;
  pb_fb_pitch : Z;
  pb_fb_height : Z
}.

Record pmm : Type := {
  bitmap : Z → Z;
  free_frames : Z;
  total_frames : Z;
  total_memory_bytes : Z;
  hint : Z
}.

Definition with_bitmap (st : pmm) (b : Z → Z) : pmm :=
  {| bitmap := b; free_frames := free_frames st; total_frames := total_frames st;
     total_memory_bytes := total_memory_bytes st; hint := hint st |}.
Definition with_free (st : pmm) (n : Z) : pmm :=
  {| bitmap := bitmap st; free_frames := n; total_frames := total_frames st;
     total_memory_bytes := total_memory_bytes st; hint := hint st |}.
Definition with_hint (st : pmm) (h : Z) : pmm :=
  {| bitmap := bitmap st; free_frames := free_frames st; total_frames := total_frames st;
     total_memory_bytes := total_memory_bytes st; hint := h |}.
Definition with_memory (st : pmm) (b : Z) : pmm :=
  {| bitmap := bitmap st; free_frames := free_frames st; total_frames := total_frames st;
     total_memory_bytes := b; hint := hint st |}.
Definition with_total (st : pmm) (n : Z) : pmm :=
  {| bitmap := bitmap st; free_frames := free_frames st; total_frames := n;
     total_memory_bytes := total_memory_bytes st; hint := hint st |}.

(** The zero-initialised statics. *)
Definition pmm_bss : pmm :=
  {| bitmap := λ _, 0; free_frames := 0; total_frames := 0;
     total_memory_bytes := 0; hint := 0 |}.

Definition frame_is_free (st : pmm) (idx : Z) : bool :=
  truthy (Z.land (Z.shiftr (bitmap st (Z.shiftr idx 3)) (Z.land idx 7)) 1).

Definition frame_mark_free (st : pmm) (idx : Z) : pmm :=
  with_bitmap st
    (store8 (bitmap st) (Z.shiftr idx 3)
       (Z.lor (bitmap st (Z.shiftr idx 3)) (Z.shiftl 1 (Z.land idx 7)))).

Definition frame_mark_used (st : pmm) (idx : Z) : pmm :=
  with_bitmap st
    (store8 (bitmap st) (Z.shiftr idx 3)
       (Z.land (bitmap st (Z.shiftr idx 3)) (Z.lnot (Z.shiftl 1 (Z.land idx 7))))).

Definition frame_index (phys : Z) : Z := Z.shiftr phys 12.

Definition frames_dec (st : pmm) : pmm := with_free st (u64 (free_frames st - 1)).
Definition frames_inc (st : pmm) : pmm := with_free st (u64 (free_frames st + 1)).

Definition reserve_range (st : pmm) (start end_ : Z) : pmm :=
  if end_ <=? start then st
  else
    let f0 := Z.shiftr start 12 in
    let f1 := Z.shiftr (u64 (end_ + PMM_FRAME_SIZE - 1)) 12 in
    if PMM_MAX_FRAMES <=? f0 then st
    else
      let f1 := if PMM_MAX_FRAMES <? f1 then PMM_MAX_FRAMES else f1 in
      for_do f0 f1
        (λ f st, frame_mark_used (if frame_is_free st f then frames_dec st else st) f) st.

(** One round of step 1 of [pmm_init]: a usable entry marks its frames free. *)
Definition mark_usable (st : pmm) (e : pmm_mmap_entry) : pmm :=
  let start := me_addr e in
  let end_ := u64 (start + me_length e) in
  if PMM_MAX_PHYS <=? start then st
  else
    let end_ := if PMM_MAX_PHYS <? end_ then PMM_MAX_PHYS else end_ in
    if me_type e =? 1 then
      let f0 := Z.shiftr start 12 in
      let f1 := Z.shiftr (u64 (end_ + PMM_FRAME_SIZE - 1)) 12 in
      let st :=
        for_do f0 f1
          (λ f st, if (f <? PMM_MAX_FRAMES) && negb (frame_is_free st f)
                   then frames_inc (frame_mark_free st f) else st) st in
      with_memory st (u64 (total_memory_bytes st + (end_ - start)))
    else st.

Definition reserve_entry (st : pmm) (e : pmm_mmap_entry) : pmm :=
  if negb (me_type e =? 1)
  then reserve_range st (me_addr e) (u64 (me_addr e + me_length e)) else st.

Definition pmm_init (b : pmm_boot) (st : pmm) : pmm :=
  let st := with_memory (with_total (with_free st 0) 0) 0 in
  let st := foldl mark_usable st (pb_map b) in
  let st := reserve_range st 0 (pb_kernel_end b) in
  let st := reserve_range st (pb_bitmap b) (u64 (pb_bitmap b + PMM_BITMAP_BYTES)) in
  let st := foldl reserve_entry st (pb_map b) in
  let st := if truthy (pb_framebuffer b)
            then reserve_range st (pb_framebuffer b)
                   (u64 (pb_framebuffer b + pb_fb_pitch b * pb_fb_height b))
            else st in
  with_total st
    (if truthy (Z.of_nat (length (pb_map b))) && truthy (total_memory_bytes st)
     then total_memory_bytes st / PMM_FRAME_SIZE else 0).

(** The two scans of [pmm_alloc_frame]; the first free frame is claimed. *)
Definition claim (st : pmm) (f : Z) : Z * pmm :=
  (u64 (Z.shiftl f 12), with_hint (frames_dec (frame_mark_used st f)) (f + 1)).

Definition scan_free (lo hi : Z) (st : pmm) : pmm + Z * pmm :=
  for_ lo hi (λ f st, if frame_is_free st f then inr (claim st f) else inl st) st.

Definition pmm_alloc_frame (st : pmm) : Z * pmm :=
  match scan_free (hint st) PMM_MAX_FRAMES st with
  | inr r => r
  | inl st => match scan_free 0 (hint st) st with
              | inr r => r
              | inl st => (0, st)
              end
  end.

(** The run of [count] frames from [start] is marked used. *)
Definition claim_run (st : pmm) (start count : Z) : pmm :=
  for_do 0 count (λ i st, frames_dec (frame_mark_used st (start + i))) st.

(** Loop state: current run length, start of the run, allocator. *)
Definition contig_step (count f : Z) (s : Z * Z * pmm) : Z * Z * pmm + Z * pmm :=
  let '(run, start, st) := s in
  if frame_is_free st f then
    let start := if run =? 0 then f else start in
    let run := run + 1 in
    if run =? count then inr (u64 (Z.shiftl start 12), claim_run st start count)
    else inl (run, start, st)
  else inl (0, start, st).

Definition pmm_alloc_contig (count : Z) (st : pmm) : Z * pmm :=
  if count =? 0 then (0, st)
  else
    match for_ 0 PMM_MAX_FRAMES (contig_step count) (0, 0, st) with
    | inr r => r
    | inl (_, _, st) => (0, st)
    end.

Definition pmm_free_frame (phys : Z) (st : pmm) : pmm :=
  let f := frame_index phys in
  if (f <? PMM_MAX_FRAMES) && negb (frame_is_free st f)
  then frames_inc (frame_mark_free st f) else st.

Definition pmm_free_range (phys count : Z) (st : pmm) : pmm :=
  for_do 0 count (λ i st, pmm_free_frame (u64 (phys + i * PMM_FRAME_SIZE)) st) st.

Definition pmm_total_frames (st : pmm) : Z := total_frames st.
Definition pmm_free_frames (st : pmm) : Z := free_frames st.
Definition pmm_total_memory (st : pmm) : Z := total_memory_bytes st.

Definition pmm_zero_page (m : mem) (phys : Z) : mem :=
  if truthy phys then k_memset m phys 0 PMM_FRAME_SIZE else m.

(** ** The bitmap as a set of frames *)

Lemma frame_is_free_bit st i :
  frame_is_free st i = Z.testbit (bitmap st (i / 8)) (i mod 8).
Proof.
  unfold frame_is_free. rewrite truthy_land_1, Z.shiftr_spec, land_7, shiftr_3 by lia.
  done.
Qed.

Lemma mark_free_at st i j :
  frame_is_free (frame_mark_free st i) j = (i =? j) || frame_is_free st j.
Proof.
  rewrite !frame_is_free_bit. unfold frame_mark_free, store8; simpl.
  rewrite shiftr_3, land_7.
  pose proof (Z.mod_pos_bound i 8); pose proof (Z.mod_pos_bound j 8).
  destruct (Z.eqb_spec (j / 8) (i / 8)) as [E|E].
  - rewrite testbit_u8, Z.lor_spec, testbit_shiftl_1 by lia. rewrite <- E.
    destruct (Z.eqb_spec (i mod 8) (j mod 8)).
    + rewrite (byte_pos_inj i j) by done. rewrite Z.eqb_refl. by rewrite orb_true_r.
    + rewrite orb_false_r. by destruct (Z.eqb_spec i j); subst.
  - by destruct (Z.eqb_spec i j); subst.
Qed.

Lemma mark_used_at st i j :
  frame_is_free (frame_mark_used st i) j = negb (i =? j) && frame_is_free st j.
Proof.
  rewrite !frame_is_free_bit. unfold frame_mark_used, store8; simpl.
  rewrite shiftr_3, land_7.
  pose proof (Z.mod_pos_bound i 8); pose proof (Z.mod_pos_bound j 8).
  destruct (Z.eqb_spec (j / 8) (i / 8)) as [E|E].
  - rewrite testbit_u8, Z.land_spec, Z.lnot_spec, testbit_shiftl_1 by lia. rewrite <- E.
    destruct (Z.eqb_spec (i mod 8) (j mod 8)).
    + rewrite (byte_pos_inj i j) by done. rewrite Z.eqb_refl. by rewrite andb_false_r.
    + rewrite andb_true_r. by destruct (Z.eqb_spec i j); subst.
  - by destruct (Z.eqb_spec i j); subst.
Qed.

Lemma frames_dec_free st f : frame_is_free (frames_dec st) f = frame_is_free st f.
Proof. done. Qed.
Lemma frames_inc_free st f : frame_is_free (frames_inc st) f = frame_is_free st f.
Proof. done. Qed.
Lemma with_hint_free st h f : frame_is_free (with_hint st h) f = frame_is_free st f.
Proof. done. Qed.

#[export] Hint Rewrite frames_dec_free frames_inc_free with_hint_free mark_free_at mark_used_at : pmm.

(** Number of frames below [n] that satisfy [P]. *)
Fixpoint count_below (P : Z → bool) (n : nat) : Z :=
  match n with
  | O => 0
  | Datatypes.S k => count_below P k + (if P (Z.of_nat k) then 1 else 0)
  end.

Lemma count_below_ext P Q n :
  (∀ f, 0 ≤ f < Z.of_nat n → P f = Q f) → count_below P n = count_below Q n.
Proof.
  induction n as [|n IH]; intros H; simpl; [done|].
  rewrite IH by (intros; apply H; lia). by rewrite H by lia.
Qed.

Lemma count_below_range P n : 0 ≤ count_below P n ≤ Z.of_nat n.
Proof. induction n as [|n IH]; simpl; [lia|]. destruct (P _); lia. Qed.

Lemma count_below_flip P Q n f :
  0 ≤ f < Z.of_nat n → P f = true → Q f = false →
  (∀ g, 0 ≤ g < Z.of_nat n → g ≠ f → P g = Q g) →
  count_below P n = count_below Q n + 1.
Proof.
  induction n as [|n IH]; intros Hf HP HQ H; simpl; [lia|].
  destruct (decide (f = Z.of_nat n)) as [->|Hne].
  - rewrite HP, HQ, (count_below_ext P Q n) by (intros; apply H; lia). lia.
  - rewrite IH; [|lia|done|done|intros; apply H; lia].
    rewrite (H (Z.of_nat n)) by lia. lia.
Qed.

Lemma count_below_pos P n f : 0 ≤ f < Z.of_nat n → P f = true → 0 < count_below P n.
Proof.
  induction n as [|n IH]; intros Hf HP; simpl; [lia|].
  pose proof (count_below_range P n). destruct (decide (f = Z.of_nat n)) as [->|Hne].
  - rewrite HP. lia.
  - specialize (IH ltac:(lia) HP). destruct (P (Z.of_nat n)); lia.
Qed.

(** The number of frames as a natural number, sealed: it is 2^24. *)
Lemma nframes_sealed : { n : nat | Z.of_nat n = PMM_MAX_FRAMES }.
Proof. exists (Z.to_nat PMM_MAX_FRAMES). apply Z2Nat.id. by vm_compute. Qed.
Definition nframes : nat := proj1_sig nframes_sealed.

Definition free_count (st : pmm) : Z := count_below (frame_is_free st) nframes.

(** Representation invariant: the counter is the number of set bits and the
    hint stays within the bitmap. *)
Definition pmm_inv (st : pmm) : Prop :=
  free_frames st = free_count st ∧ 0 ≤ hint st ≤ PMM_MAX_FRAMES.

Lemma max_frames_val : PMM_MAX_FRAMES = 16777216.
Proof. reflexivity. Qed.

Lemma nframes_val : Z.of_nat nframes = 16777216.
Proof. unfold nframes. by destruct nframes_sealed. Qed.

Lemma free_count_range st : 0 ≤ free_count st ≤ PMM_MAX_FRAMES.
Proof.
  unfold free_count. pose proof (count_below_range (frame_is_free st) nframes).
  pose proof nframes_val. rewrite max_frames_val. lia.
Qed.

Lemma free_count_flip st st' f :
  0 ≤ f < PMM_MAX_FRAMES → frame_is_free st f = true → frame_is_free st' f = false →
  (∀ g, g ≠ f → frame_is_free st g = frame_is_free st' g) →
  free_count st = free_count st' + 1.
Proof.
  intros Hf H1 H2 H. apply (count_below_flip _ _ _ f); [|done|done|auto].
  rewrite nframes_val. rewrite max_frames_val in Hf. lia.
Qed.

(** Marking a free frame used and decrementing keeps the counter exact, and so
    does the way back. *)
Lemma use_frame_count st f :
  0 ≤ f < PMM_MAX_FRAMES → frame_is_free st f = true → free_frames st = free_count st →
  free_frames (frames_dec (frame_mark_used st f)) =
  free_count (frames_dec (frame_mark_used st f)).
Proof.
  intros Hf Hfree Hc. simpl. rewrite Hc.
  rewrite (free_count_flip st (frames_dec (frame_mark_used st f)) f Hf Hfree).
  - pose proof (free_count_range (frames_dec (frame_mark_used st f))) as Hr.
    rewrite max_frames_val in Hr. rewrite u64_small; lia.
  - rewrite frames_dec_free, mark_used_at, Z.eqb_refl. done.
  - intros g Hg. rewrite frames_dec_free, mark_used_at.
    by replace (f =? g) with false by lia.
Qed.

Lemma release_frame_count st f :
  0 ≤ f < PMM_MAX_FRAMES → frame_is_free st f = false → free_frames st = free_count st →
  free_frames (frames_inc (frame_mark_free st f)) =
  free_count (frames_inc (frame_mark_free st f)).
Proof.
  intros Hf Hfree Hc. simpl. rewrite Hc.
  pose proof (free_count_range st) as Hr. rewrite max_frames_val in Hr.
  rewrite (free_count_flip (frames_inc (frame_mark_free st f)) st f Hf).
  - rewrite u64_small; lia.
  - rewrite frames_inc_free, mark_free_at, Z.eqb_refl. done.
  - done.
  - intros g Hg. rewrite frames_inc_free, mark_free_at.
    by replace (f =? g) with false by lia.
Qed.

(** ** Allocating one frame *)

Lemma scan_free_spec lo hi st :
  match scan_free lo hi st with
  | inl st' => st' = st ∧ ∀ f, lo ≤ f < hi → frame_is_free st f = false
  | inr r => ∃ f, lo ≤ f < hi ∧ frame_is_free st f = true ∧
                  (∀ g, lo ≤ g < f → frame_is_free st g = false) ∧ r = claim st f
  end.
Proof.
  unfold scan_free. destruct (Z.le_gt_cases hi lo) as [H|H].
  { rewrite for_end by lia. split; [done|lia]. }
  apply (for_ind (λ i st', st' = st ∧ ∀ f, lo ≤ f < i → frame_is_free st f = false)
           (λ r, ∃ f, lo ≤ f < hi ∧ frame_is_free st f = true ∧
                  (∀ g, lo ≤ g < f → frame_is_free st g = false) ∧ r = claim st f)).
  - lia.
  - split; [done|lia].
  - intros i st' Hi [-> IH]. destruct (frame_is_free st i) eqn:E.
    + exists i. repeat split; try done; lia.
    + split; [done|]. intros f Hf. destruct (decide (f = i)) as [->|]; [done|].
      apply IH. lia.
Qed.

(** The frame the next-fit search picks: the first free one at or after the
    hint, or the first free one of all when there is none. *)
Definition next_fit (st : pmm) (f : Z) : Prop :=
  0 ≤ f < PMM_MAX_FRAMES ∧ frame_is_free st f = true ∧
  ((hint st ≤ f ∧ ∀ g, hint st ≤ g < f → frame_is_free st g = false) ∨
   (f < hint st ∧ (∀ g, hint st ≤ g < PMM_MAX_FRAMES → frame_is_free st g = false) ∧
    ∀ g, 0 ≤ g < f → frame_is_free st g = false)).

Lemma pmm_alloc_cases st :
  0 ≤ hint st ≤ PMM_MAX_FRAMES →
  (∃ f, next_fit st f ∧ pmm_alloc_frame st = claim st f) ∨
  ((∀ f, 0 ≤ f < PMM_MAX_FRAMES → frame_is_free st f = false) ∧
   pmm_alloc_frame st = (0, st)).
Proof.
  intros Hh. unfold pmm_alloc_frame, next_fit.
  pose proof (scan_free_spec (hint st) PMM_MAX_FRAMES st) as H1.
  destruct (scan_free (hint st) _ st) as [st1|r1].
  - destruct H1 as [-> H1]. pose proof (scan_free_spec 0 (hint st) st) as H2.
    destruct (scan_free 0 _ st) as [st2|r2].
    + destruct H2 as [-> H2]. right. split; [|done]. intros f Hf.
      destruct (Z.lt_ge_cases f (hint st)); [apply H2|apply H1]; lia.
    + destruct H2 as (f & ? & ? & ? & ->). left. exists f.
      split; [split; [lia|split; [done|right; auto with lia]]|done].
  - destruct H1 as (f & ? & ? & ? & ->). left. exists f.
    split; [split; [lia|split; [done|left; auto with lia]]|done].
Qed.

Lemma claim_inv st f :
  0 ≤ f < PMM_MAX_FRAMES → frame_is_free st f = true → pmm_inv st →
  pmm_inv (claim st f).2.
Proof.
  intros Hf Hfree [Hc Hh]. split; simpl; [|lia].
  apply (use_frame_count st f Hf Hfree Hc).
Qed.

Lemma claim_addr st f : 0 ≤ f < PMM_MAX_FRAMES → (claim st f).1 = f * 4096.
Proof.
  intros Hf. rewrite max_frames_val in Hf. unfold claim; simpl.
  rewrite Z.shiftl_mul_pow2 by lia. rewrite u64_small by lia. lia.
Qed.

Lemma claim_free st f g :
  frame_is_free (claim st f).2 g = negb (f =? g) && frame_is_free st g.
Proof. unfold claim; simpl. by autorewrite with pmm. Qed.


(** ** Allocating a contiguous run *)

(** All frames of [[s, s + n)] are free. *)
Definition free_run (st : pmm) (s n : Z) : Prop :=
  ∀ g, s ≤ g < s + n → frame_is_free st g = true.

Definition in_run (s n g : Z) : bool := (s <=? g) && (g <? s + n).

Lemma claim_run_spec st s n :
  0 ≤ s → 0 ≤ n → s + n ≤ PMM_MAX_FRAMES → free_run st s n → pmm_inv st →
  pmm_inv (claim_run st s n) ∧ hint (claim_run st s n) = hint st ∧
  ∀ g, frame_is_free (claim_run st s n) g = negb (in_run s n g) && frame_is_free st g.
Proof.
  intros Hs Hn Hmax Hrun Hinv. unfold claim_run.
  apply (for_do_ind (λ i st', pmm_inv st' ∧ hint st' = hint st ∧
    ∀ g, frame_is_free st' g = negb (in_run s i g) && frame_is_free st g)).
  - done.
  - split; [done|]. split; [done|]. intros g. by replace (in_run s 0 g) with false by (unfold in_run; lia).
  - intros i st' Hi (Hinv' & Hh & Hfree).
    assert (frame_is_free st' (s + i) = true) as Hcur.
    { rewrite Hfree. rewrite (Hrun (s + i)) by lia.
      by replace (in_run s i (s + i)) with false by (unfold in_run; lia). }
    split; [split; simpl; [apply (use_frame_count st' (s + i)); [lia|done|apply Hinv']|apply Hinv']|].
    split; [done|]. intros g. autorewrite with pmm. rewrite Hfree. unfold in_run.
    destruct (Z.eqb_spec (s + i) g); simpl.
    + subst. by replace ((s <=? s + i) && (s + i <? s + (i + 1))) with true by lia.
    + f_equal. f_equal. lia.
Qed.

Definition contig_inv (st : pmm) (count f : Z) (p : Z * Z * pmm) : Prop :=
  let '(run, start, st') := p in
  st' = st ∧ 0 ≤ run < count ∧ run ≤ f ∧ (0 < run → start = f - run) ∧
  free_run st (f - run) run ∧
  (f - run = 0 ∨ frame_is_free st (f - run - 1) = false) ∧
  (∀ s, 0 ≤ s → s + count ≤ f → ¬ free_run st s count).

Lemma contig_step_inv st count f p :
  0 < count → 0 ≤ f → contig_inv st count f p →
  match contig_step count f p with
  | inl p' => contig_inv st count (f + 1) p'
  | inr r => ∃ s, 0 ≤ s ∧ s + count = f + 1 ∧ free_run st s count ∧
                  (∀ s', 0 ≤ s' < s → ¬ free_run st s' count) ∧
                  r = (u64 (Z.shiftl s 12), claim_run st s count)
  end.
Proof.
  destruct p as [[run start] st']. intros Hc Hf (-> & Hrun & Hrf & Hst & Hfr & Hmax & Hno).
  unfold contig_step. destruct (frame_is_free st f) eqn:E.
  - assert ((if run =? 0 then f else start) = f - run) as ->.
    { destruct (Z.eqb_spec run 0); [lia|apply Hst; lia]. }
    assert (free_run st (f - run) (run + 1)) as Hfr'.
    { intros g Hg. destruct (decide (g = f)) as [->|]; [done|]. apply Hfr. lia. }
    destruct (Z.eqb_spec (run + 1) count).
    + exists (f - run). subst count. repeat split; try done; try lia.
      intros s' Hs' Hbad. apply (Hno s'); [lia|lia|done].
    + unfold contig_inv. replace (f + 1 - (run + 1)) with (f - run) by lia.
      repeat split; try done; try lia. intros s Hs Hsc Hbad.
      destruct (decide (s + count = f + 1)); [|apply (Hno s); [lia|lia|done]].
      destruct Hmax as [|Hmax]; [lia|]. rewrite Hbad in Hmax by lia. done.
  - unfold contig_inv. replace (f + 1 - 0 - 1) with f by lia.
    split_and!; try done; try lia; [intros g; lia|by right|].
    intros s Hs Hsc Hbad. destruct (decide (s + count = f + 1)); [|apply (Hno s); [lia|lia|done]].
    rewrite Hbad in E by lia. done.
Qed.

Lemma pmm_contig_cases count st :
  0 < count →
  (∃ s, 0 ≤ s ∧ s + count ≤ PMM_MAX_FRAMES ∧ free_run st s count ∧
        (∀ s', 0 ≤ s' < s → ¬ free_run st s' count) ∧
        pmm_alloc_contig count st = (u64 (Z.shiftl s 12), claim_run st s count)) ∨
  ((∀ s, 0 ≤ s → s + count ≤ PMM_MAX_FRAMES → ¬ free_run st s count) ∧
   pmm_alloc_contig count st = (0, st)).
Proof.
  intros Hc. unfold pmm_alloc_contig. replace (count =? 0) with false by lia.
  pose proof (for_ind (contig_inv st count)
    (λ r, ∃ s, 0 ≤ s ∧ s + count ≤ PMM_MAX_FRAMES ∧ free_run st s count ∧
                  (∀ s', 0 ≤ s' < s → ¬ free_run st s' count) ∧
                  r = (u64 (Z.shiftl s 12), claim_run st s count))
    0 PMM_MAX_FRAMES (contig_step count) (0, 0, st)) as H.
  feed H; [by rewrite max_frames_val|]. feed H.
  { simpl. split_and!; try done; try lia. intros g; lia. }
  feed H.
  { intros i p Hi Hp. pose proof (contig_step_inv st count i p Hc ltac:(lia) Hp) as Hst.
    destruct (contig_step count i p); [done|].
    destruct Hst as (s & ? & ? & ? & ? & ->). exists s. repeat split; try done; lia. }
  destruct (for_ _ _ _ _) as [[[run start] st']|r].
  - destruct H as (-> & _ & _ & _ & _ & _ & Hno). right. by split.
  - destruct H as (s & ? & ? & ? & ? & ->). left. exists s. done.
Qed.

(** The contiguous allocator is a first-fit search for a run of free frames. *)
Theorem pmm_alloc_contig_first_fit count st :
  0 < count → pmm_inv st →
  pmm_inv (pmm_alloc_contig count st).2 ∧
  ((∃ s, 0 ≤ s ∧ s + count ≤ PMM_MAX_FRAMES ∧ free_run st s count ∧
         (∀ s', 0 ≤ s' < s → ¬ free_run st s' count) ∧
         (pmm_alloc_contig count st).1 = s * 4096 ∧
         ∀ g, frame_is_free (pmm_alloc_contig count st).2 g =
              negb (in_run s count g) && frame_is_free st g) ∨
   (pmm_alloc_contig count st = (0, st) ∧
    ∀ s, 0 ≤ s → s + count ≤ PMM_MAX_FRAMES → ¬ free_run st s count)).
Proof.
  intros Hc Hinv. destruct (pmm_contig_cases count st Hc) as [(s & ? & Hmx & ? & ? & ->)|[Hno ->]].
  - destruct (claim_run_spec st s count) as (? & ? & ?); try done; try lia.
    split; [done|]. left. exists s. repeat split; try done. simpl.
    rewrite max_frames_val in Hmx. rewrite Z.shiftl_mul_pow2 by lia.
    rewrite u64_small by lia. lia.
  - split; [done|]. right. by split.
Qed.

(** ** Freeing *)

Lemma frame_index_div p : frame_index p = p / 4096.
Proof. unfold frame_index. by rewrite Z.shiftr_div_pow2 by lia. Qed.

Lemma pmm_free_frame_spec p st :
  0 ≤ p → pmm_inv st →
  pmm_inv (pmm_free_frame p st) ∧ hint (pmm_free_frame p st) = hint st ∧
  ∀ g, frame_is_free (pmm_free_frame p st) g =
       ((p / 4096 =? g) && (g <? PMM_MAX_FRAMES)) || frame_is_free st g.
Proof.
  intros Hp Hinv. unfold pmm_free_frame. rewrite frame_index_div.
  assert (0 ≤ p / 4096) by (apply Z.div_pos; lia).
  destruct (Z.ltb_spec (p / 4096) PMM_MAX_FRAMES); simpl.
  - destruct (frame_is_free st (p / 4096)) eqn:E; simpl.
    + repeat split; try apply Hinv. intros g.
      destruct (Z.eqb_spec (p / 4096) g); simpl; [subst; rewrite E; by rewrite orb_true_r|done].
    + split; [split; simpl; [apply release_frame_count; try done; apply Hinv|apply Hinv]|].
      split; [done|]. intros g. autorewrite with pmm.
      destruct (Z.eqb_spec (p / 4096) g); simpl; [|done].
      by replace (g <? PMM_MAX_FRAMES) with true by lia.
  - repeat split; try apply Hinv. intros g. destruct (Z.eqb_spec (p / 4096) g); simpl; [|done].
    by replace (g <? PMM_MAX_FRAMES) with false by lia.
Qed.

(** ** Initialisation *)

(** Frame [g] shares a byte with the half-open range [[s, e)]. *)
Definition touches (s e g : Z) : bool := (s <? (g + 1) * 4096) && (g * 4096 <? e).

Definition frame_ok (g : Z) : bool := (0 <=? g) && (g <? PMM_MAX_FRAMES).

(** A range whose rounding up to a frame boundary does not overflow. *)
Definition range_ok64 (s e : Z) : Prop := 0 ≤ s ∧ 0 ≤ e ∧ e + 4095 < 18446744073709551616.

Definition entry_ok (e : pmm_mmap_entry) : Prop :=
  0 ≤ me_length e ∧ range_ok64 (me_addr e) (me_addr e + me_length e).

Lemma shiftr_12 x : Z.shiftr x 12 = x / 4096.
Proof. by rewrite Z.shiftr_div_pow2 by lia. Qed.

(** Counter exact, hint at its initial value: what holds while booting. *)
Definition booting (st : pmm) : Prop := free_frames st = free_count st ∧ hint st = 0.

Lemma reserve_loop_spec st f0 f1 :
  0 ≤ f0 ≤ f1 → f1 ≤ PMM_MAX_FRAMES → booting st →
  let st' := for_do f0 f1 (λ f st,
      frame_mark_used (if frame_is_free st f then frames_dec st else st) f) st in
  booting st' ∧
  ∀ g, frame_is_free st' g = negb ((f0 <=? g) && (g <? f1)) && frame_is_free st g.
Proof.
  intros Hf Hmx Hb. simpl. apply (for_do_ind (λ i st', booting st' ∧ ∀ g,
    frame_is_free st' g = negb ((f0 <=? g) && (g <? i)) && frame_is_free st g)); [lia| |].
  - split; [done|]. intros g. by replace ((f0 <=? g) && (g <? f0)) with false by lia.
  - intros k st' Hk [[Hc Hh] Hfr]. split.
    + destruct (frame_is_free st' k) eqn:Ek; (split; [|done]).
      * apply (use_frame_count st' k); [lia|done|done].
      * simpl. rewrite Hc. apply count_below_ext. intros g _. rewrite mark_used_at.
        destruct (Z.eqb_spec k g); [by subst|done].
    + intros g. rewrite mark_used_at.
      assert (frame_is_free (if frame_is_free st' k then frames_dec st' else st') g =
              frame_is_free st' g) as -> by (by destruct (frame_is_free st' k)).
      rewrite Hfr. destruct (Z.eqb_spec k g); simpl.
      * subst. by replace ((f0 <=? g) && (g <? g + 1)) with true by lia.
      * f_equal. f_equal. lia.
Qed.

Lemma reserve_range_spec st s e :
  range_ok64 s e → booting st →
  booting (reserve_range st s e) ∧
  ∀ g, frame_ok g = true →
    frame_is_free (reserve_range st s e) g =
    negb ((s <? e) && touches s e g) && frame_is_free st g.
Proof.
  intros (Hs & He & Hov) Hb. unfold reserve_range.
  destruct (Z.leb_spec e s).
  { split; [done|]. intros g _. by replace (s <? e) with false by lia. }
  rewrite u64_small by (unfold PMM_FRAME_SIZE; lia). rewrite !shiftr_12.
  unfold PMM_FRAME_SIZE, touches, frame_ok.
  assert (0 ≤ s / 4096) by (apply Z.div_pos; lia).
  destruct (Z.leb_spec PMM_MAX_FRAMES (s / 4096)).
  { split; [done|]. intros g Hg. rewrite max_frames_val in *.
    replace (s <? (g + 1) * 4096) with false by dlia. by rewrite andb_false_r. }
  set (f1 := if PMM_MAX_FRAMES <? (e + 4096 - 1) / 4096 then PMM_MAX_FRAMES
             else (e + 4096 - 1) / 4096).
  destruct (reserve_loop_spec st (s / 4096) f1) as [Hb' Hfr].
  - unfold f1. rewrite max_frames_val in *. split_if; [lia|dlia].
  - unfold f1. rewrite max_frames_val in *. split_if; [lia|dlia].
  - done.
  - split; [done|]. intros g Hg. rewrite Hfr. f_equal. f_equal. symmetry.
    unfold f1 in *. rewrite max_frames_val in *.
    apply eq_true_iff_eq. split_if; rewrite !andb_true_iff; dlia.
Qed.

(** A frame that a usable entry covers, wholly or in part. *)
Definition usable (e : pmm_mmap_entry) (g : Z) : bool :=
  (me_type e =? 1) && touches (me_addr e) (me_addr e + me_length e) g.

Lemma mark_loop_spec st f0 f1 :
  0 ≤ f0 ≤ f1 → f1 ≤ PMM_MAX_FRAMES → booting st →
  let st' := for_do f0 f1 (λ f st, if (f <? PMM_MAX_FRAMES) && negb (frame_is_free st f)
                   then frames_inc (frame_mark_free st f) else st) st in
  booting st' ∧ ∀ g, frame_is_free st' g = ((f0 <=? g) && (g <? f1)) || frame_is_free st g.
Proof.
  intros Hf Hmx Hb. simpl. apply (for_do_ind (λ i st', booting st' ∧ ∀ g,
    frame_is_free st' g = ((f0 <=? g) && (g <? i)) || frame_is_free st g)); [lia| |].
  - split; [done|]. intros g. by replace ((f0 <=? g) && (g <? f0)) with false by lia.
  - intros k st' Hk [[Hc Hh] Hfr]. replace (k <? PMM_MAX_FRAMES) with true by lia. simpl.
    destruct (frame_is_free st' k) eqn:Ek; simpl.
    + split; [done|]. intros g. rewrite Hfr. destruct (decide (g = k)) as [->|].
      * rewrite Hfr in Ek. rewrite Ek.
        by replace ((f0 <=? k) && (k <? k + 1)) with true by lia.
      * f_equal. lia.
    + split; [split; [apply (release_frame_count st' k); [lia|done|done]|done]|].
      intros g. autorewrite with pmm. rewrite Hfr.
      destruct (Z.eqb_spec k g); simpl.
      * subst. by replace ((f0 <=? g) && (g <? g + 1)) with true by lia.
      * f_equal. lia.
Qed.

Lemma mark_usable_spec st e :
  entry_ok e → booting st →
  booting (mark_usable st e) ∧
  ∀ g, frame_ok g = true →
    frame_is_free (mark_usable st e) g = usable e g || frame_is_free st g.
Proof.
  intros (Hl & Hs & He & Hov) Hb. unfold mark_usable, usable, touches, frame_ok.
  cbv zeta. rewrite (u64_small (me_addr e + me_length e)) by lia.
  destruct (Z.leb_spec PMM_MAX_PHYS (me_addr e)).
  { split; [done|]. intros g Hg. rewrite max_frames_val in *. unfold PMM_MAX_PHYS in *.
    replace (me_addr e <? (g + 1) * 4096) with false by lia. by rewrite andb_false_r. }
  destruct (Z.eqb_spec (me_type e) 1); [|split; [done|by intros]].
  set (en := if PMM_MAX_PHYS <? me_addr e + me_length e then PMM_MAX_PHYS
             else me_addr e + me_length e).
  assert (me_addr e ≤ en ≤ 68719476736) as Hen by (unfold en, PMM_MAX_PHYS in *; split_if; lia).
  unfold PMM_FRAME_SIZE. rewrite (u64_small (en + 4096 - 1)) by lia. rewrite !shiftr_12.
  destruct (mark_loop_spec st (me_addr e / 4096) ((en + 4096 - 1) / 4096)) as [Hb' Hfr].
  - dlia.
  - rewrite max_frames_val. dlia.
  - done.
  - split; [done|]. intros g Hg.
    etransitivity; [apply Hfr|]. f_equal.
    unfold en, PMM_MAX_PHYS in *. rewrite max_frames_val in *.
    apply eq_true_iff_eq. split_if; rewrite !andb_true_iff; dlia.
Qed.

Lemma booting_with_memory st b : booting st → booting (with_memory st b).
Proof. done. Qed.

Lemma fold_mark_spec l st :
  Forall entry_ok l → booting st →
  booting (foldl mark_usable st l) ∧
  ∀ g, frame_ok g = true →
    frame_is_free (foldl mark_usable st l) g =
    existsb (λ e, usable e g) l || frame_is_free st g.
Proof.
  intros Hl. revert st. induction Hl as [|e l He Hl IH]; intros st Hb; simpl; [done|].
  destruct (mark_usable_spec st e He Hb) as [Hb' Hfr].
  destruct (IH _ Hb') as [Hb'' Hfr']. split; [done|]. intros g Hg.
  rewrite Hfr', Hfr by done. rewrite !orb_assoc. f_equal. apply orb_comm.
Qed.

(** A frame that a reserved range covers, wholly or in part. *)
Definition reserves (s e g : Z) : bool := (s <? e) && touches s e g.

Definition unusable (e : pmm_mmap_entry) (g : Z) : bool :=
  negb (me_type e =? 1) && reserves (me_addr e) (me_addr e + me_length e) g.

Lemma fold_reserve_spec l st :
  Forall entry_ok l → booting st →
  booting (foldl reserve_entry st l) ∧
  ∀ g, frame_ok g = true →
    frame_is_free (foldl reserve_entry st l) g =
    negb (existsb (λ e, unusable e g) l) && frame_is_free st g.
Proof.
  intros Hl. revert st. induction Hl as [|e l He Hl IH]; intros st Hb; simpl; [done|].
  assert (booting (reserve_entry st e) ∧ ∀ g, frame_ok g = true →
    frame_is_free (reserve_entry st e) g = negb (unusable e g) && frame_is_free st g)
    as [Hb' Hfr].
  { unfold reserve_entry, unusable. destruct (negb (me_type e =? 1)); [|by split].
    destruct He as [Hlen Hr]. rewrite u64_small by (unfold range_ok64 in Hr; lia).
    by apply reserve_range_spec. }
  destruct (IH _ Hb') as [Hb'' Hfr']. split; [done|]. intros g Hg.
  rewrite Hfr', Hfr by done. rewrite negb_orb, andb_assoc. f_equal. apply andb_comm.
Qed.

Definition boot_ok (b : pmm_boot) : Prop :=
  Forall entry_ok (pb_map b) ∧
  range_ok64 0 (pb_kernel_end b) ∧
  range_ok64 (pb_bitmap b) (pb_bitmap b + PMM_BITMAP_BYTES) ∧
  range_ok64 (pb_framebuffer b) (pb_framebuffer b + pb_fb_pitch b * pb_fb_height b).

(** What the boot information says of a frame. *)
Definition boot_free (b : pmm_boot) (g : Z) : bool :=
  existsb (λ e, usable e g) (pb_map b) &&
  negb (reserves 0 (pb_kernel_end b) g) &&
  negb (reserves (pb_bitmap b) (pb_bitmap b + PMM_BITMAP_BYTES) g) &&
  negb (existsb (λ e, unusable e g) (pb_map b)) &&
  negb (truthy (pb_framebuffer b) &&
        reserves (pb_framebuffer b) (pb_framebuffer b + pb_fb_pitch b * pb_fb_height b) g).

(** C21: initialisation leaves exactly the usable frames free. *)
Theorem pmm_init_exact b :
  boot_ok b →
  pmm_inv (pmm_init b pmm_bss) ∧
  ∀ g, frame_ok g = true → frame_is_free (pmm_init b pmm_bss) g = boot_free b g.
Proof.
  intros (Hmap & Hk & Hbm & Hfb). unfold pmm_init.
  rewrite (u64_small (pb_bitmap b + PMM_BITMAP_BYTES)) by (unfold range_ok64 in Hbm; lia).
  set (st0 := with_memory _ 0).
  assert (∀ g, frame_is_free st0 g = false) as Hst0.
  { intros g. rewrite frame_is_free_bit. apply Z.testbit_0_l. }
  assert (booting st0) as Hb0.
  { split; [|done]. unfold free_count. rewrite (count_below_ext _ (λ _, false)) by auto.
    clear. simpl. induction nframes as [|n IH]; simpl; lia. }
  destruct (fold_mark_spec (pb_map b) st0 Hmap Hb0) as [Hb1 H1].
  destruct (reserve_range_spec _ _ _ Hk Hb1) as [Hb2 H2].
  destruct (reserve_range_spec _ _ _ Hbm Hb2) as [Hb3 H3].
  destruct (fold_reserve_spec _ _ Hmap Hb3) as [Hb4 H4].
  destruct (reserve_range_spec _ _ _ Hfb Hb4) as [Hb5 H5].
  rewrite u64_small by (unfold range_ok64 in Hfb; lia).
  set (s4 := foldl reserve_entry _ _) in *.
  set (s5 := if truthy (pb_framebuffer b) then _ else s4).
  assert (booting s5 ∧ ∀ g, frame_ok g = true → frame_is_free s5 g = boot_free b g)
    as [[Hc Hh] Hfr].
  { split; [unfold s5; by destruct (truthy _)|]. intros g Hg.
    assert (frame_is_free s4 g = existsb (λ e, usable e g) (pb_map b) &&
      negb (reserves 0 (pb_kernel_end b) g) &&
      negb (reserves (pb_bitmap b) (pb_bitmap b + PMM_BITMAP_BYTES) g) &&
      negb (existsb (λ e, unusable e g) (pb_map b))) as E4.
    { unfold s4. rewrite H4, H3, H2, H1, Hst0, orb_false_r by done. unfold reserves. btauto. }
    unfold boot_free, s5. destruct (truthy (pb_framebuffer b)).
    - rewrite H5, E4 by done. unfold reserves. simpl. btauto.
    - rewrite E4. simpl. by rewrite andb_true_r. }
  split; [|intros g Hg; by apply Hfr].
  split; [exact Hc|]. simpl. rewrite Hh. by rewrite max_frames_val.
Qed.

(** ** The bitmap allocator implements the frame-allocator interface *)

#[export] Instance pmm_frame_allocator : FrameAllocator pmm := {
  fa_alloc := pmm_alloc_frame;
  fa_contig := pmm_alloc_contig;
  fa_free := pmm_free_frame
}.

Definition pmm_avail (st : pmm) (f : Z) : Prop := frame_ok f = true ∧ frame_is_free st f = true.

Lemma pmm_avail_free st f : 0 ≤ f < PMM_MAX_FRAMES → frame_is_free st f = true → pmm_avail st f.
Proof. intros Hf H. split; [unfold frame_ok; lia|done]. Qed.

#[export] Instance pmm_frame_allocator_ok : FrameAllocatorOk pmm.
Proof.
  refine {| fa_ok := pmm_inv; fa_avail := pmm_avail |}.
  - intros st f [H _]. unfold frame_ok in H. unfold MAX_FRAMES.
    rewrite max_frames_val in H. lia.
  - intros st Hinv. change (fa_alloc st) with (pmm_alloc_frame st). cbv zeta.
    destruct (pmm_alloc_cases st) as [(f & (Hf & Hfree & _) & E)|[Hno E]]; [apply Hinv| |];
      rewrite E.
    + split; [by apply claim_inv|]. unfold pmm_avail. split.
      { intros g [Hg Hg']. rewrite claim_free in Hg'. bsimp. done. }
      intros _. exists f. split; [by apply claim_addr|]. split; [by apply pmm_avail_free|].
      intros g. rewrite claim_free. destruct (Z.eqb_spec f g); simpl; naive_solver.
    + split; [done|]. split; [done|]. done.
  - intros st Hinv. change (fa_alloc st) with (pmm_alloc_frame st). cbv zeta.
    destruct (pmm_alloc_cases st) as [(f & (Hf & Hfree & _) & E)|[Hno E]]; [apply Hinv| |]; rewrite E.
    + rewrite claim_addr by done. intros Hf0. assert (f = 0) as -> by lia. right.
      split; [by apply pmm_avail_free|]. unfold pmm_avail. intros g. rewrite claim_free.
      destruct (Z.eqb_spec 0 g); simpl; naive_solver.
    + intros _. left. intros g [Hg Hg']. unfold frame_ok in Hg. by rewrite Hno in Hg' by lia.
  - intros n st Hinv Hn. simpl. destruct (decide (n = 0)) as [->|Hn0]; [done|].
    destruct (pmm_contig_cases n st ltac:(lia)) as [(s & ? & Hmx & Hrun & _ & E)|[_ E]];
      rewrite E; simpl; [|done].
    destruct (claim_run_spec st s n) as (Hi & _ & Hfr); [lia|lia|done|done|done|].
    split; [done|]. unfold pmm_avail. split.
    { intros g [Hg Hg']. rewrite Hfr in Hg'. bsimp. done. }
    intros _. exists s. split.
    { rewrite max_frames_val in Hmx. rewrite Z.shiftl_mul_pow2, u64_small by lia. done. }
    split; [intros g Hg; apply pmm_avail_free; [lia|by apply Hrun]|].
    intros g. rewrite Hfr. unfold in_run. rewrite andb_true_iff, negb_true_iff.
    destruct (Z.leb_spec s g), (Z.ltb_spec g (s + n)); simpl; intuition (done || lia).
  - intros p st Hinv Hp. simpl. destruct (pmm_free_frame_spec p st Hp Hinv) as (Hi & _ & Hfr).
    split; [done|]. intros g. unfold pmm_avail, frame_ok, PMM_FRAME_SIZE, MAX_FRAMES.
    rewrite Hfr, max_frames_val. assert (0 ≤ p / 4096) by (apply Z.div_pos; lia).
    destruct (frame_is_free st g); rewrite ?orb_true_r, ?orb_false_r; intuition (try done; lia).
Defined.

(** ** Giving frames back, frame zero, and the properties at concrete states *)

Lemma pmm_inv_bss : pmm_inv pmm_bss.
Proof.
  split; [|by vm_compute]. unfold free_count. rewrite (count_below_ext _ (λ _, false)).
  - clear. simpl. induction nframes as [|n IH]; simpl; lia.
  - intros f _. rewrite frame_is_free_bit. apply Z.testbit_0_l.
Qed.

(** Frames 5 and 6 free, everything else in use. *)
Definition pmm_56 : pmm := pmm_free_frame 24576 (pmm_free_frame 20480 pmm_bss).
(** Only frame 0 free. *)
Definition pmm_only_0 : pmm := pmm_free_frame 0 pmm_bss.

Lemma pmm_inv_56 : pmm_inv pmm_56.
Proof.
  apply pmm_free_frame_spec; [lia|]. apply pmm_free_frame_spec; [lia|]. apply pmm_inv_bss.
Qed.


Lemma pmm_contig_first_fit_witness :
  (pmm_alloc_contig 2 pmm_56).1 = 20480 ∧ pmm_inv (pmm_alloc_contig 2 pmm_56).2.
Proof.
  split; [by vm_compute|]. apply (pmm_alloc_contig_first_fit 2 pmm_56); [lia|apply pmm_inv_56].
Defined.

(** A machine with 64 KiB of memory, a kernel that ends at 20000, the bitmap far
    above, a reserved entry at 40960 and no framebuffer. *)
Definition boot_64k : pmm_boot :=
  {| pb_map := [{| me_addr := 0; me_length := 65536; me_type := 1 |};
                {| me_addr := 40960; me_length := 4096; me_type := 2 |}];
     pb_kernel_end := 20000; pb_bitmap := 1048576; pb_framebuffer := 0;
     pb_fb_pitch := 0; pb_fb_height := 0 |}.

Lemma boot_64k_ok : boot_ok boot_64k.
Proof.
  unfold boot_ok, entry_ok, range_ok64; simpl.
  split; [repeat (apply Forall_cons; split); simpl; try apply Forall_nil; lia|].
  split; [lia|]. split; [|lia]. vm_compute; intuition congruence.
Qed.

Lemma pmm_init_exact_witness :
  frame_is_free (pmm_init boot_64k pmm_bss) 4 = false ∧
  frame_is_free (pmm_init boot_64k pmm_bss) 5 = true ∧
  frame_is_free (pmm_init boot_64k pmm_bss) 10 = false.
Proof.
  destruct (pmm_init_exact boot_64k boot_64k_ok) as [_ H].
  rewrite !H by (by vm_compute). by vm_compute.
Defined.

(** Giving back the frame just allocated restores the free set and the count. *)
Theorem pmm_free_alloc_roundtrip st :
  pmm_inv st → (pmm_alloc_frame st).1 ≠ 0 →
  let st' := pmm_free_frame (pmm_alloc_frame st).1 (pmm_alloc_frame st).2 in
  pmm_inv st' ∧ free_frames st' = free_frames st ∧
  ∀ g, 0 ≤ g → frame_is_free st' g = frame_is_free st g.
Proof.
  intros Hinv. destruct (pmm_alloc_cases st) as [(f & (Hf & Hfree & _) & ->)|[_ ->]];
    [apply Hinv| |done].
  intros _. rewrite claim_addr by done.
  destruct (pmm_free_frame_spec (f * 4096) (claim st f).2) as (Hi & _ & Hfr);
    [lia|by apply claim_inv|].
  assert (∀ g, frame_is_free (pmm_free_frame (f * 4096) (claim st f).2) g = frame_is_free st g) as Hg.
  { intros g. rewrite Hfr, claim_free, Z.div_mul by lia.
    destruct (Z.eqb_spec f g); simpl; [|done]. subst. rewrite Hfree.
    by replace (g <? PMM_MAX_FRAMES) with true by lia. }
  split; [done|]. split; [|auto]. destruct Hi as [-> _], Hinv as [-> _].
  apply count_below_ext. auto.
Qed.

(** Frame 0 is not a frame the allocator can hand out. *)
Theorem pmm_frame_zero_lost st :
  pmm_inv st → next_fit st 0 →
  (pmm_alloc_frame st).1 = 0 ∧ 0 < free_frames st ∧
  frame_is_free (pmm_alloc_frame st).2 0 = false.
Proof.
  intros Hinv Hnf. pose proof Hnf as (H0 & Hfree & _).
  destruct (pmm_alloc_cases st) as [(f & Hf & E)|[Hno _]]; [apply Hinv| |].
  - assert (f = 0) as ->.
    { destruct Hf as (Hf & Hff & [[Hh Hlo]|(Hh & Hhi & Hlo)]).
      - destruct Hnf as (_ & _ & [[? _]|(? & Hn & _)]); [|rewrite Hn in Hff; [done|lia]].
        destruct (decide (f = 0)); [done|]. rewrite Hlo in Hfree by lia. done.
      - destruct (decide (f = 0)); [done|]. rewrite Hlo in Hfree by lia. done. }
    rewrite E, claim_free, claim_addr by done. split; [done|]. split; [|done].
    destruct Hinv as [-> _]. apply (count_below_pos _ _ 0); [|done]. rewrite nframes_val. lia.
  - rewrite Hno in Hfree by done. done.
Qed.

Lemma pmm_roundtrip_witness :
  free_frames (pmm_free_frame (pmm_alloc_frame pmm_56).1 (pmm_alloc_frame pmm_56).2) = 2.
Proof.
  rewrite (proj1 (proj2 (pmm_free_alloc_roundtrip pmm_56 pmm_inv_56 ltac:(by vm_compute)))).
  by vm_compute.
Defined.

Lemma pmm_frame_zero_witness :
  (pmm_alloc_frame pmm_only_0).1 = 0 ∧ 0 < free_frames pmm_only_0.
Proof.
  destruct (pmm_frame_zero_lost pmm_only_0) as (H1 & H2 & _); [| |by split].
  - apply pmm_free_frame_spec; [lia|apply pmm_inv_bss].
  - split; [by vm_compute|]. split; [by vm_compute|]. left.
    split; [by vm_compute|]. intros g Hg. exfalso. change (hint pmm_only_0) with 0 in Hg. lia.
Defined.
