(* ===== verification/Multiboot.v ===== *)
(** The boot information (arch/x86_64/boot/multiboot2.c).

    [kernel_entry] walks the tags the boot loader left in memory and keeps where the
    memory map and the framebuffer are; [boot_map] is the map [pmm_init] then walks.
    Against the layout of the tags in memory ([tags_at]) the walk ends and hands on
    the contents of the last tag of each kind. *)

From stdpp Require Import prelude numbers list.
From Stdlib Require Import ZArith Lia.
From S2P Require Import Prelude Memory Frames Pmm.

Open Scope Z_scope.

Definition MULTIBOOT2_BOOTLOADER_MAGIC : Z := 0x36D76289.
Definition MB2_TAG_END : Z := 0.
Definition MB2_TAG_FRAMEBUFFER : Z := 8.
Definition MB2_TAG_MMAP : Z := 6.

(** The fields of [g_bootinfo] that are set. *)
Record krbootinfo : Type := KrBootInfo {
  memory_map : Z;
  memory_map_entries : Z;
  framebuffer : Z;
  framebuffer_width : Z;
  framebuffer_height : Z;
  framebuffer_bpp : Z;
  framebuffer_pitch : Z
}.

Definition sizeof_mb2_mmap_tag : Z := 16.

(** One tag: [inr None] is a division by zero. *)
Definition tag_fields (m : mem) (tag : Z) (g : krbootinfo) : option krbootinfo :=
  let type := load32 m tag in
  if type =? MB2_TAG_MMAP then
    let entry_size := load32 m (tag + 8) in
    if entry_size =? 0 then None
    else Some (KrBootInfo (u64 (tag + sizeof_mb2_mmap_tag)) (u64 (load32 m (tag + 4) - sizeof_mb2_mmap_tag) / entry_size)
           (framebuffer g) (framebuffer_width g) (framebuffer_height g) (framebuffer_bpp g) (framebuffer_pitch g))
  else if type =? MB2_TAG_FRAMEBUFFER then
    Some (KrBootInfo (memory_map g) (memory_map_entries g) (load64 m (tag + 8)) (load32 m (tag + 20)) (load32 m (tag + 24))
           (load8 m (tag + 28)) (load32 m (tag + 16)))
  else Some g.

Definition next_tag (m : mem) (tag : Z) : Z := u64 (tag + Z.land (u32 (load32 m (tag + 4) + 7)) (u32 (Z.lnot 7))).

Definition tag_step (m : mem) (st : Z * krbootinfo) : Z * krbootinfo + option krbootinfo :=
  let '(tag, g) := st in
  if load32 m tag =? MB2_TAG_END then inr (Some g)
  else match tag_fields m tag g with None => inr None | Some g => inl (next_tag m tag, g) end.

(** How the first function of the kernel ends: halted, in [main], in a fault, or (when
    the bound on the walk is reached) not at all. *)
Inductive entry_result : Type := entry_halt | entry_main (g : krbootinfo) | entry_fault | entry_loops.

Definition tag_fuel : positive := 18446744073709551617.
Definition kernel_entry (magic info_addr : Z) (m : mem) (g : krbootinfo) : entry_result :=
  if negb (magic =? MULTIBOOT2_BOOTLOADER_MAGIC) || (info_addr =? 0) then entry_halt
  else
    match while_ tag_fuel (tag_step m) (u32 (info_addr + 8), g) with
    | None => entry_loops
    | Some None => entry_fault
    | Some (Some g) => entry_main g
    end.

(** The entries [pmm_init] finds: 24 bytes each. *)
Definition sizeof_mmap_entry : Z := 24.
Definition entry_from (m : mem) (a : Z) : pmm_mmap_entry :=
  {| me_addr := load64 m a; me_length := load64 m (a + 8); me_type := load32 m (a + 16) |}.
Definition boot_map (m : mem) (g : krbootinfo) : list pmm_mmap_entry :=
  (λ i, entry_from m (memory_map g + sizeof_mmap_entry * i)) <$> seqZ 0 (memory_map_entries g).
Definition boot_of (kernel_end bitmap : Z) (m : mem) (g : krbootinfo) : pmm_boot :=
  {| pb_map := boot_map m g; pb_kernel_end := kernel_end; pb_bitmap := bitmap; pb_framebuffer := framebuffer g;
     pb_fb_pitch := framebuffer_pitch g; pb_fb_height := framebuffer_height g |}.

(** ** Tags in memory *)

Inductive mb_tag : Type :=
  | mb_mmap (entries : list pmm_mmap_entry)
  | mb_framebuffer (addr pitch width height bpp : Z)
  | mb_other (type size : Z).

Definition tag_type (t : mb_tag) : Z :=
  match t with mb_mmap _ => MB2_TAG_MMAP | mb_framebuffer _ _ _ _ _ => MB2_TAG_FRAMEBUFFER | mb_other ty _ => ty end.
Definition tag_size (t : mb_tag) : Z :=
  match t with mb_mmap es => 16 + 24 * Z.of_nat (length es) | mb_framebuffer _ _ _ _ _ => 31 | mb_other _ n => n end.

(** The tag lies at [a]. *)
Definition tag_at (m : mem) (a : Z) (t : mb_tag) : Prop :=
  load32 m a = tag_type t ∧ load32 m (a + 4) = tag_size t ∧
  match t with
  | mb_mmap es => load32 m (a + 8) = 24 ∧ ∀ i e, es !! i = Some e → entry_from m (a + 16 + 24 * Z.of_nat i) = e
  | mb_framebuffer addr pitch width height bpp =>
      load64 m (a + 8) = addr ∧ load32 m (a + 16) = pitch ∧ load32 m (a + 20) = width ∧ load32 m (a + 24) = height ∧
      load8 m (a + 28) = bpp
  | mb_other ty n => ty ≠ MB2_TAG_END ∧ ty ≠ MB2_TAG_MMAP ∧ ty ≠ MB2_TAG_FRAMEBUFFER ∧ 8 ≤ n
  end.

Definition padded (n : Z) : Z := (n + 7) / 8 * 8.

(** Tags one after the other, each padded to eight bytes, then the end tag. *)
Fixpoint tags_at (m : mem) (a : Z) (l : list mb_tag) : Prop :=
  match l with
  | [] => load32 m a = MB2_TAG_END
  | t :: l => tag_at m a t ∧ tag_size t < 4294967288 ∧ tags_at m (a + padded (tag_size t)) l
  end.

(** What a list of tags tells the kernel: the last map and the last framebuffer. *)
Definition told (l : list mb_tag) : list pmm_mmap_entry * option (Z * Z * Z * Z * Z) :=
  foldl (λ s t, match t with
    | mb_mmap es => (es, s.2)
    | mb_framebuffer addr pitch width height bpp => (s.1, Some (addr, pitch, width, height, bpp))
    | mb_other _ _ => s
    end) ([], None) l.

Definition total_size (l : list mb_tag) : Z := foldr (λ t n, padded (tag_size t) + n) 0 l.

Lemma next_tag_spec m a n :
  load32 m (a + 4) = n → 8 ≤ n < 4294967288 → 0 ≤ a → a + padded n < 18446744073709551616 → next_tag m a = a + padded n.
Proof.
  intros E Hn Ha Hb. unfold next_tag, padded in *. rewrite E, (u32_small (n + 7)) by lia.
  replace (Z.land (n + 7) (u32 (Z.lnot 7))) with ((n + 7) / 8 * 8); [by rewrite u64_small by (Z.to_euclidean_division_equations; lia)|].
  change (u32 (Z.lnot 7)) with (Z.ldiff (Z.ones 32) (Z.ones 3)). apply Z.bits_inj_iff'. intros i Hi.
  rewrite Z.land_spec, Z.ldiff_spec, !Z.testbit_ones_nonneg by lia. change 8 with (2 ^ 3).
  rewrite <- Z.shiftr_div_pow2, <- Z.shiftl_mul_pow2 by lia. destruct (Z.ltb_spec i 3).
  - rewrite Z.shiftl_spec_low by lia. cbn [negb]. by rewrite !andb_false_r.
  - rewrite Z.shiftl_spec, Z.shiftr_spec by lia. replace (i - 3 + 3) with i by lia. cbn [negb]. rewrite andb_true_r.
    destruct (Z.ltb_spec i 32); [by rewrite andb_true_r|]. rewrite andb_false_r. apply Z.bits_above_log2; [lia|].
    apply Z.log2_lt_pow2; [lia|]. apply (Z.lt_le_trans _ (2 ^ 32)); [lia|]. apply Z.pow_le_mono_r; lia.
Qed.

(** [g] holds what [s] tells. *)
Definition knows (m : mem) (g : krbootinfo) (s : list pmm_mmap_entry * option (Z * Z * Z * Z * Z)) : Prop :=
  boot_map m g = s.1 ∧
  match s.2 with
  | None => framebuffer g = 0
  | Some (addr, pitch, width, height, bpp) =>
      framebuffer g = addr ∧ framebuffer_pitch g = pitch ∧ framebuffer_width g = width ∧ framebuffer_height g = height ∧
      framebuffer_bpp g = bpp
  end.

Definition tell (s : list pmm_mmap_entry * option (Z * Z * Z * Z * Z)) (t : mb_tag) :=
  match t with
  | mb_mmap es => (es, s.2)
  | mb_framebuffer addr pitch width height bpp => (s.1, Some (addr, pitch, width, height, bpp))
  | mb_other _ _ => s
  end.

Lemma map_entries m a es :
  (∀ i e, es !! i = Some e → entry_from m (a + 24 * Z.of_nat i) = e) →
  ((λ i, entry_from m (a + sizeof_mmap_entry * i)) <$> seqZ 0 (Z.of_nat (length es))) = es.
Proof.
  intros He. apply list_eq. intros i. rewrite list_lookup_fmap. destruct (es !! i) as [e|] eqn:E.
  - pose proof (lookup_lt_Some _ _ _ E). rewrite lookup_seqZ_lt by lia. cbn. f_equal. by apply He.
  - apply lookup_ge_None in E. by rewrite lookup_seqZ_ge by lia.
Qed.

Lemma tag_fields_spec m a t g s :
  tag_at m a t → knows m g s → 0 ≤ a → a + 16 < 18446744073709551616 → tag_size t < 4294967288 →
  ∃ g', tag_fields m a g = Some g' ∧ knows m g' (tell s t).
Proof.
  intros (Hty & Hsz & Ht) [Hmap Hfb] Ha Hb Hn. unfold tag_fields. rewrite Hty. destruct t as [es|addr pitch width height bpp|ty n]; cbn [tag_type tag_size tell] in *.
  - change (MB2_TAG_MMAP =? MB2_TAG_MMAP) with true. cbv iota. destruct Ht as [-> He]. change (24 =? 0) with false. cbv iota.
    eexists. split; [done|]. split; [|done]. rewrite Hsz. unfold boot_map, sizeof_mb2_mmap_tag. cbn [memory_map memory_map_entries].
    rewrite (u64_small (a + 16)) by lia.
    replace (16 + 24 * Z.of_nat (length es) - 16) with (Z.of_nat (length es) * 24) by lia. rewrite u64_small by lia.
    rewrite Z.div_mul by lia. by apply map_entries.
  - change (MB2_TAG_FRAMEBUFFER =? MB2_TAG_MMAP) with false. change (MB2_TAG_FRAMEBUFFER =? MB2_TAG_FRAMEBUFFER) with true. cbv iota.
    eexists. split; [done|]. split; [exact Hmap|]. cbn. destruct Ht as (-> & -> & -> & -> & ->). done.
  - destruct Ht as (_ & H1 & H2 & _). replace (ty =? MB2_TAG_MMAP) with false by lia. replace (ty =? MB2_TAG_FRAMEBUFFER) with false by lia.
    by exists g.
Qed.

Lemma tag_size_min m a t : tag_at m a t → 8 ≤ tag_size t ∧ 8 ≤ padded (tag_size t) ∧ tag_type t ≠ MB2_TAG_END.
Proof.
  intros (_ & _ & Ht). assert (8 ≤ tag_size t ∧ tag_type t ≠ MB2_TAG_END) as [Hs Hne] by (destruct t; cbn [tag_size tag_type] in *; [split; [lia|done]..|naive_solver]).
  split; [done|]. split; [|done]. unfold padded. Z.to_euclidean_division_equations. lia.
Qed.

Lemma total_size_nonneg m a l : tags_at m a l → 8 * Z.of_nat (length l) ≤ total_size l.
Proof.
  revert a. induction l as [|t l IH]; intros a; cbn [tags_at total_size foldr length]; [lia|]. fold (total_size l).
  intros (Ht & _ & Hl). pose proof (tag_size_min m a t Ht). specialize (IH _ Hl). lia.
Qed.

Lemma tag_walk m a l g s :
  tags_at m a l → knows m g s → 0 ≤ a → a + total_size l + 16 < 18446744073709551616 →
  ∃ g', iter_nat (S (length l)) (tag_step m) (a, g) = inr (Some g') ∧ knows m g' (foldl tell s l).
Proof.
  revert a g s. induction l as [|t l IH]; intros a g s Hl Hg Ha Hb.
  - exists g. cbn [tags_at] in Hl. cbn [length iter_nat]. unfold tag_step. by rewrite Hl.
  - cbn [tags_at] in Hl. destruct Hl as (Ht & Hsz & Hl). cbn [total_size foldr] in Hb. fold (total_size l) in Hb.
    destruct (tag_size_min m a t Ht) as (Hs & Hp & Hne). pose proof (total_size_nonneg _ _ _ Hl) as Hlen.
    destruct (tag_fields_spec m a t g s Ht Hg Ha ltac:(lia) Hsz) as (g1 & E1 & Hg1).
    destruct (IH (a + padded (tag_size t)) g1 (tell s t) Hl Hg1) as (g' & E & Hg'); [lia|lia|].
    exists g'. split; [|exact Hg']. cbn [length]. remember (S (length l)) as n. cbn [iter_nat]. unfold tag_step at 1.
    destruct Ht as (Hty & Hts & _). rewrite Hty. replace (tag_type t =? MB2_TAG_END) with false by lia. rewrite E1.
    rewrite (next_tag_spec m a (tag_size t) Hts) by lia. exact E.
Qed.


(** A tag of size 0 that is not the end tag is never left. *)
Lemma kernel_entry_hangs info m g :
  0 < info < 4294967288 → load32 m (info + 8) = 1 → load32 m (info + 12) = 0 →
  kernel_entry MULTIBOOT2_BOOTLOADER_MAGIC info m g = entry_loops.
Proof.
  intros Hi Hty Hsz. unfold kernel_entry. change (negb (MULTIBOOT2_BOOTLOADER_MAGIC =? MULTIBOOT2_BOOTLOADER_MAGIC)) with false.
  replace (info =? 0) with false by lia. cbn [orb]. rewrite u32_small by lia.
  rewrite (while_diverges (λ st, st.1 = info + 8)); [done|done|]. intros [tag g'] Ht. cbn [fst] in Ht. subst tag.
  unfold tag_step, tag_fields. rewrite Hty. eexists. split; [done|]. cbn [fst]. unfold next_tag.
  replace (info + 8 + 4) with (info + 12) by lia. rewrite Hsz. change (Z.land (u32 (0 + 7)) (u32 (Z.lnot 7))) with 0. rewrite u64_small; lia.
Qed.

(** ** Witness *)

(** Memory with these 32-bit words from 4104 on. *)
Definition word_mem (ws : list Z) : mem := λ a,
  Z.shiftr (default 0 (ws !! Z.to_nat ((a - 4104) / 4))) (8 * ((a - 4104) mod 4)) mod 256.
Definition demo_map : list pmm_mmap_entry :=
  [{| me_addr := 0; me_length := 0x9FC00; me_type := 1 |}; {| me_addr := 0x100000; me_length := 0x7EE0000; me_type := 1 |}].
Definition demo_tags : list mb_tag := [mb_other 1 8; mb_mmap demo_map; mb_framebuffer 0xFD000000 4096 1024 768 32].
Definition demo_info : mem := word_mem
  ([1; 8] ++ [6; 64; 24; 0] ++ [0; 0; 0x9FC00; 0; 1; 0] ++ [0x100000; 0; 0x7EE0000; 0; 1; 0] ++
   [8; 31; 0xFD000000; 0; 4096; 1024; 768; 32] ++ [0; 8]).

Lemma demo_tags_at : tags_at demo_info 4104 demo_tags.
Proof.
  unfold demo_tags. cbn [tags_at]. unfold tag_at. split_and!;
    lazymatch goal with |- ∀ i : nat, _ => idtac | |- _ => vm_compute; (reflexivity || discriminate) end.
  intros i e. destruct i as [|[|i]]; cbn; [intros [= <-]; vm_compute; reflexivity..|done].
Qed.

