(* ===== verification/Kheap.v ===== *)
(** Kernel heap (mem/mm/kheap.c).

    The heap lives in the byte memory itself: a block header is the six words the
    C struct declares, at the block's address, and the list pointers are
    addresses.  The model reads and writes these words with [load64]/[store64].
    Frames come from an abstract [FrameAllocator]; every operation runs under
    [heap_lock], so it is one atomic step of the state.  Loops that follow list
    pointers return [None] when they have not finished within [heap_fuel] rounds;
    the theorems show that on a well-formed heap this never happens.

    [heap_rep] relates the memory to the abstract heap, a list of blocks sorted by
    address whose extents are disjoint and disjoint from every free frame. *)

From stdpp Require Import prelude numbers list sorting.
From Stdlib Require Import ZArith Lia.
From S2P Require Import Prelude Memory Frames Pmm.

Open Scope Z_scope.

Definition HEAP_MAGIC : Z := 0x484541504B44414E.
Definition HEAP_HEADER : Z := 48.
Definition HEAP_MIN_FREE : Z := HEAP_HEADER + 16.
Definition HEAP_GROW_CHUNK : Z := 4 * 1024 * 1024.

(** No list of 48-byte headers in a 64-bit address space is longer. *)
Definition heap_fuel : positive := 18446744073709551616.

(** ** The header words of [heap_block_t] *)

Definition blk_magic (m : mem) (b : Z) : Z := load64 m b.
Definition blk_size (m : mem) (b : Z) : Z := load64 m (b + 8).
Definition blk_pad (m : mem) (b : Z) : Z := load64 m (b + 16).
Definition blk_flags (m : mem) (b : Z) : Z := load64 m (b + 24).
Definition blk_next (m : mem) (b : Z) : Z := load64 m (b + 32).
Definition blk_prev (m : mem) (b : Z) : Z := load64 m (b + 40).

Definition set_magic (m : mem) (b v : Z) : mem := store64 m b v.
Definition set_size (m : mem) (b v : Z) : mem := store64 m (b + 8) v.
Definition set_pad (m : mem) (b v : Z) : mem := store64 m (b + 16) v.
Definition set_flags (m : mem) (b v : Z) : mem := store64 m (b + 24) v.
Definition set_next (m : mem) (b v : Z) : mem := store64 m (b + 32) v.
Definition set_prev (m : mem) (b v : Z) : mem := store64 m (b + 40) v.

Definition block_free (m : mem) (b : Z) : bool := truthy (Z.land (blk_flags m b) 1).

Definition block_set_free (m : mem) (b : Z) (free : bool) : mem :=
  if free then set_flags m b (Z.lor (blk_flags m b) 1)
  else set_flags m b (Z.land (blk_flags m b) (u64 (Z.lnot 1))).

#[global] Arguments block_set_free : simpl never.

Definition align_up (value alignment : Z) : Z :=
  let alignment := if alignment =? 0 then 16 else alignment in
  let mask := u64 (alignment - 1) in
  Z.land (u64 (value + mask)) (u64 (Z.lnot mask)).

Section Heap.
Context {A : Type} `{!FrameAllocator A}.

Record heap : Type := {
  hmem : mem;
  heap_head : Z;
  allocated_bytes : Z;
  hframes : A
}.

Definition with_mem (h : heap) (m : mem) : heap :=
  {| hmem := m; heap_head := heap_head h; allocated_bytes := allocated_bytes h;
     hframes := hframes h |}.
Definition with_head (h : heap) (p : Z) : heap :=
  {| hmem := hmem h; heap_head := p; allocated_bytes := allocated_bytes h;
     hframes := hframes h |}.
Definition with_allocated (h : heap) (n : Z) : heap :=
  {| hmem := hmem h; heap_head := heap_head h; allocated_bytes := n; hframes := hframes h |}.
Definition with_frames (h : heap) (a : A) : heap :=
  {| hmem := hmem h; heap_head := heap_head h; allocated_bytes := allocated_bytes h;
     hframes := a |}.

(** [while (cur->next && cur->next < block) cur = cur->next;] *)
Definition insert_pos (m : mem) (block cur : Z) : option Z :=
  while_ heap_fuel
    (λ cur, if truthy (blk_next m cur) && (blk_next m cur <? block)
            then inl (blk_next m cur) else inr cur) cur.

Definition insert_free_block (block : Z) (h : heap) : option heap :=
  let m := set_magic (block_set_free (hmem h) block true) block HEAP_MAGIC in
  let cur := heap_head h in
  if (cur =? 0) || (block <? cur) then
    let m := set_prev (set_next m block cur) block 0 in
    let m := if truthy cur then set_prev m cur block else m in
    Some (with_head (with_mem h m) block)
  else
    cur ← insert_pos m block cur;
    let m := set_prev (set_next m block (blk_next m cur)) block cur in
    let m := if truthy (blk_next m cur) then set_prev m (blk_next m cur) block else m in
    Some (with_mem h (set_next m cur block)).

Definition add_region (base size : Z) (h : heap) : option heap :=
  if size <? HEAP_MIN_FREE then Some h
  else
    let m := set_pad (set_size (hmem h) base (size - HEAP_HEADER)) base 0 in
    insert_free_block base (with_mem h m).

(** One round of the loop of [grow_heap]: chunk and state. *)
Definition grow_step (s : Z * heap) : Z * heap + option (bool * heap) :=
  let '(chunk, h) := s in
  if chunk <? 64 * 1024 then inr (Some (false, h))
  else
    let '(mem, fr) := fa_contig (chunk / 4096) (hframes h) in
    let h := with_frames h fr in
    if truthy mem then inr (h ← add_region mem chunk h; Some (true, h))
    else inl (chunk / 2, h).

(** Seven rounds take the chunk from 4 MiB below 64 KiB. *)
Definition grow_heap (h : heap) : option (bool * heap) :=
  mjoin (while_ 8 grow_step (HEAP_GROW_CHUNK, h)).

Definition unlink (block : Z) (h : heap) : heap :=
  let h := if truthy (blk_prev (hmem h) block)
           then with_mem h (set_next (hmem h) (blk_prev (hmem h) block)
                              (blk_next (hmem h) block))
           else with_head h (blk_next (hmem h) block) in
  if truthy (blk_next (hmem h) block)
  then with_mem h (set_prev (hmem h) (blk_next (hmem h) block) (blk_prev (hmem h) block))
  else h.

(** One round of the forward loop of [coalesce]. *)
Definition merge_next_step (block : Z) (h : heap) : heap + heap :=
  let m := hmem h in
  let next := blk_next m block in
  if truthy next && block_free m next && (next =? u64 (block + blk_size m block))
  then inl (unlink next
              (with_mem h (set_size m block (u64 (blk_size m block + blk_size m next)))))
  else inr h.

Definition coalesce (block : Z) (h : heap) : option heap :=
  h ← while_ heap_fuel (merge_next_step block) h;
  let m := hmem h in
  let prev := blk_prev m block in
  if truthy prev && block_free m prev && (block =? u64 (prev + blk_size m prev))
  then Some (unlink block
               (with_mem h (set_size m prev (u64 (blk_size m prev + blk_size m block)))))
  else Some h.

Definition kheap_init (h : heap) : option heap :=
  r ← grow_heap (with_allocated (with_head h 0) 0); Some r.2.

(** The body of the search once [block] fits: split, mark, account, clear. *)
Definition split_tail (m : mem) (block used remaining : Z) : mem :=
  let tail := u64 (block + used) in
  let m := set_size m tail (remaining - HEAP_HEADER) in
  let m := set_pad m tail 0 in
  let m := set_magic m tail HEAP_MAGIC in
  let m := block_set_free m tail true in
  let m := set_next m tail (blk_next m block) in
  let m := set_prev m tail block in
  let m := if truthy (blk_next m block) then set_prev m (blk_next m block) tail else m in
  let m := set_next m block tail in
  set_size m block used.

Definition take_block (h : heap) (block size aligned pad : Z) : Z * heap :=
  let m := hmem h in
  let used := u64 (HEAP_HEADER + pad + size) in
  let remaining := u64 (blk_size m block - used) in
  let m := if HEAP_MIN_FREE <=? remaining then split_tail m block used remaining else m in
  let m := set_pad m block pad in
  let m := block_set_free m block false in
  let m := k_memset m aligned 0 size in
  (aligned, with_allocated (with_mem h m) (u64 (allocated_bytes h + used))).

(** The walk over the blocks; [inr None] is the end of the list. *)
Definition scan_step (h : heap) (size alignment block : Z) : Z + option (Z * heap) :=
  let m := hmem h in
  if block =? 0 then inr None
  else if negb (block_free m block) then inl (blk_next m block)
  else
    let payload := u64 (block + HEAP_HEADER) in
    let aligned := align_up payload alignment in
    let pad := u64 (aligned - payload) in
    if blk_size m block <? u64 (HEAP_HEADER + pad + size) then inl (blk_next m block)
    else inr (Some (take_block h block size aligned pad)).

Definition scan_blocks (h : heap) (size alignment : Z) : option (option (Z * heap)) :=
  while_ heap_fuel (scan_step h size alignment) (heap_head h).

Definition alloc_attempt (size alignment : Z) (_ : Z) (h : heap)
  : heap + option (Z * heap) :=
  match scan_blocks h size alignment with
  | None => inr None
  | Some (Some r) => inr (Some r)
  | Some None =>
      match grow_heap h with
      | None => inr None
      | Some (true, h) => inl h
      | Some (false, h) => inr (Some (0, h))
      end
  end.

Definition kheap_alloc (size alignment : Z) (h : heap) : option (Z * heap) :=
  if size =? 0 then Some (0, h)
  else
    let alignment := if alignment =? 0 then 16 else alignment in
    let size := Z.land (u64 (size + 15)) (u64 (Z.lnot 15)) in
    match for_ 0 2 (alloc_attempt size alignment) h with
    | inl h => Some (0, h)
    | inr r => r
    end.

Definition kheap_free (ptr : Z) (h : heap) : option heap :=
  if ptr =? 0 then Some h
  else
    let m := hmem h in
    let block := u64 (ptr - HEAP_HEADER) in
    let block := u64 (block - blk_pad m block) in
    if negb (blk_magic m block =? HEAP_MAGIC) then Some h
    else
      let h := if blk_size m block <=? allocated_bytes h
               then with_allocated h (allocated_bytes h - blk_size m block) else h in
      coalesce block (with_mem h (block_set_free m block true)).

Definition kheap_bytes_used (h : heap) : Z := allocated_bytes h.

End Heap.
Arguments heap : clear implicits.

(** ** The abstract heap *)

Record blk : Type := Blk {
  b_addr : Z;
  b_size : Z;
  b_pad : Z;
  b_free : bool
}.

#[export] Instance blk_eq_dec : EqDecision blk.
Proof. solve_decision. Defined.

(** Bytes that belong to a block: its size, and its header in any case (a block
    split off a small remainder has a size below that of its header). *)
Definition span (b : blk) : Z := Z.max (b_size b) HEAP_HEADER.
Definition b_end (b : blk) : Z := b_addr b + span b.

Definition before (x y : blk) : Prop := b_end x ≤ b_addr y.

Definition blk_ok (b : blk) : Prop :=
  0 < b_addr b ∧ b_addr b mod 16 = 0 ∧ 16 ≤ b_size b ∧ is_u64 (b_pad b) ∧
  b_end b ≤ PMM_MAX_PHYS.

Definition geom (l : list blk) : Prop := Forall blk_ok l ∧ StronglySorted before l.

Definition in_hdr (b : blk) (x : Z) : Prop := b_addr b ≤ x < b_addr b + HEAP_HEADER.

Definition node (m : mem) (b : blk) (prev next : Z) : Prop :=
  blk_magic m (b_addr b) = HEAP_MAGIC ∧ blk_size m (b_addr b) = b_size b ∧
  blk_pad m (b_addr b) = b_pad b ∧ block_free m (b_addr b) = b_free b ∧
  blk_next m (b_addr b) = next ∧ blk_prev m (b_addr b) = prev.

Definition hd_addr (stop : Z) (l : list blk) : Z :=
  match l with [] => stop | b :: _ => b_addr b end.
Fixpoint last_addr (prev : Z) (l : list blk) : Z :=
  match l with [] => prev | b :: l => last_addr (b_addr b) l end.

(** A doubly linked segment: entered with back pointer [prev], left towards [stop]. *)
Fixpoint seg (m : mem) (prev : Z) (l : list blk) (stop : Z) : Prop :=
  match l with
  | [] => True
  | b :: l => node m b prev (hd_addr stop l) ∧ seg m (b_addr b) l stop
  end.

Lemma hd_addr_app stop l1 l2 : hd_addr stop (l1 ++ l2) = hd_addr (hd_addr stop l2) l1.
Proof. by destruct l1. Qed.

Lemma last_addr_app prev l1 l2 : last_addr prev (l1 ++ l2) = last_addr (last_addr prev l1) l2.
Proof. revert prev; induction l1 as [|b l1 IH]; intros prev; simpl; auto. Qed.

Lemma seg_app m prev l1 l2 stop :
  seg m prev (l1 ++ l2) stop ↔ seg m prev l1 (hd_addr stop l2) ∧ seg m (last_addr prev l1) l2 stop.
Proof.
  revert prev; induction l1 as [|b l1 IH]; intros prev; simpl; [tauto|].
  rewrite IH, hd_addr_app. tauto.
Qed.

Lemma node_ext m m' b prev next :
  (∀ x, in_hdr b x → m' x = m x) → node m b prev next → node m' b prev next.
Proof.
  unfold in_hdr, HEAP_HEADER. intros H.
  unfold node, block_free, blk_magic, blk_size, blk_pad, blk_flags, blk_next, blk_prev.
  rewrite !(load64_ext m' m) by (intros; apply H; lia). done.
Qed.

Lemma seg_ext m m' prev l stop :
  (∀ b, b ∈ l → ∀ x, in_hdr b x → m' x = m x) → seg m prev l stop → seg m' prev l stop.
Proof.
  revert prev; induction l as [|b l IH]; intros prev H; simpl; [done|].
  intros [Hn Hs]. split.
  - apply (node_ext m); [|done]. apply H. set_solver.
  - apply IH; [|done]. intros; apply (H b0); set_solver.
Qed.

(** ** Sorted, disjoint extents *)

Lemma geom_nil : geom [].
Proof. split; constructor. Qed.

Lemma geom_app l1 l2 :
  geom (l1 ++ l2) ↔ geom l1 ∧ geom l2 ∧ ∀ x y, x ∈ l1 → y ∈ l2 → before x y.
Proof.
  unfold geom. rewrite Forall_app. split.
  - intros [[H1 H2] Hs]. repeat split; try done.
    + by eapply StronglySorted_app_1_l.
    + by eapply StronglySorted_app_1_r.
    + intros x y Hx Hy. by eapply (StronglySorted_app_1_elem_of before l1 l2).
  - intros ([? ?] & [? ?] & Hb). split; [done|].
    apply StronglySorted_app; done.
Qed.

Lemma geom_cons b l :
  geom (b :: l) ↔ blk_ok b ∧ geom l ∧ ∀ y, y ∈ l → before b y.
Proof.
  change (b :: l) with ([b] ++ l). rewrite geom_app. split.
  - intros ([Hb _] & Hl & H). rewrite Forall_singleton in Hb. repeat split; try done.
    all: try apply Hb; try apply Hl. intros y Hy. apply H; set_solver.
  - intros (Hb & Hl & H). repeat split; try apply Hl.
    + by constructor.
    + repeat constructor.
    + intros x y Hx Hy. apply list_elem_of_singleton in Hx as ->. auto.
Qed.

Lemma geom_elem l b : geom l → b ∈ l → blk_ok b.
Proof. intros [H _] Hb. rewrite Forall_forall in H. auto. Qed.

(** Two different blocks of a heap do not overlap. *)
Lemma geom_disjoint l x y :
  geom l → x ∈ l → y ∈ l → x = y ∨ before x y ∨ before y x.
Proof.
  induction l as [|b l IH]; intros Hg Hx Hy; [set_solver|].
  apply geom_cons in Hg as (Hb & Hl & Hlt).
  apply elem_of_cons in Hx as [->|Hx]; apply elem_of_cons in Hy as [->|Hy]; auto.
Qed.

Lemma last_addr_elem prev l :
  (l = [] ∧ last_addr prev l = prev) ∨
  ∃ l' b, l = l' ++ [b] ∧ last_addr prev l = b_addr b.
Proof.
  destruct l as [|b0 l0] using rev_ind; [by left|]. right.
  exists l0, b0. by rewrite last_addr_app.
Qed.

Lemma geom_length_aux l lo :
  0 ≤ lo ≤ PMM_MAX_PHYS → geom l → (∀ b, b ∈ l → lo ≤ b_addr b) →
  Z.of_nat (length l) + lo ≤ PMM_MAX_PHYS.
Proof.
  revert lo; induction l as [|b l IH]; intros lo Hlo Hg Hb; simpl; [lia|].
  apply geom_cons in Hg as ((Ha & _ & Hs & _ & He) & Hl & Hlt).
  assert (lo ≤ b_addr b) by (apply Hb; set_solver).
  unfold b_end, span, HEAP_HEADER in He.
  specialize (IH (b_addr b + 48) ltac:(lia) Hl). feed IH; [|lia].
  intros y Hy. specialize (Hlt y Hy). unfold before, b_end, span, HEAP_HEADER in Hlt. lia.
Qed.

Lemma geom_length l : geom l → Z.of_nat (length l) ≤ PMM_MAX_PHYS.
Proof.
  intros Hg. pose proof (geom_length_aux l 0) as H. unfold PMM_MAX_PHYS in *.
  feed H; [lia|]. feed H; [done|]. feed H; [|lia].
  intros b Hb. destruct (geom_elem l b Hg Hb). lia.
Qed.

(** ** Updating header words *)

(** Evaluates a header word through a chain of header stores. *)
Ltac hdr_eval :=
  unfold blk_magic, blk_size, blk_pad, blk_flags, blk_next, blk_prev,
         set_magic, set_size, set_pad, set_flags, set_next, set_prev in *;
  repeat first [ rewrite load64_store64_ne by lia
               | rewrite load64_store64_eq by (unfold is_u64 in *; lia) ].

Lemma blk_ok_u64 b : blk_ok b → is_u64 (b_addr b) ∧ is_u64 (b_size b).
Proof.
  unfold blk_ok, is_u64, b_end, span, PMM_MAX_PHYS, HEAP_HEADER. lia.
Qed.

Lemma before_hdr x y a : before x y → in_hdr x a → in_hdr y a → False.
Proof. unfold before, in_hdr, b_end, span, HEAP_HEADER. lia. Qed.

Lemma set_prev_node m b p prev next :
  is_u64 p → node m b prev next → node (set_prev m (b_addr b) p) b p next.
Proof. intros Hp. unfold node, block_free. hdr_eval. tauto. Qed.

Lemma set_next_node m b p prev next :
  is_u64 p → node m b prev next → node (set_next m (b_addr b) p) b prev p.
Proof. intros Hp. unfold node, block_free. hdr_eval. tauto. Qed.

(** Pointing the end of the left part, and the start of the right part, at [p]. *)
Definition relink_left (m : mem) (l : list blk) (p : Z) : mem :=
  match last l with None => m | Some c => set_next m (b_addr c) p end.
Definition relink_right (m : mem) (l : list blk) (p : Z) : mem :=
  match l with [] => m | c :: _ => set_prev m (b_addr c) p end.

Lemma relink_left_out m l p x : (∀ b, b ∈ l → ¬ in_hdr b x) → relink_left m l p x = m x.
Proof.
  unfold relink_left. destruct (last l) as [c|] eqn:E; [|done]. intros H.
  apply last_Some in E as [l' ->]. apply store64_out.
  assert (¬ in_hdr c x) by (apply H; set_solver). unfold in_hdr, HEAP_HEADER in *. lia.
Qed.

Lemma relink_right_out m l p x : (∀ b, b ∈ l → ¬ in_hdr b x) → relink_right m l p x = m x.
Proof.
  unfold relink_right. destruct l as [|c l]; [done|]. intros H. apply store64_out.
  assert (¬ in_hdr c x) by (apply H; set_solver). unfold in_hdr, HEAP_HEADER in *. lia.
Qed.

Lemma relink_left_seg m l p prev stop :
  geom l → is_u64 p → seg m prev l stop → seg (relink_left m l p) prev l p.
Proof.
  intros Hg Hp Hs. unfold relink_left.
  destruct (last l) as [c|] eqn:E; [|by apply last_None in E as ->].
  apply last_Some in E as [l' ->]. apply geom_app in Hg as (_ & _ & Hlt).
  apply seg_app in Hs as [Hs1 [Hs2 _]]. apply seg_app. simpl in *. split.
  - apply (seg_ext m); [|done]. intros b Hb x Hx. apply store64_out.
    specialize (Hlt b c Hb ltac:(set_solver)).
    unfold before, in_hdr, b_end, span, HEAP_HEADER in *. lia.
  - split; [|done]. by eapply set_next_node.
Qed.

Lemma relink_right_seg m l p prev stop :
  geom l → is_u64 p → seg m prev l stop → seg (relink_right m l p) p l stop.
Proof.
  intros Hg Hp Hs. unfold relink_right. destruct l as [|c l]; [done|].
  apply geom_cons in Hg as (_ & _ & Hlt). simpl in *. destruct Hs as [Hn Hs]. split.
  - by eapply set_prev_node.
  - apply (seg_ext m); [|done]. intros b Hb x Hx. apply store64_out.
    specialize (Hlt b Hb).
    unfold before, in_hdr, b_end, span, HEAP_HEADER in *. lia.
Qed.

Lemma relink_left_other m l p prev l' stop :
  (∀ x y, x ∈ l → y ∈ l' → before x y ∨ before y x) →
  seg m prev l' stop → seg (relink_left m l p) prev l' stop.
Proof.
  intros H. apply seg_ext. intros b Hb x Hx. apply relink_left_out.
  intros c Hc Hcx. destruct (H c b Hc Hb); eapply before_hdr; eauto.
Qed.

Lemma relink_right_other m l p prev l' stop :
  (∀ x y, x ∈ l → y ∈ l' → before x y ∨ before y x) →
  seg m prev l' stop → seg (relink_right m l p) prev l' stop.
Proof.
  intros H. apply seg_ext. intros b Hb x Hx. apply relink_right_out.
  intros c Hc Hcx. destruct (H c b Hc Hb); eapply before_hdr; eauto.
Qed.

Lemma last_addr_last prev l :
  last_addr prev l = match last l with None => prev | Some c => b_addr c end.
Proof.
  destruct (last_addr_elem prev l) as [[-> ->]|(l' & b & -> & ->)]; [done|].
  by rewrite last_snoc.
Qed.

Lemma last_addr_truthy l :
  Forall blk_ok l → truthy (last_addr 0 l) = match last l with None => false | Some _ => true end.
Proof.
  intros H. rewrite last_addr_last. destruct (last l) as [c|] eqn:E; [|done].
  apply last_Some in E as [l' ->]. apply Forall_app in H as [_ H].
  apply Forall_singleton in H as [? _]. unfold truthy. lia.
Qed.

Lemma hd_addr_truthy l :
  Forall blk_ok l → truthy (hd_addr 0 l) = match l with [] => false | _ => true end.
Proof.
  destruct l as [|c l]; [done|]. intros H. apply Forall_cons in H as [[? _] _].
  unfold truthy; simpl. lia.
Qed.

(** Unlinking as relinking both sides. *)
Lemma relink_left_if m l p :
  Forall blk_ok l →
  relink_left m l p = if truthy (last_addr 0 l) then set_next m (last_addr 0 l) p else m.
Proof.
  intros H. rewrite last_addr_truthy by done. unfold relink_left. rewrite last_addr_last.
  by destruct (last l).
Qed.

Lemma relink_right_if m l p :
  Forall blk_ok l →
  relink_right m l p = if truthy (hd_addr 0 l) then set_prev m (hd_addr 0 l) p else m.
Proof. intros H. rewrite hd_addr_truthy by done. by destruct l. Qed.

Lemma hd_addr_u64 l : geom l → is_u64 (hd_addr 0 l).
Proof.
  destruct l as [|b l]; [unfold is_u64; simpl; lia|]. intros [H _]. apply Forall_cons in H as [H _].
  exact (proj1 (blk_ok_u64 b H)).
Qed.

Lemma last_addr_u64 l : geom l → is_u64 (last_addr 0 l).
Proof.
  destruct (last_addr_elem 0 l) as [[-> ->]|(l' & b & -> & ->)]; [unfold is_u64; lia|].
  intros [H _]. apply Forall_app in H as [_ H]. rewrite Forall_singleton in H.
  exact (proj1 (blk_ok_u64 b H)).
Qed.

(** A block linked in between two segments. *)
Lemma seg_link m l1 b l2 :
  geom (l1 ++ b :: l2) → seg m 0 l1 (hd_addr 0 l2) → seg m (last_addr 0 l1) l2 0 →
  node m b (last_addr 0 l1) (hd_addr 0 l2) →
  let m' := relink_left (relink_right m l2 (b_addr b)) l1 (b_addr b) in
  seg m' 0 (l1 ++ b :: l2) 0 ∧
  ∀ x, (∀ c, c ∈ l1 ++ b :: l2 → ¬ in_hdr c x) → m' x = m x.
Proof.
  intros Hg H1 H2 Hn m'. pose proof Hg as (Hg1 & Hg2 & Hlt)%geom_app.
  apply geom_cons in Hg2 as (Hb & Hg2 & Hlt2). pose proof (blk_ok_u64 b Hb) as [Hu _].
  split.
  - apply seg_app. unfold m'. split; [|split].
    + eapply relink_left_seg; [done|done|].
      eapply relink_right_other; [|done]. intros x y Hx Hy. right. apply Hlt; set_solver.
    + apply (node_ext m); [|done]. intros x Hx.
      rewrite relink_left_out, relink_right_out; [done| |].
      * intros c Hc Hcx. eapply before_hdr; eauto.
      * intros c Hc Hcx. eapply (before_hdr c b); eauto. apply Hlt; set_solver.
    + eapply relink_left_other; [intros x y Hx Hy; left; apply Hlt; set_solver|].
      by eapply relink_right_seg.
  - intros x Hx. unfold m'. rewrite relink_left_out, relink_right_out; [done| |];
      intros c Hc; apply Hx; set_solver.
Qed.

(** A block taken out from between two segments. *)
Lemma seg_unlink m l1 b l2 :
  geom (l1 ++ b :: l2) → seg m 0 (l1 ++ b :: l2) 0 →
  let m' := relink_right (relink_left m l1 (hd_addr 0 l2)) l2 (last_addr 0 l1) in
  seg m' 0 (l1 ++ l2) 0 ∧
  ∀ x, (∀ c, c ∈ l1 ++ l2 → ¬ in_hdr c x) → m' x = m x.
Proof.
  intros Hg Hs m'. pose proof Hg as (Hg1 & Hg2 & Hlt)%geom_app.
  apply geom_cons in Hg2 as (Hb & Hg2 & Hlt2).
  apply seg_app in Hs as [Hs1 [_ Hs2]]. split.
  - apply seg_app. unfold m'. split.
    + eapply relink_right_other; [intros x y Hx Hy; right; apply Hlt; set_solver|].
      eapply relink_left_seg; [done|by apply hd_addr_u64|done].
    + eapply relink_right_seg; [done|by apply last_addr_u64|].
      eapply relink_left_other; [|done]. intros x y Hx Hy. left. apply Hlt; set_solver.
  - intros x Hx. unfold m'. rewrite relink_right_out, relink_left_out; [done| |];
      intros c Hc; apply Hx; set_solver.
Qed.

Lemma seg_node m la c lb stop :
  seg m 0 (la ++ c :: lb) stop → node m c (last_addr 0 la) (hd_addr stop lb).
Proof. intros [_ [H _]]%seg_app. done. Qed.

Lemma load64_store64 m a v : load64 (store64 m a v) a = u64 v.
Proof.
  rewrite <- (load64_store64_eq m a (u64 v)) by apply u64_range. apply load64_ext.
  intros x Hx. unfold store64. replace ((a <=? x) && (x <? a + 8)) with true by lia.
  unfold u8, u64. rewrite !Z.shiftr_div_pow2 by lia.
  assert (x - a = 0 ∨ x - a = 1 ∨ x - a = 2 ∨ x - a = 3 ∨ x - a = 4 ∨ x - a = 5 ∨
          x - a = 6 ∨ x - a = 7) as E by lia.
  destruct E as [->|[->|[->|[->|[->|[->|[->| ->]]]]]]]; simpl (2 ^ _); dlia.
Qed.

Lemma testbit_u64_0 v : Z.testbit (u64 v) 0 = Z.testbit v 0.
Proof.
  unfold u64. change 18446744073709551616 with (2 ^ 64). by rewrite Z.mod_pow2_bits_low by lia.
Qed.

Lemma block_set_free_eq m a f : block_free (block_set_free m a f) a = f.
Proof.
  unfold block_free, block_set_free, blk_flags, set_flags. destruct f;
    rewrite load64_store64, truthy_land_1, testbit_u64_0.
  - rewrite Z.lor_spec. apply orb_true_r.
  - rewrite Z.land_spec, testbit_u64_0. apply andb_false_r.
Qed.

Lemma block_set_free_out m a f x : x < a + 24 ∨ a + 32 ≤ x → block_set_free m a f x = m x.
Proof. intros H. unfold block_set_free, set_flags. destruct f; apply store64_out; lia. Qed.

Lemma block_set_free_load m a f b :
  b + 8 ≤ a + 24 ∨ a + 32 ≤ b → load64 (block_set_free m a f) b = load64 m b.
Proof. intros H. apply load64_ext. intros x Hx. apply block_set_free_out. lia. Qed.

Section Refinement.
Context {A : Type} `{!FrameAllocator A, !FrameAllocatorOk A}.
Implicit Types (h : heap A) (l : list blk).

(** The list structure in memory. *)
Definition heap_rep h (l : list blk) : Prop :=
  seg (hmem h) 0 l 0 ∧ heap_head h = hd_addr 0 l ∧ geom l.

(** No block overlaps a frame the allocator may hand out. *)
Definition frames_apart (a : A) (l : list blk) : Prop :=
  ∀ b f, b ∈ l → fa_avail a f → b_end b ≤ f * 4096 ∨ (f + 1) * 4096 ≤ b_addr b.

Definition heap_inv h (l : list blk) : Prop :=
  heap_rep h l ∧ frames_apart (hframes h) l ∧ fa_ok (hframes h).

(** The memory outside the headers of [l] is the same. *)
Definition same_outside (l : list blk) (m m' : mem) : Prop :=
  ∀ x, (∀ c, c ∈ l → ¬ in_hdr c x) → m' x = m x.

(** The bytes the heap may write: its blocks, and frames it could take. *)
Definition in_blks (l : list blk) (x : Z) : Prop := ∃ c, c ∈ l ∧ b_addr c ≤ x < b_end c.
Definition zone h (l : list blk) (x : Z) : Prop := in_blks l x ∨ fa_avail (hframes h) (x / 4096).
Definition zone_kept h (l : list blk) h' (l' : list blk) : Prop :=
  ∀ x, ¬ zone h l x → hmem h' x = hmem h x ∧ ¬ zone h' l' x.

Lemma zone_kept_refl h l : zone_kept h l h l.
Proof. by intros x Hx. Qed.
Lemma zone_kept_trans h1 l1 h2 l2 h3 l3 : zone_kept h1 l1 h2 l2 → zone_kept h2 l2 h3 l3 → zone_kept h1 l1 h3 l3.
Proof. intros H1 H2 x Hx. destruct (H1 x Hx) as [E1 Hx2]. destruct (H2 x Hx2) as [E2 Hx3]. by rewrite E2. Qed.

(** Blocks inside those there were, and no frames but those that could be taken. *)
Lemma zone_kept_sub h l h' l' :
  (∀ x, in_blks l' x → zone h l x) → (∀ g, fa_avail (hframes h') g → fa_avail (hframes h) g) →
  (∀ x, ¬ zone h l x → hmem h' x = hmem h x) → zone_kept h l h' l'.
Proof. intros Hb Hf Hm x Hx. split; [by apply Hm|]. intros [Hi|Ha]; apply Hx; [by apply Hb|right; by apply Hf]. Qed.

Lemma hdr_in_blks l c x : c ∈ l → in_hdr c x → in_blks l x.
Proof. intros Hc Hx. exists c. split; [done|]. unfold in_hdr, b_end, span in *. lia. Qed.

Lemma insert_pos_spec m a l1 l2 :
  geom (l1 ++ l2) → l1 ≠ [] → seg m 0 (l1 ++ l2) 0 →
  (∀ x, x ∈ l1 → b_addr x < a) → (∀ y, y ∈ l2 → a < b_addr y) →
  insert_pos m a (hd_addr 0 l1) = Some (last_addr 0 l1).
Proof.
  intros Hg Hne Hs Hlo Hhi. unfold insert_pos.
  edestruct (while_total (λ cur, ∃ la c lb, l1 = la ++ c :: lb ∧ cur = b_addr c)
     (λ cur, PMM_MAX_PHYS - cur) (λ r, r = last_addr 0 l1)) as (r & -> & ->); [| | |done].
  - destruct l1 as [|c l1]; [done|]. by exists [], c, l1.
  - destruct l1 as [|c l1]; [done|]. simpl in Hg. apply geom_cons in Hg as ((? & _) & _).
    simpl. unfold PMM_MAX_PHYS, heap_fuel. lia.
  - intros cur (la & c & lb & E & ->). cbv beta. rewrite E, <- app_assoc in Hs, Hg. simpl in Hs, Hg.
    pose proof (seg_node _ _ _ _ _ Hs) as (_ & _ & _ & _ & Hnx & _). rewrite Hnx.
    apply geom_app in Hg as (_ & Hg & _). apply geom_cons in Hg as (Hok & Hg & Hlt).
    split; [destruct Hok as (? & _ & ? & _ & ?); unfold b_end, span in *; lia|]. cbv beta.
    destruct lb as [|d lb]; simpl.
    + destruct l2 as [|y l2]; simpl.
      * simpl. by rewrite E, last_addr_app.
      * assert (a < b_addr y) by (apply Hhi; set_solver).
        replace (b_addr y <? a) with false by lia. rewrite andb_false_r.
        by rewrite E, last_addr_app.
    + assert (b_addr d < a) by (apply Hlo; set_solver).
      assert (before c d) as Hcd by (apply Hlt; set_solver).
      assert (blk_ok d) as (? & _) by (apply (geom_elem _ _ Hg); set_solver).
      unfold truthy. replace (b_addr d =? 0) with false by lia.
      replace (b_addr d <? a) with true by lia. simpl. split.
      * exists (la ++ [c]), d, lb. by rewrite <- app_assoc.
      * unfold before, b_end, span, HEAP_HEADER in Hcd. lia.
Qed.

(** The memory after [insert_free_block] has written the header of the new block. *)
Definition insert_header (m : mem) (a prev next : Z) : mem :=
  set_prev (set_next (set_magic (block_set_free m a true) a HEAP_MAGIC) a next) a prev.

Lemma insert_header_out m b prev next x :
  ¬ in_hdr b x → insert_header m (b_addr b) prev next x = m x.
Proof.
  intros Hx. unfold in_hdr, HEAP_HEADER in Hx.
  unfold insert_header, set_prev, set_next, set_magic.
  by rewrite !store64_out, block_set_free_out by lia.
Qed.

Lemma insert_header_node m b prev next :
  is_u64 prev → is_u64 next → b_free b = true →
  blk_size m (b_addr b) = b_size b → blk_pad m (b_addr b) = b_pad b →
  node (insert_header m (b_addr b) prev next) b prev next.
Proof.
  intros Hp Hn Hfree Hsz Hpad. assert (is_u64 HEAP_MAGIC) by (unfold is_u64, HEAP_MAGIC; lia).
  pose proof (block_set_free_eq m (b_addr b) true) as Hf.
  unfold node, insert_header, block_free in *. hdr_eval. rewrite !block_set_free_load by lia.
  by rewrite Hfree.
Qed.

Lemma seg_ext_but m m' l1 b l2 :
  geom (l1 ++ b :: l2) → (∀ x, ¬ in_hdr b x → m' x = m x) →
  seg m 0 (l1 ++ l2) 0 → seg m' 0 (l1 ++ l2) 0.
Proof.
  intros (_ & Hg2 & Hlt)%geom_app Hm. apply geom_cons in Hg2 as (_ & _ & Hlt2).
  apply seg_ext. intros c Hc x Hx. apply Hm. intros Hbx. apply elem_of_app in Hc as [Hc|Hc].
  - eapply (before_hdr c b); eauto. apply Hlt; set_solver.
  - eapply (before_hdr b c); eauto.
Qed.

(** Linking the prepared block in, as the abstract heap sees it. *)
Lemma insert_linked h l1 l2 b :
  geom (l1 ++ b :: l2) → b_free b = true → heap_rep h (l1 ++ l2) →
  blk_size (hmem h) (b_addr b) = b_size b → blk_pad (hmem h) (b_addr b) = b_pad b →
  let m1 := insert_header (hmem h) (b_addr b) (last_addr 0 l1) (hd_addr 0 l2) in
  let m2 := relink_left (relink_right m1 l2 (b_addr b)) l1 (b_addr b) in
  seg m2 0 (l1 ++ b :: l2) 0 ∧ same_outside (l1 ++ b :: l2) (hmem h) m2.
Proof.
  intros Hg Hfree (Hs & _ & _) Hsz Hpad m1 m2. pose proof Hg as (Hg1 & Hg2 & _)%geom_app.
  apply geom_cons in Hg2 as (Hb & Hg2 & _).
  assert (seg m1 0 (l1 ++ l2) 0) as [H1 H2]%seg_app.
  { apply (seg_ext_but (hmem h) _ l1 b l2); [done| |done]. intros; by apply insert_header_out. }
  destruct (seg_link m1 l1 b l2 Hg) as [Hs' Hout]; [done|done| |].
  { apply insert_header_node; auto using hd_addr_u64, last_addr_u64. }
  split; [done|]. intros x Hx. rewrite Hout by done. apply insert_header_out, Hx. set_solver.
Qed.

Lemma insert_front h l b :
  geom (b :: l) → heap_head h = hd_addr 0 l →
  insert_free_block (b_addr b) h =
  Some (with_head (with_mem h (relink_right (insert_header (hmem h) (b_addr b) 0 (hd_addr 0 l))
                                 l (b_addr b))) (b_addr b)).
Proof.
  intros (Hb & Hg & Hlt)%geom_cons Hhd. unfold insert_free_block. rewrite Hhd.
  assert ((hd_addr 0 l =? 0) || (b_addr b <? hd_addr 0 l) = true) as ->.
  { destruct l as [|y l]; [done|]. simpl. specialize (Hlt y ltac:(set_solver)).
    unfold before, b_end, span, HEAP_HEADER in Hlt. lia. }
  rewrite relink_right_if by apply Hg. done.
Qed.

Lemma insert_middle h c l1 l2 b :
  geom ((c :: l1) ++ b :: l2) → heap_rep h ((c :: l1) ++ l2) →
  insert_free_block (b_addr b) h =
  Some (with_mem h (relink_left (relink_right
          (insert_header (hmem h) (b_addr b) (last_addr 0 (c :: l1)) (hd_addr 0 l2))
          l2 (b_addr b)) (c :: l1) (b_addr b))).
Proof.
  set (k := c :: l1). intros Hg (Hs & Hhd & Hg0). pose proof Hg as (Hg1 & Hg2 & Hlt)%geom_app.
  apply geom_cons in Hg2 as (Hb & Hg2 & Hlt2).
  assert (∀ x, x ∈ k → b_addr x < b_addr b) as Hlo.
  { intros x Hx. specialize (Hlt x b Hx ltac:(set_solver)).
    unfold before, b_end, span, HEAP_HEADER in Hlt. lia. }
  assert (∀ y, y ∈ l2 → b_addr b < b_addr y) as Hhi.
  { intros y Hy. specialize (Hlt2 y Hy). unfold before, b_end, span, HEAP_HEADER in Hlt2. lia. }
  assert (∀ m, (∀ x, ¬ in_hdr b x → m x = hmem h x) →
               blk_next m (last_addr 0 k) = hd_addr 0 l2) as Hlast.
  { intros m Hm. pose proof (seg_ext_but _ m _ _ _ Hg Hm Hs) as Hseg.
    destruct (last_addr_elem 0 k) as [[? _]|(l' & d & E & ->)]; [done|].
    rewrite E, <- app_assoc in Hseg. simpl in Hseg. apply seg_node in Hseg. apply Hseg. }
  assert (0 < b_addr c < b_addr b) as Hc.
  { split; [|apply Hlo; set_solver]. apply (geom_elem k); [done|set_solver]. }
  assert (∀ x, ¬ in_hdr b x → set_magic (block_set_free (hmem h) (b_addr b) true)
                                (b_addr b) HEAP_MAGIC x = hmem h x) as Hm0.
  { intros x Hx. unfold in_hdr, HEAP_HEADER in Hx. unfold set_magic.
    by rewrite store64_out, block_set_free_out by lia. }
  unfold insert_free_block. rewrite Hhd. simpl hd_addr.
  replace ((b_addr c =? 0) || (b_addr b <? b_addr c)) with false by lia.
  change (b_addr c) with (hd_addr 0 k).
  rewrite (insert_pos_spec _ (b_addr b) k l2);
    [|done|done|by eapply seg_ext_but|done|done].
  obind. rewrite (Hlast _ Hm0).
  fold (insert_header (hmem h) (b_addr b) (last_addr 0 k) (hd_addr 0 l2)).
  rewrite Hlast by (intros; by apply insert_header_out).
  rewrite relink_right_if, relink_left_if by (apply Hg1 || apply Hg2).
  rewrite (last_addr_truthy k) by apply Hg1. destruct (last k) eqn:El; [done|].
  by apply last_None in El.
Qed.

Lemma insert_free_block_spec h l1 l2 b :
  geom (l1 ++ b :: l2) → b_free b = true → heap_rep h (l1 ++ l2) →
  blk_size (hmem h) (b_addr b) = b_size b → blk_pad (hmem h) (b_addr b) = b_pad b →
  ∃ h', insert_free_block (b_addr b) h = Some h' ∧ heap_rep h' (l1 ++ b :: l2) ∧
        hframes h' = hframes h ∧ same_outside (l1 ++ b :: l2) (hmem h) (hmem h').
Proof.
  intros Hg Hfree Hrep Hsz Hpad.
  destruct (insert_linked h l1 l2 b Hg Hfree Hrep Hsz Hpad) as [Hseg Hout].
  destruct l1 as [|c l1].
  - rewrite insert_front with (l := l2); [|done|by apply Hrep].
    eexists. split; [done|]. by split.
  - rewrite (insert_middle h c l1 l2 b) by done. eexists. split; [done|].
    destruct Hrep as (_ & Hhd & _). by split.
Qed.

(** ** Unlinking and merging *)

Lemma unlink_eq h l1 b l2 :
  geom (l1 ++ b :: l2) →
  blk_prev (hmem h) (b_addr b) = last_addr 0 l1 → blk_next (hmem h) (b_addr b) = hd_addr 0 l2 →
  heap_head h = hd_addr (b_addr b) l1 →
  unlink (b_addr b) h =
  with_head (with_mem h (relink_right (relink_left (hmem h) l1 (hd_addr 0 l2)) l2
                           (last_addr 0 l1))) (hd_addr 0 (l1 ++ l2)).
Proof.
  intros (Hg1 & Hg2 & Hlt)%geom_app Hp Hn Hhd. apply geom_cons in Hg2 as (Hb & Hg2 & Hlt2).
  assert (∀ w, 0 ≤ w ≤ 40 → load64 (relink_left (hmem h) l1 (hd_addr 0 l2)) (b_addr b + w) =
                            load64 (hmem h) (b_addr b + w)) as Hkeep.
  { intros w Hw. apply load64_ext. intros x Hx. apply relink_left_out. intros c Hc Hcx.
    eapply (before_hdr c b); eauto; [apply Hlt; set_solver|].
    unfold in_hdr, HEAP_HEADER. lia. }
  unfold unlink. rewrite Hp, Hn.
  assert ((if truthy (last_addr 0 l1)
           then with_mem h (set_next (hmem h) (last_addr 0 l1) (hd_addr 0 l2))
           else with_head h (hd_addr 0 l2)) =
          with_head (with_mem h (relink_left (hmem h) l1 (hd_addr 0 l2)))
                    (hd_addr 0 (l1 ++ l2))) as ->.
  { rewrite relink_left_if by apply Hg1. destruct l1 as [|c l1].
    - by destruct h.
    - rewrite last_addr_truthy by apply Hg1. destruct (last (c :: l1)) eqn:El.
      + destruct h; simpl in *. by rewrite Hhd.
      + by apply last_None in El. }
  simpl. unfold blk_next, blk_prev in *. rewrite !Hkeep, Hp, Hn by lia.
  rewrite relink_right_if by apply Hg2. by destruct (truthy (hd_addr 0 l2)).
Qed.

Definition resize (b : blk) (s : Z) : blk := Blk (b_addr b) s (b_pad b) (b_free b).

Lemma set_size_node m b s prev next :
  is_u64 s → node m b prev next → node (set_size m (b_addr b) s) (resize b s) prev next.
Proof. intros Hs. unfold node, block_free, resize. simpl. hdr_eval. tauto. Qed.

Lemma set_size_out m b s x : ¬ in_hdr b x → set_size m (b_addr b) s x = m x.
Proof. unfold in_hdr, HEAP_HEADER. intros. apply store64_out. lia. Qed.

Lemma seg_resize m l1 b l2 s :
  geom (l1 ++ b :: l2) → is_u64 s → seg m 0 (l1 ++ b :: l2) 0 →
  seg (set_size m (b_addr b) s) 0 (l1 ++ resize b s :: l2) 0.
Proof.
  intros (Hg1 & Hg2 & Hlt)%geom_app Hs (H1 & Hn & H2)%seg_app.
  apply geom_cons in Hg2 as (Hb & Hg2 & Hlt2). apply seg_app. split; [|split].
  - apply (seg_ext m); [|done]. intros c Hc x Hx. apply set_size_out. intros Hbx.
    eapply (before_hdr c b); eauto. apply Hlt; set_solver.
  - by apply set_size_node.
  - apply (seg_ext m); [|done]. intros c Hc x Hx. apply set_size_out. intros Hbx.
    eapply (before_hdr b c); eauto.
Qed.

(** Relinking the neighbours commutes with the size word of a block. *)
Lemma set_size_relink m l1 l2 x p q z :
  (∀ c, c ∈ l1 ++ l2 → b_addr c = b_addr x ∨ before c x ∨ before x c) → ∀ s,
  relink_right (relink_left (set_size m (b_addr x) s) l1 p) l2 q z =
  set_size (relink_right (relink_left m l1 p) l2 q) (b_addr x) s z.
Proof.
  intros Hc s. unfold relink_right, relink_left.
  assert (∀ c, c ∈ l1 ++ l2 → b_addr x + 16 ≤ b_addr c + 32 ∨ b_addr c + 48 ≤ b_addr x + 8) as Hd.
  { intros c Hin. destruct (Hc c Hin) as [?|[?|?]]; unfold before, b_end, span, HEAP_HEADER in *; lia. }
  destruct (last l1) as [c1|] eqn:E1; [apply last_Some in E1 as [l' ->];
      pose proof (Hd c1 ltac:(set_solver))|];
    (destruct l2 as [|c2 l2]; [|pose proof (Hd c2 ltac:(set_solver))]);
    unfold set_next, set_prev, set_size, store64; repeat split_if; try done; lia.
Qed.

Definition merged (x y : blk) : blk := resize x (b_size x + b_size y).

Lemma geom_merged l1 x y l2 :
  geom (l1 ++ x :: y :: l2) → b_addr y = b_addr x + b_size x → geom (l1 ++ merged x y :: l2).
Proof.
  intros (Hg1 & Hg2 & Hlt)%geom_app Hadj.
  apply geom_cons in Hg2 as (Hx & Hg2 & Hltx). apply geom_cons in Hg2 as (Hy & Hg2 & Hlty).
  destruct Hx as (? & ? & ? & ? & ?), Hy as (? & ? & ? & ? & ?).
  pose proof (Hltx y ltac:(set_solver)) as Hxy.
  unfold before, b_end, span, HEAP_HEADER in *.
  apply geom_app. split; [done|]. split.
  - apply geom_cons. split; [|split; [done|]].
    + unfold blk_ok, b_end, span, HEAP_HEADER. simpl. unfold is_u64 in *; lia.
    + intros z Hz. specialize (Hlty z Hz). unfold before, b_end, span, HEAP_HEADER. simpl. lia.
  - intros a z Ha [->|Hz]%elem_of_cons.
    + specialize (Hlt a x Ha ltac:(set_solver)). unfold before, b_end, span, HEAP_HEADER. simpl. lia.
    + apply Hlt; set_solver.
Qed.

Lemma merge_spec h l1 x y l2 :
  heap_rep h (l1 ++ x :: y :: l2) → b_addr y = b_addr x + b_size x →
  let h' := unlink (b_addr y)
              (with_mem h (set_size (hmem h) (b_addr x) (u64 (b_size x + b_size y)))) in
  heap_rep h' (l1 ++ merged x y :: l2) ∧ hframes h' = hframes h ∧
  same_outside (l1 ++ merged x y :: l2) (hmem h) (hmem h').
Proof.
  intros (Hs & Hhd & Hg) Hadj h'. pose proof (geom_merged _ _ _ _ Hg Hadj) as Hg'.
  assert (l1 ++ x :: y :: l2 = (l1 ++ [x]) ++ y :: l2) as El by (by rewrite <- app_assoc).
  assert (is_u64 (b_size x + b_size y)) as Hu.
  { apply (blk_ok_u64 (merged x y)). apply (geom_elem _ _ Hg'). set_solver. }
  unfold is_u64 in Hu. unfold h'. rewrite u64_small by lia. rewrite El in *.
  assert (geom (l1 ++ x :: l2)) as Hgx.
  { pose proof Hg as (Ha & Hb & Hc)%geom_app. apply geom_cons in Hb as (_ & Hb & _).
    replace (l1 ++ x :: l2) with ((l1 ++ [x]) ++ l2) by (by rewrite <- app_assoc).
    apply geom_app. split; [done|]. split; [done|]. intros; apply Hc; set_solver. }
  pose proof (seg_node _ _ _ _ _ Hs) as (_ & _ & _ & _ & Hnx & Hpv).
  pose proof (geom_disjoint _ x y Hg) as Hxy. feed Hxy; [set_solver|]. feed Hxy; [set_solver|].
  assert (before x y) as Hbxy.
  { pose proof Hg as (_ & _ & Hc)%geom_app. apply Hc; set_solver. }
  rewrite (unlink_eq _ (l1 ++ [x]) y l2); [|done| | |].
  2:{ simpl. rewrite <- Hpv. unfold before, b_end, span, HEAP_HEADER in Hbxy. by hdr_eval. }
  2:{ simpl. rewrite <- Hnx. unfold before, b_end, span, HEAP_HEADER in Hbxy. by hdr_eval. }
  2:{ simpl. rewrite Hhd, hd_addr_app. done. }
  destruct (seg_unlink (hmem h) (l1 ++ [x]) y l2 Hg Hs) as [Hs' Hout].
  set (mU := relink_right (relink_left (hmem h) (l1 ++ [x]) _) l2 _) in *.
  assert (∀ z, relink_right (relink_left (set_size (hmem h) (b_addr x) (b_size x + b_size y))
                 (l1 ++ [x]) (hd_addr 0 l2)) l2 (last_addr 0 (l1 ++ [x])) z =
               set_size mU (b_addr x) (b_size x + b_size y) z) as Hcm.
  { intros z. apply set_size_relink. intros c Hc.
    destruct (geom_disjoint (l1 ++ x :: l2) c x) as [->|?]; [done|set_solver|set_solver|by left|tauto]. }
  split; [split; [|split; [|done]]|split; [done|]]; simpl.
  - apply (seg_ext (set_size mU (b_addr x) (b_size x + b_size y))); [intros; apply Hcm|].
    apply seg_resize; [done|done|]. by rewrite <- app_assoc in Hs'.
  - rewrite <- app_assoc. by destruct l1.
  - intros z Hz. rewrite Hcm, set_size_out, Hout; [done| |].
    + intros c Hc. destruct (decide (c = x)) as [->|]; [apply (Hz (merged x y)); set_solver|].
      apply Hz. set_solver.
    + apply (Hz (merged x y)). set_solver.
Qed.

(** One merge of two adjacent free blocks, on the abstract heap. *)
Inductive merge_step : list blk → list blk → Prop :=
| merge_step_intro l1 x y l2 :
    b_free x = true → b_free y = true → b_addr y = b_addr x + b_size x →
    merge_step (l1 ++ x :: y :: l2) (l1 ++ merged x y :: l2).

(** The addresses of [l'] are addresses of [l]. *)
Definition addrs_from (l l' : list blk) : Prop :=
  ∀ c, c ∈ l' → ∃ c0, c0 ∈ l ∧ b_addr c0 = b_addr c.

Lemma addrs_from_merge l l1 x y l2 :
  addrs_from l (l1 ++ x :: y :: l2) → addrs_from l (l1 ++ merged x y :: l2).
Proof.
  intros H. intros c [Hc|[->|Hc]%elem_of_cons]%elem_of_app; [apply H; set_solver| |apply H; set_solver].
  destruct (H x) as (c0 & ? & ?); [set_solver|]. by exists c0.
Qed.

Lemma same_outside_from l l' m m' :
  addrs_from l l' → same_outside l' m m' → same_outside l m m'.
Proof.
  intros Hf Hs x Hx. apply Hs. intros c Hc. destruct (Hf c Hc) as (c0 & Hc0 & E).
  specialize (Hx c0 Hc0). unfold in_hdr in *. by rewrite <- E.
Qed.

Lemma same_outside_trans l m1 m2 m3 :
  same_outside l m1 m2 → same_outside l m2 m3 → same_outside l m1 m3.
Proof. intros H1 H2 x Hx. rewrite H2, H1; done. Qed.

(** What the two loops of [coalesce] keep: the abstract heap only merges. *)
Definition coalescing (h0 : heap A) (l0 : list blk) (h : heap A) (l : list blk) : Prop :=
  heap_rep h l ∧ rtc merge_step l0 l ∧ addrs_from l0 l ∧
  same_outside l0 (hmem h0) (hmem h) ∧ hframes h = hframes h0.

Lemma coalescing_merge h0 l0 h l1 x y l2 :
  coalescing h0 l0 h (l1 ++ x :: y :: l2) →
  b_free x = true → b_free y = true → b_addr y = b_addr x + b_size x →
  coalescing h0 l0
    (unlink (b_addr y)
       (with_mem h (set_size (hmem h) (b_addr x) (u64 (b_size x + b_size y)))))
    (l1 ++ merged x y :: l2).
Proof.
  intros (Hrep & Hst & Hfr & Hso & Hf) Hx Hy Hadj.
  destruct (merge_spec h l1 x y l2 Hrep Hadj) as (Hrep' & Hf' & Hso').
  apply addrs_from_merge in Hfr. split; [done|]. split.
  - eapply rtc_r; [done|]. by constructor.
  - split; [done|]. split; [|by rewrite Hf'].
    eapply same_outside_trans; [done|]. by eapply same_outside_from.
Qed.

(** The adjacency test of [coalesce] on two neighbours of the list. *)
Lemma adjacent_test h l1 x y l2 :
  heap_rep h (l1 ++ x :: y :: l2) →
  (b_addr y =? u64 (b_addr x + blk_size (hmem h) (b_addr x))) =
  (b_addr y =? b_addr x + b_size x).
Proof.
  intros (Hs & _ & Hg). pose proof (seg_node _ _ _ _ _ Hs) as (_ & -> & _).
  pose proof (geom_elem _ x Hg ltac:(set_solver)) as (? & _ & ? & _ & ?).
  unfold b_end, span, PMM_MAX_PHYS in *. by rewrite u64_small by lia.
Qed.

Lemma rep_fields h l1 b l2 :
  heap_rep h (l1 ++ b :: l2) →
  node (hmem h) b (last_addr 0 l1) (hd_addr 0 l2) ∧ blk_ok b.
Proof.
  intros (Hs & _ & Hg). split; [by eapply seg_node|]. apply (geom_elem _ _ Hg). set_solver.
Qed.

Lemma coalesce_forward h0 l0 h l1 b l2 :
  coalescing h0 l0 h (l1 ++ b :: l2) → b_free b = true →
  ∃ h' b' l2', while_ heap_fuel (merge_next_step (b_addr b)) h = Some h' ∧
    coalescing h0 l0 h' (l1 ++ b' :: l2') ∧ b_addr b' = b_addr b ∧ b_free b' = true.
Proof.
  intros Hc Hfree.
  edestruct (while_total
    (λ h, ∃ b' l2', coalescing h0 l0 h (l1 ++ b' :: l2') ∧ b_addr b' = b_addr b ∧ b_free b' = true)
    (λ h, PMM_MAX_PHYS - blk_size (hmem h) (b_addr b))
    (λ h, ∃ b' l2', coalescing h0 l0 h (l1 ++ b' :: l2') ∧ b_addr b' = b_addr b ∧ b_free b' = true))
    as (h' & E & b' & l2' & ?); [by exists b, l2| | |exists h', b', l2'; by rewrite E].
  - destruct Hc as (Hrep & _). destruct (rep_fields _ _ _ _ Hrep) as [(_ & -> & _) (? & _ & ? & _)].
    unfold PMM_MAX_PHYS, heap_fuel. lia.
  - clear h Hc. intros h (b' & l2' & Hc & Ha & Hf). rewrite <- Ha. pose proof Hc as (Hrep & _).
    destruct (rep_fields _ _ _ _ Hrep) as [(_ & Hsz & _ & _ & Hnx & _) (? & _ & ? & _ & ?)].
    split; [rewrite Hsz; unfold b_end, span in *; lia|].
    unfold merge_next_step. rewrite Hnx. destruct l2' as [|y l2']; [by exists b', []|].
    simpl hd_addr. rewrite (adjacent_test _ _ _ _ _ Hrep). rewrite (cons_middle b' l1 (y :: l2')), app_assoc in Hrep.
    destruct (rep_fields _ _ _ _ Hrep) as [(_ & Hsy & _ & Hfy & _) (? & _ & ? & _)].
    destruct (truthy (b_addr y) && _ && _) eqn:Et; [|by exists b', (y :: l2')].
    bsimp. rewrite Hfy in *. rewrite Hsz, Hsy.
    assert (b_addr y = b_addr b' + b_size b') as Hadj by lia.
    pose proof (coalescing_merge h0 l0 h l1 b' y l2' Hc Hf ltac:(done) Hadj) as Hc'.
    split; [by exists (merged b' y), l2'|]. destruct Hc' as (Hrep' & _).
    destruct (rep_fields _ _ _ _ Hrep') as [(_ & Hsz' & _) _]. simpl in Hsz'. rewrite Hsz'. lia.
Qed.

Lemma coalesce_spec h l1 b l2 :
  heap_rep h (l1 ++ b :: l2) → b_free b = true →
  ∃ h' l', coalesce (b_addr b) h = Some h' ∧ coalescing h (l1 ++ b :: l2) h' l'.
Proof.
  intros Hrep Hfree.
  destruct (coalesce_forward h (l1 ++ b :: l2) h l1 b l2) as (h1 & b1 & l3 & E & Hc & Ha & Hf1);
    [|done|].
  { split; [done|]. repeat split; try done. intros c Hc. by exists c. }
  unfold coalesce. rewrite E. obind. rewrite <- Ha. pose proof Hc as (Hrep1 & _).
  destruct (rep_fields _ _ _ _ Hrep1) as [(_ & Hsz & _ & _ & _ & Hpv) _]. rewrite Hpv.
  destruct (last_addr_elem 0 l1) as [[-> ->]|(l0 & p & -> & ->)]; [by exists h1, (b1 :: l3)|].
  assert ((l0 ++ [p]) ++ b1 :: l3 = l0 ++ p :: b1 :: l3) as El by (by rewrite <- app_assoc).
  rewrite El in Hrep1, Hc. rewrite (adjacent_test _ _ _ _ _ Hrep1).
  destruct (rep_fields _ _ _ _ Hrep1) as [(_ & Hsp & _ & Hfp & _) _].
  destruct (truthy (b_addr p) && _ && _) eqn:Et; [|by exists h1, (l0 ++ p :: b1 :: l3)].
  bsimp. rewrite Hfp in *. rewrite Hsz, Hsp. eexists _, _. split; [done|].
  apply coalescing_merge; [done|done|done|lia].
Qed.

(** ** What merging keeps *)

Definition sizes (l : list blk) : Z := foldr (λ b n, b_size b + n) 0 l.

Lemma sizes_app l1 l2 : sizes (l1 ++ l2) = sizes l1 + sizes l2.
Proof. induction l1 as [|b l1 IH]; simpl; [done|]. rewrite IH. lia. Qed.

(** The byte [x] lies in the part of a free block that is handed out. *)
Definition free_byte (l : list blk) (x : Z) : Prop :=
  ∃ b, b ∈ l ∧ b_free b = true ∧ b_addr b ≤ x < b_addr b + b_size b.

(** What survives a sequence of merges: the total size, the allocated blocks
    and the bytes of free blocks; and the result is again a well-formed heap. *)
Definition merge_keeps (l l' : list blk) : Prop :=
  geom l' ∧ sizes l' = sizes l ∧ (∀ c, b_free c = false → c ∈ l ↔ c ∈ l') ∧
  (∀ x, free_byte l x → free_byte l' x) ∧ (∀ x, in_blks l' x → in_blks l x) ∧
  ∀ a, frames_apart a l → frames_apart a l'.

Lemma merge_step_keeps l l' : geom l → merge_step l l' → merge_keeps l l'.
Proof.
  intros Hg Hst. revert Hg. destruct Hst as [l1 x y l2 Hx Hy Hadj]. intros Hg.
  pose proof (geom_elem _ x Hg ltac:(set_solver)) as (? & _ & ? & _ & _).
  pose proof (geom_elem _ y Hg ltac:(set_solver)) as (? & _ & ? & _ & _).
  assert (before x y) as Hxy.
  { apply geom_app in Hg as (_ & Hg & _). apply geom_cons in Hg as (_ & _ & Hg). set_solver. }
  split; [by apply geom_merged|]. split; [|split; [|split; [|split]]].
  - rewrite !sizes_app. simpl. lia.
  - intros c Hc. rewrite !elem_of_app, !elem_of_cons. split.
    + intros [?|[->|[->|?]]]; try congruence; auto.
    + intros [?|[->|?]]; auto. simpl in Hc. congruence.
  - intros z (b & Hb & Hf & Hz). rewrite elem_of_app, !elem_of_cons in Hb.
    destruct Hb as [Hb|[->|[->|Hb]]];
      [exists b| exists (merged x y)|exists (merged x y)|exists b];
      (split; [set_solver|]); simpl; split; done || lia.
  - intros z (c & [Hc|[->|Hc]%elem_of_cons]%elem_of_app & Hz); [exists c; split; [set_solver|done]| |exists c; split; [set_solver|done]].
    unfold before, b_end, span, HEAP_HEADER in *. simpl in Hz.
    destruct (Z.lt_ge_cases z (b_addr y)); [exists x|exists y]; (split; [set_solver|]); unfold b_end, span, HEAP_HEADER; lia.
  - intros a Ha b f [Hb|[->|Hb]%elem_of_cons]%elem_of_app Hav; try (apply Ha; set_solver).
    pose proof (Ha x f ltac:(set_solver) Hav). pose proof (Ha y f ltac:(set_solver) Hav).
    unfold before, b_end, span, HEAP_HEADER in *. simpl. lia.
Qed.

Lemma merges_keep l l' : geom l → rtc merge_step l l' → merge_keeps l l'.
Proof.
  intros Hg Hr. revert Hg. induction Hr as [l|l1 l2 l3 Hs Hr IH]; intros Hg.
  { split; [done|]. split; [done|]. split; [done|]. split; [done|]. by split. }
  destruct (merge_step_keeps _ _ Hg Hs) as (Hg' & Hsz & Hal & Hfb & Hin & Hfa).
  destruct (IH Hg') as (Hg'' & Hsz' & Hal' & Hfb' & Hin' & Hfa').
  split; [done|]. split; [lia|]. split; [|auto]. intros c Hc. rewrite Hal, Hal'; done.
Qed.

(** ** Freeing *)

(** Rewriting the header of one block. *)
Lemma seg_replace m m' l1 b b' l2 :
  geom (l1 ++ b :: l2) → b_addr b' = b_addr b → (∀ x, ¬ in_hdr b x → m' x = m x) →
  seg m 0 (l1 ++ b :: l2) 0 → node m' b' (last_addr 0 l1) (hd_addr 0 l2) →
  seg m' 0 (l1 ++ b' :: l2) 0.
Proof.
  intros (Hg1 & Hg2 & Hlt)%geom_app Ha Hm (H1 & _ & H2)%seg_app Hn.
  apply geom_cons in Hg2 as (Hb & Hg2 & Hlt2). apply seg_app. simpl. rewrite Ha.
  split; [|split]; [|done|].
  - apply (seg_ext m); [|done]. intros c Hc x Hx. apply Hm. intros Hbx.
    eapply (before_hdr c b); eauto. apply Hlt; set_solver.
  - apply (seg_ext m); [|done]. intros c Hc x Hx. apply Hm. intros Hbx.
    eapply (before_hdr b c); eauto.
Qed.

Lemma geom_replace l1 b b' l2 :
  geom (l1 ++ b :: l2) → b_addr b' = b_addr b → 16 ≤ b_size b' → span b' ≤ span b →
  is_u64 (b_pad b') → geom (l1 ++ b' :: l2).
Proof.
  intros (Hg1 & Hg2 & Hlt)%geom_app Ha Hsz Hs Hp. apply geom_cons in Hg2 as (Hb & Hg2 & Hlt2).
  apply geom_app. split; [done|]. unfold before, b_end in *. split.
  - apply geom_cons. split; [|split; [done|]].
    + destruct Hb as (? & ? & ? & ? & He). unfold blk_ok, b_end in *. rewrite Ha. auto with lia.
    + intros y Hy. specialize (Hlt2 y Hy). unfold before, b_end in *. lia.
  - intros x y Hx [->|Hy]%elem_of_cons; [rewrite Ha|]; apply Hlt; set_solver.
Qed.

Definition with_free (b : blk) (f : bool) : blk := Blk (b_addr b) (b_size b) (b_pad b) f.

Lemma set_free_rep h l1 b l2 f :
  heap_rep h (l1 ++ b :: l2) →
  heap_rep (with_mem h (block_set_free (hmem h) (b_addr b) f)) (l1 ++ with_free b f :: l2) ∧
  same_outside (l1 ++ b :: l2) (hmem h) (block_set_free (hmem h) (b_addr b) f).
Proof.
  intros Hrep. pose proof Hrep as (Hs & Hhd & Hg).
  destruct (rep_fields _ _ _ _ Hrep) as [(Hm & Hsz & Hp & _ & Hn & Hpv) Hok].
  assert (∀ x, ¬ in_hdr b x → block_set_free (hmem h) (b_addr b) f x = hmem h x) as Hout.
  { intros x Hx. unfold in_hdr, HEAP_HEADER in Hx. apply block_set_free_out. lia. }
  split; [|intros x Hx; apply Hout, Hx; set_solver].
  split; [|split].
  - simpl. eapply (seg_replace (hmem h)); [done|done|done|done|].
    unfold node, blk_magic, blk_size, blk_pad, blk_next, blk_prev in *. simpl.
    rewrite block_set_free_eq, !block_set_free_load by lia. done.
  - simpl. rewrite Hhd, !hd_addr_app. done.
  - eapply geom_replace; [done|done|..]; simpl; [|done|]; apply Hok.
Qed.

Lemma with_free_sizes l1 b l2 f : sizes (l1 ++ with_free b f :: l2) = sizes (l1 ++ b :: l2).
Proof. by rewrite !sizes_app. Qed.

(** The payload bytes of a block are outside every header. *)
Lemma payload_outside l c x :
  geom l → c ∈ l → b_addr c + HEAP_HEADER ≤ x < b_addr c + b_size c →
  ∀ d, d ∈ l → ¬ in_hdr d x.
Proof.
  intros Hg Hc Hx d Hd Hdx. destruct (geom_disjoint l c d Hg Hc Hd) as [<-|[Hb|Hb]];
    unfold before, b_end, span, in_hdr, HEAP_HEADER in *; lia.
Qed.

Lemma frames_apart_replace a l1 b b' l2 :
  b_addr b' = b_addr b → span b' ≤ span b →
  frames_apart a (l1 ++ b :: l2) → frames_apart a (l1 ++ b' :: l2).
Proof.
  intros Ha Hs H c f [Hc|[->|Hc]%elem_of_cons]%elem_of_app Hav; try (apply H; set_solver).
  specialize (H b f ltac:(set_solver) Hav). unfold b_end in *. lia.
Qed.

Lemma kheap_free_spec h l b :
  heap_inv h l → b ∈ l → b_free b = false → b_pad b = 0 →
  ∃ h' l', kheap_free (b_addr b + HEAP_HEADER) h = Some h' ∧ heap_inv h' l' ∧
    hframes h' = hframes h ∧ sizes l' = sizes l ∧
    (∀ x, b_addr b ≤ x < b_addr b + b_size b → free_byte l' x) ∧
    (∀ c, c ∈ l → c ≠ b → b_free c = false → c ∈ l' ∧
      ∀ x, b_addr c + HEAP_HEADER ≤ x < b_addr c + b_size c → hmem h' x = hmem h x) ∧
    zone_kept h l h' l'.
Proof.
  intros (Hrep & Hap & Hfok) (l1 & l2 & ->)%list_elem_of_split Hb Hpad0.
  destruct (rep_fields _ _ _ _ Hrep) as [(Hm & Hsz & Hp & _) Hok].
  pose proof Hok as (Hpos & _ & Hmin & _ & Hend). pose proof Hrep as (_ & _ & Hg).
  unfold b_end, span, PMM_MAX_PHYS in Hend. unfold HEAP_HEADER in Hend.
  unfold kheap_free, HEAP_HEADER. replace (b_addr b + 48 =? 0) with false by lia.
  replace (b_addr b + 48 - 48) with (b_addr b) by lia. rewrite (u64_small (b_addr b)) by lia.
  rewrite Hp, Hpad0, Z.sub_0_r, u64_small, Hm, Z.eqb_refl by lia. simpl negb.
  set (h0 := if blk_size (hmem h) (b_addr b) <=? allocated_bytes h then _ else h).
  assert (heap_rep h0 (l1 ++ b :: l2) ∧ hmem h0 = hmem h ∧ hframes h0 = hframes h) as (Hrep0 & Em & Ef)
    by (unfold h0; by destruct (_ <=? _)).
  rewrite <- Em. destruct (set_free_rep h0 l1 b l2 true Hrep0) as [Hrep1 Hso].
  destruct (coalesce_spec _ l1 (with_free b true) l2 Hrep1 eq_refl) as (h' & l' & E & Hc).
  change (b_addr (with_free b true)) with (b_addr b) in E. cbv iota. rewrite E.
  destruct Hc as (Hrep' & Hst & Hfrom & Hso' & Hf').
  pose proof Hrep1 as (_ & _ & Hg1).
  destruct (merges_keep _ _ Hg1 Hst) as (Hg' & Hsz' & Hal & Hfb & Hin & Hfa).
  cbn [hmem hframes with_mem] in Hf', Hso'.
  exists h', l'. split; [done|]. split; [split; [done|]; rewrite Hf', Ef; split; [|done]|].
  { apply Hfa. by apply (frames_apart_replace _ l1 b). }
  split; [by rewrite Hf'|]. split; [by rewrite Hsz', with_free_sizes|]. split.
  { intros x Hx. apply Hfb. exists (with_free b true). split; [set_solver|done]. }
  assert (∀ x, in_blks (l1 ++ with_free b true :: l2) x → in_blks (l1 ++ b :: l2) x) as Hsame.
  { intros x (c & [Hc|[->|Hc]%elem_of_cons]%elem_of_app & Hx); [exists c|exists b|exists c]; (split; [set_solver|done]). }
  split; cycle 1.
  { apply zone_kept_sub; [intros x Hx; left; by apply Hsame, Hin|by rewrite Hf', Ef|].
    intros x Hx. rewrite Hso', <- Em; [|intros c Hc Hh; apply Hx; left; by apply Hsame, (hdr_in_blks _ c)].
    apply Hso. intros c Hc Hh. apply Hx. left. by apply (hdr_in_blks _ c). }
  intros c Hc Hne Hcf. assert (c ∈ l1 ++ with_free b true :: l2) as Hc1 by set_solver.
  split; [by apply Hal|]. intros x Hx. rewrite Hso'.
  - apply Hso. by apply (payload_outside _ c).
  - by apply (payload_outside _ c).
Qed.

(** C2: Freeing a block that an allocation with no padding returned terminates and
    gives a well-formed heap again: the bytes of the block belong to a free
    block, every other allocated block is still there with its contents, no byte
    of the heap is lost, the frames are not touched and memory outside the heap
    is not written. *)
Theorem kheap_free_correct h l b :
  heap_inv h l → b ∈ l → b_free b = false → b_pad b = 0 →
  ∃ h' l', kheap_free (b_addr b + HEAP_HEADER) h = Some h' ∧ heap_inv h' l' ∧
    hframes h' = hframes h ∧ sizes l' = sizes l ∧
    (∀ x, b_addr b ≤ x < b_addr b + b_size b → free_byte l' x) ∧
    (∀ c, c ∈ l → c ≠ b → b_free c = false → c ∈ l' ∧
      ∀ x, b_addr c + HEAP_HEADER ≤ x < b_addr c + b_size c → hmem h' x = hmem h x) ∧
    zone_kept h l h' l'.
Proof. apply kheap_free_spec. Qed.

(** ** Allocating: the abstract block list *)

Lemma align_up_spec v k :
  0 ≤ k ≤ 32 → 0 ≤ v < 2 ^ 40 →
  v ≤ align_up v (2 ^ k) < v + 2 ^ k ∧ align_up v (2 ^ k) mod 2 ^ k = 0.
Proof.
  intros Hk Hv. assert (0 < 2 ^ k ≤ 2 ^ 32) as Hp.
  { split; [apply Z.pow_pos_nonneg; lia|apply Z.pow_le_mono_r; lia]. }
  unfold align_up. replace (2 ^ k =? 0) with false by lia.
  rewrite (u64_small (2 ^ k - 1)), (u64_small (v + (2 ^ k - 1))) by lia.
  rewrite round_down_mask by (unfold is_u64; lia). split; [|apply Z.mod_mul; lia]. dnia.
Qed.

(** Padding that the alignment needs in front of the payload of [b]. *)
Definition pad_of (b : blk) (k : Z) : Z :=
  align_up (b_addr b + HEAP_HEADER) (2 ^ k) - (b_addr b + HEAP_HEADER).

Definition fits (b : blk) (size k : Z) : Prop :=
  b_free b = true ∧ HEAP_HEADER + pad_of b k + size ≤ b_size b.

(** The block handed out and the blocks that replace it in the list. *)
Definition taken (b : blk) (size k : Z) : blk :=
  let used := HEAP_HEADER + pad_of b k + size in
  Blk (b_addr b) (if HEAP_MIN_FREE <=? b_size b - used then used else b_size b)
      (pad_of b k) false.
Definition tail_of (b : blk) (used : Z) : blk :=
  Blk (b_addr b + used) (b_size b - used - HEAP_HEADER) 0 true.
Definition leftover (b : blk) (size k : Z) : list blk :=
  let used := HEAP_HEADER + pad_of b k + size in
  if HEAP_MIN_FREE <=? b_size b - used then [tail_of b used] else [].

Lemma geom_split l1 b l2 used :
  geom (l1 ++ b :: l2) → HEAP_HEADER ≤ used → used mod 16 = 0 →
  used + HEAP_MIN_FREE ≤ b_size b →
  geom (l1 ++ resize b used :: tail_of b used :: l2).
Proof.
  intros (Hg1 & Hg2 & Hlt)%geom_app Hu Hmod Hfit. apply geom_cons in Hg2 as (Hb & Hg2 & Hlt2).
  destruct Hb as (? & ? & ? & ? & He). unfold HEAP_MIN_FREE, HEAP_HEADER in *.
  unfold b_end, span, HEAP_HEADER in He.
  apply geom_app. split; [done|]. split.
  - apply geom_cons. split; [|split; [apply geom_cons; split; [|split; [done|]]|]].
    + unfold blk_ok, b_end, span, HEAP_HEADER. simpl. split_and!; done || lia.
    + unfold blk_ok, b_end, span, is_u64. simpl. unfold HEAP_HEADER. split_and!; lia || dlia.
    + intros y Hy. specialize (Hlt2 y Hy). unfold before, b_end, span in *. simpl.
      unfold HEAP_HEADER in *. lia.
    + intros y [->|Hy]%elem_of_cons; unfold before, b_end, span, HEAP_HEADER; simpl; [lia|].
      specialize (Hlt2 y Hy). unfold before, b_end, span, HEAP_HEADER in *. lia.
  - intros x y Hx [->|[->|Hy]%elem_of_cons]%elem_of_cons.
    + apply (Hlt x b); set_solver.
    + specialize (Hlt x b Hx ltac:(set_solver)). unfold before in *. simpl. lia.
    + apply Hlt; set_solver.
Qed.

Lemma frames_apart_split a l1 b l2 used :
  geom (l1 ++ b :: l2) → HEAP_HEADER ≤ used → used + HEAP_MIN_FREE ≤ b_size b →
  frames_apart a (l1 ++ b :: l2) →
  frames_apart a (l1 ++ resize b used :: tail_of b used :: l2).
Proof.
  intros Hg Hu Hfit H c f Hc Hav. unfold HEAP_MIN_FREE in *.
  pose proof (H b f ltac:(set_solver) Hav) as Hb.
  rewrite elem_of_app, !elem_of_cons in Hc. unfold b_end, span, HEAP_HEADER in *.
  destruct Hc as [Hc|[->|[->|Hc]]]; [apply H; set_solver|simpl; lia|simpl; unfold HEAP_HEADER; lia|apply H; set_solver].
Qed.

(** ** Allocating: the memory *)

(** The header of the tail that [split_tail] writes first. *)
Definition tail_header (m : mem) (t size prev next : Z) : mem :=
  set_prev (set_next (block_set_free
    (set_magic (set_pad (set_size m t size) t 0) t HEAP_MAGIC) t true) t next) t prev.

Lemma tail_header_node m t prev next :
  is_u64 prev → is_u64 next → is_u64 (b_size t) → b_free t = true → b_pad t = 0 →
  node (tail_header m (b_addr t) (b_size t) prev next) t prev next.
Proof.
  intros Hp Hn Hs Hf Hpad. assert (is_u64 HEAP_MAGIC) by (unfold is_u64, HEAP_MAGIC; lia).
  set (m1 := set_magic (set_pad (set_size m (b_addr t) (b_size t)) (b_addr t) 0) (b_addr t) HEAP_MAGIC).
  pose proof (block_set_free_eq m1 (b_addr t) true) as Hfr.
  unfold node, tail_header. fold m1. unfold block_free in *. hdr_eval.
  rewrite !block_set_free_load by lia. rewrite Hf, Hpad. unfold m1. by hdr_eval.
Qed.

Lemma tail_header_out m t size prev next x :
  ¬ in_hdr t x → tail_header m (b_addr t) size prev next x = m x.
Proof.
  unfold in_hdr, HEAP_HEADER. intros Hx.
  unfold tail_header, set_prev, set_next, set_magic, set_pad, set_size.
  by rewrite !store64_out, block_set_free_out, !store64_out by lia.
Qed.

Lemma split_tail_eq m l1 b l2 used :
  geom (l1 ++ b :: l2) → seg m 0 (l1 ++ b :: l2) 0 →
  HEAP_HEADER ≤ used → used + HEAP_MIN_FREE ≤ b_size b →
  let t := tail_of b used in
  split_tail m (b_addr b) used (b_size b - used) =
  set_size (set_next (relink_right
    (tail_header m (b_addr t) (b_size t) (b_addr b) (hd_addr 0 l2)) l2 (b_addr t))
    (b_addr b) (b_addr t)) (b_addr b) used.
Proof.
  intros Hg Hs Hu Hfit t. pose proof Hg as (_ & Hg2 & _)%geom_app.
  apply geom_cons in Hg2 as (Hb & Hg2 & _). destruct Hb as (? & _ & ? & _ & He).
  pose proof (seg_node _ _ _ _ _ Hs) as (_ & _ & _ & _ & Hnx & _).
  unfold HEAP_MIN_FREE, HEAP_HEADER in *. unfold b_end, span, HEAP_HEADER, PMM_MAX_PHYS in He.
  unfold split_tail. rewrite (u64_small (b_addr b + used)) by lia.
  change (b_addr b + used) with (b_addr t). change (b_size b - used - HEAP_HEADER) with (b_size t).
  assert (b_addr t = b_addr b + used) as Et by done.
  set (m1 := block_set_free _ (b_addr t) true).
  assert (blk_next m1 (b_addr b) = hd_addr 0 l2) as ->.
  { rewrite <- Hnx. unfold m1, blk_next. rewrite block_set_free_load by lia. by hdr_eval. }
  unfold m1. fold (tail_header m (b_addr t) (b_size t) (b_addr b) (hd_addr 0 l2)).
  assert (blk_next (tail_header m (b_addr t) (b_size t) (b_addr b) (hd_addr 0 l2)) (b_addr b) =
          hd_addr 0 l2) as ->.
  { rewrite <- Hnx. apply load64_ext. intros x Hx. apply tail_header_out.
    unfold in_hdr, HEAP_HEADER. lia. }
  by rewrite relink_right_if by apply Hg2.
Qed.

Lemma store64_congr m m' a v x : m x = m' x → store64 m a v x = store64 m' a v x.
Proof. intros E. unfold store64. by rewrite E. Qed.

(** The size word of a block below commutes with writing the header above. *)
Lemma tail_header_set_size m a u t size prev next x :
  a + HEAP_HEADER ≤ t →
  tail_header (set_size m a u) t size prev next x =
  set_size (tail_header m t size prev next) a u x.
Proof.
  unfold HEAP_HEADER. intros Ht. unfold tail_header, block_set_free.
  set (f := blk_flags _ t). set (f' := blk_flags _ t).
  assert (f = f') as -> by (unfold f, f'; by hdr_eval).
  unfold set_prev, set_next, set_flags, set_magic, set_pad, set_size, store64.
  repeat split_if; try done; lia.
Qed.

Lemma relink_right_set_size m m' l a u p x :
  (∀ c, c ∈ l → a + HEAP_HEADER ≤ b_addr c) → m x = set_size m' a u x →
  relink_right m l p x = set_size (relink_right m' l p) a u x.
Proof.
  unfold relink_right, HEAP_HEADER. destruct l as [|c l]; [done|]. intros Hc E.
  specialize (Hc c ltac:(set_solver)). unfold set_prev, set_size, store64 in *.
  rewrite E. repeat split_if; try done; lia.
Qed.

(** Splitting: shrink the block, then link the tail in behind it. *)
Lemma split_tail_spec m l1 b l2 used :
  geom (l1 ++ b :: l2) → seg m 0 (l1 ++ b :: l2) 0 → used mod 16 = 0 →
  HEAP_HEADER ≤ used → used + HEAP_MIN_FREE ≤ b_size b →
  let l' := l1 ++ resize b used :: tail_of b used :: l2 in
  seg (split_tail m (b_addr b) used (b_size b - used)) 0 l' 0 ∧
  same_outside l' m (split_tail m (b_addr b) used (b_size b - used)).
Proof.
  intros Hg Hs Hmod Hu Hfit l'. rewrite (split_tail_eq m l1 b l2) by done.
  set (rb := resize b used). set (t := tail_of b used).
  assert (geom ((l1 ++ [rb]) ++ t :: l2)) as Hg'.
  { rewrite <- app_assoc. by apply geom_split. }
  assert (l' = (l1 ++ [rb]) ++ t :: l2) as El by (unfold l'; by rewrite <- app_assoc).
  rewrite El. clear El l'. pose proof Hg' as (Hga & Hg2 & Hlt)%geom_app.
  apply geom_cons in Hg2 as (Ht & Hg2 & Hlt2). pose proof (blk_ok_u64 t Ht) as [_ Htsu].
  assert (b_addr b + HEAP_HEADER ≤ b_addr t) as Hbt by (unfold t; simpl; lia).
  assert (blk_ok rb) as Hrb by (apply (geom_elem _ _ Hga); set_solver).
  pose proof (blk_ok_u64 rb Hrb) as [Hbu Husz]. simpl in Hbu, Husz.
  set (m0 := set_size m (b_addr b) used).
  set (m1 := tail_header m0 (b_addr t) (b_size t) (b_addr b) (hd_addr 0 l2)).
  assert (seg m1 0 ((l1 ++ [rb]) ++ l2) 0) as [H1 H2]%seg_app.
  { apply (seg_ext_but m0 _ _ t); [done|intros; by apply tail_header_out|].
    rewrite <- app_assoc. by apply seg_resize. }
  rewrite last_addr_app in H2. simpl in H2.
  destruct (seg_link m1 (l1 ++ [rb]) t l2 Hg') as [Hs' Hout]; [done| | |].
  { rewrite last_addr_app. done. }
  { rewrite last_addr_app. simpl. apply tail_header_node; auto using hd_addr_u64. }
  unfold relink_left in Hs', Hout. rewrite last_snoc in Hs', Hout. simpl in Hs', Hout.
  match goal with |- seg ?mm _ _ _ ∧ _ => assert (∀ x, mm x =
    set_next (relink_right m1 l2 (b_addr t)) (b_addr b) (b_addr t) x) as Heq end.
  { intros x. symmetry. etransitivity; [apply store64_congr,
      (relink_right_set_size _ (tail_header m (b_addr t) (b_size t) (b_addr b) (hd_addr 0 l2))
         _ (b_addr b) used)|].
    - intros c Hc. specialize (Hlt2 c Hc). unfold before, b_end, span in Hlt2. unfold HEAP_HEADER in *. lia.
    - by apply tail_header_set_size.
    - unfold set_size, set_next, store64. repeat split_if; try done; lia. }
  split; [eapply seg_ext; [|done]; intros; apply Heq|].
  intros x Hx. rewrite Heq, Hout by done. unfold m1. rewrite tail_header_out by (apply Hx; set_solver).
  apply set_size_out, (Hx rb). set_solver.
Qed.

Lemma pad_of_spec b k :
  blk_ok b → 0 ≤ k ≤ 32 →
  0 ≤ pad_of b k < 2 ^ k ∧ pad_of b k mod 16 = 0 ∧ (k ≤ 4 → pad_of b k = 0) ∧
  (b_addr b + HEAP_HEADER + pad_of b k) mod 2 ^ k = 0.
Proof.
  intros (Ha & Hm & Hs & _ & He) Hk. unfold b_end, span, PMM_MAX_PHYS in He.
  unfold pad_of, HEAP_HEADER in *. set (v := b_addr b + 48).
  destruct (align_up_spec v k Hk) as [Hr Hal]; [unfold v; lia|].
  set (a := align_up v (2 ^ k)) in *.
  assert (0 < 2 ^ k) by (apply Z.pow_pos_nonneg; lia).
  assert (v mod 16 = 0) as Hv by (unfold v; dlia).
  assert (k ≤ 4 → a = v) as Hk4.
  { intros Hle. assert (16 = 2 ^ k * 2 ^ (4 - k)) as E16 by (rewrite <- Z.pow_add_r by lia; by replace (k + (4 - k)) with 4 by lia).
    assert (v mod 2 ^ k = 0) as Hvk.
    { apply Z.mod_divide; [lia|]. apply Z.mod_divide in Hv as [q ->]; [|lia].
      exists (q * 2 ^ (4 - k)). rewrite E16. lia. }
    apply Z.mod_divide in Hvk as [q1 E1]; [|lia]. apply Z.mod_divide in Hal as [q2 E2]; [|lia].
    assert (q1 = q2) by nia. congruence. }
  split; [lia|]. split; [|split].
  - destruct (Z.le_gt_cases k 4); [rewrite Hk4 by done; by rewrite Z.sub_diag|].
    assert (a mod 16 = 0); [|dlia].
    apply Z.mod_divide; [lia|]. apply Z.mod_divide in Hal as [q ->]; [|lia].
    exists (q * 2 ^ (k - 4)). replace k with (k - 4 + 4) at 1 by lia.
    rewrite Z.pow_add_r by lia. lia.
  - intros Hle. rewrite Hk4 by done. lia.
  - by replace (v + (a - v)) with a by lia.
Qed.

(** Setting the padding and clearing the free bit. *)
Lemma mark_used_seg m l1 b l2 pad :
  geom (l1 ++ b :: l2) → is_u64 pad → seg m 0 (l1 ++ b :: l2) 0 →
  let m' := block_set_free (set_pad m (b_addr b) pad) (b_addr b) false in
  seg m' 0 (l1 ++ Blk (b_addr b) (b_size b) pad false :: l2) 0 ∧
  ∀ x, ¬ in_hdr b x → m' x = m x.
Proof.
  intros Hg Hp Hs m'.
  assert (∀ x, ¬ in_hdr b x → m' x = m x) as Hout.
  { intros x Hx. unfold in_hdr, HEAP_HEADER in Hx. unfold m', set_pad.
    by rewrite block_set_free_out, store64_out by lia. }
  split; [|done]. eapply (seg_replace m); [done|done|done|done|].
  pose proof (seg_node _ _ _ _ _ Hs) as (? & ? & ? & _ & ? & ?).
  pose proof (block_set_free_eq (set_pad m (b_addr b) pad) (b_addr b) false) as Hf.
  unfold node, m'. simpl. unfold blk_magic, blk_size, blk_pad, blk_next, blk_prev in *.
  rewrite !block_set_free_load by lia. split_and!; try done; hdr_eval; done.
Qed.

Lemma heap_rep_mem h l m :
  heap_rep h l → (∀ b, b ∈ l → ∀ x, in_hdr b x → m x = hmem h x) → heap_rep (with_mem h m) l.
Proof. intros (Hs & Hh & Hg) Hm. split; [by eapply seg_ext|done]. Qed.

Lemma hd_addr_mid stop l1 b b' l2 l2' :
  b_addr b' = b_addr b → hd_addr stop (l1 ++ b' :: l2') = hd_addr stop (l1 ++ b :: l2).
Proof. intros E. by destruct l1. Qed.

(** The list that replaces [b], with its splitting done. *)
Lemma split_rep h l1 b l2 size k :
  heap_rep h (l1 ++ b :: l2) → fits b size k → 0 ≤ k ≤ 32 → 0 ≤ size → size mod 16 = 0 →
  let used := HEAP_HEADER + pad_of b k + size in
  let rb := resize b (b_size (taken b size k)) in
  let m := if HEAP_MIN_FREE <=? b_size b - used
           then split_tail (hmem h) (b_addr b) used (b_size b - used) else hmem h in
  let l' := l1 ++ rb :: leftover b size k ++ l2 in
  seg m 0 l' 0 ∧ geom l' ∧ same_outside l' (hmem h) m ∧
  ∀ a, frames_apart a (l1 ++ b :: l2) → frames_apart a l'.
Proof.
  intros Hrep [Hf Hfit] Hk Hs0 Hs16 used rb m l'. pose proof Hrep as (Hs & _ & Hg).
  destruct (rep_fields _ _ _ _ Hrep) as [_ Hok].
  destruct (pad_of_spec b k Hok Hk) as ([Hp0 _] & Hp16 & _ & _).
  assert (used mod 16 = 0) as Hu16 by (unfold used, HEAP_HEADER; dlia).
  assert (HEAP_HEADER ≤ used) as Hu by (unfold used; lia).
  unfold l', rb, m, taken, leftover. fold used. simpl.
  destruct (Z.leb_spec HEAP_MIN_FREE (b_size b - used)).
  - destruct (split_tail_spec (hmem h) l1 b l2 used) as [Hs' Hso]; try done; try lia.
    split; [done|]. split; [apply geom_split; try done; lia|]. split; [done|].
    intros a Ha. apply frames_apart_split; try done; lia.
  - assert (resize b (b_size b) = b) as -> by (by destruct b). done.
Qed.

(** What an allocation of [size] bytes at [p] out of block [b] of [l] leaves. *)
Definition allocated h l l1 b l2 size k (r : Z * heap A) : Prop :=
  let l' := l1 ++ taken b size k :: leftover b size k ++ l2 in
  r.1 = b_addr b + HEAP_HEADER + pad_of b k ∧
  heap_rep r.2 l' ∧ hframes r.2 = hframes h ∧
  (∀ x, r.1 ≤ x < r.1 + size → hmem r.2 x = 0) ∧
  (∀ x, (∀ c, c ∈ l' → ¬ in_hdr c x) → ¬ (r.1 ≤ x < r.1 + size) → hmem r.2 x = hmem h x) ∧
  ∀ a, frames_apart a l → frames_apart a l'.

Lemma payload_not_hdr l1 b l2 size k :
  geom (l1 ++ taken b size k :: leftover b size k ++ l2) → fits b size k →
  0 ≤ pad_of b k → 0 ≤ size →
  let p := b_addr b + HEAP_HEADER + pad_of b k in
  ∀ c, c ∈ l1 ++ taken b size k :: leftover b size k ++ l2 →
  ∀ x, p ≤ x < p + size → ¬ in_hdr c x.
Proof.
  intros Hg [_ Hfit] Hp Hs p c Hc x Hx.
  apply (payload_outside _ (taken b size k) x Hg); [set_solver| |done].
  unfold p, taken in *. simpl. split_if; lia.
Qed.

Lemma take_block_spec h l1 b l2 size k :
  heap_rep h (l1 ++ b :: l2) → fits b size k → 0 ≤ k ≤ 32 → 0 ≤ size → size mod 16 = 0 →
  allocated h (l1 ++ b :: l2) l1 b l2 size k
    (take_block h (b_addr b) size (b_addr b + HEAP_HEADER + pad_of b k) (pad_of b k)).
Proof.
  intros Hrep Hfits Hk Hs0 Hs16. destruct (rep_fields _ _ _ _ Hrep) as [(_ & Hsz & _) Hok].
  destruct (pad_of_spec b k Hok Hk) as ([Hp0 _] & _).
  pose proof (split_rep h l1 b l2 size k Hrep Hfits Hk Hs0 Hs16) as (Hseg & Hg' & Hso & Hap).
  pose proof Hfits as [_ Hfit]. pose proof Hok as (_ & _ & _ & _ & Hend).
  pose proof Hok as (Hpos & _). unfold b_end, span, PMM_MAX_PHYS in Hend.
  set (used := HEAP_HEADER + pad_of b k + size) in *.
  assert (used = HEAP_HEADER + pad_of b k + size) as Eu by done.
  assert (0 < HEAP_HEADER) by (unfold HEAP_HEADER; lia).
  unfold take_block. fold used. rewrite (u64_small used), Hsz, (u64_small (b_size b - used)) by lia.
  set (ms := if HEAP_MIN_FREE <=? b_size b - used then _ else hmem h) in *.
  set (rb := resize b (b_size (taken b size k))) in *.
  assert (is_u64 (pad_of b k)) as Hpu by (unfold is_u64; lia).
  destruct (mark_used_seg ms l1 rb (leftover b size k ++ l2) (pad_of b k) Hg' Hpu Hseg) as [Hm Hmo].
  change (b_addr rb) with (b_addr b) in *. change (b_size rb) with (b_size (taken b size k)) in *.
  change (Blk (b_addr b) (b_size (taken b size k)) (pad_of b k) false) with (taken b size k) in Hm.
  set (mm := block_set_free (set_pad ms (b_addr b) (pad_of b k)) (b_addr b) false) in *.
  assert (geom (l1 ++ taken b size k :: leftover b size k ++ l2)) as Hgt.
  { eapply geom_replace; [exact Hg'|done| |done|done].
    apply (geom_elem _ rb Hg'). set_solver. }
  assert (∀ x, in_hdr rb x ↔ in_hdr (taken b size k) x) as Hrt by done.
  unfold allocated. cbn [fst snd hmem heap_head hframes with_allocated with_mem].
  split; [done|]. split; [split; [|split; [|done]]|].
  - apply (seg_ext mm); [|done]. intros c Hc x Hx. cbn [hmem with_allocated with_mem]. rewrite k_memset_at.
    split_if; [|done]. exfalso. bsimp. eapply payload_not_hdr; [done|done|done|done|done| |done]. lia.
  - cbn [heap_head with_allocated with_mem]. destruct Hrep as (_ & -> & _). symmetry. by apply hd_addr_mid.
  - split; [done|]. split; [|split].
    + intros x Hx. rewrite k_memset_at. split_if; [done|lia].
    + intros x Hx Hnp. rewrite k_memset_at. split_if; [lia|].
      rewrite Hmo by (rewrite Hrt; apply Hx; set_solver). apply Hso.
      intros c [Hc|[->|Hc]%elem_of_cons]%elem_of_app; [|rewrite Hrt|]; apply Hx; set_solver.
    + intros a Ha. apply (frames_apart_replace _ l1 rb); [done|done|]. by apply Hap.
Qed.

(** ** The search *)

Lemma scan_step_spec h l la lb size k :
  heap_rep h l → l = la ++ lb → 0 ≤ k ≤ 32 → 0 ≤ size < 2 ^ 62 →
  scan_step h size (2 ^ k) (hd_addr 0 lb) =
  match lb with
  | [] => inr None
  | b :: lb' =>
      if b_free b && (HEAP_HEADER + pad_of b k + size <=? b_size b)
      then inr (Some (take_block h (b_addr b) size (b_addr b + HEAP_HEADER + pad_of b k) (pad_of b k)))
      else inl (hd_addr 0 lb')
  end.
Proof.
  intros Hrep -> Hk Hs. unfold scan_step. destruct lb as [|b lb]; [done|].
  destruct (rep_fields _ _ _ _ Hrep) as [(_ & Hsz & _ & Hf & Hnx & _) Hok].
  destruct (pad_of_spec b k Hok Hk) as (Hp & _). pose proof Hok as (? & _ & ? & _ & Hend).
  unfold b_end, span, PMM_MAX_PHYS in Hend.
  assert (2 ^ k ≤ 2 ^ 32) by (apply Z.pow_le_mono_r; lia).
  simpl hd_addr. replace (b_addr b =? 0) with false by lia. rewrite Hf, Hnx, Hsz.
  destruct (b_free b); simpl; [|done]. unfold HEAP_HEADER in *.
  rewrite (u64_small (b_addr b + 48)) by lia.
  fold HEAP_HEADER. fold (pad_of b k).
  change (align_up (b_addr b + 48) (2 ^ k) - (b_addr b + 48)) with (pad_of b k).
  rewrite (u64_small (pad_of b k)), (u64_small (HEAP_HEADER + pad_of b k + size))
    by (unfold HEAP_HEADER; lia).
  rewrite Z.leb_antisym. destruct (b_size b <? _); simpl; [done|].
  unfold pad_of, HEAP_HEADER. do 3 f_equal. lia.
Qed.

Lemma scan_blocks_spec h l size k :
  heap_rep h l → 0 ≤ k ≤ 32 → 0 ≤ size < 2 ^ 62 →
  ∃ r, scan_blocks h size (2 ^ k) = Some r ∧
  match r with
  | None => ∀ b, b ∈ l → ¬ fits b size k
  | Some r => ∃ l1 b l2, l = l1 ++ b :: l2 ∧ fits b size k ∧ (∀ c, c ∈ l1 → ¬ fits c size k) ∧
      r = take_block h (b_addr b) size (b_addr b + HEAP_HEADER + pad_of b k) (pad_of b k)
  end.
Proof.
  intros Hrep Hk Hs. unfold scan_blocks.
  apply (while_total (λ p, ∃ la lb, l = la ++ lb ∧ p = hd_addr 0 lb ∧ ∀ c, c ∈ la → ¬ fits c size k)
           (λ p, if p =? 0 then 0 else PMM_MAX_PHYS + 1 - p)).
  - exists [], l. destruct Hrep as (_ & -> & _). split; [done|]. split; [done|]. set_solver.
  - destruct Hrep as (_ & -> & [Hok _]). unfold PMM_MAX_PHYS, heap_fuel.
    destruct l as [|b l]; [done|]. apply Forall_cons in Hok as [(? & _) _]. simpl. split_if; lia.
  - intros p (la & lb & El & -> & Hno). rewrite (scan_step_spec h l la lb) by done.
    pose proof Hrep as (_ & _ & Hg). rewrite El in Hg. apply geom_app in Hg as (_ & Hg & _).
    destruct lb as [|b lb].
    { split; [done|]. rewrite app_nil_r in El. by subst. }
    apply geom_cons in Hg as ((? & _ & ? & _ & He) & Hg & Hlt). unfold b_end, span, PMM_MAX_PHYS in *.
    simpl hd_addr. replace (b_addr b =? 0) with false by lia. split; [lia|].
    destruct (b_free b && _) eqn:E.
    { bsimp. exists la, b, lb. repeat split; try done. lia. }
    split.
    + exists (la ++ [b]), lb. rewrite <- app_assoc. split; [done|]. split; [done|].
      intros c [Hc| ->%list_elem_of_singleton]%elem_of_app; [by apply Hno|]. intros [Hf Hfit].
      rewrite Hf in E. simpl in E. lia.
    + destruct lb as [|c lb]; simpl; [lia|]. specialize (Hlt c ltac:(set_solver)).
      unfold before, b_end, span, HEAP_HEADER in Hlt. split_if; lia.
Qed.

(** ** Growing *)

Lemma split_at l a :
  geom l → ∃ l1 l2, l = l1 ++ l2 ∧ (∀ x, x ∈ l1 → b_addr x < a) ∧ ∀ y, y ∈ l2 → a ≤ b_addr y.
Proof.
  induction l as [|b l IH]; intros Hg; [exists [], []; set_solver|].
  apply geom_cons in Hg as (Hb & Hg & Hlt). destruct (Z.lt_ge_cases (b_addr b) a).
  - destruct (IH Hg) as (l1 & l2 & -> & H1 & H2). exists (b :: l1), l2. set_solver.
  - exists [], (b :: l). split; [done|]. split; [set_solver|].
    intros y [->|Hy]%elem_of_cons; [lia|]. specialize (Hlt y Hy).
    unfold before, b_end, span, HEAP_HEADER in Hlt. lia.
Qed.

(** The block that covers a fresh run of [n] frames from frame [f]. *)
Definition fresh (f n : Z) : blk := Blk (f * 4096) (n * 4096 - HEAP_HEADER) 0 true.

Lemma fresh_geom a l f n :
  geom l → frames_apart a l → 16 ≤ n → 0 < f → (∀ g, f ≤ g < f + n → fa_avail a g) →
  ∃ l1 l2, l = l1 ++ l2 ∧ geom (l1 ++ fresh f n :: l2).
Proof.
  intros Hg Hap Hn Hf Hav. destruct (split_at l (f * 4096) Hg) as (l1 & l2 & -> & H1 & H2).
  exists l1, l2. split; [done|]. pose proof Hg as (Hg1 & Hg2 & Hlt)%geom_app.
  pose proof (fa_avail_range a (f + n - 1) (Hav (f + n - 1) ltac:(lia))) as Hr. unfold MAX_FRAMES in Hr.
  apply geom_app. split; [done|]. split; [apply geom_cons; split; [|split; [done|]]|].
  - unfold blk_ok, b_end, span, is_u64, fresh, HEAP_HEADER, PMM_MAX_PHYS. simpl.
    split_and!; lia || dlia.
  - intros y Hy. specialize (H2 y Hy). unfold before, b_end, span, fresh, HEAP_HEADER. simpl.
    destruct (Z.le_gt_cases ((f + n) * 4096) (b_addr y)); [lia|].
    assert (f ≤ b_addr y / 4096 < f + n) as Hin by dlia.
    pose proof (Hap y (b_addr y / 4096) ltac:(set_solver) (Hav _ Hin)) as Hd.
    unfold b_end, span, HEAP_HEADER in Hd. dlia.
  - intros x y Hx [->|Hy]%elem_of_cons; [|by apply Hlt]. specialize (H1 x Hx).
    pose proof (Hap x f ltac:(set_solver) (Hav f ltac:(lia))) as Hd.
    unfold before. simpl. lia.
Qed.

Lemma fresh_apart a a' l1 l2 f n :
  frames_apart a (l1 ++ l2) → 1 ≤ n →
  (∀ g, fa_avail a' g ↔ fa_avail a g ∧ ¬ (f ≤ g < f + n)) →
  frames_apart a' (l1 ++ fresh f n :: l2).
Proof.
  intros Hap Hn Hav b g Hb [Hg Hout]%Hav. rewrite elem_of_app, elem_of_cons in Hb.
  destruct Hb as [Hb|[->|Hb]]; [apply Hap; set_solver| |apply Hap; set_solver].
  unfold b_end, span, fresh, HEAP_HEADER. simpl. lia.
Qed.

Lemma add_region_spec h l1 l2 f n :
  geom (l1 ++ fresh f n :: l2) → heap_rep h (l1 ++ l2) → 16 ≤ n →
  ∃ h', add_region (f * 4096) (n * 4096) h = Some h' ∧ heap_rep h' (l1 ++ fresh f n :: l2) ∧
        hframes h' = hframes h ∧ same_outside (l1 ++ fresh f n :: l2) (hmem h) (hmem h').
Proof.
  intros Hg Hrep Hn. unfold add_region, HEAP_MIN_FREE.
  replace (n * 4096 <? HEAP_HEADER + 16) with false by (unfold HEAP_HEADER; lia).
  set (nb := fresh f n) in *. change (f * 4096) with (b_addr nb).
  change (n * 4096 - HEAP_HEADER) with (b_size nb).
  assert (b_pad nb = 0 ∧ b_free nb = true) as [Hp0 Hfr] by done. clearbody nb.
  assert (blk_ok nb) as Hok by (apply (geom_elem _ _ Hg); set_solver).
  pose proof (blk_ok_u64 nb Hok) as [_ Hsu].
  set (m := set_pad (set_size (hmem h) (b_addr nb) (b_size nb)) (b_addr nb) 0).
  assert (∀ x, ¬ in_hdr nb x → m x = hmem h x) as Hm.
  { intros x Hx. unfold in_hdr, HEAP_HEADER in Hx. unfold m, set_pad, set_size.
    by rewrite !store64_out by lia. }
  assert (heap_rep (with_mem h m) (l1 ++ l2)) as Hrep'.
  { destruct Hrep as (Hs & Hh & Hg0). split; [by eapply seg_ext_but|done]. }
  destruct (insert_free_block_spec (with_mem h m) l1 l2 nb) as (h' & E & Hr & Hf & Hso); try done.
  { cbn [hmem with_mem]. unfold m. by hdr_eval. }
  { cbn [hmem with_mem]. unfold m. hdr_eval. done. }
  exists h'. split; [done|]. split; [done|]. split; [done|].
  intros x Hx. rewrite Hso by done. apply Hm, Hx. set_solver.
Qed.

(** What growing does to the abstract heap. *)
Definition grown h l (ok : bool) h' l' : Prop :=
  heap_inv h' l' ∧ same_outside l' (hmem h) (hmem h') ∧ (∀ g, fa_avail (hframes h') g → fa_avail (hframes h) g) ∧
  if ok then ∃ f n l1 l2, l = l1 ++ l2 ∧ l' = l1 ++ fresh f n :: l2 ∧ 16 ≤ n ∧
                          (∀ g, f ≤ g < f + n → fa_avail (hframes h) g)
  else l' = l.

Lemma heap_inv_frames h l a :
  heap_inv h l → fa_ok a → (∀ g, fa_avail a g → fa_avail (hframes h) g) →
  heap_inv (with_frames h a) l.
Proof.
  intros (Hrep & Hap & _) Ha Hav. split; [done|]. split; [|done].
  intros b f Hb Hf. apply Hap; [done|]. by apply Hav.
Qed.

Lemma grow_step_spec h0 l j h :
  heap_inv h l → hmem h = hmem h0 → (∀ g, fa_avail (hframes h) g → fa_avail (hframes h0) g) →
  16 ≤ j ≤ 22 →
  match grow_step (2 ^ j, h) with
  | inl (chunk, h') => chunk = 2 ^ (j - 1) ∧ heap_inv h' l ∧ hmem h' = hmem h0 ∧
                       ∀ g, fa_avail (hframes h') g → fa_avail (hframes h0) g
  | inr r => ∃ ok h' l', r = Some (ok, h') ∧ grown h0 l ok h' l'
  end.
Proof.
  intros Hinv Hm Hav Hj. unfold grow_step.
  assert (2 ^ 16 ≤ 2 ^ j) by (apply Z.pow_le_mono_r; lia). simpl (2 ^ 16) in *.
  replace (2 ^ j <? 64 * 1024) with false by lia.
  set (n := 2 ^ (j - 12)). assert (2 ^ j = n * 4096) as En.
  { unfold n. change 4096 with (2 ^ 12). rewrite <- Z.pow_add_r by lia. f_equal. lia. }
  rewrite En, Z.div_mul by lia. assert (16 ≤ n) by lia.
  pose proof Hinv as (Hrep & Hap & Hok).
  destruct (fa_contig_spec n (hframes h) Hok ltac:(lia)) as (Hok' & Hsub & Hrun).
  destruct (fa_contig n (hframes h)) as [p fr]. simpl in *.
  destruct (truthy p) eqn:Ep; unfold truthy in Ep.
  - destruct Hrun as (f & -> & Hfree & Hav'); [lia|]. unfold PMM_FRAME_SIZE in *.
    pose proof (fa_avail_range _ f (Hfree f ltac:(lia))) as Hr.
    destruct (fresh_geom (hframes h) l f n) as (l1 & l2 & -> & Hg); [apply Hrep|done|done|lia|done|].
    destruct (add_region_spec (with_frames h fr) l1 l2 f n) as (h' & E & Hrep' & Hf' & Hso); [done|done|done|].
    rewrite E. obind. exists true, h', (l1 ++ fresh f n :: l2). split; [done|].
    split; [|split; [|split]].
    + split; [done|]. rewrite Hf'. split; [|done]. simpl. by eapply fresh_apart; [|lia|].
    + by rewrite <- Hm.
    + rewrite Hf'. intros g [Hg0 _]%Hav'. by apply Hav.
    + exists f, n, l1, l2. split_and!; auto.
  - split.
    + replace (2 ^ (j - 1)) with (2 ^ j / 2); [by rewrite En|].
      replace j with (j - 1 + 1) at 1 by lia. rewrite Z.pow_add_r by lia. by rewrite Z.div_mul.
    + split; [by apply heap_inv_frames|]. split; [done|]. simpl. auto.
Qed.

Lemma grow_heap_spec h l :
  heap_inv h l → ∃ ok h' l', grow_heap h = Some (ok, h') ∧ grown h l ok h' l'.
Proof.
  intros Hinv. unfold grow_heap.
  edestruct (while_total
    (λ s, ∃ j, 15 ≤ j ≤ 22 ∧ s.1 = 2 ^ j ∧ heap_inv s.2 l ∧ hmem s.2 = hmem h ∧
          ∀ g, fa_avail (hframes s.2) g → fa_avail (hframes h) g)
    (λ s, Z.log2 s.1 - 15)
    (λ r, ∃ ok h' l', r = Some (ok, h') ∧ grown h l ok h' l')) as (r & -> & ok & h' & l' & -> & Hg);
    [| | |by exists ok, h', l'].
  - exists 22. split_and!; done || lia.
  - done.
  - intros [chunk h1] (j & Hj & E & Hi & Hm & Hav). cbn [fst snd] in *. subst chunk.
    rewrite Z.log2_pow2 by lia. split; [lia|]. destruct (decide (j = 15)) as [->|Hne].
    + exists false, h1, l. split; [done|]. split; [done|]. split; [intros x _; by rewrite Hm|]. by split.
    + pose proof (grow_step_spec h l j h1 Hi Hm Hav ltac:(lia)) as Hs.
      destruct (grow_step (2 ^ j, h1)) as [[c h2]|r]; [|done]. destruct Hs as (-> & Hi2 & Hm2 & Ha2).
      split; [exists (j - 1); split_and!; done || lia|]. cbn [fst snd]. rewrite Z.log2_pow2 by lia. lia.
Qed.

(** ** [kheap_alloc] as a whole *)

(** Allocated blocks survive with their contents. *)
Definition keeps h (l : list blk) h' (l' : list blk) : Prop :=
  ∀ c, c ∈ l → b_free c = false → c ∈ l' ∧
    ∀ x, b_addr c + HEAP_HEADER ≤ x < b_addr c + b_size c → hmem h' x = hmem h x.

Lemma keeps_refl h l : keeps h l h l.
Proof. intros c Hc _. done. Qed.

Lemma keeps_trans h1 l1 h2 l2 h3 l3 : keeps h1 l1 h2 l2 → keeps h2 l2 h3 l3 → keeps h1 l1 h3 l3.
Proof.
  intros H1 H2 c Hc Hf. destruct (H1 c Hc Hf) as [Hc2 Hx1]. destruct (H2 c Hc2 Hf) as [Hc3 Hx2].
  split; [done|]. intros x Hx. by rewrite Hx2, Hx1.
Qed.

Lemma grown_keeps h l ok h' l' : grown h l ok h' l' → keeps h l h' l' ∧ zone_kept h l h' l' ∧ ∀ b, b ∈ l → b ∈ l'.
Proof.
  intros (Hinv & Hso & Hsubf & Hok).
  assert (∀ b, b ∈ l → b ∈ l') as Hsub.
  { destruct ok; [|by subst]. destruct Hok as (f & n & l1 & l2 & -> & -> & _). set_solver. }
  assert (∀ x, in_blks l' x → zone h l x) as Hz.
  { destruct ok; [|subst; by left]. destruct Hok as (f & n & l1 & l2 & -> & -> & Hn & Hav).
    intros x (c & [Hc|[->|Hc]%elem_of_cons]%elem_of_app & Hx); [left; exists c; set_solver| |left; exists c; set_solver].
    right. apply Hav. unfold b_end, span, fresh, HEAP_HEADER in Hx. simpl in Hx. dlia. }
  split; [|split; [|done]].
  - intros c Hc Hf. split; [by apply Hsub|]. intros x Hx. apply Hso. apply (payload_outside l' c); [apply Hinv|by apply Hsub|done].
  - apply zone_kept_sub; [done|done|]. intros x Hx. apply Hso. intros c Hc Hh. by apply Hx, Hz, (hdr_in_blks l' c).
Qed.

(** What a successful allocation promises its caller. *)
Definition alloc_ok h (l : list blk) (size k p : Z) h' (l' : list blk) : Prop :=
  p ≠ 0 ∧ p mod 2 ^ k = 0 ∧
  ∃ b, b ∈ l' ∧ b_free b = false ∧ b_addr b + HEAP_HEADER + b_pad b = p ∧
       p + size ≤ b_addr b + b_size b ∧ (k ≤ 4 → b_pad b = 0) ∧
       (∀ c, c ∈ l → b_free c = false → c ≠ b) ∧
       ∀ x, p ≤ x < p + size → hmem h' x = 0.

Lemma allocated_ok h l l1 b l2 size k p h' :
  heap_inv h l → l = l1 ++ b :: l2 → fits b size k → 0 ≤ k ≤ 32 → 0 ≤ size →
  allocated h l l1 b l2 size k (p, h') →
  let l' := l1 ++ taken b size k :: leftover b size k ++ l2 in
  heap_inv h' l' ∧ keeps h l h' l' ∧ zone_kept h l h' l' ∧ alloc_ok h l size k p h' l'.
Proof.
  intros (Hrep & Hap & Hfok) -> Hfits Hk Hsz (Hp & Hrep' & Hf & Hz & Hout & Hap') l'. simpl in *.
  destruct (rep_fields _ _ _ _ Hrep) as [_ Hok]. pose proof Hfits as [Hbf Hfit].
  destruct (pad_of_spec b k Hok Hk) as ([Hp0 _] & _ & Hp4 & Hpal). pose proof Hok as (Hpos & _).
  pose proof Hrep' as (_ & _ & Hg'). pose proof Hrep as (_ & _ & Hg).
  assert (p + size ≤ b_addr b + b_size (taken b size k)) as Hin.
  { rewrite Hp. unfold taken. simpl. split_if; lia. }
  assert (∀ c, c ∈ l1 ++ b :: l2 → b_free c = false → c ≠ taken b size k) as Hne.
  { intros c Hc Hcf ->. destruct (geom_disjoint _ _ b Hg Hc) as [E|[Hd|Hd]]; [set_solver| | |].
    - rewrite E in Hcf. congruence.
    - unfold before, b_end, span, HEAP_HEADER in Hd. simpl in Hd. lia.
    - unfold before, b_end, span, HEAP_HEADER in Hd. simpl in Hd. lia. }
  split; [split; [done|]; rewrite Hf; split; [by apply Hap'|done]|]. split.
  - intros c Hc Hcf. assert (c ∈ l') as Hc'.
    { unfold l'. rewrite elem_of_app, elem_of_cons in Hc. rewrite elem_of_app, elem_of_cons, elem_of_app.
      destruct Hc as [Hc|[->|Hc]]; auto. congruence. }
    split; [done|].
    intros x Hx. apply Hout; [by apply (payload_outside l' c)|].
    intros Hpx. destruct (geom_disjoint l' c (taken b size k) Hg' Hc') as [E|[Hd|Hd]];
      [by apply elem_of_app; right; left|by apply (Hne c)| |];
      unfold before, b_end, span, HEAP_HEADER in *; simpl in *; lia.
  - split.
    { assert (∀ x, in_blks l' x → in_blks (l1 ++ b :: l2) x) as Hzn.
      { intros x (c & Hc & Hx). unfold l' in Hc. rewrite elem_of_app, elem_of_cons, elem_of_app in Hc.
        destruct Hc as [Hc|[->|[Hc|Hc]]]; [exists c; set_solver|exists b|exists b|exists c; set_solver]; (split; [set_solver|]).
        - unfold taken, b_end, span, HEAP_HEADER in *. simpl in Hx. destruct (HEAP_MIN_FREE <=? _); lia.
        - unfold leftover in Hc. destruct (Z.leb_spec HEAP_MIN_FREE (b_size b - (HEAP_HEADER + pad_of b k + size))); [|set_solver].
          apply list_elem_of_singleton in Hc as ->. unfold tail_of, b_end, span, HEAP_MIN_FREE, HEAP_HEADER in *. simpl in Hx. lia. }
      apply zone_kept_sub; [intros x Hx; left; by apply Hzn|by rewrite Hf|]. intros x Hx. apply Hout.
      - intros c Hc Hh. apply Hx. left. by apply Hzn, (hdr_in_blks l' c).
      - intros Hpx. apply Hx. left. exists b. split; [set_solver|]. unfold b_end, span, HEAP_HEADER in *. lia. }
    unfold HEAP_HEADER in *. split; [lia|]. split; [by rewrite Hp|].
    exists (taken b size k). split; [by apply elem_of_app; right; left|]. split; [done|].
    split; [by rewrite Hp|]. split; [done|]. split; [done|]. by split.
Qed.

(** One attempt: a fitting block is taken, or the heap grows. *)
Lemma alloc_attempt_spec h l size k i :
  heap_inv h l → 0 ≤ k ≤ 32 → 0 ≤ size < 2 ^ 62 → size mod 16 = 0 →
  match alloc_attempt size (2 ^ k) i h with
  | inl h' => (∀ b, b ∈ l → ¬ fits b size k) ∧ ∃ l', grown h l true h' l'
  | inr r => ∃ p h' l', r = Some (p, h') ∧ heap_inv h' l' ∧ keeps h l h' l' ∧ zone_kept h l h' l' ∧
       ((p = 0 ∧ ∀ b, b ∈ l → ¬ fits b size k) ∨ alloc_ok h l size k p h' l')
  end.
Proof.
  intros Hinv Hk Hs H16. unfold alloc_attempt. pose proof Hinv as (Hrep & _).
  destruct (scan_blocks_spec h l size k Hrep Hk Hs) as (r & -> & Hr). destruct r as [r|].
  - destruct Hr as (l1 & b & l2 & -> & Hfits & _ & ->).
    pose proof (take_block_spec h l1 b l2 size k Hrep Hfits Hk ltac:(lia) H16) as Hal.
    destruct (take_block _ _ _ _ _) as [p h'].
    destruct (allocated_ok h _ l1 b l2 size k p h' Hinv eq_refl Hfits Hk ltac:(lia) Hal)
      as (Hi & Hkp & Hz & Hok). eauto 10.
  - destruct (grow_heap_spec h l Hinv) as (ok & h' & l' & -> & Hg). destruct ok.
    + eauto.
    + destruct (grown_keeps _ _ _ _ _ Hg) as (Hkp & Hz & _). destruct Hg as (Hi & _ & _ & ->). eauto 10.
Qed.

Definition round16 (n : Z) : Z := (n + 15) / 16 * 16.

Lemma keeps_alloc_ok h0 l0 h l size k p h' l' :
  keeps h0 l0 h l → alloc_ok h l size k p h' l' → alloc_ok h0 l0 size k p h' l'.
Proof.
  intros Hkp (? & ? & b & ? & ? & ? & ? & ? & Hne & ?). split; [done|]. split; [done|].
  exists b. split_and!; try done. intros c Hc Hcf. apply Hne; [|done]. by apply (Hkp c).
Qed.

Lemma kheap_alloc_spec h l size k :
  heap_inv h l → 0 < size < 2 ^ 61 → 0 ≤ k ≤ 32 →
  ∃ p h' l', kheap_alloc size (2 ^ k) h = Some (p, h') ∧ heap_inv h' l' ∧ keeps h l h' l' ∧ zone_kept h l h' l' ∧
    ((p = 0 ∧ ∀ b, b ∈ l → ¬ fits b (round16 size) k) ∨ alloc_ok h l (round16 size) k p h' l').
Proof.
  intros Hinv Hs Hk. unfold kheap_alloc. replace (size =? 0) with false by lia.
  assert (0 < 2 ^ k) by (apply Z.pow_pos_nonneg; lia). replace (2 ^ k =? 0) with false by lia.
  rewrite (u64_small (size + 15)) by lia. change (Z.lnot 15) with (Z.lnot (2 ^ 4 - 1)).
  rewrite (round_down_mask (size + 15) 4) by (unfold is_u64; lia). change (2 ^ 4) with 16.
  fold (round16 size). set (sz := round16 size).
  assert (0 ≤ sz < 2 ^ 62 ∧ sz mod 16 = 0) as [Hsz H16] by (unfold sz, round16; dlia).
  rewrite for_unfold by lia.
  pose proof (alloc_attempt_spec h l sz k 0 Hinv Hk Hsz H16) as H1.
  destruct (alloc_attempt sz (2 ^ k) 0 h) as [h1|r1];
    [|by destruct H1 as (p & h' & l' & -> & ?); exists p, h', l'].
  destruct H1 as (Hno & l1 & Hg1). destruct (grown_keeps _ _ _ _ _ Hg1) as (Hk1 & Hz1 & Hsub).
  pose proof Hg1 as (Hi1 & _). rewrite for_unfold by lia.
  pose proof (alloc_attempt_spec h1 l1 sz k (0 + 1) Hi1 Hk Hsz H16) as H2.
  destruct (alloc_attempt sz (2 ^ k) (0 + 1) h1) as [h2|r2].
  - destruct H2 as (_ & l2 & Hg2). destruct (grown_keeps _ _ _ _ _ Hg2) as (Hk2 & Hz2 & _).
    rewrite for_end by lia. exists 0, h2, l2. split; [done|]. split; [apply Hg2|].
    split; [by eapply keeps_trans|]. split; [by eapply zone_kept_trans|]. left. done.
  - destruct H2 as (p & h' & l' & -> & Hi' & Hk2 & Hz2 & Hr). exists p, h', l'. split; [done|].
    split; [done|]. split; [by eapply keeps_trans|]. split; [by eapply zone_kept_trans|].
    destruct Hr as [[-> Hno']|Hok]; [left; done|right; by eapply keeps_alloc_ok].
Qed.

(** C1: Allocation terminates and is first fit with growth: it gives a
    well-formed heap again in which every block allocated before keeps its place
    and its contents, and either returns 0, in which case no free block of the
    heap was large enough, or an aligned pointer to zeroed memory inside a block
    that is now allocated and was not allocated before (for alignments up to 16
    that block has no padding, which is what [kheap_free] relies on).  Memory
    outside the heap's blocks and the free frames is not written. *)
Theorem kheap_alloc_correct h l size k :
  heap_inv h l → 0 < size < 2 ^ 61 → 0 ≤ k ≤ 32 →
  ∃ p h' l', kheap_alloc size (2 ^ k) h = Some (p, h') ∧ heap_inv h' l' ∧ keeps h l h' l' ∧ zone_kept h l h' l' ∧
    ((p = 0 ∧ ∀ b, b ∈ l → ¬ fits b (round16 size) k) ∨ alloc_ok h l (round16 size) k p h' l').
Proof. apply kheap_alloc_spec. Qed.

(** [kheap_init] establishes the invariant from any memory and any
    well-formed frame allocator, with nothing allocated. *)
Theorem kheap_init_correct h :
  fa_ok (hframes h) →
  ∃ h' l, kheap_init h = Some h' ∧ heap_inv h' l ∧ ∀ b, b ∈ l → b_free b = true.
Proof.
  intros Hok. unfold kheap_init. set (h0 := with_allocated (with_head h 0) 0).
  assert (heap_inv h0 []) as Hi.
  { split; [split; [done|split; [done|apply geom_nil]]|]. split; [|done]. intros b f Hb. set_solver. }
  destruct (grow_heap_spec h0 [] Hi) as (ok & h' & l' & -> & Hg & _ & _ & Hl). obind.
  exists h', l'. split; [done|]. split; [done|]. destruct ok; [|subst; set_solver].
  destruct Hl as (f & n & l1 & l2 & E & -> & _). symmetry in E. apply app_eq_nil in E as [-> ->].
  intros b ->%list_elem_of_singleton. done.
Qed.

(** The bytes that splitting takes out of the accounting. *)
Lemma taken_sizes b size k :
  HEAP_HEADER + pad_of b k + size + HEAP_MIN_FREE ≤ b_size b →
  sizes (taken b size k :: leftover b size k) = b_size b - HEAP_HEADER.
Proof.
  intros H. unfold taken, leftover.
  replace (HEAP_MIN_FREE <=? _) with true by lia. simpl. lia.
Qed.

(** Splitting a block loses the size of one header for good: on a heap that is
    one free block, allocating and freeing again leaves a heap whose blocks add
    up to 48 bytes less than before. *)
Theorem kheap_split_leaks h b size :
  heap_inv h [b] → b_free b = true → 0 < size < 2 ^ 61 →
  HEAP_HEADER + round16 size + HEAP_MIN_FREE ≤ b_size b →
  ∃ p h1 h2 l2, kheap_alloc size 16 h = Some (p, h1) ∧ kheap_free p h1 = Some h2 ∧
    heap_inv h2 l2 ∧ sizes l2 = b_size b - HEAP_HEADER.
Proof.
  intros Hinv Hf Hs Hfit. pose proof Hinv as (Hrep & _ & Hfok).
  destruct (rep_fields h [] b [] Hrep) as [_ Hok].
  destruct (pad_of_spec b 4 Hok ltac:(lia)) as (_ & _ & Hp4 & _). specialize (Hp4 ltac:(lia)).
  unfold kheap_alloc. replace (size =? 0) with false by lia. change (16 =? 0) with false. cbv iota.
  rewrite (u64_small (size + 15)) by lia. change (Z.lnot 15) with (Z.lnot (2 ^ 4 - 1)).
  rewrite (round_down_mask (size + 15) 4) by (unfold is_u64; lia). change (2 ^ 4) with 16.
  fold (round16 size). set (sz := round16 size) in *.
  assert (0 ≤ sz < 2 ^ 62 ∧ sz mod 16 = 0) as [Hsz H16] by (unfold sz, round16; dlia).
  assert (fits b sz 4) as Hfits by (split; [done|]; unfold HEAP_MIN_FREE, HEAP_HEADER in *; lia).
  destruct (scan_blocks_spec h [b] sz 4 Hrep ltac:(lia) Hsz) as (r & E & Hr).
  rewrite for_unfold by lia. unfold alloc_attempt at 1. change 16 with (2 ^ 4). rewrite E.
  destruct r as [r|]; [|by destruct (Hr b ltac:(set_solver))].
  destruct Hr as (l1 & b' & l2 & El & _ & _ & ->).
  destruct l1 as [|? [|? ?]]; [|discriminate El|discriminate El]. injection El as <- <-.
  pose proof (take_block_spec h [] b [] sz 4 Hrep Hfits ltac:(lia) ltac:(lia) H16) as Hal.
  destruct (take_block _ _ _ _ _) as [p h1].
  destruct (allocated_ok h [b] [] b [] sz 4 p h1 Hinv eq_refl Hfits ltac:(lia) ltac:(lia) Hal)
    as (Hi1 & _). destruct Hal as (Hp & _). simpl in Hp, Hi1.
  destruct (kheap_free_spec h1 _ (taken b sz 4) Hi1) as (h2 & l2 & Ef & Hi2 & _ & Hsum & _);
    [set_solver|done|done|].
  exists p, h1, h2, l2. split; [done|]. split; [|split; [done|]].
  - rewrite Hp, Hp4, Z.add_0_r. done.
  - rewrite Hsum, app_nil_r. apply taken_sizes. lia.
Qed.

End Refinement.

(** ** A concrete heap over the bitmap allocator

    Two blocks in the page frames at 64 KiB, written word by word: 112 bytes
    allocated, the rest free; no frame is left to grow. *)
Definition put_block (b : blk) (prev next : Z) (m : mem) : mem :=
  set_prev (set_next (set_flags (set_pad (set_size (set_magic m (b_addr b) HEAP_MAGIC)
    (b_addr b) (b_size b)) (b_addr b) (b_pad b)) (b_addr b) (if b_free b then 1 else 0))
    (b_addr b) next) (b_addr b) prev.

Definition demo_used : blk := Blk 65536 112 0 false.
Definition demo_rest : blk := Blk 65648 3936 0 true.
Definition demo_heap : heap pmm :=
  {| hmem := put_block demo_used 0 65648 (put_block demo_rest 65536 0 (λ _, 0));
     heap_head := 65536; allocated_bytes := 112; hframes := pmm_bss |}.
Definition demo_one : heap pmm :=
  {| hmem := put_block (Blk 65536 4048 0 true) 0 0 (λ _, 0);
     heap_head := 65536; allocated_bytes := 0; hframes := pmm_bss |}.

Lemma bss_apart l : frames_apart pmm_bss l.
Proof.
  intros b f _ [_ Hf]. exfalso. rewrite frame_is_free_bit in Hf. simpl in Hf.
  by rewrite Z.testbit_0_l in Hf.
Qed.

Lemma demo_blk_ok a s f : 0 < a → a mod 16 = 0 → 64 ≤ s → a + s ≤ 68719476736 → blk_ok (Blk a s 0 f).
Proof.
  intros. unfold blk_ok, b_end, span, is_u64, PMM_MAX_PHYS, HEAP_HEADER. simpl. lia.
Qed.

Lemma demo_heap_inv : heap_inv demo_heap [demo_used; demo_rest].
Proof.
  split; [|split; [apply bss_apart|apply pmm_inv_bss]]. split; [|split; [done|]].
  - simpl. unfold node. vm_compute. done.
  - split; [repeat constructor; by apply demo_blk_ok|].
    repeat constructor. by vm_compute.
Qed.

Lemma demo_one_inv : heap_inv demo_one [Blk 65536 4048 0 true].
Proof.
  split; [|split; [apply bss_apart|apply pmm_inv_bss]]. split; [|split; [done|]].
  - simpl. unfold node. vm_compute. done.
  - split; [repeat constructor; by apply demo_blk_ok|]. repeat constructor.
Qed.

Lemma kheap_alloc_witness :
  ∃ p h' l', kheap_alloc 100 16 demo_heap = Some (p, h') ∧ heap_inv h' l' ∧
             keeps demo_heap [demo_used; demo_rest] h' l'.
Proof.
  destruct (kheap_alloc_correct demo_heap [demo_used; demo_rest] 100 4) as (p & h' & l' & E & Hi & Hk & _);
    [apply demo_heap_inv|lia|lia|].
  exists p, h', l'. exact (conj E (conj Hi Hk)).
Defined.

Lemma kheap_free_witness :
  ∃ h' l', kheap_free 65584 demo_heap = Some h' ∧ heap_inv h' l' ∧ sizes l' = 4048.
Proof.
  destruct (kheap_free_correct demo_heap [demo_used; demo_rest] demo_used) as (h' & l' & E & Hi & _ & Hs & _);
    [apply demo_heap_inv|left|done|done|].
  exists h', l'. exact (conj E (conj Hi Hs)).
Defined.

Lemma kheap_init_witness : ∃ h' l, kheap_init demo_heap = Some h' ∧ heap_inv h' l.
Proof.
  destruct (kheap_init_correct demo_heap) as (h' & l & E & Hi & _); [apply pmm_inv_bss|].
  exists h', l. exact (conj E Hi).
Defined.

Lemma kheap_split_leaks_witness :
  ∃ p h1 h2 l2, kheap_alloc 100 16 demo_one = Some (p, h1) ∧ kheap_free p h1 = Some h2 ∧
                heap_inv h2 l2 ∧ sizes l2 = 4000.
Proof.
  apply (kheap_split_leaks demo_one (Blk 65536 4048 0 true) 100);
    [apply demo_one_inv|done|lia|by vm_compute].
Defined.
