(* ===== verification/Alloc.v ===== *)
(** Interface between the kernel heap and its clients.

    Components that keep their objects on the heap call [kheap_alloc] and
    [kheap_free] only; what they rely on is that an allocation ends, that the
    pointer it returns is not that of a live allocation, and that freeing a live
    allocation ends and leaves the others alone.  [HeapAllocator] names the two
    entry points and [HeapAllocatorOk] states the promise over the set of live
    pointers; the instance at the end discharges it with the proofs of Kheap.v. *)

From stdpp Require Import prelude numbers list gmap.
From Stdlib Require Import ZArith Lia.
From S2P Require Import Prelude Memory Frames Kheap.

Open Scope Z_scope.

Class HeapAllocator (H : Type) : Type := {
  ha_alloc : Z → Z → H → option (Z * H);
  ha_free : Z → H → option H
}.

Class HeapAllocatorOk (H : Type) `{!HeapAllocator H} : Type := {
  (** [X] are live allocations of [h] *)
  ha_ok : H → gset Z → Prop;
  ha_ok_range : ∀ h X p, ha_ok h X → p ∈ X → 0 < p < 68719476736;
  ha_alloc_spec : ∀ h X size align,
    ha_ok h X → 0 < size < 2 ^ 61 → align = 1 ∨ align = 16 →
    ∃ p h', ha_alloc size align h = Some (p, h') ∧
      ((p = 0 ∧ ha_ok h' X) ∨ (p ≠ 0 ∧ p ∉ X ∧ ha_ok h' ({[p]} ∪ X)));
  ha_free_spec : ∀ h X p,
    ha_ok h X → p ∈ X → ∃ h', ha_free p h = Some h' ∧ ha_ok h' (X ∖ {[p]})
}.

(** ** The heap leaves bytes in memory *)

Section Bytes.
Context {A : Type} `{!FrameAllocator A}.
Implicit Types h : heap A.

#[local] Hint Resolve mem_ok_store64 mem_ok_memset : bytes.
Ltac bytes := unfold set_magic, set_size, set_pad, set_next, set_prev, block_set_free, set_flags in *; eauto 20 with bytes.

Lemma block_set_free_bytes m b f : mem_ok m → mem_ok (block_set_free m b f).
Proof. intros. unfold block_set_free. repeat split_if; bytes. Qed.

Lemma unlink_bytes b h : mem_ok (hmem h) → mem_ok (hmem (unlink b h)).
Proof. intros. unfold unlink. repeat split_if; simpl; bytes. Qed.

Lemma insert_bytes b h h' : mem_ok (hmem h) → insert_free_block b h = Some h' → mem_ok (hmem h').
Proof.
  intros Hm. unfold insert_free_block. pose proof (block_set_free_bytes (hmem h) b true Hm) as Hm1. split_if.
  - intros [= <-]. simpl. split_if; bytes.
  - destruct (insert_pos _ _ _) as [cur|]; [|done]. rewrite bind_some. intros [= <-]. simpl. apply mem_ok_store64. split_if; bytes.
Qed.

Lemma grow_bytes h ok h' : mem_ok (hmem h) → grow_heap h = Some (ok, h') → mem_ok (hmem h').
Proof.
  intros Hm. unfold grow_heap. destruct (while_ 8 grow_step (HEAP_GROW_CHUNK, h)) as [r|] eqn:E; [|done].
  assert (∀ ok h', r = Some (ok, h') → mem_ok (hmem h')) as Hr; [|intros Er; by apply (Hr ok h')]. revert E.
  apply (while_partial (λ s : Z * heap A, mem_ok (hmem s.2)) (λ r, ∀ ok h', r = Some (ok, h') → mem_ok (hmem h'))); [done|].
  intros [c g] Hg. unfold grow_step. simpl in Hg. split_if; [by intros ? ? [= <- <-]|]. destruct (fa_contig _ _) as [p fr].
  split_if; [|done]. intros o g' Eg. unfold add_region in Eg. split_if; [by simplify_eq/=|].
  destruct (insert_free_block p _) as [g2|] eqn:Ei; [|done]. simplify_eq/=. eapply insert_bytes; [|exact Ei]. simpl. bytes.
Qed.

Lemma take_bytes h b size al pad : mem_ok (hmem h) → mem_ok (hmem (take_block h b size al pad).2).
Proof.
  intros Hm. unfold take_block. simpl. apply mem_ok_memset, block_set_free_bytes, mem_ok_store64. split_if; [|done].
  unfold split_tail. apply mem_ok_store64, mem_ok_store64. split_if; [apply mem_ok_store64|];
    apply mem_ok_store64, mem_ok_store64, block_set_free_bytes; bytes.
Qed.

Lemma kheap_alloc_bytes size al h p h' : mem_ok (hmem h) → kheap_alloc size al h = Some (p, h') → mem_ok (hmem h').
Proof.
  intros Hm. unfold kheap_alloc. split_if; [by intros [= _ <-]|].
  assert (∀ size al i h, mem_ok (hmem h) → match alloc_attempt size al i h with
    | inl h' => mem_ok (hmem h') | inr r => ∀ p h', r = Some (p, h') → mem_ok (hmem h') end) as Ha.
  { clear. intros size al i h Hm. unfold alloc_attempt. destruct (scan_blocks h size al) as [[r|]|] eqn:Es; [| |done].
    - intros p h' [= ->]. revert p h' Es. assert (∀ r, scan_blocks h size al = Some (Some r) → mem_ok (hmem r.2)) as H; [|intros p h' E; exact (H _ E)].
      intros r0. unfold scan_blocks. intros Es.
      assert (∀ x : Z * heap A, Some r0 = Some x → mem_ok (hmem x.2)) as Hx; [|by apply (Hx r0)]. revert Es.
      apply (while_partial (λ _, True) (λ r, ∀ x : Z * heap A, r = Some x → mem_ok (hmem x.2))); [done|].
      intros b _. unfold scan_step. repeat split_if; try done. intros x [= <-]. by apply take_bytes.
    - destruct (grow_heap h) as [[[|] h1]|] eqn:Eg; [| |done]; [by eapply grow_bytes|]. intros p h' [= <- <-]. by eapply grow_bytes. }
  set (sz := Z.land _ _). set (a := if al =? 0 then 16 else al). clearbody sz a.
  pose proof (Ha sz a 0 h Hm) as H0. rewrite for_unfold by lia. destruct (alloc_attempt sz a 0 h) as [h1|r]; [|apply H0].
  pose proof (Ha sz a (0 + 1) h1 H0) as H1. rewrite for_unfold by lia. destruct (alloc_attempt sz a (0 + 1) h1) as [h2|r]; [|apply H1].
  rewrite for_end by lia. by intros [= _ <-].
Qed.

Lemma kheap_free_bytes p h h' : mem_ok (hmem h) → kheap_free p h = Some h' → mem_ok (hmem h').
Proof.
  intros Hm. unfold kheap_free. split_if; [by intros [= <-]|]. set (b := u64 _). clearbody b. split_if; [by intros [= <-]|].
  set (h0 := with_mem _ _). assert (mem_ok (hmem h0)) as H0 by (by apply block_set_free_bytes). clearbody h0. clear Hm.
  unfold coalesce. destruct (while_ heap_fuel _ h0) as [h1|] eqn:E; [|done]. rewrite bind_some.
  assert (mem_ok (hmem h1)) as H1.
  { revert E. apply (while_partial (λ h : heap A, mem_ok (hmem h)) (λ h : heap A, mem_ok (hmem h))); [done|]. intros g Hg.
    unfold merge_next_step. split_if; [|done]. apply unlink_bytes. simpl. bytes. }
  split_if; intros [= <-]; [|done]. apply unlink_bytes. simpl. bytes.
Qed.
End Bytes.

Section KheapInstance.
Context {A : Type} `{!FrameAllocator A, !FrameAllocatorOk A}.

#[export] Instance kheap_allocator : HeapAllocator (heap A) :=
  {| ha_alloc := kheap_alloc; ha_free := kheap_free |}.

(** The block a live pointer belongs to. *)
Definition live_block (l : list blk) (p : Z) (b : blk) : Prop :=
  b ∈ l ∧ b_free b = false ∧ b_pad b = 0 ∧ b_addr b + HEAP_HEADER = p ∧ HEAP_HEADER < b_size b.

Definition kheap_live (h : heap A) (X : gset Z) : Prop :=
  ∃ l, heap_inv h l ∧ ∀ p, p ∈ X → ∃ b, live_block l p b.

Lemma live_block_unique (h : heap A) l p b c : heap_inv h l → live_block l p b → live_block l p c → b = c.
Proof.
  intros ((_ & _ & Hg) & _) (Hb & _ & _ & Eb & _) (Hc & _ & _ & Ec & _).
  destruct (geom_disjoint l b c Hg Hb Hc) as [|[Hd|Hd]]; [done|..];
    unfold before, b_end, span, HEAP_HEADER in Hd; lia.
Qed.

Lemma live_block_keeps (h : heap A) l h' l' p b : keeps h l h' l' → live_block l p b → live_block l' p b.
Proof. intros Hk (Hb & Hf & Hrest). split; [by apply Hk|]. done. Qed.

#[export] Program Instance kheap_allocator_ok : HeapAllocatorOk (heap A) := {| ha_ok := kheap_live |}.
Next Obligation.
  intros h X p (l & ((_ & _ & Hg) & _) & HX) Hp. destruct (HX p Hp) as (b & Hb & _ & _ & <- & Hs).
  destruct (geom_elem l b Hg Hb) as (? & _ & _ & _ & He).
  unfold b_end, span, PMM_MAX_PHYS, HEAP_HEADER in *. lia.
Qed.
Next Obligation.
  intros h X size align (l & Hi & HX) Hs Hal.
  assert (∃ k, align = 2 ^ k ∧ 0 ≤ k ≤ 4) as (k & -> & Hk)
    by (destruct Hal as [-> | ->]; [exists 0|exists 4]; lia).
  destruct (kheap_alloc_spec h l size k Hi Hs ltac:(lia)) as (p & h' & l' & E & Hi' & Hkp & _ & Hp).
  exists p, h'. split; [done|].
  assert (∀ x, x ∈ X → ∃ b, live_block l' x b) as HX'.
  { intros x Hx. destruct (HX x Hx) as (b & Hb). exists b. by apply (live_block_keeps h l h'). }
  destruct Hp as [[-> _]|(Hne & _ & b & Hb & Hf & Hpb & Hend & Hpad & Hfresh & _)].
  - left. split; [done|]. by exists l'.
  - right. specialize (Hpad ltac:(lia)). assert (16 ≤ round16 size) by (unfold round16; dlia).
    assert (live_block l' p b) as Hlb by (unfold live_block; split_and!; done || lia).
    split; [done|]. split.
    + intros Hx. destruct (HX p Hx) as (c & Hc). apply (Hfresh c); [apply Hc|apply Hc|].
      apply (live_block_unique h' l' p); [done| |done]. by apply (live_block_keeps h l h').
    + exists l'. split; [done|]. intros x [->%elem_of_singleton|Hx]%elem_of_union; [by exists b|by apply HX'].
Qed.
Next Obligation.
  intros h X p (l & Hi & HX) Hp. destruct (HX p Hp) as (b & Hb). pose proof Hb as (Hin & Hf & Hpad & <- & _).
  destruct (kheap_free_spec h l b Hi Hin Hf Hpad) as (h' & l' & E & Hi' & _ & _ & _ & Hkp & _).
  exists h'. split; [done|]. exists l'. split; [done|]. intros x Hx. apply elem_of_difference in Hx as [Hx Hne].
  destruct (HX x Hx) as (c & Hc). pose proof Hc as (Hci & Hcf & ? & Ec & ?). exists c.
  split; [|done]. apply Hkp; [done| |done]. intros ->. apply Hne. rewrite Ec. by apply elem_of_singleton.
Qed.
End KheapInstance.
