(* ===== verification/Paging.v ===== *)
(** Paging (mem/mm/paging.c).

    Page tables live in the byte memory: an entry is the 64-bit word at
    [table + 8 * index].  Table pages come from an abstract [FrameAllocator].
    [invlpg] only affects the TLB, which has no model.

    [walk] follows table entries along a path of indices; [tree_ok] says that
    different paths lead to different table pages and [tree_apart] that no table
    page is free in the allocator.  Every mapping operation is shown to keep the
    two, and its effect is given through [paging_translate] for all addresses. *)

From stdpp Require Import prelude numbers list.
From Stdlib Require Import ZArith Lia.
From S2P Require Import Prelude Memory Frames Pmm.

Open Scope Z_scope.

Definition PAGING_FLAG_PRESENT : Z := 0x001.
Definition PAGING_FLAG_WRITABLE : Z := 0x002.
Definition PAGING_FLAG_USER : Z := 0x004.
Definition PAGING_FLAG_LARGE : Z := 0x080.
Definition PAGING_USER_BASE : Z := 0x40000000.
Definition PAGING_PAGE : Z := 0x1000.
Definition PAGING_HUGE : Z := 0x200000.

Definition PML4_IDX (a : Z) : Z := Z.land (Z.shiftr a 39) 0x1FF.
Definition PDPT_IDX (a : Z) : Z := Z.land (Z.shiftr a 30) 0x1FF.
Definition PD_IDX (a : Z) : Z := Z.land (Z.shiftr a 21) 0x1FF.
Definition PT_IDX (a : Z) : Z := Z.land (Z.shiftr a 12) 0x1FF.

(** [table[i]], [table[i] = e], and the tests and masks on an entry. *)
Definition entry (m : mem) (t i : Z) : Z := load64 m (t + 8 * i).
Definition set_entry (m : mem) (t i e : Z) : mem := store64 m (t + 8 * i) e.
Definition present (e : Z) : bool := truthy (Z.land e 1).
Definition is_large (e : Z) : bool := truthy (Z.land e PAGING_FLAG_LARGE).
Definition is_user (e : Z) : bool := truthy (Z.land e PAGING_FLAG_USER).
Definition e_base (e : Z) : Z := Z.land e (u64 (Z.lnot 0xFFF)).
Definition e_base_large (e : Z) : Z := Z.land e (u64 (Z.lnot 0x1FFFFF)).

Section Paging.
Context {A : Type} `{!FrameAllocator A}.

Record vm : Type := {
  vmem : mem;
  vframes : A;
  kernel_cr3 : Z;
  g_lapic_base : Z
}.

Definition with_vmem (s : vm) (m : mem) : vm :=
  {| vmem := m; vframes := vframes s; kernel_cr3 := kernel_cr3 s; g_lapic_base := g_lapic_base s |}.
Definition with_vframes (s : vm) (a : A) : vm :=
  {| vmem := vmem s; vframes := a; kernel_cr3 := kernel_cr3 s; g_lapic_base := g_lapic_base s |}.
Definition with_lapic (s : vm) (b : Z) : vm :=
  {| vmem := vmem s; vframes := vframes s; kernel_cr3 := kernel_cr3 s; g_lapic_base := b |}.
Definition with_kernel (s : vm) (c : Z) : vm :=
  {| vmem := vmem s; vframes := vframes s; kernel_cr3 := c; g_lapic_base := g_lapic_base s |}.

Definition alloc_frame (s : vm) : Z * vm :=
  let '(p, a) := fa_alloc (vframes s) in (p, with_vframes s a).
Definition free_frame (p : Z) (s : vm) : vm := with_vframes s (fa_free p (vframes s)).
Definition zero_page (p : Z) (s : vm) : vm := with_vmem s (pmm_zero_page (vmem s) p).
Definition write_entry (t i e : Z) (s : vm) : vm := with_vmem s (set_entry (vmem s) t i e).

Definition paging_init (cr3 : Z) (s : vm) : vm := with_kernel s cr3.
Definition paging_kernel_cr3 (s : vm) : Z := kernel_cr3 s.

(** The table behind entry [i] of [t]: the one it points to, or a zeroed frame
    that is linked in; [None] when there is no frame. *)
Definition next_table (t i : Z) (s : vm) : option Z * vm :=
  if present (entry (vmem s) t i) then (Some (e_base (entry (vmem s) t i)), s)
  else
    let '(n, s) := alloc_frame s in
    if n =? 0 then (None, s)
    else (Some n, write_entry t i (Z.lor n 0x07) (zero_page n s)).

(** The page directory of [vaddr]: the two lookups both map functions start with. *)
Definition get_pd (cr3 vaddr : Z) (s : vm) : option Z * vm :=
  let '(pdpt, s) := next_table cr3 (PML4_IDX vaddr) s in
  match pdpt with
  | None => (None, s)
  | Some pdpt => next_table pdpt (PDPT_IDX vaddr) s
  end.

(** The page table of [vaddr] in directory [pd], unless the page is mapped. *)
Definition get_pt (pd vaddr : Z) (s : vm) : option Z * vm :=
  let e := entry (vmem s) pd (PD_IDX vaddr) in
  if present e && negb (is_large e) then
    if present (entry (vmem s) (e_base e) (PT_IDX vaddr)) then (None, s)
    else (Some (e_base e), s)
  else if present e then (None, s)
  else next_table pd (PD_IDX vaddr) s.

Definition paging_map (cr3 vaddr phys flags : Z) (s : vm) : bool * vm :=
  if (vaddr <? PAGING_USER_BASE) || truthy (Z.land vaddr 0xFFF) || truthy (Z.land phys 0xFFF)
  then (false, s)
  else
    let '(pd, s) := get_pd cr3 vaddr s in
    match pd with
    | None => (false, s)
    | Some pd =>
        let '(pt, s) := get_pt pd vaddr s in
        match pt with
        | None => (false, s)
        | Some pt =>
            (true, write_entry pt (PT_IDX vaddr)
                     (Z.lor (Z.lor (e_base phys) flags) PAGING_FLAG_PRESENT) s)
        end
    end.

Definition paging_map_large (cr3 vaddr phys flags : Z) (s : vm) : bool * vm :=
  if (vaddr <? PAGING_USER_BASE) || truthy (Z.land vaddr (PAGING_HUGE - 1)) ||
     truthy (Z.land phys (PAGING_HUGE - 1))
  then (false, s)
  else
    let '(pd, s) := get_pd cr3 vaddr s in
    match pd with
    | None => (false, s)
    | Some pd =>
        if present (entry (vmem s) pd (PD_IDX vaddr)) then (false, s)
        else
          (true, write_entry pd (PD_IDX vaddr)
                   (Z.lor (Z.lor (Z.lor (e_base_large phys) flags) PAGING_FLAG_LARGE)
                      PAGING_FLAG_PRESENT) s)
    end.

Definition paging_map_lapic (phys : Z) (s : vm) : vm :=
  if truthy (g_lapic_base s) then s
  else (paging_map_large (kernel_cr3 s) phys phys PAGING_FLAG_WRITABLE (with_lapic s phys)).2.

(** Filling the two fresh tables of a new address space: the kernel's root
    entries are cloned, then the first entry of each table is written. *)
Definition clone_root (pml4 : Z) (s : vm) : vm :=
  let kroot := kernel_cr3 s in
  for_do 1 512 (λ i s, write_entry pml4 i (entry (vmem s) kroot i) s) s.

Definition link_kernel_half (pml4 pdpt : Z) (s : vm) : vm :=
  let kpdpt := e_base (entry (vmem s) (kernel_cr3 s) 0) in
  let s := write_entry pdpt 0
             (Z.lor (Z.land (entry (vmem s) kpdpt 0) (u64 (Z.lnot 0x04))) 0x01) s in
  write_entry pml4 0 (Z.lor pdpt 0x07) s.

Definition build_space (pml4 pdpt : Z) (s : vm) : vm :=
  link_kernel_half pml4 pdpt (clone_root pml4 (zero_page pdpt (zero_page pml4 s))).

Definition paging_new_address_space (s : vm) : Z * vm :=
  let '(pml4, s) := alloc_frame s in
  let '(pdpt, s) := alloc_frame s in
  if (pml4 =? 0) || (pdpt =? 0) then
    let s := if truthy pml4 then free_frame pml4 s else s in
    let s := if truthy pdpt then free_frame pdpt s else s in
    (0, s)
  else
    let s := build_space pml4 pdpt s in
    let s := if truthy (g_lapic_base s)
             then (paging_map_large pml4 (g_lapic_base s) (g_lapic_base s) PAGING_FLAG_WRITABLE s).2
             else s in
    (pml4, s).

(** The 512 frames of a huge page. *)
Definition free_huge (base : Z) (s : vm) : vm :=
  for_do 0 512 (λ k s, free_frame (u64 (base + k * PAGING_PAGE)) s) s.

(** The frames a page table maps. *)
Definition free_pt (pt : Z) (s : vm) : vm :=
  for_do 0 512 (λ k s,
    if present (entry (vmem s) pt k) then free_frame (e_base (entry (vmem s) pt k)) s else s) s.

Definition free_pd_entry (pd j : Z) (s : vm) : vm :=
  let e := entry (vmem s) pd j in
  if negb (present e) then s
  else if is_large e then free_huge (e_base_large e) s
  else free_frame (e_base e) (free_pt (e_base e) s).

Definition free_pdpt_entry (pdpt i : Z) (s : vm) : vm :=
  let e := entry (vmem s) pdpt i in
  if negb (present e) then s
  else if truthy (g_lapic_base s) && (u32 i =? u32 (Z.shiftr (g_lapic_base s) 30)) then s
  else free_frame (e_base e) (for_do 0 512 (free_pd_entry (e_base e)) s).

Definition free_user_tree (cr3 : Z) (s : vm) : vm :=
  let pdpt := e_base (entry (vmem s) cr3 0) in
  let s := for_do 1 512 (free_pdpt_entry pdpt) s in
  free_frame cr3 (free_frame pdpt s).

Definition paging_free_address_space (cr3 : Z) (s : vm) : vm :=
  if (cr3 =? 0) || (cr3 =? kernel_cr3 s) then s else free_user_tree cr3 s.

(** A fresh frame with a copy of the page at [srcp], mapped at [vaddr]. *)
Definition clone_page (dst_cr3 vaddr srcp : Z) (s : vm) : vm + bool * vm :=
  let '(frame, s) := alloc_frame s in
  if frame =? 0 then inr (false, s)
  else
    let s := zero_page frame s in
    let s := with_vmem s (k_memcpy (vmem s) frame srcp PAGING_PAGE) in
    let '(ok, s) := paging_map dst_cr3 vaddr frame
                      (Z.lor PAGING_FLAG_USER PAGING_FLAG_WRITABLE) s in
    if ok then inl s else inr (false, s).

Definition clone_pd_entry (dst_cr3 a b spd c : Z) (s : vm) : vm + bool * vm :=
  let e := entry (vmem s) spd c in
  if negb (present e) then inl s
  else if negb (is_user e) then inl s
  else
    let base := Z.lor (Z.lor (Z.shiftl a 39) (Z.shiftl b 30)) (Z.shiftl c 21) in
    if base <? PAGING_USER_BASE then inl s
    else if is_large e then
      for_ 0 512 (λ k s,
        clone_page dst_cr3 (base + k * PAGING_PAGE) (e_base_large e + k * PAGING_PAGE) s) s
    else
      for_ 0 512 (λ k s,
        let pe := entry (vmem s) (e_base e) k in
        if negb (present pe) then inl s
        else if negb (is_user pe) then inl s
        else clone_page dst_cr3 (base + k * PAGING_PAGE) (e_base pe) s) s.

Definition paging_clone_user_space (src_cr3 dst_cr3 : Z) (s : vm) : bool * vm :=
  if (src_cr3 =? 0) || (dst_cr3 =? 0) then (false, s)
  else
    match for_ 0 512 (λ a s,
            let e4 := entry (vmem s) src_cr3 a in
            if negb (present e4) then inl s
            else for_ 0 512 (λ b s,
                   let e3 := entry (vmem s) (e_base e4) b in
                   if negb (present e3) then inl s
                   else for_ 0 512 (clone_pd_entry dst_cr3 a b (e_base e3)) s) s) s with
    | inl s => (true, s)
    | inr r => r
    end.

Definition paging_unmap (cr3 vaddr : Z) (s : vm) : vm :=
  if vaddr <? PAGING_USER_BASE then s
  else
    let e4 := entry (vmem s) cr3 (PML4_IDX vaddr) in
    if negb (present e4) then s
    else
      let e3 := entry (vmem s) (e_base e4) (PDPT_IDX vaddr) in
      if negb (present e3) then s
      else
        let pd := e_base e3 in
        let e2 := entry (vmem s) pd (PD_IDX vaddr) in
        if negb (present e2) then s
        else if is_large e2 then
          write_entry pd (PD_IDX vaddr) 0 (free_huge (e_base_large e2) s)
        else
          let pt := e_base e2 in
          let e1 := entry (vmem s) pt (PT_IDX vaddr) in
          if present e1
          then write_entry pt (PT_IDX vaddr) 0 (free_frame (e_base e1) s) else s.
End Paging.
Arguments vm : clear implicits.

Definition paging_translate (m : mem) (cr3 vaddr : Z) : Z :=
  let e4 := entry m cr3 (PML4_IDX vaddr) in
  if negb (present e4) then 0
  else
    let e3 := entry m (e_base e4) (PDPT_IDX vaddr) in
    if negb (present e3) then 0
    else
      let e2 := entry m (e_base e3) (PD_IDX vaddr) in
      if negb (present e2) then 0
      else if is_large e2 then u64 (e_base_large e2 + Z.land vaddr (PAGING_HUGE - 1))
      else
        let e1 := entry m (e_base e2) (PT_IDX vaddr) in
        if negb (present e1) then 0
        else u64 (e_base e1 + Z.land vaddr 0xFFF).

(** ** Entries and indices *)

Lemma e_base_div e : is_u64 e → e_base e = e / 4096 * 4096.
Proof. intros H. unfold e_base. change 0xFFF with (2 ^ 12 - 1). by rewrite round_down_mask by (done || lia). Qed.

Lemma e_base_large_div e : is_u64 e → e_base_large e = e / 2097152 * 2097152.
Proof. intros H. unfold e_base_large. change 0x1FFFFF with (2 ^ 21 - 1). by rewrite round_down_mask by (done || lia). Qed.

Lemma land_ones_mod x k : 0 ≤ k → Z.land x (2 ^ k - 1) = x mod 2 ^ k.
Proof. intros Hk. rewrite <- Z.land_ones by lia. by rewrite Z.ones_equiv, <- Z.sub_1_r. Qed.

Definition idx_ok (i : Z) : Prop := 0 ≤ i < 512.

Lemma idx_val a n : 0 ≤ n → Z.land (Z.shiftr a n) 0x1FF = (a / 2 ^ n) mod 512.
Proof.
  intros Hn. change 0x1FF with (2 ^ 9 - 1). rewrite land_ones_mod by lia.
  by rewrite Z.shiftr_div_pow2 by lia.
Qed.

Lemma idx_range a n : 0 ≤ n → idx_ok (Z.land (Z.shiftr a n) 0x1FF).
Proof. intros Hn. rewrite idx_val by lia. apply Z.mod_pos_bound. lia. Qed.

Lemma pml4_idx_ok a : idx_ok (PML4_IDX a). Proof. by apply idx_range. Qed.
Lemma pdpt_idx_ok a : idx_ok (PDPT_IDX a). Proof. by apply idx_range. Qed.
Lemma pd_idx_ok a : idx_ok (PD_IDX a). Proof. by apply idx_range. Qed.
Lemma pt_idx_ok a : idx_ok (PT_IDX a). Proof. by apply idx_range. Qed.
#[export] Hint Resolve pml4_idx_ok pdpt_idx_ok pd_idx_ok pt_idx_ok : kern.

(** Below 2^48 the four indices determine the page. *)
Lemma idx_page v w :
  0 ≤ v < 2 ^ 48 → 0 ≤ w < 2 ^ 48 →
  PML4_IDX v = PML4_IDX w → PDPT_IDX v = PDPT_IDX w → PD_IDX v = PD_IDX w →
  PT_IDX v = PT_IDX w → v / 4096 = w / 4096.
Proof.
  unfold PML4_IDX, PDPT_IDX, PD_IDX, PT_IDX. rewrite !idx_val by lia. simpl (2 ^ _).
  intros. dlia.
Qed.

Lemma page_idx v w :
  v / 4096 = w / 4096 →
  PML4_IDX v = PML4_IDX w ∧ PDPT_IDX v = PDPT_IDX w ∧ PD_IDX v = PD_IDX w ∧ PT_IDX v = PT_IDX w.
Proof.
  intros E. unfold PML4_IDX, PDPT_IDX, PD_IDX, PT_IDX. rewrite !idx_val by lia.
  assert (∀ q, 0 < q → v / (4096 * q) = w / (4096 * q)) as H.
  { intros q Hq. by rewrite <- !Z.div_div, E by lia. }
  pose proof (H 134217728 ltac:(lia)). pose proof (H 262144 ltac:(lia)).
  pose proof (H 512 ltac:(lia)).
  change (2 ^ 39) with (4096 * 134217728). change (2 ^ 30) with (4096 * 262144).
  change (2 ^ 21) with (4096 * 512). change (2 ^ 12) with 4096. split_and!; congruence.
Qed.

(** ** Walking the tree *)

(** Does an entry of a table of level [lvl] (4 = PML4, ..., 2 = PD) point to a table? *)
Definition is_table (lvl : nat) (e : Z) : bool :=
  present e && negb (Nat.eqb lvl 2 && is_large e).

Fixpoint walk (m : mem) (t : Z) (lvl : nat) (p : list Z) : option Z :=
  match p with
  | [] => Some t
  | i :: p => if is_table lvl (entry m t i) then walk m (e_base (entry m t i)) (lvl - 1) p else None
  end.

Lemma walk_app m t lvl p q :
  walk m t lvl (p ++ q) = match walk m t lvl p with
                          | Some u => walk m u (lvl - length p) q
                          | None => None
                          end.
Proof.
  revert t lvl; induction p as [|i p IH]; intros t lvl; simpl.
  - by rewrite Nat.sub_0_r.
  - destruct (is_table _ _); [|done]. rewrite IH. by rewrite <- Nat.sub_add_distr.
Qed.

Definition path_ok (p : list Z) : Prop := Forall idx_ok p ∧ (length p ≤ 3)%nat.

Record tree_ok (m : mem) (cr3 : Z) : Prop := {
  tree_inj : ∀ p q t, path_ok p → path_ok q →
    walk m cr3 4 p = Some t → walk m cr3 4 q = Some t → p = q;
  tree_page : ∀ p t, path_ok p → walk m cr3 4 p = Some t → t mod 4096 = 0
}.

(** The bytes of the table page [t]. *)
Definition in_page (t x : Z) : Prop := t ≤ x < t + 4096.

Lemma in_page_entry t i x : idx_ok i → t + 8 * i ≤ x < t + 8 * i + 8 → in_page t x.
Proof. unfold idx_ok, in_page. lia. Qed.

Lemma pages_disjoint t u x :
  t mod 4096 = 0 → u mod 4096 = 0 → in_page t x → in_page u x → t = u.
Proof. unfold in_page. dlia. Qed.

Lemma entry_ext m m' t i :
  idx_ok i → (∀ x, in_page t x → m' x = m x) → entry m' t i = entry m t i.
Proof. intros Hi H. apply load64_ext. intros x Hx. apply H. by eapply in_page_entry. Qed.

(** A walk only depends on the pages of the tables strictly above its end. *)
Lemma walk_ext m m' t lvl p :
  Forall idx_ok p →
  (∀ q i r u, p = q ++ i :: r → walk m t lvl q = Some u → entry m' u i = entry m u i) →
  walk m' t lvl p = walk m t lvl p.
Proof.
  intros Hp. revert t lvl. induction Hp as [|i p Hi Hp IH]; intros t lvl H; simpl; [done|].
  rewrite (H [] i p t) by done. destruct (is_table _ _) eqn:E; [|done].
  apply IH. intros q j r u -> Hw. apply (H (i :: q) j r); [done|]. simpl. by rewrite E.
Qed.

Lemma path_ok_app p q : path_ok (p ++ q) → path_ok p.
Proof. intros [H1 H2]. apply Forall_app in H1 as [? _]. rewrite length_app in H2. split; [done|lia]. Qed.

(** Changing memory outside all table pages changes no walk. *)
Lemma walk_outside m m' cr3 p :
  path_ok p →
  (∀ q t, path_ok q → walk m cr3 4 q = Some t → ∀ x, in_page t x → m' x = m x) →
  walk m' cr3 4 p = walk m cr3 4 p.
Proof.
  intros Hp H. apply walk_ext; [apply Hp|]. intros q i r u -> Hw.
  apply entry_ext; [|by eapply H; [eapply path_ok_app|]].
  destruct Hp as [Hp _]. apply Forall_app in Hp as [_ Hp]. by apply Forall_cons in Hp as [? _].
Qed.

Lemma entry_set_ne m t i e u j :
  t mod 4096 = 0 → u mod 4096 = 0 → idx_ok i → idx_ok j → ¬ (u = t ∧ j = i) →
  entry (set_entry m t i e) u j = entry m u j.
Proof.
  unfold idx_ok. intros Ht Hu Hi Hj Hne. apply load64_store64_ne.
  destruct (decide (u = t)) as [->|]; [assert (j ≠ i) by tauto; lia|]. dlia.
Qed.

Lemma entry_set_eq m t i e : is_u64 e → entry (set_entry m t i e) t i = e.
Proof. apply load64_store64_eq. Qed.

(** Writing an entry of the table at path [p0] leaves the walks that do not go
    through that entry. *)
Lemma walk_set_other m cr3 p0 t0 i0 e p :
  tree_ok m cr3 → path_ok p0 → idx_ok i0 → walk m cr3 4 p0 = Some t0 → path_ok p →
  (∀ r, p ≠ p0 ++ i0 :: r) →
  walk (set_entry m t0 i0 e) cr3 4 p = walk m cr3 4 p.
Proof.
  intros Hok Hp0 Hi0 Hw0 Hp Hne. apply walk_ext; [apply Hp|]. intros q i r u -> Hw.
  pose proof (path_ok_app _ _ Hp) as Hq. destruct Hp as [Hp _].
  apply Forall_app in Hp as [_ Hp]. apply Forall_cons in Hp as [Hi _].
  apply entry_set_ne; [by apply (tree_page m cr3 Hok p0)|by apply (tree_page m cr3 Hok q)|done|done|].
  intros [-> ->]. rewrite (tree_inj m cr3 Hok q p0 t0) in Hne by done. by apply (Hne r).
Qed.

Lemma path_through (p p0 : list Z) i : (∃ r, p = p0 ++ i :: r) ∨ ∀ r, p ≠ p0 ++ i :: r.
Proof.
  destruct (decide ((p0 ++ [i]) `prefix_of` p)) as [[r ->]|Hno].
  - left. exists r. by rewrite <- app_assoc.
  - right. intros r ->. apply Hno. exists r. by rewrite <- app_assoc.
Qed.

(** If the entry is no table pointer before and after, no walk changes. *)
Lemma walk_set_leaf m cr3 p0 t0 i0 e p :
  tree_ok m cr3 → path_ok p0 → idx_ok i0 → walk m cr3 4 p0 = Some t0 → path_ok p → is_u64 e →
  (length p0 = 3%nat ∨
   is_table (4 - length p0) (entry m t0 i0) = false ∧ is_table (4 - length p0) e = false) →
  walk (set_entry m t0 i0 e) cr3 4 p = walk m cr3 4 p.
Proof.
  intros Hok Hp0 Hi0 Hw0 Hp He Hl.
  destruct (path_through p p0 i0) as [[r Ep]|Hno]; [|by apply (walk_set_other m cr3 p0)].
  destruct Hl as [Hl|[H1 H2]].
  { exfalso. destruct Hp as [_ Hp]. rewrite Ep, length_app in Hp. simpl in Hp. lia. }
  rewrite Ep, !walk_app, Hw0. rewrite (walk_set_other m cr3 p0), Hw0; try done.
  2:{ intros r0 Hr. apply (f_equal length) in Hr. rewrite length_app in Hr. simpl in Hr. lia. }
  simpl. rewrite entry_set_eq by done. by rewrite H1, H2.
Qed.

Lemma is_u64_lor a b : is_u64 a → is_u64 b → is_u64 (Z.lor a b).
Proof. unfold is_u64. change 18446744073709551616 with (2 ^ 64). by apply lor_lt_pow2. Qed.

Lemma e_base_lor p f :
  is_u64 p → p mod 4096 = 0 → 0 ≤ f < 4096 → e_base (Z.lor p f) = p.
Proof.
  intros Hp Hm Hf. assert (is_u64 f) by (unfold is_u64; lia).
  rewrite e_base_div by (by apply is_u64_lor). change 4096 with (2 ^ 12).
  rewrite lor_low_div by lia. change (2 ^ 12) with 4096. dlia.
Qed.

Lemma present_testbit e : present e = Z.testbit e 0.
Proof. apply truthy_land_1. Qed.
Lemma is_large_testbit e : is_large e = Z.testbit e 7.
Proof. unfold is_large, PAGING_FLAG_LARGE. change 0x080 with (2 ^ 7). by apply truthy_land_pow2. Qed.
Lemma is_user_testbit e : is_user e = Z.testbit e 2.
Proof. unfold is_user, PAGING_FLAG_USER. change 0x004 with (2 ^ 2). by apply truthy_land_pow2. Qed.

(** The entry that links a table in. *)
Lemma link_entry n :
  is_u64 n → n mod 4096 = 0 →
  is_u64 (Z.lor n 0x07) ∧ present (Z.lor n 0x07) = true ∧ is_large (Z.lor n 0x07) = false ∧
  e_base (Z.lor n 0x07) = n.
Proof.
  intros Hn Hm. split; [apply is_u64_lor; unfold is_u64; done || lia|].
  rewrite present_testbit, is_large_testbit, !Z.lor_spec.
  split; [by rewrite orb_true_r|]. split; [|apply e_base_lor; done || lia].
  rewrite (testbit_aligned n 12 7) by done. done.
Qed.

(** ** Translation through the tree *)

Definition full_path (v : Z) : list Z := [PML4_IDX v; PDPT_IDX v; PD_IDX v; PT_IDX v].

(** The walk of an address to its page directory and page table. *)
Definition pd_path (v : Z) : list Z := [PML4_IDX v; PDPT_IDX v].
Definition pt_path (v : Z) : list Z := [PML4_IDX v; PDPT_IDX v; PD_IDX v].

Lemma pd_path_ok v : path_ok (pd_path v).
Proof. split; [repeat constructor; apply idx_range; lia|simpl; lia]. Qed.
Lemma pt_path_ok v : path_ok (pt_path v).
Proof. split; [repeat constructor; apply idx_range; lia|simpl; lia]. Qed.
Lemma nil_path_ok : path_ok [].
Proof. split; [constructor|simpl; lia]. Qed.
Lemma pml4_path_ok v : path_ok [PML4_IDX v].
Proof. split; [repeat constructor; apply idx_range; lia|simpl; lia]. Qed.
#[export] Hint Resolve pd_path_ok pt_path_ok nil_path_ok pml4_path_ok : kern.

(** The leaf entry that maps [v]: an entry of a page table, or (with [true]) a
    huge-page entry of a page directory. *)
Definition leaf (m : mem) (cr3 v : Z) : option (bool * Z) :=
  let e4 := entry m cr3 (PML4_IDX v) in
  if negb (present e4) then None
  else
    let e3 := entry m (e_base e4) (PDPT_IDX v) in
    if negb (present e3) then None
    else
      let e2 := entry m (e_base e3) (PD_IDX v) in
      if negb (present e2) then None
      else if is_large e2 then Some (true, e2)
      else
        let e1 := entry m (e_base e2) (PT_IDX v) in
        if negb (present e1) then None else Some (false, e1).

(** The address a leaf entry gives. *)
Definition leaf_addr (l : option (bool * Z)) (v : Z) : Z :=
  match l with
  | None => 0
  | Some (true, e) => u64 (e_base_large e + Z.land v (PAGING_HUGE - 1))
  | Some (false, e) => u64 (e_base e + Z.land v 0xFFF)
  end.

Lemma translate_leaf m cr3 v : paging_translate m cr3 v = leaf_addr (leaf m cr3 v) v.
Proof. unfold paging_translate, leaf. repeat (split_if; simpl; try done). Qed.

(** A leaf only depends on the entries on the path of the address. *)
Lemma leaf_ext m m' cr3 v :
  (∀ q j r u, full_path v = q ++ j :: r → walk m cr3 4 q = Some u →
              entry m' u j = entry m u j) →
  leaf m' cr3 v = leaf m cr3 v.
Proof.
  intros H. unfold leaf. rewrite (H [] _ _ cr3) by done.
  destruct (present (entry m cr3 (PML4_IDX v))) eqn:E4; simpl; [|done].
  set (t3 := e_base (entry m cr3 (PML4_IDX v))).
  assert (walk m cr3 4 [PML4_IDX v] = Some t3) as W3
    by (simpl; unfold is_table; simpl; by rewrite andb_true_r, E4).
  rewrite (H [_] _ _ t3) by done.
  destruct (present (entry m t3 (PDPT_IDX v))) eqn:E3; simpl; [|done].
  set (t2 := e_base (entry m t3 (PDPT_IDX v))).
  assert (walk m cr3 4 [PML4_IDX v; PDPT_IDX v] = Some t2) as W2.
  { simpl. unfold is_table; simpl. rewrite !andb_true_r, E4. fold t3. by rewrite E3. }
  rewrite (H [_; _] _ _ t2) by done.
  destruct (present (entry m t2 (PD_IDX v))) eqn:E2; simpl; [|done].
  destruct (is_large (entry m t2 (PD_IDX v))) eqn:EL; [done|].
  set (t1 := e_base (entry m t2 (PD_IDX v))).
  assert (walk m cr3 4 [PML4_IDX v; PDPT_IDX v; PD_IDX v] = Some t1) as W1.
  { change ([PML4_IDX v; PDPT_IDX v; PD_IDX v]) with ([PML4_IDX v; PDPT_IDX v] ++ [PD_IDX v]).
    rewrite walk_app, W2. simpl. unfold is_table. by rewrite E2, EL. }
  by rewrite (H [_; _; _] _ _ t1) by done.
Qed.

(** The leaf of an address whose page table or page directory is known. *)
Lemma leaf_pd m cr3 v pd :
  walk m cr3 4 (pd_path v) = Some pd →
  leaf m cr3 v =
  let e2 := entry m pd (PD_IDX v) in
  if negb (present e2) then None
  else if is_large e2 then Some (true, e2)
  else
    let e1 := entry m (e_base e2) (PT_IDX v) in
    if negb (present e1) then None else Some (false, e1).
Proof.
  unfold pd_path, leaf. simpl. unfold is_table. simpl. rewrite !andb_true_r.
  destruct (present (entry m cr3 _)); simpl; [|done].
  destruct (present (entry m _ (PDPT_IDX v))); simpl; [|done].
  by intros [= ->].
Qed.

Lemma leaf_pt m cr3 v pt :
  walk m cr3 4 (pt_path v) = Some pt →
  leaf m cr3 v =
  let e1 := entry m pt (PT_IDX v) in
  if negb (present e1) then None else Some (false, e1).
Proof.
  change (pt_path v) with (pd_path v ++ [PD_IDX v]). rewrite walk_app.
  destruct (walk m cr3 4 (pd_path v)) as [pd|] eqn:W; [|done].
  rewrite (leaf_pd m cr3 v pd W). simpl. unfold is_table. simpl.
  destruct (present (entry m pd (PD_IDX v))); simpl; [|done].
  destruct (is_large (entry m pd (PD_IDX v))); simpl; [done|]. by intros [= ->].
Qed.

(** Writing an entry off the path of [v] does not change its leaf. *)
Lemma leaf_set_other m cr3 p0 t0 i0 e v :
  tree_ok m cr3 → path_ok p0 → idx_ok i0 → walk m cr3 4 p0 = Some t0 →
  (∀ r, full_path v ≠ p0 ++ i0 :: r) →
  leaf (set_entry m t0 i0 e) cr3 v = leaf m cr3 v.
Proof.
  intros Hok Hp0 Hi0 Hw0 Hne. apply leaf_ext. intros q j r u E Hw.
  assert (Forall idx_ok (full_path v)) as Hf by (repeat constructor; apply idx_range; lia).
  assert (length (full_path v) = 4%nat) as Hlen by done.
  rewrite E in Hf, Hlen. rewrite length_app in Hlen. simpl in Hlen.
  apply Forall_app in Hf as [Hq Hf]. apply Forall_cons in Hf as [Hj _].
  assert (path_ok q) as Hqok by (split; [done|lia]).
  apply entry_set_ne; [by apply (tree_page m cr3 Hok p0)|by apply (tree_page m cr3 Hok q)|done|done|].
  intros [-> ->]. rewrite (tree_inj m cr3 Hok q p0 t0) in E by done. by apply (Hne r).
Qed.

Lemma leaf_none m cr3 v q j r u :
  full_path v = q ++ j :: r → walk m cr3 4 q = Some u → present (entry m u j) = false →
  leaf m cr3 v = None.
Proof.
  unfold full_path. intros E W Hp. unfold leaf.
  destruct q as [|a [|b [|c [|d q]]]]; simplify_eq/=; unfold is_table in *; simpl in *;
    rewrite ?andb_true_r in *; simplify_eq.
  - by rewrite Hp.
  - destruct (present (entry m cr3 _)); simplify_eq/=. by rewrite Hp.
  - destruct (present (entry m cr3 _)); simplify_eq/=.
    destruct (present (entry m _ (PDPT_IDX v))); simplify_eq/=. by rewrite Hp.
  - destruct (present (entry m cr3 _)); simplify_eq/=.
    destruct (present (entry m _ (PDPT_IDX v))); simplify_eq/=.
    destruct (present (entry m _ (PD_IDX v))); simplify_eq/=.
    destruct (is_large (entry m _ (PD_IDX v))); simplify_eq/=. by rewrite Hp.
  - by destruct q.
Qed.

(** ** Linking a fresh table in *)

Lemma zero_page_out m n x : ¬ in_page n x → pmm_zero_page m n x = m x.
Proof.
  unfold in_page, pmm_zero_page. intros H. destruct (truthy n); [|done].
  rewrite k_memset_at. unfold PMM_FRAME_SIZE. split_if; [lia|done].
Qed.

Lemma mem_ok_zero_page m n : mem_ok m → mem_ok (pmm_zero_page m n).
Proof. intros Hm. unfold pmm_zero_page. destruct (truthy n); [by apply mem_ok_memset|done]. Qed.

Lemma zero_page_entry m n j : n ≠ 0 → idx_ok j → entry (pmm_zero_page m n) n j = 0.
Proof.
  intros Hn Hj. apply load64_zero. intros x Hx. unfold pmm_zero_page.
  replace (truthy n) with true by (unfold truthy; lia). rewrite k_memset_at.
  unfold PMM_FRAME_SIZE, idx_ok in *. split_if; [done|lia].
Qed.

Lemma tree_ok_walks m m' cr3 :
  (∀ p, path_ok p → walk m' cr3 4 p = walk m cr3 4 p) → tree_ok m cr3 → tree_ok m' cr3.
Proof.
  intros E [Hi Hp]. split.
  - intros p q t Hp1 Hq1. rewrite !E by done. by apply Hi.
  - intros p t Hp1. rewrite E by done. by apply Hp.
Qed.

Section Link.
Context (m : mem) (cr3 : Z) (p0 : list Z) (t0 i0 n : Z).
Context (Hok : tree_ok m cr3) (Hp0 : path_ok p0) (Hlen : (length p0 ≤ 2)%nat).
Context (Hw0 : walk m cr3 4 p0 = Some t0) (Hi0 : idx_ok i0).
Context (Habs : present (entry m t0 i0) = false).
Context (Hn : 0 < n) (Hnu : is_u64 n) (Hn4 : n mod 4096 = 0).
Context (Hfresh : ∀ q t, path_ok q → walk m cr3 4 q = Some t → t ≠ n).
Let mz := pmm_zero_page m n.
Let m' := set_entry mz t0 i0 (Z.lor n 0x07).

Lemma zeroed_same t x q : path_ok q → walk m cr3 4 q = Some t → in_page t x → mz x = m x.
Proof.
  intros Hq Hw Hx. apply zero_page_out. intros Hnx. apply (Hfresh q t Hq Hw).
  apply (pages_disjoint t n x); try done. by apply (tree_page m cr3 Hok q).
Qed.

Lemma zeroed_walk p : path_ok p → walk mz cr3 4 p = walk m cr3 4 p.
Proof. intros Hp. apply walk_outside; [done|]. intros q t Hq Hw x Hx. by eapply zeroed_same. Qed.

Lemma zeroed_ok : tree_ok mz cr3.
Proof. eapply tree_ok_walks; [apply zeroed_walk|done]. Qed.

Lemma zeroed_leaf v : leaf mz cr3 v = leaf m cr3 v.
Proof.
  apply leaf_ext. intros q j r u E Hw.
  assert (Forall idx_ok (full_path v)) as Hf by (repeat constructor; apply idx_range; lia).
  assert (length (full_path v) = 4%nat) as Hl by done.
  rewrite E in Hf, Hl. rewrite length_app in Hl. simpl in Hl.
  apply Forall_app in Hf as [Hq Hf]. apply Forall_cons in Hf as [Hj _].
  apply entry_ext; [done|]. intros x Hx. eapply (zeroed_same u); [|done|done]. split; [done|lia].
Qed.

Lemma fresh_entry j : idx_ok j → entry m' n j = 0.
Proof.
  intros Hj. unfold m'. rewrite entry_set_ne; try done.
  - apply zero_page_entry; [lia|done].
  - by apply (tree_page m cr3 Hok p0).
  - intros [E _]. by apply (Hfresh p0 t0).
Qed.

Lemma linked_walk_p0 : walk m' cr3 4 (p0 ++ [i0]) = Some n.
Proof.
  destruct (link_entry n Hnu Hn4) as (Hu & Hpr & Hla & Hba).
  rewrite walk_app. unfold m'. rewrite (walk_set_other mz cr3 p0); try done.
  - rewrite zeroed_walk, Hw0 by done. simpl. rewrite entry_set_eq by done.
    unfold is_table. rewrite Hpr, Hla, Hba, andb_false_r. done.
  - apply zeroed_ok.
  - by rewrite zeroed_walk.
  - intros r E. apply (f_equal length) in E. rewrite length_app in E. simpl in E. lia.
Qed.

Lemma linked_walk p :
  path_ok p →
  walk m' cr3 4 p = if decide (p = p0 ++ [i0]) then Some n else walk m cr3 4 p.
Proof.
  intros Hp. destruct (path_through p p0 i0) as [[r ->]|Hno].
  - destruct r as [|j r]; [rewrite decide_True by done; apply linked_walk_p0|].
    rewrite decide_False by (intros E; apply app_inv_head in E; done).
    assert (idx_ok j) as Hj.
    { destruct Hp as [Hp _]. apply Forall_app in Hp as [_ Hp].
      apply Forall_cons in Hp as [_ Hp]. by apply Forall_cons in Hp as [? _]. }
    transitivity (@None Z).
    + replace (p0 ++ i0 :: j :: r) with ((p0 ++ [i0]) ++ j :: r) by (by rewrite <- app_assoc).
      rewrite walk_app, linked_walk_p0. simpl. by rewrite fresh_entry.
    + rewrite walk_app, Hw0. simpl. unfold is_table. by rewrite Habs.
  - rewrite decide_False by (intros ->; by apply (Hno [])). rewrite <- zeroed_walk by done.
    apply (walk_set_other mz cr3 p0); try done; [apply zeroed_ok|by rewrite zeroed_walk].
Qed.

Lemma linked_ok : tree_ok m' cr3.
Proof.
  split.
  - intros p q t Hp Hq. rewrite !linked_walk by done.
    destruct (decide (p = _)) as [->|], (decide (q = _)) as [->|]; [done| | |by apply (tree_inj m cr3 Hok)].
    + intros [= <-] Hw. by destruct (Hfresh q n).
    + intros Hw [= <-]. by destruct (Hfresh p n).
  - intros p t Hp. rewrite linked_walk by done. destruct (decide _); [by intros [= <-]|].
    by apply (tree_page m cr3 Hok).
Qed.

Lemma linked_leaf v : leaf m' cr3 v = leaf m cr3 v.
Proof.
  destruct (path_through (full_path v) p0 i0) as [[r E]|Hno].
  - destruct r as [|j r].
    { apply (f_equal length) in E. rewrite length_app in E. simpl in E. lia. }
    assert (Forall idx_ok (full_path v)) as Hf by (repeat constructor; apply idx_range; lia).
    rewrite E in Hf. apply Forall_app in Hf as [_ Hf]. apply Forall_cons in Hf as [_ Hf].
    apply Forall_cons in Hf as [Hj _].
    rewrite (leaf_none m cr3 v p0 i0 (j :: r) t0) by done.
    apply (leaf_none m' cr3 v (p0 ++ [i0]) j r n).
    + by rewrite <- app_assoc.
    + apply linked_walk_p0.
    + by rewrite fresh_entry.
  - rewrite <- zeroed_leaf. apply (leaf_set_other mz cr3 p0); try done.
    + apply zeroed_ok.
    + by rewrite zeroed_walk.
Qed.
End Link.

(** ** The operations keep the tree *)

(** Paths below entry 0 of the second level: the tables of the kernel's first GiB,
    which every address space shares. *)
Definition half (p : list Z) : bool :=
  match p with i :: j :: _ => (i =? 0) && (j =? 0) | _ => false end.

Lemma low_idx v : 0 ≤ v < 2 ^ 48 → v < PAGING_USER_BASE ↔ PML4_IDX v = 0 ∧ PDPT_IDX v = 0.
Proof.
  intros Hv. unfold PML4_IDX, PDPT_IDX, PAGING_USER_BASE. rewrite !idx_val by lia.
  change (2 ^ 48) with 281474976710656 in Hv. change (2 ^ 39) with 549755813888.
  change (2 ^ 30) with 1073741824. dlia.
Qed.

Lemma half_user v r : PAGING_USER_BASE ≤ v < 2 ^ 48 → half (pd_path v ++ r) = false.
Proof.
  intros Hv. change (half (pd_path v ++ r)) with ((PML4_IDX v =? 0) && (PDPT_IDX v =? 0)).
  assert (0 ≤ v < 2 ^ 48) as Hv0 by (unfold PAGING_USER_BASE in Hv; lia). pose proof (low_idx v Hv0) as Hl.
  destruct (Z.eqb_spec (PML4_IDX v) 0), (Z.eqb_spec (PDPT_IDX v) 0); try done. tauto || (assert (v < PAGING_USER_BASE) by tauto; lia).
Qed.

Lemma half_app p q : half (p ++ q) = false → half p = false.
Proof. destruct p as [|i [|j p]]; done. Qed.


Section VmProofs.
Context {A : Type} `{!FrameAllocator A, !FrameAllocatorOk A}.
Implicit Types s : vm A.

Definition vm_ok s (cr3 : Z) : Prop :=
  tree_ok (vmem s) cr3 ∧ fa_ok (vframes s) ∧
  ∀ p t, path_ok p → walk (vmem s) cr3 4 p = Some t → ¬ fa_avail (vframes s) (t / 4096).

(** Entries that are in use stay as they are. *)
Definition keeps_entries (cr3 : Z) s s' : Prop :=
  ∀ p t i, path_ok p → idx_ok i → walk (vmem s) cr3 4 p = Some t →
    present (entry (vmem s) t i) = true → entry (vmem s') t i = entry (vmem s) t i.

(** Tables of [s'] are tables of [s] or were free frames, and those of [s] stay;
    bytes stay bytes, the kernel's root and the APIC address stay, and so does every
    mapping. *)
Definition new_tables (cr3 : Z) s s' : Prop :=
  (∀ p t, path_ok p → walk (vmem s') cr3 4 p = Some t →
     walk (vmem s) cr3 4 p = Some t ∨ fa_avail (vframes s) (t / 4096)) ∧
  (mem_ok (vmem s) → mem_ok (vmem s')) ∧
  kernel_cr3 s' = kernel_cr3 s ∧ g_lapic_base s' = g_lapic_base s ∧
  (∀ p t, path_ok p → walk (vmem s) cr3 4 p = Some t → walk (vmem s') cr3 4 p = Some t) ∧
  ∀ v, PAGING_USER_BASE ≤ v < 2 ^ 48 → leaf (vmem s) cr3 v ≠ None → leaf (vmem s') cr3 v = leaf (vmem s) cr3 v.

Lemma new_tables_refl cr3 s : new_tables cr3 s s.
Proof. split; [|done]. by left. Qed.

Lemma new_tables_trans cr3 s1 s2 s3 :
  (∀ g, fa_avail (vframes s2) g → fa_avail (vframes s1) g) →
  new_tables cr3 s1 s2 → new_tables cr3 s2 s3 → new_tables cr3 s1 s3.
Proof.
  intros Ha (Hn & Hb & ? & ? & ? & Hl) (Hn' & Hb' & ? & ? & ? & Hl').
  split; [|split; [auto|split; [congruence|split; [congruence|split; [auto|]]]]].
  2:{ intros v Hv Hne. pose proof (Hl v Hv Hne) as E. rewrite Hl'; [done|done|]. by rewrite E. }
  intros p t Hp Hw.
  destruct (Hn' p t Hp Hw) as [Hw2|]; [by apply Hn|right; auto].
Qed.

(** From [s] to [s'] only empty tables were added, out of free frames: every
    address keeps its leaf and memory outside the tables is unchanged. *)
Definition grows (cr3 : Z) s s' : Prop :=
  vm_ok s' cr3 ∧
  (∀ v, leaf (vmem s') cr3 v = leaf (vmem s) cr3 v) ∧
  (∀ p t, path_ok p → walk (vmem s) cr3 4 p = Some t → walk (vmem s') cr3 4 p = Some t) ∧
  (∀ x, (∀ p t, path_ok p → half p = false → walk (vmem s') cr3 4 p = Some t → ¬ in_page t x) →
        vmem s' x = vmem s x) ∧
  (∀ g, fa_avail (vframes s') g → fa_avail (vframes s) g) ∧
  kernel_cr3 s' = kernel_cr3 s ∧ g_lapic_base s' = g_lapic_base s ∧ keeps_entries cr3 s s' ∧
  new_tables cr3 s s'.

Lemma grows_refl cr3 s : vm_ok s cr3 → grows cr3 s s.
Proof. intros H. repeat (split; [done|]). apply new_tables_refl. Qed.

Lemma grows_trans cr3 s1 s2 s3 : grows cr3 s1 s2 → grows cr3 s2 s3 → grows cr3 s1 s3.
Proof.
  intros (_ & Hl & Hw & Hm & Ha & Hk & Hg & He & Hn) (Hok' & Hl' & Hw' & Hm' & Ha' & Hk' & Hg' & He' & Hn').
  split; [done|]. split; [intros v; by rewrite Hl', Hl|]. split; [auto|].
  split; [|split; [auto|split; [congruence|split; [congruence|split; [|by eapply new_tables_trans]]]]].
  2:{ intros p t i Hp Hi Hwp Hpr. pose proof (He p t i Hp Hi Hwp Hpr) as E.
      rewrite (He' p t i); [done|done|done|by apply Hw|by rewrite E]. } intros x Hx. rewrite Hm' by done. apply Hm.
  intros p t Hp Hh Hwp. apply (Hx p); auto.
Qed.

(** At most [k] frames are left (or frame 0 counts as free, see [few]). *)
Definition starved (k : nat) s : Prop := few k (vframes s).
Definition takes (k : nat) s s' : Prop := took k (vframes s) (vframes s').

(** The allocation that failed last found nothing. *)
Definition runs_out (k : nat) s s' : Prop := starved k s ∧ drained (vframes s) (vframes s').

Lemma runs_out_from cr3 j k s s1 s2 : grows cr3 s s1 → takes j s s1 → runs_out k s1 s2 → runs_out (j + k) s s2.
Proof.
  intros (_ & _ & _ & _ & Ha & _) Ht [Hs Hd]. split; [by apply (took_few _ _ _ _ Ht)|by eapply drained_from].
Qed.

Lemma runs_out_le j k s s' : (j ≤ k)%nat → runs_out j s s' → runs_out k s s'.
Proof. intros Hjk [Hs Hd]. split; [by apply (few_le j)|done]. Qed.

Lemma vm_frames_grow cr3 s a :
  vm_ok s cr3 → fa_ok a → (∀ g, fa_avail a g → fa_avail (vframes s) g) →
  grows cr3 s (with_vframes s a).
Proof.
  intros (Ht & Hf & Hap) Ha Hav. split; [split; [done|split; [done|]]|]; simpl.
  - intros p t Hp Hw Hg. by eapply Hap, Hav.
  - repeat (split; [done|]). split; [|done]. by left.
Qed.

Lemma next_table_spec s cr3 p0 t0 i0 :
  vm_ok s cr3 → path_ok p0 → (length p0 ≤ 2)%nat → walk (vmem s) cr3 4 p0 = Some t0 →
  idx_ok i0 → half (p0 ++ [i0]) = false →
  (present (entry (vmem s) t0 i0) = true → is_table (4 - length p0) (entry (vmem s) t0 i0) = true) →
  let r := next_table t0 i0 s in
  grows cr3 s r.2 ∧ takes 1 s r.2 ∧
  match r.1 with
  | None => runs_out 0 s r.2
  | Some t => walk (vmem r.2) cr3 4 (p0 ++ [i0]) = Some t ∧
              (present (entry (vmem s) t0 i0) = false → ∀ j, idx_ok j → entry (vmem r.2) t j = 0)
  end.
Proof.
  intros Hok Hp0 Hlen Hw0 Hi0 Hhf Htab. unfold next_table.
  destruct (present (entry (vmem s) t0 i0)) eqn:E.
  { simpl. split; [by apply grows_refl|]. split; [by apply (took_le 0), took_refl; lia|]. split; [|done]. rewrite walk_app, Hw0. simpl.
    by rewrite Htab. }
  pose proof Hok as (Htree & Hfa & Hap). unfold alloc_frame.
  pose proof (fa_alloc_spec (vframes s) Hfa) as (Hfa' & Hsub & _).
  pose proof (fa_alloc_aligned (vframes s) Hfa) as Hal. pose proof (alloc_took (vframes s) Hfa) as Htk.
  pose proof (alloc_few (vframes s) Hfa) as Hfew. pose proof (alloc_drained (vframes s) Hfa) as Hdr.
  destruct (fa_alloc (vframes s)) as [n a] eqn:Ea. simpl in *.
  destruct (Z.eqb_spec n 0) as [->|Hn].
  { simpl. split; [by apply vm_frames_grow|]. split; [exact Htk|]. split; [by apply Hfew|by apply Hdr]. }
  destruct (Hal Hn) as (Hn4 & Hnr & Hav & Hnav). unfold PMM_MAX_PHYS in Hnr.
  assert (is_u64 n) as Hnu by (unfold is_u64; lia).
  assert (∀ q t, path_ok q → walk (vmem s) cr3 4 q = Some t → t ≠ n) as Hfresh.
  { intros q t Hq Hw ->. by apply (Hap q n). }
  assert (0 < n) as Hn0 by lia. simpl.
  pose proof (linked_walk (vmem s) cr3 p0 t0 i0 n Htree Hp0 Hlen Hw0 Hi0 E Hn0 Hnu Hn4 Hfresh) as Hwalk.
  assert (∀ p t, path_ok p → walk (vmem s) cr3 4 p = Some t →
    walk (set_entry (pmm_zero_page (vmem s) n) t0 i0 (Z.lor n 7)) cr3 4 p = Some t) as Hmono.
  { intros p t Hp Hw. rewrite Hwalk by done. destruct (decide _) as [->|]; [|done].
    rewrite walk_app, Hw0 in Hw. simpl in Hw. unfold is_table in Hw. by rewrite E in Hw. }
  split; [split; [split; [|split; [done|]]|]|split; [exact Htk|split]].
  - by apply (linked_ok (vmem s) cr3 p0).
  - intros p t Hp Hw. simpl in Hw. rewrite Hwalk in Hw by done.
    destruct (decide _); [by injection Hw as <-|]. intros Hg. by eapply Hap, Hsub.
  - simpl. split; [intros v; by apply (linked_leaf (vmem s) cr3 p0)|].
    split; [|split; [|split; [done|split; [done|split; [done|split; [|split]]]]]].
    + exact Hmono.
    + assert (path_ok (p0 ++ [i0])) as Hpn.
      { split; [apply Forall_app; split; [apply Hp0|by apply Forall_singleton]|].
        rewrite length_app. simpl. lia. }
      intros x Hx. unfold set_entry. rewrite store64_out.
      * apply zero_page_out, (Hx (p0 ++ [i0])); [done|done|]. rewrite Hwalk by done. by rewrite decide_True.
      * assert (¬ in_page t0 x) as Hx0.
        { apply (Hx p0); [done|by eapply half_app|]. rewrite Hwalk by done. rewrite decide_False; [done|].
          intros Eq. apply (f_equal length) in Eq. rewrite length_app in Eq. simpl in Eq. lia. }
        unfold in_page, idx_ok in *. lia.
    + intros p t i Hp Hi Hwp Hpr. simpl. rewrite entry_set_ne; try done.
      * apply entry_ext; [done|]. intros x Hx. by apply (zeroed_same (vmem s) cr3 n Htree Hn4 Hfresh t x p).
      * by apply (tree_page _ _ Htree p0).
      * by apply (tree_page _ _ Htree p).
      * intros [-> ->]. congruence.
    + intros p t Hp Hw. cbn [vmem write_entry with_vmem zero_page with_vframes] in Hw. rewrite Hwalk in Hw by done.
      destruct (decide _); [right; by injection Hw as <-|by left].
    + split; [intros Hm; apply mem_ok_store64; apply mem_ok_zero_page, Hm|]. split; [done|]. split; [done|]. split; [exact Hmono|]. intros v _ _. by apply (linked_leaf (vmem s) cr3 p0).
  - by apply (linked_walk_p0 (vmem s) cr3 p0).
  - intros _ j Hj. by apply (fresh_entry (vmem s) cr3 p0).
Qed.

Lemma get_pd_spec s cr3 v :
  vm_ok s cr3 → PAGING_USER_BASE ≤ v < 2 ^ 48 →
  let r := get_pd cr3 v s in
  grows cr3 s r.2 ∧ takes 2 s r.2 ∧
  match r.1 with
  | None => runs_out 1 s r.2
  | Some pd => walk (vmem r.2) cr3 4 (pd_path v) = Some pd
  end.
Proof.
  intros Hok Hv. unfold get_pd.
  destruct (next_table_spec s cr3 [] cr3 (PML4_IDX v)) as (Hg1 & Ht1 & Hr1);
    [done|apply nil_path_ok|simpl; lia|done|apply pml4_idx_ok|reflexivity|intros E; unfold is_table; by rewrite E|].
  destruct (next_table cr3 (PML4_IDX v) s) as [[pdpt|] s1]; simpl in *;
    [|split; [done|]; split; [by apply (took_le 1); [lia|]|by apply (runs_out_le 0); [lia|]]].
  destruct Hr1 as [Hw1 _]. pose proof Hg1 as (Hok1 & _).
  destruct (next_table_spec s1 cr3 [PML4_IDX v] pdpt (PDPT_IDX v)) as (Hg2 & Ht2 & Hr2);
    [done|apply pml4_path_ok|simpl; lia|done|apply pdpt_idx_ok|exact (half_user v [] Hv)|intros E; unfold is_table; by rewrite E|].
  destruct (next_table pdpt (PDPT_IDX v) s1) as [[pd|] s2]; simpl in *.
  - destruct Hr2 as [Hw2 _]. split; [by eapply grows_trans|]. split; [by apply (took_trans 1 1 _ _ _ Ht1)|done].
  - split; [by eapply grows_trans|]. split; [by apply (took_trans 1 1 _ _ _ Ht1)|by apply (runs_out_from cr3 1 0 s s1)].
Qed.

Lemma get_pt_spec s cr3 v pd :
  vm_ok s cr3 → PAGING_USER_BASE ≤ v < 2 ^ 48 → walk (vmem s) cr3 4 (pd_path v) = Some pd →
  let r := get_pt pd v s in
  grows cr3 s r.2 ∧ takes 1 s r.2 ∧
  match r.1 with
  | None => runs_out 0 s r.2 ∨ leaf (vmem s) cr3 v ≠ None
  | Some pt => walk (vmem r.2) cr3 4 (pt_path v) = Some pt ∧ leaf (vmem s) cr3 v = None
  end.
Proof.
  intros Hok Hv Hw. unfold get_pt. rewrite (leaf_pd _ _ _ _ Hw). cbv zeta.
  assert (is_table 2 (entry (vmem s) pd (PD_IDX v)) = true →
          walk (vmem s) cr3 4 (pt_path v) = Some (e_base (entry (vmem s) pd (PD_IDX v)))) as Hpt.
  { intros E. change (pt_path v) with (pd_path v ++ [PD_IDX v]). rewrite walk_app, Hw. simpl. by rewrite E. }
  destruct (present (entry (vmem s) pd (PD_IDX v))) eqn:E; simpl.
  - destruct (is_large (entry (vmem s) pd (PD_IDX v))) eqn:EL; simpl.
    { split; [by apply grows_refl|]. split; [by apply (took_le 0), took_refl; lia|]. by right. }
    destruct (present (entry (vmem s) (e_base _) (PT_IDX v))) eqn:E1; simpl.
    { split; [by apply grows_refl|]. split; [by apply (took_le 0), took_refl; lia|]. by right. }
    split; [by apply grows_refl|]. split; [by apply (took_le 0), took_refl; lia|]. split; [|done]. apply Hpt. unfold is_table. by rewrite E, EL.
  - destruct (next_table_spec s cr3 (pd_path v) pd (PD_IDX v)) as (Hg & Ht & Hr);
      [done|apply pd_path_ok|simpl; lia|done|apply pd_idx_ok|exact (half_user v [PD_IDX v] Hv)|by rewrite E|].
    destruct (next_table pd (PD_IDX v) s) as [[pt|] s1]; simpl in *; [|by auto].
    destruct Hr as [Hw1 _]. by auto.
Qed.

(** Memory outside the page tables of [s'], and the tables of the first GiB. *)
Definition same_outside_tables (cr3 : Z) s s' : Prop :=
  ∀ x, (∀ p t, path_ok p → half p = false → walk (vmem s') cr3 4 p = Some t → ¬ in_page t x) →
       vmem s' x = vmem s x.

(** Writing a leaf entry (or clearing one) in the table at path [p0]. *)
Lemma write_leaf s cr3 p0 t0 i0 e :
  vm_ok s cr3 → path_ok p0 → walk (vmem s) cr3 4 p0 = Some t0 → half p0 = false → idx_ok i0 → is_u64 e →
  (length p0 = 3%nat ∨
   is_table (4 - length p0) (entry (vmem s) t0 i0) = false ∧ is_table (4 - length p0) e = false) →
  let s' := write_entry t0 i0 e s in
  vm_ok s' cr3 ∧ (∀ p, path_ok p → walk (vmem s') cr3 4 p = walk (vmem s) cr3 4 p) ∧
  same_outside_tables cr3 s s' ∧
  (∀ v, (∀ r, full_path v ≠ p0 ++ i0 :: r) → leaf (vmem s') cr3 v = leaf (vmem s) cr3 v) ∧
  ∀ p t i, path_ok p → idx_ok i → walk (vmem s) cr3 4 p = Some t → ¬ (t = t0 ∧ i = i0) →
    entry (vmem s') t i = entry (vmem s) t i.
Proof.
  intros (Htree & Hfa & Hap) Hp0 Hw0 Hhf Hi0 He Hl s'.
  assert (∀ p, path_ok p → walk (vmem s') cr3 4 p = walk (vmem s) cr3 4 p) as Hw.
  { intros p Hp. by apply (walk_set_leaf (vmem s) cr3 p0). }
  split; [split; [|split; [done|]]|split; [done|split; [|split]]].
  - eapply tree_ok_walks; [apply Hw|done].
  - intros p t Hp. rewrite Hw by done. by apply Hap.
  - intros x Hx. apply store64_out. assert (¬ in_page t0 x) as Hn by (apply (Hx p0); [done|done|by rewrite Hw]).
    unfold in_page, idx_ok in *. lia.
  - intros v Hv. by apply (leaf_set_other (vmem s) cr3 p0).
  - intros p t i Hp Hi Hwp Hne. apply entry_set_ne; try done;
      [by apply (tree_page _ _ Htree p0)|by apply (tree_page _ _ Htree p)].
Qed.

(** The word [paging_map] writes. *)
Lemma leaf_entry phys flags :
  is_u64 phys → phys mod 4096 = 0 → 0 ≤ flags < 4096 →
  let e := Z.lor (Z.lor (e_base phys) flags) PAGING_FLAG_PRESENT in
  is_u64 e ∧ present e = true ∧ e_base e = phys.
Proof.
  intros Hp Hm Hf e. assert (e_base phys = phys) as Eb by (rewrite e_base_div by done; dlia).
  assert (0 ≤ Z.lor flags 1 < 4096) as Hf1 by (apply (lor_lt_pow2 _ _ 12); lia).
  unfold e, PAGING_FLAG_PRESENT. rewrite Eb, <- Z.lor_assoc. split; [|split].
  - apply is_u64_lor; [done|unfold is_u64; lia].
  - rewrite present_testbit, !Z.lor_spec, orb_true_r. apply orb_true_r.
  - by apply e_base_lor.
Qed.

(** [paging_map] with the tables it may add. *)
Lemma paging_map_spec s cr3 v phys flags :
  vm_ok s cr3 → PAGING_USER_BASE ≤ v < 2 ^ 48 → v mod 4096 = 0 → phys mod 4096 = 0 →
  is_u64 phys → 0 ≤ flags < 4096 →
  let r := paging_map cr3 v phys flags s in
  vm_ok r.2 cr3 ∧ same_outside_tables cr3 s r.2 ∧ new_tables cr3 s r.2 ∧
  (∀ g, fa_avail (vframes r.2) g → fa_avail (vframes s) g) ∧ takes 3 s r.2 ∧
  if r.1 then
    leaf (vmem s) cr3 v = None ∧
    (∀ w, 0 ≤ w < 2 ^ 48 → w / 4096 ≠ v / 4096 → leaf (vmem r.2) cr3 w = leaf (vmem s) cr3 w) ∧
    (∃ e, e_base e = phys ∧ leaf (vmem r.2) cr3 v = Some (false, e)) ∧
    ∀ w, 0 ≤ w < 2 ^ 48 →
      paging_translate (vmem r.2) cr3 w =
      if w / 4096 =? v / 4096 then phys + w mod 4096 else paging_translate (vmem s) cr3 w
  else
    (∀ w, leaf (vmem r.2) cr3 w = leaf (vmem s) cr3 w) ∧
    (runs_out 2 s r.2 ∨ leaf (vmem s) cr3 v ≠ None).
Proof.
  intros Hok Hv Hv4 Hp4 Hpu Hfl. unfold paging_map.
  change 0xFFF with (2 ^ 12 - 1). rewrite !land_ones_mod by lia. change (2 ^ 12) with 4096.
  rewrite Hv4, Hp4. replace (v <? PAGING_USER_BASE) with false by lia. simpl.
  destruct (get_pd_spec s cr3 v Hok Hv) as (Hg1 & Ht1 & Hr1).
  destruct (get_pd cr3 v s) as [[pd|] s1]; simpl in *.
  2:{ destruct Hg1 as (? & Hl & _ & ? & ? & _ & _ & _ & ?). do 4 (split; [done|]). split; [by apply (took_le 2); [lia|]|]. split; [done|]. left. by apply (runs_out_le 1); [lia|]. }
  pose proof Hg1 as (Hok1 & Hl1 & _).
  destruct (get_pt_spec s1 cr3 v pd Hok1 Hv Hr1) as (Hg2 & Ht2 & Hr2). pose proof (took_trans 2 1 _ _ _ Ht1 Ht2) as Ht3.
  destruct (get_pt pd v s1) as [[pt|] s2]; simpl in *; pose proof (grows_trans _ _ _ _ Hg1 Hg2) as Hg.
  2:{ destruct Hg as (? & Hl & _ & ? & ? & _ & _ & _ & ?). do 4 (split; [done|]). split; [done|]. split.
      - done.
      - destruct Hr2 as [?|Hne]; [left; by apply (runs_out_from cr3 2 0 s s1)|right; by rewrite <- Hl1]. }
  destruct Hr2 as [Hwpt Hnone]. destruct Hg as (Hok2 & Hl2 & _ & Hm2 & Ha2 & _ & _ & _ & Hn2 & Hb2 & Hc2 & Hg2l & Hmono2 & _).
  destruct (leaf_entry phys flags Hpu Hp4 Hfl) as (Heu & Hep & Heb).
  set (e := Z.lor _ PAGING_FLAG_PRESENT) in *.
  destruct (write_leaf s2 cr3 (pt_path v) pt (PT_IDX v) e) as (Hok3 & Hw3 & Hm3 & Hl3 & _);
    [done|apply pt_path_ok|done|exact (half_user v [PD_IDX v] Hv)|apply pt_idx_ok|done|by left|].
  set (s3 := write_entry pt (PT_IDX v) e s2) in *.
  assert (∀ w, PAGING_USER_BASE ≤ w < 2 ^ 48 → leaf (vmem s) cr3 w ≠ None → leaf (vmem s3) cr3 w = leaf (vmem s) cr3 w) as Hkl.
  { intros w Hw Hne. rewrite Hl3, Hl2; [done|]. intros r Er. apply Hne. rewrite <- Hl1, <- Hnone. unfold leaf.
    unfold full_path, pt_path in Er. injection Er as E4 E3 E2 E1 _. by rewrite E4, E3, E2, E1. }
  split; [done|]. split; [|split; [split; [|split; [intros; apply mem_ok_store64; auto|split_and!; [exact Hc2|exact Hg2l|intros p t Hp Hwp; rewrite Hw3 by done; by apply Hmono2|exact Hkl]]]|split; [done|split; [exact Ht3|split; [by rewrite <- Hl1|split; [|split]]]]]].
  { intros x Hx. rewrite Hm3 by done. apply Hm2. intros p t Hp Hh Hwp. apply (Hx p); [done|done|]. by rewrite Hw3. }
  { intros p t Hp Hwp. apply Hn2; [done|]. by rewrite <- (Hw3 p Hp). }
  { intros w Hw Ew. change (set_entry (vmem s2) pt (PT_IDX v) e) with (vmem s3).
    rewrite Hl3, Hl2; [done|]. intros r Er. apply Ew. unfold full_path, pt_path in Er. simplify_eq/=.
    unfold PAGING_USER_BASE in *. by apply idx_page; try lia. }
  { exists e. split; [done|]. rewrite (leaf_pt _ _ v pt) by (by rewrite Hw3 by apply pt_path_ok).
    change (vmem s3) with (set_entry (vmem s2) pt (PT_IDX v) e). rewrite entry_set_eq by done. cbv zeta. by rewrite Hep. }
  intros w Hw. change (set_entry (vmem s2) pt (PT_IDX v) e) with (vmem s3).
  rewrite !translate_leaf. destruct (Z.eqb_spec (w / 4096) (v / 4096)) as [Ew|Ew].
  - destruct (page_idx w v Ew) as (E4 & E3 & E2 & E1).
    assert (walk (vmem s3) cr3 4 (pt_path w) = Some pt) as Hww.
    { unfold pt_path. rewrite E4, E3, E2. by rewrite Hw3 by apply (pt_path_ok v). }
    rewrite (leaf_pt _ _ _ _ Hww), E1. unfold s3; simpl. rewrite entry_set_eq, Hep by done. simpl.
    rewrite Heb. change 0xFFF with (2 ^ 12 - 1). rewrite land_ones_mod by lia. change (2 ^ 12) with 4096.
    unfold is_u64 in Hpu. apply u64_small. dlia.
  - rewrite Hl3, Hl2; [done|]. intros r Er. apply Ew. unfold full_path, pt_path in Er. simplify_eq/=.
    unfold PAGING_USER_BASE in *. by apply idx_page; try lia.
Qed.

(** C3: [paging_map] on a well-formed tree keeps it well formed, takes memory only
    from free frames and changes no byte outside the tables.  If it returns true,
    the page was unmapped before, now every address of it translates to the frame
    given, and every other page of the 48-bit space keeps its translation; if it
    returns false, no translation changed and the reason is that the page is
    mapped already or that the frame allocator ran out. *)
Theorem paging_map_correct s cr3 v phys flags :
  vm_ok s cr3 → PAGING_USER_BASE ≤ v < 2 ^ 48 → v mod 4096 = 0 → phys mod 4096 = 0 →
  is_u64 phys → 0 ≤ flags < 4096 →
  let r := paging_map cr3 v phys flags s in
  vm_ok r.2 cr3 ∧ same_outside_tables cr3 s r.2 ∧
  (∀ g, fa_avail (vframes r.2) g → fa_avail (vframes s) g) ∧
  if r.1 then
    leaf (vmem s) cr3 v = None ∧
    ∀ w, 0 ≤ w < 2 ^ 48 →
      paging_translate (vmem r.2) cr3 w =
      if w / 4096 =? v / 4096 then phys + w mod 4096 else paging_translate (vmem s) cr3 w
  else
    (∀ w, paging_translate (vmem r.2) cr3 w = paging_translate (vmem s) cr3 w) ∧
    (starved 2 s ∨ leaf (vmem s) cr3 v ≠ None).
Proof.
  intros. destruct (paging_map_spec s cr3 v phys flags) as (Hok & Hs & _ & Ha & _ & Hr); [done..|].
  split; [exact Hok|]. split; [exact Hs|]. split; [exact Ha|].
  destruct (paging_map cr3 v phys flags s) as [[|] s']; cbn [fst snd] in *.
  - destruct Hr as (Hn & _ & _ & Ht). by split.
  - destruct Hr as [Hl Hwhy]. split; [|by destruct Hwhy as [[]|]; [left|right]]. intros w. by rewrite !translate_leaf, Hl.
Qed.

(** ** Unmapping *)

(** Giving back the frames of a leaf. *)
Definition free_leaf (large : bool) (e : Z) s : vm A :=
  if large then free_huge (e_base_large e) s else free_frame (e_base e) s.

(** Where the leaf of an address is, and what [paging_unmap] does with it. *)
Lemma unmap_cases s cr3 v :
  PAGING_USER_BASE ≤ v →
  match leaf (vmem s) cr3 v with
  | None => paging_unmap cr3 v s = s
  | Some (large, e) => ∃ t0,
      walk (vmem s) cr3 4 (if large then pd_path v else pt_path v) = Some t0 ∧
      entry (vmem s) t0 (if large then PD_IDX v else PT_IDX v) = e ∧
      (large = true → is_large e = true) ∧
      paging_unmap cr3 v s =
      write_entry t0 (if large then PD_IDX v else PT_IDX v) 0 (free_leaf large e s)
  end.
Proof.
  intros Hv. unfold leaf, paging_unmap. replace (v <? PAGING_USER_BASE) with false by lia.
  unfold pd_path, pt_path, walk, is_table, free_leaf. simpl.
  destruct (present (entry (vmem s) cr3 (PML4_IDX v))) eqn:E4; simpl; [|done].
  destruct (present (entry (vmem s) _ (PDPT_IDX v))) eqn:E3; simpl; [|done].
  destruct (present (entry (vmem s) _ (PD_IDX v))) eqn:E2; simpl; [|done].
  destruct (is_large (entry (vmem s) _ (PD_IDX v))) eqn:EL; simpl.
  { eexists. split; [rewrite E4; simpl; rewrite E3; reflexivity|]. split; [reflexivity|]. split; [intros _; exact EL|reflexivity]. }
  destruct (present (entry (vmem s) _ (PT_IDX v))) eqn:E1; simpl; [|done].
  eexists. split; [rewrite E4; simpl; rewrite E3; simpl; rewrite E2, EL; reflexivity|].
  split; [reflexivity|]. split; [discriminate|reflexivity].
Qed.

(** The frames behind a leaf entry. *)
Definition leaf_frames (large : bool) (e g : Z) : Prop :=
  if large then e / 2097152 * 512 ≤ g < e / 2097152 * 512 + 512 else g = e / 4096.

Lemma free_frame_avail p s :
  fa_ok (vframes s) → 0 ≤ p →
  fa_ok (vframes (free_frame p s)) ∧
  ∀ g, fa_avail (vframes (free_frame p s)) g ↔
       fa_avail (vframes s) g ∨ (g = p / 4096 ∧ g < MAX_FRAMES).
Proof. intros Hok Hp. by apply fa_free_spec. Qed.

Lemma free_huge_avail e s :
  is_u64 e → fa_ok (vframes s) →
  let s' := free_huge (e_base_large e) s in
  vmem s' = vmem s ∧ fa_ok (vframes s') ∧
  (∀ g, fa_avail (vframes s') g ↔
        fa_avail (vframes s) g ∨ (leaf_frames true e g ∧ g < MAX_FRAMES)) ∧
  kernel_cr3 s' = kernel_cr3 s ∧ g_lapic_base s' = g_lapic_base s.
Proof.
  intros He Hok. rewrite e_base_large_div by done. set (b := e / 2097152). cbv zeta.
  unfold free_huge, PAGING_PAGE.
  apply (for_do_ind (λ i s', vmem s' = vmem s ∧ fa_ok (vframes s') ∧
    (∀ g, fa_avail (vframes s') g ↔
          fa_avail (vframes s) g ∨ ((b * 512 ≤ g < b * 512 + i) ∧ g < MAX_FRAMES)) ∧
    kernel_cr3 s' = kernel_cr3 s ∧ g_lapic_base s' = g_lapic_base s)); [lia| |].
  - split; [done|]. split; [done|]. split; [|done]. intros g. intuition lia.
  - intros i s' Hi (Hm & Hok' & Hav & Hk & Hl). unfold is_u64 in He.
    assert (0 ≤ b * 2097152 ∧ b * 2097152 + 2097152 ≤ 18446744073709551616) as Hb by (unfold b; dlia).
    rewrite u64_small by lia.
    destruct (free_frame_avail (b * 2097152 + i * 4096) s' Hok' ltac:(lia)) as [Hok2 Hav2].
    split; [done|]. split; [done|]. split; [|done]. intros g. rewrite Hav2, Hav.
    replace ((b * 2097152 + i * 4096) / 4096) with (b * 512 + i) by dlia. intuition lia.
Qed.

Lemma free_leaf_avail large e s :
  is_u64 e → fa_ok (vframes s) →
  vmem (free_leaf large e s) = vmem s ∧ fa_ok (vframes (free_leaf large e s)) ∧
  ∀ g, fa_avail (vframes (free_leaf large e s)) g ↔
       fa_avail (vframes s) g ∨ (leaf_frames large e g ∧ g < MAX_FRAMES).
Proof.
  intros He Hok. destruct large.
  - destruct (free_huge_avail e s He Hok) as (Hm & Hf & Hav & _). exact (conj Hm (conj Hf Hav)).
  - unfold free_leaf. rewrite (e_base_div e He). unfold is_u64 in He.
    destruct (free_frame_avail (e / 4096 * 4096) s Hok ltac:(dlia)) as [Hf Hav].
    rewrite Z.div_mul in Hav by lia. exact (conj eq_refl (conj Hf Hav)).
Qed.

Lemma vm_ok_freed s s' cr3 large e :
  vm_ok s cr3 → vmem s' = vmem s → fa_ok (vframes s') →
  (∀ g, fa_avail (vframes s') g ↔
        fa_avail (vframes s) g ∨ (leaf_frames large e g ∧ g < MAX_FRAMES)) →
  (∀ p t, path_ok p → walk (vmem s) cr3 4 p = Some t → ¬ leaf_frames large e (t / 4096)) →
  vm_ok s' cr3.
Proof.
  intros (Ht & _ & Hap) Hm Hok Hav Hsep. unfold vm_ok. rewrite Hm. split; [done|]. split; [done|].
  intros p t Hp Hw [Hg|[Hg _]]%Hav; [by eapply Hap|by eapply Hsep].
Qed.

(** Two addresses that the same leaf maps. *)
Definition same_leaf (large : bool) (v w : Z) : bool :=
  if large then w / 2097152 =? v / 2097152 else w / 4096 =? v / 4096.

Lemma idx_region v w :
  0 ≤ v < 2 ^ 48 → 0 ≤ w < 2 ^ 48 →
  PML4_IDX v = PML4_IDX w → PDPT_IDX v = PDPT_IDX w → PD_IDX v = PD_IDX w →
  v / 2097152 = w / 2097152.
Proof.
  unfold PML4_IDX, PDPT_IDX, PD_IDX. rewrite !idx_val by lia. simpl (2 ^ _). intros. dlia.
Qed.

Lemma region_idx v w :
  v / 2097152 = w / 2097152 →
  PML4_IDX v = PML4_IDX w ∧ PDPT_IDX v = PDPT_IDX w ∧ PD_IDX v = PD_IDX w.
Proof.
  intros E. unfold PML4_IDX, PDPT_IDX, PD_IDX. rewrite !idx_val by lia.
  assert (∀ q, 0 < q → v / (2097152 * q) = w / (2097152 * q)) as H.
  { intros q Hq. by rewrite <- !Z.div_div, E by lia. }
  pose proof (H 262144 ltac:(lia)). pose proof (H 512 ltac:(lia)).
  change (2 ^ 39) with (2097152 * 262144). change (2 ^ 30) with (2097152 * 512).
  change (2 ^ 21) with 2097152. split_and!; congruence.
Qed.

(** Clearing a leaf entry, for both sizes. *)
Lemma unmap_clears s s1 cr3 v (large : bool) (e t0 : Z) :
  vm_ok s1 cr3 → vmem s1 = vmem s → PAGING_USER_BASE ≤ v < 2 ^ 48 →
  walk (vmem s) cr3 4 (if large then pd_path v else pt_path v) = Some t0 →
  entry (vmem s) t0 (if large then PD_IDX v else PT_IDX v) = e →
  (large = true → is_large e = true) →
  let s' := write_entry t0 (if large then PD_IDX v else PT_IDX v) 0 s1 in
  vm_ok s' cr3 ∧ same_outside_tables cr3 s s' ∧
  (∀ p, path_ok p → walk (vmem s') cr3 4 p = walk (vmem s) cr3 4 p) ∧
  ∀ w, 0 ≤ w < 2 ^ 48 → leaf (vmem s') cr3 w = if same_leaf large v w then None else leaf (vmem s) cr3 w.
Proof.
  intros Hok Hm Hvu Hw He Hlg s'. assert (0 ≤ v < 2 ^ 48) as Hv by (unfold PAGING_USER_BASE in Hvu; lia).
  set (p0 := if large then pd_path v else pt_path v) in *.
  set (i0 := if large then PD_IDX v else PT_IDX v) in *.
  assert (path_ok p0) as Hp0 by (unfold p0; destruct large; auto with kern).
  assert (idx_ok i0) as Hi0 by (unfold i0; destruct large; auto with kern).
  assert (is_u64 0) as H0 by (unfold is_u64; lia).
  assert (half p0 = false) as Hhf by (unfold p0; destruct large; [exact (half_user v [] Hvu)|exact (half_user v [PD_IDX v] Hvu)]).
  rewrite <- Hm in Hw, He.
  destruct (write_leaf s1 cr3 p0 t0 i0 0) as (Hok' & Hw' & Hm' & Hl' & _); try done.
  { destruct large; [right|by left]. simpl. unfold is_table. simpl.
    rewrite He, Hlg by done. by rewrite andb_false_r. }
  clear Hhf. split; [done|]. split; [intros x Hx; rewrite Hm' by done; by rewrite Hm|].
  split; [intros p Hp; rewrite Hw' by done; by rewrite Hm|].
  intros w Hw0. destruct (same_leaf large v w) eqn:Es.
  - assert (∃ r, full_path w = p0 ++ i0 :: r) as [r Er].
    { unfold p0, i0, full_path, pd_path, pt_path, same_leaf in *. destruct large.
      - destruct (region_idx w v) as (-> & -> & ->); [lia|]. by eexists.
      - destruct (page_idx w v) as (-> & -> & -> & ->); [lia|]. by eexists. }
    rewrite (leaf_none _ _ _ _ _ _ t0 Er); [done|by rewrite Hw'|].
    simpl. by rewrite entry_set_eq.
  - rewrite Hl', Hm; [done|]. intros r Er. unfold same_leaf in Es.
    unfold p0, i0, full_path, pd_path, pt_path in Er. destruct large; simplify_eq/=.
    + assert (w / 2097152 = v / 2097152) by (by apply idx_region). lia.
    + assert (w / 4096 = v / 4096) by (by apply idx_page). lia.
Qed.

Lemma paging_unmap_spec s cr3 v :
  vm_ok s cr3 → mem_ok (vmem s) → PAGING_USER_BASE ≤ v < 2 ^ 48 →
  match leaf (vmem s) cr3 v with
  | None => paging_unmap cr3 v s = s
  | Some (large, e) =>
      (∀ p t, path_ok p → walk (vmem s) cr3 4 p = Some t → ¬ leaf_frames large e (t / 4096)) →
      let s' := paging_unmap cr3 v s in
      vm_ok s' cr3 ∧ same_outside_tables cr3 s s' ∧
      (∀ g, fa_avail (vframes s') g ↔
            fa_avail (vframes s) g ∨ (leaf_frames large e g ∧ g < MAX_FRAMES)) ∧
      mem_ok (vmem s') ∧ (∀ p, path_ok p → walk (vmem s') cr3 4 p = walk (vmem s) cr3 4 p) ∧
      ∀ w, 0 ≤ w < 2 ^ 48 → leaf (vmem s') cr3 w = if same_leaf large v w then None else leaf (vmem s) cr3 w
  end.
Proof.
  intros Hok Hmem Hv. pose proof (unmap_cases s cr3 v ltac:(lia)) as Hc.
  assert (0 ≤ v < 2 ^ 48) as Hv0 by (unfold PAGING_USER_BASE in *; lia).
  destruct (leaf (vmem s) cr3 v) as [[large e]|]; [|done]. intros Hsep.
  pose proof Hok as (_ & Hfa & _). destruct Hc as (t0 & Hw & He & Hlg & ->).
  assert (is_u64 e) as Heu by (rewrite <- He; by apply load64_range).
  destruct (free_leaf_avail large e s Heu Hfa) as (Hm1 & Hok1 & Hav1).
  assert (vm_ok (free_leaf large e s) cr3) as Hvm1 by (by apply (vm_ok_freed s _ cr3 large e)).
  destruct (unmap_clears s _ cr3 v large e t0 Hvm1 Hm1 Hv Hw He Hlg) as (Ha & Hb & Hc & Hd).
  split_and!; try done. apply mem_ok_store64. by rewrite Hm1.
Qed.

(** C7: [paging_unmap] leaves an unmapped address alone.  A mapped page (4 KiB or
    2 MiB) whose frames are not table pages is unmapped as a whole: its addresses
    translate to 0, exactly its frames become free, every other address of the
    48-bit space keeps its translation and the tree stays well formed. *)
Theorem paging_unmap_correct s cr3 v :
  vm_ok s cr3 → mem_ok (vmem s) → PAGING_USER_BASE ≤ v < 2 ^ 48 →
  match leaf (vmem s) cr3 v with
  | None => paging_unmap cr3 v s = s
  | Some (large, e) =>
      (∀ p t, path_ok p → walk (vmem s) cr3 4 p = Some t → ¬ leaf_frames large e (t / 4096)) →
      let s' := paging_unmap cr3 v s in
      vm_ok s' cr3 ∧ same_outside_tables cr3 s s' ∧
      (∀ g, fa_avail (vframes s') g ↔
            fa_avail (vframes s) g ∨ (leaf_frames large e g ∧ g < MAX_FRAMES)) ∧
      ∀ w, 0 ≤ w < 2 ^ 48 → paging_translate (vmem s') cr3 w =
           if same_leaf large v w then 0 else paging_translate (vmem s) cr3 w
  end.
Proof.
  intros Hok Hmem Hv. pose proof (paging_unmap_spec s cr3 v Hok Hmem Hv) as Hs.
  destruct (leaf (vmem s) cr3 v) as [[large e]|]; [|done]. intros Hsep. destruct (Hs Hsep) as (Ha & Hb & Hc & _ & _ & Hl).
  split_and!; [done..|]. intros w Hw. rewrite !translate_leaf, Hl by done. by destruct (same_leaf large v w).
Qed.

(** ** Huge pages *)

Lemma large_entry phys flags :
  is_u64 phys → phys mod 2097152 = 0 → 0 ≤ flags < 128 →
  let e := Z.lor (Z.lor (Z.lor (e_base_large phys) flags) PAGING_FLAG_LARGE) PAGING_FLAG_PRESENT in
  is_u64 e ∧ present e = true ∧ is_large e = true ∧ e_base_large e = phys ∧
  is_user e = is_user flags.
Proof.
  intros Hp Hm Hf e.
  assert (e_base_large phys = phys) as Eb by (rewrite e_base_large_div by done; dlia).
  assert (0 ≤ Z.lor (Z.lor flags 128) 1 < 2 ^ 21) as Hf1 by (repeat apply lor_lt_pow2; lia).
  unfold e, PAGING_FLAG_LARGE, PAGING_FLAG_PRESENT. rewrite Eb.
  assert (Z.lor (Z.lor (Z.lor phys flags) 128) 1 = Z.lor phys (Z.lor (Z.lor flags 128) 1)) as ->
    by (by rewrite !Z.lor_assoc).
  assert (is_u64 (Z.lor phys (Z.lor (Z.lor flags 128) 1))) as Hu.
  { apply is_u64_lor; [done|unfold is_u64; lia]. }
  rewrite present_testbit, is_large_testbit, !is_user_testbit, !Z.lor_spec.
  rewrite (testbit_aligned phys 21 0), (testbit_aligned phys 21 7), (testbit_aligned phys 21 2) by done.
  split; [done|]. split; [by rewrite orb_true_r|]. split; [|split].
  - simpl. by rewrite orb_true_r.
  - rewrite e_base_large_div by done. change 2097152 with (2 ^ 21). rewrite lor_low_div by lia.
    change (2 ^ 21) with 2097152. dlia.
  - simpl. by rewrite !orb_false_r.
Qed.

Lemma paging_map_large_spec s cr3 v phys flags :
  vm_ok s cr3 → PAGING_USER_BASE ≤ v < 2 ^ 48 → v mod 2097152 = 0 → phys mod 2097152 = 0 →
  is_u64 phys → 0 ≤ flags < 128 →
  let r := paging_map_large cr3 v phys flags s in
  vm_ok r.2 cr3 ∧ same_outside_tables cr3 s r.2 ∧
  (∀ g, fa_avail (vframes r.2) g → fa_avail (vframes s) g) ∧ keeps_entries cr3 s r.2 ∧ new_tables cr3 s r.2 ∧
  if r.1 then
    ∃ e, is_large e = true ∧ e_base_large e = phys ∧ is_user e = is_user flags ∧
    ∀ w, 0 ≤ w < 2 ^ 48 →
      leaf (vmem r.2) cr3 w =
      if w / 2097152 =? v / 2097152 then Some (true, e) else leaf (vmem s) cr3 w
  else ∀ w, leaf (vmem r.2) cr3 w = leaf (vmem s) cr3 w.
Proof.
  intros Hok Hv Hv4 Hp4 Hpu Hfl. unfold paging_map_large, PAGING_HUGE.
  change (0x200000 - 1) with (2 ^ 21 - 1). rewrite !land_ones_mod by lia. change (2 ^ 21) with 2097152.
  rewrite Hv4, Hp4. replace (v <? PAGING_USER_BASE) with false by lia. simpl.
  destruct (get_pd_spec s cr3 v Hok Hv) as (Hg1 & _ & Hr1).
  destruct (get_pd cr3 v s) as [[pd|] s1]; simpl in *; destruct Hg1 as (Hok1 & Hl1 & Hw1 & Hm1 & Ha1 & Hk1 & Hlb1 & He1 & Hn1);
    [|by split_and!].
  destruct (present (entry (vmem s1) pd (PD_IDX v))) eqn:E; simpl; [by split_and!|].
  destruct (large_entry phys flags Hpu Hp4 Hfl) as (Heu & Hep & Hel & Heb & Hus).
  set (e := Z.lor _ PAGING_FLAG_PRESENT) in *.
  destruct (write_leaf s1 cr3 (pd_path v) pd (PD_IDX v) e) as (Hok3 & Hw3 & Hm3 & Hl3 & He3);
    [done|apply pd_path_ok|done|exact (half_user v [] Hv)|apply pd_idx_ok|done| |].
  { right. unfold is_table. simpl. by rewrite E, Hep, Hel. }
  split; [done|]. split; [|split; [done|]].
  { intros x Hx. rewrite Hm3 by done. apply Hm1. intros p t Hp Hh Hwp. apply (Hx p); [done|done|]. by rewrite Hw3. }
  split.
  { intros p t i Hp Hi Hwp Hpr. pose proof (He1 p t i Hp Hi Hwp Hpr) as Ei.
    rewrite (He3 p t i Hp Hi); [done|by apply Hw1|]. intros [-> ->]. congruence. }
  split.
  { destruct Hn1 as (Hn1 & Hb1 & _). split; [|split; [intros; apply mem_ok_store64; auto|split; [done|split; [done|split]]]].
    - intros p t Hp Hwp. apply Hn1; [done|]. by rewrite <- (Hw3 p Hp).
    - intros p t Hp Hwp. rewrite Hw3 by done. by apply Hw1.
    - intros w Hw Hne. rewrite Hl3; [by rewrite Hl1|]. intros r Er. apply Hne. rewrite <- Hl1.
      rewrite (leaf_pd _ _ w pd); [|unfold pd_path; unfold full_path, pd_path in Er; injection Er as -> -> _ _; exact Hr1].
      unfold full_path, pd_path in Er. injection Er as _ _ -> _. cbv zeta. by rewrite E. }
  exists e. split; [done|]. split; [done|]. split; [done|]. intros w Hw.
  set (s3 := write_entry pd (PD_IDX v) e s1) in *.
  change (set_entry (vmem s1) pd (PD_IDX v) e) with (vmem s3).
  destruct (Z.eqb_spec (w / 2097152) (v / 2097152)) as [Ew|Ew].
  - destruct (region_idx w v Ew) as (E4 & E3 & E2).
    assert (walk (vmem s3) cr3 4 (pd_path w) = Some pd) as Hww.
    { unfold pd_path. rewrite E4, E3. by rewrite Hw3 by apply (pd_path_ok v). }
    rewrite (leaf_pd _ _ _ _ Hww), E2. unfold s3; simpl. by rewrite entry_set_eq, Hep, Hel by done.
  - rewrite Hl3; [done|]. intros r Er. apply Ew. unfold full_path, pd_path in Er. simplify_eq/=.
    unfold PAGING_USER_BASE in *. by apply idx_region; try lia.
Qed.
End VmProofs.

(** ** A new address space *)

(** May ring 3 reach [v]?  The processor asks for the user bit on every level. *)
Definition user_reach (m : mem) (cr3 v : Z) : bool :=
  let e4 := entry m cr3 (PML4_IDX v) in
  let e3 := entry m (e_base e4) (PDPT_IDX v) in
  let e2 := entry m (e_base e3) (PD_IDX v) in
  let e1 := entry m (e_base e2) (PT_IDX v) in
  present e4 && is_user e4 && (present e3 && is_user e3) && (present e2 && is_user e2) &&
  (is_large e2 || present e1 && is_user e1).

(** A page ring 3 can reach has a leaf, and the leaf has the user bit. *)
Lemma user_reach_leaf m cr3 v :
  user_reach m cr3 v = true → ∃ l e, leaf m cr3 v = Some (l, e) ∧ is_user e = true.
Proof.
  unfold user_reach, leaf. intros H. rewrite !andb_true_iff in H.
  destruct H as [[[[H4 _] [H3 _]] [H2 U2]] H1]. rewrite H4, H3, H2. simpl.
  destruct (is_large _); [by eexists true, _|]. simpl in H1. apply andb_true_iff in H1 as [H1 U1].
  rewrite H1. by eexists false, _.
Qed.

(** The supervisor copy of an entry. *)
Definition supervisor (e : Z) : Z := Z.lor (Z.land e (u64 (Z.lnot 0x04))) 0x01.

Lemma supervisor_spec e :
  is_u64 e →
  is_u64 (supervisor e) ∧ present (supervisor e) = true ∧ is_user (supervisor e) = false ∧
  e_base (supervisor e) = e_base e.
Proof.
  intros He. unfold supervisor. pose proof (u64_range (Z.lnot 4)) as Hr.
  assert (is_u64 (Z.land e (u64 (Z.lnot 4)))) as Hl.
  { rewrite u64_land, Z.land_assoc, <- u64_land. apply u64_range. }
  assert (is_u64 1) as H1 by (unfold is_u64; lia).
  split; [by apply is_u64_lor|]. rewrite present_testbit, is_user_testbit, !Z.lor_spec, !Z.land_spec.
  split; [by rewrite orb_true_r|]. split; [by rewrite andb_false_r|].
  rewrite !e_base_div by (done || by apply is_u64_lor). f_equal. change 4096 with (2 ^ 12).
  rewrite lor_low_div by lia. rewrite <- !Z.shiftr_div_pow2, Z.shiftr_land by lia.
  change (Z.shiftr (u64 (Z.lnot 4)) 12) with (Z.ones 52). rewrite Z.land_ones by lia.
  rewrite Z.shiftr_div_pow2 by lia. apply Z.mod_small. unfold is_u64 in He.
  change (2 ^ 12) with 4096. change (2 ^ 52) with 4503599627370496. dlia.
Qed.

Section NewSpace.
Context (m m2 : mem) (kroot P D : Z).
Context (Hk : tree_ok m kroot) (Hmem : mem_ok m).
Context (Hfresh : ∀ p t, path_ok p → walk m kroot 4 p = Some t → t ≠ P ∧ t ≠ D).
Context (HP : P mod 4096 = 0) (HD : D mod 4096 = 0) (HPD : P ≠ D) (HDu : is_u64 D).
Let kpdpt := e_base (entry m kroot 0).
Context (Hroot0 : present (entry m kroot 0) = true).
Context (Hroot : ∀ i, 1 ≤ i < 512 → present (entry m kroot i) = false).
Context (Hkpd : present (entry m kpdpt 0) = true).
Context (Hout : ∀ x, ¬ in_page P x → ¬ in_page D x → m2 x = m x).
Context (HP0 : entry m2 P 0 = Z.lor D 0x07).
Context (HPi : ∀ i, 1 ≤ i < 512 → entry m2 P i = entry m kroot i).
Context (HD0 : entry m2 D 0 = supervisor (entry m kpdpt 0)).
Context (HDj : ∀ j, 1 ≤ j < 512 → entry m2 D j = 0).

Lemma kernel_path_00 : walk m kroot 4 [0; 0] = Some (e_base (entry m kpdpt 0)).
Proof. simpl. unfold is_table. simpl. rewrite Hroot0. simpl. fold kpdpt. by rewrite Hkpd. Qed.

Lemma idx_0 : idx_ok 0. Proof. unfold idx_ok. lia. Qed.
Lemma path_00 : path_ok [0; 0].
Proof. split; [repeat constructor; unfold idx_ok; lia|simpl; lia]. Qed.

(** The kernel's tables are untouched. *)
Lemma kernel_page_same p t x :
  path_ok p → walk m kroot 4 p = Some t → in_page t x → m2 x = m x.
Proof.
  intros Hp Hw Hx. destruct (Hfresh p t Hp Hw) as [HtP HtD]. pose proof (tree_page m kroot Hk p t Hp Hw).
  apply Hout; intros Hq; [apply HtP|apply HtD]; by eapply pages_disjoint.
Qed.

Lemma sup_base : e_base (entry m2 D 0) = e_base (entry m kpdpt 0).
Proof. rewrite HD0. apply supervisor_spec. by apply load64_range. Qed.

(** Below the first two levels the new tree is the kernel's. *)
Lemma new_walk p :
  path_ok p →
  walk m2 P 4 p =
  match p with
  | [] => Some P
  | i :: p' => if i =? 0 then
      match p' with
      | [] => Some D
      | j :: r => if j =? 0 then walk m kroot 4 (0 :: 0 :: r) else None
      end
    else None
  end.
Proof.
  intros Hp. destruct p as [|i p]; [done|]. pose proof Hp as [Hpi Hpl].
  apply Forall_cons in Hpi as [Hi Hpi]. destruct (link_entry D HDu HD) as (_ & Hpr & _ & Hba).
  simpl. destruct (Z.eqb_spec i 0) as [->|Hi0].
  2:{ unfold is_table. by rewrite HPi, Hroot by (unfold idx_ok in Hi; lia). }
  rewrite HP0. unfold is_table at 1. rewrite Hpr, Hba. simpl. destruct p as [|j r]; [done|].
  apply Forall_cons in Hpi as [Hj Hpr'].
  simpl. destruct (Z.eqb_spec j 0) as [->|Hj0].
  2:{ unfold is_table. by rewrite HDj by (unfold idx_ok in Hj; lia). }
  unfold is_table at 1. rewrite HD0. simpl.
  assert (present (supervisor (entry m kpdpt 0)) = true) as -> by (apply supervisor_spec; by apply load64_range).
  simpl. rewrite <- HD0, sup_base. unfold is_table. simpl. rewrite Hroot0. simpl. fold kpdpt.
  rewrite Hkpd. simpl. apply walk_ext; [done|]. intros q k r' u -> Hw.
  apply entry_ext.
  { apply Forall_app in Hpr' as [_ H]. by apply Forall_cons in H as [? _]. }
  intros x Hx. apply (kernel_page_same (0 :: 0 :: q) u); [|simpl; unfold is_table; simpl|done].
  - split; [|simpl in *; rewrite length_app in Hpl; simpl in *; lia].
    apply Forall_app in Hpr' as [H _]. repeat (constructor; [apply idx_0|]). done.
  - rewrite Hroot0. simpl. fold kpdpt. by rewrite Hkpd.
Qed.

Lemma kernel_leaf v :
  PML4_IDX v = 0 → PDPT_IDX v = 0 → leaf m2 P v = leaf m kroot v.
Proof.
  intros E4 E3. destruct (link_entry D HDu HD) as (_ & Hpr & _ & Hba).
  unfold leaf. rewrite E4, E3, HP0, Hpr, Hba, Hroot0. simpl. rewrite sup_base. fold kpdpt.
  rewrite HD0, Hkpd. assert (present (supervisor (entry m kpdpt 0)) = true) as -> by (apply supervisor_spec; by apply load64_range).
  simpl. set (kpd := e_base (entry m kpdpt 0)).
  assert (entry m2 kpd (PD_IDX v) = entry m kpd (PD_IDX v)) as ->.
  { apply entry_ext; [apply pd_idx_ok|]. intros x. apply (kernel_page_same [0; 0]);
      [apply path_00|apply kernel_path_00]. }
  destruct (present (entry m kpd (PD_IDX v))) eqn:E2; simpl; [|done].
  destruct (is_large (entry m kpd (PD_IDX v))) eqn:EL; [done|].
  rewrite (entry_ext m m2 (e_base (entry m kpd (PD_IDX v)))); [done|apply pt_idx_ok|].
  intros x. apply (kernel_page_same ([0; 0] ++ [PD_IDX v])).
  - split; [|simpl; lia]. repeat (constructor; [apply idx_0|]). by repeat constructor; apply pd_idx_ok.
  - rewrite walk_app, kernel_path_00. simpl. unfold is_table. fold kpd. by rewrite E2, EL.
Qed.

Lemma other_leaf v : ¬ (PML4_IDX v = 0 ∧ PDPT_IDX v = 0) → leaf m2 P v = None.
Proof.
  intros Hne. destruct (link_entry D HDu HD) as (_ & Hpr & _ & Hba). unfold leaf.
  pose proof (pml4_idx_ok v) as H4. pose proof (pdpt_idx_ok v) as H3. unfold idx_ok in *.
  destruct (decide (PML4_IDX v = 0)) as [E|].
  - rewrite E, HP0, Hpr, Hba. simpl. assert (PDPT_IDX v ≠ 0) by tauto. by rewrite HDj by lia.
  - by rewrite HPi, Hroot by lia.
Qed.

Lemma new_tree_ok : tree_ok m2 P.
Proof.
  assert (∀ r t, path_ok (0 :: 0 :: r) → walk m kroot 4 (0 :: 0 :: r) = Some t → t ≠ P ∧ t ≠ D) as Hne.
  { intros r t. apply Hfresh. }
  split.
  - intros p q t Hp Hq. rewrite !new_walk by done.
    destruct p as [|i p], q as [|i' q]; try done.
    + intros [= <-]. destruct (Z.eqb_spec i' 0) as [->|]; [|done]. destruct q as [|j q]; [congruence|].
      destruct (Z.eqb_spec j 0) as [->|]; [|done]. intros Hw. by destruct (Hne q P Hq Hw).
    + destruct (Z.eqb_spec i 0) as [->|]; [|done]. destruct p as [|j p]; [congruence|].
      destruct (Z.eqb_spec j 0) as [->|]; [|done]. intros Hw [= <-]. by destruct (Hne p P Hp Hw).
    + destruct (Z.eqb_spec i 0) as [->|]; [|done]. destruct (Z.eqb_spec i' 0) as [->|]; [|done].
      destruct p as [|j p], q as [|j' q]; [done| | |].
      * intros [= <-]. destruct (Z.eqb_spec j' 0) as [->|]; [|done]. intros Hw. by destruct (Hne q D Hq Hw).
      * destruct (Z.eqb_spec j 0) as [->|]; [|done]. intros Hw [= <-]. by destruct (Hne p D Hp Hw).
      * destruct (Z.eqb_spec j 0) as [->|]; [|done]. destruct (Z.eqb_spec j' 0) as [->|]; [|done].
        by apply (tree_inj m kroot Hk).
  - intros p t Hp. rewrite new_walk by done. destruct p as [|i p]; [by intros [= <-]|].
    destruct (i =? 0); [|done]. destruct p as [|j p]; [by intros [= <-]|].
    destruct (Z.eqb_spec j 0) as [->|]; [|done]. intros Hw.
    apply (tree_page m kroot Hk (0 :: 0 :: p)); [|done].
    destruct Hp as [Hp Hl]. split; [|done]. apply Forall_cons in Hp as [_ Hp].
    by constructor; [apply idx_0|].
Qed.
End NewSpace.

Section NewSpaceVm.
Context {A : Type} `{!FrameAllocator A, !FrameAllocatorOk A}.
Implicit Types s : vm A.

(** The kernel's own tables, as the boot code leaves them: a well-formed tree in
    which only entry 0 of the root is in use, with the identity map behind it. *)
Definition kernel_ok s : Prop :=
  vm_ok s (kernel_cr3 s) ∧ mem_ok (vmem s) ∧
  present (entry (vmem s) (kernel_cr3 s) 0) = true ∧
  (∀ i, 1 ≤ i < 512 → present (entry (vmem s) (kernel_cr3 s) i) = false) ∧
  present (entry (vmem s) (e_base (entry (vmem s) (kernel_cr3 s) 0)) 0) = true.

(** A LAPIC address the huge-page map accepts, or none. *)
Definition lapic_ok s : Prop :=
  g_lapic_base s = 0 ∨
  (PAGING_USER_BASE ≤ g_lapic_base s < 2 ^ 48 ∧ g_lapic_base s mod 2097152 = 0).

Lemma clone_root_spec s P :
  let kroot := kernel_cr3 s in
  mem_ok (vmem s) → P mod 4096 = 0 → kroot mod 4096 = 0 → P ≠ kroot →
  let s' := clone_root P s in
  (∀ x, ¬ in_page P x → vmem s' x = vmem s x) ∧
  (∀ i, 1 ≤ i < 512 → entry (vmem s') P i = entry (vmem s) kroot i) ∧
  vframes s' = vframes s ∧ kernel_cr3 s' = kernel_cr3 s ∧ g_lapic_base s' = g_lapic_base s.
Proof.
  intros kroot Hmem HP Hk Hne. unfold clone_root. remember kroot as kr eqn:Ekr in *.
  assert (kernel_cr3 s = kr) as Ek0 by (by rewrite Ekr). rewrite Ek0. clear Ekr kroot. cbv zeta.
  apply (for_do_ind (λ k s',
    (∀ x, ¬ in_page P x → vmem s' x = vmem s x) ∧
    (∀ i, 1 ≤ i < k → entry (vmem s') P i = entry (vmem s) kr i) ∧
    vframes s' = vframes s ∧ kernel_cr3 s' = kr ∧ g_lapic_base s' = g_lapic_base s)); [lia| |].
  - split; [done|]. split; [lia|done].
  - intros k s' Hkk (Ho & He & Hf). assert (idx_ok k) as Hik by (unfold idx_ok; lia).
    assert (entry (vmem s') kr k = entry (vmem s) kr k) as Ek.
    { apply entry_ext; [done|]. intros x Hx. apply Ho. intros HPx. apply Hne.
      by apply (pages_disjoint P kr x). }
    split; [|split; [|done]].
    + intros x Hx. simpl. unfold set_entry. rewrite store64_out; [by apply Ho|].
      unfold in_page, idx_ok in *. lia.
    + intros i Hi. simpl. destruct (decide (i = k)) as [->|].
      * rewrite entry_set_eq; [done|]. rewrite Ek. by apply load64_range.
      * rewrite entry_set_ne; try done; [by apply He; lia|unfold idx_ok; lia|tauto].
Qed.

Lemma mem_ok_clone_root s P : mem_ok (vmem s) → mem_ok (vmem (clone_root P s)).
Proof.
  intros Hm. unfold clone_root. apply (for_do_ind (λ _ s, mem_ok (vmem s))); [lia|done|].
  intros i s' _ Hs'. cbn. by apply mem_ok_store64.
Qed.

#[local] Opaque clone_root.

(** The last two entries, on top of a memory whose page [P] holds the clone. *)
Lemma link_half_mem s2 m P D :
  let kroot := kernel_cr3 s2 in let kpdpt := e_base (entry m kroot 0) in
  mem_ok m → P mod 4096 = 0 → D mod 4096 = 0 → P ≠ D → is_u64 D →
  entry (vmem s2) kroot 0 = entry m kroot 0 → entry (vmem s2) kpdpt 0 = entry m kpdpt 0 →
  (∀ x, ¬ in_page P x → ¬ in_page D x → vmem s2 x = m x) →
  (∀ i, 1 ≤ i < 512 → entry (vmem s2) P i = entry m kroot i) →
  (∀ j, idx_ok j → entry (vmem s2) D j = 0) →
  let s' := link_kernel_half P D s2 in
  (∀ x, ¬ in_page P x → ¬ in_page D x → vmem s' x = m x) ∧
  entry (vmem s') P 0 = Z.lor D 0x07 ∧
  (∀ i, 1 ≤ i < 512 → entry (vmem s') P i = entry m kroot i) ∧
  entry (vmem s') D 0 = supervisor (entry m kpdpt 0) ∧
  (∀ j, 1 ≤ j < 512 → entry (vmem s') D j = 0) ∧
  vframes s' = vframes s2 ∧ kernel_cr3 s' = kernel_cr3 s2 ∧ g_lapic_base s' = g_lapic_base s2.
Proof.
  intros kroot kpdpt Hmem HP HD HPD HDu Ek Ekp Ho2 He2 HDz s'. unfold s', link_kernel_half.
  fold kroot. rewrite Ek. fold kpdpt. rewrite Ekp.
  fold (supervisor (entry m kpdpt 0)). set (e := supervisor (entry m kpdpt 0)).
  assert (idx_ok 0) as Hi0 by (unfold idx_ok; lia).
  assert (is_u64 e) as Heu by (apply supervisor_spec; by apply load64_range).
  assert (is_u64 (Z.lor D 7)) as HD7 by (by apply link_entry).
  simpl. split_and!; try done.
  - intros x HxP HxD. unfold set_entry. rewrite !store64_out, Ho2; try done;
      unfold in_page, idx_ok in *; lia.
  - by rewrite entry_set_eq.
  - intros i Hi. assert (idx_ok i) by (unfold idx_ok; lia).
    rewrite !entry_set_ne by (done || lia). by apply He2.
  - rewrite entry_set_ne by (done || lia). by rewrite entry_set_eq.
  - intros j Hj. assert (idx_ok j) by (unfold idx_ok; lia).
    rewrite !entry_set_ne by (done || lia). by apply HDz.
Qed.

(** What [build_space] leaves in the two fresh pages [P] and [D]. *)
Lemma build_space_mem s P D :
  let kroot := kernel_cr3 s in let m := vmem s in
  let kpdpt := e_base (entry m kroot 0) in
  mem_ok m → P mod 4096 = 0 → D mod 4096 = 0 → P ≠ D → 0 < P → 0 < D → is_u64 D →
  kroot mod 4096 = 0 → kpdpt mod 4096 = 0 →
  P ≠ kroot → D ≠ kroot → P ≠ kpdpt → D ≠ kpdpt →
  let s' := build_space P D s in
  (∀ x, ¬ in_page P x → ¬ in_page D x → vmem s' x = m x) ∧
  entry (vmem s') P 0 = Z.lor D 0x07 ∧
  (∀ i, 1 ≤ i < 512 → entry (vmem s') P i = entry m kroot i) ∧
  entry (vmem s') D 0 = supervisor (entry m kpdpt 0) ∧
  (∀ j, 1 ≤ j < 512 → entry (vmem s') D j = 0) ∧
  vframes s' = vframes s ∧ kernel_cr3 s' = kernel_cr3 s ∧ g_lapic_base s' = g_lapic_base s.
Proof.
  intros kroot m kpdpt Hmem HP HD HPD HP0 HD0 HDu Hk Hkp H1 H2 H3 H4.
  unfold build_space. set (s1 := zero_page D (zero_page P s)).
  assert (mem_ok (vmem s1)) as Hmem1 by (unfold s1, zero_page; simpl; unfold pmm_zero_page;
    destruct (truthy D), (truthy P); auto using mem_ok_memset).
  assert (∀ x, ¬ in_page P x → ¬ in_page D x → vmem s1 x = m x) as Ho1.
  { intros x HxP HxD. unfold s1; simpl. by rewrite !zero_page_out. }
  destruct (clone_root_spec s1 P Hmem1 HP Hk H1) as (Ho2 & He2 & Hf2 & Hc2 & Hl2).
  assert (∀ m', (∀ x, ¬ in_page P x → ¬ in_page D x → m' x = m x) →
    ∀ t i, t mod 4096 = 0 → P ≠ t → D ≠ t → idx_ok i → entry m' t i = entry m t i) as Hek.
  { intros m' Hm' t i Ht HtP HtD Hi. apply entry_ext; [done|]. intros x Hx.
    apply Hm'; intros Hp; [apply HtP|apply HtD]; by apply (pages_disjoint _ t x). }
  assert (∀ x, ¬ in_page P x → ¬ in_page D x → vmem (clone_root P s1) x = m x) as Ho3.
  { intros x HxP HxD. rewrite Ho2, Ho1; done. }
  assert (∀ j, idx_ok j → entry (vmem (clone_root P s1)) D j = 0) as HDz.
  { intros j Hj. rewrite (entry_ext (vmem s1)); [|done|].
    - apply zero_page_entry; [lia|done].
    - intros x Hx. apply Ho2. intros Hp. apply HPD. by apply (pages_disjoint P D x). }
  assert (idx_ok 0) as Hi0 by (unfold idx_ok; lia).
  pose proof (link_half_mem (clone_root P s1) m P D) as Hlk. cbv zeta in Hlk.
  rewrite Hf2, Hl2, Hc2 in Hlk. change (kernel_cr3 s1) with kroot in *. fold kpdpt in Hlk.
  specialize (Hlk Hmem HP HD HPD HDu).
  specialize (Hlk (Hek _ Ho3 kroot 0 Hk H1 H2 Hi0) (Hek _ Ho3 kpdpt 0 Hkp H3 H4 Hi0) Ho3).
  refine (Hlk _ HDz). intros i Hi. rewrite He2 by exact Hi.
  refine (Hek _ Ho1 kroot i Hk H1 H2 _). unfold idx_ok. lia.
Qed.


Lemma user_reach_low m P D v :
  is_u64 D → D mod 4096 = 0 → entry m P 0 = Z.lor D 0x07 → is_user (entry m D 0) = false →
  PML4_IDX v = 0 → PDPT_IDX v = 0 → user_reach m P v = false.
Proof.
  intros HDu HD HP0 HD0 E4 E3. destruct (link_entry D HDu HD) as (_ & _ & _ & Hba).
  unfold user_reach. rewrite E4, E3, HP0, Hba, HD0. by rewrite !andb_false_r.
Qed.

(** The state after both frames are allocated and filled. *)
Lemma build_space_ok s a P D :
  kernel_ok s → fa_ok a → (∀ g, fa_avail a g → fa_avail (vframes s) g) →
  P mod 4096 = 0 → 0 < P → D mod 4096 = 0 → 0 < D → is_u64 D → P ≠ D →
  fa_avail (vframes s) (P / 4096) → fa_avail (vframes s) (D / 4096) →
  ¬ fa_avail a (P / 4096) → ¬ fa_avail a (D / 4096) →
  let s' := build_space P D (with_vframes s a) in
  vm_ok s' P ∧ vframes s' = a ∧ g_lapic_base s' = g_lapic_base s ∧
  walk (vmem s') P 4 [0] = Some D ∧
  entry (vmem s') P 0 = Z.lor D 0x07 ∧ present (entry (vmem s') D 0) = true ∧
  is_user (entry (vmem s') D 0) = false ∧
  (∀ v, 0 ≤ v < 2 ^ 48 →
    leaf (vmem s') P v =
    if v <? PAGING_USER_BASE then leaf (vmem s) (kernel_cr3 s) v else None) ∧
  (∀ x, ¬ in_page P x → ¬ in_page D x → vmem s' x = vmem s x) ∧
  kernel_cr3 s' = kernel_cr3 s ∧
  ∀ p, path_ok p → walk (vmem s') P 4 p =
    if half p then walk (vmem s) (kernel_cr3 s) 4 p
    else match p with [] => Some P | [i] => if i =? 0 then Some D else None | _ => None end.
Proof.
  intros (Hvm & Hmem & Hr0 & Hri & Hkp) Ha Hsub HP HP0 HD HD0 HDu HPD HavP HavD HnP HnD.
  pose proof Hvm as (Htree & _ & Hap). set (kroot := kernel_cr3 s) in *. set (m := vmem s) in *.
  set (kpdpt := e_base (entry m kroot 0)) in *.
  assert (∀ p t, path_ok p → walk m kroot 4 p = Some t → t ≠ P ∧ t ≠ D) as Hfresh.
  { intros p t Hp Hw. split; intros ->; by apply (Hap p _ Hp Hw). }
  assert (walk m kroot 4 [0] = Some kpdpt) as Hw0 by (simpl; unfold is_table; simpl; by rewrite Hr0).
  assert (path_ok [0]) as Hp0 by (split; [repeat constructor; unfold idx_ok; lia|simpl; lia]).
  destruct (Hfresh [] kroot nil_path_ok eq_refl) as [HkP HkD].
  destruct (Hfresh [0] kpdpt Hp0 Hw0) as [HpP HpD].
  destruct (build_space_mem (with_vframes s a) P D Hmem HP HD HPD HP0 HD0 HDu
              (tree_page m kroot Htree [] kroot nil_path_ok eq_refl)
              (tree_page m kroot Htree [0] kpdpt Hp0 Hw0)
              (not_eq_sym HkP) (not_eq_sym HkD) (not_eq_sym HpP) (not_eq_sym HpD))
    as (Ho & E1 & E2 & E3 & E4 & Ef & Ek & El).
  set (s' := build_space P D (with_vframes s a)) in *. clearbody s'.
  change (vmem (with_vframes s a)) with m in *. change (kernel_cr3 (with_vframes s a)) with kroot in *.
  fold kpdpt in E3. change (vframes (with_vframes s a)) with a in Ef.
  destruct (supervisor_spec (entry m kpdpt 0)) as (_ & Hsp & Hsu & _); [by apply load64_range|].
  pose proof (new_walk m (vmem s') kroot P D Htree Hmem Hfresh HP HD HDu Hr0 Hri Hkp Ho E1 E2 E3 E4) as Hw.
  split; [split; [|split]|split_and!; try done].
  - by apply (new_tree_ok m (vmem s') kroot P D).
  - by rewrite Ef.
  - intros p t Hp Hwp. rewrite Ef. rewrite Hw in Hwp by done. destruct p as [|i p]; [by injection Hwp as <-|].
    destruct (i =? 0); [|done]. destruct p as [|j p]; [by injection Hwp as <-|].
    destruct (Z.eqb_spec j 0) as [->|]; [|done]. intros Hg%Hsub. eapply (Hap (0 :: 0 :: p) t); [|done|done].
    destruct Hp as [Hp Hl]. split; [|done]. apply Forall_cons in Hp as [_ Hp].
    constructor; [unfold idx_ok; lia|done].
  - by rewrite Hw.
  - by rewrite E3.
  - by rewrite E3.
  - intros v Hv. pose proof (low_idx v Hv) as Hlow. destruct (Z.ltb_spec v PAGING_USER_BASE).
    + by apply (kernel_leaf m (vmem s') kroot P D); try apply Hlow.
    + apply (other_leaf m (vmem s') kroot P D); try done. rewrite <- Hlow. lia.
  - intros p Hp. rewrite Hw by done. destruct p as [|i [|j p]]; [done|done|]. cbn [half].
    destruct (Z.eqb_spec i 0) as [-> |]; [|done]. by destruct (Z.eqb_spec j 0) as [-> |].
Qed.

(** The bytes stay bytes. *)
Lemma mem_ok_build_space s P D : mem_ok (vmem s) → mem_ok (vmem (build_space P D s)).
Proof.
  intros Hm. unfold build_space, link_kernel_half. cbn [vmem write_entry with_vmem]. unfold set_entry. do 2 apply mem_ok_store64.
  apply mem_ok_clone_root. by do 2 apply mem_ok_zero_page.
Qed.

#[local] Opaque build_space paging_map_large.

(** What is known of the tree under construction, and what is promised of it. *)
Definition built s (P D : Z) s5 : Prop :=
  vm_ok s5 P ∧ is_u64 D ∧ D mod 4096 = 0 ∧ walk (vmem s5) P 4 [0] = Some D ∧
  entry (vmem s5) P 0 = Z.lor D 0x07 ∧ present (entry (vmem s5) D 0) = true ∧
  is_user (entry (vmem s5) D 0) = false ∧
  ∀ v, 0 ≤ v < 2 ^ 48 →
    leaf (vmem s5) P v = if v <? PAGING_USER_BASE then leaf (vmem s) (kernel_cr3 s) v else None.

Definition space_post s (P : Z) s' : Prop :=
  vm_ok s' P ∧
  ∀ v, 0 ≤ v < 2 ^ 48 →
    user_reach (vmem s') P v = false ∧
    (v < PAGING_USER_BASE → leaf (vmem s') P v = leaf (vmem s) (kernel_cr3 s) v) ∧
    (PAGING_USER_BASE ≤ v →
     g_lapic_base s = 0 ∨ v / 2097152 ≠ g_lapic_base s / 2097152 → leaf (vmem s') P v = None).

(** From the leaves of the new tree and its first two entries to the promise. *)
Lemma space_post_intro s P D s' :
  vm_ok s' P → is_u64 D → D mod 4096 = 0 → entry (vmem s') P 0 = Z.lor D 0x07 →
  is_user (entry (vmem s') D 0) = false →
  (∀ v, 0 ≤ v < 2 ^ 48 →
     leaf (vmem s') P v =
       (if v <? PAGING_USER_BASE then leaf (vmem s) (kernel_cr3 s) v else None) ∨
     (PAGING_USER_BASE ≤ v ∧ g_lapic_base s ≠ 0 ∧ v / 2097152 = g_lapic_base s / 2097152 ∧
      ∃ e, leaf (vmem s') P v = Some (true, e) ∧ is_user e = false)) →
  space_post s P s'.
Proof.
  intros Hok HDu HD E1 HuD Hl. split; [exact Hok|]. intros v Hv. specialize (Hl v Hv).
  destruct (Z.ltb_spec v PAGING_USER_BASE) as [Hlt|Hge]; (split; [|split]).
  - apply (low_idx v Hv) in Hlt as [E4 E3]. exact (user_reach_low _ _ D v HDu HD E1 HuD E4 E3).
  - intros _. destruct Hl as [Hl|(? & _)]; [exact Hl|lia].
  - lia.
  - apply not_true_is_false. intros (l & e & Hle & Hue)%user_reach_leaf.
    destruct Hl as [Hl|(_ & _ & _ & e' & Hl & Hue')]; rewrite Hl in Hle; congruence.
  - lia.
  - intros _ Hne. destruct Hl as [Hl|(_ & ? & ? & _)]; [exact Hl|tauto].
Qed.

Lemma built_post s P D s5 : built s P D s5 → space_post s P s5.
Proof.
  intros (Hok & HDu & HD & _ & E1 & _ & HuD & Hl). eapply space_post_intro; try eassumption.
  intros v Hv. left. exact (Hl v Hv).
Qed.

Lemma built_lapic s P D s5 :
  built s P D s5 → g_lapic_base s ≠ 0 → lapic_ok s →
  let r := paging_map_large P (g_lapic_base s) (g_lapic_base s) PAGING_FLAG_WRITABLE s5 in
  space_post s P r.2 ∧ ∀ g, fa_avail (vframes r.2) g → fa_avail (vframes s5) g.
Proof.
  intros (Hok & HDu & HD & HwD & E1 & HpD & HuD & Hl) Hne [?|[Hlr Hl2]]; [done|].
  assert (is_u64 (g_lapic_base s)) as Hlu by (unfold is_u64, PAGING_USER_BASE in *; lia).
  unfold PAGING_FLAG_WRITABLE. cbv zeta.
  destruct (paging_map_large_spec s5 P (g_lapic_base s) (g_lapic_base s) 2 Hok Hlr Hl2 Hl2 Hlu ltac:(lia))
    as (Hok6 & _ & Hav6 & Hke & _ & Hr). set (r6 := paging_map_large _ _ _ _ s5) in *. clearbody r6.
  split; [|exact Hav6]. assert (idx_ok 0) as Hi0 by (unfold idx_ok; lia).
  assert (present (entry (vmem s5) P 0) = true) as HpP by (rewrite E1; by apply link_entry).
  assert (path_ok [0]) as Hp0 by (split; [repeat constructor; unfold idx_ok; lia|simpl; lia]).
  apply (space_post_intro s P D); try assumption.
  - rewrite (Hke [] P 0 nil_path_ok Hi0 eq_refl HpP). exact E1.
  - rewrite (Hke [0] D 0 Hp0 Hi0 HwD HpD). exact HuD.
  - intros v Hv. rewrite <- (Hl v Hv). destruct r6.1; [|left; apply Hr].
    destruct Hr as (e & _ & _ & Hu & Hle). rewrite (Hle v Hv).
    destruct (Z.eqb_spec (v / 2097152) (g_lapic_base s / 2097152)) as [Ev|]; [right|by left].
    split; [unfold PAGING_USER_BASE in *; dlia|]. split; [exact Hne|]. split; [exact Ev|].
    exists e. split; [reflexivity|]. rewrite Hu. reflexivity.
Qed.

(** Giving back a frame that the allocator had handed out before. *)
Lemma free_back (a a2 : A) P :
  fa_ok a2 → 0 ≤ P → fa_avail a (P / 4096) → (∀ g, fa_avail a2 g → fa_avail a g) →
  ∀ g, fa_avail (fa_free P a2) g → fa_avail a g.
Proof.
  intros Hok HP Hav Hsub g Hg. apply (fa_free_spec P a2 Hok HP) in Hg as [Hg|[-> _]]; [auto|exact Hav].
Qed.

(** C4: A new address space is a well-formed tree in a frame that was free.  Ring 3
    cannot reach any address through it, the kernel half (below 1 GiB) has the
    leaves of the kernel's own tables, and no user address is mapped except the
    2 MiB around the local APIC.  When 0 is returned at most one frame was free (or frame 0
    was, see [few]); no frame becomes free that was not. *)
Theorem paging_new_address_space_correct s :
  kernel_ok s → lapic_ok s →
  let r := paging_new_address_space s in
  (∀ g, fa_avail (vframes r.2) g → fa_avail (vframes s) g) ∧
  if r.1 =? 0 then starved 1 s
  else fa_avail (vframes s) (r.1 / 4096) ∧ space_post s r.1 r.2.
Proof.
  intros Hk Hlap. pose proof Hk as ((_ & Hfa & _) & _). unfold paging_new_address_space, alloc_frame.
  pose proof (fa_alloc_spec (vframes s) Hfa) as (Hfa1 & Hsub1 & _).
  pose proof (fa_alloc_aligned (vframes s) Hfa) as Hal1.
  destruct (fa_alloc (vframes s)) as [P a1] eqn:Ea1. cbn [fst snd vframes with_vframes] in *.
  pose proof (fa_alloc_spec a1 Hfa1) as (Hfa2 & Hsub2 & _).
  pose proof (fa_alloc_aligned a1 Hfa1) as Hal2.
  destruct (fa_alloc a1) as [D a2] eqn:Ea2. cbn [fst snd vframes with_vframes] in *.
  assert (∀ g, fa_avail a2 g → fa_avail (vframes s) g) as Hsub by auto. unfold PMM_MAX_PHYS in *.
  destruct ((P =? 0) || (D =? 0)) eqn:E0.
  { assert (starved 1 s) as Hst.
    { pose proof (alloc_few (vframes s) Hfa) as Hf1. pose proof (alloc_few a1 Hfa1) as Hf2.
      pose proof (alloc_took (vframes s) Hfa) as Ht1. rewrite Ea1 in *. rewrite Ea2 in Hf2. cbn [fst snd] in *.
      destruct (Z.eqb_spec P 0) as [E|E]; [by apply (few_le 0); [lia|apply Hf1]|].
      apply (took_few 1 0 _ _ Ht1 Hsub1). apply Hf2. simpl in E0. lia. }
    split; [|exact Hst]. unfold truthy.
    destruct (Z.eqb_spec P 0) as [->|HP]; destruct (Z.eqb_spec D 0) as [->|HD];
      simpl in *; [exact Hsub| | |done].
    - destruct (Hal2 HD) as (_ & ? & HavD & _). apply free_back; auto with lia.
    - destruct (Hal1 HP) as (_ & ? & HavP & _). apply free_back; auto with lia. }
  apply orb_false_iff in E0 as [HP0 HD0]. destruct (Hal1 ltac:(lia)) as (HP & HPr & HavP & HnP).
  destruct (Hal2 ltac:(lia)) as (HD & HDr & HavD & HnD).
  assert (P ≠ D) as HPD by (intros ->; done). assert (is_u64 D) as HDu by (unfold is_u64; lia).
  pose proof (build_space_ok s a2 P D Hk Hfa2 Hsub HP ltac:(lia) HD ltac:(lia) HDu HPD HavP
                ltac:(auto) ltac:(auto) HnD) as (Hok & Ef & El & HwD & E1 & HpD & HuD & Hleaf & _).
  change (with_vframes (with_vframes s a1) a2) with (with_vframes s a2).
  set (s5 := build_space P D (with_vframes s a2)) in *. clearbody s5. rewrite El.
  assert (built s P D s5) as Hb by (unfold built; auto 10).
  destruct (truthy (g_lapic_base s)) eqn:Elb; unfold truthy in Elb; cbn [fst snd]; rewrite HP0.
  - destruct (built_lapic s P D s5 Hb ltac:(lia) Hlap) as [Hpost Hav].
    split; [intros g Hg; apply Hsub; rewrite <- Ef; exact (Hav g Hg)|exact (conj HavP Hpost)].
  - split; [intros g Hg; apply Hsub; rewrite <- Ef; exact Hg|].
    exact (conj HavP (built_post s P D s5 Hb)).
Qed.
End NewSpaceVm.

(** ** The properties at a concrete tree

    PML4, PDPT and two PDs in the frames 16 to 19: a huge page at address 0 and
    one at 1 GiB (backed by the 2 MiB at 4 MiB); frames 5 and 6 are free. *)
Definition demo_mem : mem :=
  set_entry (set_entry (set_entry (set_entry (set_entry (λ _, 0)
    65536 0 69639) 69632 0 73735) 69632 1 77831) 73728 0 0x83) 77824 0 4194439.
Definition demo_vm : vm pmm :=
  {| vmem := demo_mem; vframes := pmm_56; kernel_cr3 := 65536; g_lapic_base := 0 |}.

Lemma demo_entry t i :
  t mod 4096 = 0 → idx_ok i →
  entry demo_mem t i =
  if (t =? 77824) && (i =? 0) then 4194439
  else if (t =? 73728) && (i =? 0) then 0x83
  else if (t =? 69632) && (i =? 1) then 77831
  else if (t =? 69632) && (i =? 0) then 73735
  else if (t =? 65536) && (i =? 0) then 69639 else 0.
Proof.
  intros Ht Hi. assert (idx_ok 0 ∧ idx_ok 1) as [H0 H1] by (unfold idx_ok; lia).
  assert (∀ m u j e, u mod 4096 = 0 → idx_ok j → is_u64 e →
    entry (set_entry m u j e) t i = if (t =? u) && (i =? j) then e else entry m t i) as Hs.
  { intros m u j e Hu Hj He. destruct ((t =? u) && (i =? j)) eqn:E.
    - bsimp. assert (t = u) as -> by lia. assert (i = j) as -> by lia. by apply entry_set_eq.
    - apply entry_set_ne; try done. lia. }
  unfold demo_mem. rewrite !Hs by (done || unfold is_u64; lia). done.
Qed.

Lemma demo_walk p :
  path_ok p →
  walk demo_mem 65536 4 p =
  match p with
  | [] => Some 65536
  | i :: p' => if i =? 0 then
      match p' with
      | [] => Some 69632
      | j :: r => match r with
                  | [] => if j =? 1 then Some 77824 else if j =? 0 then Some 73728 else None
                  | _ => None
                  end
      end
    else None
  end.
Proof.
  intros [Hp Hl]. destruct p as [|i p]; [done|]. apply Forall_cons in Hp as [Hi Hp].
  simpl. rewrite demo_entry by done. simpl. destruct (i =? 0); [|done]. simpl.
  change (e_base 69639) with 69632. destruct p as [|j p]; [done|].
  apply Forall_cons in Hp as [Hj Hp]. simpl. rewrite demo_entry by done. simpl.
  destruct (j =? 1); [|destruct (j =? 0); [|by destruct p]]; simpl;
    [change (e_base 77831) with 77824|change (e_base 73735) with 73728];
    (destruct p as [|k p]; [done|]); apply Forall_cons in Hp as [Hk Hp]; simpl;
    rewrite demo_entry by done; simpl; by destruct (k =? 0).
Qed.

Lemma demo_vm_ok : vm_ok demo_vm 65536.
Proof.
  split; [split|split].
  - intros p q t Hp Hq. rewrite !demo_walk by done.
    destruct p as [|i [|j [|k p]]], q as [|i' [|j' [|k' q]]]; intros; repeat split_if;
      simplify_eq/=; try done;
      repeat match goal with H : (_ =? _) = true |- _ => apply Z.eqb_eq in H; subst end; done.
  - intros p t Hp. rewrite demo_walk by done.
    destruct p as [|i [|j [|k p]]]; intros; repeat split_if; simplify_eq/=; done.
  - apply pmm_inv_56.
  - intros p t Hp. simpl. rewrite demo_walk by done.
    destruct p as [|i [|j [|k p]]]; intros Hw; repeat split_if; simplify_eq/=; intros [_ Hf]; by vm_compute in Hf.
Qed.

Lemma demo_kernel_ok : kernel_ok demo_vm.
Proof.
  split; [apply demo_vm_ok|]. split; [|split; [|split]].
  - simpl. unfold demo_mem. repeat apply mem_ok_store64. intros x. lia.
  - by vm_compute.
  - intros i Hi. simpl. rewrite demo_entry by (done || unfold idx_ok; lia). simpl.
    by replace (i =? 0) with false by lia.
  - by vm_compute.
Qed.

(** Mapping the page after the huge page succeeds and takes one frame. *)
Lemma paging_map_witness :
  (paging_map 65536 1075838976 8192 6 demo_vm).1 = true ∧
  paging_translate (vmem (paging_map 65536 1075838976 8192 6 demo_vm).2) 65536 1075838980 = 8196.
Proof.
  assert (PAGING_USER_BASE ≤ 1075838976 < 2 ^ 48) as Hr by (unfold PAGING_USER_BASE; lia).
  assert (is_u64 8192) as Hu by (unfold is_u64; lia). assert (0 ≤ 6 < 4096) as Hf by lia.
  assert (1075838976 mod 4096 = 0) as Hv4 by reflexivity.
  assert (8192 mod 4096 = 0) as Hp4 by reflexivity.
  pose proof (paging_map_correct demo_vm 65536 1075838976 8192 6 demo_vm_ok Hr Hv4 Hp4 Hu Hf) as H.
  apply proj2, proj2, proj2 in H.
  assert ((paging_map 65536 1075838976 8192 6 demo_vm).1 = true) as E by (by vm_compute).
  rewrite E in H. split; [exact E|]. destruct H as [_ H]. rewrite (H 1075838980) by lia. reflexivity.
Defined.

Lemma demo_leaf_apart p t :
  path_ok p → walk demo_mem 65536 4 p = Some t → ¬ leaf_frames true 4194439 (t / 4096).
Proof.
  intros Hp. rewrite demo_walk by done. unfold leaf_frames.
  change (4194439 / 2097152 * 512) with 1024.
  destruct p as [|i [|j [|k p]]]; intros Hw; repeat split_if; simplify_eq/=; intros Hf; dlia.
Qed.

(** Unmapping the huge page at 1 GiB. *)
Lemma paging_unmap_witness :
  paging_translate (vmem (paging_unmap 65536 1073741824 demo_vm)) 65536 1073741828 = 0.
Proof.
  assert (PAGING_USER_BASE ≤ 1073741824 < 2 ^ 48) as Hr by (unfold PAGING_USER_BASE; lia).
  pose proof (paging_unmap_correct demo_vm 65536 1073741824 demo_vm_ok (proj1 (proj2 demo_kernel_ok)) Hr) as H.
  assert (leaf (vmem demo_vm) 65536 1073741824 = Some (true, 4194439)) as E by (by vm_compute).
  rewrite E in H. specialize (H demo_leaf_apart).
  apply proj2, proj2, proj2 in H. rewrite (H 1073741828) by lia. reflexivity.
Defined.

Lemma paging_new_space_witness :
  (paging_new_address_space demo_vm).1 = 20480 ∧
  space_post demo_vm 20480 (paging_new_address_space demo_vm).2.
Proof.
  destruct (paging_new_address_space_correct demo_vm demo_kernel_ok (or_introl eq_refl)) as [_ H].
  assert ((paging_new_address_space demo_vm).1 = 20480) as E by (by vm_compute).
  rewrite E in H. split; [exact E|]. exact (proj2 H).
Defined.
