(* ===== verification/Space.v ===== *)
(** User memory as an address space shows it.

    [uframe] is the frame behind the page of a user address and [uview] the byte
    there.  [space_ok] is the invariant of a process's address space: the tree of
    tables is well formed, and the frames of different user pages differ from each
    other, from every table and from every free frame.  [kernel_byte] are the
    bytes outside all of these.  The lemmas say how the view moves when the kernel
    writes inside one user page and when a fresh page is mapped; the image loader
    is proved with them. *)

From stdpp Require Import prelude numbers list.
From Stdlib Require Import ZArith Lia.
From S2P Require Import Prelude Memory Frames Pmm Paging.

Open Scope Z_scope.

Definition uaddr (v : Z) : Prop := PAGING_USER_BASE ≤ v < 2 ^ 48.

Definition uframe (m : mem) (cr3 v : Z) : option Z :=
  let t := paging_translate m cr3 (v - v mod 4096) in if t =? 0 then None else Some t.

Definition uview (m : mem) (cr3 v : Z) : option Z :=
  f ← uframe m cr3 v; Some (m (f + v mod 4096)).

Lemma uaddr_start v : uaddr v → uaddr (v - v mod 4096).
Proof. unfold uaddr, PAGING_USER_BASE. intros H. dlia. Qed.

Lemma page_start v : (v - v mod 4096) / 4096 = v / 4096 ∧ (v - v mod 4096) mod 4096 = 0.
Proof. split; dlia. Qed.

Lemma uframe_page m cr3 v w : v / 4096 = w / 4096 → uframe m cr3 v = uframe m cr3 w.
Proof. intros E. unfold uframe. replace (w - w mod 4096) with (v - v mod 4096) by dlia. done. Qed.

(** The leaf of an address is that of its page. *)
Lemma leaf_page m cr3 v w : v / 4096 = w / 4096 → leaf m cr3 v = leaf m cr3 w.
Proof. intros (E4 & E3 & E2 & E1)%page_idx. unfold leaf. by rewrite E4, E3, E2, E1. Qed.

Lemma leaf_u64 m cr3 v large e : mem_ok m → leaf m cr3 v = Some (large, e) → is_u64 e.
Proof.
  intros Hm. unfold leaf. repeat (split_if; try done); intros [= <- <-]; by apply load64_range.
Qed.

Lemma land_offset v : Z.land v 0xFFF = v mod 4096.
Proof. change 0xFFF with (2 ^ 12 - 1). by rewrite land_ones_mod by lia. Qed.
Lemma land_huge v : Z.land v (PAGING_HUGE - 1) = v mod 2097152.
Proof. change (PAGING_HUGE - 1) with (2 ^ 21 - 1). by rewrite land_ones_mod by lia. Qed.

Lemma leaf_addr_page m cr3 v :
  mem_ok m → leaf m cr3 v ≠ None →
  let f := leaf_addr (leaf m cr3 v) (v - v mod 4096) in
  f mod 4096 = 0 ∧ 0 ≤ f ∧ f + 4096 ≤ 18446744073709551616 ∧
  leaf_addr (leaf m cr3 v) v = f + v mod 4096.
Proof.
  intros Hm Hl. destruct (leaf m cr3 v) as [[[] e]|] eqn:E; [| |done]; cbv zeta;
    pose proof (leaf_u64 m cr3 v _ e Hm E) as He; unfold is_u64 in He; unfold leaf_addr;
    rewrite ?e_base_div, ?e_base_large_div, ?land_huge, ?land_offset by done.
  - assert (0 ≤ e / 2097152 * 2097152 ≤ 18446744073709551616 - 2097152) by dlia.
    pose proof (Z.mod_pos_bound v 2097152 ltac:(lia)). pose proof (Z.mod_pos_bound (v - v mod 4096) 2097152 ltac:(lia)).
    rewrite !u64_small by lia. split; [dlia|]. split; [lia|]. split; [dlia|]. dlia.
  - assert (0 ≤ e / 4096 * 4096 ≤ 18446744073709551616 - 4096) by dlia.
    pose proof (Z.mod_pos_bound v 4096 ltac:(lia)).
    rewrite (proj2 (page_start v)), Z.add_0_r, !u64_small by lia. split; [dlia|]. lia.
Qed.

Lemma uframe_spec m cr3 v f :
  mem_ok m → uframe m cr3 v = Some f →
  f mod 4096 = 0 ∧ 0 < f ∧ f + 4096 ≤ 18446744073709551616 ∧ paging_translate m cr3 v = f + v mod 4096.
Proof.
  intros Hm. unfold uframe. rewrite !translate_leaf.
  rewrite (leaf_page m cr3 (v - v mod 4096) v) by apply page_start.
  destruct (leaf m cr3 v) eqn:El; [|done]. intros Hf.
  pose proof (leaf_addr_page m cr3 v Hm) as Hp. rewrite El in Hp. destruct (Hp ltac:(done)) as (H1 & H2 & H3 & H4).
  set (a := leaf_addr (Some p) (v - v mod 4096)) in *. clearbody a.
  destruct (Z.eqb_spec a 0) as [|Hne]; [done|]. injection Hf as <-.
  split; [done|]. split; [lia|]. by split.
Qed.

Lemma uframe_leaf m cr3 v : leaf m cr3 v = None → uframe m cr3 v = None.
Proof.
  intros H. unfold uframe. rewrite translate_leaf, (leaf_page m cr3 (v - v mod 4096) v) by apply page_start.
  by rewrite H.
Qed.

(** The frame in terms of the leaf entry. *)
Lemma uframe_value m c v large e f :
  mem_ok m → leaf m c v = Some (large, e) → uframe m c v = Some f →
  f = if large then e / 2097152 * 2097152 + (v - v mod 4096) mod 2097152 else e / 4096 * 4096.
Proof.
  intros Hm Hl. pose proof (leaf_u64 m c v large e Hm Hl) as He. unfold uframe.
  rewrite translate_leaf, (leaf_page m c (v - v mod 4096) v) by apply page_start. rewrite Hl. unfold is_u64 in He.
  assert (0 ≤ e / 2097152 * 2097152 ≤ 18446744073709551616 - 2097152) by dlia.
  assert (0 ≤ e / 4096 * 4096 ≤ 18446744073709551616 - 4096) by dlia.
  pose proof (Z.mod_pos_bound (v - v mod 4096) 2097152 ltac:(lia)). unfold leaf_addr. destruct large.
  - rewrite e_base_large_div, land_huge, u64_small by (done || lia). by destruct (_ =? 0); intros [= <-].
  - rewrite e_base_div, land_offset, (proj2 (page_start v)), Z.add_0_r, u64_small by (done || lia). by destruct (_ =? 0); intros [= <-].
Qed.

(** Changing memory outside the table pages changes no leaf. *)
Lemma leaf_outside m m' cr3 v :
  (∀ q t, path_ok q → walk m cr3 4 q = Some t → ∀ x, in_page t x → m' x = m x) →
  leaf m' cr3 v = leaf m cr3 v.
Proof.
  intros H. apply leaf_ext. intros q j r u E Hw.
  assert (Forall idx_ok (full_path v)) as Hf by (repeat constructor; apply idx_range; lia).
  assert (length (full_path v) = 4%nat) as Hl by done.
  rewrite E in Hf, Hl. rewrite length_app in Hl. simpl in Hl.
  apply Forall_app in Hf as [Hq Hf]. apply Forall_cons in Hf as [Hj _].
  apply entry_ext; [done|]. apply (H q); [|done]. split; [done|lia].
Qed.

Section View.
Context {A : Type} `{!FrameAllocator A, !FrameAllocatorOk A}.
Implicit Types s : vm A.

Record space_ok s (cr3 : Z) : Prop := {
  sp_vm : vm_ok s cr3;
  sp_mem : mem_ok (vmem s);
  sp_frame : ∀ v f, uaddr v → uframe (vmem s) cr3 v = Some f →
    ¬ fa_avail (vframes s) (f / 4096) ∧
    ∀ p t, path_ok p → walk (vmem s) cr3 4 p = Some t → t ≠ f;
  sp_inj : ∀ v w f, uaddr v → uaddr w → uframe (vmem s) cr3 v = Some f →
    uframe (vmem s) cr3 w = Some f → v / 4096 = w / 4096;
  sp_map : ∀ v, uaddr v → leaf (vmem s) cr3 v ≠ None → uframe (vmem s) cr3 v ≠ None
}.

(** A byte that is neither free nor part of a user page or of a table of this space
    alone (the tables of the first GiB are the kernel's). *)
Definition kernel_byte s (cr3 x : Z) : Prop :=
  ¬ fa_avail (vframes s) (x / 4096) ∧
  (∀ p t, path_ok p → half p = false → walk (vmem s) cr3 4 p = Some t → ¬ in_page t x) ∧
  ∀ v f, uaddr v → uframe (vmem s) cr3 v = Some f → ¬ in_page f x.

(** [m'] differs from the memory of [s] only in the user page in frame [f]. *)
Definition page_write s (f : Z) (m' : mem) : Prop :=
  mem_ok m' ∧ ∀ x, ¬ in_page f x → m' x = vmem s x.

(** A memory with the same tables shows the same address space. *)
Lemma space_ok_tables s cr3 m' :
  space_ok s cr3 → mem_ok m' →
  (∀ q t, path_ok q → walk (vmem s) cr3 4 q = Some t → ∀ x, in_page t x → m' x = vmem s x) →
  space_ok (with_vmem s m') cr3 ∧ (∀ p, path_ok p → walk m' cr3 4 p = walk (vmem s) cr3 4 p) ∧
  ∀ w, leaf m' cr3 w = leaf (vmem s) cr3 w.
Proof.
  intros [(Ht & Hfa & Hap) Hm Hfr Hi Hmp] Hm' Htab.
  assert (∀ p, path_ok p → walk m' cr3 4 p = walk (vmem s) cr3 4 p) as Hw by (intros p Hp; by apply walk_outside).
  assert (∀ w, leaf m' cr3 w = leaf (vmem s) cr3 w) as Hl by (intros w; by apply leaf_outside).
  assert (∀ w, uframe m' cr3 w = uframe (vmem s) cr3 w) as Hu by (intros w; unfold uframe; by rewrite !translate_leaf, Hl).
  split; [|done]. split; cbn [vmem with_vmem vframes].
  - split; [by eapply tree_ok_walks|]. split; [done|]. intros p t Hp. cbn [vmem with_vmem]. rewrite Hw by done. by apply Hap.
  - done.
  - intros w g Hwa. rewrite Hu. intros Hg. destruct (Hfr w g Hwa Hg) as [? Hne]. split; [done|].
    intros p t Hp. rewrite Hw by done. by apply Hne.
  - intros w w' g. rewrite !Hu. apply Hi.
  - intros w. rewrite Hu, Hl. apply Hmp.
Qed.

Section Write.
Context (s : vm A) (cr3 v f : Z) (m' : mem).
Context (Hs : space_ok s cr3) (Hv : uaddr v) (Hf : uframe (vmem s) cr3 v = Some f).
Context (Hm' : page_write s f m').

Lemma write_tables q t : path_ok q → walk (vmem s) cr3 4 q = Some t → ∀ x, in_page t x → m' x = vmem s x.
Proof.
  intros Hq Hw x Hx. apply Hm'. intros Hxf. destruct (sp_frame s cr3 Hs v f Hv Hf) as [_ Hne].
  apply (Hne q t Hq Hw). destruct (uframe_spec _ _ _ _ (sp_mem s cr3 Hs) Hf) as (? & _).
  apply (pages_disjoint t f x); try done. destruct (sp_vm s cr3 Hs) as (Ht & _). by apply (tree_page _ _ Ht q).
Qed.

Lemma write_walk p : path_ok p → walk m' cr3 4 p = walk (vmem s) cr3 4 p.
Proof. intros Hp. apply walk_outside; [done|]. apply write_tables. Qed.

Lemma write_translate w : paging_translate m' cr3 w = paging_translate (vmem s) cr3 w.
Proof. rewrite !translate_leaf. by rewrite (leaf_outside _ _ _ _ write_tables). Qed.

Lemma write_uframe w : uframe m' cr3 w = uframe (vmem s) cr3 w.
Proof. unfold uframe. by rewrite write_translate. Qed.

Lemma write_space : space_ok (with_vmem s m') cr3.
Proof. apply space_ok_tables; [done|apply Hm'|apply write_tables]. Qed.

Lemma write_kernel_byte x : kernel_byte s cr3 x → kernel_byte (with_vmem s m') cr3 x ∧ m' x = vmem s x.
Proof.
  intros (Hna & Hnt & Hnu). split; [split; [done|split]|apply Hm'; by eapply Hnu].
  - intros p t Hp Hh. cbn [vmem with_vmem]. rewrite write_walk by done. by apply Hnt.
  - intros w g Hw. cbn [vmem with_vmem]. rewrite write_uframe. by apply Hnu.
Qed.

(** Other pages look the same. *)
Lemma write_uview w : uaddr w → w / 4096 ≠ v / 4096 → uview m' cr3 w = uview (vmem s) cr3 w.
Proof.
  intros Hw Hne. unfold uview. rewrite write_uframe.
  destruct (uframe (vmem s) cr3 w) as [g|] eqn:Eg; [|done]. obind. obind. f_equal. apply Hm'. intros Hx.
  destruct (uframe_spec _ _ _ _ (sp_mem s cr3 Hs) Eg) as (Hg & _), (uframe_spec _ _ _ _ (sp_mem s cr3 Hs) Hf) as (Hf4 & _).
  apply Hne. apply (sp_inj s cr3 Hs w v f Hw Hv); [|done]. rewrite Eg. f_equal.
  apply (pages_disjoint g f (g + w mod 4096)); try done.
  unfold in_page. pose proof (Z.mod_pos_bound w 4096). lia.
Qed.
End Write.
(** ** Mapping a fresh page *)

(** What a mapping operation keeps: the invariant, with new tables only in frames that
    were free, the kernel's own bytes, and no frame becomes free that was not. *)
Definition evolves (cr3 : Z) s s' : Prop :=
  (space_ok s' cr3 ∧ new_tables cr3 s s') ∧
  (∀ x, kernel_byte s cr3 x → kernel_byte s' cr3 x ∧ vmem s' x = vmem s x) ∧
  ∀ g, fa_avail (vframes s') g → fa_avail (vframes s) g.

Lemma evolves_refl cr3 s : space_ok s cr3 → evolves cr3 s s.
Proof. intros H. split; [split; [done|apply new_tables_refl]|done]. Qed.

(** Writing outside the tables, and taking or giving back frames, adds no table. *)
Lemma new_tables_same cr3 s s' :
  (∀ p, path_ok p → walk (vmem s') cr3 4 p = walk (vmem s) cr3 4 p) → (mem_ok (vmem s) → mem_ok (vmem s')) →
  kernel_cr3 s' = kernel_cr3 s → g_lapic_base s' = g_lapic_base s →
  (∀ w, leaf (vmem s') cr3 w = leaf (vmem s) cr3 w) → new_tables cr3 s s'.
Proof.
  intros Hw Hm Hk Hl Hlf. split; [intros p t Hp; rewrite Hw by done; by left|]. split_and!; [done..| |].
  - intros p t Hp. by rewrite Hw.
  - intros v Hv Hn. apply Hlf.
Qed.

Lemma evolves_ok cr3 s s' : evolves cr3 s s' → space_ok s' cr3.
Proof. by intros ((? & _) & _). Qed.

Lemma write_evolves s cr3 v f m' :
  space_ok s cr3 → uaddr v → uframe (vmem s) cr3 v = Some f → page_write s f m' → evolves cr3 s (with_vmem s m').
Proof.
  intros Hs Hv Hf Hm'. split; [split; [by apply (write_space s cr3 v f)|]|split; [|done]].
  - apply new_tables_same; [|intros _; apply Hm'|done|done|].
    + intros p Hp. by apply (write_walk s cr3 v f).
    + intros w. apply leaf_outside. by apply (write_tables s cr3 v f).
  - intros x Hx. by apply (write_kernel_byte s cr3 v f).
Qed.

Lemma evolves_trans cr3 s1 s2 s3 : evolves cr3 s1 s2 → evolves cr3 s2 s3 → evolves cr3 s1 s3.
Proof.
  intros ((_ & Hn) & Hk & Ha) ((Ho & Hn') & Hk' & Ha'). split; [split; [done|by eapply new_tables_trans]|]. split; [|auto]. intros x Hx.
  destruct (Hk x Hx) as [Hx2 E]. destruct (Hk' x Hx2) as [? ->]. done.
Qed.

Section Fresh.
Context (s : vm A) (cr3 n : Z) (a : A) (m2 : mem).
Context (Hs : space_ok s cr3).
Context (Ha : fa_alloc (vframes s) = (n, a)) (Hn : n ≠ 0).
Context (Hm2 : mem_ok m2) (Hm2o : ∀ x, ¬ in_page n x → m2 x = vmem s x).
(** The frame is taken and filled. *)
Let s2 := with_vmem (with_vframes s a) m2.

Lemma fresh_frame :
  n mod 4096 = 0 ∧ 0 < n < PMM_MAX_PHYS ∧ fa_avail (vframes s) (n / 4096) ∧ ¬ fa_avail a (n / 4096) ∧
  fa_ok a ∧ ∀ g, fa_avail a g → fa_avail (vframes s) g.
Proof.
  destruct (sp_vm s cr3 Hs) as (_ & Hfa & _). pose proof (fa_alloc_aligned (vframes s) Hfa) as H1.
  pose proof (fa_alloc_spec (vframes s) Hfa) as H2. rewrite Ha in H1, H2. cbn [fst snd] in *.
  destruct (H1 Hn) as (? & ? & ? & ?), H2 as (? & ? & _). done.
Qed.

Lemma fresh_not_table q t : path_ok q → walk (vmem s) cr3 4 q = Some t → t ≠ n.
Proof.
  intros Hq Hw ->. destruct (sp_vm s cr3 Hs) as (_ & _ & Hap). apply (Hap q n Hq Hw). by destruct fresh_frame as (_ & _ & ? & _).
Qed.

Lemma filled_same q t x : path_ok q → walk (vmem s) cr3 4 q = Some t → in_page t x → m2 x = vmem s x.
Proof.
  intros Hq Hw Hx. apply Hm2o. intros Hnx. apply (fresh_not_table q t Hq Hw).
  apply (pages_disjoint t n x); try done; [by apply (tree_page _ _ (proj1 (sp_vm s cr3 Hs)) q)|apply fresh_frame].
Qed.

Lemma filled_walk p : path_ok p → walk m2 cr3 4 p = walk (vmem s) cr3 4 p.
Proof. intros Hp. apply walk_outside; [done|]. intros q t Hq Hw x. by apply (filled_same q). Qed.

Lemma filled_vm : vm_ok s2 cr3 ∧ mem_ok (vmem s2).
Proof.
  destruct fresh_frame as (_ & _ & _ & _ & Hfa & Hsub). destruct (sp_vm s cr3 Hs) as (Ht & _ & Hap).
  split; [|done]. split; [|split; [done|]]; cbn [vmem vframes s2 with_vmem with_vframes].
  - eapply tree_ok_walks; [apply filled_walk|done].
  - intros p t Hp. rewrite filled_walk by done. intros Hw Hg. by eapply Hap, Hsub.
Qed.

Lemma filled_frame w : leaf (vmem s2) cr3 w = leaf (vmem s) cr3 w ∧ uframe (vmem s2) cr3 w = uframe (vmem s) cr3 w.
Proof.
  assert (∀ v, leaf (vmem s2) cr3 v = leaf (vmem s) cr3 v) as E.
  { intros v. apply leaf_outside. intros q t Hq Hw x. by apply (filled_same q). }
  split; [apply E|]. unfold uframe. by rewrite !translate_leaf, E.
Qed.

Lemma filled_tables : new_tables cr3 s s2.
Proof. apply new_tables_same; [apply filled_walk|done..|intros w; apply filled_frame]. Qed.

(** After tables were added in a state [s3], old pages and kernel bytes are intact. *)
Context (s3 : vm A).
Context (Hvm3 : vm_ok s3 cr3) (Hout : same_outside_tables cr3 s2 s3) (Hnew : new_tables cr3 s2 s3).
Context (Hsub3 : ∀ g, fa_avail (vframes s3) g → fa_avail a g).

Lemma fresh_tables q t x :
  path_ok q → walk (vmem s3) cr3 4 q = Some t → in_page t x →
  walk (vmem s) cr3 4 q = Some t ∨ fa_avail a (x / 4096).
Proof.
  intros Hq Hw Hx. destruct (proj1 Hnew q t Hq Hw) as [Hw2|Hav].
  - left. by rewrite <- filled_walk.
  - right. replace (x / 4096) with (t / 4096); [exact Hav|].
    pose proof (tree_page _ _ (proj1 Hvm3) q t Hq Hw). unfold in_page in Hx. dlia.
Qed.

Lemma fresh_kept x : ¬ fa_avail (vframes s) (x / 4096) →
  (∀ q t, path_ok q → half q = false → walk (vmem s) cr3 4 q = Some t → ¬ in_page t x) →
  vmem s3 x = vmem s x ∧ ∀ q t, path_ok q → half q = false → walk (vmem s3) cr3 4 q = Some t → ¬ in_page t x.
Proof.
  intros Hna Hnt. destruct fresh_frame as (Hn4 & _ & Hav & _ & _ & Hsub).
  assert (∀ q t, path_ok q → half q = false → walk (vmem s3) cr3 4 q = Some t → ¬ in_page t x) as Hnt3.
  { intros q t Hq Hh Hw Hx. destruct (fresh_tables q t x Hq Hw Hx) as [Hw'|]; [by eapply Hnt|auto]. }
  split; [|done]. rewrite Hout by done. apply Hm2o. intros Hx. apply Hna.
  replace (x / 4096) with (n / 4096); [done|]. unfold in_page in Hx. dlia.
Qed.

Lemma fresh_kernel_byte x :
  (∀ w f, uaddr w → uframe (vmem s3) cr3 w = Some f → f = n ∨ uframe (vmem s) cr3 w = Some f) →
  kernel_byte s cr3 x → kernel_byte s3 cr3 x ∧ vmem s3 x = vmem s x.
Proof.
  intros Huf (Hna & Hnt & Hnu). destruct fresh_frame as (Hn4 & _ & Hav & _ & _ & Hsub).
  destruct (fresh_kept x Hna Hnt) as [E Hnt3]. split; [|done]. split; [auto|]. split; [done|].
  intros w f Hw Hf. destruct (Huf w f Hw Hf) as [-> |Hf']; [|by eapply Hnu]. intros Hx. apply Hna.
  replace (x / 4096) with (n / 4096); [done|]. unfold in_page in Hx. dlia.
Qed.

(** Bytes of a page mapped before. *)
Lemma fresh_old_page w f x : uaddr w → uframe (vmem s) cr3 w = Some f → in_page f x →
  vmem s3 x = vmem s x ∧ ∀ q t, path_ok q → walk (vmem s3) cr3 4 q = Some t → t ≠ f.
Proof.
  intros Hw Hf Hx. destruct (sp_frame s cr3 Hs w f Hw Hf) as [Hna Hne].
  destruct (uframe_spec _ _ _ _ (sp_mem s cr3 Hs) Hf) as (Hf4 & _).
  assert (∀ y, in_page f y → y / 4096 = f / 4096) as Hpg by (unfold in_page; intros; dlia).
  destruct (fresh_kept x) as [E _]; [by rewrite Hpg| |].
  { intros q t Hq _ Hwq Htx. apply (Hne q t Hq Hwq). apply (pages_disjoint t f x); try done.
    by apply (tree_page _ _ (proj1 (sp_vm s cr3 Hs)) q). }
  split; [done|]. intros q t Hq Hwq ->.
  destruct (fresh_tables q f f Hq Hwq ltac:(unfold in_page; lia)) as [Hw'|Hav]; [by eapply Hne|].
  destruct fresh_frame as (_ & _ & _ & _ & _ & Hsub). auto.
Qed.

(** Bytes of the new page. *)
Lemma fresh_new_page x : in_page n x →
  vmem s3 x = m2 x ∧ ∀ q t, path_ok q → walk (vmem s3) cr3 4 q = Some t → t ≠ n.
Proof.
  intros Hx. destruct fresh_frame as (Hn4 & Hnr & Hav & Hna & _).
  assert (∀ y, in_page n y → y / 4096 = n / 4096) as Hpg by (unfold in_page; intros; dlia).
  assert (∀ q t y, path_ok q → walk (vmem s3) cr3 4 q = Some t → in_page n y → ¬ in_page t y) as Hnt.
  { intros q t y Hq Hw Hny Hty. destruct (fresh_tables q t y Hq Hw Hty) as [Hw'|Hay].
    - apply (fresh_not_table q t Hq Hw'). apply (pages_disjoint t n y); try done.
      by apply (tree_page _ _ (proj1 Hvm3) q).
    - rewrite Hpg in Hay by done. done. }
  split.
  - by rewrite Hout by (intros q t Hq _ Hw; by eapply Hnt).
  - intros q t Hq Hw ->. apply (Hnt q n n Hq Hw); unfold in_page; lia.
Qed.
End Fresh.
End View.
