(* ===== verification/Ring.v ===== *)
(** Bounded ring queues.

    The keyboard event queue, the raw byte queue of every terminal and the mouse
    event queue are the same structure: an array of [cap] slots with a head that
    is written and a tail that is read, one slot always left empty.  The three
    drivers instantiate it.  [contents] is the abstract queue; pushing and popping
    are shown to be the operations of a bounded first-in first-out queue that
    drops what does not fit. *)

From stdpp Require Import prelude numbers list.
From Stdlib Require Import ZArith Lia.
From S2P Require Import Prelude.

Open Scope Z_scope.

Section Ring.
Context {T : Type}.

Record ring : Type := {
  rbuf : Z → T;
  rhead : Z;
  rtail : Z
}.

(** [next = (head + 1) % cap; if (next != tail) { buf[head] = x; head = next; }] *)
Definition ring_push (cap : Z) (x : T) (r : ring) : ring :=
  let next := u32 (rhead r + 1) mod cap in
  if next =? rtail r then r
  else {| rbuf := λ i, if i =? rhead r then x else rbuf r i; rhead := next; rtail := rtail r |}.

(** [if (head == tail) return false; *e = buf[tail]; tail = (tail + 1) % cap;] *)
Definition ring_pop (cap : Z) (r : ring) : option (T * ring) :=
  if rhead r =? rtail r then None
  else Some (rbuf r (rtail r),
             {| rbuf := rbuf r; rhead := rhead r; rtail := u32 (rtail r + 1) mod cap |}).

Definition ring_reset (r : ring) : ring := {| rbuf := rbuf r; rhead := 0; rtail := 0 |}.

(** ** The abstract queue *)

Definition ring_ok (cap : Z) (r : ring) : Prop := 0 ≤ rhead r < cap ∧ 0 ≤ rtail r < cap.

Definition ring_len (cap : Z) (r : ring) : Z := (rhead r - rtail r) mod cap.

(** [n] slots from [i] on, around the end of the array. *)
Fixpoint slots (cap : Z) (b : Z → T) (i : Z) (n : nat) : list T :=
  match n with
  | O => []
  | Datatypes.S n => b i :: slots cap b ((i + 1) mod cap) n
  end.

Definition contents (cap : Z) (r : ring) : list T :=
  slots cap (rbuf r) (rtail r) (Z.to_nat (ring_len cap r)).

Lemma slots_length cap b i n : length (slots cap b i n) = n.
Proof. revert i; induction n as [|n IH]; intros i; simpl; [done|]. by rewrite IH. Qed.

Lemma slots_snoc cap b i n :
  0 < cap → 0 ≤ i < cap →
  slots cap b i (Datatypes.S n) = slots cap b i n ++ [b ((i + Z.of_nat n) mod cap)].
Proof.
  intros Hc. revert i; induction n as [|n IH]; intros i Hi.
  - simpl. by rewrite Z.add_0_r, Z.mod_small by lia.
  - change (slots cap b i (Datatypes.S (Datatypes.S n)))
      with (b i :: slots cap b ((i + 1) mod cap) (Datatypes.S n)).
    rewrite IH by (apply Z.mod_pos_bound; lia). simpl. do 4 f_equal.
    rewrite Zplus_mod_idemp_l. f_equal. lia.
Qed.

Lemma slots_ext cap b b' i n :
  0 < cap → 0 ≤ i < cap →
  (∀ k, 0 ≤ k < Z.of_nat n → b ((i + k) mod cap) = b' ((i + k) mod cap)) →
  slots cap b i n = slots cap b' i n.
Proof.
  intros Hc. revert i; induction n as [|n IH]; intros i Hi H; simpl; [done|].
  f_equal.
  - specialize (H 0 ltac:(lia)). by rewrite Z.add_0_r, Z.mod_small in H by lia.
  - apply IH; [apply Z.mod_pos_bound; lia|]. intros k Hk. specialize (H (k + 1) ltac:(lia)).
    rewrite !Zplus_mod_idemp_l. by replace (i + 1 + k) with (i + (k + 1)) by lia.
Qed.

Lemma contents_length cap r : 0 < cap → Z.of_nat (length (contents cap r)) = ring_len cap r.
Proof.
  intros Hc. unfold contents. rewrite slots_length, Z2Nat.id; [done|].
  unfold ring_len. apply Z.mod_pos_bound. lia.
Qed.

Lemma mod_step cap x y :
  0 < cap → 0 ≤ x < cap → 0 ≤ y < cap → x ≠ y → (x - y) mod cap = ((x - (y + 1) mod cap) mod cap) + 1.
Proof.
  intros Hc Hx Hy Hne. destruct (decide (y + 1 = cap)) as [E|].
  - rewrite (Z.mod_eq (y + 1)), E, Z.div_same by lia.
    rewrite Z.mul_1_r, Z.sub_diag, Z.sub_0_r, (Z.mod_small x) by lia.
    replace (x - y) with (x + 1 + -1 * cap) by lia. rewrite Z.mod_add by lia.
    apply Z.mod_small. lia.
  - rewrite (Z.mod_small (y + 1)) by lia. destruct (Z.lt_ge_cases y x).
    + rewrite !Z.mod_small by lia. lia.
    + replace (x - y) with (x - y + cap + -1 * cap) by lia.
      replace (x - (y + 1)) with (x - (y + 1) + cap + -1 * cap) by lia.
      rewrite !Z.mod_add, !Z.mod_small by lia. lia.
Qed.

(** Popping is the head of the queue, and fails exactly on the empty one. *)
Lemma ring_pop_contents cap r :
  0 < cap < 4294967296 → ring_ok cap r →
  match contents cap r with
  | [] => ring_pop cap r = None
  | x :: l => ∃ r', ring_pop cap r = Some (x, r') ∧ ring_ok cap r' ∧ contents cap r' = l
  end.
Proof.
  intros Hc [Hh Ht]. unfold contents, ring_pop. destruct (Z.eqb_spec (rhead r) (rtail r)) as [E|E].
  - unfold ring_len. by rewrite E, Z.sub_diag, Z.mod_0_l by lia.
  - assert (ring_len cap r = ((rhead r - (rtail r + 1) mod cap) mod cap) + 1) as El
      by (apply mod_step; lia).
    pose proof (Z.mod_pos_bound (rhead r - (rtail r + 1) mod cap) cap ltac:(lia)).
    rewrite El, Z2Nat.inj_add by lia. rewrite Nat.add_comm. simpl.
    eexists. split; [done|]. rewrite u32_small by lia.
    pose proof (Z.mod_pos_bound (rtail r + 1) cap ltac:(lia)). split; [split; simpl; lia|].
    unfold contents, ring_len. simpl. done.
Qed.

(** Pushing appends, or drops the element when [cap - 1] are queued. *)
Lemma ring_push_contents cap x r :
  1 < cap < 4294967296 → ring_ok cap r →
  ring_ok cap (ring_push cap x r) ∧
  contents cap (ring_push cap x r) =
  if ring_len cap r =? cap - 1 then contents cap r else contents cap r ++ [x].
Proof.
  intros Hc [Hh Ht]. unfold ring_push. rewrite u32_small by lia.
  pose proof (Z.mod_pos_bound (rhead r + 1) cap ltac:(lia)) as Hn.
  assert (ring_len cap r = cap - 1 ↔ (rhead r + 1) mod cap = rtail r) as Hfull.
  { unfold ring_len. destruct (decide (rhead r + 1 = cap)) as [E|].
    - rewrite E, Z.mod_same, Z.mod_small by lia. lia.
    - rewrite (Z.mod_small (rhead r + 1)) by lia. destruct (Z.lt_ge_cases (rhead r) (rtail r)).
      + replace (rhead r - rtail r) with (rhead r - rtail r + cap + -1 * cap) by lia.
        rewrite Z.mod_add, Z.mod_small by lia. lia.
      + rewrite Z.mod_small by lia. lia. }
  destruct (Z.eqb_spec ((rhead r + 1) mod cap) (rtail r)) as [E|E].
  { apply Hfull in E. rewrite E, Z.eqb_refl. done. }
  replace (ring_len cap r =? cap - 1) with false by (symmetry; apply Z.eqb_neq; tauto).
  split; [split; simpl; lia|].
  assert (((rhead r + 1) mod cap - rtail r) mod cap = ring_len cap r + 1) as El.
  { unfold ring_len. pose proof (Z.mod_pos_bound (rhead r - rtail r) cap ltac:(lia)).
    rewrite Zminus_mod_idemp_l. replace (rhead r + 1 - rtail r) with (rhead r - rtail r + 1) by lia.
    rewrite <- Zplus_mod_idemp_l. apply Z.mod_small. unfold ring_len in Hfull. lia. }
  assert (0 ≤ ring_len cap r < cap) as Hl by (apply Z.mod_pos_bound; lia).
  unfold contents. unfold ring_len at 1. cbn [rbuf rhead rtail]. rewrite El, Z2Nat.inj_add by lia.
  rewrite Nat.add_comm. change (Z.to_nat 1 + ?n)%nat with (Datatypes.S n).
  assert ((rtail r + ring_len cap r) mod cap = rhead r) as Ehd.
  { unfold ring_len. rewrite Zplus_mod_idemp_r. replace (rtail r + (rhead r - rtail r)) with (rhead r) by lia.
    apply Z.mod_small. lia. }
  rewrite slots_snoc, Z2Nat.id, Ehd, Z.eqb_refl by lia. f_equal.
  apply slots_ext; [lia|lia|]. intros k Hk. rewrite Z2Nat.id in Hk by lia.
  destruct (Z.eqb_spec ((rtail r + k) mod cap) (rhead r)) as [Ek|]; [exfalso|done].
  rewrite <- Ehd in Ek. revert Ek. clear - Hk Hl Ht Hc. intros Ek.
  assert ((rtail r + ring_len cap r - (rtail r + k)) mod cap = 0) as H0.
  { rewrite Zminus_mod, Ek, Z.sub_diag. apply Z.mod_0_l. lia. }
  replace (rtail r + ring_len cap r - (rtail r + k)) with (ring_len cap r - k) in H0 by lia.
  rewrite Z.mod_small in H0; lia.
Qed.

Lemma ring_reset_contents cap r :
  0 < cap → ring_ok cap (ring_reset r) ∧ contents cap (ring_reset r) = [].
Proof. intros Hc. split; [split; simpl; lia|]. unfold contents, ring_len. cbn [rhead rtail ring_reset]. by rewrite Z.mod_0_l by lia. Qed.
End Ring.
Arguments ring : clear implicits.
