(* ===== verification/Tty.v ===== *)
(** Keyboard stack and terminals (driver/stacks/input/keyboard_stack.c).

    The state holds the file's statics: key and modifier state, the event queue,
    the active virtual terminal and one [vt_tty] per terminal with its canonical
    line buffer, its raw byte queue and its termios.  What the code shows (the
    echo on the debug console and the screen, the switch of the displayed
    terminal) is recorded as a trace of outputs.  Characters are [char]s, so they
    are signed; bytes of the raw queue are [uint8_t]. *)

From stdpp Require Import prelude numbers list.
From Stdlib Require Import ZArith Lia.
From S2P Require Import Prelude Memory Ring.

Open Scope Z_scope.

Definition KEYBOARD_MAX_KEYS : Z := 512.
Definition KEYBOARD_QUE_SIZE : Z := 256.
Definition TTY_LINE_MAX : Z := 256.
Definition TTY_VT_MAX : Z := 4.
Definition TTY_RAW_MAX : Z := 256.
Definition TTY_LFLAG_ISIG : Z := 0x1.
Definition TTY_LFLAG_ICANON : Z := 0x2.
Definition TTY_LFLAG_ECHO : Z := 0x10.
Definition TTY_CC_VMIN : Z := 6.
Definition TTY_CC_VTIME : Z := 5.

Definition KEY_LEFT_SHIFT : Z := 0x2A.
Definition KEY_RIGHT_SHIFT : Z := 0x36.
Definition KEY_LEFT_CTRL : Z := 0x1D.
Definition KEY_RIGHT_CTRL : Z := 0x11D.
Definition KEY_LEFT_ALT : Z := 0x38.
Definition KEY_RIGHT_ALT : Z := 0x138.
Definition KEY_ESC : Z := 0x01.
Definition KEY_TAB : Z := 0x0F.
Definition KEY_ENTER : Z := 0x1C.
Definition KEY_BACKSPACE : Z := 0x0E.
Definition KEY_UP : Z := 0x148.
Definition KEY_LEFT : Z := 0x14B.
Definition KEY_RIGHT : Z := 0x14D.
Definition KEY_DOWN : Z := 0x150.
Definition KEY_C : Z := 0x2E.
Definition KEY_F1 : Z := 0x3B.
Definition KEY_F6 : Z := 0x40.
Definition KEY_HOME : Z := 0x147.
Definition KEY_PAGE_UP : Z := 0x149.
Definition KEY_END : Z := 0x14F.
Definition KEY_PAGE_DOWN : Z := 0x151.
Definition KEY_DELETE : Z := 0x153.

Record keyboard_event : Type := { e_keycode : Z; e_ascii : Z; e_pressed : bool }.

Record termios : Type := {
  c_iflag : Z; c_oflag : Z; c_cflag : Z; c_lflag : Z; c_line : Z; c_cc : Z → Z
}.

Record vt_tty : Type := {
  line : Z → Z;
  len : Z;
  ready : bool;
  sigint : bool;
  raw : ring Z;
  tio : termios
}.

(** What becomes visible: the debug console, the screen of a terminal, the
    switch of the displayed terminal. *)
Inductive tty_out : Type :=
| debug_putc (c : Z)
| debug_puts (s : list Z)
| vga_vt_putc (vt c : Z)
| vga_vt_switch (vt : Z).

Record kbd : Type := {
  key_state : Z → bool;
  k_shift : bool;
  k_ctrl : bool;
  k_alt : bool;
  queue : ring keyboard_event;
  vts : Z → vt_tty;
  active_vt : Z;
  out : list tty_out
}.

Definition with_vt (k : kbd) (vt : Z) (t : vt_tty) : kbd :=
  {| key_state := key_state k; k_shift := k_shift k; k_ctrl := k_ctrl k; k_alt := k_alt k;
     queue := queue k; vts := λ i, if i =? vt then t else vts k i;
     active_vt := active_vt k; out := out k |}.
Definition with_queue (k : kbd) (q : ring keyboard_event) : kbd :=
  {| key_state := key_state k; k_shift := k_shift k; k_ctrl := k_ctrl k; k_alt := k_alt k;
     queue := q; vts := vts k; active_vt := active_vt k; out := out k |}.
Definition with_active (k : kbd) (vt : Z) : kbd :=
  {| key_state := key_state k; k_shift := k_shift k; k_ctrl := k_ctrl k; k_alt := k_alt k;
     queue := queue k; vts := vts k; active_vt := vt; out := out k |}.
Definition with_keys (k : kbd) (ks : Z → bool) (s c a : bool) : kbd :=
  {| key_state := ks; k_shift := s; k_ctrl := c; k_alt := a;
     queue := queue k; vts := vts k; active_vt := active_vt k; out := out k |}.
Definition emit (o : tty_out) (k : kbd) : kbd :=
  {| key_state := key_state k; k_shift := k_shift k; k_ctrl := k_ctrl k; k_alt := k_alt k;
     queue := queue k; vts := vts k; active_vt := active_vt k; out := out k ++ [o] |}.

Definition with_line (t : vt_tty) (l : Z → Z) (n : Z) (rd : bool) : vt_tty :=
  {| line := l; len := n; ready := rd; sigint := sigint t; raw := raw t; tio := tio t |}.
Definition with_raw (t : vt_tty) (r : ring Z) : vt_tty :=
  {| line := line t; len := len t; ready := ready t; sigint := sigint t; raw := r; tio := tio t |}.
Definition with_sigint (t : vt_tty) (b : bool) : vt_tty :=
  {| line := line t; len := len t; ready := ready t; sigint := b; raw := raw t; tio := tio t |}.
Definition with_tio (t : vt_tty) (x : termios) : vt_tty :=
  {| line := line t; len := len t; ready := ready t; sigint := sigint t; raw := raw t; tio := x |}.

(** [line[i] = c] *)
Definition put (l : Z → Z) (i c : Z) : Z → Z := λ j, if j =? i then c else l j.

Definition default_termios (t : termios) : termios :=
  {| c_iflag := 0; c_oflag := 0; c_cflag := 0;
     c_lflag := Z.lor (Z.lor TTY_LFLAG_ISIG TTY_LFLAG_ICANON) TTY_LFLAG_ECHO; c_line := 0;
     c_cc := put (put (for_do 0 32 (λ i cc, put cc i 0) (c_cc t)) TTY_CC_VMIN 1) TTY_CC_VTIME 0 |}.

Definition init_vt (t : vt_tty) : vt_tty :=
  {| line := put (line t) 0 0; len := 0; ready := false; sigint := false;
     raw := ring_reset (raw t); tio := default_termios (tio t) |}.

Definition keyboard_stack_init (k : kbd) : kbd :=
  let k := with_keys k (for_do 0 KEYBOARD_MAX_KEYS (λ i ks j, if j =? i then false else ks j)
                          (key_state k)) (k_shift k) (k_ctrl k) (k_alt k) in
  let k := with_queue k (ring_reset (queue k)) in
  for_do 0 TTY_VT_MAX (λ v k, with_vt k v (init_vt (vts k v))) k.

Definition keyboard_is_pressed (k : kbd) (key : Z) : bool := key_state k key.
Definition keyboard_shift (k : kbd) : bool := k_shift k.
Definition keyboard_ctrl (k : kbd) : bool := k_ctrl k.
Definition keyboard_alt (k : kbd) : bool := k_alt k.

(** The two translation tables; missing initialisers are 0. *)
Definition ascii_normal : list Z :=
  [0; 0; 49; 50; 51; 52; 53; 54; 55; 56; 57; 48; 45; 61; 0; 0;
   113; 119; 101; 114; 116; 121; 117; 105; 111; 112; 91; 93; 10; 0;
   97; 115; 100; 102; 103; 104; 106; 107; 108; 59; 39; 96; 0; 92;
   122; 120; 99; 118; 98; 110; 109; 44; 46; 47; 0; 0; 0; 32].
Definition ascii_shifted : list Z :=
  [0; 0; 33; 64; 35; 36; 37; 94; 38; 42; 40; 41; 95; 43; 0; 0;
   81; 87; 69; 82; 84; 89; 85; 73; 79; 80; 123; 125; 10; 0;
   65; 83; 68; 70; 71; 72; 74; 75; 76; 58; 34; 126; 0; 124;
   90; 88; 67; 86; 66; 78; 77; 60; 62; 63; 0; 0; 0; 32].

Definition hid_key_to_ascii (keycode : Z) (shift : bool) : Z :=
  if 0x3A <=? keycode then 0
  else nth (Z.to_nat keycode) (if shift then ascii_shifted else ascii_normal) 0.

(** ** Raw queue *)

Definition tty_push_raw (vt byte : Z) (k : kbd) : kbd :=
  with_vt k vt (with_raw (vts k vt) (ring_push TTY_RAW_MAX (u8 byte) (raw (vts k vt)))).

Definition push_all (vt : Z) (bytes : list Z) (k : kbd) : kbd :=
  foldl (λ k b, tty_push_raw vt b k) k bytes.

(** The escape sequence or control byte of the keys the [switch] lists. *)
Definition special_bytes (key : Z) : option (list Z) :=
  if key =? KEY_UP then Some [0x1b; 91; 65]
  else if key =? KEY_DOWN then Some [0x1b; 91; 66]
  else if key =? KEY_RIGHT then Some [0x1b; 91; 67]
  else if key =? KEY_LEFT then Some [0x1b; 91; 68]
  else if key =? KEY_HOME then Some [0x1b; 91; 49; 126]
  else if key =? KEY_END then Some [0x1b; 91; 52; 126]
  else if key =? KEY_PAGE_UP then Some [0x1b; 91; 53; 126]
  else if key =? KEY_PAGE_DOWN then Some [0x1b; 91; 54; 126]
  else if key =? KEY_DELETE then Some [0x1b; 91; 51; 126]
  else if key =? KEY_ESC then Some [0x1b]
  else if key =? KEY_TAB then Some [9]
  else if key =? KEY_ENTER then Some [10]
  else if key =? KEY_BACKSPACE then Some [0x7F]
  else None.

(** The bytes one key press puts into the raw queue. *)
Definition raw_bytes (key : Z) (shift ctrl : bool) : list Z :=
  match special_bytes key with
  | Some bs => bs
  | None =>
      let c := hid_key_to_ascii key false in
      if ctrl && (97 <=? c) && (c <=? 122) then [u8 (Z.land c 0x1F)]
      else
        let ascii := hid_key_to_ascii key shift in
        if 0x20 <=? ascii then [u8 ascii] else []
  end.

Definition keyboard_raw_push (vt key : Z) (shift ctrl : bool) (k : kbd) : kbd :=
  push_all vt (raw_bytes key shift ctrl) k.

(** ** Terminals *)

Definition tty_active_vt (k : kbd) : Z := active_vt k.

Definition tty_vt_switch (vt : Z) (k : kbd) : kbd :=
  if TTY_VT_MAX <=? vt then k else emit (vga_vt_switch vt) (with_active k vt).

Definition tty_set_mode (vt : Z) (t : termios) (k : kbd) : kbd :=
  if TTY_VT_MAX <=? vt then k
  else
    let s := with_tio (vts k vt) t in
    let s := with_line s (put (line s) 0 0) 0 false in
    with_vt k vt (with_raw s (ring_reset (raw s))).

Definition tty_get_mode (vt : Z) (k : kbd) : option termios :=
  if TTY_VT_MAX <=? vt then None else Some (tio (vts k vt)).

Definition tty_raw_mode (vt : Z) (k : kbd) : bool :=
  if TTY_VT_MAX <=? vt then false
  else Z.land (c_lflag (tio (vts k vt))) TTY_LFLAG_ICANON =? 0.

Definition tty_raw_available (vt : Z) (k : kbd) : Z :=
  if TTY_VT_MAX <=? vt then 0
  else u32 (rhead (raw (vts k vt)) - rtail (raw (vts k vt))) mod TTY_RAW_MAX.

(** One round of the drain loop: bytes copied so far, memory, queue. *)
Definition read_raw_step (buf n_max : Z) (s : Z * mem * ring Z)
  : Z * mem * ring Z + Z * mem * ring Z :=
  let '(n, m, r) := s in
  if n <? n_max then
    match ring_pop TTY_RAW_MAX r with
    | None => inr s
    | Some (b, r) => inl (n + 1, store8 m (buf + n) b, r)
    end
  else inr s.

Definition tty_read_raw (vt buf n_max : Z) (m : mem) (k : kbd) : option (Z * mem * kbd) :=
  if (TTY_VT_MAX <=? vt) || (buf =? 0) then Some (0, m, k)
  else
    match while_ 4294967297 (read_raw_step buf n_max) (0, m, raw (vts k vt)) with
    | None => None
    | Some (n, m, r) => Some (n, m, with_vt k vt (with_raw (vts k vt) r))
    end.

Definition tty_get_vmin (vt : Z) (k : kbd) : Z :=
  if TTY_VT_MAX <=? vt then 0 else c_cc (tio (vts k vt)) TTY_CC_VMIN.
Definition tty_get_vtime (vt : Z) (k : kbd) : Z :=
  if TTY_VT_MAX <=? vt then 0 else c_cc (tio (vts k vt)) TTY_CC_VTIME.

(** [c] is a [char]: a value from -128 to 127. *)
Definition tty_input_char (c : Z) (k : kbd) : kbd :=
  let vt := active_vt k in
  let t := vts k vt in
  if ready t then k
  else if c =? 10 then
    let '(l, n) := if len t <? TTY_LINE_MAX - 1 then (put (line t) (len t) 10, len t + 1)
                   else (line t, len t) in
    emit (debug_putc 10) (with_vt k vt (with_line t (put l n 0) n true))
  else if (c =? 0x08) || (c =? 0x7F) then
    if 0 <? len t then
      emit (debug_puts [8; 32; 8])
        (with_vt k vt (with_line t (put (line t) (len t - 1) 0) (len t - 1) (ready t)))
    else k
  else if (0x01 <=? c) && (len t <? TTY_LINE_MAX - 1) then
    let k := with_vt k vt (with_line t (put (line t) (len t) c) (len t + 1) (ready t)) in
    if 0x20 <=? c then emit (debug_putc c) k else k
  else k.

Definition tty_sigint_trigger (vt : Z) (k : kbd) : kbd :=
  if TTY_VT_MAX <=? vt then k
  else
    let t := with_sigint (vts k vt) true in
    emit (debug_puts [94; 67; 10]) (with_vt k vt (with_line t (put (line t) 0 0) 0 false)).

Definition tty_sigint_consume (vt : Z) (k : kbd) : bool * kbd :=
  if TTY_VT_MAX <=? vt then (false, k)
  else if sigint (vts k vt) then (true, with_vt k vt (with_sigint (vts k vt) false))
  else (false, k).

Definition tty_getline (vt buf size : Z) (m : mem) (k : kbd) : Z * mem * kbd :=
  if TTY_VT_MAX <=? vt then (0, m, k)
  else
    let t := vts k vt in
    if negb (ready t) then (0, m, k)
    else
      let n := if size - 1 <? len t then size - 1 else len t in
      let m := for_do 0 n (λ i m, store8 m (buf + i) (line t i)) m in
      let m := store8 m (buf + n) 0 in
      (n, m, with_vt k vt (with_line t (line t) 0 false)).

Definition tty_line_ready (vt : Z) (k : kbd) : bool :=
  if TTY_VT_MAX <=? vt then false else ready (vts k vt).

(** The bytes the serial port has waiting, in order. *)
Definition tty_drain_serial (input : list Z) (k : kbd) : kbd :=
  let vt := tty_active_vt k in
  foldl (λ k b, if tty_raw_mode vt k then tty_push_raw vt (u8 b) k
                else tty_input_char (s8 b) k) k input.

(** ** Keys *)

Definition navigation (key : Z) : bool :=
  (key =? KEY_UP) || (key =? KEY_DOWN) || (key =? KEY_LEFT) || (key =? KEY_RIGHT) ||
  (key =? KEY_HOME) || (key =? KEY_END) || (key =? KEY_PAGE_UP) || (key =? KEY_PAGE_DOWN) ||
  (key =? KEY_DELETE).

Definition set_key (key : Z) (pressed : bool) (k : kbd) : kbd :=
  with_keys k (λ i, if i =? key then pressed else key_state k i)
    (if (key =? KEY_LEFT_SHIFT) || (key =? KEY_RIGHT_SHIFT) then pressed else k_shift k)
    (if (key =? KEY_LEFT_CTRL) || (key =? KEY_RIGHT_CTRL) then pressed else k_ctrl k)
    (if (key =? KEY_LEFT_ALT) || (key =? KEY_RIGHT_ALT) then pressed else k_alt k).

(** A key press on a terminal in raw mode. *)
Definition report_raw (vt key : Z) (k : kbd) : kbd :=
  let ascii := hid_key_to_ascii key (k_shift k) in
  let k := if truthy (Z.land (c_lflag (tio (vts k vt))) TTY_LFLAG_ECHO) && negb (navigation key) &&
              (0x20 <=? ascii)
           then emit (vga_vt_putc vt ascii) (emit (debug_putc ascii) k) else k in
  keyboard_raw_push vt key (k_shift k) (k_ctrl k) k.

(** A key press on a terminal in canonical mode. *)
Definition report_canonical (vt key ascii : Z) (k : kbd) : kbd :=
  if k_ctrl k && (key =? KEY_C) &&
     truthy (Z.land (c_lflag (tio (vts k vt))) TTY_LFLAG_ISIG)
  then tty_sigint_trigger vt k
  else if key =? KEY_ENTER then tty_input_char 10 k
  else if key =? KEY_BACKSPACE then tty_input_char 0x08 k
  else if truthy ascii then tty_input_char ascii k
  else k.

Definition keyboard_report_key (key : Z) (pressed : bool) (k : kbd) : kbd :=
  let k := set_key key pressed k in
  let e := {| e_keycode := key; e_ascii := hid_key_to_ascii key (k_shift k); e_pressed := pressed |} in
  let k := with_queue k (ring_push KEYBOARD_QUE_SIZE e (queue k)) in
  if k_ctrl k && k_alt k && (KEY_F1 <=? key) && (key <=? KEY_F6)
  then tty_vt_switch (u8 (key - KEY_F1)) k
  else
    let vt := tty_active_vt k in
    if tty_raw_mode vt k then if pressed then report_raw vt key k else k
    else if pressed then report_canonical vt key (e_ascii e) k else k.

Definition keyboard_poll_event (k : kbd) : option (keyboard_event * kbd) :=
  match ring_pop KEYBOARD_QUE_SIZE (queue k) with
  | None => None
  | Some (e, q) => Some (e, with_queue k q)
  end.

Definition keyboard_getchar (k : kbd) : Z * kbd :=
  match keyboard_poll_event k with
  | None => (0, k)
  | Some (e, k) => (e_ascii e, k)
  end.

(** ** Well-formed terminals *)

(** The line fits its buffer, nothing outside the buffer was ever written, and the
    raw queue is a ring. *)
Record vt_ok (t : vt_tty) : Prop := {
  vt_len : 0 ≤ len t < TTY_LINE_MAX;
  vt_line : ∀ i, i < 0 ∨ TTY_LINE_MAX ≤ i → line t i = 0;
  vt_raw : ring_ok TTY_RAW_MAX (raw t)
}.

Record tty_ok (k : kbd) : Prop := {
  tty_active : 0 ≤ active_vt k < TTY_VT_MAX;
  tty_queue : ring_ok KEYBOARD_QUE_SIZE (queue k);
  tty_vts : ∀ vt, 0 ≤ vt < TTY_VT_MAX → vt_ok (vts k vt)
}.

Lemma with_vt_ok k vt t : tty_ok k → vt_ok t → tty_ok (with_vt k vt t).
Proof.
  intros [Ha Hq Hv] Ht. split; simpl; [done|done|]. intros v Hr. split_if; auto.
Qed.

Lemma emit_ok o k : tty_ok k → tty_ok (emit o k).
Proof. intros [Ha Hq Hv]. by split. Qed.

Lemma with_line_ok t l n rd :
  vt_ok t → 0 ≤ n < TTY_LINE_MAX → (∀ i, i < 0 ∨ TTY_LINE_MAX ≤ i → l i = 0) → vt_ok (with_line t l n rd).
Proof. intros [H1 H2 H3] Hn Hl. by split. Qed.

Lemma put_outside l i c :
  0 ≤ i < TTY_LINE_MAX → (∀ j, j < 0 ∨ TTY_LINE_MAX ≤ j → l j = 0) →
  ∀ j, j < 0 ∨ TTY_LINE_MAX ≤ j → put l i c j = 0.
Proof. intros Hi Hl j Hj. unfold put. split_if; [lia|auto]. Qed.

Lemma with_raw_ok t r : vt_ok t → ring_ok TTY_RAW_MAX r → vt_ok (with_raw t r).
Proof. intros [H1 H2 H3] Hr. by split. Qed.

Create HintDb tty.
#[local] Hint Resolve with_vt_ok emit_ok with_raw_ok : tty.

Lemma active_vt_ok k : tty_ok k → vt_ok (vts k (active_vt k)).
Proof. intros H. apply (tty_vts k H), (tty_active k H). Qed.

Lemma tty_push_raw_ok vt b k : tty_ok k → 0 ≤ vt < TTY_VT_MAX → tty_ok (tty_push_raw vt b k).
Proof.
  intros Hk Hv. pose proof (tty_vts k Hk vt Hv) as Ht. apply with_vt_ok; [done|].
  apply with_raw_ok; [done|]. apply ring_push_contents; [unfold TTY_RAW_MAX; lia|apply Ht].
Qed.

Lemma push_all_ok vt bs k : tty_ok k → 0 ≤ vt < TTY_VT_MAX → tty_ok (push_all vt bs k).
Proof.
  intros Hk Hv. revert k Hk. induction bs as [|b bs IH]; intros k Hk; simpl; [done|].
  apply IH. by apply tty_push_raw_ok.
Qed.

Lemma tty_input_char_ok c k : tty_ok k → tty_ok (tty_input_char c k).
Proof.
  intros Hk. pose proof (active_vt_ok k Hk) as Ht. pose proof Ht as [Hl Hn _].
  unfold tty_input_char. set (t := vts k (active_vt k)) in *. unfold TTY_LINE_MAX in *.
  destruct (ready t); [done|]. destruct (c =? 10).
  { destruct (Z.ltb_spec (len t) (256 - 1)); apply emit_ok, with_vt_ok; try done;
      apply with_line_ok; try done; unfold TTY_LINE_MAX; try lia; repeat apply put_outside; unfold TTY_LINE_MAX;
      done || lia. }
  destruct ((c =? 8) || (c =? 127)).
  { destruct (Z.ltb_spec 0 (len t)); [|done]. apply emit_ok, with_vt_ok, with_line_ok; try done;
      unfold TTY_LINE_MAX; try lia. apply put_outside; unfold TTY_LINE_MAX; done || lia. }
  destruct (1 <=? c); [|done]. destruct (Z.ltb_spec (len t) (256 - 1)); simpl; [|done].
  assert (tty_ok (with_vt k (active_vt k) (with_line t (put (line t) (len t) c) (len t + 1) false))).
  { apply with_vt_ok, with_line_ok; try done; unfold TTY_LINE_MAX; try lia.
    apply put_outside; unfold TTY_LINE_MAX; done || lia. }
  destruct (32 <=? c); [by apply emit_ok|done].
Qed.

Lemma tty_sigint_trigger_ok vt k : tty_ok k → 0 ≤ vt → tty_ok (tty_sigint_trigger vt k).
Proof.
  intros Hk Hv. unfold tty_sigint_trigger. destruct (Z.leb_spec TTY_VT_MAX vt); [done|].
  pose proof (tty_vts k Hk vt ltac:(lia)) as [H1 H2 H3]. apply emit_ok, with_vt_ok; [done|].
  split; [simpl; unfold TTY_LINE_MAX; lia| |done]. apply put_outside; [unfold TTY_LINE_MAX; lia|done].
Qed.

Lemma tty_vt_switch_ok vt k : tty_ok k → 0 ≤ vt → tty_ok (tty_vt_switch vt k).
Proof.
  intros [Ha Hq Hv] Hvt. unfold tty_vt_switch. destruct (Z.leb_spec TTY_VT_MAX vt); [done|].
  apply emit_ok. by split.
Qed.

Lemma tty_set_mode_ok vt t k : tty_ok k → 0 ≤ vt → tty_ok (tty_set_mode vt t k).
Proof.
  intros Hk Hv. unfold tty_set_mode. destruct (Z.leb_spec TTY_VT_MAX vt); [done|].
  pose proof (tty_vts k Hk vt ltac:(lia)) as [H1 H2 H3]. apply with_vt_ok; [done|].
  split; [simpl; unfold TTY_LINE_MAX; lia| |].
  - apply put_outside; [unfold TTY_LINE_MAX; lia|done].
  - simpl. apply ring_reset_contents. unfold TTY_RAW_MAX. lia.
Qed.

Lemma tty_getline_ok vt buf size m k : tty_ok k → 0 ≤ vt → tty_ok (tty_getline vt buf size m k).2.
Proof.
  intros Hk Hv. unfold tty_getline. destruct (Z.leb_spec TTY_VT_MAX vt); [done|].
  pose proof (tty_vts k Hk vt ltac:(lia)) as Ht. destruct (ready _); [|done]. simpl.
  apply with_vt_ok; [done|]. apply with_line_ok; [done|unfold TTY_LINE_MAX; lia|apply Ht].
Qed.

Lemma set_key_ok key p k : tty_ok k → tty_ok (set_key key p k).
Proof. intros [Ha Hq Hv]. by split. Qed.

Lemma keyboard_report_key_ok key p k : tty_ok k → tty_ok (keyboard_report_key key p k).
Proof.
  intros Hk. unfold keyboard_report_key. pose proof (set_key_ok key p k Hk) as Hk1.
  set (k1 := set_key key p k) in *. set (e := Build_keyboard_event _ _ _).
  assert (tty_ok (with_queue k1 (ring_push KEYBOARD_QUE_SIZE e (queue k1)))) as Hk2.
  { destruct Hk1 as [Ha Hq Hv]. split; [done| |done].
    apply ring_push_contents; [unfold KEYBOARD_QUE_SIZE; lia|done]. }
  set (k2 := with_queue k1 _) in *. clearbody k2. pose proof (tty_active k2 Hk2) as Ha.
  destruct (k_ctrl k2 && k_alt k2 && _ && _).
  { apply tty_vt_switch_ok; [done|]. apply u8_range. }
  unfold tty_active_vt in *. destruct (tty_raw_mode _ k2); (destruct p; [|done]).
  - unfold report_raw, keyboard_raw_push. apply push_all_ok; [|done]. split_if; auto with tty.
  - unfold report_canonical. repeat (split_if; auto using tty_sigint_trigger_ok, tty_input_char_ok with lia).
Qed.

Lemma tty_drain_serial_ok input k : tty_ok k → tty_ok (tty_drain_serial input k).
Proof.
  intros Hk. unfold tty_drain_serial, tty_active_vt. pose proof (tty_active k Hk) as Ha.
  set (vt := active_vt k) in *. clearbody vt. revert k Hk.
  induction input as [|b input IH]; intros k Hk; simpl; [done|].
  apply IH. split_if; [by apply tty_push_raw_ok|by apply tty_input_char_ok].
Qed.

(** ** Reading raw bytes *)

(** Writing a list of bytes from [buf] on. *)
Fixpoint store_bytes (m : mem) (buf : Z) (bs : list Z) : mem :=
  match bs with
  | [] => m
  | b :: bs => store_bytes (store8 m buf b) (buf + 1) bs
  end.

Lemma read_raw_loop buf n_max n m r :
  0 ≤ n ≤ n_max → n_max < 4294967296 → ring_ok TTY_RAW_MAX r →
  let c := contents TTY_RAW_MAX r in
  let j := Z.to_nat (Z.min (n_max - n) (Z.of_nat (length c))) in
  ∃ r', while_ 4294967297 (read_raw_step buf n_max) (n, m, r) =
        Some (n + Z.of_nat j, store_bytes m (buf + n) (take j c), r') ∧
        ring_ok TTY_RAW_MAX r' ∧ contents TTY_RAW_MAX r' = drop j c.
Proof.
  intros Hn Hmax Hr c j.
  set (P := λ s : Z * mem * ring Z, let '(n', m', r') := s in
    n ≤ n' ≤ n_max ∧ ring_ok TTY_RAW_MAX r' ∧
    let c' := contents TTY_RAW_MAX r' in
    let j' := Z.to_nat (Z.min (n_max - n') (Z.of_nat (length c'))) in
    n' + Z.of_nat j' = n + Z.of_nat j ∧
    store_bytes m' (buf + n') (take j' c') = store_bytes m (buf + n) (take j c) ∧
    drop j' c' = drop j c).
  edestruct (while_total P (λ s, n_max - s.1.1)
    (λ s, s.1 = (n + Z.of_nat j, store_bytes m (buf + n) (take j c)) ∧
          ring_ok TTY_RAW_MAX s.2 ∧ contents TTY_RAW_MAX s.2 = drop j c)
    4294967297 (read_raw_step buf n_max) (n, m, r))
    as ([[n1 m1] r1] & E & Q1 & Q2 & Q3); [| | |].
  - unfold P. split; [lia|]. done.
  - simpl. lia.
  - intros [[n' m'] r'] (Hn' & Hr' & Hj & Hs & Hd). split; [simpl; lia|]. unfold read_raw_step.
    pose proof (ring_pop_contents TTY_RAW_MAX r' ltac:(unfold TTY_RAW_MAX; lia) Hr') as Hp.
    destruct (Z.ltb_spec n' n_max).
    + destruct (contents TTY_RAW_MAX r') as [|x l] eqn:Ec.
      { rewrite Hp. simpl in *. rewrite take_nil in Hs. simpl in Hs. rewrite drop_nil in Hd.
        split; [|by rewrite Ec]. f_equal; [lia|done]. }
      destruct Hp as (r2 & -> & Hr2 & Hc2). simpl in *.
      replace (Z.to_nat (Z.min (n_max - n') (Z.of_nat (Datatypes.S (length l)))))
        with (Datatypes.S (Z.to_nat (Z.min (n_max - (n' + 1)) (Z.of_nat (length l))))) in * by lia.
      simpl in Hs, Hd. split; [|lia]. unfold P. rewrite Hc2. split; [lia|]. split; [done|].
      split; [lia|]. split; [|done]. by replace (buf + (n' + 1)) with (buf + n' + 1) by lia.
    + replace (Z.to_nat (Z.min (n_max - n') (Z.of_nat (length (contents TTY_RAW_MAX r'))))) with 0%nat in * by lia.
      simpl in *. split; [|done]. f_equal; [lia|done].
  - simpl in *. exists r1. simplify_eq. done.
Qed.

Lemma tty_read_raw_spec vt buf n m k :
  tty_ok k → 0 ≤ vt < TTY_VT_MAX → buf ≠ 0 → 0 ≤ n < 4294967296 →
  let c := contents TTY_RAW_MAX (raw (vts k vt)) in
  let j := Z.to_nat (Z.min n (Z.of_nat (length c))) in
  ∃ k', tty_read_raw vt buf n m k = Some (Z.of_nat j, store_bytes m buf (take j c), k') ∧
        tty_ok k' ∧ contents TTY_RAW_MAX (raw (vts k' vt)) = drop j c ∧
        tty_raw_available vt k' = Z.of_nat (length c - j) ∧
        ∀ v, v ≠ vt → vts k' v = vts k v.
Proof.
  intros Hk Hvt Hb Hn c j. pose proof (tty_vts k Hk vt Hvt) as Ht. unfold tty_read_raw.
  replace ((TTY_VT_MAX <=? vt) || (buf =? 0)) with false by lia.
  destruct (read_raw_loop buf n 0 m (raw (vts k vt)) ltac:(lia) ltac:(lia) (vt_raw _ Ht)) as (r' & E & Hr & Hc).
  rewrite Z.sub_0_r in E, Hc. fold c in E, Hc. fold j in E, Hc. rewrite E, Z.add_0_l, Z.add_0_r.
  eexists. split; [done|]. assert (Hok : ring_ok TTY_RAW_MAX r') by done. split; [|split; [|split]].
  - apply with_vt_ok; [done|]. by apply with_raw_ok.
  - simpl. by rewrite Z.eqb_refl.
  - unfold tty_raw_available. replace (TTY_VT_MAX <=? vt) with false by lia. simpl.
    rewrite Z.eqb_refl. simpl. rewrite <- length_drop, <- Hc, contents_length by (unfold TTY_RAW_MAX; lia).
    unfold ring_len, TTY_RAW_MAX, u32. change 4294967296 with (256 * 16777216).
    rewrite Z.rem_mul_r by lia. rewrite (Z.mul_comm 256), Z.mod_add by lia. apply Z.mod_mod. lia.
  - intros v Hv. simpl. by replace (v =? vt) with false by lia.
Qed.

(** [tty_read_raw] terminates, returns as many bytes as are queued and asked
    for, writes exactly these to the buffer in the order they were queued, and
    leaves the rest queued; the other terminals are not touched. *)
Theorem tty_read_raw_fifo vt buf n m k :
  tty_ok k → 0 ≤ vt < TTY_VT_MAX → buf ≠ 0 → 0 ≤ n < 4294967296 →
  let c := contents TTY_RAW_MAX (raw (vts k vt)) in
  let j := Z.to_nat (Z.min n (Z.of_nat (length c))) in
  ∃ k', tty_read_raw vt buf n m k = Some (Z.of_nat j, store_bytes m buf (take j c), k') ∧
        tty_ok k' ∧ contents TTY_RAW_MAX (raw (vts k' vt)) = drop j c ∧
        tty_raw_available vt k' = Z.of_nat (length c - j) ∧
        ∀ v, v ≠ vt → vts k' v = vts k v.
Proof. apply tty_read_raw_spec. Qed.

(** ** Editing a line *)

(** What one character other than newline does to the line being typed. *)
Definition edit (l : list Z) (c : Z) : list Z :=
  if (c =? 0x08) || (c =? 0x7F) then take (length l - 1) l
  else if (1 <=? c) && (Z.of_nat (length l) <? TTY_LINE_MAX - 1) then l ++ [c]
  else l.

(** The buffer of a terminal holds [l]. *)
Definition line_is (t : vt_tty) (l : list Z) : Prop :=
  len t = Z.of_nat (length l) ∧
  ∀ i c, l !! i = Some c → line t (Z.of_nat i) = c ∧ 1 ≤ c < 128.

Lemma line_is_snoc t l c rd :
  line_is t l → 1 ≤ c < 128 → line_is (with_line t (put (line t) (len t) c) (len t + 1) rd) (l ++ [c]).
Proof.
  intros [Hl Hc] Hr. split; simpl; [rewrite length_app; simpl; lia|].
  intros i x Hx. unfold put. apply lookup_app_Some in Hx as [Hx|[Hge Hx]].
  - pose proof (lookup_lt_Some _ _ _ Hx). replace (Z.of_nat i =? len t) with false by lia. by apply Hc.
  - apply list_lookup_singleton_Some in Hx as [Hi <-]. replace (Z.of_nat i =? len t) with true by lia. done.
Qed.

Lemma line_is_shorter t l l' n rd :
  line_is t l → n = Z.of_nat (length l') → l' `prefix_of` l →
  line_is (with_line t (put (line t) n 0) n rd) l'.
Proof.
  intros [Hl Hc] -> [l2 ->]. split; [done|]. intros i x Hx. simpl. unfold put.
  pose proof (lookup_lt_Some _ _ _ Hx). replace (Z.of_nat i =? Z.of_nat (length l')) with false by lia.
  apply Hc. by rewrite lookup_app_l by lia.
Qed.

Lemma input_char_edit k c l :
  -128 ≤ c < 128 → c ≠ 10 → ready (vts k (active_vt k)) = false → line_is (vts k (active_vt k)) l →
  let k' := tty_input_char c k in
  active_vt k' = active_vt k ∧ ready (vts k' (active_vt k)) = false ∧
  line_is (vts k' (active_vt k)) (edit l c).
Proof.
  intros Hc Hn Hr Hl. pose proof Hl as [Hlen _]. unfold tty_input_char, edit. rewrite Hr.
  replace (c =? 10) with false by lia. destruct ((c =? 8) || (c =? 127)) eqn:Eb.
  - destruct (Z.ltb_spec 0 (len (vts k (active_vt k)))) as [Hp|Hp]; simpl; rewrite ?Z.eqb_refl.
    + split; [done|]. split; [done|]. apply (line_is_shorter _ l); [done| |].
      * rewrite length_take. lia.
      * exists (drop (length l - 1) l). by rewrite take_drop.
    + destruct l; [done|]. simpl in Hlen. lia.
  - rewrite Hlen. destruct (Z.leb_spec 1 c); simpl; [|done].
    destruct (Z.ltb_spec (Z.of_nat (length l)) (TTY_LINE_MAX - 1)); simpl; [|done].
    assert (line_is (with_line (vts k (active_vt k))
              (put (line (vts k (active_vt k))) (Z.of_nat (length l)) c) (Z.of_nat (length l) + 1) false)
              (l ++ [c])) by (rewrite <- Hlen; apply line_is_snoc; [done|lia]).
    destruct (32 <=? c); simpl; rewrite Z.eqb_refl; done.
Qed.

Lemma input_chars_edit cs k l :
  Forall (λ c, -128 ≤ c < 128 ∧ c ≠ 10) cs → ready (vts k (active_vt k)) = false →
  line_is (vts k (active_vt k)) l →
  let k' := foldl (λ k c, tty_input_char c k) k cs in
  active_vt k' = active_vt k ∧ ready (vts k' (active_vt k)) = false ∧
  line_is (vts k' (active_vt k)) (foldl edit l cs).
Proof.
  intros Hcs. revert k l. induction Hcs as [|c cs [Hc Hn] _ IH]; intros k l Hr Hl; simpl; [done|].
  destruct (input_char_edit k c l Hc Hn Hr Hl) as (Ha & Hr' & Hl').
  rewrite <- Ha in *. apply IH; done.
Qed.

(** The finished line: the newline is kept when there is room for it. *)
Definition finished (l : list Z) : list Z :=
  if Z.of_nat (length l) <? TTY_LINE_MAX - 1 then l ++ [10] else l.

Lemma input_newline k l :
  ready (vts k (active_vt k)) = false → line_is (vts k (active_vt k)) l →
  let k' := tty_input_char 10 k in
  active_vt k' = active_vt k ∧ ready (vts k' (active_vt k)) = true ∧
  line_is (vts k' (active_vt k)) (finished l).
Proof.
  intros Hr Hl. pose proof Hl as [Hlen _]. unfold tty_input_char, finished. rewrite Hr. simpl.
  rewrite Hlen. destruct (Z.ltb_spec (Z.of_nat (length l)) (TTY_LINE_MAX - 1)); simpl; rewrite Z.eqb_refl.
  - split; [done|]. split; [done|]. rewrite <- Hlen.
    pose proof (line_is_snoc _ l 10 true Hl ltac:(lia)) as Hs.
    eapply (line_is_shorter _ _ _ _ true) in Hs; [exact Hs| |done].
    rewrite length_app. simpl. lia.
  - split; [done|]. split; [done|]. eapply line_is_shorter; [done|done|done].
Qed.

Lemma copy_line_mem t m buf n x :
  0 ≤ n →
  for_do 0 n (λ i m, store8 m (buf + i) (line t i)) m x =
  if (buf <=? x) && (x <? buf + n) then u8 (line t (x - buf)) else m x.
Proof.
  intros Hn. apply (for_do_ind (λ j m', m' x = if (buf <=? x) && (x <? buf + j) then u8 (line t (x - buf)) else m x)); [done| |].
  - by replace ((buf <=? x) && (x <? buf + 0)) with false by lia.
  - intros i m' Hi Hx. unfold store8. destruct (Z.eqb_spec x (buf + i)) as [->|].
    + replace ((buf <=? buf + i) && (buf + i <? buf + (i + 1))) with true by lia. do 2 f_equal. lia.
    + rewrite Hx. by replace ((buf <=? x) && (x <? buf + (i + 1))) with ((buf <=? x) && (x <? buf + i)) by lia.
Qed.

Lemma getline_copy t m buf l n :
  line_is t l → n = Z.of_nat (length l) →
  let m' := store8 (for_do 0 n (λ i m, store8 m (buf + i) (line t i)) m) (buf + n) 0 in
  cstr_at m' buf l ∧ ∀ x, x < buf ∨ buf + n < x → m' x = m x.
Proof.
  intros [Hlen Hc] ->. set (n := Z.of_nat (length l)).
  pose proof (λ x, copy_line_mem t m buf n x ltac:(lia)) as Hm.
  split; [split|].
  - intros i c Hi. pose proof (lookup_lt_Some _ _ _ Hi). destruct (Hc i c Hi) as [E Hr].
    split; [|lia]. unfold load8, store8. replace (buf + Z.of_nat i =? buf + n) with false by lia.
    rewrite Hm. replace ((buf <=? buf + Z.of_nat i) && (buf + Z.of_nat i <? buf + n)) with true by lia.
    replace (buf + Z.of_nat i - buf) with (Z.of_nat i) by lia. rewrite E. apply u8_small. lia.
  - unfold load8, store8. fold n. by rewrite Z.eqb_refl.
  - intros x Hx. unfold store8. replace (x =? buf + n) with false by lia. rewrite Hm.
    by replace ((buf <=? x) && (x <? buf + n)) with false by lia.
Qed.


(** ** Every reachable state is well formed *)

(** The zero-initialised statics. *)
Definition kbd_bss : kbd :=
  {| key_state := λ _, false; k_shift := false; k_ctrl := false; k_alt := false;
     queue := {| rbuf := λ _, {| e_keycode := 0; e_ascii := 0; e_pressed := false |};
                 rhead := 0; rtail := 0 |};
     vts := λ _, {| line := λ _, 0; len := 0; ready := false; sigint := false;
                    raw := {| rbuf := λ _, 0; rhead := 0; rtail := 0 |};
                    tio := {| c_iflag := 0; c_oflag := 0; c_cflag := 0; c_lflag := 0;
                              c_line := 0; c_cc := λ _, 0 |} |};
     active_vt := 0; out := [] |}.

(** One call into the keyboard stack: by a driver, a system call or the serial poll. *)
Inductive tty_step : kbd → kbd → Prop :=
| step_key k key p : tty_step k (keyboard_report_key key p k)
| step_poll k e k' : keyboard_poll_event k = Some (e, k') → tty_step k k'
| step_getchar k : tty_step k (keyboard_getchar k).2
| step_switch k vt : 0 ≤ vt → tty_step k (tty_vt_switch vt k)
| step_set_mode k vt t : 0 ≤ vt → tty_step k (tty_set_mode vt t k)
| step_read_raw k vt buf n m n' m' k' :
    0 ≤ vt → 0 ≤ n < 4294967296 → tty_read_raw vt buf n m k = Some (n', m', k') → tty_step k k'
| step_char k c : tty_step k (tty_input_char c k)
| step_sigint k vt : 0 ≤ vt → tty_step k (tty_sigint_trigger vt k)
| step_consume k vt : 0 ≤ vt → tty_step k (tty_sigint_consume vt k).2
| step_getline k vt buf size m : 0 ≤ vt → tty_step k (tty_getline vt buf size m k).2
| step_serial k input : tty_step k (tty_drain_serial input k).

Lemma keyboard_stack_init_ok k : tty_ok k → tty_ok (keyboard_stack_init k).
Proof.
  intros [Ha Hq Hv]. unfold keyboard_stack_init.
  apply (for_do_ind (λ _ k, tty_ok k)); [unfold TTY_VT_MAX; lia| |].
  - split; [done| |done]. simpl. apply ring_reset_contents. unfold KEYBOARD_QUE_SIZE. lia.
  - intros v k' Hr Hk. apply with_vt_ok; [done|]. pose proof (tty_vts k' Hk v Hr) as [H1 H2 H3].
    split; [simpl; unfold TTY_LINE_MAX; lia| |].
    + apply put_outside; [unfold TTY_LINE_MAX; lia|done].
    + apply ring_reset_contents. unfold TTY_RAW_MAX. lia.
Qed.

Lemma kbd_bss_ok : tty_ok kbd_bss.
Proof. split; [by vm_compute|by vm_compute|]. intros vt _. split; [by vm_compute|done|by vm_compute]. Qed.

Lemma keyboard_poll_ok k e k' : tty_ok k → keyboard_poll_event k = Some (e, k') → tty_ok k'.
Proof.
  intros [Ha Hq Hv]. unfold keyboard_poll_event.
  pose proof (ring_pop_contents KEYBOARD_QUE_SIZE (queue k) ltac:(unfold KEYBOARD_QUE_SIZE; lia) Hq) as Hp.
  destruct (contents _ _) as [|x l]; [by rewrite Hp|]. destruct Hp as (r & -> & Hr & _).
  intros [= <- <-]. by split.
Qed.

Lemma tty_step_ok k k' : tty_step k k' → tty_ok k → tty_ok k'.
Proof.
  intros [] Hk; auto using keyboard_report_key_ok, tty_vt_switch_ok, tty_set_mode_ok, tty_input_char_ok,
    tty_sigint_trigger_ok, tty_getline_ok, tty_drain_serial_ok.
  - by eapply keyboard_poll_ok.
  - unfold keyboard_getchar. destruct (keyboard_poll_event k0) as [[e k1]|] eqn:E; [|done].
    by eapply keyboard_poll_ok.
  - unfold tty_read_raw in *. destruct ((TTY_VT_MAX <=? vt) || (buf =? 0)) eqn:Eg; [naive_solver|].
    destruct (tty_read_raw_spec vt buf n m k0 Hk) as (k1 & E & Hk1 & _); [lia|lia|lia|].
    unfold tty_read_raw in E. rewrite Eg in E. congruence.
  - unfold tty_sigint_consume. destruct (Z.leb_spec TTY_VT_MAX vt); [done|]. split_if; [|done].
    apply with_vt_ok; [done|]. destruct (tty_vts k0 Hk vt) as [? ? ?]; [lia|]. by split.
Qed.

(** C27: From [keyboard_stack_init] on, no sequence of calls into the keyboard stack
    leaves a terminal with a line longer than its buffer, writes outside a line
    buffer, or takes a queue index out of range. *)
Theorem tty_reachable_ok k : rtc tty_step (keyboard_stack_init kbd_bss) k → tty_ok k.
Proof.
  intros Hr. pose proof (keyboard_stack_init_ok kbd_bss kbd_bss_ok) as H0. revert H0.
  induction Hr as [|k1 k2 k3 Hs _ IH]; intros H0; [done|]. apply IH. by eapply tty_step_ok.
Qed.

(** The raw queue of a terminal is a bounded first-in first-out queue: a byte
    pushed is appended, unless 255 bytes are waiting, in which case it is dropped. *)
Theorem tty_push_raw_queue vt b k :
  tty_ok k → 0 ≤ vt < TTY_VT_MAX →
  let c := contents TTY_RAW_MAX (raw (vts k vt)) in
  contents TTY_RAW_MAX (raw (vts (tty_push_raw vt b k) vt)) =
  if Z.of_nat (length c) =? TTY_RAW_MAX - 1 then c else c ++ [u8 b].
Proof.
  intros Hk Hvt c. pose proof (tty_vts k Hk vt Hvt) as Ht. unfold tty_push_raw. simpl. rewrite Z.eqb_refl.
  simpl. destruct (ring_push_contents TTY_RAW_MAX (u8 b) (raw (vts k vt))) as [_ ->];
    [unfold TTY_RAW_MAX; lia|apply Ht|].
  unfold c. by rewrite contents_length by (unfold TTY_RAW_MAX; lia).
Qed.

(** ** The properties at concrete states *)

(** Terminal 0 in raw mode with Ctrl held and C pressed twice. *)
Definition demo_raw : kbd :=
  keyboard_report_key KEY_C true (keyboard_report_key KEY_C true
    (keyboard_report_key KEY_LEFT_CTRL true
      (tty_set_mode 0 (tio (vts kbd_bss 0)) (keyboard_stack_init kbd_bss)))).

Lemma demo_raw_ok : tty_ok demo_raw.
Proof.
  unfold demo_raw. do 3 apply keyboard_report_key_ok. apply tty_set_mode_ok; [|lia].
  apply keyboard_stack_init_ok, kbd_bss_ok.
Qed.

Lemma tty_read_raw_witness :
  ∃ k', tty_read_raw 0 4096 10 (λ _, 0) demo_raw = Some (2, store_bytes (λ _, 0) 4096 [3; 3], k') ∧ tty_ok k'.
Proof.
  destruct (tty_read_raw_fifo 0 4096 10 (λ _, 0) demo_raw demo_raw_ok) as (k' & E & Hk & _);
    [unfold TTY_VT_MAX; lia|lia|lia|]. exists k'. split; [exact E|exact Hk].
Defined.

Lemma tty_push_raw_witness :
  contents TTY_RAW_MAX (raw (vts (tty_push_raw 0 65 demo_raw) 0)) = [3; 3; 65].
Proof.
  rewrite (tty_push_raw_queue 0 65 demo_raw demo_raw_ok) by (unfold TTY_VT_MAX; lia). by vm_compute.
Defined.


Lemma tty_reachable_witness : tty_ok (tty_input_char 65 (keyboard_stack_init kbd_bss)).
Proof. apply tty_reachable_ok. eapply rtc_l; [apply step_char|apply rtc_refl]. Defined.
