(* ===== verification/Mouse.v ===== *)
(** Mouse stack (driver/stacks/input/mouse_stack.c).

    Button state, cursor position, last movement and the event queue, the same
    ring as in Ring.v.  Coordinates are [int32_t] and wrap. *)

From stdpp Require Import prelude numbers list.
From Stdlib Require Import ZArith Lia.
From S2P Require Import Prelude Ring.

Open Scope Z_scope.

Definition MOUSE_MAX_BUTTONS : Z := 8.
Definition MOUSE_QUEUE_SIZE : Z := 256.

Record mouse_event : Type := {
  m_x : Z; m_y : Z; m_dx : Z; m_dy : Z; m_wheel : Z; m_buttons : Z
}.

Record mouse : Type := {
  button_state : Z → bool;
  mouse_x : Z; mouse_y : Z;
  delta_x : Z; delta_y : Z;
  mqueue : ring mouse_event
}.

Definition mouse_stack_init (s : mouse) : mouse :=
  {| button_state := for_do 0 MOUSE_MAX_BUTTONS (λ i b j, if j =? i then false else b j) (button_state s);
     mouse_x := 0; mouse_y := 0; delta_x := 0; delta_y := 0; mqueue := ring_reset (mqueue s) |}.

(** [for (i..) if (button_state[i]) e.buttons |= (1 << i);] *)
Definition button_mask (b : Z → bool) : Z :=
  for_do 0 MOUSE_MAX_BUTTONS (λ i m, if b i then u8 (Z.lor m (Z.shiftl 1 i)) else m) 0.

Definition enqueue (e : mouse_event) (s : mouse) : mouse :=
  {| button_state := button_state s; mouse_x := mouse_x s; mouse_y := mouse_y s;
     delta_x := delta_x s; delta_y := delta_y s; mqueue := ring_push MOUSE_QUEUE_SIZE e (mqueue s) |}.

Definition mouse_report_motion (dx dy : Z) (s : mouse) : mouse :=
  let s := {| button_state := button_state s; mouse_x := s32 (mouse_x s + dx);
              mouse_y := s32 (mouse_y s + dy); delta_x := dx; delta_y := dy; mqueue := mqueue s |} in
  enqueue {| m_x := mouse_x s; m_y := mouse_y s; m_dx := dx; m_dy := dy; m_wheel := 0;
             m_buttons := button_mask (button_state s) |} s.

Definition mouse_report_button (button : Z) (pressed : bool) (s : mouse) : mouse :=
  if MOUSE_MAX_BUTTONS <=? button then s
  else
    let s := {| button_state := λ i, if i =? button then pressed else button_state s i;
                mouse_x := mouse_x s; mouse_y := mouse_y s; delta_x := delta_x s;
                delta_y := delta_y s; mqueue := mqueue s |} in
    enqueue {| m_x := mouse_x s; m_y := mouse_y s; m_dx := 0; m_dy := 0; m_wheel := 0;
               m_buttons := button_mask (button_state s) |} s.

Definition mouse_report_wheel (wheel : Z) (s : mouse) : mouse :=
  enqueue {| m_x := mouse_x s; m_y := mouse_y s; m_dx := 0; m_dy := 0; m_wheel := wheel;
             m_buttons := button_mask (button_state s) |} s.

Definition mouse_is_pressed (s : mouse) (button : Z) : bool :=
  if MOUSE_MAX_BUTTONS <=? button then false else button_state s button.

Definition mouse_get_x (s : mouse) : Z := mouse_x s.
Definition mouse_get_y (s : mouse) : Z := mouse_y s.
Definition mouse_set_position (x y : Z) (s : mouse) : mouse :=
  {| button_state := button_state s; mouse_x := x; mouse_y := y; delta_x := delta_x s;
     delta_y := delta_y s; mqueue := mqueue s |}.
Definition mouse_get_delta_x (s : mouse) : Z := delta_x s.
Definition mouse_get_delta_y (s : mouse) : Z := delta_y s.

Definition mouse_poll_event (s : mouse) : option (mouse_event * mouse) :=
  match ring_pop MOUSE_QUEUE_SIZE (mqueue s) with
  | None => None
  | Some (e, q) =>
      Some (e, {| button_state := button_state s; mouse_x := mouse_x s; mouse_y := mouse_y s;
                  delta_x := delta_x s; delta_y := delta_y s; mqueue := q |})
  end.

(** ** Reports and polls as a queue *)

Definition mouse_ok (s : mouse) : Prop := ring_ok MOUSE_QUEUE_SIZE (mqueue s).
Definition events (s : mouse) : list mouse_event := contents MOUSE_QUEUE_SIZE (mqueue s).

Lemma button_mask_bit b i : 0 ≤ i < MOUSE_MAX_BUTTONS → Z.testbit (button_mask b) i = b i.
Proof.
  unfold MOUSE_MAX_BUTTONS. intros Hi. unfold button_mask, MOUSE_MAX_BUTTONS.
  assert (∀ j, 0 ≤ j < 8 →
    Z.testbit (for_do 0 8 (λ i m, if b i then u8 (Z.lor m (Z.shiftl 1 i)) else m) 0) j =
    (j <? 8) && b j) as H; [|rewrite H by lia; by replace (i <? 8) with true by lia].
  intros j Hj. apply (for_do_ind (λ k m, Z.testbit m j = (j <? k) && b j)); [lia| |].
  - rewrite Z.bits_0. by replace (j <? 0) with false by lia.
  - intros k m Hk Hm. destruct (decide (j = k)) as [->|Hne].
    + replace (k <? k + 1) with true by lia. replace (k <? k) with false in Hm by lia. simpl in *.
      destruct (b k); [|done]. rewrite testbit_u8, Z.lor_spec, testbit_shiftl_1, Z.eqb_refl by lia.
      apply orb_true_r.
    + replace (j <? k + 1) with (j <? k) by lia. destruct (b k); [|done].
      rewrite testbit_u8, Z.lor_spec, testbit_shiftl_1 by lia.
      replace (k =? j) with false by lia. by rewrite orb_false_r.
Qed.

(** The events still to be polled, after a report of [e]. *)
Definition queued (s : mouse) (e : mouse_event) (s' : mouse) : Prop :=
  mouse_ok s' ∧
  events s' = if Z.of_nat (length (events s)) =? MOUSE_QUEUE_SIZE - 1 then events s else events s ++ [e].

Lemma enqueue_queued e s s0 :
  mouse_ok s0 → mqueue s = mqueue s0 → queued s0 e (enqueue e s).
Proof.
  intros Hok Hq. unfold queued, mouse_ok, events, enqueue. simpl. rewrite Hq.
  destruct (ring_push_contents MOUSE_QUEUE_SIZE e (mqueue s0)) as [H1 H2];
    [unfold MOUSE_QUEUE_SIZE; lia|done|]. split; [done|]. rewrite H2.
  by rewrite contents_length by (unfold MOUSE_QUEUE_SIZE; lia).
Qed.

(** A movement report queues, unless 255 events wait already, one event with
    the new position, the movement and a button mask whose bits are the buttons
    held; the position moves by the delta modulo 2^32. *)
Theorem mouse_motion_event dx dy s :
  mouse_ok s →
  let s' := mouse_report_motion dx dy s in
  ∃ e, queued s e s' ∧
    m_x e = s32 (mouse_x s + dx) ∧ m_y e = s32 (mouse_y s + dy) ∧ m_dx e = dx ∧ m_dy e = dy ∧
    (∀ i, 0 ≤ i < MOUSE_MAX_BUTTONS → Z.testbit (m_buttons e) i = mouse_is_pressed s i) ∧
    mouse_get_x s' = m_x e ∧ mouse_get_y s' = m_y e ∧
    mouse_get_delta_x s' = dx ∧ mouse_get_delta_y s' = dy.
Proof.
  intros Hok s'. eexists. split; [by apply (enqueue_queued _ _ s)|]. simpl. split_and!; try done.
  intros i Hi. rewrite button_mask_bit by done. unfold mouse_is_pressed.
  by replace (MOUSE_MAX_BUTTONS <=? i) with false by lia.
Qed.

(** Polling returns the oldest queued event and removes it, and reports an empty
    queue exactly when nothing is queued. *)
Theorem mouse_poll_fifo s :
  mouse_ok s →
  match events s with
  | [] => mouse_poll_event s = None
  | e :: l => ∃ s', mouse_poll_event s = Some (e, s') ∧ mouse_ok s' ∧ events s' = l ∧
                    button_state s' = button_state s ∧ mouse_x s' = mouse_x s ∧ mouse_y s' = mouse_y s
  end.
Proof.
  intros Hok. unfold mouse_poll_event, events.
  pose proof (ring_pop_contents MOUSE_QUEUE_SIZE (mqueue s) ltac:(unfold MOUSE_QUEUE_SIZE; lia) Hok) as H.
  destruct (contents _ _) as [|e l]; [by rewrite H|]. destruct H as (r & -> & Hr & Hc).
  eexists. split; [done|]. by split_and!.
Qed.

(** ** At a concrete state: a button held, then a movement *)

Definition mouse_bss : mouse :=
  {| button_state := λ _, false; mouse_x := 0; mouse_y := 0; delta_x := 0; delta_y := 0;
     mqueue := {| rbuf := λ _, {| m_x := 0; m_y := 0; m_dx := 0; m_dy := 0; m_wheel := 0; m_buttons := 0 |};
                  rhead := 0; rtail := 0 |} |}.
Definition demo_mouse : mouse := mouse_report_button 1 true (mouse_stack_init mouse_bss).

Lemma mouse_motion_witness :
  ∃ e, queued demo_mouse e (mouse_report_motion 5 (-3) demo_mouse) ∧ m_x e = 5 ∧ m_y e = -3.
Proof.
  destruct (mouse_motion_event 5 (-3) demo_mouse) as (e & Hq & Hx & Hy & _); [by vm_compute|].
  exists e. split; [exact Hq|]. split; [exact Hx|exact Hy].
Defined.

Lemma mouse_poll_witness :
  ∃ e s', mouse_poll_event demo_mouse = Some (e, s') ∧ events s' = [].
Proof.
  pose proof (mouse_poll_fifo demo_mouse ltac:(by vm_compute)) as H.
  assert (∃ e, events demo_mouse = [e]) as [e E] by (eexists; by vm_compute).
  rewrite E in H. destruct H as (s' & H1 & _ & H2 & _). by exists e, s'.
Defined.
