(* ===== verification/Ports.v ===== *)
(** Ports, interrupt controller and interrupt dispatch (arch/x86_64/io/io.h,
    inter/pic.c, inter/exceptions.c, driver/buildin/timer/pit.c).

    The devices behind the ports are a type [D] with the effect of each access,
    [Ports]: nothing is assumed of it here.  Drivers are functions on [D]; what a
    driver relies on is stated with the driver. *)

From stdpp Require Import prelude numbers functions list.
From Stdlib Require Import ZArith Lia.
From S2P Require Import Prelude.

Open Scope Z_scope.

(** Accesses of 8, 16 and 32 bits; a value read is reduced to its width by its user. *)
Class Ports (D : Type) : Type := {
  port_in8 : Z → D → Z * D;
  port_out8 : Z → Z → D → D;
  port_in16 : Z → D → Z * D;
  port_out16 : Z → Z → D → D;
  port_in32 : Z → D → Z * D;
  port_out32 : Z → Z → D → D
}.

Section Ports.
Context {D : Type} `{!Ports D}.

Definition inb (port : Z) (d : D) : Z * D := let '(v, d) := port_in8 (u16 port) d in (u8 v, d).
Definition outb (port value : Z) (d : D) : D := port_out8 (u16 port) (u8 value) d.
Definition inw (port : Z) (d : D) : Z * D := let '(v, d) := port_in16 (u16 port) d in (u16 v, d).
Definition outw (port value : Z) (d : D) : D := port_out16 (u16 port) (u16 value) d.
Definition inl_ (port : Z) (d : D) : Z * D := let '(v, d) := port_in32 (u16 port) d in (u32 v, d).
Definition outl (port value : Z) (d : D) : D := port_out32 (u16 port) (u32 value) d.
Definition io_wait (d : D) : D := port_out8 0x80 0 d.

(** [rep insw] and [rep outsw] on [count] words. *)
Fixpoint insw (port : Z) (count : nat) (d : D) : list Z * D :=
  match count with
  | O => ([], d)
  | S n => let '(v, d) := inw port d in let '(l, d) := insw port n d in (v :: l, d)
  end.
Fixpoint outsw (port : Z) (words : list Z) (d : D) : D :=
  match words with [] => d | w :: l => outsw port l (outw port w d) end.

(** ** The 8259 interrupt controllers *)

Definition PIC1_COMMAND : Z := 0x20.
Definition PIC1_DATA : Z := 0x21.
Definition PIC2_COMMAND : Z := 0xA0.
Definition PIC2_DATA : Z := 0xA1.
Definition ICW1_ICW4 : Z := 0x01.
Definition ICW1_INIT : Z := 0x10.
Definition ICW4_8086 : Z := 0x01.
Definition PIC_EOI : Z := 0x20.

(** The masks are read first and written back at the end. *)
Definition pic_remap (offset1 offset2 : Z) (d : D) : D :=
  let '(mask1, d) := inb PIC1_DATA d in
  let '(mask2, d) := inb PIC2_DATA d in
  let d := io_wait (outb PIC1_COMMAND (Z.lor ICW1_INIT ICW1_ICW4) d) in
  let d := io_wait (outb PIC2_COMMAND (Z.lor ICW1_INIT ICW1_ICW4) d) in
  let d := io_wait (outb PIC1_DATA offset1 d) in
  let d := io_wait (outb PIC2_DATA offset2 d) in
  let d := io_wait (outb PIC1_DATA 0x04 d) in
  let d := io_wait (outb PIC2_DATA 0x02 d) in
  let d := io_wait (outb PIC1_DATA ICW4_8086 d) in
  let d := io_wait (outb PIC2_DATA ICW4_8086 d) in
  outb PIC2_DATA mask2 (outb PIC1_DATA mask1 d).

Definition pic_send_eoi (irq : Z) (d : D) : D :=
  let d := if 8 <=? irq then outb PIC2_COMMAND PIC_EOI d else d in outb PIC1_COMMAND PIC_EOI d.

(** The port and the bit of a line. *)
Definition pic_line (irq : Z) : Z * Z := if irq <? 8 then (PIC1_DATA, irq) else (PIC2_DATA, irq - 8).

Definition pic_set_mask (irq : Z) (d : D) : D :=
  let '(port, line) := pic_line irq in
  let '(v, d) := inb port d in outb port (Z.lor v (u8 (Z.shiftl 1 line))) d.
Definition pic_clear_mask (irq : Z) (d : D) : D :=
  let '(port, line) := pic_line irq in
  let '(v, d) := inb port d in outb port (Z.land v (Z.lnot (u8 (Z.shiftl 1 line)))) d.

(** ** Interrupt handlers *)

Section Handlers.
Context {F St : Type}.

Definition irq_install_handler (irq_num : Z) (h : F) (t : Z → option F) : Z → option F :=
  if (irq_num <? 0) || (16 <=? irq_num) then t else <[irq_num := Some h]> t.
Definition irq_uninstall_handler (irq_num : Z) (t : Z → option F) : Z → option F :=
  if (irq_num <? 0) || (16 <=? irq_num) then t else <[irq_num := None]> t.

(** [call h] runs the handler on the rest of the system and the devices. *)
Definition irq_handler (call : F → St * D → St * D) (int_no : Z) (t : Z → option F) (s : St * D) : St * D :=
  let irq_num := s32 (int_no - 32) in
  let s := if (0 <=? irq_num) && (irq_num <? 16)
           then match t irq_num with Some h => call h s | None => s end else s in
  (s.1, pic_send_eoi (u8 irq_num) s.2).
End Handlers.

(** ** The timer *)

Definition PIT_COMMAND : Z := 0x43.
Definition PIT_CHANNEL0 : Z := 0x40.
Definition PIT_FREQUENCY : Z := 1193182.

Definition pit_init {F} (pit_irq : F) (hz : Z) (t : Z → option F) (d : D) : (Z → option F) * D :=
  let hz := if hz =? 0 then 100 else hz in
  let divisor := PIT_FREQUENCY / hz in
  let d := outb PIT_COMMAND 0x36 d in
  let d := outb PIT_CHANNEL0 (Z.land divisor 0xFF) d in
  let d := outb PIT_CHANNEL0 (Z.land (Z.shiftr divisor 8) 0xFF) d in
  (irq_install_handler 0 pit_irq t, pic_clear_mask 0 d).
End Ports.
