(* ===== verification/Pci.v ===== *)
(** PCI configuration space and the search for AHCI controllers
    (arch/x86_64/pci/pci.c, pci.h, driver/buildin/storage/ahci/ahci.c).

    The configuration space is reached through an address and a data port; [PciHost] is
    what the driver relies on: the data port shows the word at the address last
    written, and looking at it changes nothing.  [pci_scan] runs a callback on every
    function it finds; [pci_list] is the list of functions the configuration words
    describe, in order, and [pci_scan_exact] says that these and no others are visited.
    [ahci_init] counts the SATA drives behind the AHCI controllers, whose registers are
    in memory. *)

From stdpp Require Import prelude numbers list.
From Stdlib Require Import ZArith Lia.
From S2P Require Import Prelude Memory Ports.

Open Scope Z_scope.

Definition PCI_CONFIG_ADDRESS : Z := 0xCF8.
Definition PCI_CONFIG_DATA : Z := 0xCFC.

Record pci_device : Type := PciDevice {
  pd_bus : Z; pd_slot : Z; pd_function : Z; pd_vendor_id : Z; pd_device_id : Z;
  pd_class_code : Z; pd_subclass : Z; pd_prog_if : Z; pd_revision : Z; pd_header_type : Z
}.

Definition pci_address (bus slot function offset : Z) : Z :=
  Z.lor (Z.lor (Z.lor (Z.lor 0x80000000 (u32 (Z.shiftl bus 16))) (u32 (Z.shiftl slot 11))) (u32 (Z.shiftl function 8)))
    (Z.land offset 0xFC).

Section Pci.
Context {D : Type} `{!Ports D}.

Definition pci_config_read32 (bus slot function offset : Z) (d : D) : Z * D :=
  let d := outl PCI_CONFIG_ADDRESS (pci_address bus slot function offset) d in
  inl_ PCI_CONFIG_DATA d.

Definition pci_config_write32 (bus slot function offset value : Z) (d : D) : D :=
  let d := outl PCI_CONFIG_ADDRESS (pci_address bus slot function offset) d in
  outl PCI_CONFIG_DATA value d.

Definition pci_config_read16 (bus slot function offset : Z) (d : D) : Z * D :=
  let '(value, d) := pci_config_read32 bus slot function offset d in
  (u16 (Z.shiftr value (Z.land offset 2 * 8)), d).

Definition pci_config_read8 (bus slot function offset : Z) (d : D) : Z * D :=
  let '(value, d) := pci_config_read32 bus slot function offset d in
  (u8 (Z.shiftr value (Z.land offset 3 * 8)), d).

Definition pci_bar (dev : option pci_device) (bar : Z) (d : D) : Z * D :=
  match dev with
  | None => (0, d)
  | Some dev =>
      if 6 <=? bar then (0, d)
      else pci_config_read32 (pd_bus dev) (pd_slot dev) (pd_function dev) (u8 (0x10 + bar * 4)) d
  end.

Definition pci_read_device (bus slot function : Z) (d : D) : option pci_device * D :=
  let '(vendor, d) := pci_config_read16 bus slot function 0x00 d in
  if vendor =? 0xFFFF then (None, d)
  else
    let '(device_id, d) := pci_config_read16 bus slot function 0x02 d in
    let '(revision, d) := pci_config_read8 bus slot function 0x08 d in
    let '(prog_if, d) := pci_config_read8 bus slot function 0x09 d in
    let '(subclass, d) := pci_config_read8 bus slot function 0x0A d in
    let '(class_code, d) := pci_config_read8 bus slot function 0x0B d in
    let '(header_type, d) := pci_config_read8 bus slot function 0x0E d in
    (Some (PciDevice bus slot function vendor device_id class_code subclass prog_if revision header_type), d).

(** The functions of a slot, the first of which was read already; a function that is
    not there is passed over. *)
Definition scan_function {St} (callback : pci_device → St * D → St * D) (bus slot : Z) (dev0 : pci_device) (function : Z)
    (s : St * D) : St * D :=
  if function =? 0 then callback dev0 s
  else
    let '(dev, d) := pci_read_device bus slot function s.2 in
    match dev with Some dev => callback dev (s.1, d) | None => (s.1, d) end.

Definition scan_slot {St} (callback : pci_device → St * D → St * D) (bus slot : Z) (s : St * D) : St * D :=
  let '(dev, d) := pci_read_device bus slot 0 s.2 in
  match dev with
  | None => (s.1, d)
  | Some dev =>
      let functions := if truthy (Z.land (pd_header_type dev) 0x80) then 8 else 1 in
      for_do 0 functions (scan_function callback bus slot dev) (s.1, d)
  end.

Definition pci_scan {St} (callback : option (pci_device → St * D → St * D)) (s : St * D) : St * D :=
  match callback with
  | None => s
  | Some callback => for_do 0 256 (λ bus, for_do 0 32 (scan_slot callback bus)) s
  end.

(** ** ahci.c *)

Definition AHCI_CLASS_MASS_STORAGE : Z := 0x01.
Definition AHCI_SUBCLASS_SATA : Z := 0x06.
Definition AHCI_PROGIF_AHCI : Z := 0x01.
Definition AHCI_PORT_DET_PRESENT : Z := 0x03.
Definition AHCI_PORT_IPM_ACTIVE : Z := 0x01.
Definition AHCI_SIG_ATA : Z := 0x00000101.

(** The offsets of [pi] and [ports] in [hba_mem], of [sig] and [ssts] in [hba_port]. *)
Definition hba_pi : Z := 0x0C.
Definition hba_ports (i : Z) : Z := 0x100 + i * 0x80.
Definition port_sig : Z := 0x24.
Definition port_ssts : Z := 0x28.

Definition ahci_port_has_sata_drive (m : mem) (port : Z) : bool :=
  let ssts := load32 m (port + port_ssts) in
  let det := u8 (Z.land ssts 0x0F) in
  let ipm := u8 (Z.land (Z.shiftr ssts 8) 0x0F) in
  if negb (det =? AHCI_PORT_DET_PRESENT) || negb (ipm =? AHCI_PORT_IPM_ACTIVE) then false
  else load32 m (port + port_sig) =? AHCI_SIG_ATA.

(** The ports of a controller at [hba] added to the count. *)
Definition scan_ports (m : mem) (hba sata_ports_found : Z) : Z :=
  let implemented := load32 m (hba + hba_pi) in
  for_do 0 32 (λ i n,
    if negb (truthy (Z.land implemented (u32 (Z.shiftl 1 i)))) then n
    else if ahci_port_has_sata_drive m (hba + hba_ports i) then u32 (n + 1) else n) sata_ports_found.

Definition ahci_scan_pci_device (m : mem) (dev : pci_device) (s : Z * D) : Z * D :=
  if negb (pd_class_code dev =? AHCI_CLASS_MASS_STORAGE) || negb (pd_subclass dev =? AHCI_SUBCLASS_SATA)
     || negb (pd_prog_if dev =? AHCI_PROGIF_AHCI) then s
  else
    let '(bar, d) := pci_bar (Some dev) 5 s.2 in
    let abar := Z.land bar 0xFFFFFFF0 in
    if abar =? 0 then (s.1, d)
    else if 0x40000000 <=? abar then (s.1, d)
    else (scan_ports m abar s.1, d).

Definition ahci_init (m : mem) (d : D) : Z * D := pci_scan (Some (ahci_scan_pci_device m)) (0, d).
End Pci.

(** ** What the host bridge promises *)

Class PciHost (D : Type) `{!Ports D} : Type := {
  pci_word : D → Z → Z;
  pci_word_read a d : is_u32 a →
    let r := port_in32 PCI_CONFIG_DATA (port_out32 PCI_CONFIG_ADDRESS a d) in
    u32 r.1 = u32 (pci_word d a) ∧ ∀ b, pci_word r.2 b = pci_word d b
}.

Section Spec.
Context {D : Type} `{!Ports D, !PciHost D}.

(** The configuration words the devices show are [w]. *)
Definition shows (w : Z → Z) (d : D) : Prop := ∀ a, u32 (pci_word d a) = w a.

Lemma pci_address_u32 bus slot function offset : is_u32 (pci_address bus slot function offset).
Proof.
  unfold is_u32, pci_address. change 4294967296 with (2 ^ 32).
  repeat (apply lor_lt_pow2; [lia| |]); try apply u32_range; [lia|].
  change 0xFC with (Z.land 0xFC (Z.ones 8)). rewrite Z.land_assoc, Z.land_ones by lia.
  pose proof (Z.mod_pos_bound (Z.land offset 0xFC) (2 ^ 8)). lia.
Qed.

Lemma read32_spec w bus slot function offset d :
  shows w d →
  let r := pci_config_read32 bus slot function offset d in
  r.1 = w (pci_address bus slot function offset) ∧ shows w r.2.
Proof.
  intros Hw. unfold pci_config_read32, inl_, outl. pose proof (pci_address_u32 bus slot function offset) as Ha.
  rewrite (u32_small (pci_address _ _ _ _)) by apply Ha. change (u16 PCI_CONFIG_ADDRESS) with PCI_CONFIG_ADDRESS.
  change (u16 PCI_CONFIG_DATA) with PCI_CONFIG_DATA. destruct (pci_word_read _ d Ha) as [E1 E2].
  destruct (port_in32 _ _) as [v d']. cbn [fst snd] in *. split; [by rewrite E1|]. intros a. by rewrite E2.
Qed.

Lemma read16_spec w bus slot function offset d :
  shows w d →
  let r := pci_config_read16 bus slot function offset d in
  r.1 = u16 (Z.shiftr (w (pci_address bus slot function offset)) (Z.land offset 2 * 8)) ∧ shows w r.2.
Proof.
  intros Hw. unfold pci_config_read16. destruct (read32_spec w bus slot function offset d Hw) as [E H].
  destruct (pci_config_read32 _ _ _ _ _) as [v d']. cbn [fst snd] in *. by subst v.
Qed.

Lemma read8_spec w bus slot function offset d :
  shows w d →
  let r := pci_config_read8 bus slot function offset d in
  r.1 = u8 (Z.shiftr (w (pci_address bus slot function offset)) (Z.land offset 3 * 8)) ∧ shows w r.2.
Proof.
  intros Hw. unfold pci_config_read8. destruct (read32_spec w bus slot function offset d Hw) as [E H].
  destruct (pci_config_read32 _ _ _ _ _) as [v d']. cbn [fst snd] in *. by subst v.
Qed.

(** The function the words describe: nobody drives the bus where there is none. *)
Definition device_of (w : Z → Z) (b s f : Z) : option pci_device :=
  let w0 := w (pci_address b s f 0) in let w8 := w (pci_address b s f 8) in let wc := w (pci_address b s f 12) in
  if w0 mod 65536 =? 0xFFFF then None
  else Some (PciDevice b s f (w0 mod 65536) (w0 / 65536) (w8 / 16777216) (w8 / 65536 mod 256) (w8 / 256 mod 256) (w8 mod 256)
               (wc / 65536 mod 256)).

(** One field read after the others. *)
Ltac field H := match goal with
  | |- context [pci_config_read16 ?b ?s ?f ?o ?d] => destruct (read16_spec _ b s f o d H) as [? H']; destruct (pci_config_read16 b s f o d)
  | |- context [pci_config_read8 ?b ?s ?f ?o ?d] => destruct (read8_spec _ b s f o d H) as [? H']; destruct (pci_config_read8 b s f o d)
  end; cbn [fst snd] in *; clear H; rename H' into H.

Lemma read_device_spec w b s f d :
  shows w d → let r := pci_read_device b s f d in r.1 = device_of w b s f ∧ shows w r.2.
Proof.
  intros Hw. assert (∀ a, is_u32 (w a)) as Hu by (intros a; rewrite <- Hw; apply u32_range).
  pose proof (Hu (pci_address b s f 0)) as U0. pose proof (Hu (pci_address b s f 8)) as U8. pose proof (Hu (pci_address b s f 12)) as Uc.
  unfold pci_read_device, device_of. field Hw. subst. change (Z.land 0 2 * 8) with 0. rewrite Z.shiftr_0_r. 
  change (u16 (w (pci_address b s f 0))) with (w (pci_address b s f 0) mod 65536).
  destruct (Z.eqb_spec (w (pci_address b s f 0) mod 65536) 0xFFFF); [done|].
  do 6 field Hw. subst. split; [|done].
  change (pci_address b s f 2) with (pci_address b s f 0). change (pci_address b s f 9) with (pci_address b s f 8).
  change (pci_address b s f 10) with (pci_address b s f 8). change (pci_address b s f 11) with (pci_address b s f 8).
  change (pci_address b s f 14) with (pci_address b s f 12).
  change (Z.land 2 2 * 8) with 16. change (Z.land 8 3 * 8) with 0. change (Z.land 9 3 * 8) with 8. change (Z.land 10 3 * 8) with 16.
  change (Z.land 11 3 * 8) with 24. change (Z.land 14 3 * 8) with 16.
  rewrite !Z.shiftr_div_pow2 by lia. simpl (2 ^ _). unfold u16, u8, is_u32 in *. rewrite Z.div_1_r. do 2 f_equal; dlia.
Qed.

(** The functions of a slot and of the whole bus, in the order of the search. *)
Definition slot_list (w : Z → Z) (b s : Z) : list pci_device :=
  match device_of w b s 0 with
  | None => []
  | Some dev => dev :: if Z.testbit (pd_header_type dev) 7 then seqZ 1 7 ≫= (λ f, option_list (device_of w b s f)) else []
  end.
Definition bus_list (w : Z → Z) (b : Z) : list pci_device := seqZ 0 32 ≫= slot_list w b.
Definition pci_list (w : Z → Z) : list pci_device := seqZ 0 256 ≫= bus_list w.

Section Scan.
Context {St : Type} (w : Z → Z) (cb : pci_device → St * D → St * D) (f : pci_device → St → St).
Hypothesis cb_pure : ∀ dev s d, shows w d → (cb dev (s, d)).1 = f dev s ∧ shows w (cb dev (s, d)).2.

(** From [s] the devices of [l] were handed to the callback. *)
Definition visited (l : list pci_device) (s : St) (r : St * D) : Prop := r.1 = foldl (flip f) s l ∧ shows w r.2.

Lemma visit_one dev l s r : visited l s r → visited (l ++ [dev]) s (cb dev r).
Proof.
  destruct r as [s1 d]. intros [E H]. destruct (cb_pure dev s1 d H) as [E' H']. split; [|done].
  rewrite E', foldl_app. simpl in *. by rewrite E.
Qed.

Lemma visited_trans l l' s r r' : visited l s r → visited l' r.1 r' → visited (l ++ l') s r'.
Proof. intros [E _] [E' H]. split; [|done]. by rewrite foldl_app, <- E. Qed.

(** A loop whose rounds visit [g i] visits them all. *)
Lemma visit_loop lo n (body : Z → St * D → St * D) (g : Z → list pci_device) s :
  0 ≤ n → shows w s.2 → (∀ i r, lo ≤ i → shows w r.2 → visited (g i) r.1 (body i r)) →
  visited (seqZ lo n ≫= g) s.1 (for_do lo (lo + n) body s).
Proof.
  intros Hn Hs Hb. replace (seqZ lo n) with (seqZ lo (lo + n - lo)) by (f_equal; lia).
  apply (for_do_ind (λ i r, visited (seqZ lo (i - lo) ≫= g) s.1 r)); [lia|by rewrite Z.sub_diag|].
  intros i r Hi Hr. replace (i + 1 - lo) with (i - lo + 1) by lia. rewrite seqZ_app by lia.
  replace (lo + (i - lo)) with i by lia. rewrite bind_app. apply (visited_trans _ _ _ r); [done|].
  replace (seqZ i 1 ≫= g) with (g i); [apply Hb; [lia|apply Hr]|]. rewrite seqZ_cons by lia. simpl. by rewrite app_nil_r.
Qed.

Lemma scan_slot_visits b s r : shows w r.2 → visited (slot_list w b s) r.1 (scan_slot cb b s r).
Proof.
  intros H. unfold scan_slot, slot_list. destruct (read_device_spec w b s 0 r.2 H) as [E H']. destruct (pci_read_device b s 0 r.2) as [o d].
  cbn [fst snd] in E, H'. subst o. destruct (device_of w b s 0) as [dev|]; [|done].
  change 0x80 with (2 ^ 7). rewrite truthy_land_pow2 by lia.
  assert (visited [dev] r.1 (scan_function cb b s dev 0 (r.1, d))) as H0 by (apply (visit_one dev []); done).
  destruct (Z.testbit _ 7); rewrite for_do_unfold by lia; [|by rewrite for_do_end by lia].
  apply (visited_trans [dev] _ _ _ _ H0). change (for_do (0 + 1) 8) with (for_do (St := St * D) 1 (1 + 7)).
  apply visit_loop; [lia|apply H0|]. intros i r' Hi Hr. unfold scan_function. rewrite (proj2 (Z.eqb_neq i 0)) by lia.
  destruct (read_device_spec w b s i r'.2 Hr) as [E H1]. destruct (pci_read_device b s i r'.2) as [o d1].
  cbn [fst snd] in E, H1. subst o. destruct (device_of w b s i) as [dev1|]; [|done]. by apply (visit_one dev1 []).
Qed.

Lemma pci_scan_spec s : shows w s.2 → visited (pci_list w) s.1 (pci_scan (Some cb) s).
Proof.
  intros H. unfold pci_scan, pci_list. apply (visit_loop 0 256); [lia|done|]. intros b r _ Hr.
  apply (visit_loop 0 32); [lia|done|]. intros i r' _ Hr'. by apply scan_slot_visits.
Qed.
End Scan.

(** ** Which functions are visited *)

Lemma elem_option_list {A} (x : A) o : x ∈ option_list o ↔ o = Some x.
Proof. destruct o as [y|]; simpl; [rewrite list_elem_of_singleton; naive_solver|]. by split; [intros H%elem_of_nil|]. Qed.

Lemma elem_pci_list w dev :
  dev ∈ pci_list w ↔ ∃ b s f, 0 ≤ b < 256 ∧ 0 ≤ s < 32 ∧ 0 ≤ f < 8 ∧ device_of w b s f = Some dev ∧
    ∃ dev0, device_of w b s 0 = Some dev0 ∧ (f = 0 ∨ Z.testbit (pd_header_type dev0) 7 = true).
Proof.
  unfold pci_list, bus_list. setoid_rewrite list_elem_of_bind. setoid_rewrite list_elem_of_bind. setoid_rewrite elem_of_seqZ.
  unfold slot_list. split.
  - intros (b & (s & Hd & Hs) & Hb). destruct (device_of w b s 0) as [dev0|] eqn:E0; [|by apply elem_of_nil in Hd].
    exists b, s. apply elem_of_cons in Hd as [->|Hd]; [exists 0; split_and!; try lia; eauto|].
    destruct (Z.testbit _ 7) eqn:Et; [|by apply elem_of_nil in Hd]. apply list_elem_of_bind in Hd as (f & Hd & Hf).
    apply elem_option_list in Hd. apply elem_of_seqZ in Hf. exists f. split_and!; try lia; eauto.
  - intros (b & s & f & Hb & Hs & Hf & Hd & dev0 & E0 & Hm). exists b. split; [|lia]. exists s. split; [|lia]. rewrite E0.
    destruct (Z.eq_dec f 0) as [->|Hf0]; [assert (dev0 = dev) as -> by congruence; left|]. right. destruct Hm as [?| ->]; [done|].
    apply list_elem_of_bind. exists f. rewrite elem_option_list, elem_of_seqZ. split; [done|lia].
Qed.

Lemma device_of_place w b s f dev : device_of w b s f = Some dev → (pd_bus dev, pd_slot dev, pd_function dev) = (b, s, f).
Proof. unfold device_of. intros H. destruct (_ =? 0xFFFF); [done|]. by injection H as <-. Qed.

Lemma length_bind_le {A B} (g : A → list B) l k : (∀ x, (length (g x) ≤ k)%nat) → (length (l ≫= g) ≤ length l * k)%nat.
Proof. intros H. induction l as [|x l IH]; [done|]. rewrite bind_cons, length_app. cbn [length]. pose proof (H x). lia. Qed.

Lemma length_pci_list w : (length (pci_list w) ≤ 256 * 256)%nat.
Proof.
  unfold pci_list. etrans; [apply (length_bind_le _ _ 256)|by rewrite length_seqZ]. intros b. unfold bus_list.
  etrans; [apply (length_bind_le _ _ 8)|by rewrite length_seqZ]. intros s. unfold slot_list.
  destruct (device_of w b s 0) as [dev|]; cbn [length]; [|lia].
  apply le_n_S. destruct (Z.testbit _ 7); cbn [length]; [|lia]. change 7%nat with (length (seqZ 1 7) * 1)%nat. apply length_bind_le. intros f. by destruct (device_of w b s f); simpl; lia.
Qed.

(** ** The drives behind the controllers *)

(** The registers of a controller: where its fifth base address places them, if the
    kernel maps that. *)
Definition ahci_base (w : Z → Z) (dev : pci_device) : option Z :=
  if (pd_class_code dev =? 1) && (pd_subclass dev =? 6) && (pd_prog_if dev =? 1) then
    let abar := Z.land (w (pci_address (pd_bus dev) (pd_slot dev) (pd_function dev) 0x24)) 0xFFFFFFF0 in
    if (0 <? abar) && (abar <? 0x40000000) then Some abar else None
  else None.
(** An implemented port with a device present, its link active, that signs as a disk. *)
Definition port_drive (m : mem) (hba i : Z) : Prop :=
  let port := hba + 0x100 + i * 0x80 in
  Z.testbit (load32 m (hba + 0x0C)) i = true ∧ load32 m (port + 0x28) mod 16 = 3 ∧
  load32 m (port + 0x28) / 256 mod 16 = 1 ∧ load32 m (port + 0x24) = 0x101.
#[global] Instance port_drive_dec m hba i : Decision (port_drive m hba i).
Proof. unfold port_drive. apply _. Defined.
Definition sata_drives (m : mem) (hba : Z) : list Z := filter (port_drive m hba) (seqZ 0 32).
Definition ahci_drives (m : mem) (w : Z → Z) : list (pci_device * Z) :=
  pci_list w ≫= λ dev, match ahci_base w dev with None => [] | Some hba => (λ i, (dev, i)) <$> sata_drives m hba end.

Lemma has_drive_spec m port :
  ahci_port_has_sata_drive m port = true ↔
  load32 m (port + 0x28) mod 16 = 3 ∧ load32 m (port + 0x28) / 256 mod 16 = 1 ∧ load32 m (port + 0x24) = 0x101.
Proof.
  unfold ahci_port_has_sata_drive, port_ssts, port_sig, AHCI_PORT_DET_PRESENT, AHCI_PORT_IPM_ACTIVE, AHCI_SIG_ATA.
  change 0x0F with (Z.ones 4). rewrite !Z.land_ones, Z.shiftr_div_pow2 by lia. change (2 ^ 4) with 16. change (2 ^ 8) with 256.
  rewrite !u8_small by dlia. destruct (Z.eqb_spec (load32 m (port + 0x28) mod 16) 3), (Z.eqb_spec (load32 m (port + 0x28) / 256 mod 16) 1); simpl; try lia.
Qed.

Lemma scan_ports_spec m hba n :
  0 ≤ n < 2 ^ 32 - 32 → scan_ports m hba n = n + Z.of_nat (length (sata_drives m hba)).
Proof.
  intros Hn. unfold scan_ports, sata_drives, hba_pi.
  apply (for_do_ind (λ i r, r = n + Z.of_nat (length (filter (port_drive m hba) (seqZ 0 i))))); [lia|simpl; lia|].
  intros i r Hi ->. rewrite seqZ_app by lia. rewrite filter_app, length_app, Z.add_0_l.
  replace (seqZ i 1) with [i] by (by rewrite seqZ_cons by lia).
  rewrite (u32_small (Z.shiftl 1 i)).
  2:{ rewrite Z.shiftl_mul_pow2, Z.mul_1_l by lia. pose proof (Z.pow_pos_nonneg 2 i). pose proof (Z.pow_lt_mono_r 2 i 32). lia. }
  rewrite Z.shiftl_mul_pow2, Z.mul_1_l, truthy_land_pow2 by lia.
  assert (port_drive m hba i ↔ Z.testbit (load32 m (hba + 0x0C)) i = true ∧ ahci_port_has_sata_drive m (hba + hba_ports i) = true) as Hp.
  { rewrite has_drive_spec. unfold port_drive, hba_ports. by rewrite !Z.add_assoc. }
  pose proof (length_filter (port_drive m hba) (seqZ 0 i)) as Hl. rewrite length_seqZ in Hl.
  destruct (decide (port_drive m hba i)) as [H|H].
  - destruct (proj1 Hp H) as [-> ->]. rewrite filter_cons_True by done. cbn [negb length filter list_filter]. rewrite u32_small by lia. lia.
  - rewrite filter_cons_False by done. cbn [filter list_filter length]. destruct (Z.testbit _ i) eqn:Et; cbn [negb]; [|lia].
    destruct (ahci_port_has_sata_drive _ _); [by destruct H; apply Hp|lia].
Qed.

(** What the callback adds to the count, as long as the count stays small. *)
Definition ahci_step (m : mem) (w : Z → Z) (dev : pci_device) (n : Z) : Z :=
  match ahci_base w dev with None => n | Some hba => scan_ports m hba n end.

Lemma ahci_callback m w dev n d :
  shows w d → (ahci_scan_pci_device m dev (n, d)).1 = ahci_step m w dev n ∧ shows w (ahci_scan_pci_device m dev (n, d)).2.
Proof.
  intros Hw. unfold ahci_scan_pci_device, ahci_step, ahci_base, AHCI_CLASS_MASS_STORAGE, AHCI_SUBCLASS_SATA, AHCI_PROGIF_AHCI.
  destruct (pd_class_code dev =? 1), (pd_subclass dev =? 6), (pd_prog_if dev =? 1); cbn [negb orb andb]; try done.
  unfold pci_bar. change (6 <=? 5) with false. cbn [snd]. change (u8 (0x10 + 5 * 4)) with 0x24.
  destruct (read32_spec w (pd_bus dev) (pd_slot dev) (pd_function dev) 0x24 d Hw) as [E H].
  destruct (pci_config_read32 _ _ _ _ _) as [v d']. cbn [fst snd] in *. subst v.
  set (abar := Z.land _ 0xFFFFFFF0). assert (0 ≤ abar) as Ha by (apply Z.land_nonneg; lia).
  destruct (Z.eqb_spec abar 0) as [->|]; [done|]. rewrite (proj2 (Z.ltb_lt 0 abar)) by lia. cbn [andb].
  destruct (Z.leb_spec 0x40000000 abar), (Z.ltb_spec abar 0x40000000); try lia; done.
Qed.

Lemma ahci_fold m w l n :
  0 ≤ n → n + 32 * Z.of_nat (length l) < 2 ^ 32 →
  foldl (flip (ahci_step m w)) n l =
  n + Z.of_nat (length (l ≫= λ dev, match ahci_base w dev with None => [] | Some hba => (λ i, (dev, i)) <$> sata_drives m hba end)).
Proof.
  revert n. induction l as [|dev l IH]; intros n Hn Hl; [simpl; lia|]. rewrite bind_cons, length_app. cbn [foldl length] in *.
  change (flip (ahci_step m w) n dev) with (ahci_step m w dev n). unfold ahci_step at 2.
  destruct (ahci_base w dev) as [hba|]; [|rewrite IH by lia; simpl; lia].
  pose proof (length_filter (port_drive m hba) (seqZ 0 32)) as Hs. rewrite length_seqZ in Hs. fold (sata_drives m hba) in Hs.
  rewrite scan_ports_spec, IH, length_fmap by lia. lia.
Qed.

(** C39: the search runs the callback on every function the bus has, each once and in order,
    so the count is the number of ports with a SATA drive behind the AHCI controllers
    the kernel can reach; it cannot overflow. *)
Theorem ahci_init_counts m w d :
  shows w d →
  (ahci_init m d).1 = Z.of_nat (length (ahci_drives m w)) ∧ shows w (ahci_init m d).2.
Proof.
  intros Hw. destruct (pci_scan_spec w (ahci_scan_pci_device m) (ahci_step m w) (ahci_callback m w) (0, d) Hw) as [E H].
  split; [|exact H]. unfold ahci_init. rewrite E. cbn [fst]. rewrite ahci_fold; [done|lia|]. pose proof (length_pci_list w). lia.
Qed.
End Spec.

(** ** A machine with one controller *)

(** A host bridge: the address last written, and the configuration words. *)
Record bridge : Type := Bridge { br_address : Z; br_words : Z → Z }.
#[local] Program Instance bridge_ports : Ports bridge := {|
  port_in8 _ d := (0xFF, d); port_out8 _ _ d := d; port_in16 _ d := (0xFFFF, d); port_out16 _ _ d := d;
  port_in32 p d := (if p =? PCI_CONFIG_DATA then br_words d (br_address d) else 0xFFFFFFFF, d);
  port_out32 p v d := if p =? PCI_CONFIG_ADDRESS then Bridge v (br_words d) else d
|}.
#[local] Program Instance bridge_host : PciHost bridge := {| pci_word := br_words |}.
Next Obligation. intros a d _. done. Qed.

(** Slot 31 has an ISA bridge and, as its function 2, a controller with registers at 1 MiB. *)
Definition demo_words (a : Z) : Z :=
  if a =? pci_address 0 31 0 0 then 0x29188086 else if a =? pci_address 0 31 0 8 then 0x06010002
  else if a =? pci_address 0 31 0 12 then 0x00800000
  else if a =? pci_address 0 31 2 0 then 0x29228086 else if a =? pci_address 0 31 2 8 then 0x01060102
  else if a =? pci_address 0 31 2 12 then 0 else if a =? pci_address 0 31 2 0x24 then 0x100000 else 0xFFFFFFFF.
(** Ports 0 and 1 are implemented; the first has a disk, the second nothing. *)
Definition demo_hba : mem :=
  store32 (store32 (store32 (λ _, 0) 0x10000C 3) 0x100128 0x113) 0x100124 0x101.

Lemma ahci_init_witness :
  (ahci_init demo_hba (Bridge 0 demo_words)).1 = 1.
Proof.
  assert (shows demo_words (Bridge 0 demo_words)) as H.
  { intros a. unfold demo_words, pci_word, bridge_host. cbn [br_words]. unfold demo_words. repeat split_if; reflexivity. }
  rewrite (proj1 (ahci_init_counts demo_hba demo_words (Bridge 0 demo_words) H)). vm_compute. reflexivity.
Defined.
