(* ===== verification/Ps2.v ===== *)
(** PS/2 keyboard and mouse (driver/buildin/input/ps2/).

    The controller is a device of Ports.v.  Each interrupt takes one byte from port
    0x60; the handlers assemble the bytes into reports to the stacks of Tty.v and
    Mouse.v.  [feeds] says which bytes the controller hands out, and the theorems say
    what a whole stream of interrupts amounts to. *)

From stdpp Require Import prelude numbers list.
From Stdlib Require Import ZArith Lia.
From S2P Require Import Prelude Ring Tty Mouse Ports.

Open Scope Z_scope.

Definition PS2_DATA : Z := 0x60.
Definition PS2_STATUS : Z := 0x64.
Definition PS2_COMMAND : Z := 0x64.

Section Ps2.
Context {D : Type} `{!Ports D}.

(** ** The controller *)

Definition either {A} (x : A + A) : A := match x with inl a | inr a => a end.

Definition ps2_wait_input_buffer_empty (d : D) : D :=
  either (for_ 0 100000 (λ _ d, let '(v, d) := inb PS2_STATUS d in
    if truthy (Z.land v 0x02) then inl (io_wait d) else inr d) d).
Definition ps2_wait_output_buffer_full (d : D) : D :=
  either (for_ 0 100000 (λ _ d, let '(v, d) := inb PS2_STATUS d in
    if truthy (Z.land v 0x01) then inr d else inl (io_wait d)) d).
Definition ps2_send_command (cmd : Z) (d : D) : D :=
  ps2_wait_input_buffer_empty (outb PS2_COMMAND cmd (ps2_wait_input_buffer_empty d)).
Definition ps2_send_data (data : Z) (d : D) : D :=
  ps2_wait_input_buffer_empty (outb PS2_DATA data (ps2_wait_input_buffer_empty d)).
Definition ps2_read_data (d : D) : Z * D := inb PS2_DATA (ps2_wait_output_buffer_full d).
Definition ps2_flush_input (d : D) : D :=
  either (for_ 0 100 (λ _ d, let '(v, d) := inb PS2_STATUS d in
    if truthy (Z.land v 0x01) then inl (inb PS2_DATA d).2 else inr d) d).

(** ** Keyboard *)

Definition PS2_KBD_EXTENDED : Z := 0xE0.
Definition PS2_KBD_RELEASED : Z := 0xF0.
Definition PS2_KBD_ACK : Z := 0xFA.
Definition PS2_KBD_SET1_BREAK : Z := 0x80.
Definition PS2_KBD_CMD_SET_SCANCODE : Z := 0xF0.
Definition PS2_KBD_SCANCODE_SET_2 : Z := 0x02.

Record ps2_kbd : Type := Ps2Kbd { ps2_extended : bool; ps2_released : bool }.

Definition ps2_keyboard_byte (byte : Z) (p : ps2_kbd) (k : kbd) : ps2_kbd * kbd :=
  if (byte =? PS2_KBD_ACK) || (byte =? 0x00) then (Ps2Kbd false false, k)
  else if byte =? PS2_KBD_EXTENDED then (Ps2Kbd true (ps2_released p), k)
  else if byte =? PS2_KBD_RELEASED then (Ps2Kbd (ps2_extended p) true, k)
  else
    let '(released, byte) :=
      if truthy (Z.land byte PS2_KBD_SET1_BREAK) then (true, Z.land byte (Z.lnot PS2_KBD_SET1_BREAK))
      else (ps2_released p, byte) in
    let keycode := if ps2_extended p then Z.lor byte 0x100 else byte in
    (Ps2Kbd false false, keyboard_report_key keycode (negb released) k).

Definition ps2_keyboard_irq (s : ps2_kbd * kbd * D) : ps2_kbd * kbd * D :=
  let '(p, k, d) := s in
  let '(byte, d) := inb PS2_DATA d in (ps2_keyboard_byte byte p k, d).

(** The driver is installed when both commands were acknowledged. *)
Definition ps2_keyboard_init {F} (irq : F) (k : kbd) (t : Z → option F) (d : D) : bool * kbd * (Z → option F) * D :=
  let k := keyboard_stack_init k in
  let d := ps2_flush_input d in
  let d := ps2_send_data PS2_KBD_CMD_SET_SCANCODE d in
  let '(ack1, d) := ps2_read_data d in
  let d := ps2_send_data PS2_KBD_SCANCODE_SET_2 d in
  let '(ack2, d) := ps2_read_data d in
  if negb (ack1 =? PS2_KBD_ACK) || negb (ack2 =? PS2_KBD_ACK) then (false, k, t, d)
  else (true, k, irq_install_handler 1 irq t, pic_clear_mask 1 d).

(** ** Mouse *)

Definition PS2_CMD_ENABLE_AUX : Z := 0xA8.
Definition PS2_CMD_READ_CMD_BYTE : Z := 0x20.
Definition PS2_CMD_WRITE_CMD_BYTE : Z := 0x60.
Definition PS2_CMD_WRITE_AUX : Z := 0xD4.
Definition PS2_MOUSE_CMD_SET_DEFAULTS : Z := 0xF6.
Definition PS2_MOUSE_CMD_ENABLE_REPORT : Z := 0xF4.
Definition PS2_MOUSE_ACK : Z := 0xFA.

Record ps2_mouse : Type := Ps2Mouse { packet0 : Z; packet1 : Z; packet2 : Z; cycle : Z; prev_buttons : Z }.

(** [packet[cycle] = byte], with [cycle] below 3. *)
Definition set_packet (i byte : Z) (p : ps2_mouse) : ps2_mouse :=
  Ps2Mouse (if i =? 0 then byte else packet0 p) (if i =? 1 then byte else packet1 p)
    (if i =? 2 then byte else packet2 p) (cycle p) (prev_buttons p).
Definition set_cycle (c : Z) (p : ps2_mouse) : ps2_mouse :=
  Ps2Mouse (packet0 p) (packet1 p) (packet2 p) c (prev_buttons p).

(** The reports of one packet. *)
Definition report_buttons (buttons prev : Z) (m : mouse) : mouse :=
  for_do 0 3 (λ b m,
    let now := truthy (Z.land (Z.shiftr buttons b) 1) in
    let was := truthy (Z.land (Z.shiftr prev b) 1) in
    if eqb now was then m else mouse_report_button b now m) m.
Definition report_packet (a b c prev : Z) (m : mouse) : mouse :=
  let buttons := Z.land a 0x07 in
  let dx := s8 b in
  let dy := - s8 c in
  report_buttons buttons prev (mouse_report_motion dx dy m).

Definition ps2_mouse_byte (byte : Z) (p : ps2_mouse) (m : mouse) : ps2_mouse * mouse :=
  let p := set_packet (cycle p) byte p in
  let p := set_cycle (u8 ((cycle p + 1) mod 3)) p in
  if negb (cycle p =? 0) then (p, m)
  else if negb (truthy (Z.land (packet0 p) 0x08)) then
    (Ps2Mouse (packet1 p) (packet2 p) (packet2 p) 2 (prev_buttons p), m)
  else
    (Ps2Mouse (packet0 p) (packet1 p) (packet2 p) (cycle p) (Z.land (packet0 p) 0x07),
     report_packet (packet0 p) (packet1 p) (packet2 p) (prev_buttons p) m).

Definition ps2_mouse_irq (s : ps2_mouse * mouse * D) : ps2_mouse * mouse * D :=
  let '(p, m, d) := s in
  let '(byte, d) := inb PS2_DATA d in (ps2_mouse_byte byte p m, d).

Definition ps2_mouse_init {F} (irq : F) (p : ps2_mouse) (m : mouse) (t : Z → option F) (d : D)
    : bool * ps2_mouse * mouse * (Z → option F) * D :=
  let m := mouse_stack_init m in
  let d := ps2_flush_input d in
  let d := ps2_send_command PS2_CMD_ENABLE_AUX d in
  let d := ps2_send_command PS2_CMD_READ_CMD_BYTE d in
  let '(cmd, d) := ps2_read_data d in
  let cmd := Z.land (Z.lor cmd 0x02) (Z.lnot 0x20) in
  let d := ps2_send_command PS2_CMD_WRITE_CMD_BYTE d in
  let d := ps2_send_data cmd d in
  let d := ps2_send_command PS2_CMD_WRITE_AUX d in
  let d := ps2_send_data PS2_MOUSE_CMD_SET_DEFAULTS d in
  let '(ack1, d) := ps2_read_data d in
  let d := ps2_send_command PS2_CMD_WRITE_AUX d in
  let d := ps2_send_data PS2_MOUSE_CMD_ENABLE_REPORT d in
  let '(ack2, d) := ps2_read_data d in
  if negb (ack1 =? PS2_MOUSE_ACK) || negb (ack2 =? PS2_MOUSE_ACK) then (false, p, m, t, d)
  else (true, Ps2Mouse (packet0 p) (packet1 p) (packet2 p) 0 0, m, irq_install_handler 12 irq t, pic_clear_mask 12 d).

(** ** Streams *)

(** The controller hands out these bytes, one per read of the data port, and is then [d']. *)
Fixpoint feeds (l : list Z) (d d' : D) : Prop :=
  match l with
  | [] => d' = d
  | b :: l => 0 ≤ b < 256 ∧ (inb PS2_DATA d).1 = b ∧ feeds l (inb PS2_DATA d).2 d'
  end.

Fixpoint irqs {S} (irq : S → S) (n : nat) (s : S) : S :=
  match n with O => s | Datatypes.S n => irqs irq n (irq s) end.

Lemma feeds_keyboard l d d' p k :
  feeds l d d' →
  irqs ps2_keyboard_irq (length l) (p, k, d) = (foldl (λ s b, ps2_keyboard_byte b s.1 s.2) (p, k) l, d').
Proof.
  revert d p k. induction l as [|b l IH]; intros d p k; cbn [feeds length irqs foldl]; [by intros ->|].
  intros (_ & Hb & Hl). unfold ps2_keyboard_irq at 2. destruct (inb PS2_DATA d) as [b' d1]. cbn [fst snd] in *. subst b'.
  destruct (ps2_keyboard_byte b p k) as [p1 k1]. by rewrite IH.
Qed.

Lemma feeds_mouse l d d' p m :
  feeds l d d' →
  irqs ps2_mouse_irq (length l) (p, m, d) = (foldl (λ s b, ps2_mouse_byte b s.1 s.2) (p, m) l, d').
Proof.
  revert d p m. induction l as [|b l IH]; intros d p m; cbn [feeds length irqs foldl]; [by intros ->|].
  intros (_ & Hb & Hl). unfold ps2_mouse_irq at 2. destruct (inb PS2_DATA d) as [b' d1]. cbn [fst snd] in *. subst b'.
  destruct (ps2_mouse_byte b p m) as [p1 m1]. by rewrite IH.
Qed.

(** *** Keyboard *)

(** A key with a seven-bit code, extended from 256 on, whose break code is none of the
    bytes with another meaning. *)
Definition key_ok (key : Z) : Prop :=
  0 ≤ key < 512 ∧ 0 < key mod 256 < 128 ∧ key mod 256 ≠ 0x60 ∧ key mod 256 ≠ 0x70 ∧ key mod 256 ≠ 0x7A.

(** The bytes a keyboard may send for a key event. *)
Inductive key_bytes (key : Z) : bool → list Z → Prop :=
  | key_make : key_bytes key true ((if 256 <=? key then [PS2_KBD_EXTENDED] else []) ++ [key mod 256])
  | key_break : key_bytes key false ((if 256 <=? key then [PS2_KBD_EXTENDED] else []) ++ [key mod 256 + PS2_KBD_SET1_BREAK])
  | key_prefixed_break :
      key_bytes key false ((if 256 <=? key then [PS2_KBD_EXTENDED] else []) ++ [PS2_KBD_RELEASED; key mod 256]).

(** The bits of a seven-bit code, checked on all of them. *)
Lemma code_bits c :
  0 < c < 128 →
  Z.lor c 0x100 = c + 256 ∧ Z.land c 0x80 = 0 ∧ Z.land (c + 0x80) 0x80 = 0x80 ∧ Z.land (c + 0x80) (Z.lnot 0x80) = c.
Proof.
  intros Hc.
  assert (Forall (λ c, Z.lor c 0x100 = c + 256 ∧ Z.land c 0x80 = 0 ∧ Z.land (c + 0x80) 0x80 = 0x80 ∧
    Z.land (c + 0x80) (Z.lnot 0x80) = c) (seqZ 1 127)) as Hall.
  { apply (bool_decide_unpack _). vm_compute. exact I. }
  rewrite Forall_forall in Hall. apply Hall, elem_of_seqZ. lia.
Qed.

(** The byte that ends a key event, by itself: a make code leaves the release flag as
    the prefix set it, a break code sets it. *)
Lemma last_byte c (brk : bool) p k :
  0 < c < 128 → c ≠ 0x60 → c ≠ 0x70 → c ≠ 0x7A →
  ps2_keyboard_byte (if brk then c + PS2_KBD_SET1_BREAK else c) p k =
  (Ps2Kbd false false, keyboard_report_key (if ps2_extended p then c + 256 else c) (negb (brk || ps2_released p)) k).
Proof.
  intros Hc H1 H2 H3. destruct (code_bits c Hc) as (Hor & Hz & Hs & Hclr).
  unfold ps2_keyboard_byte, PS2_KBD_ACK, PS2_KBD_EXTENDED, PS2_KBD_RELEASED, PS2_KBD_SET1_BREAK. destruct brk.
  - replace (c + 128 =? 250) with false by lia. replace (c + 128 =? 0) with false by lia.
    replace (c + 128 =? 224) with false by lia. replace (c + 128 =? 240) with false by lia. cbn [orb].
    rewrite Hs, Hclr. change (truthy 128) with true. cbv iota. by destruct (ps2_extended p); rewrite ?Hor.
  - replace (c =? 250) with false by lia. replace (c =? 0) with false by lia.
    replace (c =? 224) with false by lia. replace (c =? 240) with false by lia. cbn [orb].
    rewrite Hz. change (truthy 0) with false. cbv iota. by destruct (ps2_extended p); rewrite ?Hor.
Qed.

Definition key_step (s : ps2_kbd * kbd) (b : Z) : ps2_kbd * kbd := ps2_keyboard_byte b s.1 s.2.

Lemma key_event_bytes key pressed l k :
  key_ok key → key_bytes key pressed l →
  foldl key_step (Ps2Kbd false false, k) l = (Ps2Kbd false false, keyboard_report_key key pressed k).
Proof.
  intros (Hk & Hc & H1 & H2 & H3) Hl.
  assert ((if 256 <=? key then key mod 256 + 256 else key mod 256) = key) as Ekey.
  { destruct (Z.leb_spec 256 key); [|rewrite Z.mod_small by lia; done].
    rewrite (Z.mod_eq key 256) by lia. assert (key / 256 = 1) as -> by (symmetry; apply (Z.div_unique key 256 1 (key - 256)); lia). lia. }
  assert (∀ r, foldl key_step (Ps2Kbd false r, k) (if 256 <=? key then [PS2_KBD_EXTENDED] else []) = (Ps2Kbd (256 <=? key) r, k)) as Hpre
    by (intros r; by destruct (256 <=? key)).
  inversion Hl; subst; rewrite foldl_app, Hpre; cbn [foldl].
  - unfold key_step. rewrite (last_byte (key mod 256) false) by done. cbn [fst snd ps2_extended ps2_released orb negb]. by rewrite Ekey.
  - unfold key_step. rewrite (last_byte (key mod 256) true) by done. cbn [fst snd ps2_extended ps2_released orb negb]. by rewrite Ekey.
  - unfold key_step. cbn [fst snd].
    change (ps2_keyboard_byte PS2_KBD_RELEASED (Ps2Kbd (256 <=? key) false) k) with (Ps2Kbd (256 <=? key) true, k). cbn [fst snd].
    rewrite (last_byte (key mod 256) false) by done. cbn [ps2_extended ps2_released orb negb]. by rewrite Ekey.
Qed.

(** The bytes of any sequence of key events, each sent in any of the forms a keyboard uses
    for it (make code, break code, release prefix, with or without the extended
    prefix), make the keyboard interrupt report exactly these events in order, and
    leave no prefix pending. *)
Theorem ps2_keyboard_decodes (events : list (Z * bool)) (bytes : list (list Z)) k d d' :
  Forall (λ e, key_ok e.1) events → Forall2 (λ e l, key_bytes e.1 e.2 l) events bytes →
  feeds (concat bytes) d d' →
  irqs ps2_keyboard_irq (length (concat bytes)) (Ps2Kbd false false, k, d) =
  (Ps2Kbd false false, foldl (λ k e, keyboard_report_key e.1 e.2 k) k events, d').
Proof.
  intros Hok Hb Hf. rewrite (feeds_keyboard _ _ _ _ _ Hf). f_equal. clear Hf. fold key_step. revert k Hok.
  induction Hb as [|[key pressed] l events bytes Hl _ IH]; intros k Hok; [done|].
  apply Forall_cons in Hok as [Hkey Hok]. cbn [concat foldl fst snd] in *. rewrite foldl_app.
  rewrite (key_event_bytes key pressed) by done. by apply IH.
Qed.

(** *** Mouse *)

(** What a stream of bytes means: bytes without bit 3 are skipped until one that can
    start a packet, and a packet is three bytes. *)
Fixpoint packets (l : list Z) : list (Z * Z * Z) :=
  match l with
  | a :: t =>
      match t with
      | b :: c :: r => if truthy (Z.land a 0x08) then (a, b, c) :: packets r else packets t
      | _ => []
      end
  | [] => []
  end.

Definition packet_step (s : Z * mouse) (p : Z * Z * Z) : Z * mouse :=
  (Z.land p.1.1 0x07, report_packet p.1.1 p.1.2 p.2 s.1 s.2).

(** The handler holds the bytes [q] of a packet not finished yet. *)
Definition pending (q : list Z) (p : ps2_mouse) : Prop :=
  cycle p = Z.of_nat (length q) ∧
  match q with [] => True | [a] => packet0 p = a | [a; b] => packet0 p = a ∧ packet1 p = b | _ => False end.

Definition mouse_step (s : ps2_mouse * mouse) (b : Z) : ps2_mouse * mouse := ps2_mouse_byte b s.1 s.2.

Lemma mouse_stream q l p m :
  pending q p →
  let r := foldl mouse_step (p, m) l in
  (∃ q', pending q' r.1) ∧
  (prev_buttons r.1, r.2) = foldl packet_step (prev_buttons p, m) (packets (q ++ l)).
Proof.
  revert q p m. induction l as [|b l IH]; intros q p m Hq.
  - cbv zeta. cbn [foldl]. rewrite app_nil_r. destruct q as [|a0 [|a1 [|a2 q]]]; [..|by destruct Hq]; (split; [by eexists|done]).
  - cbv zeta. cbn [foldl]. change (mouse_step (p, m) b) with (ps2_mouse_byte b p m). destruct p as [x y z c pb], Hq as [Hc Hq]. cbn [cycle] in Hc. subst c. cbn [prev_buttons].
    destruct q as [|a0 [|a1 [|a2 q]]]; [..|done].
    + change (ps2_mouse_byte b (Ps2Mouse x y z (Z.of_nat (length [])) pb) m) with (Ps2Mouse b y z 1 pb, m).
      by apply (IH [b]).
    + cbn in Hq. subst x. change (ps2_mouse_byte b (Ps2Mouse a0 y z (Z.of_nat (length [a0])) pb) m) with (Ps2Mouse a0 b z 2 pb, m).
      by apply (IH [a0; b]).
    + cbn in Hq. destruct Hq as [-> ->].
      change (ps2_mouse_byte b (Ps2Mouse a0 a1 z (Z.of_nat (length [a0; a1])) pb) m) with
        (if negb (truthy (Z.land a0 8)) then (Ps2Mouse a1 b b 2 pb, m)
         else (Ps2Mouse a0 a1 b 0 (Z.land a0 7), report_packet a0 a1 b pb m)).
      cbn [app packets prev_buttons]. destruct (truthy (Z.land a0 8)); cbn [negb].
      * cbn [foldl]. unfold packet_step at 2. cbn [fst snd]. by apply (IH []).
      * by apply (IH [a1; b]).
Qed.

(** The stack holds the buttons of the last packet. *)
Definition agree (prev : Z) (m : mouse) : Prop := ∀ i, 0 ≤ i < 3 → button_state m i = Z.testbit prev i.

Lemma bit_test v b : 0 ≤ b → truthy (Z.land (Z.shiftr v b) 1) = Z.testbit v b.
Proof. intros Hb. change 1 with (2 ^ 0). rewrite truthy_land_pow2 by lia. by rewrite Z.shiftr_spec, Z.add_0_l by lia. Qed.

Lemma report_buttons_spec buttons prev m :
  agree prev m →
  let m' := report_buttons buttons prev m in
  agree buttons m' ∧ mouse_x m' = mouse_x m ∧ mouse_y m' = mouse_y m.
Proof.
  intros Ha. cbv zeta. unfold report_buttons.
  pose proof (for_do_ind (λ k m', (∀ i, 0 ≤ i < 3 → button_state m' i = Z.testbit (if i <? k then buttons else prev) i) ∧
    mouse_x m' = mouse_x m ∧ mouse_y m' = mouse_y m) 0 3
    (λ b m, let now := truthy (Z.land (Z.shiftr buttons b) 1) in let was := truthy (Z.land (Z.shiftr prev b) 1) in
       if eqb now was then m else mouse_report_button b now m) m) as Hind.
  destruct Hind as (Hb & Hx & Hy); [lia| | |].
  - split; [|done]. intros i Hi. replace (i <? 0) with false by lia. by apply Ha.
  - intros k m' Hk (Hb & Hx & Hy). cbv zeta. rewrite !bit_test by lia.
    destruct (eqb (Z.testbit buttons k) (Z.testbit prev k)) eqn:E.
    + split; [|done]. intros i Hi. rewrite Hb by done. destruct (Z.eq_dec i k) as [->|Hne].
      * rewrite Z.ltb_irrefl. replace (k <? k + 1) with true by lia. by apply eqb_prop in E.
      * by replace (i <? k + 1) with (i <? k) by lia.
    + unfold mouse_report_button, MOUSE_MAX_BUTTONS. replace (8 <=? k) with false by lia. cbn. split; [|done].
      intros i Hi. destruct (Z.eqb_spec i k) as [->|Hne]; [by replace (k <? k + 1) with true by lia|].
      rewrite Hb by done. by replace (i <? k + 1) with (i <? k) by lia.
  - split; [|done]. intros i Hi. rewrite Hb by done. by replace (i <? 3) with true by lia.
Qed.

Lemma report_packet_spec a b c prev m :
  agree prev m →
  let m' := report_packet a b c prev m in
  agree (Z.land a 0x07) m' ∧ mouse_x m' = s32 (mouse_x m + s8 b) ∧ mouse_y m' = s32 (mouse_y m - s8 c).
Proof. intros Ha. unfold report_packet. apply (report_buttons_spec _ prev (mouse_report_motion (s8 b) (- s8 c) m)). exact Ha. Qed.

(** The movement of a list of packets; y grows downwards. *)
Definition moved_x (l : list (Z * Z * Z)) : Z := foldr (λ p n, s8 p.1.2 + n) 0 l.
Definition moved_y (l : list (Z * Z * Z)) : Z := foldr (λ p n, n - s8 p.2) 0 l.

Lemma s32_add x y : s32 (s32 x + y) = s32 (x + y).
Proof.
  unfold s32, signed_of.
  destruct (x mod 4294967296 <? _) eqn:E.
  - by rewrite Zplus_mod_idemp_l.
  - replace (x mod 4294967296 - 4294967296 + y) with (x mod 4294967296 + y + (-1) * 4294967296) by lia.
    by rewrite Z_mod_plus_full, Zplus_mod_idemp_l.
Qed.

Lemma s32_s32 x : s32 (s32 x) = s32 x.
Proof. pose proof (s32_add x 0) as E. by rewrite !Z.add_0_r in E. Qed.

Lemma packets_track l prev m :
  agree prev m → mouse_x m = s32 (mouse_x m) → mouse_y m = s32 (mouse_y m) →
  let r := foldl packet_step (prev, m) l in
  agree r.1 r.2 ∧ mouse_x r.2 = s32 (mouse_x m + moved_x l) ∧ mouse_y r.2 = s32 (mouse_y m + moved_y l).
Proof.
  revert prev m. induction l as [|[[a b] c] l IH]; intros prev m Ha Hx Hy.
  { cbn. rewrite !Z.add_0_r. done. }
  cbv zeta. cbn [foldl]. change (packet_step (prev, m) (a, b, c)) with (Z.land a 7, report_packet a b c prev m).
  destruct (report_packet_spec a b c prev m Ha) as (Ha' & Hx' & Hy').
  destruct (IH (Z.land a 7) (report_packet a b c prev m) Ha') as (H1 & H2 & H3).
  { by rewrite Hx', s32_s32. }
  { by rewrite Hy', s32_s32. }
  split; [done|]. rewrite H2, H3, Hx', Hy', !s32_add. cbn [moved_x moved_y foldr fst snd]. fold (moved_x l) (moved_y l).
  split; f_equal; lia.
Qed.

(** Any stream of bytes, from the start of a packet: the mouse interrupt makes exactly the
    reports of the packets of the stream, where bytes that cannot start a packet are
    skipped one at a time, so that after stray bytes the driver is back in step with
    the first byte that has bit 3 set.  The position has then moved by the sum of the
    movements and the buttons held are those of the last packet. *)
Theorem ps2_mouse_stream l d d' p m :
  cycle p = 0 → feeds l d d' → agree (prev_buttons p) m → mouse_x m = s32 (mouse_x m) → mouse_y m = s32 (mouse_y m) →
  let r := irqs ps2_mouse_irq (length l) (p, m, d) in
  (prev_buttons r.1.1, r.1.2) = foldl packet_step (prev_buttons p, m) (packets l) ∧ r.2 = d' ∧
  mouse_x r.1.2 = s32 (mouse_x m + moved_x (packets l)) ∧ mouse_y r.1.2 = s32 (mouse_y m + moved_y (packets l)) ∧
  agree (prev_buttons r.1.1) r.1.2.
Proof.
  intros Hc Hf Ha Hx Hy. cbv zeta. rewrite (feeds_mouse _ _ _ _ _ Hf). cbn [fst snd]. fold mouse_step.
  destruct (mouse_stream [] l p m) as [_ E]; [done|]. cbv zeta in E. cbn [app] in E.
  destruct (packets_track (packets l) (prev_buttons p) m Ha Hx Hy) as (H1 & H2 & H3). rewrite <- E in H1, H2, H3.
  cbn [fst snd] in H1, H2, H3. done.
Qed.
End Ps2.

(** ** Witnesses *)

(** A controller that hands out a list of bytes. *)
#[export] Instance byte_queue : Ports (list Z) := {|
  port_in8 port l := if port =? PS2_DATA then (default 0 (head l), tail l) else (0, l);
  port_out8 port v l := l; port_in16 port l := (0, l); port_out16 port v l := l;
  port_in32 port l := (0, l); port_out32 port v l := l
|}.

Lemma queue_feeds l : Forall (λ b, 0 ≤ b < 256) l → feeds l l [].
Proof.
  induction 1 as [|b l Hb _ IH]; [done|]. cbn [feeds]. split; [done|].
  change (inb PS2_DATA (b :: l)) with (u8 b, l). cbn [fst snd]. split; [by apply u8_small|exact IH].
Qed.

(** "ls" and the return key, pressed and released. *)
Definition demo_events : list (Z * bool) := [(0x26, true); (0x26, false); (0x1F, true); (0x1F, false); (0x1C, true); (0x1C, false)].
Definition demo_codes : list (list Z) := [[0x26]; [0xA6]; [0x1F]; [0xF0; 0x1F]; [0x1C]; [0x9C]].

Lemma ps2_keyboard_witness :
  let r := irqs ps2_keyboard_irq (length (concat demo_codes)) (Ps2Kbd false false, keyboard_stack_init kbd_bss, concat demo_codes) in
  r = (Ps2Kbd false false, foldl (λ k e, keyboard_report_key e.1 e.2 k) (keyboard_stack_init kbd_bss) demo_events, []) ∧
  (tty_getline 0 4096 300 (λ _, 0) r.1.2).1.1 = 3.
Proof.
  assert (irqs ps2_keyboard_irq (length (concat demo_codes)) (Ps2Kbd false false, keyboard_stack_init kbd_bss, concat demo_codes) =
    (Ps2Kbd false false, foldl (λ k e, keyboard_report_key e.1 e.2 k) (keyboard_stack_init kbd_bss) demo_events, [])) as E.
  { apply ps2_keyboard_decodes.
    - unfold demo_events. repeat (apply Forall_cons; split; [repeat split; by vm_compute|]). apply Forall_nil. exact I.
    - unfold demo_events, demo_codes. apply Forall2_cons; split; [apply (key_make 0x26)|].
      apply Forall2_cons; split; [apply (key_break 0x26)|]. apply Forall2_cons; split; [apply (key_make 0x1F)|].
      apply Forall2_cons; split; [apply (key_prefixed_break 0x1F)|]. apply Forall2_cons; split; [apply (key_make 0x1C)|].
      apply Forall2_cons; split; [apply (key_break 0x1C)|]. apply Forall2_nil. exact I.
    - apply queue_feeds. unfold demo_codes. cbn [concat app]. repeat (apply Forall_cons; split; [lia|]). apply Forall_nil. exact I. }
  cbv zeta. rewrite E. split; [reflexivity|]. vm_compute. reflexivity.
Defined.

(** Two stray bytes, then a movement with the left button and one without. *)
Definition demo_stream : list Z := [0; 5; 0x09; 3; 254; 0x08; 1; 0].
Definition idle_mouse : mouse := mouse_stack_init {|
  button_state := λ _, false; mouse_x := 0; mouse_y := 0; delta_x := 0; delta_y := 0;
  mqueue := {| rbuf := λ _, {| m_x := 0; m_y := 0; m_dx := 0; m_dy := 0; m_wheel := 0; m_buttons := 0 |}; rhead := 0; rtail := 0 |} |}.

Lemma ps2_mouse_witness :
  let r := irqs ps2_mouse_irq (length demo_stream) (Ps2Mouse 0 0 0 0 0, idle_mouse, demo_stream) in
  packets demo_stream = [(0x09, 3, 254); (0x08, 1, 0)] ∧ mouse_x r.1.2 = 4 ∧ mouse_y r.1.2 = 2 ∧ agree 0 r.1.2.
Proof.
  destruct (ps2_mouse_stream demo_stream demo_stream [] (Ps2Mouse 0 0 0 0 0) idle_mouse) as (E & _ & Hx & Hy & Ha).
  - reflexivity.
  - apply queue_feeds. unfold demo_stream. repeat (apply Forall_cons; split; [lia|]). apply Forall_nil. exact I.
  - intros i Hi. assert (i = 0 ∨ i = 1 ∨ i = 2) as [->|[->| ->]] by lia; reflexivity.
  - reflexivity.
  - reflexivity.
  - cbv zeta in *. split; [reflexivity|]. split; [rewrite Hx; reflexivity|]. split; [rewrite Hy; reflexivity|].
    exact Ha.
Defined.
