(* ===== verification/Screen.v ===== *)
(** The text screen (driver/buildin/video/vga/vga.c) and the video stack
    (driver/stacks/video/video_stack.c).

    Every virtual terminal has a shadow buffer of 80 * 25 cells, a cursor and its
    drawing attributes; the displayed one is copied to the screen memory at 0xB8000
    after each change, and the position of its cursor goes to two registers of the
    display controller.  [None] is a write outside a buffer.  Characters are
    [char]s, values from -128 to 127.

    The section [Grid] is the reference: a terminal as a list of rows.  The
    invariant [vga_ok] says that the screen always shows the displayed terminal. *)

From stdpp Require Import prelude functions numbers list.
From Stdlib Require Import ZArith Lia.
From S2P Require Import Prelude.

Open Scope Z_scope.

Definition VGA_COLS : Z := 80.
Definition VGA_ROWS : Z := 25.
Definition VGA_CELLS : Z := VGA_COLS * VGA_ROWS.
Definition VGA_VT_MAX : Z := 4.
Definition VGA_COLOR_BLACK : Z := 0.
Definition VGA_COLOR_LIGHT_GREY : Z := 7.

(** The arrays [vt_buf], [vt_x], ... at one index. *)
Record vt : Type := Vt {
  vt_buf : list Z;
  vt_x : Z;
  vt_y : Z;
  vt_fg : Z;
  vt_bg : Z;
  vt_reverse : bool;
  vt_cursor_visible : bool
}.

(** The file's statics, the screen memory, and the cursor registers (high, low). *)
Record vga : Type := Vga {
  vts : list vt;
  displayed_vt : Z;
  vga_memory : list Z;
  crtc_cursor : Z * Z
}.

Definition set_buf (b : list Z) (t : vt) : vt :=
  Vt b (vt_x t) (vt_y t) (vt_fg t) (vt_bg t) (vt_reverse t) (vt_cursor_visible t).
Definition set_xy (x y : Z) (t : vt) : vt :=
  Vt (vt_buf t) x y (vt_fg t) (vt_bg t) (vt_reverse t) (vt_cursor_visible t).
Definition set_colors (fg bg : Z) (reverse : bool) (t : vt) : vt :=
  Vt (vt_buf t) (vt_x t) (vt_y t) fg bg reverse (vt_cursor_visible t).
Definition set_visible (b : bool) (t : vt) : vt :=
  Vt (vt_buf t) (vt_x t) (vt_y t) (vt_fg t) (vt_bg t) (vt_reverse t) b.

Definition with_vts (l : list vt) (s : vga) : vga := Vga l (displayed_vt s) (vga_memory s) (crtc_cursor s).
Definition with_displayed (v : Z) (s : vga) : vga := Vga (vts s) v (vga_memory s) (crtc_cursor s).
Definition with_screen (m : list Z) (s : vga) : vga := Vga (vts s) (displayed_vt s) m (crtc_cursor s).
Definition with_cursor (c : Z * Z) (s : vga) : vga := Vga (vts s) (displayed_vt s) (vga_memory s) c.

Definition vga_cell (c color : Z) : Z := u16 (Z.lor (u16 c) (Z.shiftl color 8)).

Definition vga_attr (t : vt) : Z :=
  if vt_reverse t then u8 (Z.lor (Z.shiftl (vt_fg t) 4) (vt_bg t))
  else u8 (Z.lor (Z.shiftl (vt_bg t) 4) (vt_fg t)).

Definition blank (t : vt) : Z := vga_cell 32 (vga_attr t).

(** [buf[i] = c], and the same in a counted loop: [buf[idx(x)] = cell(x)]. *)
Definition put_cell (i c : Z) (buf : list Z) : option (list Z) :=
  if (0 <=? i) && (i <? VGA_CELLS) then Some (<[Z.to_nat i := c]> buf) else None.

Definition put_cells (lo hi : Z) (idx : Z → Z) (cell : Z → list Z → option Z) (buf : list Z) : option (list Z) :=
  match for_ lo hi (λ x b,
          match (c ← cell x b; put_cell (idx x) c b) with Some b => inl b | None => inr () end) buf with
  | inl b => Some b
  | inr _ => None
  end.

Definition get_vt (v : Z) (s : vga) : option vt := vts s !! Z.to_nat v.
Definition on_vt (v : Z) (f : vt → option vt) (s : vga) : option vga :=
  t ← get_vt v s; t ← f t; Some (with_vts (<[Z.to_nat v := t]> (vts s)) s).

Definition vga_flush (s : vga) : option vga :=
  t ← get_vt (displayed_vt s) s;
  m ← put_cells 0 VGA_CELLS (λ i, i) (λ i _, vt_buf t !! Z.to_nat i) (vga_memory s);
  Some (with_screen m s).

Definition cursor_pos (t : vt) : Z :=
  if vt_cursor_visible t then u16 (vt_y t * VGA_COLS + vt_x t) else VGA_CELLS - 1.

Definition vga_update_cursor (s : vga) : option vga :=
  t ← get_vt (displayed_vt s) s;
  let pos := cursor_pos t in
  Some (with_cursor (u8 (Z.shiftr pos 8), u8 (Z.land pos 0xFF)) s).

(** [if (v == displayed_vt) { vga_flush(); vga_update_cursor(); }] *)
Definition refresh (v : Z) (s : vga) : option vga :=
  if v =? displayed_vt s then s ← vga_flush s; vga_update_cursor s else Some s.
Definition refresh_cursor (v : Z) (s : vga) : option vga :=
  if v =? displayed_vt s then vga_update_cursor s else Some s.

(** The rows move up one by one, then the last is blanked. *)
Definition vt_scroll (t : vt) : option vt :=
  b ← (match for_ 1 VGA_ROWS (λ y b,
               match put_cells 0 VGA_COLS (λ x, (y - 1) * VGA_COLS + x)
                       (λ x b, b !! Z.to_nat (y * VGA_COLS + x)) b with
               | Some b => inl b | None => inr () end) (vt_buf t) with
       | inl b => Some b | inr _ => None end);
  b ← put_cells 0 VGA_COLS (λ x, (VGA_ROWS - 1) * VGA_COLS + x) (λ _ _, Some (blank t)) b;
  Some (set_buf b t).

Definition clear_vt (t : vt) : option vt :=
  b ← put_cells 0 VGA_CELLS (λ i, i) (λ _ _, Some (blank t)) (vt_buf t);
  Some (set_xy 0 0 (set_buf b t)).

Definition vt_clear_impl (v : Z) (s : vga) : option vga :=
  s ← on_vt v clear_vt s; refresh v s.

(** The [switch] on the character. *)
Definition draw_char (c : Z) (t : vt) : option vt :=
  let x := vt_x t in let y := vt_y t in
  if c =? 10 then Some (set_xy 0 (u16 (y + 1)) t)
  else if c =? 13 then Some (set_xy 0 y t)
  else if c =? 9 then Some (set_xy (u16 (Z.land (x + 8) (Z.lnot 7))) y t)
  else if c =? 8 then
    if 0 <? x then
      b ← put_cell (y * VGA_COLS + (x - 1)) (blank t) (vt_buf t); Some (set_buf b (set_xy (x - 1) y t))
    else Some t
  else
    b ← put_cell (y * VGA_COLS + x) (vga_cell c (vga_attr t)) (vt_buf t);
    Some (set_buf b (set_xy (u16 (x + 1)) y t)).

(** The two tests after it. *)
Definition wrap_line (t : vt) : vt :=
  if VGA_COLS <=? vt_x t then set_xy 0 (u16 (vt_y t + 1)) t else t.
Definition wrap_screen (t : vt) : option vt :=
  if VGA_ROWS <=? vt_y t then t ← vt_scroll t; Some (set_xy (vt_x t) (VGA_ROWS - 1) t) else Some t.

Definition put_char (c : Z) (t : vt) : option vt := t ← draw_char c t; wrap_screen (wrap_line t).

Definition vt_putc_impl (v c : Z) (s : vga) : option vga :=
  s ← on_vt v (put_char c) s; refresh v s.

Definition init_vt (t : vt) : option vt :=
  Some (set_xy 0 0 (set_visible true (set_colors VGA_COLOR_LIGHT_GREY VGA_COLOR_BLACK false t))).

Definition vga_init (s : vga) : option vga :=
  s ← (match for_ 0 VGA_VT_MAX (λ v s,
               match (s ← on_vt v init_vt s; vt_clear_impl v s) with Some s => inl s | None => inr () end)
             (with_displayed 0 s) with
       | inl s => Some s | inr _ => None end);
  vga_flush s.

(** ** The functions of the registered driver *)

Definition vga_putc (c : Z) (s : vga) : option vga := vt_putc_impl (displayed_vt s) c s.

Definition vga_putc_at (x y c : Z) (s : vga) : option vga :=
  if (VGA_COLS <=? x) || (VGA_ROWS <=? y) then Some s
  else
    let v := displayed_vt s in
    s ← on_vt v (λ t, b ← put_cell (y * VGA_COLS + x) (vga_cell c (vga_attr t)) (vt_buf t); Some (set_buf b t)) s;
    t ← get_vt v s;
    c ← vt_buf t !! Z.to_nat (y * VGA_COLS + x);
    m ← put_cell (y * VGA_COLS + x) c (vga_memory s);
    Some (with_screen m s).

Fixpoint vga_puts (str : list Z) (s : vga) : option vga :=
  match str with
  | [] => Some s
  | c :: str => s ← vga_putc c s; vga_puts str s
  end.

Definition vga_clear (s : vga) : option vga := vt_clear_impl (displayed_vt s) s.
Definition vga_set_fg_color (color : Z) (s : vga) : option vga :=
  on_vt (displayed_vt s) (λ t, Some (set_colors color (vt_bg t) (vt_reverse t) t)) s.
Definition vga_set_bg_color (color : Z) (s : vga) : option vga :=
  on_vt (displayed_vt s) (λ t, Some (set_colors (vt_fg t) color (vt_reverse t) t)) s.
Definition vga_set_cursor (x y : Z) (s : vga) : option vga :=
  s ← on_vt (displayed_vt s) (λ t, Some (set_xy x y t)) s; vga_update_cursor s.

(** ** The functions of the virtual terminals *)

Definition clamp_vt (v : Z) : Z := if VGA_VT_MAX <=? v then 0 else v.

Definition vga_vt_putc (v c : Z) (s : vga) : option vga := vt_putc_impl (clamp_vt v) c s.
Definition vga_vt_clear (v : Z) (s : vga) : option vga := vt_clear_impl (clamp_vt v) s.
Definition vga_vt_set_cursor (v x y : Z) (s : vga) : option vga :=
  s ← on_vt (clamp_vt v) (λ t, Some (set_xy x y t)) s; refresh_cursor (clamp_vt v) s.

Definition vga_vt_switch (v : Z) (s : vga) : option vga :=
  if VGA_VT_MAX <=? v then Some s
  else s ← vga_flush (with_displayed v s); vga_update_cursor s.

Definition vga_vt_displayed (v : Z) (s : vga) : bool := v =? displayed_vt s.

Definition clamp_to (n hi : Z) : Z := let n := if n <? 0 then 0 else n in if hi <=? n then hi - 1 else n.

Definition vga_vt_move_cursor (v dx dy : Z) (s : vga) : option vga :=
  s ← on_vt (clamp_vt v) (λ t,
        Some (set_xy (u16 (clamp_to (s16 (s16 (vt_x t) + dx)) VGA_COLS))
                     (u16 (clamp_to (s16 (s16 (vt_y t) + dy)) VGA_ROWS)) t)) s;
  refresh_cursor (clamp_vt v) s.

(** The cells of the cursor's row from column [from] on. *)
Definition blank_row (from : Z) (t : vt) : option vt :=
  b ← put_cells from VGA_COLS (λ x, vt_y t * VGA_COLS + x) (λ _ _, Some (blank t)) (vt_buf t); Some (set_buf b t).

Definition vga_vt_clear_to_eol (v : Z) (s : vga) : option vga :=
  s ← on_vt (clamp_vt v) (λ t, blank_row (vt_x t) t) s; refresh (clamp_vt v) s.
Definition vga_vt_clear_line (v : Z) (s : vga) : option vga :=
  s ← on_vt (clamp_vt v) (blank_row 0) s; refresh (clamp_vt v) s.

Definition vga_vt_clear_to_escreen (v : Z) (s : vga) : option vga :=
  s ← on_vt (clamp_vt v) (λ t,
        b ← put_cells (vt_y t * VGA_COLS + vt_x t) VGA_CELLS (λ i, i) (λ _ _, Some (blank t)) (vt_buf t);
        Some (set_buf b t)) s;
  refresh (clamp_vt v) s.

Definition vga_vt_set_reverse (v : Z) (reverse : bool) (s : vga) : option vga :=
  on_vt (clamp_vt v) (λ t, Some (set_colors (vt_fg t) (vt_bg t) reverse t)) s.
Definition vga_vt_set_fg_color (v color : Z) (s : vga) : option vga :=
  on_vt (clamp_vt v) (λ t, Some (set_colors color (vt_bg t) (vt_reverse t) t)) s.
Definition vga_vt_set_bg_color (v color : Z) (s : vga) : option vga :=
  on_vt (clamp_vt v) (λ t, Some (set_colors (vt_fg t) color (vt_reverse t) t)) s.
Definition vga_vt_set_cursor_visible (v : Z) (visible : bool) (s : vga) : option vga :=
  s ← on_vt (clamp_vt v) (λ t, Some (set_visible visible t)) s; refresh_cursor (clamp_vt v) s.

Definition vga_vt_cols : Z := VGA_COLS.
Definition vga_vt_rows : Z := VGA_ROWS.

(** ** Filling a range of cells *)

(** The cells from [lo] up to [hi] get the values of [f]. *)
Definition fill (lo hi : Z) (f : Z → Z) (b : list Z) : list Z :=
  imap (λ j c, if (lo <=? Z.of_nat j) && (Z.of_nat j <? hi) then f (Z.of_nat j) else c) b.

Lemma fill_length lo hi f b : length (fill lo hi f b) = length b.
Proof. apply length_imap. Qed.

Lemma fill_lookup lo hi f b j :
  fill lo hi f b !! j =
  if (lo <=? Z.of_nat j) && (Z.of_nat j <? hi) then (λ _, f (Z.of_nat j)) <$> (b !! j) else b !! j.
Proof. unfold fill. rewrite list_lookup_imap. destruct (b !! j); simpl; by destruct (_ && _). Qed.

Lemma fill_empty lo hi f b : hi ≤ lo → fill lo hi f b = b.
Proof.
  intros H. apply list_eq. intros j. rewrite fill_lookup.
  destruct (Z.leb_spec lo (Z.of_nat j)), (Z.ltb_spec (Z.of_nat j) hi); simpl; done || lia.
Qed.

Lemma fill_lookup_out lo hi f b j : Z.of_nat j < lo ∨ hi ≤ Z.of_nat j → fill lo hi f b !! j = b !! j.
Proof.
  intros H. rewrite fill_lookup.
  destruct (Z.leb_spec lo (Z.of_nat j)), (Z.ltb_spec (Z.of_nat j) hi); simpl; done || lia.
Qed.

Lemma fill_fill lo mid hi f b : lo ≤ mid ≤ hi → fill mid hi f (fill lo mid f b) = fill lo hi f b.
Proof.
  intros H. apply list_eq. intros j. rewrite !fill_lookup.
  destruct (Z.leb_spec mid (Z.of_nat j)), (Z.ltb_spec (Z.of_nat j) hi), (Z.leb_spec lo (Z.of_nat j)),
    (Z.ltb_spec (Z.of_nat j) mid); simpl; try done; try lia; by destruct (b !! j).
Qed.

Lemma fill_snoc lo i f b :
  lo ≤ i → 0 ≤ i → <[Z.to_nat i := f i]> (fill lo i f b) = fill lo (i + 1) f b.
Proof.
  intros H Hi. apply list_eq. intros j. destruct (decide (j = Z.to_nat i)) as [-> |Hj].
  - rewrite fill_lookup, Z2Nat.id by lia.
    replace ((lo <=? i) && (i <? i + 1)) with true by lia. destruct (b !! Z.to_nat i) eqn:E; simpl.
    + rewrite list_lookup_insert_eq; [done|]. rewrite fill_length. by eapply lookup_lt_Some.
    + apply lookup_ge_None in E. apply lookup_ge_None. by rewrite length_insert, fill_length.
  - rewrite list_lookup_insert_ne by done. rewrite !fill_lookup.
    destruct (Z.leb_spec lo (Z.of_nat j)), (Z.ltb_spec (Z.of_nat j) i), (Z.ltb_spec (Z.of_nat j) (i + 1)); simpl; done || lia.
Qed.

Lemma fill_ext lo hi f g b : (∀ j, lo ≤ j < hi → f j = g j) → fill lo hi f b = fill lo hi g b.
Proof.
  intros H. apply list_eq. intros j. rewrite !fill_lookup.
  destruct (Z.leb_spec lo (Z.of_nat j)), (Z.ltb_spec (Z.of_nat j) hi); simpl; try done. by rewrite H by lia.
Qed.

(** A loop in the goal that never stops early, by an invariant: the four goals are
    the bounds, the first state, a round, and the rest after the loop. *)
Ltac for_inv I :=
  match goal with
  | |- context [for_ ?lo ?hi ?body ?s] =>
      let H := fresh in let r := fresh in let E := fresh in
      remember (for_ lo hi body s) as r eqn:E;
      assert (lo ≤ hi → I lo s →
              (∀ i st, lo ≤ i < hi → I i st → match body i st with inl s' => I (i + 1) s' | inr _ => False end) →
              match r with inl s' => I hi s' | inr _ => False end) as H
        by (rewrite E; intros ? ? ?; by apply (for_ind I (λ _, False)));
      clear E; cbv beta in H;
      feed H; [|feed H; [|feed H; [|destruct r as [r|r]; [revert r H|destruct H]]]]
  end.

(** A loop over cells whose values depend only on what is still to be overwritten. *)
Lemma put_cells_fill lo hi base f idx cell b :
  0 ≤ base + lo → (lo < hi → base + hi ≤ VGA_CELLS) → (∀ x, idx x = base + x) →
  (∀ x, lo ≤ x < hi → cell x (fill (base + lo) (base + x) f b) = Some (f (base + x))) →
  put_cells lo hi idx cell b = Some (fill (base + lo) (base + hi) f b).
Proof.
  intros Hlo Hhi Hidx Hcell. unfold put_cells. destruct (Z.le_gt_cases hi lo) as [Hle|Hgt].
  { rewrite for_end by lia. by rewrite fill_empty by lia. }
  for_inv (λ x b', b' = fill (base + lo) (base + x) f b).
  - lia.
  - by rewrite fill_empty by lia.
  - intros x b' Hx ->. rewrite Hcell by done. simpl. unfold put_cell. rewrite Hidx.
    replace ((0 <=? base + x) && (base + x <? VGA_CELLS)) with true by lia.
    rewrite fill_snoc by lia. f_equal. lia.
  - by intros b' ->.
Qed.

Lemma put_cells_const lo hi base c idx b :
  0 ≤ base + lo → (lo < hi → base + hi ≤ VGA_CELLS) → (∀ x, idx x = base + x) →
  put_cells lo hi idx (λ _ _, Some c) b = Some (fill (base + lo) (base + hi) (λ _, c) b).
Proof. intros. by apply put_cells_fill. Qed.

Definition shifted (b : list Z) (j : Z) : Z := default 0 (b !! Z.to_nat (j + VGA_COLS)).

Lemma scroll_row b y :
  length b = Z.to_nat VGA_CELLS → 1 ≤ y < VGA_ROWS →
  put_cells 0 VGA_COLS (λ x, (y - 1) * VGA_COLS + x) (λ x b, b !! Z.to_nat (y * VGA_COLS + x))
    (fill 0 ((y - 1) * VGA_COLS) (shifted b) b) = Some (fill 0 (y * VGA_COLS) (shifted b) b).
Proof.
  intros Hb Hy. rewrite (put_cells_fill _ _ ((y - 1) * VGA_COLS) (shifted b)); [|unfold VGA_COLS; lia| |done|].
  - rewrite Z.add_0_r, fill_fill by (unfold VGA_COLS; lia). do 2 f_equal. unfold VGA_COLS. lia.
  - unfold VGA_CELLS, VGA_COLS, VGA_ROWS in *. lia.
  - intros x Hx. rewrite Z.add_0_r, fill_fill by (unfold VGA_COLS in *; lia).
    rewrite fill_lookup_out by (unfold VGA_COLS in *; lia). unfold shifted.
    replace ((y - 1) * VGA_COLS + x + VGA_COLS) with (y * VGA_COLS + x) by (unfold VGA_COLS; lia).
    destruct (b !! Z.to_nat (y * VGA_COLS + x)) eqn:E; [done|]. apply lookup_ge_None in E.
    unfold VGA_CELLS, VGA_COLS, VGA_ROWS in *. lia.
Qed.

Lemma fill_drop b c n :
  length b = Z.to_nat VGA_CELLS → n = Z.to_nat VGA_COLS →
  fill ((VGA_ROWS - 1) * VGA_COLS) VGA_CELLS (λ _, c) (fill 0 ((VGA_ROWS - 1) * VGA_COLS) (shifted b) b) =
  drop n b ++ replicate n c.
Proof.
  intros Hb ->. apply list_eq. intros j. rewrite !fill_lookup. unfold shifted, VGA_CELLS, VGA_COLS, VGA_ROWS in *.
  destruct (Nat.lt_ge_cases j 1920).
  - rewrite lookup_app_l by (rewrite length_drop; lia). rewrite lookup_drop.
    replace (Z.to_nat (Z.of_nat j + 80)) with (Z.to_nat 80 + j)%nat by lia.
    destruct (lookup_lt_is_Some_2 b j) as [w ->]; [lia|].
    destruct (lookup_lt_is_Some_2 b (Z.to_nat 80 + j)) as [v ->]; [lia|]. simpl.
    destruct (Z.leb_spec ((25 - 1) * 80) (Z.of_nat j)), (Z.ltb_spec (Z.of_nat j) ((25 - 1) * 80)), (Z.leb_spec 0 (Z.of_nat j)); simpl; done || lia.
  - rewrite lookup_app_r by (rewrite length_drop; lia). rewrite length_drop.
    destruct (Nat.lt_ge_cases j 2000).
    + rewrite lookup_replicate_2 by lia. destruct (lookup_lt_is_Some_2 b j) as [w ->]; [lia|].
      destruct (Z.leb_spec ((25 - 1) * 80) (Z.of_nat j)), (Z.ltb_spec (Z.of_nat j) (80 * 25)), (Z.ltb_spec (Z.of_nat j) ((25 - 1) * 80)),
        (Z.leb_spec 0 (Z.of_nat j)); simpl; done || lia.
    + assert (b !! j = None) as -> by (apply lookup_ge_None; lia).
      rewrite (proj2 (lookup_ge_None (replicate _ _) _)) by (rewrite length_replicate; lia).
      destruct (_ && _), (_ && _); done.
Qed.

Lemma vt_scroll_spec t :
  length (vt_buf t) = Z.to_nat VGA_CELLS →
  vt_scroll t = Some (set_buf (drop (Z.to_nat VGA_COLS) (vt_buf t) ++ replicate (Z.to_nat VGA_COLS) (blank t)) t).
Proof.
  intros Hb. unfold vt_scroll.
  for_inv (λ y b', b' = fill 0 ((y - 1) * VGA_COLS) (shifted (vt_buf t)) (vt_buf t)).
  - unfold VGA_ROWS. lia.
  - by rewrite fill_empty by lia.
  - intros y b' Hy ->. rewrite scroll_row by done. by replace (y + 1 - 1) with y by lia.
  - intros b' ->. obind.
    rewrite (put_cells_const _ _ ((VGA_ROWS - 1) * VGA_COLS)) by (done || (unfold VGA_CELLS, VGA_COLS, VGA_ROWS; lia)).
    obind. rewrite Z.add_0_r.
    change ((VGA_ROWS - 1) * VGA_COLS + VGA_COLS) with VGA_CELLS. by rewrite (fill_drop _ _ (Z.to_nat VGA_COLS) Hb).
Qed.

(** ** Reference: a terminal as a list of rows *)

Section Grid.

Record grid : Type := Grid {
  g_rows : list (list Z);
  g_col : nat;
  g_row : nat;
  g_fg : Z;
  g_bg : Z;
  g_reverse : bool;
  g_visible : bool
}.

Definition cols : nat := 80.
Definition rows : nat := 25.

Definition g_with (r : list (list Z)) (x y : nat) (g : grid) : grid :=
  Grid r x y (g_fg g) (g_bg g) (g_reverse g) (g_visible g).

(** The attribute new cells get, and a cell in it. *)
Definition g_attr (g : grid) : Z :=
  if g_reverse g then u8 (Z.lor (Z.shiftl (g_fg g) 4) (g_bg g)) else u8 (Z.lor (Z.shiftl (g_bg g) 4) (g_fg g)).
Definition g_blank (g : grid) : Z := vga_cell 32 (g_attr g).

(** Down one line in column [x]; on the last line the rows move up. *)
Definition g_feed (x : nat) (g : grid) : grid :=
  if Nat.eqb (g_row g) (rows - 1) then g_with (tail (g_rows g) ++ [replicate cols (g_blank g)]) x (rows - 1) g
  else g_with (g_rows g) x (g_row g + 1) g.

(** Right to column [x], or to the next line when that is past the end. *)
Definition g_right (x : nat) (g : grid) : grid :=
  if Nat.ltb x cols then g_with (g_rows g) x (g_row g) g else g_feed 0 g.

Definition g_set (x y : nat) (c : Z) (g : grid) : grid :=
  g_with (alter (<[x := c]>) y (g_rows g)) (g_col g) (g_row g) g.

(** What a character does. *)
Definition g_putc (c : Z) (g : grid) : grid :=
  if c =? 10 then g_feed 0 g
  else if c =? 13 then g_with (g_rows g) 0 (g_row g) g
  else if c =? 9 then g_right ((g_col g / 8 + 1) * 8) g
  else if c =? 8 then
    match g_col g with
    | O => g
    | Datatypes.S x => g_with (g_rows (g_set x (g_row g) (g_blank g) g)) x (g_row g) g
    end
  else g_right (g_col g + 1) (g_set (g_col g) (g_row g) (vga_cell c (g_attr g)) g).

(** A row blanked from column [x] on; the rows below [y] blanked. *)
Definition erase_row (x : nat) (c : Z) (r : list Z) : list Z := take x r ++ replicate (cols - x) c.
Definition g_erase_row (x : nat) (g : grid) : grid :=
  g_with (alter (erase_row x (g_blank g)) (g_row g) (g_rows g)) (g_col g) (g_row g) g.
Definition g_erase_below (g : grid) : grid :=
  g_with (take (g_row g + 1) (g_rows (g_erase_row (g_col g) g)) ++
          replicate (rows - (g_row g + 1)) (replicate cols (g_blank g))) (g_col g) (g_row g) g.
Definition g_clear (g : grid) : grid := g_with (replicate rows (replicate cols (g_blank g))) 0 0 g.

(** A coordinate moved by a 16-bit distance, kept on the screen. *)
Definition g_moved (n : nat) (d : Z) (limit : nat) : nat := Z.to_nat (clamp_to (s16 (Z.of_nat n + d)) (Z.of_nat limit)).

(** The rows of a buffer, and what a terminal shows. *)
Definition rows_of (b : list Z) : list (list Z) := (λ r, take cols (drop (cols * r) b)) <$> seq 0 rows.
Definition grid_of (t : vt) : grid :=
  Grid (rows_of (vt_buf t)) (Z.to_nat (vt_x t)) (Z.to_nat (vt_y t)) (vt_fg t) (vt_bg t) (vt_reverse t) (vt_cursor_visible t).

Lemma rows_of_lookup b r : (r < rows)%nat → rows_of b !! r = Some (take cols (drop (cols * r) b)).
Proof.
  intros Hr. unfold rows_of. rewrite list_lookup_fmap, lookup_seq_lt by done. done.
Qed.
Lemma rows_of_length b : length (rows_of b) = rows.
Proof. unfold rows_of. by rewrite length_fmap, length_seq. Qed.

(** A list of rows is the rows of a buffer when its cells are. *)
Lemma rows_of_ext (l : list (list Z)) b :
  length b = Z.to_nat VGA_CELLS → length l = rows →
  (∀ r row, l !! r = Some row → length row = cols) →
  (∀ r row x, l !! r = Some row → (x < cols)%nat → row !! x = b !! (cols * r + x)%nat) → rows_of b = l.
Proof.
  intros Hb Hl Hrow Hcell. apply list_eq_same_length with rows; [done|apply rows_of_length|].
  intros r row1 row2 Hr H1 H2. rewrite rows_of_lookup in H1 by done. apply (inj Some) in H1 as <-.
  apply list_eq_same_length with cols; [by apply (Hrow r)| |].
  - rewrite length_take, length_drop, Hb. unfold cols, rows in *. change (Z.to_nat VGA_CELLS) with 2000%nat. lia.
  - intros x c1 c2 Hx Hc1 Hc2. rewrite lookup_take_lt, lookup_drop in Hc1 by done.
    rewrite (Hcell _ _ _ H2 Hx) in Hc2. by simplify_eq.
Qed.

Lemma rows_of_cell b r row x :
  rows_of b !! r = Some row → (x < cols)%nat → row !! x = b !! (cols * r + x)%nat.
Proof.
  intros Hr Hx. pose proof (lookup_lt_Some _ _ _ Hr) as Hlt. rewrite rows_of_length in Hlt.
  rewrite rows_of_lookup in Hr by done. apply (inj Some) in Hr as <-. by rewrite lookup_take_lt, lookup_drop by done.
Qed.
Lemma rows_of_row b r row : length b = Z.to_nat VGA_CELLS → rows_of b !! r = Some row → length row = cols.
Proof.
  intros Hb Hr. pose proof (lookup_lt_Some _ _ _ Hr) as Hlt. rewrite rows_of_length in Hlt.
  rewrite rows_of_lookup in Hr by done. apply (inj Some) in Hr as <-. rewrite length_take, length_drop, Hb.
  unfold cols, rows in *. change (Z.to_nat VGA_CELLS) with 2000%nat. lia.
Qed.
End Grid.

Section GridLemmas.
Implicit Types b : list Z.
Local Notation buf_ok b := (length b = Z.to_nat VGA_CELLS).

Lemma rows_of_insert b x y c :
  buf_ok b → (x < cols)%nat → (y < rows)%nat →
  rows_of (<[(cols * y + x)%nat := c]> b) = alter (<[x := c]>) y (rows_of b).
Proof.
  intros Hb Hx Hy. apply rows_of_ext; [by rewrite length_insert|by rewrite length_alter, rows_of_length| |].
  - intros r row Hr. destruct (decide (r = y)) as [-> |Hne].
    + rewrite list_lookup_alter_eq in Hr. destruct (rows_of b !! y) as [row'|] eqn:E; [|done]. apply (inj Some) in Hr as <-.
      rewrite length_insert. by eapply rows_of_row.
    + rewrite list_lookup_alter_ne in Hr by done. by eapply rows_of_row.
  - intros r row z Hr Hz. destruct (decide (r = y)) as [-> |Hne].
    + rewrite list_lookup_alter_eq in Hr. destruct (rows_of b !! y) as [row'|] eqn:E; [|done]. apply (inj Some) in Hr as <-.
      destruct (decide (z = x)) as [-> |].
      * rewrite list_lookup_insert_eq by (by rewrite (rows_of_row _ _ _ Hb E)).
        rewrite list_lookup_insert_eq; [done|]. rewrite Hb. change (Z.to_nat VGA_CELLS) with 2000%nat. unfold cols, rows in *. lia.
      * rewrite !list_lookup_insert_ne by lia. by eapply rows_of_cell.
    + rewrite list_lookup_alter_ne in Hr by done. rewrite list_lookup_insert_ne by (unfold cols in *; lia).
      by eapply rows_of_cell.
Qed.

Lemma rows_of_scroll b c :
  buf_ok b → rows_of (drop (Z.to_nat VGA_COLS) b ++ replicate (Z.to_nat VGA_COLS) c) = tail (rows_of b) ++ [replicate cols c].
Proof.
  intros Hb. change (Z.to_nat VGA_COLS) with cols. change (Z.to_nat VGA_CELLS) with 2000%nat in *.
  assert (length (tail (rows_of b)) = 24%nat) as Ht by (pose proof (rows_of_length b); destruct (rows_of b); simpl in *; unfold rows in *; lia).
  assert (∀ r, tail (rows_of b) !! r = rows_of b !! Datatypes.S r) as Htl by (by destruct (rows_of b)).
  apply rows_of_ext; [| |intros r row Hr|intros r row x Hr Hx].
  - rewrite length_app, length_drop, length_replicate, Hb. done.
  - by rewrite length_app, Ht.
  - apply lookup_app_Some in Hr as [Hr|[_ Hr]].
    + rewrite Htl in Hr. by eapply rows_of_row.
    + apply list_lookup_singleton_Some in Hr as [_ <-]. by rewrite length_replicate.
  - apply lookup_app_Some in Hr as [Hr|[Hge Hr]].
    + rewrite Htl in Hr. pose proof (lookup_lt_Some _ _ _ Hr) as Hlt. rewrite rows_of_length in Hlt.
      rewrite lookup_app_l by (rewrite length_drop; unfold cols, rows in *; lia). rewrite lookup_drop.
      rewrite (rows_of_cell _ _ _ _ Hr Hx). f_equal. unfold cols. lia.
    + apply list_lookup_singleton_Some in Hr as [Hr <-]. rewrite Ht in *. assert (r = 24%nat) as -> by lia.
      rewrite lookup_app_r by (rewrite length_drop; unfold cols in *; lia).
      rewrite length_drop, Hb. rewrite !lookup_replicate_2; [done|unfold cols in *; lia|done].
Qed.

(** From a cell to the end of the screen. *)
Lemma rows_of_erase_row b x y c :
  buf_ok b → (x ≤ cols)%nat → (y < rows)%nat →
  rows_of (fill (VGA_COLS * Z.of_nat y + Z.of_nat x) (VGA_COLS * Z.of_nat y + VGA_COLS) (λ _, c) b) =
  alter (erase_row x c) y (rows_of b).
Proof.
  intros Hb Hx Hy. apply rows_of_ext; [by rewrite fill_length|by rewrite length_alter, rows_of_length| |].
  - intros r row Hr. destruct (decide (r = y)) as [-> |Hne].
    + rewrite list_lookup_alter_eq in Hr. destruct (rows_of b !! y) as [row'|] eqn:E; [|done]. apply (inj Some) in Hr as <-.
      unfold erase_row. rewrite length_app, length_take, length_replicate, (rows_of_row _ _ _ Hb E). lia.
    + rewrite list_lookup_alter_ne in Hr by done. by eapply rows_of_row.
  - intros r row z Hr Hz. unfold VGA_COLS, cols, rows in *. destruct (decide (r = y)) as [-> |Hne].
    + rewrite list_lookup_alter_eq in Hr. destruct (rows_of b !! y) as [row'|] eqn:E; [|done]. apply (inj Some) in Hr as <-.
      pose proof (rows_of_row _ _ _ Hb E) as Hl. unfold erase_row, cols in *. rewrite fill_lookup.
      assert (is_Some (b !! (80 * y + z)%nat)) as [w Hw].
      { apply lookup_lt_is_Some. rewrite Hb. change (Z.to_nat VGA_CELLS) with 2000%nat. lia. }
      rewrite Hw. destruct (Nat.lt_ge_cases z x).
      * rewrite lookup_app_l by (rewrite length_take; lia). rewrite lookup_take_lt by done.
        rewrite (rows_of_cell _ _ _ z E) by (unfold cols; lia). unfold cols. rewrite Hw.
        destruct (Z.leb_spec (80 * Z.of_nat y + Z.of_nat x) (Z.of_nat (80 * y + z))); [lia|done].
      * rewrite lookup_app_r by (rewrite length_take; lia). rewrite length_take.
        rewrite lookup_replicate_2 by lia.
        destruct (Z.leb_spec (80 * Z.of_nat y + Z.of_nat x) (Z.of_nat (80 * y + z))); [|lia].
        destruct (Z.ltb_spec (Z.of_nat (80 * y + z)) (80 * Z.of_nat y + 80)); [done|lia].
    + rewrite list_lookup_alter_ne in Hr by done. rewrite fill_lookup_out by lia. by eapply rows_of_cell.
Qed.

Lemma rows_of_fill_below b y c :
  buf_ok b → (y ≤ rows)%nat →
  rows_of (fill (VGA_COLS * Z.of_nat y) VGA_CELLS (λ _, c) b) =
  take y (rows_of b) ++ replicate (rows - y) (replicate cols c).
Proof.
  intros Hb Hy. assert (length (take y (rows_of b)) = y) as Ht by (rewrite length_take, rows_of_length; lia).
  apply rows_of_ext; [by rewrite fill_length| |intros r row Hr|intros r row x Hr Hx].
  - rewrite length_app, Ht, length_replicate. lia.
  - apply lookup_app_Some in Hr as [[Hr _]%lookup_take_Some|[_ [-> _]%lookup_replicate]]; [by eapply rows_of_row|done].
  - unfold VGA_COLS, cols, rows in *. apply lookup_app_Some in Hr as [[Hr Hlt]%lookup_take_Some|[Hge Hr]].
    + rewrite fill_lookup_out by lia. by eapply rows_of_cell.
    + apply lookup_replicate in Hr as [-> Hr]. rewrite Ht in *. rewrite lookup_replicate_2 by done. rewrite fill_lookup.
      assert (is_Some (b !! (80 * r + x)%nat)) as [w ->].
      { apply lookup_lt_is_Some. rewrite Hb. change (Z.to_nat VGA_CELLS) with 2000%nat. lia. }
      replace ((80 * Z.of_nat y <=? Z.of_nat (80 * r + x)) && (Z.of_nat (80 * r + x) <? VGA_CELLS)) with true; [done|].
      symmetry. apply andb_true_iff. rewrite Z.leb_le, Z.ltb_lt. unfold VGA_CELLS, VGA_COLS, VGA_ROWS. lia.
Qed.
End GridLemmas.

(** ** One terminal refines the reference *)

Record vt_ok (t : vt) : Prop := {
  vo_buf : length (vt_buf t) = Z.to_nat VGA_CELLS;
  vo_x : 0 ≤ vt_x t < VGA_COLS;
  vo_y : 0 ≤ vt_y t < VGA_ROWS
}.

(** [f] does to a terminal what [g] does to its rows. *)
Definition vt_refines (f : vt → option vt) (g : grid → grid) (t : vt) : Prop :=
  ∃ t', f t = Some t' ∧ vt_ok t' ∧ grid_of t' = g (grid_of t).

Ltac screen_lia := unfold VGA_CELLS, VGA_COLS, VGA_ROWS, cols, rows in *; lia.

Lemma put_cell_in t x y c :
  0 ≤ x < VGA_COLS → 0 ≤ y < VGA_ROWS →
  put_cell (y * VGA_COLS + x) c (vt_buf t) = Some (<[(cols * Z.to_nat y + Z.to_nat x)%nat := c]> (vt_buf t)).
Proof.
  intros Hx Hy. unfold put_cell.
  replace (_ && _) with true by (symmetry; apply andb_true_iff; rewrite Z.leb_le, Z.ltb_lt; screen_lia).
  do 2 f_equal. screen_lia.
Qed.

Lemma feed_spec x t :
  length (vt_buf t) = Z.to_nat VGA_CELLS → 0 ≤ x < VGA_COLS → 0 ≤ vt_y t < VGA_ROWS →
  vt_refines (λ t, wrap_screen (set_xy x (u16 (vt_y t + 1)) t)) (g_feed (Z.to_nat x)) t.
Proof.
  intros Hb Hx Hy. unfold vt_refines, wrap_screen, g_feed.
  rewrite u16_small by screen_lia. simpl (g_row _). cbn [vt_y set_xy].
  destruct (Z.leb_spec VGA_ROWS (vt_y t + 1)).
  - rewrite vt_scroll_spec by done. eexists. split; [done|]. split.
    + split; cbn [vt_buf vt_x vt_y set_buf set_xy]; [|done|screen_lia].
      rewrite length_app, length_drop, length_replicate, Hb. done.
    + replace (Nat.eqb _ _) with true by (symmetry; apply Nat.eqb_eq; screen_lia).
      unfold grid_of, g_with. cbn [vt_buf vt_x vt_y vt_fg vt_bg vt_reverse vt_cursor_visible set_buf set_xy g_rows].
      by rewrite rows_of_scroll by done.
  - eexists. split; [done|]. split; [split; simpl; done || screen_lia|].
    replace (Nat.eqb _ _) with false by (symmetry; apply Nat.eqb_neq; screen_lia).
    unfold grid_of, g_with. simpl. f_equal. lia.
Qed.

Lemma right_spec n t :
  length (vt_buf t) = Z.to_nat VGA_CELLS → 0 ≤ n ≤ VGA_COLS → 0 ≤ vt_y t < VGA_ROWS →
  vt_refines (λ t, wrap_screen (wrap_line (set_xy n (vt_y t) t))) (g_right (Z.to_nat n)) t.
Proof.
  intros Hb Hn Hy. unfold vt_refines, wrap_line, g_right. cbn [vt_x vt_y set_xy].
  destruct (Z.leb_spec VGA_COLS n).
  - replace (Nat.ltb _ _) with false by (symmetry; apply Nat.ltb_ge; screen_lia).
    apply (feed_spec 0 t); [done|screen_lia|done].
  - replace (Nat.ltb _ _) with true by (symmetry; apply Nat.ltb_lt; screen_lia).
    unfold wrap_screen. cbn [vt_y set_xy]. destruct (Z.leb_spec VGA_ROWS (vt_y t)); [lia|].
    eexists. split; [done|]. split; [split; simpl; done || lia|done].
Qed.

Lemma tab_val x : 0 ≤ x < VGA_COLS → u16 (Z.land (x + 8) (Z.lnot 7)) = (x / 8 + 1) * 8.
Proof.
  intros Hx. change 7 with (Z.ones 3). rewrite land_lnot_ones by lia. change (2 ^ 3) with 8.
  unfold VGA_COLS in *. rewrite u16_small by dlia. dlia.
Qed.

Lemma put_char_spec c t : vt_ok t → vt_refines (put_char c) (g_putc c) t.
Proof.
  intros [Hb Hx Hy]. unfold put_char, draw_char, g_putc.
  destruct (Z.eqb_spec c 10).
  { unfold vt_refines. obind. unfold wrap_line. cbn [vt_x set_xy]. destruct (Z.leb_spec VGA_COLS 0); [screen_lia|].
    apply (feed_spec 0 t); [done|screen_lia|done]. }
  destruct (Z.eqb_spec c 13).
  { unfold vt_refines. obind. unfold wrap_line, wrap_screen. cbn [vt_x vt_y set_xy].
    destruct (Z.leb_spec VGA_COLS 0); [screen_lia|]. cbn [vt_y set_xy]. destruct (Z.leb_spec VGA_ROWS (vt_y t)); [lia|].
    eexists. split; [done|]. split; [split; simpl; done || screen_lia|done]. }
  destruct (Z.eqb_spec c 9).
  { unfold vt_refines. rewrite tab_val by done. obind. cbn [g_col grid_of].
    replace ((Z.to_nat (vt_x t) / 8 + 1) * 8)%nat with (Z.to_nat ((vt_x t / 8 + 1) * 8)).
    - apply (right_spec ((vt_x t / 8 + 1) * 8) t); [done| |done]. unfold VGA_COLS in *. dlia.
    - rewrite <- (Z2Nat.id (vt_x t)) at 1 by lia. change 8 with (Z.of_nat 8). rewrite <- Nat2Z.inj_div. lia. }
  destruct (Z.eqb_spec c 8).
  { unfold vt_refines. cbn [g_col grid_of]. destruct (Z.ltb_spec 0 (vt_x t)).
    - rewrite put_cell_in by lia. obind. unfold wrap_line, wrap_screen. cbn [vt_x vt_y set_xy set_buf].
      obind. cbn [vt_x vt_y set_xy set_buf].
      destruct (Z.leb_spec VGA_COLS (vt_x t - 1)); [lia|]. cbn [vt_y set_xy set_buf].
      destruct (Z.leb_spec VGA_ROWS (vt_y t)); [lia|].
      eexists. split; [done|]. split; [split; simpl; [by rewrite length_insert|lia|lia]|].
      destruct (Z.to_nat (vt_x t)) as [|k] eqn:Ek; [lia|]. replace (Z.to_nat (vt_x t - 1)) with k by lia.
      unfold grid_of, g_with, g_set. cbn [vt_x vt_y vt_buf vt_fg vt_bg vt_reverse vt_cursor_visible set_xy set_buf g_rows g_row].
      rewrite rows_of_insert by (done || screen_lia). f_equal. lia.
    - obind. unfold wrap_line, wrap_screen. destruct (Z.leb_spec VGA_COLS (vt_x t)); [lia|].
      destruct (Z.leb_spec VGA_ROWS (vt_y t)); [lia|]. replace (Z.to_nat (vt_x t)) with 0%nat by lia.
      exists t. split; [done|]. split; [done|]. done. }
  unfold vt_refines. rewrite put_cell_in by done. obind.
  set (t1 := set_buf (<[(cols * Z.to_nat (vt_y t) + Z.to_nat (vt_x t))%nat := vga_cell c (vga_attr t)]> (vt_buf t)) t).
  destruct (right_spec (vt_x t + 1) t1) as (t' & E & Hok & Hg); [by simpl; rewrite length_insert|lia|done|].
  exists t'. rewrite u16_small by screen_lia. split; [exact E|]. split; [done|]. rewrite Hg.
  unfold g_set. cbn [g_col g_row grid_of]. replace (Z.to_nat (vt_x t + 1)) with (Z.to_nat (vt_x t) + 1)%nat by lia. f_equal.
  unfold grid_of, g_with. cbn [vt_x vt_y vt_buf vt_fg vt_bg vt_reverse vt_cursor_visible set_buf g_rows t1].
  by rewrite rows_of_insert by (done || screen_lia).
Qed.

Lemma clear_spec t : vt_ok t → vt_refines clear_vt g_clear t.
Proof.
  intros [Hb Hx Hy]. unfold vt_refines, clear_vt.
  rewrite (put_cells_const _ _ 0) by (done || screen_lia). obind. eexists. split; [done|]. split.
  - split; cbn [vt_buf vt_x vt_y set_buf set_xy]; [by rewrite fill_length|screen_lia|screen_lia].
  - unfold grid_of, g_clear, g_with. cbn [vt_x vt_y vt_buf vt_fg vt_bg vt_reverse vt_cursor_visible set_xy set_buf].
    by rewrite (rows_of_fill_below _ 0) by (done || screen_lia).
Qed.

Lemma blank_row_spec x t :
  vt_ok t → 0 ≤ x ≤ VGA_COLS → vt_refines (blank_row x) (g_erase_row (Z.to_nat x)) t.
Proof.
  intros [Hb Hx Hy] Hx'. unfold vt_refines, blank_row.
  rewrite (put_cells_const _ _ (vt_y t * VGA_COLS)) by (done || screen_lia). obind. eexists. split; [done|]. split.
  - split; cbn [vt_buf vt_x vt_y set_buf set_xy]; [by rewrite fill_length|done|done].
  - unfold grid_of, g_erase_row, g_with. cbn [vt_x vt_y vt_buf vt_fg vt_bg vt_reverse vt_cursor_visible set_buf g_rows g_row g_col].
    pose proof (rows_of_erase_row (vt_buf t) (Z.to_nat x) (Z.to_nat (vt_y t)) (blank t) Hb) as H.
    rewrite !Z2Nat.id in H by lia. rewrite (Z.mul_comm (vt_y t)), H by screen_lia. done.
Qed.

Lemma erase_below_spec t :
  vt_ok t →
  vt_refines (λ t, b ← put_cells (vt_y t * VGA_COLS + vt_x t) VGA_CELLS (λ i, i) (λ _ _, Some (blank t)) (vt_buf t);
                   Some (set_buf b t)) g_erase_below t.
Proof.
  intros [Hb Hx Hy]. unfold vt_refines.
  rewrite (put_cells_const _ _ 0) by (done || screen_lia). obind. rewrite !Z.add_0_l. eexists. split; [done|]. split.
  - split; cbn [vt_buf vt_x vt_y set_buf]; [by rewrite fill_length|done|done].
  - unfold grid_of, g_erase_below, g_erase_row, g_with.
    cbn [vt_x vt_y vt_buf vt_fg vt_bg vt_reverse vt_cursor_visible set_buf g_rows g_row g_col]. f_equal.
    repeat match goal with |- context [g_blank ?g] => change (g_blank g) with (blank t) end.
    rewrite <- (fill_fill _ (vt_y t * VGA_COLS + VGA_COLS)) by screen_lia.
    pose proof (rows_of_erase_row (vt_buf t) (Z.to_nat (vt_x t)) (Z.to_nat (vt_y t)) (blank t) Hb) as H.
    rewrite !Z2Nat.id in H by lia. rewrite (Z.mul_comm (vt_y t)), <- H by screen_lia.
    replace (VGA_COLS * vt_y t + VGA_COLS) with (VGA_COLS * Z.of_nat (Z.to_nat (vt_y t) + 1)) by screen_lia.
    rewrite rows_of_fill_below; [|by rewrite fill_length|screen_lia]. done.
Qed.

Lemma s16_id x : -32768 ≤ x < 32768 → s16 x = x.
Proof. intros Hx. by apply signed_of_id. Qed.

Lemma move_spec dx dy t :
  vt_ok t →
  vt_refines (λ t, Some (set_xy (u16 (clamp_to (s16 (s16 (vt_x t) + dx)) VGA_COLS))
                                (u16 (clamp_to (s16 (s16 (vt_y t) + dy)) VGA_ROWS)) t))
    (λ g, g_with (g_rows g) (g_moved (g_col g) dx cols) (g_moved (g_row g) dy rows) g) t.
Proof.
  intros [Hb Hx Hy]. unfold vt_refines. eexists. split; [done|].
  assert (∀ n, 0 ≤ n < 80 → s16 n = n) as Hs by (intros n Hn; apply s16_id; lia).
  assert (∀ n hi, 0 < hi ≤ 80 → 0 ≤ clamp_to n hi < hi) as Hc.
  { intros n hi Hhi. unfold clamp_to. destruct (Z.ltb_spec n 0); [destruct (Z.leb_spec hi 0)|destruct (Z.leb_spec hi n)]; lia. }
  pose proof (Hc (s16 (s16 (vt_x t) + dx)) VGA_COLS ltac:(screen_lia)).
  pose proof (Hc (s16 (s16 (vt_y t) + dy)) VGA_ROWS ltac:(screen_lia)).
  rewrite !u16_small by screen_lia. split; [by split|].
  unfold grid_of, g_with, g_moved. cbn [vt_x vt_y vt_buf vt_fg vt_bg vt_reverse vt_cursor_visible set_xy g_rows g_row g_col].
  rewrite !Z2Nat.id by lia. by rewrite (Hs (vt_x t)), (Hs (vt_y t)) by screen_lia.
Qed.

(** ** The whole screen *)

(** The screen memory and the cursor registers show the displayed terminal. *)
Record vga_ok (s : vga) : Prop := {
  go_vts : length (vts s) = Z.to_nat VGA_VT_MAX;
  go_each : Forall vt_ok (vts s);
  go_displayed : 0 ≤ displayed_vt s < VGA_VT_MAX;
  go_screen : ∀ t, get_vt (displayed_vt s) s = Some t →
    vga_memory s = vt_buf t ∧ crtc_cursor s = (u8 (Z.shiftr (cursor_pos t) 8), u8 (Z.land (cursor_pos t) 0xFF))
}.

(** All but the last field: what holds between a change and the refresh. *)
Record vga_pre (s : vga) : Prop := {
  gp_vts : length (vts s) = Z.to_nat VGA_VT_MAX;
  gp_each : Forall vt_ok (vts s);
  gp_displayed : 0 ≤ displayed_vt s < VGA_VT_MAX;
  gp_screen : length (vga_memory s) = Z.to_nat VGA_CELLS
}.

Lemma get_vt_some s v : length (vts s) = Z.to_nat VGA_VT_MAX → 0 ≤ v < VGA_VT_MAX → ∃ t, get_vt v s = Some t.
Proof. intros Hl Hv. apply lookup_lt_is_Some_2. rewrite Hl. unfold VGA_VT_MAX in *. lia. Qed.

Lemma get_vt_ok s v t : Forall vt_ok (vts s) → get_vt v s = Some t → vt_ok t.
Proof. intros Hf Hv. by eapply Forall_lookup_1. Qed.

Lemma vga_ok_pre s : vga_ok s → vga_pre s.
Proof.
  intros [Hl He Hd Hs]. split; try done. destruct (get_vt_some s (displayed_vt s) Hl Hd) as [t Ht].
  destruct (Hs t Ht) as [-> _]. by apply (get_vt_ok _ _ _ He Ht).
Qed.

Lemma fill_all f b l :
  length b = Z.to_nat VGA_CELLS → length l = Z.to_nat VGA_CELLS → (∀ j c, l !! j = Some c → f (Z.of_nat j) = c) →
  fill 0 VGA_CELLS f b = l.
Proof.
  intros Hb Hl Hf. apply list_eq_same_length with (Z.to_nat VGA_CELLS); [done|by rewrite fill_length|].
  intros j x y Hj Hx Hy. rewrite fill_lookup in Hx.
  replace ((0 <=? Z.of_nat j) && (Z.of_nat j <? VGA_CELLS)) with true in Hx
    by (symmetry; apply andb_true_iff; rewrite Z.leb_le, Z.ltb_lt; screen_lia).
  apply fmap_Some in Hx as (? & _ & ->). by apply Hf.
Qed.

Lemma flush_spec s t :
  length (vga_memory s) = Z.to_nat VGA_CELLS → length (vt_buf t) = Z.to_nat VGA_CELLS →
  get_vt (displayed_vt s) s = Some t → vga_flush s = Some (with_screen (vt_buf t) s).
Proof.
  intros Hm Hb Ht. unfold vga_flush. rewrite Ht. obind.
  rewrite (put_cells_fill _ _ 0 (λ j, default 0 (vt_buf t !! Z.to_nat j))) by (done || (screen_lia) ||
    (intros x Hx; rewrite Z.add_0_l; destruct (lookup_lt_is_Some_2 (vt_buf t) (Z.to_nat x)) as [c ->]; [screen_lia|done])).
  obind. rewrite !Z.add_0_l, (fill_all _ _ (vt_buf t)); [done..|]. intros j c Hj. by rewrite Nat2Z.id, Hj.
Qed.

Lemma refresh_spec s : vga_pre s → ∃ s', (s1 ← vga_flush s; vga_update_cursor s1) = Some s' ∧ vga_ok s' ∧
  vts s' = vts s ∧ displayed_vt s' = displayed_vt s.
Proof.
  intros Hp. pose proof Hp as [Hl He Hd Hm]. destruct (get_vt_some s (displayed_vt s) Hl Hd) as [t Ht].
  rewrite (flush_spec s t) by (done || by apply (get_vt_ok _ _ _ He Ht)). obind. unfold vga_update_cursor. change (get_vt _ (with_screen _ s)) with (get_vt (displayed_vt s) s).
  rewrite Ht. obind. eexists. split; [done|]. split; [|done]. split; try done.
  intros t' Ht'. change (get_vt _ _) with (get_vt (displayed_vt s) s) in Ht'. rewrite Ht in Ht'. by simplify_eq.
Qed.

(** What an operation on terminal [v] leaves behind. *)
Record op_post (v : Z) (g : grid → grid) (s s' : vga) : Prop := {
  op_inv : vga_ok s';
  op_shown : displayed_vt s' = displayed_vt s;
  op_target : ∃ t t', get_vt v s = Some t ∧ get_vt v s' = Some t' ∧ grid_of t' = g (grid_of t);
  op_others : ∀ w, 0 ≤ w → w ≠ v → get_vt w s' = get_vt w s;
  op_hidden : v ≠ displayed_vt s → vga_memory s' = vga_memory s ∧ crtc_cursor s' = crtc_cursor s
}.

Lemma on_vt_spec v f g s :
  vga_ok s → 0 ≤ v < VGA_VT_MAX → (∀ t, vt_ok t → vt_refines f g t) →
  ∃ t t', get_vt v s = Some t ∧ vt_ok t ∧ f t = Some t' ∧ vt_ok t' ∧ grid_of t' = g (grid_of t) ∧
    on_vt v f s = Some (with_vts (<[Z.to_nat v := t']> (vts s)) s) ∧
    vga_pre (with_vts (<[Z.to_nat v := t']> (vts s)) s).
Proof.
  intros Hs Hv Hf. pose proof (vga_ok_pre _ Hs) as [Hl He Hd Hm]. destruct (get_vt_some s v Hl Hv) as [t Ht].
  pose proof (get_vt_ok _ _ _ He Ht) as Hok. destruct (Hf t Hok) as (t' & E & Hok' & Hg).
  exists t, t'. do 5 (split; [done|]). unfold on_vt. rewrite Ht. obind. rewrite E. split; [done|].
  split; simpl; [by rewrite length_insert|by apply Forall_insert|done|done].
Qed.

Section Post.
Context (v : Z) (s : vga) (t t' : vt) (g : grid → grid).
Context (Hs : vga_ok s) (Hv : 0 ≤ v < VGA_VT_MAX) (Ht : get_vt v s = Some t) (Hg : grid_of t' = g (grid_of t)).
Let s1 := with_vts (<[Z.to_nat v := t']> (vts s)) s.
Context (Hp : vga_pre s1).

Lemma get_changed : get_vt v s1 = Some t'.
Proof. unfold get_vt, s1. simpl. apply list_lookup_insert_eq. by eapply lookup_lt_Some. Qed.

Lemma get_other w : 0 ≤ w → w ≠ v → get_vt w s1 = get_vt w s.
Proof. intros Hw Hne. unfold get_vt, s1. simpl. apply list_lookup_insert_ne. lia. Qed.

(** The screen is not refreshed: enough for another terminal, and for a change that
    is not visible. *)
Lemma unseen_ok :
  (v = displayed_vt s → vt_buf t' = vt_buf t ∧ cursor_pos t' = cursor_pos t) → op_post v g s s1.
Proof.
  intros Hsee. destruct Hp as [Hl He Hd Hm].
  split; [|done|eexists _, _; split; [done|]; split; [apply get_changed|done]|intros; by apply get_other|done].
  split; try done. intros u Hu. change (displayed_vt s1) with (displayed_vt s) in *.
  change (vga_memory s1) with (vga_memory s). change (crtc_cursor s1) with (crtc_cursor s).
  destruct (decide (displayed_vt s = v)) as [Heq|Hne].
  - rewrite Heq, get_changed in Hu. simplify_eq. rewrite (proj1 (Hsee eq_refl)), (proj2 (Hsee eq_refl)).
    by apply (go_screen _ Hs).
  - rewrite get_other in Hu by (done || lia). by apply (go_screen _ Hs).
Qed.

Lemma refresh_ok : ∃ s', refresh v s1 = Some s' ∧ op_post v g s s'.
Proof.
  unfold refresh. change (displayed_vt s1) with (displayed_vt s). destruct (Z.eqb_spec v (displayed_vt s)) as [Heq|Hne].
  - destruct (refresh_spec s1 Hp) as (s' & -> & Hok & Hvts & Hd). exists s'. split; [done|].
    assert (∀ w, get_vt w s' = get_vt w s1) as Hget by (intros w; unfold get_vt; by rewrite Hvts).
    split; [done|done| |intros; rewrite Hget; by apply get_other|done].
    eexists _, _. split; [done|]. rewrite Hget. split; [apply get_changed|done].
  - exists s1. split; [done|]. by apply unseen_ok.
Qed.

Lemma refresh_cursor_ok : vt_buf t' = vt_buf t → ∃ s', refresh_cursor v s1 = Some s' ∧ op_post v g s s'.
Proof.
  intros Hbuf. unfold refresh_cursor. change (displayed_vt s1) with (displayed_vt s).
  destruct (Z.eqb_spec v (displayed_vt s)) as [Heq|Hne].
  - unfold vga_update_cursor. change (displayed_vt s1) with (displayed_vt s). rewrite <- Heq, get_changed. obind.
    eexists. split; [done|].
    split; [|done|eexists _, _; split; [done|]; split; [apply get_changed|done]|intros; by apply get_other|done].
    destruct Hp as [Hl He Hd Hm]. split; try done. intros u Hu.
    change (get_vt (displayed_vt s) s1 = Some u) in Hu. rewrite <- Heq, get_changed in Hu. simplify_eq. split; [|done].
    simpl. rewrite Hbuf. by apply (go_screen _ Hs).
  - exists s1. split; [done|]. by apply unseen_ok.
Qed.
End Post.

(** The operations of the terminal interface, their targets and their meaning. *)
Inductive screen_op : Type :=
  | op_putc (c : Z) | op_clear | op_set_cursor (x y : Z) | op_move (dx dy : Z) | op_clear_to_eol | op_clear_line
  | op_clear_to_escreen | op_set_reverse (b : bool) | op_set_fg (color : Z) | op_set_bg (color : Z) | op_set_visible (b : bool).

Definition run_op (v : Z) (o : screen_op) : vga → option vga :=
  match o with
  | op_putc c => vga_vt_putc v c
  | op_clear => vga_vt_clear v
  | op_set_cursor x y => vga_vt_set_cursor v x y
  | op_move dx dy => vga_vt_move_cursor v dx dy
  | op_clear_to_eol => vga_vt_clear_to_eol v
  | op_clear_line => vga_vt_clear_line v
  | op_clear_to_escreen => vga_vt_clear_to_escreen v
  | op_set_reverse b => vga_vt_set_reverse v b
  | op_set_fg color => vga_vt_set_fg_color v color
  | op_set_bg color => vga_vt_set_bg_color v color
  | op_set_visible b => vga_vt_set_cursor_visible v b
  end.

Definition op_grid (o : screen_op) (g : grid) : grid :=
  match o with
  | op_putc c => g_putc c g
  | op_clear => g_clear g
  | op_set_cursor x y => g_with (g_rows g) (Z.to_nat x) (Z.to_nat y) g
  | op_move dx dy => g_with (g_rows g) (g_moved (g_col g) dx cols) (g_moved (g_row g) dy rows) g
  | op_clear_to_eol => g_erase_row (g_col g) g
  | op_clear_line => g_erase_row 0 g
  | op_clear_to_escreen => g_erase_below g
  | op_set_reverse b => Grid (g_rows g) (g_col g) (g_row g) (g_fg g) (g_bg g) b (g_visible g)
  | op_set_fg color => Grid (g_rows g) (g_col g) (g_row g) color (g_bg g) (g_reverse g) (g_visible g)
  | op_set_bg color => Grid (g_rows g) (g_col g) (g_row g) (g_fg g) color (g_reverse g) (g_visible g)
  | op_set_visible b => Grid (g_rows g) (g_col g) (g_row g) (g_fg g) (g_bg g) (g_reverse g) b
  end.

(** The cursor may only be set to a cell of the screen. *)
Definition op_in_range (o : screen_op) : Prop :=
  match o with op_set_cursor x y => 0 ≤ x < VGA_COLS ∧ 0 ≤ y < VGA_ROWS | _ => True end.

Lemma clamp_vt_range v : 0 ≤ v → 0 ≤ clamp_vt v < VGA_VT_MAX.
Proof. intros Hv. unfold clamp_vt, VGA_VT_MAX. destruct (Z.leb_spec 4 v); lia. Qed.

(** A change of cursor or attributes only. *)
Lemma set_refines f g t : vt_ok (f t) → grid_of (f t) = g (grid_of t) → vt_refines (λ t, Some (f t)) g t.
Proof. intros. by exists (f t). Qed.

Lemma screen_run_spec v o s :
  vga_ok s → 0 ≤ v → op_in_range o → ∃ s', run_op v o s = Some s' ∧ op_post (clamp_vt v) (op_grid o) s s'.
Proof.
  intros Hs Hv Ho. pose proof (clamp_vt_range v Hv) as Hr.
  assert (∀ f g, (∀ t, vt_ok t → vt_refines f g t) →
          ∃ s', (s1 ← on_vt (clamp_vt v) f s; refresh (clamp_vt v) s1) = Some s' ∧ op_post (clamp_vt v) g s s') as Hdraw.
  { intros f g Hf. destruct (on_vt_spec _ f g s Hs Hr Hf) as (t & t' & Ht & Hok & E & Hok' & Hg & -> & Hp).
    obind. by apply (refresh_ok _ s t t'). }
  assert (∀ f g, (∀ t, vt_ok t → vt_refines (λ t, Some (f t)) g t) → (∀ t, vt_buf (f t) = vt_buf t) →
          ∃ s', (s1 ← on_vt (clamp_vt v) (λ t, Some (f t)) s; refresh_cursor (clamp_vt v) s1) = Some s' ∧
                op_post (clamp_vt v) g s s') as Hmove.
  { intros f g Hf Hb. destruct (on_vt_spec _ _ g s Hs Hr Hf) as (t & t' & Ht & Hok & [= <-] & Hok' & Hg & -> & Hp).
    obind. by apply (refresh_cursor_ok _ s t (f t)). }
  assert (∀ f g, (∀ t, vt_ok t → vt_refines (λ t, Some (f t)) g t) →
          (∀ t, vt_buf (f t) = vt_buf t ∧ cursor_pos (f t) = cursor_pos t) →
          ∃ s', on_vt (clamp_vt v) (λ t, Some (f t)) s = Some s' ∧ op_post (clamp_vt v) g s s') as Hset.
  { intros f g Hf Hb. destruct (on_vt_spec _ _ g s Hs Hr Hf) as (t & t' & Ht & Hok & [= <-] & Hok' & Hg & -> & Hp).
    eexists. split; [done|]. by apply (unseen_ok _ s t (f t)). }
  destruct o; simpl.
  - apply Hdraw, put_char_spec.
  - apply Hdraw, clear_spec.
  - apply (Hmove (set_xy x y)); [|done]. intros t [Hb Hx Hy]. apply set_refines; [|done]. destruct Ho. by split.
  - apply Hmove; [|done]. intros t Hok. by apply move_spec.
  - apply Hdraw. intros t Hok. pose proof Hok as [Hb Hx Hy]. destruct (blank_row_spec (vt_x t) t Hok) as (t' & ? & ? & ?); [lia|].
    by exists t'.
  - apply Hdraw. intros t Hok. by apply (blank_row_spec 0 t Hok).
  - apply Hdraw, erase_below_spec.
  - apply Hset; [|done]. intros t [Hb Hx Hy]. by apply set_refines.
  - apply Hset; [|done]. intros t [Hb Hx Hy]. by apply set_refines.
  - apply Hset; [|done]. intros t [Hb Hx Hy]. by apply set_refines.
  - apply (Hmove (set_visible b)); [|done]. intros t [Hb Hx Hy]. by apply set_refines.
Qed.

(** ** Start, switching, and everything reachable *)

Lemma vt_switch_spec v s :
  vga_ok s → 0 ≤ v → ∃ s', vga_vt_switch v s = Some s' ∧ vga_ok s' ∧ vts s' = vts s ∧
    displayed_vt s' = (if v <? VGA_VT_MAX then v else displayed_vt s).
Proof.
  intros Hs Hv. unfold vga_vt_switch. destruct (Z.leb_spec VGA_VT_MAX v), (Z.ltb_spec v VGA_VT_MAX); try lia; [by exists s|].
  pose proof (vga_ok_pre _ Hs) as [Hl He Hd Hm].
  destruct (refresh_spec (with_displayed v s)) as (s' & -> & ? & ? & ?); [by split|]. by exists s'.
Qed.

(** The state a zeroed memory starts in: four terminals and a screen of any contents. *)
Definition vga_raw (s : vga) : Prop :=
  length (vts s) = Z.to_nat VGA_VT_MAX ∧ Forall (λ t, length (vt_buf t) = Z.to_nat VGA_CELLS) (vts s) ∧
  length (vga_memory s) = Z.to_nat VGA_CELLS.

Definition first_blank : Z := vga_cell 32 VGA_COLOR_LIGHT_GREY.
Definition fresh_vt : vt :=
  Vt (replicate (Z.to_nat VGA_CELLS) first_blank) 0 0 VGA_COLOR_LIGHT_GREY VGA_COLOR_BLACK false true.

Lemma fresh_vt_ok : vt_ok fresh_vt.
Proof. split; [unfold fresh_vt; cbn [vt_buf]; by rewrite length_replicate|done|done]. Qed.

Lemma init_one t : length (vt_buf t) = Z.to_nat VGA_CELLS → (t ← init_vt t; clear_vt t) = Some fresh_vt.
Proof.
  intros Hb. unfold init_vt, clear_vt. obind. rewrite (put_cells_const _ _ 0) by (done || screen_lia). obind.
  rewrite !Z.add_0_l. rewrite (fill_all _ _ (vt_buf fresh_vt)); [done|done|apply fresh_vt_ok|].
  intros j c Hj. by apply lookup_replicate in Hj as [-> _].
Qed.

(** The loop of [vga_init]: the terminals before [n] are done. *)
Definition init_inv (n : Z) (s : vga) : Prop :=
  vga_raw s ∧ displayed_vt s = 0 ∧ (∀ v, 0 ≤ v < n → get_vt v s = Some fresh_vt) ∧ (0 < n → crtc_cursor s = (0, 0)).

Lemma raw_get v s : vga_raw s → 0 ≤ v < VGA_VT_MAX → ∃ t, get_vt v s = Some t ∧ length (vt_buf t) = Z.to_nat VGA_CELLS.
Proof.
  intros (Hl & He & Hm) Hv. destruct (get_vt_some s v Hl Hv) as [t Ht]. exists t. split; [done|].
  by apply (Forall_lookup_1 _ _ _ _ He Ht).
Qed.

Lemma init_refresh v s :
  vga_raw s → displayed_vt s = 0 → get_vt v s = Some fresh_vt → 0 ≤ v → (0 < v → crtc_cursor s = (0, 0)) →
  ∃ s', refresh v s = Some s' ∧ vga_raw s' ∧ displayed_vt s' = 0 ∧ vts s' = vts s ∧ crtc_cursor s' = (0, 0).
Proof.
  intros Hs Hd Hv Hv0 Hc. unfold refresh. rewrite Hd. destruct (Z.eqb_spec v 0) as [-> |].
  - pose proof Hs as (Hl & He & Hm).
    rewrite (flush_spec s fresh_vt) by (done || (by rewrite Hd) || apply fresh_vt_ok).
    obind. unfold vga_update_cursor. change (get_vt _ (with_screen _ s)) with (get_vt (displayed_vt s) s). rewrite Hd, Hv.
    eexists. split; [done|]. split; [|done]. split_and!; [done|done|]. apply fresh_vt_ok.
  - exists s. split_and!; try done. apply Hc. lia.
Qed.

Lemma init_round v s :
  0 ≤ v < VGA_VT_MAX → init_inv v s →
  ∃ s', (s ← on_vt v init_vt s; vt_clear_impl v s) = Some s' ∧ init_inv (v + 1) s'.
Proof.
  intros Hv (Hs & Hd & Hdone & Hc). destruct (raw_get v s Hs Hv) as (t & Ht & Hb). pose proof Hs as (Hl & He & Hm).
  pose proof (lookup_lt_Some _ _ _ Ht) as Hlt. pose proof (init_one t Hb) as Hone. revert Hone.
  unfold on_vt at 1, init_vt. rewrite Ht. obind. intros Hone. obind. obind. obind.
  unfold vt_clear_impl, on_vt. unfold get_vt at 1. cbn [vts with_vts]. rewrite list_lookup_insert_eq by done.
  obind. rewrite Hone. obind. obind. rewrite list_insert_insert_eq. set (s1 := with_vts _ _).
  assert (get_vt v s1 = Some fresh_vt) as Hnew by (unfold get_vt; cbn [vts with_vts s1]; by rewrite list_lookup_insert_eq).
  destruct (init_refresh v s1) as (s' & E & Hs' & Hd' & Hvts & Hc'); [|done|done|lia|done|].
  { split_and!; cbn [vts with_vts s1 vga_memory]; [by rewrite length_insert| |done]. apply Forall_insert; [done|].
    apply fresh_vt_ok. }
  exists s'. split; [exact E|]. do 2 (split; [done|]). split; [|done]. intros w Hw. unfold get_vt. rewrite Hvts.
  destruct (decide (w = v)) as [-> |]; [done|]. cbn [vts with_vts s1]. rewrite list_lookup_insert_ne by lia. apply Hdone. lia.
Qed.

(** After [vga_init] every terminal is blank and the first is shown. *)
Lemma vga_init_spec s :
  vga_raw s → ∃ s', vga_init s = Some s' ∧ vga_ok s' ∧ displayed_vt s' = 0 ∧
    ∀ v, 0 ≤ v < VGA_VT_MAX → get_vt v s' = Some fresh_vt.
Proof.
  intros Hs. unfold vga_init. for_inv init_inv.
  - done.
  - split; [done|]. split; [done|]. split; lia.
  - intros v s1 Hv Hi. by destruct (init_round v s1 Hv Hi) as (s' & -> & ?).
  - intros s1 (Hs1 & Hd & Hdone & Hc). obind. pose proof Hs1 as (Hl & He & Hm).
    rewrite (flush_spec s1 fresh_vt) by (done || (by rewrite Hd; apply Hdone) || apply fresh_vt_ok).
    eexists. split; [done|]. split; [|by split]. split; [done| |by cbn; rewrite Hd|].
    + apply Forall_lookup_2. intros i t Hi. change (vts s1 !! i = Some t) in Hi. pose proof (lookup_lt_Some _ _ _ Hi) as Hlt. rewrite Hl in Hlt.
      specialize (Hdone (Z.of_nat i)). unfold get_vt in Hdone. rewrite Nat2Z.id, Hi in Hdone.
      feed Hdone; [unfold VGA_VT_MAX in *; lia|]. injection Hdone as ->. apply fresh_vt_ok.
    + intros t Ht. change (get_vt (displayed_vt s1) s1 = Some t) in Ht. rewrite Hd, (Hdone 0) in Ht by done.
      apply (inj Some) in Ht as <-. split; [done|]. by apply Hc.
Qed.

(** Everything that can happen to the screen after [vga_init]: terminal operations
    that keep the cursor on the screen, switches, and characters at fixed cells. *)
Inductive screen_event : Type :=
  | ev_op (v : Z) (o : screen_op)
  | ev_switch (v : Z)
  | ev_putc_at (x y c : Z).

Definition run_event (e : screen_event) : vga → option vga :=
  match e with
  | ev_op v o => run_op v o
  | ev_switch v => vga_vt_switch v
  | ev_putc_at x y c => vga_putc_at x y c
  end.

Definition event_ok (e : screen_event) : Prop :=
  match e with
  | ev_op v o => 0 ≤ v ∧ op_in_range o
  | ev_switch v => 0 ≤ v
  | ev_putc_at x y c => 0 ≤ x ∧ 0 ≤ y
  end.

Fixpoint run_events (l : list screen_event) (s : vga) : option vga :=
  match l with
  | [] => Some s
  | e :: l => s ← run_event e s; run_events l s
  end.

Lemma putc_at_spec x y c s :
  vga_ok s → 0 ≤ x → 0 ≤ y → ∃ s', vga_putc_at x y c s = Some s' ∧ vga_ok s'.
Proof.
  intros Hs Hx Hy. unfold vga_putc_at. destruct (Z.leb_spec VGA_COLS x), (Z.leb_spec VGA_ROWS y); simpl; try by exists s.
  pose proof (go_displayed _ Hs) as Hd.
  set (put := λ t, b ← put_cell (y * VGA_COLS + x) (vga_cell c (vga_attr t)) (vt_buf t); Some (set_buf b t)).
  assert (∀ t, vt_ok t → vt_refines put (λ g, g_set (Z.to_nat x) (Z.to_nat y) (vga_cell c (g_attr g)) g) t) as Hput.
  { intros t [Hb Hbx Hby]. unfold vt_refines, put. rewrite put_cell_in by lia. obind. eexists. split; [done|].
    split; [split; cbn [vt_buf set_buf]; [by rewrite length_insert|done|done]|].
    unfold grid_of, g_set, g_with. cbn [vt_x vt_y vt_buf vt_fg vt_bg vt_reverse vt_cursor_visible set_buf g_rows g_row g_col].
    by rewrite rows_of_insert by (done || screen_lia). }
  destruct (on_vt_spec _ put _ s Hs Hd Hput) as (t & t' & Ht & Hok & Et & Hok' & Hg & -> & Hp). obind.
  rewrite (get_changed _ s t) by done. obind. destruct (go_screen _ Hs t Ht) as [Hm Hc].
  unfold put in Et. rewrite put_cell_in in Et by lia. simpl in Et. apply (inj Some) in Et as <-.
  pose proof (vo_buf _ Hok) as Hb. cbn [vt_buf set_buf].
  replace (Z.to_nat (y * VGA_COLS + x)) with (cols * Z.to_nat y + Z.to_nat x)%nat by screen_lia.
  rewrite list_lookup_insert_eq by (rewrite Hb; screen_lia). obind. cbn [vga_memory with_vts]. rewrite Hm, put_cell_in by lia.
  obind. eexists. split; [done|]. destruct Hp as [Hl He Hd' Hm']. split; try done.
  intros u Hu. change (get_vt (displayed_vt s) (with_vts (<[Z.to_nat (displayed_vt s):=set_buf (<[(cols * Z.to_nat y + Z.to_nat x)%nat:=vga_cell c (vga_attr t)]> (vt_buf t)) t]> (vts s)) s) = Some u) in Hu.
  rewrite (get_changed _ s t) in Hu by done. by simplify_eq.
Qed.

Lemma run_event_ok e s : vga_ok s → event_ok e → ∃ s', run_event e s = Some s' ∧ vga_ok s'.
Proof.
  intros Hs He. destruct e as [v o|v|x y c]; simpl in *.
  - destruct He as [Hv Ho]. destruct (screen_run_spec v o s Hs Hv Ho) as (s' & E & Hp). exists s'. by split; [|apply Hp].
  - destruct (vt_switch_spec v s Hs He) as (s' & E & ? & _). by exists s'.
  - destruct He. by apply putc_at_spec.
Qed.

Lemma run_events_ok l s : vga_ok s → Forall event_ok l → ∃ s', run_events l s = Some s' ∧ vga_ok s'.
Proof.
  intros Hs Hl. revert s Hs. induction Hl as [|e l He _ IH]; intros s Hs; [by exists s|].
  destruct (run_event_ok e s Hs He) as (s1 & E & Hs1). simpl. rewrite E. obind. by apply IH.
Qed.

(** After [vga_init] no sequence of terminal operations that place the cursor on the
    screen, of terminal switches and of characters at fixed cells writes outside a
    buffer, and at every point the screen memory is the buffer of the displayed
    terminal and the cursor registers hold its cursor (or the parked cell). *)
Theorem screen_always_shown s l :
  vga_raw s → Forall event_ok l → ∃ s0 s', vga_init s = Some s0 ∧ run_events l s0 = Some s' ∧ vga_ok s'.
Proof.
  intros Hs Hl. destruct (vga_init_spec s Hs) as (s0 & E & Hok & _). destruct (run_events_ok l s0 Hok Hl) as (s' & E' & Hs').
  by exists s0, s'.
Qed.

(** C29: On a screen that shows its displayed terminal, every terminal operation ends, does
    to the rows of its terminal what the reference operation does (characters, tabs,
    line wrap, scrolling, cursor moves, erasing, colours), leaves the other terminals
    alone, and changes the screen memory and the cursor only when its terminal is the
    displayed one, which the screen shows again afterwards. *)
Theorem screen_op_refines v o s :
  vga_ok s → 0 ≤ v → op_in_range o → ∃ s', run_op v o s = Some s' ∧ op_post (clamp_vt v) (op_grid o) s s'.
Proof. apply screen_run_spec. Qed.

(** ** Concrete screens *)

Definition demo_screen (v : Z) : vga :=
  Vga (replicate 4 fresh_vt) v (vt_buf fresh_vt) (0, 0).

Lemma demo_screen_ok v : 0 ≤ v < VGA_VT_MAX → vga_ok (demo_screen v).
Proof.
  intros Hv. split; [done|by apply Forall_replicate, fresh_vt_ok|done|].
  intros t Ht. unfold demo_screen, get_vt in Ht. cbn [vts displayed_vt] in Ht. apply lookup_replicate in Ht as [-> _]. done.
Qed.

Lemma screen_always_shown_witness :
  ∃ s0 s', vga_init (demo_screen 2) = Some s0 ∧
    run_events [ev_op 1 (op_putc 65); ev_op 0 (op_set_cursor 79 24); ev_op 0 (op_putc 66); ev_switch 1; ev_putc_at 5 5 67] s0 = Some s' ∧
    vga_ok s'.
Proof.
  apply screen_always_shown.
  - split_and!; [done|by apply Forall_replicate, fresh_vt_ok|apply fresh_vt_ok].
  - repeat (apply Forall_cons; split; [by repeat split|]). apply Forall_nil. exact I.
Defined.

Lemma screen_op_witness :
  ∃ s', run_op 1 (op_putc 10) (demo_screen 1) = Some s' ∧ op_post (clamp_vt 1) (op_grid (op_putc 10)) (demo_screen 1) s'.
Proof. apply screen_op_refines; [by apply demo_screen_ok|lia|done]. Defined.
