(* ===== verification/Digits.v ===== *)
(** Numerals as the kernel prints them: digits produced from the lowest up and then
    reversed.  [numeral] is the list of digits, [value] reads it back. *)

From stdpp Require Import prelude numbers list.
From Stdlib Require Import ZArith Lia.
From S2P Require Import Prelude.

Open Scope Z_scope.

Section Digits.
Context (base : Z).

(** [do { out[n++] = v % base; v /= base; } while (v && n < limit);] *)
Fixpoint digits_up (limit : nat) (v : Z) : list Z :=
  match limit with
  | O => []
  | S limit => v mod base :: if v / base =? 0 then [] else digits_up limit (v / base)
  end.

Definition numeral (limit : nat) (v : Z) : list Z := reverse (digits_up limit v).

Definition value_from (v : Z) (ds : list Z) : Z := foldl (λ v d, v * base + d) v ds.
Definition value (ds : list Z) : Z := value_from 0 ds.

Definition digit (d : Z) : Prop := 0 ≤ d < base.

Lemma value_from_app v ds ds' : value_from v (ds ++ ds') = value_from (value_from v ds) ds'.
Proof. unfold value_from. by rewrite foldl_app. Qed.

Context (Hbase : 1 < base).

Lemma value_from_le v ds : 0 ≤ v → Forall digit ds → v ≤ value_from v ds.
Proof.
  intros Hv Hd. revert v Hv. induction Hd as [|d ds Hd _ IH]; intros v Hv; simpl; [lia|].
  unfold digit in Hd. etrans; [|apply IH; nia]. nia.
Qed.

Lemma digits_up_digit limit v : 0 ≤ v → Forall digit (digits_up limit v).
Proof.
  revert v. induction limit as [|limit IH]; intros v Hv; simpl; constructor; [apply Z.mod_pos_bound; lia|].
  destruct (v / base =? 0); [done|]. apply IH. apply Z.div_pos; lia.
Qed.

Lemma digits_up_length limit v : (length (digits_up limit v) ≤ limit)%nat.
Proof.
  revert v. induction limit as [|limit IH]; intros v; simpl; [lia|].
  destruct (v / base =? 0); simpl; [lia|]. specialize (IH (v / base)). lia.
Qed.

Lemma numeral_digit limit v : 0 ≤ v → Forall digit (numeral limit v).
Proof. intros Hv. by apply Forall_reverse, digits_up_digit. Qed.

Lemma numeral_length limit v : (length (numeral limit v) ≤ limit)%nat.
Proof. unfold numeral. rewrite length_reverse. apply digits_up_length. Qed.

Lemma numeral_nonempty limit v : (0 < limit)%nat → numeral limit v ≠ [].
Proof.
  destruct limit as [|limit]; [lia|]. intros _ H. apply (f_equal length) in H. unfold numeral in H.
  rewrite length_reverse in H. done.
Qed.

(** Printing and reading back. *)
Lemma numeral_value limit v : 0 ≤ v < base ^ Z.of_nat limit → value (numeral limit v) = v.
Proof.
  unfold numeral, value. revert v. induction limit as [|limit IH]; intros v Hv.
  { simpl in *. lia. }
  rewrite Nat2Z.inj_succ, Z.pow_succ_r in Hv by lia. pose proof (Z.div_mod v base ltac:(lia)).
  cbn [digits_up]. rewrite reverse_cons, value_from_app. cbn [value_from foldl].
  destruct (Z.eqb_spec (v / base) 0) as [E|E]; [simpl; lia|].
  rewrite IH; [lia|]. split; [apply Z.div_pos; lia|]. apply Z.div_lt_upper_bound; lia.
Qed.

(** With room for all digits the limit does not matter. *)
Lemma digits_up_enough limit limit' v :
  0 ≤ v < base ^ Z.of_nat limit → (limit ≤ limit')%nat → (0 < limit)%nat → digits_up limit' v = digits_up limit v.
Proof.
  revert limit' v. induction limit as [|limit IH]; intros limit' v Hv Hle Hpos; [lia|].
  destruct limit' as [|limit']; [lia|]. cbn [digits_up]. f_equal. destruct (Z.eqb_spec (v / base) 0) as [E|E]; [done|].
  rewrite Nat2Z.inj_succ, Z.pow_succ_r in Hv by lia.
  assert (0 < v / base) by (pose proof (Z.div_pos v base ltac:(lia) ltac:(lia)); lia).
  apply IH; [|lia|].
  - split; [lia|]. apply Z.div_lt_upper_bound; lia.
  - destruct limit; [|lia]. simpl in Hv. rewrite Z.mul_1_r in Hv. rewrite Z.div_small in E by lia. done.
Qed.
End Digits.
