(* ===== verification/Term.v ===== *)
(** Terminal output: the escape sequences of [term_write] and [csi_apply]
    (arch/x86_64/syscall/syscall_dispatch.c), and the video stack in front of the
    screen (driver/stacks/video/video_stack.c).

    Output goes to the serial line and to one virtual terminal of Screen.v.  [None]
    is a write outside a terminal's buffer, a call through a null pointer, or an
    overflow of a signed [int]. *)

From stdpp Require Import prelude functions numbers list.
From Stdlib Require Import ZArith Lia.
From S2P Require Import Prelude Digits Screen.

Open Scope Z_scope.

(** ** The video stack *)

Definition VIDEO_MAX_DRIVERS : Z := 8.

Section Video.
Context {S : Type}.

(** The functions a driver fills in; [None] is a null pointer. *)
Record video_driver : Type := VideoDriver {
  vd_init : option (S → option S);
  vd_putc : option (Z → S → option S);
  vd_puts : option (list Z → S → option S);
  vd_clear : option (S → option S);
  vd_set_fg_color : option (Z → S → option S);
  vd_set_bg_color : option (Z → S → option S);
  vd_set_cursor : option (Z → Z → S → option S);
  vd_putc_at : option (Z → Z → Z → S → option S);
  vd_width : Z;
  vd_height : Z
}.

Record video : Type := Video {
  drivers : list (option video_driver);
  driver_count : Z;
  active : Z
}.

Definition video_stack_init (v : video) : video :=
  Video (for_do 0 VIDEO_MAX_DRIVERS (λ i l, <[Z.to_nat i := None]> l) (drivers v)) 0 0.

Definition video_stack_register (d : video_driver) (v : video) (s : S) : option (bool * video * S) :=
  if VIDEO_MAX_DRIVERS <=? driver_count v then Some (false, v, s)
  else
    match vd_init d with
    | None => Some (false, v, s)
    | Some init =>
        let v := Video (<[Z.to_nat (driver_count v) := Some d]> (drivers v)) (u8 (driver_count v + 1)) (active v) in
        s ← init s; Some (true, v, s)
    end.

Definition active_driver (v : video) : option video_driver := mjoin (drivers v !! Z.to_nat (active v)).

Definition video_has_driver (v : video) : bool :=
  (0 <? driver_count v) && match active_driver v with Some _ => true | None => false end.

(** A call through the active driver, when there is one. *)
Definition through {X} (v : video) (op : video_driver → option X) (call : X → S → option S) (s : S) : option S :=
  if negb (video_has_driver v) then Some s else d ← active_driver v; f ← op d; call f s.

Definition video_putc (v : video) (c : Z) : S → option S := through v vd_putc (λ f, f c).
Definition video_puts (v : video) (str : list Z) : S → option S := through v vd_puts (λ f, f str).
Definition video_clear (v : video) : S → option S := through v vd_clear (λ f, f).
Definition video_set_fg_color (v : video) (c : Z) : S → option S := through v vd_set_fg_color (λ f, f c).
Definition video_set_bg_color (v : video) (c : Z) : S → option S := through v vd_set_bg_color (λ f, f c).
Definition video_set_cursor (v : video) (x y : Z) : S → option S := through v vd_set_cursor (λ f, f x y).
Definition video_putc_at (v : video) (x y c : Z) : S → option S := through v vd_putc_at (λ f, f x y c).

Definition video_get_width (v : video) : Z :=
  if negb (video_has_driver v) then 0 else default 0 (vd_width <$> active_driver v).
Definition video_get_height (v : video) : Z :=
  if negb (video_has_driver v) then 0 else default 0 (vd_height <$> active_driver v).
End Video.
Arguments video_driver : clear implicits. Arguments video : clear implicits.

Definition vga_driver : video_driver vga :=
  VideoDriver (Some vga_init) (Some vga_putc) (Some vga_puts) (Some vga_clear) (Some vga_set_fg_color)
    (Some vga_set_bg_color) (Some vga_set_cursor) (Some vga_putc_at) VGA_COLS VGA_ROWS.

Definition vga_register (v : video vga) (s : vga) : option (bool * video vga * vga) :=
  video_stack_register vga_driver v s.

(** ** Escape sequences *)

Definition ESC : Z := 0x1b.

Definition sgr_to_vga (sgr : Z) : Z :=
  if sgr =? 30 then 0 else if sgr =? 31 then 4 else if sgr =? 32 then 2 else if sgr =? 33 then 14
  else if sgr =? 34 then 1 else if sgr =? 35 then 5 else if sgr =? 36 then 3 else if sgr =? 37 then 7
  else if sgr =? 90 then 8 else if sgr =? 91 then 12 else if sgr =? 92 then 10 else if sgr =? 93 then 14
  else if sgr =? 94 then 9 else if sgr =? 95 then 13 else if sgr =? 96 then 11 else if sgr =? 97 then 15
  else 0xFF.

(** One parameter of the sequence for colours and attributes. *)
Definition sgr_apply (vt p : Z) (s : vga) : option vga :=
  let p := if p <? 0 then 0 else p in
  if p =? 0 then
    s ← vga_vt_set_reverse vt false s; s ← vga_vt_set_fg_color vt 7 s; vga_vt_set_bg_color vt 0 s
  else if p =? 7 then vga_vt_set_reverse vt true s
  else if p =? 39 then vga_vt_set_fg_color vt 7 s
  else if negb (sgr_to_vga p =? 0xFF) then vga_vt_set_fg_color vt (sgr_to_vga p) s
  else Some s.

Definition param (params : list Z) (nparams i : Z) : Z :=
  let p := default 0 (params !! Z.to_nat i) in if (i <? nparams) && (0 <=? p) then p else 0.

Definition csi_apply (vt : Z) (priv : bool) (params : list Z) (nparams final : Z) (s : vga) : option vga :=
  let p0 := param params nparams 0 in
  let p1 := param params nparams 1 in
  let steps := if 0 <? p0 then p0 else 1 in
  if priv then
    if (p0 =? 25) && ((final =? 108) || (final =? 104)) then vga_vt_set_cursor_visible vt (final =? 104) s else Some s
  else if (final =? 72) || (final =? 102) then
    vga_vt_set_cursor vt (if 0 <? p1 then u16 (p1 - 1) else 0) (if 0 <? p0 then u16 (p0 - 1) else 0) s
  else if final =? 65 then vga_vt_move_cursor vt 0 (s16 (- steps)) s
  else if final =? 66 then vga_vt_move_cursor vt 0 (s16 steps) s
  else if final =? 67 then vga_vt_move_cursor vt (s16 steps) 0 s
  else if final =? 68 then vga_vt_move_cursor vt (s16 (- steps)) 0 s
  else if final =? 74 then if p0 =? 2 then vga_vt_clear vt s else vga_vt_clear_to_escreen vt s
  else if final =? 75 then if p0 =? 2 then vga_vt_clear_line vt s else vga_vt_clear_to_eol vt s
  else if final =? 109 then
    match for_ 0 nparams (λ i s, match (p ← params !! Z.to_nat i; sgr_apply vt p s) with
                                 | Some s => inl s | None => inr () end) s with
    | inl s => Some s
    | inr _ => None
    end
  else Some s.

Inductive term_mode : Type := T_NORM | T_ESC | T_CSI.

(** The local variables of [term_write]. *)
Record parser : Type := Parser { p_mode : term_mode; p_params : list Z; p_nparams : Z; p_priv : bool }.

(** What has been sent to the serial line, and the screen. *)
Record console : Type := Console { serial : list Z; screen : vga }.
Definition on_screen (f : vga → option vga) (k : console) : option console :=
  v ← f (screen k); Some (Console (serial k) v).
Definition serial_write_char (c : Z) (k : console) : console := Console (serial k ++ [u8 c]) (screen k).
Definition serial_write (str : list Z) (k : console) : console :=
  foldl (λ k c, serial_write_char c (if c =? 10 then serial_write_char 13 k else k)) k str.

Definition is_digit (c : Z) : bool := (48 <=? c) && (c <=? 57).
Definition is_letter (c : Z) : bool := ((65 <=? c) && (c <=? 90)) || ((97 <=? c) && (c <=? 122)).
Definition INT_MAX : Z := 2147483647.

(** [params[nparams] = params[nparams] * 10 + digit] *)
Definition add_digit (params : list Z) (n c : Z) : option (list Z) :=
  v ← params !! Z.to_nat n;
  let v := (if v <? 0 then 0 else v) * 10 + (c - 48) in
  if v <=? INT_MAX then Some (<[Z.to_nat n := v]> params) else None.

(** The [switch] on the mode: the new locals, and whether the byte is read again
    ([i--]). *)
Definition term_switch (vt c : Z) (p : parser) (k : console) : option (parser * bool * console) :=
  match p_mode p with
  | T_NORM =>
      if c =? ESC then Some (Parser T_ESC (p_params p) (p_nparams p) (p_priv p), false, k)
      else k ← on_screen (vga_vt_putc vt c) k; Some (p, false, k)
  | T_ESC =>
      if c =? 91 then Some (Parser T_CSI [-1; -1; -1; -1] 0 false, false, k)
      else
        k ← on_screen (vga_vt_putc vt ESC) k; k ← on_screen (vga_vt_putc vt c) k;
        Some (Parser T_NORM (p_params p) (p_nparams p) (p_priv p), false, k)
  | T_CSI =>
      if c =? 63 then Some (Parser T_CSI (p_params p) (p_nparams p) true, false, k)
      else if is_digit c then
        ps ← (if p_nparams p <? 4 then add_digit (p_params p) (p_nparams p) c else Some (p_params p));
        Some (Parser T_CSI ps (p_nparams p) (p_priv p), false, k)
      else if c =? 59 then
        Some (Parser T_CSI (p_params p) (if p_nparams p <? 3 then p_nparams p + 1 else p_nparams p) (p_priv p), false, k)
      else if is_letter c || (c =? ESC) then
        k ← (if negb (c =? ESC) then on_screen (csi_apply vt (p_priv p) (p_params p) (p_nparams p + 1) c) k else Some k);
        Some (Parser T_NORM (p_params p) (p_nparams p) (p_priv p), c =? ESC, k)
      else Some (p, false, k)
  end.

(** One round of the loop. *)
Definition term_round (has_driver : bool) (vt c : Z) (p : parser) (k : console) : option (parser * bool * console) :=
  let k := serial_write_char c k in
  if negb has_driver then Some (p, false, k) else term_switch vt c p k.

(** A byte that is read again is read in mode [T_NORM], which does not step back. *)
Fixpoint term_loop (has_driver : bool) (vt : Z) (buf : list Z) (p : parser) (k : console) : option console :=
  match buf with
  | [] => Some k
  | c :: buf =>
      '(p, again, k) ← term_round has_driver vt c p k;
      if (again : bool) then '(p, _, k) ← term_round has_driver vt c p k; term_loop has_driver vt buf p k
      else term_loop has_driver vt buf p k
  end.

(** [buf] holds the [len] characters; the value returned is [len]. *)
Definition term_write (has_driver : bool) (vt : Z) (buf : list Z) (k : console) : option (Z * console) :=
  k ← term_loop has_driver vt buf (Parser T_NORM [0; 0; 0; 0] 0 false) k; Some (Z.of_nat (length buf), k).

(** ** The language of the escape sequences *)

(** A character, an escape followed by another character, or a control sequence
    whose parameters may be left out. *)
Inductive token : Type :=
  | tok_char (c : Z)
  | tok_esc (c : Z)
  | tok_seq (priv : bool) (ps : list (option Z)) (final : Z).

Definition dec (v : Z) : list Z := (λ d, 48 + d) <$> numeral 10 10 v.
Definition render_param (p : option Z) : list Z := match p with Some v => dec v | None => [] end.
Fixpoint render_params (ps : list (option Z)) : list Z :=
  match ps with
  | [] => []
  | [p] => render_param p
  | p :: ps => render_param p ++ 59 :: render_params ps
  end.

Definition render (t : token) : list Z :=
  match t with
  | tok_char c => [c]
  | tok_esc c => [ESC; c]
  | tok_seq priv ps final => [ESC; 91] ++ (if priv then [63] else []) ++ render_params ps ++ [final]
  end.

Definition param_ok (p : option Z) : Prop := match p with Some v => 0 ≤ v ≤ INT_MAX | None => True end.
Definition token_ok (t : token) : Prop :=
  match t with
  | tok_char c => c ≠ ESC
  | tok_esc c => c ≠ 91
  | tok_seq priv ps final => (1 ≤ length ps ≤ 4)%nat ∧ Forall param_ok ps ∧ is_letter final = true
  end.

(** The parameter array: what was left out is -1. *)
Definition pad (ps : list (option Z)) : list Z := (default (-1) <$> ps) ++ replicate (4 - length ps) (-1).

Definition run_token (vt : Z) (t : token) (s : vga) : option vga :=
  match t with
  | tok_char c => vga_vt_putc vt c s
  | tok_esc c => s ← vga_vt_putc vt ESC s; vga_vt_putc vt c s
  | tok_seq priv ps final => csi_apply vt priv (pad ps) (Z.of_nat (length ps)) final s
  end.

Fixpoint run_tokens (vt : Z) (ts : list token) (s : vga) : option vga :=
  match ts with
  | [] => Some s
  | t :: ts => s ← run_token vt t s; run_tokens vt ts s
  end.

Section Tokens.
Context (vt : Z).

(** The console after [bytes] were sent. *)
Definition sent (bytes : list Z) (k : console) : console := Console (serial k ++ (u8 <$> bytes)) (screen k).

Lemma sent_nil k : sent [] k = k.
Proof. destruct k. unfold sent. simpl. by rewrite app_nil_r. Qed.
Lemma sent_app a b k : sent (a ++ b) k = sent b (sent a k).
Proof. unfold sent. simpl. by rewrite fmap_app, app_assoc. Qed.
Lemma serial_sent c k : serial_write_char c k = sent [c] k.
Proof. done. Qed.

(** One byte that is not read again. *)
Lemma loop_byte c rest p k p' k' :
  term_switch vt c p (sent [c] k) = Some (p', false, k') →
  term_loop true vt (c :: rest) p k = term_loop true vt rest p' k'.
Proof. intros E. simpl. unfold term_round. rewrite serial_sent. simpl (negb true). cbv iota. by rewrite E. Qed.

Lemma loop_digit c rest ps n v priv k :
  is_digit c = true → n < 4 → ps !! Z.to_nat n = Some v → Z.max v 0 * 10 + (c - 48) ≤ INT_MAX →
  term_loop true vt (c :: rest) (Parser T_CSI ps n priv) k =
  term_loop true vt rest (Parser T_CSI (<[Z.to_nat n := Z.max v 0 * 10 + (c - 48)]> ps) n priv) (sent [c] k).
Proof.
  intros Hc Hn Hv Hmax. apply loop_byte. unfold term_switch. cbn [p_mode p_params p_nparams p_priv].
  assert (c ≠ 63) as H63 by (unfold is_digit in Hc; lia).
  destruct (Z.eqb_spec c 63); [done|]. rewrite Hc. destruct (Z.ltb_spec n 4); [|lia].
  unfold add_digit. rewrite Hv. obind.
  replace (if v <? 0 then 0 else v) with (Z.max v 0) by (destruct (Z.ltb_spec v 0); lia).
  destruct (Z.leb_spec (Z.max v 0 * 10 + (c - 48)) INT_MAX); [done|lia].
Qed.

Lemma loop_digits ds rest ps n v priv k :
  Forall (digit 10) ds → n < 4 → ps !! Z.to_nat n = Some v → 0 ≤ v → value_from 10 v ds ≤ INT_MAX →
  term_loop true vt (((λ d, 48 + d) <$> ds) ++ rest) (Parser T_CSI ps n priv) k =
  term_loop true vt rest (Parser T_CSI (<[Z.to_nat n := value_from 10 v ds]> ps) n priv) (sent ((λ d, 48 + d) <$> ds) k).
Proof.
  intros Hd Hn. revert ps v k. induction Hd as [|d ds Hd Hds IH]; intros ps v k Hv H0 Hmax.
  - change (value_from 10 v []) with v. by rewrite fmap_nil, sent_nil, list_insert_id.
  - unfold digit in Hd. pose proof (value_from_le 10 ltac:(lia) (v * 10 + d) ds ltac:(lia) Hds) as Hle.
    change (value_from 10 v (d :: ds)) with (value_from 10 (v * 10 + d) ds) in *.
    rewrite fmap_cons, <- app_comm_cons, (loop_digit _ _ _ _ v); [|unfold is_digit; lia|done|done|lia].
    pose proof (lookup_lt_Some _ _ _ Hv) as Hlt.
    replace (Z.max v 0 * 10 + (48 + d - 48)) with (v * 10 + d) by lia.
    rewrite (IH _ (v * 10 + d)); [|by rewrite list_lookup_insert_eq|lia|done].
    rewrite list_insert_insert_eq. change (48 + d :: ((λ d, 48 + d) <$> ds)) with ([48 + d] ++ ((λ d, 48 + d) <$> ds)).
    by rewrite sent_app.
Qed.

(** One parameter: its digits, into a slot that is still empty. *)
Lemma loop_param q rest ps n priv k :
  param_ok q → n < 4 → ps !! Z.to_nat n = Some (-1) →
  term_loop true vt (render_param q ++ rest) (Parser T_CSI ps n priv) k =
  term_loop true vt rest (Parser T_CSI (<[Z.to_nat n := default (-1) q]> ps) n priv) (sent (render_param q) k).
Proof.
  intros Hq Hn Hv. destruct q as [v|]; cbn [render_param default param_ok] in *; [|by rewrite sent_nil, list_insert_id].
  unfold dec.
  pose proof (numeral_digit 10 ltac:(lia) 10 v ltac:(lia)) as Hd. pose proof (numeral_nonempty 10 10 v ltac:(lia)) as Hne.
  pose proof (numeral_value 10 ltac:(lia) 10 v) as Hval. feed Hval; [unfold INT_MAX in Hq; simpl; lia|]. unfold value in Hval.
  destruct (numeral 10 10 v) as [|d ds]; [done|]. apply Forall_cons in Hd as [Hd1 Hds]. unfold digit in Hd1.
  pose proof (lookup_lt_Some _ _ _ Hv) as Hlt.
  change (value_from 10 d ds = v) in Hval.
  pose proof (value_from_le 10 ltac:(lia) d ds ltac:(lia) Hds) as Hle.
  rewrite fmap_cons, <- app_comm_cons, (loop_digit _ _ _ _ (-1)); [|unfold is_digit; lia|done|done|unfold INT_MAX in *; lia].
  replace (Z.max (-1) 0 * 10 + (48 + d - 48)) with d by lia.
  rewrite (loop_digits _ _ _ _ d); [|done|done|by rewrite list_lookup_insert_eq|lia|lia].
  rewrite list_insert_insert_eq, Hval.
  change (48 + d :: ((λ d, 48 + d) <$> ds)) with ([48 + d] ++ ((λ d, 48 + d) <$> ds)). by rewrite sent_app.
Qed.

Lemma pad_snoc done q : (length done < 4)%nat → <[length done := default (-1) q]> (pad done) = pad (done ++ [q]).
Proof.
  intros Hl. unfold pad. rewrite fmap_app, length_app. simpl.
  replace (4 - length done)%nat with (S (4 - (length done + 1))) by lia. simpl.
  rewrite insert_app_r_alt by (rewrite length_fmap; lia). rewrite length_fmap, Nat.sub_diag. simpl. by rewrite <- app_assoc.
Qed.

Lemma pad_next done : (length done < 4)%nat → pad done !! length done = Some (-1).
Proof.
  intros Hl. unfold pad. rewrite lookup_app_r by (rewrite length_fmap; lia). rewrite length_fmap, Nat.sub_diag.
  rewrite lookup_replicate_2 by lia. done.
Qed.

Lemma loop_params q qs rest done priv k :
  Forall param_ok (q :: qs) → (length done + length (q :: qs) ≤ 4)%nat →
  term_loop true vt (render_params (q :: qs) ++ rest) (Parser T_CSI (pad done) (Z.of_nat (length done)) priv) k =
  term_loop true vt rest (Parser T_CSI (pad (done ++ q :: qs)) (Z.of_nat (length done + length qs)) priv)
    (sent (render_params (q :: qs)) k).
Proof.
  revert q done k. induction qs as [|q' qs IH]; intros q done k [Hq Hqs]%Forall_cons Hl; cbn [length] in Hl.
  - cbn [render_params]. rewrite loop_param; [|done|lia|rewrite Nat2Z.id; apply pad_next; lia].
    rewrite Nat2Z.id, pad_snoc by lia. by rewrite Nat.add_0_r.
  - change (render_params (q :: q' :: qs)) with (render_param q ++ 59 :: render_params (q' :: qs)).
    rewrite <- app_assoc, <- app_comm_cons.
    rewrite loop_param; [|done|lia|rewrite Nat2Z.id; apply pad_next; lia].
    rewrite Nat2Z.id, pad_snoc by lia.
    erewrite loop_byte; [|unfold term_switch; cbn [p_mode p_params p_nparams p_priv]; simpl; reflexivity].
    destruct (Z.ltb_spec (Z.of_nat (length done)) 3); [|lia].
    replace (Z.of_nat (length done) + 1) with (Z.of_nat (length (done ++ [q]))) by (rewrite length_app; simpl; lia).
    rewrite IH; [|done|rewrite length_app; cbn [length]; lia].
    rewrite length_app, <- app_assoc. cbn [length app]. rewrite (sent_app (render_param q)).
    change (59 :: render_params (q' :: qs)) with ([59] ++ render_params (q' :: qs)). rewrite (sent_app [59]).
    do 2 f_equal. lia.
Qed.

Definition normal (p : parser) : Prop := p_mode p = T_NORM.

(** One token leaves the parser in its normal mode. *)
Lemma loop_token t rest p k :
  token_ok t → normal p →
  ∃ p', normal p' ∧ term_loop true vt (render t ++ rest) p k =
    (s ← run_token vt t (screen k); term_loop true vt rest p' (Console (serial (sent (render t) k)) s)).
Proof.
  intros Ht Hp. unfold normal in Hp. destruct t as [c|c|priv ps final]; simpl in Ht.
  - exists p. split; [done|]. cbn [render app run_token]. destruct (vga_vt_putc vt c (screen k)) as [s|] eqn:E.
    + apply loop_byte. unfold term_switch. rewrite Hp. destruct (Z.eqb_spec c ESC); [done|].
      unfold on_screen. cbn [screen sent]. by rewrite E.
    + simpl. unfold term_round, term_switch. simpl. rewrite Hp. destruct (Z.eqb_spec c ESC); [done|].
      unfold on_screen. cbn [screen serial_write_char]. by rewrite E.
  - exists (Parser T_NORM (p_params p) (p_nparams p) (p_priv p)). split; [done|]. cbn [render app run_token].
    erewrite loop_byte; [|unfold term_switch; rewrite Hp; reflexivity].
    destruct (vga_vt_putc vt ESC (screen k)) as [s1|] eqn:E1; [destruct (vga_vt_putc vt c s1) as [s|] eqn:E|].
    + obind. rewrite E. obind. change [ESC; c] with ([ESC] ++ [c]). rewrite sent_app. apply loop_byte. unfold term_switch. cbn [p_mode].
      destruct (Z.eqb_spec c 91); [done|]. unfold on_screen. cbn [screen sent]. rewrite E1. obind. obind. cbn [screen]. by rewrite E.
    + obind. rewrite E. simpl. unfold term_round, term_switch. simpl. destruct (Z.eqb_spec c 91); [done|].
      unfold on_screen. cbn [screen serial_write_char sent]. rewrite E1. simpl. by rewrite E.
    + simpl. unfold term_round, term_switch. simpl. destruct (Z.eqb_spec c 91); [done|].
      unfold on_screen. cbn [screen serial_write_char sent]. by rewrite E1.
  - destruct Ht as (Hl & Hps & Hf). destruct ps as [|q qs]; [simpl in Hl; lia|].
    assert (final ≠ 63 ∧ is_digit final = false ∧ final ≠ 59 ∧ final ≠ ESC) as (H63 & Hdig & H59 & Hesc).
    { unfold is_letter, is_digit, ESC in *. split_and!; lia. }
    exists (Parser T_NORM (pad (q :: qs)) (Z.of_nat (length qs)) priv). split; [done|].
    assert (∀ p0 k0, term_loop true vt (render_params (q :: qs) ++ [final] ++ rest) (Parser T_CSI [-1; -1; -1; -1] 0 p0) k0 =
              (s ← csi_apply vt p0 (pad (q :: qs)) (Z.of_nat (length (q :: qs))) final (screen k0);
               term_loop true vt rest (Parser T_NORM (pad (q :: qs)) (Z.of_nat (length qs)) p0)
                 (Console (serial (sent (render_params (q :: qs) ++ [final]) k0)) s))) as Hseq.
    { intros p0 k0. change [-1; -1; -1; -1] with (pad []). change 0 with (Z.of_nat (length (@nil (option Z)))) at 1.
      rewrite loop_params by (done || (cbn [length] in *; lia)). cbn [app length Nat.add].
      replace (Z.of_nat (S (length qs))) with (Z.of_nat (length qs) + 1) by lia.
      destruct (csi_apply vt p0 (pad (q :: qs)) (Z.of_nat (length qs) + 1) final (screen k0)) as [s|] eqn:E.
      - rewrite sent_app. apply loop_byte. unfold term_switch. cbn [p_mode p_params p_nparams p_priv].
        destruct (Z.eqb_spec final 63); [done|]. rewrite Hdig. destruct (Z.eqb_spec final 59); [done|]. rewrite Hf.
        destruct (Z.eqb_spec final ESC); [done|]. simpl (negb false). cbv iota. unfold on_screen. cbn [screen sent orb]. by rewrite E.
      - simpl. unfold term_round, term_switch. cbn [p_mode p_params p_nparams p_priv negb].
        destruct (Z.eqb_spec final 63); [done|]. rewrite Hdig. destruct (Z.eqb_spec final 59); [done|]. rewrite Hf.
        destruct (Z.eqb_spec final ESC); [done|]. unfold on_screen. cbn [screen serial_write_char sent orb negb]. by rewrite E. }
    cbn [render run_token]. rewrite <- !app_assoc. cbn [app].
    erewrite loop_byte; [|unfold term_switch; rewrite Hp; reflexivity].
    erewrite loop_byte; [|unfold term_switch; reflexivity].
    destruct priv; cbn [app].
    + erewrite loop_byte; [|unfold term_switch; reflexivity]. cbn [p_params p_nparams]. rewrite (Hseq true).
      cbn [screen sent]. apply option_bind_ext_fun. intros s. do 2 f_equal. unfold sent. simpl. by rewrite !fmap_app, <- !app_assoc.
    + rewrite (Hseq false). cbn [screen sent]. apply option_bind_ext_fun. intros s. do 2 f_equal. unfold sent. simpl.
      by rewrite !fmap_app, <- !app_assoc.
Qed.

Lemma loop_tokens ts p k :
  Forall token_ok ts → normal p →
  term_loop true vt (concat (render <$> ts)) p k =
  (s ← run_tokens vt ts (screen k); Some (Console (serial (sent (concat (render <$> ts)) k)) s)).
Proof.
  intros Hts. revert p k. induction Hts as [|t ts Ht Hts IH]; intros p k Hp.
  - cbn [fmap list_fmap concat run_tokens term_loop]. obind. rewrite sent_nil. by destruct k.
  - cbn [fmap list_fmap concat run_tokens]. destruct (loop_token t (concat (render <$> ts)) p k Ht Hp) as (p' & Hp' & ->).
    destruct (run_token vt t (screen k)) as [s|]; [|done]. obind. obind. rewrite (IH p') by done. cbn [screen].
    apply option_bind_ext_fun. intros s'. do 2 f_equal. unfold sent. simpl. by rewrite fmap_app, app_assoc.
Qed.
End Tokens.

(** ** Sequences as screen operations *)

Definition sgr_ops (p : Z) : list screen_op :=
  let p := if p <? 0 then 0 else p in
  if p =? 0 then [op_set_reverse false; op_set_fg 7; op_set_bg 0]
  else if p =? 7 then [op_set_reverse true]
  else if p =? 39 then [op_set_fg 7]
  else if negb (sgr_to_vga p =? 0xFF) then [op_set_fg (sgr_to_vga p)]
  else [].

Definition csi_ops (priv : bool) (params : list Z) (nparams final : Z) : list screen_op :=
  let p0 := param params nparams 0 in
  let p1 := param params nparams 1 in
  let steps := if 0 <? p0 then p0 else 1 in
  if priv then if (p0 =? 25) && ((final =? 108) || (final =? 104)) then [op_set_visible (final =? 104)] else []
  else if (final =? 72) || (final =? 102) then
    [op_set_cursor (if 0 <? p1 then u16 (p1 - 1) else 0) (if 0 <? p0 then u16 (p0 - 1) else 0)]
  else if final =? 65 then [op_move 0 (s16 (- steps))]
  else if final =? 66 then [op_move 0 (s16 steps)]
  else if final =? 67 then [op_move (s16 steps) 0]
  else if final =? 68 then [op_move (s16 (- steps)) 0]
  else if final =? 74 then [if p0 =? 2 then op_clear else op_clear_to_escreen]
  else if final =? 75 then [if p0 =? 2 then op_clear_line else op_clear_to_eol]
  else if final =? 109 then mjoin (sgr_ops <$> take (Z.to_nat nparams) params)
  else [].

Definition token_ops (t : token) : list screen_op :=
  match t with
  | tok_char c => [op_putc c]
  | tok_esc c => [op_putc ESC; op_putc c]
  | tok_seq priv ps final => csi_ops priv (pad ps) (Z.of_nat (length ps)) final
  end.

Fixpoint run_ops (vt : Z) (os : list screen_op) (s : vga) : option vga :=
  match os with
  | [] => Some s
  | o :: os => s ← run_op vt o s; run_ops vt os s
  end.

Lemma run_ops_app vt os os' s : run_ops vt (os ++ os') s = (s ← run_ops vt os s; run_ops vt os' s).
Proof.
  revert s. induction os as [|o os IH]; intros s; simpl; [done|]. destruct (run_op vt o s) as [s1|]; [|done]. simpl. apply IH.
Qed.

Lemma bind_some_r {A} (o : option A) : (x ← o; Some x) = o.
Proof. by destruct o. Qed.

Lemma sgr_apply_ops vt p s : sgr_apply vt p s = run_ops vt (sgr_ops p) s.
Proof.
  unfold sgr_apply, sgr_ops. set (q := if p <? 0 then 0 else p).
  destruct (q =? 0).
  { cbn [run_ops run_op]. destruct (vga_vt_set_reverse vt false s) as [s1|]; [|done]. obind. obind.
    destruct (vga_vt_set_fg_color vt 7 s1) as [s2|]; [|done]. obind. obind. by rewrite bind_some_r. }
  destruct (q =? 7); [by simpl; rewrite bind_some_r|].
  destruct (q =? 39); [by simpl; rewrite bind_some_r|]. destruct (negb _); [by simpl; rewrite bind_some_r|done].
Qed.

(** The loop over the parameters of a colour sequence. *)
Lemma sgr_loop vt params n s :
  0 ≤ n ≤ Z.of_nat (length params) →
  match for_ 0 n (λ i s, match (p ← params !! Z.to_nat i; sgr_apply vt p s) with Some s => inl s | None => inr () end) s with
  | inl s => Some s | inr _ => None end =
  run_ops vt (mjoin (sgr_ops <$> take (Z.to_nat n) params)) s.
Proof.
  intros Hn. set (body := λ (i : Z) (s : vga), _).
  enough (∀ k i s, 0 ≤ i → i + Z.of_nat k = n →
            match for_ i n body s with inl s => Some s | inr _ => None end =
            run_ops vt (mjoin (sgr_ops <$> take k (drop (Z.to_nat i) params))) s) as H.
  { rewrite (H (Z.to_nat n)) by lia. done. }
  clear s. induction k as [|k IH]; intros i s Hi Hk.
  - rewrite for_end by lia. done.
  - rewrite for_unfold by lia. destruct (lookup_lt_is_Some_2 params (Z.to_nat i)) as [p Hp]; [lia|].
    rewrite (drop_S _ _ _ Hp). cbn [take fmap list_fmap mjoin list_join]. rewrite run_ops_app, <- sgr_apply_ops.
    unfold body at 1. rewrite Hp. obind. destruct (sgr_apply vt p s) as [s'|]; [|done]. obind. rewrite IH by lia.
    by replace (Z.to_nat (i + 1)) with (S (Z.to_nat i)) by lia.
Qed.

Lemma csi_apply_ops vt priv params n final s :
  0 ≤ n ≤ Z.of_nat (length params) → csi_apply vt priv params n final s = run_ops vt (csi_ops priv params n final) s.
Proof.
  intros Hn. unfold csi_apply, csi_ops. destruct priv.
  { destruct (_ && _); [|done]. simpl. by rewrite bind_some_r. }
  destruct (_ || _); [by simpl; rewrite bind_some_r|]. do 4 (destruct (final =? _); [by simpl; rewrite bind_some_r|]).
  destruct (final =? 74); [by simpl; destruct (_ =? _); simpl; rewrite bind_some_r|].
  destruct (final =? 75); [by simpl; destruct (_ =? _); simpl; rewrite bind_some_r|].
  destruct (final =? 109); [by apply sgr_loop|done].
Qed.

Lemma pad_length ps : (length ps ≤ 4)%nat → length (pad ps) = 4%nat.
Proof. intros H. unfold pad. rewrite length_app, length_fmap, length_replicate. lia. Qed.

Lemma run_token_ops vt t s : token_ok t → run_token vt t s = run_ops vt (token_ops t) s.
Proof.
  intros Ht. destruct t as [c|c|priv ps final]; simpl; [by rewrite bind_some_r| |].
  - destruct (vga_vt_putc vt ESC s); [|done]. simpl. by rewrite bind_some_r.
  - simpl in Ht. apply csi_apply_ops. rewrite pad_length; lia.
Qed.

Definition ops_grid (os : list screen_op) (g : grid) : grid := foldl (λ g o, op_grid o g) g os.

Lemma op_post_trans v g g' s s1 s2 : op_post v g s s1 → op_post v g' s1 s2 → op_post v (λ x, g' (g x)) s s2.
Proof.
  intros [Hi Hd (t & t1 & Ht & Ht1 & Hg) Ho Hh] [Hi' Hd' (u & t2 & Hu & Ht2 & Hg') Ho' Hh'].
  rewrite Ht1 in Hu. injection Hu as <-. split; [done|by rewrite Hd', Hd| | |].
  - exists t, t2. by rewrite Hg', Hg.
  - intros w Hw Hne. by rewrite Ho', Ho.
  - intros Hne. rewrite Hd in Hh'. destruct (Hh Hne) as [<- <-]. by apply Hh'.
Qed.

Lemma run_ops_spec vt os s :
  vga_ok s → 0 ≤ vt → Forall op_in_range os →
  ∃ s', run_ops vt os s = Some s' ∧ op_post (clamp_vt vt) (ops_grid os) s s'.
Proof.
  intros Hs Hv Hos. revert s Hs. induction Hos as [|o os Ho Hos IH]; intros s Hs.
  - exists s. split; [done|]. split; [done..| |done|done].
    destruct (get_vt_some s (clamp_vt vt) (go_vts _ Hs) (clamp_vt_range _ Hv)) as [t Ht]. by exists t, t.
  - destruct (screen_run_spec vt o s Hs Hv Ho) as (s1 & E & Hp). simpl. rewrite E. obind.
    destruct (IH s1 (op_inv _ _ _ _ Hp)) as (s' & E' & Hp'). exists s'. split; [done|].
    exact (op_post_trans _ _ _ _ _ _ Hp Hp').
Qed.

Lemma run_tokens_ops vt ts s : Forall token_ok ts → run_tokens vt ts s = run_ops vt (mjoin (token_ops <$> ts)) s.
Proof.
  intros Hts. revert s. induction Hts as [|t ts Ht Hts IH]; intros s; simpl; [done|].
  rewrite run_ops_app, run_token_ops by done. destruct (run_ops vt (token_ops t) s); [|done]. simpl. apply IH.
Qed.

(** Reading escape sequences: for every text made of characters, escaped characters and
    control sequences with up to four optional decimal parameters, [term_write] performs
    exactly the operations the text spells, in order, whatever the parameters (below
    2^31); it sends every byte once to the serial line and returns the length. *)
Theorem term_write_tokens vt ts k :
  Forall token_ok ts →
  term_write true vt (concat (render <$> ts)) k =
  (s ← run_ops vt (mjoin (token_ops <$> ts)) (screen k);
   Some (Z.of_nat (length (concat (render <$> ts))), Console (serial k ++ (u8 <$> concat (render <$> ts))) s)).
Proof.
  intros Hts. unfold term_write. rewrite loop_tokens by done. rewrite run_tokens_ops by done.
  by destruct (run_ops vt _ (screen k)).
Qed.

(** Terminal output refines the reference terminal: on a screen that shows its displayed
    terminal, a text whose cursor positions lie on the screen is written without a
    fault, the rows of the terminal become those of the reference operations it spells,
    and all other terminals are unchanged. *)
Theorem term_write_refines vt ts k :
  vga_ok (screen k) → 0 ≤ vt → Forall token_ok ts → Forall op_in_range (mjoin (token_ops <$> ts)) →
  ∃ s', term_write true vt (concat (render <$> ts)) k =
          Some (Z.of_nat (length (concat (render <$> ts))), Console (serial k ++ (u8 <$> concat (render <$> ts))) s') ∧
    op_post (clamp_vt vt) (ops_grid (mjoin (token_ops <$> ts))) (screen k) s'.
Proof.
  intros Hs Hv Hts Hos. destruct (run_ops_spec vt _ _ Hs Hv Hos) as (s' & E & Hp). exists s'. split; [|done].
  unfold term_write. rewrite loop_tokens, run_tokens_ops by done. by rewrite E.
Qed.

(** Well-formedness of a given text. *)
Ltac tokens_ok :=
  repeat match goal with
  | |- Forall _ (_ :: _) => apply Forall_cons; split
  | |- Forall _ [] => by apply Forall_nil
  | |- token_ok (tok_seq _ _ _) => split; [cbn [length]; lia|split; [|reflexivity]]
  | |- token_ok _ => unfold token_ok, ESC; lia
  | |- param_ok _ => unfold param_ok, INT_MAX; first [exact I | lia]
  end.

(** What a program may send to leave the screen: the cursor at row [r], then [c]. *)
Definition below_screen (r c : Z) : list token := [tok_seq false [Some r; Some 1] 72; tok_char c].

(** A program can make the kernel write outside the buffer of its terminal: the position
    in a cursor sequence is not compared with the size of the screen, so a printable
    character after a cursor position below the last row is stored past the end. *)
Theorem term_write_leaves_buffer vt r c k :
  vga_ok (screen k) → 0 ≤ vt → VGA_ROWS < r ≤ 65536 → 32 ≤ c ≤ 126 →
  term_write true vt (concat (render <$> below_screen r c)) k = None.
Proof.
  intros Hs Hv Hr Hc. unfold VGA_ROWS in Hr. unfold term_write. rewrite loop_tokens; [|unfold below_screen, VGA_ROWS in *; by tokens_ok|done].
  destruct (get_vt_some (screen k) (clamp_vt vt) (go_vts _ Hs) (clamp_vt_range _ Hv)) as [t Ht].
  cbn [run_tokens below_screen run_token]. unfold csi_apply.
  change (pad [Some r; Some 1]) with [r; 1; -1; -1]. cbn [length]. unfold param. simpl (default _ _).
  replace (0 <=? r) with true by lia. change ((0 <? Z.of_nat 2) && true) with true. change ((1 <? Z.of_nat 2) && (0 <=? 1)) with true. cbv iota.
  change ((72 =? 72) || (72 =? 102)) with true. cbv iota. replace (0 <? r) with true by lia. change (0 <? 1) with true. cbv iota.
  unfold vga_vt_set_cursor, on_vt. rewrite Ht. obind. obind. obind.
  set (t1 := set_xy _ _ t). set (s1 := with_vts _ _).
  assert (get_vt (clamp_vt vt) s1 = Some t1) as Ht1.
  { unfold get_vt. cbn [vts with_vts s1]. apply list_lookup_insert_eq. by eapply lookup_lt_Some. }
  assert (∃ s2, refresh_cursor (clamp_vt vt) s1 = Some s2 ∧ vts s2 = vts s1) as (s2 & -> & Hvts).
  { unfold refresh_cursor, vga_update_cursor. destruct (Z.eqb_spec (clamp_vt vt) (displayed_vt s1)) as [<-|]; [|by exists s1].
    rewrite Ht1. by eexists. }
  obind. unfold vga_vt_putc, vt_putc_impl, on_vt, get_vt in *. rewrite Hvts, Ht1. obind.
  unfold put_char, draw_char. replace (c =? 10) with false by lia. replace (c =? 13) with false by lia.
  replace (c =? 9) with false by lia. replace (c =? 8) with false by lia.
  unfold put_cell. replace (_ && _) with false; [done|]. symmetry. apply andb_false_iff. right. apply Z.ltb_ge.
  cbn [vt_x vt_y set_xy t1]. rewrite u16_small by lia. change (u16 (1 - 1)) with 0. unfold VGA_CELLS, VGA_COLS, VGA_ROWS in *. lia.
Qed.

(** ** Concrete texts *)

(** clear, home, red, "Hi", reset. *)
Definition demo_text : list token :=
  [tok_seq false [Some 2] 74; tok_seq false [None; None] 72; tok_seq false [Some 31] 109;
   tok_char 72; tok_char 105; tok_seq false [None] 109].
Definition demo_console : console := Console [] (demo_screen 1).

Lemma demo_text_ok : Forall token_ok demo_text.
Proof. unfold demo_text. tokens_ok. Qed.

Lemma term_write_tokens_witness :
  term_write true 2 (concat (render <$> demo_text)) demo_console =
  (s ← run_ops 2 (mjoin (token_ops <$> demo_text)) (screen demo_console);
   Some (Z.of_nat (length (concat (render <$> demo_text))),
         Console (serial demo_console ++ (u8 <$> concat (render <$> demo_text))) s)).
Proof. apply term_write_tokens. exact demo_text_ok. Defined.

Lemma term_write_refines_witness :
  ∃ s', term_write true 2 (concat (render <$> demo_text)) demo_console =
          Some (Z.of_nat (length (concat (render <$> demo_text))),
                Console (serial demo_console ++ (u8 <$> concat (render <$> demo_text))) s') ∧
    op_post (clamp_vt 2) (ops_grid (mjoin (token_ops <$> demo_text))) (screen demo_console) s'.
Proof.
  apply term_write_refines; [by apply demo_screen_ok|lia|exact demo_text_ok|].
  change (mjoin (token_ops <$> demo_text)) with
    [op_clear; op_set_cursor 0 0; op_set_fg 4; op_putc 72; op_putc 105; op_set_reverse false; op_set_fg 7; op_set_bg 0].
  repeat (apply Forall_cons; split; [by repeat split|]). apply Forall_nil. exact I.
Defined.

Lemma term_write_leaves_witness : term_write true 1 (concat (render <$> below_screen 26 88)) demo_console = None.
Proof. apply term_write_leaves_buffer; [by apply demo_screen_ok|lia|unfold VGA_ROWS; lia|lia]. Defined.

(** An escape inside a sequence starts a new one, and goes to the serial line twice. *)
Example nested_escape :
  (λ r : Z * console, serial r.2) <$> term_write true 2 [ESC; 91; 51; ESC; 91; 109] demo_console =
  Some [ESC; 91; 51; ESC; ESC; 91; 109].
Proof. vm_compute. reflexivity. Qed.

(** ** The screen behind the video stack *)

(** After registration in an empty stack every drawing call reaches the screen. *)
Lemma vga_register_spec (v : video vga) s :
  length (drivers v) = Z.to_nat VIDEO_MAX_DRIVERS → vga_raw s →
  ∃ v' s', vga_register (video_stack_init v) s = Some (true, v', s') ∧ vga_ok s' ∧ video_has_driver v' = true ∧
    (∀ c, video_putc v' c = vga_putc c) ∧ (∀ x y c, video_putc_at v' x y c = vga_putc_at x y c) ∧ video_clear v' = vga_clear ∧
    video_get_width v' = VGA_COLS ∧ video_get_height v' = VGA_ROWS.
Proof.
  intros Hl Hs. destruct (vga_init_spec s Hs) as (s' & E & Hok & _).
  assert (length (drivers (video_stack_init v)) = 8%nat) as Hl'.
  { apply (for_do_ind (λ _ l, length l = 8%nat)); [done|done|]. intros i l0 _ H0. by rewrite length_insert. }
  revert Hl'. unfold video_stack_init. cbn [drivers]. generalize (for_do 0 VIDEO_MAX_DRIVERS
    (λ (i : Z) (l : list (option (video_driver vga))), <[Z.to_nat i := None]> l) (drivers v)). intros l Hl'.
  unfold vga_register, video_stack_register. cbn [driver_count].
  change (VIDEO_MAX_DRIVERS <=? 0) with false. cbv iota. cbn [vd_init vga_driver drivers active]. rewrite E. obind.
  eexists _, s'. split; [done|]. split; [done|].
  assert (active_driver (Video (<[Z.to_nat 0 := Some vga_driver]> l) (u8 (0 + 1)) 0) = Some vga_driver) as Ha.
  { unfold active_driver. cbn [drivers active]. by rewrite list_lookup_insert_eq by (simpl; lia). }
  assert (video_has_driver (Video (<[Z.to_nat 0 := Some vga_driver]> l) (u8 (0 + 1)) 0) = true) as Hh.
  { unfold video_has_driver. by rewrite Ha. }
  unfold video_putc, video_putc_at, video_clear, video_get_width, video_get_height, through.
  rewrite !Hh, !Ha. done.
Qed.
