(* ===== verification/Debug.v ===== *)
(** The serial port and the debug output (arch/x86_64/io/serial.c, init/debug.c).

    A character of debug output goes to COM1 first and then to the screen, when a video
    driver is registered (Term.v, Screen.v).  [debug_vprintf] walks the format byte by
    byte, with the arguments as the words [va_arg] hands out; strings are read from
    memory.  [None] is a wait for the serial port that does not end, a missing argument
    or a write outside the digit buffer or the screen.  [SerialLine] is what the driver
    relies on: the line status tells when the transmitter is empty, which it becomes
    after finitely many looks, and a byte written then is sent. *)

From stdpp Require Import prelude numbers list functions.
From Stdlib Require Import ZArith Lia.
From S2P Require Import Prelude Memory Ports Digits Screen Term.

Open Scope Z_scope.

Definition COM1 : Z := 0x3F8.

(** Looks at the line status that are waited for. *)
Definition serial_fuel : positive := 18446744073709551616.

Section Debug.
Context {D : Type} `{!Ports D}.

(** ** serial.c *)

Definition serial_init (d : D) : D :=
  let d := outb (COM1 + 1) 0x00 d in
  let d := outb (COM1 + 3) 0x80 d in
  let d := outb (COM1 + 0) 0x03 d in
  let d := outb (COM1 + 1) 0x00 d in
  let d := outb (COM1 + 3) 0x03 d in
  let d := outb (COM1 + 2) 0xC7 d in
  outb (COM1 + 4) 0x0B d.

Definition transmit_empty (d : D) : bool * D :=
  let '(v, d) := inb (COM1 + 5) d in (truthy (Z.land v 0x20), d).

Definition serial_write_char (c : Z) (d : D) : option D :=
  d ← while_ serial_fuel (λ d, let '(empty, d) := transmit_empty d in if empty : bool then inr d else inl d) d;
  Some (outb COM1 (u8 c) d).

(** A newline is preceded by a carriage return. *)
Fixpoint serial_write (str : list Z) (d : D) : option D :=
  match str with
  | [] => Some d
  | c :: str =>
      d ← (if c =? 10 then serial_write_char 13 d else Some d);
      d ← serial_write_char c d;
      serial_write str d
  end.

Definition serial_received (d : D) : bool * D :=
  let '(v, d) := inb (COM1 + 5) d in (truthy (Z.land v 0x01), d).
Definition serial_read_char (d : D) : Z * D := inb COM1 d.

(** ** debug.c *)

Record dbg : Type := Dbg { db_hw : D; db_video : video vga; db_screen : vga }.

Definition debug_putc (c : Z) (st : dbg) : option dbg :=
  d ← serial_write_char c (db_hw st);
  s ← (if video_has_driver (db_video st) then video_putc (db_video st) c (db_screen st) else Some (db_screen st));
  Some (Dbg d (db_video st) s).

Definition debug_init (st : dbg) : option dbg :=
  let d := serial_init (db_hw st) in
  let v := video_stack_init (db_video st) in
  '(_, v, s) ← vga_register v (db_screen st);
  s ← video_clear v s;
  Some (Dbg d v s).

(** A string literal, and a string of the memory. *)
Fixpoint debug_text (str : list Z) (st : dbg) : option dbg :=
  match str with [] => Some st | c :: str => st ← debug_putc c st; debug_text str st end.
Definition debug_puts (m : mem) (str : Z) (st : dbg) : option dbg :=
  mjoin (while_ size_max (λ p : Z * dbg,
    if truthy (load8 m p.1) then
      match debug_putc (load8 m p.1) p.2 with Some st => inl (p.1 + 1, st) | None => inr None end
    else inr (Some p.2)) (str, st)).

Definition digit_char (upper : bool) (d : Z) : Z := if d <? 10 then 48 + d else if upper then 55 + d else 87 + d.

(** The digits in [buf], lowest first; the buffer holds 64. *)
Definition debug_digits (base : Z) (upper : bool) (value : Z) : option (list Z) :=
  mjoin (while_ 65 (λ p : list Z * Z,
    if p.2 =? 0 then inr (Some p.1)
    else if 64 <=? Z.of_nat (length p.1) then inr None
    else inl (p.1 ++ [digit_char upper (p.2 mod base)], p.2 / base)) ([], value)).

Definition debug_put_u64 (value base : Z) (upper : bool) (st : dbg) : option dbg :=
  if value =? 0 then debug_putc 48 st
  else buf ← debug_digits base upper value; debug_text (reverse buf) st.

Definition va_arg (args : list Z) : option (Z * list Z) :=
  match args with [] => None | a :: args => Some (a, args) end.

(** The characters of the conversions. *)
Definition ch_l : Z := 108.
Definition ch_z : Z := 122.
Definition ch_u : Z := 117.
Definition ch_x : Z := 120.
Definition ch_X : Z := 88.

(** One conversion: [fmt] is at the character after the percent sign and ends at the
    last character used. *)
Definition convert (m : mem) (fmt : Z) (args : list Z) (st : dbg) : option (Z * list Z * dbg) :=
  let c := load8 m fmt in
  if (c =? ch_l) || (c =? ch_z) then
    let fmt := if (c =? ch_l) && (load8 m (fmt + 1) =? ch_l) then fmt + 1 else fmt in
    let fmt := fmt + 1 in
    let k := load8 m fmt in
    if k =? ch_u then '(a, args) ← va_arg args; st ← debug_put_u64 (u64 a) 10 false st; Some (fmt, args, st)
    else if k =? ch_x then '(a, args) ← va_arg args; st ← debug_put_u64 (u64 a) 16 false st; Some (fmt, args, st)
    else if k =? ch_X then '(a, args) ← va_arg args; st ← debug_put_u64 (u64 a) 16 true st; Some (fmt, args, st)
    else st ← debug_putc 37 st; st ← debug_putc ch_l st; st ← debug_putc k st; Some (fmt, args, st)
  else if c =? 99 then '(a, args) ← va_arg args; st ← debug_putc (u8 a) st; Some (fmt, args, st)
  else if c =? 115 then
    '(a, args) ← va_arg args;
    st ← (if truthy (u64 a) then debug_puts m (u64 a) st else debug_text [40; 110; 117; 108; 108; 41] st);
    Some (fmt, args, st)
  else if c =? 100 then
    '(a, args) ← va_arg args;
    let v := s32 a in
    st ← (if v <? 0 then debug_putc 45 st else Some st);
    let v := if v <? 0 then s32 (- v) else v in
    st ← debug_put_u64 (u32 v) 10 false st;
    Some (fmt, args, st)
  else if c =? ch_u then '(a, args) ← va_arg args; st ← debug_put_u64 (u32 a) 10 false st; Some (fmt, args, st)
  else if c =? ch_x then '(a, args) ← va_arg args; st ← debug_put_u64 (u32 a) 16 false st; Some (fmt, args, st)
  else if c =? ch_X then '(a, args) ← va_arg args; st ← debug_put_u64 (u32 a) 16 true st; Some (fmt, args, st)
  else if c =? 112 then
    '(a, args) ← va_arg args;
    st ← debug_text [48; 120] st; st ← debug_put_u64 (u64 a) 16 false st; Some (fmt, args, st)
  else st ← debug_putc 37 st; st ← debug_putc c st; Some (fmt, args, st).

Definition vprintf_step (m : mem) (p : Z * list Z * dbg) : Z * list Z * dbg + option dbg :=
  let '(fmt, args, st) := p in
  let c := load8 m fmt in
  if c =? 0 then inr (Some st)
  else if negb (c =? 37) then
    match debug_putc c st with Some st => inl (fmt + 1, args, st) | None => inr None end
  else if load8 m (fmt + 1) =? 0 then inr (debug_putc 37 st)
  else
    match convert m (fmt + 1) args st with
    | Some (fmt, args, st) => inl (fmt + 1, args, st)
    | None => inr None
    end.

Definition debug_vprintf (m : mem) (fmt : Z) (args : list Z) (st : dbg) : option dbg :=
  mjoin (while_ size_max (vprintf_step m) (fmt, args, st)).
Definition debug_printf (m : mem) (fmt : Z) (args : list Z) (st : dbg) : option dbg := debug_vprintf m fmt args st.
End Debug.
Arguments dbg : clear implicits.

(** ** What the serial port promises *)

Class SerialLine (D : Type) `{!Ports D} : Type := {
  (** bytes sent, and the looks until the transmitter is empty *)
  sl_sent : D → list Z;
  sl_wait : D → Z;
  sl_wait_range d : 0 ≤ sl_wait d < Zpos serial_fuel - 1;
  sl_status d : let r := port_in8 (COM1 + 5) d in
    sl_sent r.2 = sl_sent d ∧
    if sl_wait d =? 0 then Z.testbit r.1 5 = true ∧ sl_wait r.2 = 0
    else Z.testbit r.1 5 = false ∧ sl_wait r.2 < sl_wait d;
  sl_data c d : sl_wait d = 0 → sl_sent (port_out8 COM1 c d) = sl_sent d ++ [c]
}.

Section Printing.
Context {D : Type} `{!Ports D, !SerialLine D}.

Lemma transmit_empty_spec d :
  let r := transmit_empty d in
  sl_sent r.2 = sl_sent d ∧ (if r.1 then sl_wait r.2 = 0 else sl_wait r.2 < sl_wait d).
Proof.
  unfold transmit_empty, inb. change (u16 (COM1 + 5)) with (COM1 + 5). destruct (sl_status d) as [Es Hw].
  destruct (port_in8 (COM1 + 5) d) as [v d']. cbn [fst snd] in *. split; [done|].
  change 0x20 with (2 ^ 5). rewrite truthy_land_pow2, testbit_u8 by lia.
  destruct (Z.eqb_spec (sl_wait d) 0); destruct Hw as [Eb Hw]; rewrite Eb; exact Hw.
Qed.

Lemma serial_write_char_spec c d :
  ∃ d', serial_write_char c d = Some d' ∧ sl_sent d' = sl_sent d ++ [u8 c].
Proof.
  unfold serial_write_char. pose proof (sl_wait_range d) as Hr.
  destruct (while_total (λ d', sl_sent d' = sl_sent d) sl_wait (λ d', sl_sent d' = sl_sent d ∧ sl_wait d' = 0) serial_fuel
    (λ d, let '(empty, d) := transmit_empty d in if empty : bool then inr d else inl d) d) as (d' & -> & Es & Hw); [done|lia| |].
  - intros e He. pose proof (sl_wait_range e). destruct (transmit_empty_spec e) as [E1 E2].
    destruct (transmit_empty e) as [[|] e']; cbn [fst snd] in *; split; try lia; (split; [by rewrite E1|done]).
  - obind. eexists. split; [done|]. unfold outb. change (u16 COM1) with COM1. rewrite sl_data by done. rewrite Es.
    by rewrite (u8_small (u8 c)) by apply u8_range.
Qed.

(** Every newline gets its carriage return. *)
Fixpoint crlf (str : list Z) : list Z :=
  match str with [] => [] | c :: str => (if c =? 10 then [13; 10] else [u8 c]) ++ crlf str end.

Lemma serial_write_spec str d : ∃ d', serial_write str d = Some d' ∧ sl_sent d' = sl_sent d ++ crlf str.
Proof.
  revert d. induction str as [|c str IH]; intros d; [exists d; by rewrite app_nil_r|]. cbn [serial_write crlf].
  destruct (Z.eqb_spec c 10) as [->|Hc].
  - destruct (serial_write_char_spec 13 d) as (d1 & -> & E1). obind. destruct (serial_write_char_spec 10 d1) as (d2 & -> & E2). obind.
    destruct (IH d2) as (d' & -> & E). exists d'. split; [done|]. rewrite E, E2, E1, <- !app_assoc. done.
  - obind. destruct (serial_write_char_spec c d) as (d1 & -> & E1). obind.
    destruct (IH d1) as (d' & -> & E). exists d'. split; [done|]. by rewrite E, E1, <- app_assoc.
Qed.

(** The output is in order: the screen is, and the driver in use is that of the screen. *)
Record dbg_ok (st : dbg D) : Prop := {
  do_screen : vga_ok (db_screen st);
  do_driver : video_has_driver (db_video st) = true → ∀ c, video_putc (db_video st) c = vga_putc c
}.

(** The text on the screen, character by character. *)
Fixpoint shown (l : list Z) (s : vga) : option vga :=
  match l with [] => Some s | c :: l => s ← vga_putc c s; shown l s end.

(** From [st] to [st'] the text [l] was sent, and shown when there is a screen. *)
Record printed (l : list Z) (st st' : dbg D) : Prop := {
  pr_ok : dbg_ok st';
  pr_sent : sl_sent (db_hw st') = sl_sent (db_hw st) ++ l;
  pr_video : db_video st' = db_video st;
  pr_shown : (if video_has_driver (db_video st) then shown l (db_screen st) else Some (db_screen st)) = Some (db_screen st')
}.

Lemma printed_nil st : dbg_ok st → printed [] st st.
Proof. intros H. split; [done|by rewrite app_nil_r|done|by destruct (video_has_driver _)]. Qed.

Lemma shown_app l l' s s1 : shown l s = Some s1 → shown (l ++ l') s = shown l' s1.
Proof.
  revert s. induction l as [|c l IH]; intros s; cbn [shown app]; [by intros [= ->]|].
  destruct (vga_putc c s) as [s2|]; [|done]. rewrite !bind_some. apply IH.
Qed.

Lemma printed_app l l' st1 st2 st3 : printed l st1 st2 → printed l' st2 st3 → printed (l ++ l') st1 st3.
Proof.
  intros [_ S1 V1 P1] [O2 S2 V2 P2]. split; [done|by rewrite S2, S1, app_assoc|by rewrite V2|]. rewrite V1 in P2.
  destruct (video_has_driver _); [by rewrite (shown_app _ _ _ _ P1)|]. by rewrite P1.
Qed.

Lemma vga_putc_ok c s : vga_ok s → ∃ s', vga_putc c s = Some s' ∧ vga_ok s'.
Proof.
  intros Hs. pose proof (vga_ok_pre s Hs) as [_ _ Hd _]. destruct (screen_run_spec (displayed_vt s) (op_putc c) s Hs) as (s' & E & Hp); [lia|done|].
  exists s'. split; [|apply Hp]. rewrite <- E. cbn [run_op]. unfold vga_putc, vga_vt_putc, clamp_vt.
  by rewrite (proj2 (Z.leb_gt _ _)) by lia.
Qed.

Lemma debug_putc_spec c st : dbg_ok st → 0 ≤ c < 256 → ∃ st', debug_putc c st = Some st' ∧ printed [c] st st'.
Proof.
  intros [Hs Hd] Hc. unfold debug_putc. destruct (serial_write_char_spec c (db_hw st)) as (d & -> & Es). obind. rewrite u8_small in Es by done.
  destruct (video_has_driver (db_video st)) eqn:Ev.
  - rewrite (Hd eq_refl). destruct (vga_putc_ok c _ Hs) as (s & E & Hs'). rewrite E. obind. eexists. split; [done|].
    split; [split; [exact Hs'|intros _; exact (Hd eq_refl)]|exact Es|done|]. cbn [db_video db_screen]. rewrite Ev. cbn [shown]. by rewrite E.
  - obind. eexists. split; [done|]. split; [split; [exact Hs|cbn; congruence]|exact Es|done|]. cbn [db_video db_screen]. by rewrite Ev.
Qed.

Definition is_text (l : list Z) : Prop := Forall (λ c, 0 ≤ c < 256) l.

Lemma debug_text_spec l st : dbg_ok st → is_text l → ∃ st', debug_text l st = Some st' ∧ printed l st st'.
Proof.
  intros Hs Hl. revert st Hs. induction Hl as [|c l Hc _ IH]; intros st Hs; [exists st; split; [done|by apply printed_nil]|].
  cbn [debug_text]. destruct (debug_putc_spec c st Hs Hc) as (st1 & -> & P1). obind.
  destruct (IH st1 (pr_ok _ _ _ P1)) as (st' & -> & P2). exists st'. split; [done|]. by apply (printed_app [c] l st st1).
Qed.

(** ** Numbers *)

Definition num_text (base : Z) (upper : bool) (v : Z) : list Z := digit_char upper <$> numeral base 64 v.

(** Reading a digit, and a printed number, back. *)
Definition digit_read (c : Z) : Z := if c <? 58 then c - 48 else if c <? 91 then c - 55 else c - 87.

Lemma digit_read_char upper d : 0 ≤ d < 16 → digit_read (digit_char upper d) = d.
Proof.
  intros Hd. unfold digit_char, digit_read. destruct (Z.ltb_spec d 10); [by replace (48 + d <? 58) with true by lia; lia|].
  destruct upper.
  - replace (55 + d <? 58) with false by lia. replace (55 + d <? 91) with true by lia. lia.
  - replace (87 + d <? 58) with false by lia. replace (87 + d <? 91) with false by lia. lia.
Qed.

Lemma num_text_reads base upper v : 1 < base ≤ 16 → 0 ≤ v < base ^ 64 → value base (digit_read <$> num_text base upper v) = v.
Proof.
  intros Hb Hv. unfold num_text. rewrite <- list_fmap_compose. rewrite (list_fmap_ext _ id).
  - rewrite list_fmap_id. apply numeral_value; [lia|exact Hv].
  - intros i d Hd. cbn. apply digit_read_char. assert (Forall (digit base) (numeral base 64 v)) as H by (apply numeral_digit; lia).
    rewrite Forall_lookup in H. specialize (H i d Hd). unfold digit in H. lia.
Qed.

Lemma num_text_chars base upper v : 1 < base ≤ 16 → 0 ≤ v → is_text (num_text base upper v).
Proof.
  intros Hb Hv. unfold num_text. assert (Forall (digit base) (numeral base 64 v)) as H by (apply numeral_digit; lia).
  apply Forall_fmap. revert H. apply Forall_impl. intros d Hd. unfold digit in Hd.
  cbn. unfold digit_char. destruct (d <? 10); [lia|]. destruct upper; lia.
Qed.

(** The loop of divisions fills the buffer with the digits, lowest first, and never
    overruns it. *)
Lemma debug_digits_spec base upper v :
  1 < base → 0 < v < base ^ 64 → debug_digits base upper v = Some (digit_char upper <$> digits_up base 64 v).
Proof.
  intros Hb Hv. unfold debug_digits. pose (body := λ p : list Z * Z,
    if p.2 =? 0 then inr (Some p.1) else if 64 <=? Z.of_nat (length p.1) then inr None
    else inl (A := list Z * Z) (B := option (list Z)) (p.1 ++ [digit_char upper (p.2 mod base)], p.2 / base)). fold body.
  assert (∀ k buf n, n < base ^ Z.of_nat k → 0 < n → (length buf + k = 64)%nat →
    ∃ j, (j ≤ S k)%nat ∧ iter_nat j body (buf, n) = inr (Some (buf ++ (digit_char upper <$> digits_up base k n)))) as H.
  { induction k as [|k IH]; intros buf n Hn Hp Hl; [simpl in Hn; lia|].
    rewrite Nat2Z.inj_succ, Z.pow_succ_r in Hn by lia. cbn [digits_up fmap list_fmap].
    assert (body (buf, n) = inl (buf ++ [digit_char upper (n mod base)], n / base)) as Eb.
    { unfold body. cbn [fst snd]. rewrite (proj2 (Z.eqb_neq n 0)) by lia. by rewrite (proj2 (Z.leb_gt _ _)) by lia. }
    destruct (Z.eqb_spec (n / base) 0) as [E|E].
    - exists 2%nat. split; [lia|]. cbn [iter_nat]. rewrite Eb, E. by unfold body.
    - pose proof (Z.div_pos n base ltac:(lia) ltac:(lia)).
      destruct (IH (buf ++ [digit_char upper (n mod base)]) (n / base)) as (j & Hj & Ej);
        [apply Z.div_lt_upper_bound; lia|lia|rewrite length_app; simpl; lia|].
      exists (S j). split; [lia|]. cbn [iter_nat]. rewrite Eb, Ej. by rewrite <- app_assoc. }
  destruct (H 64%nat [] v) as (j & Hj & Ej); [exact (proj2 Hv)|lia|done|].
  rewrite (while_steps j _ _ _ _ Ej) by lia. done.
Qed.

Lemma debug_put_u64_spec base upper v st :
  dbg_ok st → 1 < base ≤ 16 → 0 ≤ v < base ^ 64 →
  ∃ st', debug_put_u64 v base upper st = Some st' ∧ printed (num_text base upper v) st st'.
Proof.
  intros Hs Hb Hv. unfold debug_put_u64. destruct (Z.eqb_spec v 0) as [->|Hn].
  - replace (num_text base upper 0) with [48]; [apply debug_putc_spec; [done|lia]|].
    unfold num_text, numeral. cbn [digits_up]. rewrite Z.mod_0_l, Z.div_0_l by lia. done.
  - rewrite debug_digits_spec by lia. obind. rewrite <- fmap_reverse. apply debug_text_spec; [done|]. exact (num_text_chars base upper v Hb (proj1 Hv)).
Qed.

(** ** Formats *)

(** The length of a number's argument and its conversion. *)
Inductive len_mod : Type := len_int | len_l | len_ll | len_z.
Inductive num_conv : Type := conv_u | conv_x | conv_X.

(** The parts of a format with the values they are to show. *)
Inductive tok : Type :=
  | t_lit (c : Z)
  | t_chr (c : Z)
  | t_str (p : Z) (l : list Z)
  | t_null
  | t_dec (v : Z)
  | t_num (n : len_mod) (k : num_conv) (v : Z)
  | t_ptr (v : Z).

Definition len_chars (n : len_mod) : list Z :=
  match n with len_int => [] | len_l => [ch_l] | len_ll => [ch_l; ch_l] | len_z => [ch_z] end.
Definition conv_char (k : num_conv) : Z := match k with conv_u => ch_u | conv_x => ch_x | conv_X => ch_X end.
Definition conv_base (k : num_conv) : Z := match k with conv_u => 10 | _ => 16 end.
Definition conv_upper (k : num_conv) : bool := match k with conv_X => true | _ => false end.

Definition tok_format (t : tok) : list Z :=
  match t with
  | t_lit c => [c]
  | t_chr _ => [37; 99]
  | t_str _ _ | t_null => [37; 115]
  | t_dec _ => [37; 100]
  | t_num n k _ => 37 :: len_chars n ++ [conv_char k]
  | t_ptr _ => [37; 112]
  end.
Definition tok_args (t : tok) : list Z :=
  match t with
  | t_lit _ => []
  | t_chr v | t_num _ _ v | t_ptr v => [v]
  | t_dec v => [u64 v]
  | t_str p _ => [p]
  | t_null => [0]
  end.
Definition tok_text (t : tok) : list Z :=
  match t with
  | t_lit c | t_chr c => [c]
  | t_str _ l => l
  | t_null => [40; 110; 117; 108; 108; 41]
  | t_dec v => if v <? 0 then 45 :: num_text 10 false (- v) else num_text 10 false v
  | t_num _ k v => num_text (conv_base k) (conv_upper k) v
  | t_ptr v => [48; 120] ++ num_text 16 false v
  end.
Definition tok_ok (m : mem) (t : tok) : Prop :=
  match t with
  | t_lit c => 0 < c < 256 ∧ c ≠ 37
  | t_chr c => 0 ≤ c < 256
  | t_str p l => 0 < p < 18446744073709551616 ∧ cstr_at m p l ∧ Z.of_nat (length l) < 18446744073709551615
  | t_null => True
  | t_dec v => - 2147483648 < v < 2147483648
  | t_num len_int _ v => is_u32 v
  | t_num _ _ v | t_ptr v => is_u64 v
  end.

Lemma cstr_at_cons m p c l : cstr_at m p (c :: l) → load8 m p = c ∧ 0 < c < 256 ∧ cstr_at m (p + 1) l.
Proof.
  intros [Hc H0]. destruct (Hc 0%nat c eq_refl) as [E Hr]. rewrite Z.add_0_r in E. split; [done|]. split; [done|]. split.
  - intros i x Hi. replace (p + 1 + Z.of_nat i) with (p + Z.of_nat (S i)) by lia. by apply Hc.
  - rewrite <- H0. f_equal. simpl. lia.
Qed.

Lemma debug_puts_spec m p l st :
  dbg_ok st → cstr_at m p l → Z.of_nat (length l) < 18446744073709551615 →
  ∃ st', debug_puts m p st = Some st' ∧ printed l st st'.
Proof.
  intros Hs Hl Hn. unfold debug_puts. set (body := λ p : Z * dbg D, _).
  assert (∀ l p st, dbg_ok st → cstr_at m p l →
    ∃ st', iter_nat (S (length l)) body (p, st) = inr (Some st') ∧ printed l st st') as H.
  { clear. induction l as [|c l IH]; intros p st Hs Hl.
    - exists st. split; [|by apply printed_nil]. cbn [iter_nat length]. unfold body. cbn [fst snd].
      destruct Hl as [_ H0]. rewrite Z.add_0_r in H0. by rewrite H0.
    - destruct (cstr_at_cons m p c l Hl) as (Ec & Hc & Hl'). destruct (debug_putc_spec c st Hs) as (st1 & E1 & P1); [lia|].
      destruct (IH (p + 1) st1 (pr_ok _ _ _ P1) Hl') as (st' & E & P). exists st'. split; [|by apply (printed_app [c] l st st1)].
      cbn [length]. change (iter_nat (S (S (length l))) body (p, st)) with
        (match body (p, st) with inl s' => iter_nat (S (length l)) body s' | inr r => inr r end).
      unfold body at 1. cbn [fst snd]. rewrite Ec, E1. replace (truthy c) with true by (unfold truthy; lia). exact E. }
  destruct (H l p st Hs Hl) as (st' & E & P). exists st'. split; [|done].
  rewrite (while_steps _ _ _ _ _ E) by (unfold size_max; lia). done.
Qed.

Lemma s32_u64 v : - 2147483648 ≤ v < 2147483648 → s32 (u64 v) = v.
Proof. intros Hv. unfold s32, signed_of, u64. simpl. repeat split_if; dlia. Qed.

(** The bytes of the format before the end of the token. *)
Lemma cstr_at_byte m p l l' i c : cstr_at m p (l ++ l') → l !! i = Some c → load8 m (p + Z.of_nat i) = c.
Proof. intros [H _] Hi. apply H. by rewrite lookup_app_l by (by eapply lookup_lt_Some). Qed.

Lemma step_convert m fmt args st c fmt' args' st' :
  load8 m fmt = 37 → load8 m (fmt + 1) = c → c ≠ 0 → convert m (fmt + 1) args st = Some (fmt', args', st') →
  vprintf_step m (fmt, args, st) = inl (fmt' + 1, args', st').
Proof.
  intros E0 E1 Hc Ec. unfold vprintf_step. rewrite E0, E1, (proj2 (Z.eqb_neq c 0) Hc), Ec. done.
Qed.

#[local] Opaque debug_putc debug_text debug_puts debug_put_u64 num_text.

(** The conversions of numbers, with their length. *)
Lemma convert_num m fmt n k v args st :
  dbg_ok st → tok_ok m (t_num n k v) →
  (∀ i c, (len_chars n ++ [conv_char k]) !! i = Some c → load8 m (fmt + Z.of_nat i) = c) →
  ∃ st', convert m fmt (v :: args) st = Some (fmt + Z.of_nat (length (len_chars n)), args, st') ∧
         printed (num_text (conv_base k) (conv_upper k) v) st st'.
Proof.
  intros Hs Ht Hb. assert (0 ≤ v < conv_base k ^ 64 ∧ u64 v = v ∧ (n = len_int → u32 v = v)) as (Hv & E64 & E32).
  { assert (2 ^ 64 ≤ conv_base k ^ 64) by (destruct k; vm_compute; discriminate).
    assert (is_u64 v) as Hu by (destruct n; cbn [tok_ok] in Ht; unfold is_u32, is_u64 in *; lia). unfold is_u64 in Hu.
    split; [lia|]. split; [by apply u64_small|]. intros ->. apply u32_small. exact Ht. }
  destruct (debug_put_u64_spec (conv_base k) (conv_upper k) v st Hs) as (st' & Ep & P); [destruct k; cbn; lia|done|].
  exists st'. split; [|done]. pose proof (Hb 0%nat) as B0. pose proof (Hb 1%nat) as B1. pose proof (Hb 2%nat) as B2.
  change (Z.of_nat 0) with 0 in B0. change (Z.of_nat 1) with 1 in B1. change (Z.of_nat 2) with 2 in B2. rewrite Z.add_0_r in B0. clear Hb. unfold convert.
  destruct n; cbn [len_chars app length] in *; rewrite (B0 _ eq_refl).
  - destruct k; cbn in Ep |- *; rewrite E32, Ep by done; obind; by rewrite Z.add_0_r.
  - specialize (B1 _ eq_refl). rewrite B1. destruct k; cbn in B1, Ep |- *; rewrite B1; cbn; by rewrite E64, Ep.
  - specialize (B1 _ eq_refl). specialize (B2 _ eq_refl). rewrite B1. cbn. replace (fmt + 1 + 1) with (fmt + 2) by lia.
    rewrite B2. destruct k; cbn in Ep |- *; by rewrite E64, Ep.
  - specialize (B1 _ eq_refl). cbn. rewrite B1. destruct k; cbn in Ep |- *; by rewrite E64, Ep.
Qed.

(** The other conversions, one equation each. *)
Ltac conv := unfold ch_l, ch_z, ch_u, ch_x, ch_X; cbn [Z.eqb Pos.eqb orb va_arg]; rewrite ?bind_some; cbv beta iota zeta; reflexivity.
Lemma convert_c m fmt a args st :
  load8 m fmt = 99 → convert m fmt (a :: args) st = (st ← debug_putc (u8 a) st; Some (fmt, args, st)).
Proof. unfold convert. intros ->. conv. Qed.
Lemma convert_s m fmt a args st :
  load8 m fmt = 115 →
  convert m fmt (a :: args) st =
  (st ← (if truthy (u64 a) then debug_puts m (u64 a) st else debug_text [40; 110; 117; 108; 108; 41] st); Some (fmt, args, st)).
Proof. unfold convert. intros ->. conv. Qed.
Lemma convert_d m fmt a args st :
  load8 m fmt = 100 →
  convert m fmt (a :: args) st =
  (st ← (if s32 a <? 0 then debug_putc 45 st else Some st);
   st ← debug_put_u64 (u32 (if s32 a <? 0 then s32 (- s32 a) else s32 a)) 10 false st; Some (fmt, args, st)).
Proof. unfold convert. intros ->. conv. Qed.
Lemma convert_p m fmt a args st :
  load8 m fmt = 112 →
  convert m fmt (a :: args) st =
  (st ← debug_text [48; 120] st; st ← debug_put_u64 (u64 a) 16 false st; Some (fmt, args, st)).
Proof. unfold convert. intros ->. conv. Qed.

(** One round of the loop on a token. *)
Lemma vprintf_token m fmt t rest args st :
  dbg_ok st → tok_ok m t → cstr_at m fmt (tok_format t ++ rest) →
  ∃ st', vprintf_step m (fmt, tok_args t ++ args, st) = inl (fmt + Z.of_nat (length (tok_format t)), args, st') ∧
         printed (tok_text t) st st'.
Proof.
  intros Hs Ht Hf. pose proof (λ i c, cstr_at_byte m fmt _ rest i c Hf) as B.
  pose proof (B 0%nat) as B0. pose proof (B 1%nat) as B1. change (Z.of_nat 0) with 0 in B0. change (Z.of_nat 1) with 1 in B1. rewrite Z.add_0_r in B0.
  assert (∀ c st' text, tok_format t = [37; c] → c ≠ 0 → convert m (fmt + 1) (tok_args t ++ args) st = Some (fmt + 1, args, st') →
    tok_text t = text → printed text st st' →
    ∃ st', vprintf_step m (fmt, tok_args t ++ args, st) = inl (fmt + Z.of_nat (length (tok_format t)), args, st') ∧
           printed (tok_text t) st st') as Hconv.
  { intros c st' text Ef Hc Ec Et P. exists st'. split; [|by rewrite Et]. rewrite Ef in *.
    rewrite (step_convert m fmt _ st c (fmt + 1) args st'); [|by apply B0|by apply B1|done|done]. simpl. do 3 f_equal. lia. }
  assert (∀ v, is_u64 v → 0 ≤ v < 10 ^ 64 ∧ 0 ≤ v < 16 ^ 64) as Hpow.
  { intros v [H0 H1]. split; (split; [exact H0|]); (apply (Z.lt_trans _ _ _ H1); vm_compute; reflexivity). }
  destruct t as [c|c|p l| |v|n k v|v]; cbn [tok_ok] in Ht.
  - destruct Ht as [Hc Hc']. cbn [tok_format tok_args tok_text app] in *. unfold vprintf_step. rewrite (B0 _ eq_refl).
    rewrite (proj2 (Z.eqb_neq c 0)), (proj2 (Z.eqb_neq c 37)) by lia. cbn [negb].
    destruct (debug_putc_spec c st Hs) as (st' & -> & P); [lia|]. by exists st'.
  - destruct (debug_putc_spec c st Hs Ht) as (st' & E & P). eapply (Hconv 99 st'); [done|done| |done|exact P].
    cbn [tok_args app]. rewrite (convert_c _ _ _ _ _ (B1 99 eq_refl)), u8_small, E by done. reflexivity.
  - destruct Ht as (Hp & Hl & Hn). destruct (debug_puts_spec m p l st Hs Hl Hn) as (st' & E & P).
    eapply (Hconv 115 st'); [done|done| |done|exact P]. cbn [tok_args app]. rewrite (convert_s _ _ _ _ _ (B1 115 eq_refl)), u64_small by lia.
    replace (truthy p) with true by (unfold truthy; lia). rewrite E. reflexivity.
  - destruct (debug_text_spec [40; 110; 117; 108; 108; 41] st Hs) as (st' & E & P); [repeat constructor; lia|].
    eapply (Hconv 115 st'); [done|done| |done|exact P]. cbn [tok_args app]. rewrite (convert_s _ _ _ _ _ (B1 115 eq_refl)).
    change (truthy (u64 0)) with false. rewrite E. reflexivity.
  - assert (u32 (if v <? 0 then s32 (- v) else v) = Z.abs v) as Ev.
    { destruct (Z.ltb_spec v 0); [rewrite s32_id by lia|]; rewrite u32_small by lia; lia. }
    destruct (Hpow (Z.abs v)) as [Ha _]; [unfold is_u64; lia|].
    destruct (Z.ltb_spec v 0) as [Hv|Hv].
    + destruct (debug_putc_spec 45 st Hs) as (st1 & E1 & P1); [lia|].
      destruct (debug_put_u64_spec 10 false (Z.abs v) st1 (pr_ok _ _ _ P1)) as (st' & E & P); [lia|done|].
      eapply (Hconv 100 st'); [done|done| | |exact (printed_app _ _ _ _ _ P1 P)].
      * cbn [tok_args app]. rewrite (convert_d _ _ _ _ _ (B1 100 eq_refl)), s32_u64 by lia. rewrite (proj2 (Z.ltb_lt v 0)) by lia. rewrite E1, bind_some, Ev, E. reflexivity.
      * cbn [tok_text]. rewrite (proj2 (Z.ltb_lt v 0)) by lia. by replace (Z.abs v) with (- v) by lia.
    + destruct (debug_put_u64_spec 10 false (Z.abs v) st Hs) as (st' & E & P); [lia|done|].
      eapply (Hconv 100 st'); [done|done| | |exact P].
      * cbn [tok_args app]. rewrite (convert_d _ _ _ _ _ (B1 100 eq_refl)), s32_u64 by lia. rewrite (proj2 (Z.ltb_ge v 0)) by lia. rewrite bind_some, Ev, E. reflexivity.
      * cbn [tok_text]. rewrite (proj2 (Z.ltb_ge v 0)) by lia. by replace (Z.abs v) with v by lia.
  - destruct (convert_num m (fmt + 1) n k v args st Hs Ht) as (st' & E & P).
    { intros i c Hi. replace (fmt + 1 + Z.of_nat i) with (fmt + Z.of_nat (S i)) by lia. by apply B. }
    exists st'. split; [|done]. assert (∃ c, (len_chars n ++ [conv_char k]) !! 0%nat = Some c ∧ c ≠ 0) as (c & Ec & Hc).
    { destruct n, k; eexists; (split; [reflexivity|done]). }
    cbn [tok_args app]. rewrite (step_convert m fmt _ st c _ _ _ (B0 _ eq_refl) (B1 c Ec) Hc E). do 3 f_equal.
    cbn [tok_format length]. rewrite length_app. cbn [length]. lia.
  - destruct (Hpow v Ht) as [_ Hv]. destruct (debug_text_spec [48; 120] st Hs) as (st1 & E1 & P1); [repeat constructor; lia|].
    destruct (debug_put_u64_spec 16 false v st1 (pr_ok _ _ _ P1)) as (st' & E & P); [lia|done|].
    eapply (Hconv 112 st'); [done|done| |done|exact (printed_app _ _ _ _ _ P1 P)].
    cbn [tok_args app]. rewrite (convert_p _ _ _ _ _ (B1 112 eq_refl)), E1, bind_some, (u64_small v), E by exact Ht. reflexivity.
Qed.

Lemma vprintf_tokens m ts fmt rest st :
  dbg_ok st → Forall (tok_ok m) ts → cstr_at m fmt (concat (tok_format <$> ts)) →
  ∃ st', iter_nat (S (length ts)) (vprintf_step m) (fmt, concat (tok_args <$> ts) ++ rest, st) = inr (Some st') ∧
         printed (concat (tok_text <$> ts)) st st'.
Proof.
  intros Hs Ht. revert fmt st Hs. induction Ht as [|t ts Ht _ IH]; intros fmt st Hs Hf.
  - exists st. split; [|by apply printed_nil]. destruct Hf as [_ H0]. cbn in H0. rewrite Z.add_0_r in H0. cbn [iter_nat length vprintf_step].
    by rewrite H0.
  - cbn [fmap list_fmap concat] in *. rewrite <- app_assoc.
    destruct (vprintf_token m fmt t (concat (tok_format <$> ts)) (concat (tok_args <$> ts) ++ rest) st Hs Ht Hf) as (st1 & E1 & P1).
    destruct (IH (fmt + Z.of_nat (length (tok_format t))) st1 (pr_ok _ _ _ P1)) as (st' & E & P).
    { destruct Hf as [Hc H0]. split.
      - intros i c Hi. rewrite <- Z.add_assoc, <- Nat2Z.inj_add. apply Hc. by rewrite lookup_app_r, Nat.add_comm, Nat.add_sub by lia.
      - rewrite length_app in H0. rewrite <- H0. f_equal. lia. }
    exists st'. split; [|by apply (printed_app _ _ st st1)]. cbn [length].
    change (iter_nat (S (S (length ts))) (vprintf_step m) (fmt, tok_args t ++ concat (tok_args <$> ts) ++ rest, st)) with
      (match vprintf_step m (fmt, tok_args t ++ concat (tok_args <$> ts) ++ rest, st) with
       | inl s' => iter_nat (S (length ts)) (vprintf_step m) s' | inr r => inr r end).
    rewrite E1. exact E.
Qed.


(** A doubled percent sign is printed doubled: no conversion stands for one. *)
Theorem percent_percent_doubled m fmt st :
  dbg_ok st → cstr_at m fmt [37; 37] → ∃ st', debug_printf m fmt [] st = Some st' ∧ printed [37; 37] st st'.
Proof.
  intros Hs Hf. destruct (cstr_at_cons _ _ _ _ Hf) as (E0 & _ & Hf1). destruct (cstr_at_cons _ _ _ _ Hf1) as (E1 & _ & _ & E2).
  cbn in E2. rewrite Z.add_0_r in E2. destruct (debug_putc_spec 37 st Hs) as (st1 & C1 & P1); [lia|].
  destruct (debug_putc_spec 37 st1 (pr_ok _ _ _ P1)) as (st' & C2 & P2); [lia|]. exists st'. split; [|by apply (printed_app [37] [37] st st1)].
  unfold debug_printf, debug_vprintf. rewrite (while_steps 2 _ _ _ (Some st')); [done| |unfold size_max; lia].
  cbn [iter_nat]. rewrite (step_convert m fmt [] st 37 (fmt + 1) [] st' E0 E1); [|done|].
  - unfold vprintf_step. by rewrite E2.
  - unfold convert. rewrite E1. cbn. by rewrite C1, bind_some, C2.
Qed.
End Printing.

(** ** A port that is busy for one look after every byte *)

Record uart : Type := Uart { ua_sent : list Z; ua_busy : bool }.
#[local] Program Instance uart_ports : Ports uart := {|
  port_in8 p d := if p =? COM1 + 5 then (if ua_busy d then 0 else 0x20, Uart (ua_sent d) false) else (0xFF, d);
  port_out8 p v d := if p =? COM1 then Uart (ua_sent d ++ [v]) true else d;
  port_in16 _ d := (0xFFFF, d); port_out16 _ _ d := d; port_in32 _ d := (0xFFFFFFFF, d); port_out32 _ _ d := d
|}.
#[local] Program Instance uart_line : SerialLine uart := {|
  sl_sent := ua_sent; sl_wait d := if ua_busy d then 1 else 0
|}.
Next Obligation. intros d. unfold serial_fuel. destruct (ua_busy d); lia. Qed.
Next Obligation. intros [l [|]]; by vm_compute. Qed.
Next Obligation. intros c [l b] _. reflexivity. Qed.

(** The string "ok" at 200 and the format "%d: %s" at 100. *)
Definition demo_format (a : Z) : Z :=
  if a =? 100 then 37 else if a =? 101 then 100 else if a =? 102 then 58 else if a =? 103 then 32
  else if a =? 104 then 37 else if a =? 105 then 115
  else if a =? 200 then 111 else if a =? 201 then 107 else 0.
Definition demo_toks : list tok := [t_dec (-42); t_lit 58; t_lit 32; t_str 200 [111; 107]].
Definition demo_dbg : dbg uart := Dbg (Uart [] false) (Video [Some vga_driver] 1 0) (demo_screen 0).

