(* ===== verification/Bytes.v ===== *)
(** Bounded byte buffers and their little-endian fields.

    A buffer is read through an accessor: [get o] is the byte at offset [o], or
    [None] outside the buffer.  [byte_at] is the accessor of a list of bytes.
    The multi-byte readers stand for [k_le32]/[k_le64] of mem/lib/memory.h and
    for field accesses of packed little-endian structures. *)

From stdpp Require Import prelude numbers list.
From Stdlib Require Import ZArith Lia.
From S2P Require Import Prelude.

Open Scope Z_scope.

Definition byte_at (l : list Z) (i : Z) : option Z := if i <? 0 then None else l !! Z.to_nat i.

Section Fields.
Context (get : Z → option Z).

Definition le16_of (o : Z) : option Z :=
  b0 ← get o; b1 ← get (o + 1); Some (u16 (Z.lor b0 (Z.shiftl b1 8))).
Definition le32_of (o : Z) : option Z :=
  b0 ← get o; b1 ← get (o + 1); b2 ← get (o + 2); b3 ← get (o + 3);
  Some (u32 (Z.lor (Z.lor (Z.lor b0 (Z.shiftl b1 8)) (Z.shiftl b2 16)) (Z.shiftl b3 24))).
Definition le64_of (o : Z) : option Z :=
  lo ← le32_of o; hi ← le32_of (o + 4); Some (u64 (Z.lor lo (Z.shiftl hi 32))).

(** The accessor covers the offsets below [size]. *)
Definition covers (size : Z) : Prop := ∀ o, 0 ≤ o < size → is_Some (get o).

Lemma le16_of_some size o :
  covers size → 0 ≤ o → o + 2 ≤ size → ∃ v, le16_of o = Some v ∧ 0 ≤ v < 65536.
Proof.
  intros Hc Ho Hs. unfold le16_of.
  destruct (Hc o ltac:(lia)) as [b0 ->], (Hc (o + 1) ltac:(lia)) as [b1 ->].
  eexists. split; [reflexivity|]. apply u16_range.
Qed.

Lemma le32_of_some size o :
  covers size → 0 ≤ o → o + 4 ≤ size → ∃ v, le32_of o = Some v ∧ 0 ≤ v < 4294967296.
Proof.
  intros Hc Ho Hs. unfold le32_of.
  destruct (Hc o ltac:(lia)) as [b0 ->], (Hc (o + 1) ltac:(lia)) as [b1 ->],
    (Hc (o + 2) ltac:(lia)) as [b2 ->], (Hc (o + 3) ltac:(lia)) as [b3 ->].
  eexists. split; [reflexivity|]. apply u32_range.
Qed.

Lemma le64_of_some size o :
  covers size → 0 ≤ o → o + 8 ≤ size → ∃ v, le64_of o = Some v ∧ is_u64 v.
Proof.
  intros Hc Ho Hs. unfold le64_of.
  destruct (le32_of_some size o Hc ltac:(lia) ltac:(lia)) as (lo & -> & _),
    (le32_of_some size (o + 4) Hc ltac:(lia) ltac:(lia)) as (hi & -> & _).
  eexists. split; [reflexivity|]. apply u64_range.
Qed.
End Fields.

Notation le16_at l := (le16_of (byte_at l)).
Notation le32_at l := (le32_of (byte_at l)).
Notation le64_at l := (le64_of (byte_at l)).

Lemma byte_at_covers l : covers (byte_at l) (Z.of_nat (length l)).
Proof.
  intros o Ho. unfold byte_at. replace (o <? 0) with false by lia. apply lookup_lt_is_Some. lia.
Qed.

Lemma byte_at_some l i : 0 ≤ i < Z.of_nat (length l) → ∃ v, byte_at l i = Some v.
Proof. intros Hi. by destruct (byte_at_covers l i Hi) as [v ->]; exists v. Qed.

Lemma byte_at_range l i v : Forall is_u8 l → byte_at l i = Some v → is_u8 v.
Proof.
  unfold byte_at. destruct (i <? 0); [done|]. intros Hf Hl. by apply (Forall_lookup_1 _ _ _ _ Hf Hl).
Qed.
