(* ===== verification/Pcb.v ===== *)
(** Process control blocks (process/process.h, arch/x86_64/inter/isr.h).

    A [process_t] is a record with the fields of the C struct in their order; a
    pointer to one is its address ([0] is the null pointer) and the blocks live
    in a store from addresses to records.  A read or write through a pointer
    that is not in the store is [None]: a null, wild or freed pointer.  The
    [set_*] functions are field assignments. *)

From stdpp Require Import prelude numbers list gmap.
From Stdlib Require Import ZArith Lia.
From S2P Require Import Prelude.

Open Scope Z_scope.

Definition PROCESS_NAME_MAX : Z := 32.
Definition PROCESS_USER_STACK_SIZE : Z := 256 * 1024.
Definition PROCESS_USER_STACK_TOP : Z := 0x4000000000.
Definition PROCESS_MMAP_START : Z := 0x1000000000.
Definition PROCESS_MAX_FDS : Z := 16.
Definition PROCESS_PATH_MAX : Z := 128.

(** The interrupt frame: general registers and what [iretq] pops (isr.h). *)
Record registers : Type := Registers {
  r_rax : Z;
  r_rbx : Z;
  r_rcx : Z;
  r_rdx : Z;
  r_rsi : Z;
  r_rdi : Z;
  r_rbp : Z;
  r_r8 : Z;
  r_r9 : Z;
  r_r10 : Z;
  r_r11 : Z;
  r_r12 : Z;
  r_r13 : Z;
  r_r14 : Z;
  r_r15 : Z;
  r_int_no : Z;
  r_err_code : Z;
  r_rip : Z;
  r_cs : Z;
  r_rflags : Z;
  r_user_rsp : Z;
  r_ss : Z
}.

Definition set_r_rax (v : Z) (x : registers) : registers :=
    Registers v (r_rbx x) (r_rcx x) (r_rdx x) (r_rsi x) (r_rdi x) (r_rbp x) (r_r8 x) (r_r9 x)
    (r_r10 x) (r_r11 x) (r_r12 x) (r_r13 x) (r_r14 x) (r_r15 x) (r_int_no x) (r_err_code x)
    (r_rip x) (r_cs x) (r_rflags x) (r_user_rsp x) (r_ss x).
Definition set_r_rip (v : Z) (x : registers) : registers :=
    Registers (r_rax x) (r_rbx x) (r_rcx x) (r_rdx x) (r_rsi x) (r_rdi x) (r_rbp x) (r_r8 x)
    (r_r9 x) (r_r10 x) (r_r11 x) (r_r12 x) (r_r13 x) (r_r14 x) (r_r15 x) (r_int_no x)
    (r_err_code x) v (r_cs x) (r_rflags x) (r_user_rsp x) (r_ss x).
Definition set_r_rflags (v : Z) (x : registers) : registers :=
    Registers (r_rax x) (r_rbx x) (r_rcx x) (r_rdx x) (r_rsi x) (r_rdi x) (r_rbp x) (r_r8 x)
    (r_r9 x) (r_r10 x) (r_r11 x) (r_r12 x) (r_r13 x) (r_r14 x) (r_r15 x) (r_int_no x)
    (r_err_code x) (r_rip x) (r_cs x) v (r_user_rsp x) (r_ss x).
Definition set_r_user_rsp (v : Z) (x : registers) : registers :=
    Registers (r_rax x) (r_rbx x) (r_rcx x) (r_rdx x) (r_rsi x) (r_rdi x) (r_rbp x) (r_r8 x)
    (r_r9 x) (r_r10 x) (r_r11 x) (r_r12 x) (r_r13 x) (r_r14 x) (r_r15 x) (r_int_no x)
    (r_err_code x) (r_rip x) (r_cs x) (r_rflags x) v (r_ss x).

(** An open file: its path (characters before the terminator) and read offset. *)
Record proc_file : Type := ProcFile {
  f_path : list Z;
  f_offset : Z;
  f_open : bool
}.

Definition set_f_path (v : list Z) (x : proc_file) : proc_file :=
    ProcFile v (f_offset x) (f_open x).
Definition set_f_offset (v : Z) (x : proc_file) : proc_file :=
    ProcFile (f_path x) v (f_open x).
Definition set_f_open (v : bool) (x : proc_file) : proc_file :=
    ProcFile (f_path x) (f_offset x) v.

Inductive process_state : Type := PROC_READY | PROC_RUNNING | PROC_BLOCKED | PROC_ZOMBIE.

#[export] Instance process_state_eq_dec : EqDecision process_state.
Proof. solve_decision. Defined.

(** [process_t]. *)
Record pcb : Type := Pcb {
  p_pid : Z;
  p_name : list Z;
  p_state : process_state;
  p_cpu : Z;
  p_cr3 : Z;
  p_ticks : Z;
  p_fs_base : Z;
  p_mmap_cursor : Z;
  p_files : list proc_file;
  p_kernel_stack_top : Z;
  p_saved_kernel_rsp : Z;
  p_user_rsp : Z;
  p_exit_status : Z;
  p_waiting : bool;
  p_parent : Z;
  p_children : Z;
  p_next_sibling : Z;
  p_vt : Z;
  p_terminate : bool;
  p_blocked : bool;
  p_ctx : registers;
  p_next : Z
}.

Definition set_p_state (v : process_state) (x : pcb) : pcb :=
    Pcb (p_pid x) (p_name x) v (p_cpu x) (p_cr3 x) (p_ticks x) (p_fs_base x) (p_mmap_cursor x)
    (p_files x) (p_kernel_stack_top x) (p_saved_kernel_rsp x) (p_user_rsp x) (p_exit_status x)
    (p_waiting x) (p_parent x) (p_children x) (p_next_sibling x) (p_vt x) (p_terminate x)
    (p_blocked x) (p_ctx x) (p_next x).
Definition set_p_cpu (v : Z) (x : pcb) : pcb :=
    Pcb (p_pid x) (p_name x) (p_state x) v (p_cr3 x) (p_ticks x) (p_fs_base x) (p_mmap_cursor x)
    (p_files x) (p_kernel_stack_top x) (p_saved_kernel_rsp x) (p_user_rsp x) (p_exit_status x)
    (p_waiting x) (p_parent x) (p_children x) (p_next_sibling x) (p_vt x) (p_terminate x)
    (p_blocked x) (p_ctx x) (p_next x).
Definition set_p_cr3 (v : Z) (x : pcb) : pcb :=
    Pcb (p_pid x) (p_name x) (p_state x) (p_cpu x) v (p_ticks x) (p_fs_base x) (p_mmap_cursor x)
    (p_files x) (p_kernel_stack_top x) (p_saved_kernel_rsp x) (p_user_rsp x) (p_exit_status x)
    (p_waiting x) (p_parent x) (p_children x) (p_next_sibling x) (p_vt x) (p_terminate x)
    (p_blocked x) (p_ctx x) (p_next x).
Definition set_p_ticks (v : Z) (x : pcb) : pcb :=
    Pcb (p_pid x) (p_name x) (p_state x) (p_cpu x) (p_cr3 x) v (p_fs_base x) (p_mmap_cursor x)
    (p_files x) (p_kernel_stack_top x) (p_saved_kernel_rsp x) (p_user_rsp x) (p_exit_status x)
    (p_waiting x) (p_parent x) (p_children x) (p_next_sibling x) (p_vt x) (p_terminate x)
    (p_blocked x) (p_ctx x) (p_next x).
Definition set_p_fs_base (v : Z) (x : pcb) : pcb :=
    Pcb (p_pid x) (p_name x) (p_state x) (p_cpu x) (p_cr3 x) (p_ticks x) v (p_mmap_cursor x)
    (p_files x) (p_kernel_stack_top x) (p_saved_kernel_rsp x) (p_user_rsp x) (p_exit_status x)
    (p_waiting x) (p_parent x) (p_children x) (p_next_sibling x) (p_vt x) (p_terminate x)
    (p_blocked x) (p_ctx x) (p_next x).
Definition set_p_mmap_cursor (v : Z) (x : pcb) : pcb :=
    Pcb (p_pid x) (p_name x) (p_state x) (p_cpu x) (p_cr3 x) (p_ticks x) (p_fs_base x) v
    (p_files x) (p_kernel_stack_top x) (p_saved_kernel_rsp x) (p_user_rsp x) (p_exit_status x)
    (p_waiting x) (p_parent x) (p_children x) (p_next_sibling x) (p_vt x) (p_terminate x)
    (p_blocked x) (p_ctx x) (p_next x).
Definition set_p_files (v : list proc_file) (x : pcb) : pcb :=
    Pcb (p_pid x) (p_name x) (p_state x) (p_cpu x) (p_cr3 x) (p_ticks x) (p_fs_base x)
    (p_mmap_cursor x) v (p_kernel_stack_top x) (p_saved_kernel_rsp x) (p_user_rsp x)
    (p_exit_status x) (p_waiting x) (p_parent x) (p_children x) (p_next_sibling x) (p_vt x)
    (p_terminate x) (p_blocked x) (p_ctx x) (p_next x).
Definition set_p_kernel_stack_top (v : Z) (x : pcb) : pcb :=
    Pcb (p_pid x) (p_name x) (p_state x) (p_cpu x) (p_cr3 x) (p_ticks x) (p_fs_base x)
    (p_mmap_cursor x) (p_files x) v (p_saved_kernel_rsp x) (p_user_rsp x) (p_exit_status x)
    (p_waiting x) (p_parent x) (p_children x) (p_next_sibling x) (p_vt x) (p_terminate x)
    (p_blocked x) (p_ctx x) (p_next x).
Definition set_p_saved_kernel_rsp (v : Z) (x : pcb) : pcb :=
    Pcb (p_pid x) (p_name x) (p_state x) (p_cpu x) (p_cr3 x) (p_ticks x) (p_fs_base x)
    (p_mmap_cursor x) (p_files x) (p_kernel_stack_top x) v (p_user_rsp x) (p_exit_status x)
    (p_waiting x) (p_parent x) (p_children x) (p_next_sibling x) (p_vt x) (p_terminate x)
    (p_blocked x) (p_ctx x) (p_next x).
Definition set_p_exit_status (v : Z) (x : pcb) : pcb :=
    Pcb (p_pid x) (p_name x) (p_state x) (p_cpu x) (p_cr3 x) (p_ticks x) (p_fs_base x)
    (p_mmap_cursor x) (p_files x) (p_kernel_stack_top x) (p_saved_kernel_rsp x) (p_user_rsp x) v
    (p_waiting x) (p_parent x) (p_children x) (p_next_sibling x) (p_vt x) (p_terminate x)
    (p_blocked x) (p_ctx x) (p_next x).
Definition set_p_waiting (v : bool) (x : pcb) : pcb :=
    Pcb (p_pid x) (p_name x) (p_state x) (p_cpu x) (p_cr3 x) (p_ticks x) (p_fs_base x)
    (p_mmap_cursor x) (p_files x) (p_kernel_stack_top x) (p_saved_kernel_rsp x) (p_user_rsp x)
    (p_exit_status x) v (p_parent x) (p_children x) (p_next_sibling x) (p_vt x) (p_terminate x)
    (p_blocked x) (p_ctx x) (p_next x).
Definition set_p_parent (v : Z) (x : pcb) : pcb :=
    Pcb (p_pid x) (p_name x) (p_state x) (p_cpu x) (p_cr3 x) (p_ticks x) (p_fs_base x)
    (p_mmap_cursor x) (p_files x) (p_kernel_stack_top x) (p_saved_kernel_rsp x) (p_user_rsp x)
    (p_exit_status x) (p_waiting x) v (p_children x) (p_next_sibling x) (p_vt x) (p_terminate x)
    (p_blocked x) (p_ctx x) (p_next x).
Definition set_p_children (v : Z) (x : pcb) : pcb :=
    Pcb (p_pid x) (p_name x) (p_state x) (p_cpu x) (p_cr3 x) (p_ticks x) (p_fs_base x)
    (p_mmap_cursor x) (p_files x) (p_kernel_stack_top x) (p_saved_kernel_rsp x) (p_user_rsp x)
    (p_exit_status x) (p_waiting x) (p_parent x) v (p_next_sibling x) (p_vt x) (p_terminate x)
    (p_blocked x) (p_ctx x) (p_next x).
Definition set_p_next_sibling (v : Z) (x : pcb) : pcb :=
    Pcb (p_pid x) (p_name x) (p_state x) (p_cpu x) (p_cr3 x) (p_ticks x) (p_fs_base x)
    (p_mmap_cursor x) (p_files x) (p_kernel_stack_top x) (p_saved_kernel_rsp x) (p_user_rsp x)
    (p_exit_status x) (p_waiting x) (p_parent x) (p_children x) v (p_vt x) (p_terminate x)
    (p_blocked x) (p_ctx x) (p_next x).
Definition set_p_vt (v : Z) (x : pcb) : pcb :=
    Pcb (p_pid x) (p_name x) (p_state x) (p_cpu x) (p_cr3 x) (p_ticks x) (p_fs_base x)
    (p_mmap_cursor x) (p_files x) (p_kernel_stack_top x) (p_saved_kernel_rsp x) (p_user_rsp x)
    (p_exit_status x) (p_waiting x) (p_parent x) (p_children x) (p_next_sibling x) v
    (p_terminate x) (p_blocked x) (p_ctx x) (p_next x).
Definition set_p_terminate (v : bool) (x : pcb) : pcb :=
    Pcb (p_pid x) (p_name x) (p_state x) (p_cpu x) (p_cr3 x) (p_ticks x) (p_fs_base x)
    (p_mmap_cursor x) (p_files x) (p_kernel_stack_top x) (p_saved_kernel_rsp x) (p_user_rsp x)
    (p_exit_status x) (p_waiting x) (p_parent x) (p_children x) (p_next_sibling x) (p_vt x) v
    (p_blocked x) (p_ctx x) (p_next x).
Definition set_p_blocked (v : bool) (x : pcb) : pcb :=
    Pcb (p_pid x) (p_name x) (p_state x) (p_cpu x) (p_cr3 x) (p_ticks x) (p_fs_base x)
    (p_mmap_cursor x) (p_files x) (p_kernel_stack_top x) (p_saved_kernel_rsp x) (p_user_rsp x)
    (p_exit_status x) (p_waiting x) (p_parent x) (p_children x) (p_next_sibling x) (p_vt x)
    (p_terminate x) v (p_ctx x) (p_next x).
Definition set_p_ctx (v : registers) (x : pcb) : pcb :=
    Pcb (p_pid x) (p_name x) (p_state x) (p_cpu x) (p_cr3 x) (p_ticks x) (p_fs_base x)
    (p_mmap_cursor x) (p_files x) (p_kernel_stack_top x) (p_saved_kernel_rsp x) (p_user_rsp x)
    (p_exit_status x) (p_waiting x) (p_parent x) (p_children x) (p_next_sibling x) (p_vt x)
    (p_terminate x) (p_blocked x) v (p_next x).
Definition set_p_next (v : Z) (x : pcb) : pcb :=
    Pcb (p_pid x) (p_name x) (p_state x) (p_cpu x) (p_cr3 x) (p_ticks x) (p_fs_base x)
    (p_mmap_cursor x) (p_files x) (p_kernel_stack_top x) (p_saved_kernel_rsp x) (p_user_rsp x)
    (p_exit_status x) (p_waiting x) (p_parent x) (p_children x) (p_next_sibling x) (p_vt x)
    (p_terminate x) (p_blocked x) (p_ctx x) v.
