(* ===== verification/SysText.v ===== *)
(** The text the listing system calls build (arch/x86_64/syscall/syscall_dispatch.c).

    [user_ptr_ok] is the check of a user pointer.  [list_append] and [ps_append] are
    the callbacks of SYS_LIST_DIR and SYS_PS: each builds one line in a local array,
    always at its end, and copies it to the caller's buffer as long as that has
    room.  A local array is the list of the bytes stored so far and [None] is a
    store beyond its size; the caller's buffer is the list of the bytes stored so far,
    whose room the C code computes in 32 bits.

    The theorems say which text arrives, that it stays inside the buffer, and when
    it does not. *)

From stdpp Require Import prelude numbers list strings.
From Stdlib Require Import ZArith Lia Ascii.
From S2P Require Import Prelude Digits Paging Pcb.

Open Scope Z_scope.

Definition USER_MIN : Z := PAGING_USER_BASE.
Definition USER_MAX : Z := PROCESS_USER_STACK_TOP.

Definition user_ptr_ok (ptr len : Z) : bool :=
  (USER_MIN <=? ptr) && (ptr <? USER_MAX) && (len <=? 0x1000000000) && (u64 (ptr + len) <? USER_MAX).

(** [line[n++] = c] in an array of [cap] bytes. *)
Definition line_put (cap c : Z) (l : list Z) : option (list Z) :=
  if Z.of_nat (length l) <? cap then Some (l ++ [c]) else None.

(** [for (p = cs; *p && n < stop; p++) line[n++] = *p;] *)
Fixpoint line_text (cap stop : Z) (cs l : list Z) : option (list Z) :=
  match cs with
  | [] => Some l
  | c :: cs => if Z.of_nat (length l) <? stop then l ← line_put cap c l; line_text cap stop cs l else Some l
  end.

(** [while (n < stop) line[n++] = ' ';] *)
Fixpoint line_spaces (cap : Z) (k : nat) (l : list Z) : option (list Z) :=
  match k with
  | O => Some l
  | S k => l ← line_put cap 32 l; line_spaces cap k l
  end.
Definition line_pad (cap stop : Z) (l : list Z) : option (list Z) :=
  line_spaces cap (Z.to_nat (stop - Z.of_nat (length l))) l.

(** The exchange loop [for (i = lo, j = n - 1; i < j; i++, j--)]. *)
Fixpoint swap_ends (fuel i j : nat) (l : list Z) : list Z :=
  match fuel with
  | O => l
  | S fuel =>
      if (i <? j)%nat then
        match l !! i, l !! j with
        | Some a, Some b => swap_ends fuel (S i) (j - 1) (<[j := a]> (<[i := b]> l))
        | _, _ => l
        end
      else l
  end.

(** [line[i]] for [i < n && used < size - 1] is moved to [buf[used++]]. *)
Fixpoint copy_out (limit : Z) (line text : list Z) : list Z :=
  match line with
  | [] => text
  | c :: line => if Z.of_nat (length text) <? limit then copy_out limit line (text ++ [c]) else text
  end.

(** [list_buf_t] and [ps_buf_t]: [used] is the length of the text. *)
Record list_buf : Type := ListBuf { lb_size : Z; lb_text : list Z }.

(** [for (i < n && lb->used < lb->size - 1)], the bound in [uint32_t]. *)
Definition append_line (line : list Z) (lb : list_buf) : list_buf :=
  ListBuf (lb_size lb) (copy_out (u32 (lb_size lb - 1)) line (lb_text lb)).

(** The digits in [tmp], lowest first, are stored from the last one back. *)
Fixpoint line_digits (cap : Z) (ds l : list Z) : option (list Z) :=
  match ds with
  | [] => Some l
  | d :: ds => l ← line_put cap (48 + d) l; line_digits cap ds l
  end.

Definition list_append (name : list Z) (size : Z) (is_dir : bool) (lb : list_buf) : option list_buf :=
  line ← line_text 96 64 name [];
  line ← (if is_dir then line_put 96 47 line else Some line);
  line ← line_pad 96 48 line;
  line ← line_digits 96 (reverse (digits_up 10 16 size)) line;
  line ← line_put 96 10 line;
  Some (append_line line lb).

(** [buf.size = len > 0 ? len - 1 : 0] *)
Definition fresh_buf (len : Z) : list_buf := ListBuf (u32 (if 0 <? len then len - 1 else 0)) [].

Fixpoint list_entries (es : list (list Z * Z * bool)) (lb : list_buf) : option list_buf :=
  match es with
  | [] => Some lb
  | (name, size, is_dir) :: es => lb ← list_append name size is_dir lb; list_entries es lb
  end.

(** A number at position [from]: digits lowest first, at most up to column [stop], then
    exchanged into place. *)
Definition line_number (cap : Z) (from stop : nat) (v : Z) (l : list Z) : option (list Z) :=
  l ← line_digits cap (digits_up 10 (stop - from) v) l;
  l ← Some (swap_ends (length l) from (length l - 1) l);
  line_pad cap (Z.of_nat stop) l.

Definition chars (s : string) : list Z := (λ a, Z.of_N (N_of_ascii a)) <$> String.list_ascii_of_string s.

Definition ps_append (pid : Z) (name : list Z) (state : string) (cpu : Z) (pb : list_buf) : option list_buf :=
  line ← line_number 72 0 8 pid [];
  line ← line_number 72 8 16 cpu line;
  line ← line_text 72 28 (chars state) line;
  line ← line_pad 72 28 line;
  line ← line_text 72 60 name line;
  line ← line_put 72 10 line;
  Some (append_line line pb).

Fixpoint ps_entries (ps : list (Z * list Z * string * Z)) (pb : list_buf) : option list_buf :=
  match ps with
  | [] => Some pb
  | (pid, name, state, cpu) :: ps => pb ← ps_append pid name state cpu pb; ps_entries ps pb
  end.

(** ** What the lines are *)

Definition text_num (limit : nat) (v : Z) : list Z := (λ d, 48 + d) <$> numeral 10 limit v.
Definition column (w : nat) (t : list Z) : list Z := t ++ replicate (w - length t) 32.

(** The name with a slash for a directory, filled up to column 48, and the size. *)
Definition shown_name (name : list Z) (is_dir : bool) : list Z := take 64 name ++ (if is_dir then [47] else []).
Definition list_line (e : list Z * Z * bool) : list Z :=
  let '(name, size, is_dir) := e in column 48 (shown_name name is_dir) ++ text_num 16 size ++ [10].

(** Pid, cpu, state and name from columns 0, 8, 16 and 28 on. *)
Definition ps_line (e : Z * list Z * string * Z) : list Z :=
  let '(pid, name, state, cpu) := e in
  column 8 (text_num 8 pid) ++ column 8 (text_num 8 cpu) ++ column 12 (take 12 (chars state)) ++
  take 32 name ++ [10].

Section Lines.
Context (cap : Z).

Lemma line_put_some c l : Z.of_nat (length l) < cap → line_put cap c l = Some (l ++ [c]).
Proof. intros Hl. unfold line_put. by rewrite (proj2 (Z.ltb_lt _ _) Hl). Qed.

Lemma line_text_spec stop cs l :
  Z.of_nat stop ≤ cap → line_text cap (Z.of_nat stop) cs l = Some (l ++ take (stop - length l) cs).
Proof.
  intros Hs. revert l. induction cs as [|c cs IH]; intros l; simpl.
  { by rewrite take_nil, app_nil_r. }
  destruct (Z.ltb_spec (Z.of_nat (length l)) (Z.of_nat stop)) as [Hlt|Hge].
  - rewrite line_put_some by lia. simpl. rewrite IH, length_app. simpl.
    replace (stop - length l)%nat with (S (stop - (length l + 1))) by lia. simpl. by rewrite <- app_assoc.
  - replace (stop - length l)%nat with O by lia. by rewrite take_0, app_nil_r.
Qed.

Lemma line_spaces_spec k l :
  Z.of_nat (length l + k) ≤ cap → line_spaces cap k l = Some (l ++ replicate k 32).
Proof.
  revert l. induction k as [|k IH]; intros l Hl; simpl; [by rewrite app_nil_r|].
  rewrite line_put_some by lia. simpl. rewrite IH by (rewrite length_app; simpl; lia). by rewrite <- app_assoc.
Qed.

Lemma line_pad_spec stop l :
  Z.of_nat stop ≤ cap → Z.of_nat (length l) ≤ cap →
  line_pad cap (Z.of_nat stop) l = Some (l ++ replicate (stop - length l) 32).
Proof.
  intros Hs Hl. unfold line_pad. replace (Z.to_nat _) with (stop - length l)%nat by lia.
  apply line_spaces_spec. lia.
Qed.

Lemma line_digits_spec ds l :
  Z.of_nat (length l + length ds) ≤ cap → line_digits cap ds l = Some (l ++ ((λ d, 48 + d) <$> ds)).
Proof.
  revert l. induction ds as [|d ds IH]; intros l Hl; simpl in *; [by rewrite app_nil_r|].
  rewrite line_put_some by lia. simpl. rewrite IH by (rewrite length_app; simpl; lia). by rewrite <- app_assoc.
Qed.

(** Equal up to the grouping of appends. *)
Ltac app_norm := repeat (progress (simpl; rewrite <- ?app_assoc)); done.

(** The exchange loop reverses what lies between its two indices. *)
Lemma swap_ends_spec fuel pre mid post :
  (length mid ≤ fuel)%nat →
  swap_ends fuel (length pre) (length pre + length mid - 1) (pre ++ mid ++ post) = pre ++ reverse mid ++ post.
Proof.
  remember (length mid) as n eqn:En. symmetry in En. revert mid En fuel pre post.
  induction n as [n IH] using lt_wf_ind. intros mid En fuel pre post Hf. destruct fuel as [|fuel].
  { destruct mid; simpl in *; [done|lia]. }
  cbn [swap_ends]. destruct (Nat.ltb_spec (length pre) (length pre + n - 1)) as [Hlt|Hge].
  - destruct mid as [|a mid]; [simpl in *; lia|]. destruct mid as [|b mid _] using rev_ind; [simpl in *; lia|].
    simpl in En. rewrite length_app in En. simpl in En.
    rewrite (list_lookup_middle pre ((mid ++ [b]) ++ post) a (length pre) eq_refl : (pre ++ (a :: mid ++ [b]) ++ post) !! length pre = Some a).
    assert ((pre ++ (a :: mid ++ [b]) ++ post) = (pre ++ a :: mid) ++ b :: post) as E by app_norm.
    rewrite E at 1. rewrite (list_lookup_middle (pre ++ a :: mid) post b)
      by (rewrite length_app; simpl; lia).
    assert (<[length pre := b]> (pre ++ (a :: mid ++ [b]) ++ post) = (pre ++ b :: mid) ++ b :: post) as ->
      by (rewrite insert_app_r_alt, Nat.sub_diag by lia; app_norm).
    assert (<[(length pre + n - 1)%nat := a]> ((pre ++ b :: mid) ++ b :: post) = (pre ++ b :: mid) ++ a :: post) as ->.
    { rewrite insert_app_r_alt by (rewrite length_app; simpl; lia).
      replace (_ - length (pre ++ b :: mid))%nat with O by (rewrite length_app; simpl; lia). done. }
    replace (S (length pre)) with (length (pre ++ [b])) by (rewrite length_app; simpl; lia).
    replace (length pre + n - 1 - 1)%nat with (length (pre ++ [b]) + length mid - 1)%nat by (rewrite length_app; simpl; lia).
    assert ((pre ++ b :: mid) ++ a :: post = (pre ++ [b]) ++ mid ++ a :: post) as -> by app_norm.
    rewrite (IH (length mid)) by (done || lia).
    rewrite reverse_cons, reverse_app. app_norm.
  - destruct mid as [|a [|b mid]]; simpl in *; [done|done|lia].
Qed.

Lemma line_number_spec from stop v l :
  length l = from → (from < stop)%nat → Z.of_nat stop ≤ cap →
  line_number cap from stop v l = Some (l ++ column (stop - from) (text_num (stop - from) v)).
Proof.
  intros Hl Hlt Hcap. unfold line_number. pose proof (digits_up_length 10 (stop - from) v) as Hd.
  rewrite line_digits_spec by lia. simpl.
  set (ds := (λ d, 48 + d) <$> digits_up 10 (stop - from) v).
  assert (length ds = length (digits_up 10 (stop - from) v)) as Hds by (unfold ds; by rewrite length_fmap).
  assert (swap_ends (length (l ++ ds)) from (length (l ++ ds) - 1) (l ++ ds) = l ++ reverse ds) as ->.
  { pose proof (swap_ends_spec (length (l ++ ds)) l ds []) as H. rewrite !app_nil_r, Hl in H. rewrite length_app, Hl in *.
    apply H. lia. }
  rewrite line_pad_spec; rewrite ?length_app, ?length_reverse; [|lia|lia].
  rewrite <- app_assoc. do 2 f_equal. unfold column, text_num, numeral, ds.
  rewrite fmap_reverse, length_reverse, length_fmap. do 2 f_equal. lia.
Qed.
End Lines.

Lemma column_length w t : (length t ≤ w)%nat → length (column w t) = w.
Proof. intros H. unfold column. rewrite length_app, length_replicate. lia. Qed.

Lemma text_num_length limit v : (length (text_num limit v) ≤ limit)%nat.
Proof. unfold text_num. rewrite length_fmap. apply numeral_length. Qed.

Lemma copy_out_spec limit line text :
  Z.of_nat (length text) ≤ limit → copy_out limit line text = take (Z.to_nat limit) (text ++ line).
Proof.
  revert text. induction line as [|c line IH]; intros text Ht; simpl.
  { rewrite app_nil_r, take_ge by lia. done. }
  destruct (Z.ltb_spec (Z.of_nat (length text)) limit) as [Hlt|Hge].
  - rewrite IH by (rewrite length_app; simpl; lia). by rewrite <- app_assoc.
  - replace (Z.to_nat limit) with (length text + 0)%nat by lia. by rewrite take_app_add, take_0, app_nil_r.
Qed.

Lemma list_append_spec name size is_dir lb :
  list_append name size is_dir lb = Some (append_line (list_line (name, size, is_dir)) lb).
Proof.
  unfold list_append. rewrite (line_text_spec 96 64) by lia. cbn [app length]. rewrite Nat.sub_0_r, bind_some.
  pose proof (length_take name 64) as Hn.
  assert ((if is_dir then line_put 96 47 (take 64 name) else Some (take 64 name)) = Some (shown_name name is_dir)) as ->.
  { unfold shown_name. destruct is_dir; [|by rewrite app_nil_r]. apply line_put_some. lia. }
  rewrite bind_some. assert (length (shown_name name is_dir) ≤ 65)%nat as Hs.
  { unfold shown_name. rewrite length_app. destruct is_dir; simpl; lia. }
  rewrite (line_pad_spec 96 48) by lia. rewrite bind_some. fold (column 48 (shown_name name is_dir)).
  assert (length (column 48 (shown_name name is_dir)) ≤ 65)%nat as Hc.
  { unfold column. rewrite length_app, length_replicate. lia. }
  pose proof (digits_up_length 10 16 size) as Hd. rewrite line_digits_spec by (rewrite length_reverse; lia).
  rewrite bind_some, line_put_some; [|rewrite length_app, length_fmap, length_reverse; lia].
  by rewrite bind_some, <- app_assoc.
Qed.

Lemma ps_append_spec pid name state cpu pb :
  ps_append pid name state cpu pb = Some (append_line (ps_line (pid, name, state, cpu)) pb).
Proof.
  unfold ps_append. rewrite (line_number_spec 72 0 8) by (done || lia). rewrite bind_some.
  pose proof (text_num_length 8 pid). pose proof (text_num_length 8 cpu). cbn [app Nat.sub].
  rewrite (line_number_spec 72 8 16) by (rewrite ?column_length; done || lia). rewrite bind_some. cbn [Nat.sub].
  set (l := column 8 (text_num 8 pid) ++ column 8 (text_num 8 cpu)).
  assert (length l = 16%nat) as Hl by (unfold l; rewrite length_app, !column_length by lia; done).
  rewrite (line_text_spec 72 28), Hl, bind_some by lia. change (28 - 16)%nat with 12%nat.
  pose proof (length_take (chars state) 12) as Ht.
  rewrite (line_pad_spec 72 28); rewrite ?length_app, ?Hl; [|lia|lia]. rewrite bind_some, <- app_assoc.
  assert (take 12 (chars state) ++ replicate (28 - (16 + length (take 12 (chars state)))) 32 =
    column 12 (take 12 (chars state))) as ->.
  { unfold column. f_equal. }
  assert (length (column 12 (take 12 (chars state))) = 12%nat) as Hc by (apply column_length; lia).
  rewrite (line_text_spec 72 60) by lia. rewrite length_app, Hl, Hc. change (60 - (16 + 12))%nat with 32%nat.
  rewrite bind_some, line_put_some; [|rewrite !length_app, Hl, Hc, length_take; lia].
  rewrite bind_some. unfold l. by rewrite <- !app_assoc.
Qed.

(** Any number of lines: as much of the text as the 32-bit bound leaves room for. *)
Lemma append_line_size line lb : lb_size (append_line line lb) = lb_size lb.
Proof. done. Qed.

Lemma append_line_text t line lb :
  lb_text lb = take (Z.to_nat (u32 (lb_size lb - 1))) t →
  lb_text (append_line line lb) = take (Z.to_nat (u32 (lb_size lb - 1))) (t ++ line).
Proof.
  intros Ht. pose proof (u32_range (lb_size lb - 1)). simpl. rewrite copy_out_spec, Ht by (rewrite Ht, length_take; lia).
  set (n := Z.to_nat (u32 (lb_size lb - 1))). destruct (decide (length t ≤ n)%nat).
  - by rewrite (take_ge t) by done.
  - by rewrite !take_app_le, take_idemp by (rewrite ?length_take; lia).
Qed.

Lemma list_entries_spec es t lb :
  lb_text lb = take (Z.to_nat (u32 (lb_size lb - 1))) t →
  ∃ lb', list_entries es lb = Some lb' ∧
    lb_text lb' = take (Z.to_nat (u32 (lb_size lb - 1))) (t ++ concat (list_line <$> es)).
Proof.
  revert t lb. induction es as [|[[name size] is_dir] es IH]; intros t lb Ht; cbn [list_entries].
  { exists lb. simpl. by rewrite app_nil_r. }
  rewrite list_append_spec, bind_some.
  destruct (IH (t ++ list_line (name, size, is_dir)) (append_line (list_line (name, size, is_dir)) lb)) as (lb' & -> & Hlb').
  { rewrite append_line_size. by apply append_line_text. }
  exists lb'. split; [done|]. rewrite Hlb', append_line_size, fmap_cons. cbn [concat]. by rewrite <- app_assoc.
Qed.

Lemma ps_entries_spec es t pb :
  lb_text pb = take (Z.to_nat (u32 (lb_size pb - 1))) t →
  ∃ pb', ps_entries es pb = Some pb' ∧
    lb_text pb' = take (Z.to_nat (u32 (lb_size pb - 1))) (t ++ concat (ps_line <$> es)).
Proof.
  revert t pb. induction es as [|[[[pid name] state] cpu] es IH]; intros t pb Ht; cbn [ps_entries].
  { exists pb. simpl. by rewrite app_nil_r. }
  rewrite ps_append_spec, bind_some.
  destruct (IH (t ++ ps_line (pid, name, state, cpu)) (append_line (ps_line (pid, name, state, cpu)) pb)) as (pb' & -> & Hpb').
  { rewrite append_line_size. by apply append_line_text. }
  exists pb'. split; [done|]. rewrite Hpb', append_line_size, fmap_cons. cbn [concat]. by rewrite <- app_assoc.
Qed.

(** The room the 32-bit arithmetic leaves in a buffer of [len] bytes. *)
Definition room (len : Z) : nat := Z.to_nat (u32 (lb_size (fresh_buf len) - 1)).

Lemma room_fits len : 2 ≤ len ≤ 4294967296 → room len = Z.to_nat (len - 2).
Proof.
  intros Hl. unfold room, fresh_buf. simpl. destruct (Z.ltb_spec 0 len); [|lia].
  rewrite (u32_small (len - 1)) by lia. rewrite u32_small by lia. f_equal. lia.
Qed.

Lemma room_none len : 0 ≤ len ≤ 1 → room len = Z.to_nat 4294967295.
Proof. intros Hl. assert (len = 0 ∨ len = 1) as [->| ->] by lia; done. Qed.

(** ** Reading a listing back *)

Fixpoint until (stop : Z) (l : list Z) : list Z :=
  match l with
  | [] => []
  | c :: l => if c =? stop then [] else c :: until stop l
  end.

(** A line without its newline. *)
Definition read_entry (l : list Z) : list Z * Z * bool :=
  let field := until 32 (take 48 l) in
  let is_dir := bool_decide (last field = Some 47) in
  (if is_dir then take (length field - 1) field else field,
   value 10 ((λ c, c - 48) <$> drop 48 l), is_dir).

Fixpoint read_lines (cur text : list Z) : list (list Z * Z * bool) :=
  match text with
  | [] => []
  | c :: text => if c =? 10 then read_entry cur :: read_lines [] text else read_lines (cur ++ [c]) text
  end.

(** A name short enough for its column, without blanks, newlines and slashes. *)
Definition entry_ok (e : list Z * Z * bool) : Prop :=
  let '(name, size, is_dir) := e in
  Forall (λ c, c ≠ 32 ∧ c ≠ 10 ∧ c ≠ 47) name ∧ (length (shown_name name is_dir) ≤ 47)%nat ∧ 0 ≤ size < 4294967296.

Lemma until_app stop l l' : Forall (λ c, c ≠ stop) l → until stop (l ++ stop :: l') = l.
Proof.
  induction 1 as [|c l Hc _ IH]; simpl; [by rewrite Z.eqb_refl|]. by rewrite (proj2 (Z.eqb_neq _ _) Hc), IH.
Qed.

Lemma read_entry_spec name size is_dir :
  entry_ok (name, size, is_dir) →
  read_entry (column 48 (shown_name name is_dir) ++ text_num 16 size) = (name, size, is_dir).
Proof.
  intros (Hc & Hn & Hsz). unfold read_entry.
  assert (length name ≤ 47)%nat as Hname.
  { unfold shown_name in Hn. rewrite length_app, length_take in Hn. lia. }
  assert (length (column 48 (shown_name name is_dir)) = 48%nat) as Hcol by (apply column_length; lia).
  rewrite take_app_le by lia. rewrite take_ge by lia. rewrite drop_app_ge, Hcol, Nat.sub_diag, drop_0 by lia.
  assert (shown_name name is_dir = name ++ if is_dir then [47] else []) as Hs by (unfold shown_name; by rewrite take_ge by lia).
  assert (until 32 (column 48 (shown_name name is_dir)) = shown_name name is_dir) as ->.
  { unfold column. destruct (48 - length (shown_name name is_dir))%nat as [|k] eqn:E; [lia|]. simpl. apply until_app.
    rewrite Hs. apply Forall_app. split; [eapply Forall_impl; [done|]; simpl; tauto|]. by destruct is_dir; repeat constructor. }
  assert (value 10 ((λ c, c - 48) <$> text_num 16 size) = size) as ->.
  { unfold text_num. rewrite <- list_fmap_compose. rewrite (list_fmap_ext _ id); [|intros; simpl; lia].
    rewrite list_fmap_id. apply numeral_value; [lia|]. split; [lia|]. change (10 ^ Z.of_nat 16) with 10000000000000000. lia. }
  rewrite Hs. destruct is_dir.
  - rewrite bool_decide_true by apply last_snoc. rewrite length_app. simpl.
    replace (length name + 1 - 1)%nat with (length name) by lia. by rewrite take_app_length.
  - rewrite app_nil_r, bool_decide_false; [done|]. intros Hl. apply last_Some in Hl as (l' & ->).
    apply Forall_app in Hc as [_ Hc]. inversion Hc; tauto.
Qed.

Lemma read_lines_line cur l text :
  Forall (λ c, c ≠ 10) l → read_lines cur (l ++ 10 :: text) = read_entry (cur ++ l) :: read_lines [] text.
Proof.
  intros Hl. revert cur. induction Hl as [|c l Hc _ IH]; intros cur; simpl; [by rewrite app_nil_r|].
  rewrite (proj2 (Z.eqb_neq _ _) Hc), IH. by rewrite <- app_assoc.
Qed.

Lemma text_num_no limit v c : 0 ≤ v → c < 48 → Forall (λ d, d ≠ c) (text_num limit v).
Proof.
  intros Hv Hc. unfold text_num. apply Forall_fmap. eapply Forall_impl; [by apply (numeral_digit 10)|].
  intros d Hd. unfold digit in Hd. simpl. lia.
Qed.

Lemma read_lines_spec es : Forall entry_ok es → read_lines [] (concat (list_line <$> es)) = es.
Proof.
  induction 1 as [|[[name size] is_dir] es He Hes IH]; [done|]. rewrite fmap_cons. cbn [concat list_line].
  rewrite (app_assoc (column 48 _)), <- app_assoc. cbn [app]. rewrite read_lines_line.
  { cbn [app]. by rewrite read_entry_spec, IH. }
  destruct He as (Hc & Hn & Hsz). apply Forall_app. split; [|by apply text_num_no; lia].
  unfold column, shown_name. rewrite !Forall_app. split_and!.
  - apply Forall_take. eapply Forall_impl; [done|]. simpl. tauto.
  - by destruct is_dir; repeat constructor.
  - by apply Forall_replicate.
Qed.
