(* ===== verification/Panic.v ===== *)
(** Exceptions and the panic screen (arch/x86_64/inter/exceptions.c,
    arch/x86_64/panic/panic.c).

    An exception ends in [panic], which sends a report over the serial port and stops
    the machine.  [panic] is everything up to the final halt; the registers of the
    processor it reads besides the saved ones are a [panic_info].  The stack and the
    code around the fault are read through the page tables in force: [vload8] is such
    a read, [None] a further fault. *)

From stdpp Require Import prelude numbers list.
From Stdlib Require Import ZArith Lia String Ascii.
From S2P Require Import Prelude Memory Frames Paging Space Pcb Ports Digits Screen Term SysText Debug.

Open Scope Z_scope.

#[local] Open Scope string_scope.
Definition exception_names : list string :=
  ["Divide-by-zero"; "Debug"; "Non-Maskable Interrupt"; "Breakpoint"; "Overflow"; "Bound Range Exceeded";
   "Invalid Opcode"; "Device Not Available"; "Double Fault"; "Coprocessor Segment Overrun"; "Invalid TSS";
   "Segment Not Present"; "Stack-Segment Fault"; "General Protection Fault"; "Page Fault"; "Reserved";
   "x87 Floating-Point Error"; "Alignment Check"; "Machine Check"; "SIMD Floating-Point Exception";
   "Virtualization Exception"; "Control Protection Exception"; "Reserved"; "Reserved"; "Reserved"; "Reserved";
   "Reserved"; "Reserved"; "Hypervisor Injection"; "VMM Communication Exception"; "Security Exception"; "Reserved"].

#[local] Close Scope string_scope.

Definition exception_name (vector : Z) : list Z :=
  if vector <? 32 then chars (nth (Z.to_nat vector) exception_names EmptyString) else chars "Unknown exception".

(** What the report shows besides the saved registers. *)
Record panic_info : Type := PanicInfo {
  pi_cpu_index : Z; pi_pid : option Z; pi_cr2 : Z; pi_cr3 : Z; pi_rawrsp : Z
}.

(** Reads through the page tables at [cr3]. *)
Definition vload8 (m : mem) (cr3 va : Z) : option Z :=
  let p := paging_translate m cr3 (u64 va) in if p =? 0 then None else Some (load8 m p).
Fixpoint vloads (m : mem) (cr3 va : Z) (n : nat) : option (list Z) :=
  match n with
  | O => Some []
  | S n => b ← vload8 m cr3 va; l ← vloads m cr3 (va + 1) n; Some (b :: l)
  end.
Definition le_value (l : list Z) : Z := foldr (λ b v, b + 256 * v) 0 l.
Definition vload64 (m : mem) (cr3 va : Z) : option Z := le_value <$> vloads m cr3 va 8.

(** [buf[17 - i] = digits[value & 0xF]; value >>= 4;] for 16 digits. *)
Fixpoint hex_up (n : nat) (v : Z) : list Z :=
  match n with O => [] | S n => digit_char true (Z.land v 0xF) :: hex_up n (Z.shiftr v 4) end.
Definition hex64 (v : Z) : list Z := [48; 120] ++ reverse (hex_up 16 v).

(** The newline. *)
Definition nl : list Z := [10].

Section Panic.
Context {D : Type} `{!Ports D}.

Definition print_hex64 (value : Z) : D → option D := serial_write (hex64 value).

(** Calls in sequence. *)
Definition andthen (f g : D → option D) (d : D) : option D := d ← f d; g d.
Local Infix ">>" := andthen (at level 60, right associativity).
Definition write (s : string) : D → option D := serial_write (chars s).
Definition newline : D → option D := serial_write nl.

(** One round of the stack dump and of the code dump. *)
Definition stack_round (m : mem) (cr3 rsp i : Z) (d : D) : D + option D :=
  if paging_translate m cr3 (u64 (rsp + i * 8)) =? 0 then inr (write "(unmapped)" d)
  else match (v ← vload64 m cr3 (rsp + i * 8); (print_hex64 v >> write " ") d) with Some d => inl d | None => inr None end.
Definition code_round (m : mem) (cr3 rip i : Z) (d : D) : D + option D :=
  if paging_translate m cr3 (u64 (rip + i)) =? 0 then inr (write "(unmapped)" d)
  else match (b ← vload8 m cr3 (rip + i); serial_write [digit_char true (Z.shiftr b 4); digit_char true (Z.land b 0xF)] d) with
       | Some d => inl d | None => inr None end.
Definition dump (rounds : Z) (round : Z → D → D + option D) (d : D) : option D :=
  match for_ 0 rounds round d with inl d => Some d | inr r => r end.

Definition panic_registers (m : mem) (pi : panic_info) (regs : registers) : D → option D :=
  write "cpu=" >> print_hex64 (pi_cpu_index pi) >>
  (match pi_pid pi with Some pid => write "  pid=" >> print_hex64 pid | None => Some end) >>
  write "  vector=" >> print_hex64 (r_int_no regs) >> write "  err=" >> print_hex64 (r_err_code regs) >> newline >>
  (if r_int_no regs =? 14 then write "cr2=" >> print_hex64 (pi_cr2 pi) >> newline else Some) >>
  write "rip=" >> print_hex64 (r_rip regs) >> write "  cs=" >> print_hex64 (r_cs regs) >>
  write "  rflags=" >> print_hex64 (r_rflags regs) >> newline >>
  write "rax=" >> print_hex64 (r_rax regs) >> write "  rbx=" >> print_hex64 (r_rbx regs) >>
  write "  rcx=" >> print_hex64 (r_rcx regs) >> write "  rdx=" >> print_hex64 (r_rdx regs) >> newline >>
  write "rsi=" >> print_hex64 (r_rsi regs) >> write "  rdi=" >> print_hex64 (r_rdi regs) >>
  write "  rbp=" >> print_hex64 (r_rbp regs) >> write "  rsp=" >> print_hex64 (r_user_rsp regs) >> newline >>
  write "ss=" >> print_hex64 (r_ss regs) >> write "  cr3=" >> print_hex64 (pi_cr3 pi) >>
  write "  rawrsp=" >> print_hex64 (pi_rawrsp pi) >> newline >>
  write "stack: " >> dump 64 (stack_round m (pi_cr3 pi) (r_user_rsp regs)) >> newline >>
  write "instr: " >> dump 16 (code_round m (pi_cr3 pi) (r_rip regs)) >> newline.

Definition panic (m : mem) (pi : panic_info) (message : list Z) (regs : option registers) : D → option D :=
  (serial_write (nl ++ chars "KERNEL PANIC!: " ++ nl)%list) >>
  (serial_write (chars "Oh noo, seems like DyntKernel experienced a crash." ++ nl)%list) >>
  (serial_write (chars "restart is needed. ERROR:" ++ nl)%list) >>
  serial_write message >> newline >>
  (match regs with Some regs => panic_registers m pi regs | None => Some end) >>
  (serial_write (chars "system halted. " ++ nl)%list).

Definition isr_handler (m : mem) (pi : panic_info) (regs : registers) : D → option D :=
  panic m pi (exception_name (u8 (r_int_no regs))) (Some regs).
End Panic.

(** ** Reads of a word that lies in one page *)

Lemma translate_word m cr3 va k :
  mem_ok m → va mod 8 = 0 → 0 ≤ k < 8 → paging_translate m cr3 (u64 va) ≠ 0 →
  paging_translate m cr3 (u64 (va + k)) = paging_translate m cr3 (u64 va) + k.
Proof.
  intros Hm Ha Hk. assert (u64 (va + k) = u64 va + k) as -> by (unfold u64; dlia).
  assert (u64 va mod 8 = 0) as Hv by (unfold u64; dlia). pose proof (u64_range va) as Hr. set (v := u64 va) in *. clearbody v.
  rewrite !translate_leaf, (leaf_page m cr3 (v + k) v) by dlia.
  destruct (leaf m cr3 v) as [[large e]|] eqn:El; [|done]. pose proof (leaf_u64 m cr3 v large e Hm El) as He. unfold is_u64 in He.
  destruct large; cbn [leaf_addr]; intros _.
  - rewrite e_base_large_div by exact He. change (PAGING_HUGE - 1) with (2 ^ 21 - 1). rewrite !land_ones_mod by lia.
    change (2 ^ 21) with 2097152. rewrite !u64_small by dlia. dlia.
  - rewrite e_base_div by exact He. change 0xFFF with (2 ^ 12 - 1). rewrite !land_ones_mod by lia.
    change (2 ^ 12) with 4096. rewrite !u64_small by dlia. dlia.
Qed.

(** A word that starts at a mapped, aligned address can be read. *)
Lemma vload64_spec m cr3 va :
  mem_ok m → va mod 8 = 0 → paging_translate m cr3 (u64 va) ≠ 0 → vload64 m cr3 va = Some (load64 m (paging_translate m cr3 (u64 va))).
Proof.
  intros Hm Ha Ht. set (p := paging_translate m cr3 (u64 va)) in *.
  assert (0 ≤ p) as Hp by (unfold p; rewrite translate_leaf; destruct (leaf m cr3 (u64 va)) as [[[] e]|]; cbn [leaf_addr]; [apply u64_range..|lia]).
  assert (∀ k, 0 ≤ k < 8 → vload8 m cr3 (va + k) = Some (m (p + k))) as Hb.
  { intros k Hk. unfold vload8. rewrite (translate_word m cr3 va k) by done. fold p. by rewrite (proj2 (Z.eqb_neq (p + k) 0)) by lia. }
  unfold vload64. cbn [vloads]. rewrite <- (Z.add_0_r va). rewrite <- !(Z.add_assoc va). simpl (_ + _)%Z at 1.
  rewrite !Hb by lia. simpl. f_equal. unfold load64, load32, load16. rewrite Z.add_0_r.
  repeat match goal with |- context [m (p + ?e)] => lazymatch e with Zpos _ => fail | _ => let k := eval vm_compute in e in change (p + e) with (p + k) end end.
  replace (p + 2 + 1) with (p + 3) by lia. replace (p + 4 + 1) with (p + 5) by lia. replace (p + 4 + 2 + 1) with (p + 7) by lia.
  replace (p + 4 + 2) with (p + 6) by lia. lia.
Qed.

(** ** What is sent *)

Lemma crlf_app l l' : crlf (l ++ l') = crlf l ++ crlf l'.
Proof. induction l as [|c l IH]; [done|]. cbn [crlf app]. by rewrite IH, app_assoc. Qed.

Section Report.
Context {D : Type} `{!Ports D, !SerialLine D}.

Definition sends (f : D → option D) (l : list Z) : Prop := ∀ d, ∃ d', f d = Some d' ∧ sl_sent d' = sl_sent d ++ crlf l.

Lemma sends_write l : sends (serial_write l) l.
Proof. intros d. apply serial_write_spec. Qed.
Lemma sends_nothing : sends Some [].
Proof. intros d. exists d. by rewrite app_nil_r. Qed.
Lemma sends_then f g l l' : sends f l → sends g l' → sends (andthen f g) (l ++ l').
Proof.
  intros Hf Hg d. unfold andthen. destruct (Hf d) as (d1 & -> & E1). obind. destruct (Hg d1) as (d2 & -> & E2). exists d2.
  split; [done|]. by rewrite E2, E1, crlf_app, app_assoc.
Qed.

(** The items before the first one that is not mapped. *)
Fixpoint dump_text (n : nat) (i : Z) (mapped : Z → bool) (item : Z → list Z) : list Z :=
  match n with
  | O => []
  | S n => if mapped i then item i ++ dump_text n (i + 1) mapped item else chars "(unmapped)"
  end.

Lemma sends_dump (n : nat) (mapped : Z → bool) item (round : Z → D → D + option D) :
  (∀ i d, 0 ≤ i → if mapped i then ∃ d', round i d = inl d' ∧ sl_sent d' = sl_sent d ++ crlf (item i)
                  else round i d = inr (write "(unmapped)" d)) →
  sends (dump (Z.of_nat n) round) (dump_text n 0 mapped item).
Proof.
  intros Hr. unfold dump. assert (∀ n i d, 0 ≤ i → ∃ d',
    match for_ i (i + Z.of_nat n) round d with inl d => Some d | inr r => r end = Some d' ∧
    sl_sent d' = sl_sent d ++ crlf (dump_text n i mapped item)) as H; [|intros d; exact (H n 0 d ltac:(lia))].
  clear n. induction n as [|n IH]; intros i d Hi.
  - rewrite for_end by lia. exists d. by rewrite app_nil_r.
  - rewrite for_unfold by lia. cbn [dump_text]. specialize (Hr i d Hi). destruct (mapped i).
    + destruct Hr as (d1 & -> & E1). destruct (IH (i + 1) d1) as (d' & E & Es); [lia|].
      replace (i + Z.of_nat (S n)) with (i + 1 + Z.of_nat n) by lia. rewrite E. exists d'. split; [done|].
      by rewrite Es, E1, crlf_app, app_assoc.
    + rewrite Hr. apply sends_write.
Qed.

Definition is_mapped (m : mem) (cr3 va : Z) : bool := negb (paging_translate m cr3 (u64 va) =? 0).
Definition stack_text (m : mem) (cr3 rsp : Z) : list Z :=
  dump_text 64 0 (λ i, is_mapped m cr3 (rsp + i * 8))
    (λ i, hex64 (load64 m (paging_translate m cr3 (u64 (rsp + i * 8)))) ++ chars " ").
Definition byte_text (b : Z) : list Z := [digit_char true (b / 16); digit_char true (b mod 16)].
Definition code_text (m : mem) (cr3 rip : Z) : list Z :=
  dump_text 16 0 (λ i, is_mapped m cr3 (rip + i)) (λ i, byte_text (m (paging_translate m cr3 (u64 (rip + i))))).

Lemma sends_stack m cr3 rsp : mem_ok m → rsp mod 8 = 0 → sends (dump 64 (stack_round m cr3 rsp)) (stack_text m cr3 rsp).
Proof.
  intros Hm Hr. apply (sends_dump 64). intros i d Hi. unfold stack_round, is_mapped.
  destruct (Z.eqb_spec (paging_translate m cr3 (u64 (rsp + i * 8))) 0) as [E|E]; cbn [negb]; [done|].
  rewrite vload64_spec by (done || dlia). rewrite bind_some.
  destruct (sends_then _ _ _ _ (sends_write (hex64 (load64 m (paging_translate m cr3 (u64 (rsp + i * 8)))))) (sends_write (chars " ")) d) as (d' & E' & Es).
  unfold print_hex64, write. rewrite E'. by exists d'.
Qed.

Lemma sends_code m cr3 rip : sends (dump 16 (code_round m cr3 rip)) (code_text m cr3 rip).
Proof.
  apply (sends_dump 16). intros i d Hi. unfold code_round, is_mapped, vload8.
  destruct (paging_translate m cr3 (u64 (rip + i)) =? 0); cbn [negb]; [done|]. rewrite bind_some.
  change 0xF with (Z.ones 4). rewrite Z.shiftr_div_pow2, Z.land_ones by lia. change (2 ^ 4) with 16.
  destruct (sends_write (byte_text (m (paging_translate m cr3 (u64 (rip + i))))) d) as (d' & E & Es).
  unfold byte_text in E at 1. unfold load8. rewrite E. by exists d'.
Qed.

(** A labelled number. *)
Definition labelled (label : string) (v : Z) : list Z := chars label ++ hex64 v.

Definition registers_text (m : mem) (pi : panic_info) (regs : registers) : list Z :=
  labelled "cpu=" (pi_cpu_index pi) ++ (match pi_pid pi with Some pid => labelled "  pid=" pid | None => [] end) ++
  labelled "  vector=" (r_int_no regs) ++ labelled "  err=" (r_err_code regs) ++ nl ++
  (if r_int_no regs =? 14 then labelled "cr2=" (pi_cr2 pi) ++ nl else []) ++
  labelled "rip=" (r_rip regs) ++ labelled "  cs=" (r_cs regs) ++ labelled "  rflags=" (r_rflags regs) ++ nl ++
  labelled "rax=" (r_rax regs) ++ labelled "  rbx=" (r_rbx regs) ++ labelled "  rcx=" (r_rcx regs) ++ labelled "  rdx=" (r_rdx regs) ++ nl ++
  labelled "rsi=" (r_rsi regs) ++ labelled "  rdi=" (r_rdi regs) ++ labelled "  rbp=" (r_rbp regs) ++ labelled "  rsp=" (r_user_rsp regs) ++ nl ++
  labelled "ss=" (r_ss regs) ++ labelled "  cr3=" (pi_cr3 pi) ++ labelled "  rawrsp=" (pi_rawrsp pi) ++ nl ++
  chars "stack: " ++ stack_text m (pi_cr3 pi) (r_user_rsp regs) ++ nl ++
  chars "instr: " ++ code_text m (pi_cr3 pi) (r_rip regs) ++ nl.

Definition panic_text (m : mem) (pi : panic_info) (message : list Z) (regs : option registers) : list Z :=
  (nl ++ chars "KERNEL PANIC!: " ++ nl) ++ (chars "Oh noo, seems like DyntKernel experienced a crash." ++ nl) ++
  (chars "restart is needed. ERROR:" ++ nl) ++ message ++ nl ++
  (match regs with Some regs => registers_text m pi regs | None => [] end) ++ chars "system halted. " ++ nl.

Lemma sends_label label v g l : sends g l → sends (andthen (write label) (andthen (print_hex64 v) g)) (labelled label v ++ l).
Proof.
  intros H. unfold labelled. rewrite <- app_assoc. apply sends_then; [apply sends_write|]. by apply sends_then; [apply sends_write|].
Qed.
Lemma sends_label_end label v : sends (andthen (write label) (print_hex64 v)) (labelled label v).
Proof. apply sends_then; apply sends_write. Qed.

(** An exception is always reported to the end: the report is sent in full, with every
    saved register, the words of the stack up to the first page that is not mapped and
    the code at the fault, and no further fault happens on the way when the stack
    pointer is aligned. *)
Theorem panic_reports m pi message regs :
  mem_ok m → (∀ r, regs = Some r → r_user_rsp r mod 8 = 0) → sends (panic m pi message regs) (panic_text m pi message regs).
Proof.
  intros Hm Hr. unfold panic, panic_text. do 5 (apply sends_then; [apply sends_write|]). apply sends_then; [|apply sends_write].
  destruct regs as [regs|]; [|apply sends_nothing]. specialize (Hr regs eq_refl). unfold panic_registers, registers_text.
  apply sends_label. apply sends_then; [destruct (pi_pid pi); [apply sends_label_end|apply sends_nothing]|].
  do 2 apply sends_label. apply sends_then; [apply sends_write|].
  apply sends_then; [destruct (r_int_no regs =? 14); [apply sends_label, sends_write|apply sends_nothing]|].
  do 3 apply sends_label. apply sends_then; [apply sends_write|].
  do 4 apply sends_label. apply sends_then; [apply sends_write|].
  do 4 apply sends_label. apply sends_then; [apply sends_write|].
  do 3 apply sends_label. apply sends_then; [apply sends_write|].
  apply sends_then; [apply sends_write|]. apply sends_then; [by apply sends_stack|]. apply sends_then; [apply sends_write|].
  apply sends_then; [apply sends_write|]. apply sends_then; [apply sends_code|apply sends_write].
Qed.
End Report.

(** A number of the report can be read back. *)
Lemma hex_up_value n v : 0 ≤ v < 16 ^ Z.of_nat n → value 16 (digit_read <$> reverse (hex_up n v)) = v.
Proof.
  revert v. induction n as [|n IH]; intros v Hv; [change (16 ^ Z.of_nat 0) with 1 in Hv; by replace v with 0 by lia|].
  rewrite Nat2Z.inj_succ, Z.pow_succ_r in Hv by lia. cbn [hex_up]. rewrite reverse_cons, fmap_app.
  change 0xF with (Z.ones 4). rewrite Z.land_ones, Z.shiftr_div_pow2 by lia. change (2 ^ 4) with 16.
  unfold value. rewrite value_from_app. fold (value 16 (digit_read <$> reverse (hex_up n (v / 16)))). rewrite IH by dlia.
  cbn [fmap list_fmap value_from foldl]. rewrite digit_read_char by dlia. dlia.
Qed.

Theorem hex64_reads v : is_u64 v → ∃ l, hex64 v = [48; 120] ++ l ∧ List.length l = 16%nat ∧ value 16 (digit_read <$> l) = v.
Proof.
  intros Hv. exists (reverse (hex_up 16 v)). split; [done|]. split; [by rewrite length_reverse|]. apply hex_up_value. exact Hv.
Qed.
