(* ===== verification/Percpu.v ===== *)
(** Per-cpu data and the spinlock (arch/x86_64/cpu/percpu.c, percpu.h,
    spinlock.h, and the GS helpers of scheduler/scheduler.c).

    [g_percpu] is an array of [percpu] records; [percpu_base] is the address the
    linker gave it.  The registers of each cpu the code touches (the two GS
    bases, the FS base, CR3 and the interrupt flag) are a [cpu_hw].  The
    functions take the index [me] of the cpu that executes them, and reach their
    own record the way the code does: through whichever GS base points into
    the array. *)

From stdpp Require Import prelude numbers list functions.
From Stdlib Require Import ZArith Lia.
From S2P Require Import Prelude.

Open Scope Z_scope.

Definition PERCPU_MAX_CPUS : Z := 16.

Record percpu : Type := Percpu {
  pc_self : Z;
  pc_kernel_rsp : Z;
  pc_user_rsp : Z;
  pc_cpu_index : Z;
  pc_lapic_id : Z;
  pc_current : Z;
  pc_tss_rsp0 : Z;
  pc_syscall_stack_top : Z
}.

Definition set_pc_current (v : Z) (p : percpu) : percpu :=
  Percpu (pc_self p) (pc_kernel_rsp p) (pc_user_rsp p) (pc_cpu_index p) (pc_lapic_id p) v
    (pc_tss_rsp0 p) (pc_syscall_stack_top p).
Definition set_pc_kernel_rsp (v : Z) (p : percpu) : percpu :=
  Percpu (pc_self p) v (pc_user_rsp p) (pc_cpu_index p) (pc_lapic_id p) (pc_current p)
    (pc_tss_rsp0 p) (pc_syscall_stack_top p).
Definition set_pc_lapic_id (v : Z) (p : percpu) : percpu :=
  Percpu (pc_self p) (pc_kernel_rsp p) (pc_user_rsp p) (pc_cpu_index p) v (pc_current p)
    (pc_tss_rsp0 p) (pc_syscall_stack_top p).

Record cpu_hw : Type := CpuHw {
  hw_gs_base : Z;
  hw_kernel_gs_base : Z;
  hw_fs_base : Z;
  hw_cr3 : Z;
  hw_if : bool
}.

Definition set_gs (g k : Z) (h : cpu_hw) : cpu_hw := CpuHw g k (hw_fs_base h) (hw_cr3 h) (hw_if h).
Definition set_fs (v : Z) (h : cpu_hw) : cpu_hw :=
  CpuHw (hw_gs_base h) (hw_kernel_gs_base h) v (hw_cr3 h) (hw_if h).
Definition set_cr3 (v : Z) (h : cpu_hw) : cpu_hw :=
  CpuHw (hw_gs_base h) (hw_kernel_gs_base h) (hw_fs_base h) v (hw_if h).
Definition set_if (v : bool) (h : cpu_hw) : cpu_hw :=
  CpuHw (hw_gs_base h) (hw_kernel_gs_base h) (hw_fs_base h) (hw_cr3 h) v.

Record cpus : Type := Cpus {
  g_percpu : Z → percpu;
  hw : Z → cpu_hw
}.

Definition upd_percpu (i : Z) (f : percpu → percpu) (c : cpus) : cpus :=
  Cpus (<[i := f (g_percpu c i)]> (g_percpu c)) (hw c).
Definition upd_hw (i : Z) (f : cpu_hw → cpu_hw) (c : cpus) : cpus :=
  Cpus (g_percpu c) (<[i := f (hw c i)]> (hw c)).

(** [sizeof(percpu_t)]: packed, six 8-byte fields and two of 4 bytes. *)
Definition percpu_size : Z := 56.

Section Percpu.
Context (percpu_base : Z).

(** [&g_percpu[i]] *)
Definition percpu_addr (i : Z) : Z := percpu_base + percpu_size * i.

Definition in_percpu (gs : Z) : bool :=
  (percpu_addr 0 <=? gs) && (gs <? percpu_addr PERCPU_MAX_CPUS).

Definition percpu_init (me kernel_stack_top : Z) (c : cpus) : cpus :=
  let c := for_do 0 PERCPU_MAX_CPUS (λ i c,
             upd_percpu i (λ p,
               Percpu (percpu_addr i) kernel_stack_top (pc_user_rsp p) i (pc_lapic_id p) 0
                 kernel_stack_top kernel_stack_top) c) c in
  let c := upd_percpu 0 (set_pc_lapic_id 0) c in
  upd_hw me (set_gs (percpu_addr 0) (percpu_addr 0)) c.

Definition percpu_init_cpu (me index lapic_id interrupt_stack_top syscall_stack_top : Z)
    (c : cpus) : cpus :=
  if PERCPU_MAX_CPUS <=? index then c
  else
    let c := upd_percpu index (λ p,
               Percpu (percpu_addr index) syscall_stack_top (pc_user_rsp p) index lapic_id 0
                 interrupt_stack_top syscall_stack_top) c in
    upd_hw me (set_gs (percpu_addr index) (percpu_addr index)) c.

(** [percpu_current()] as the pointer it returns ... *)
Definition percpu_current (me : Z) (c : cpus) : Z :=
  let gs := hw_gs_base (hw c me) in
  if in_percpu gs then gs else hw_kernel_gs_base (hw c me).

(** ... and the array element behind that pointer, when it is one. *)
Definition percpu_slot (p : Z) : option Z :=
  if in_percpu p && ((p - percpu_base) mod percpu_size =? 0)
  then Some ((p - percpu_base) / percpu_size) else None.

Definition percpu_index (me : Z) (c : cpus) : option Z :=
  i ← percpu_slot (percpu_current me c); Some (pc_cpu_index (g_percpu c i)).

(** [percpu_current()->current] and assignments through [percpu_current()]. *)
Definition get_current (me : Z) (c : cpus) : option Z :=
  i ← percpu_slot (percpu_current me c); Some (pc_current (g_percpu c i)).
Definition upd_current (me : Z) (f : percpu → percpu) (c : cpus) : option cpus :=
  i ← percpu_slot (percpu_current me c); Some (upd_percpu i f c).

Definition swapgs (me : Z) (c : cpus) : cpus :=
  upd_hw me (λ h, set_gs (hw_kernel_gs_base h) (hw_gs_base h) h) c.
Definition gs_base_is_percpu (me : Z) (c : cpus) : bool := in_percpu (hw_gs_base (hw c me)).
Definition gs_to_user (me : Z) (c : cpus) : cpus :=
  if gs_base_is_percpu me c then swapgs me c else c.
Definition gs_to_kernel (me : Z) (c : cpus) : cpus :=
  if negb (gs_base_is_percpu me c) then swapgs me c else c.

(** ** What the other components rely on *)

(** Cpu [me] can find its own record: one of its GS bases is the address of
    slot [me], and no other slot's address is in either of them. *)
Definition cpu_ok (me : Z) (c : cpus) : Prop :=
  0 ≤ me < PERCPU_MAX_CPUS ∧
  pc_cpu_index (g_percpu c me) = me ∧
  ((hw_gs_base (hw c me) = percpu_addr me ∧
    (hw_kernel_gs_base (hw c me) = percpu_addr me ∨
     in_percpu (hw_kernel_gs_base (hw c me)) = false)) ∨
   (in_percpu (hw_gs_base (hw c me)) = false ∧ hw_kernel_gs_base (hw c me) = percpu_addr me)).

Lemma in_percpu_addr i : 0 ≤ i < PERCPU_MAX_CPUS → in_percpu (percpu_addr i) = true.
Proof. unfold in_percpu, percpu_addr, PERCPU_MAX_CPUS, percpu_size. lia. Qed.

Lemma percpu_slot_addr i : 0 ≤ i < PERCPU_MAX_CPUS → percpu_slot (percpu_addr i) = Some i.
Proof.
  intros Hi. unfold percpu_slot. rewrite in_percpu_addr by done.
  unfold percpu_addr. replace (percpu_base + percpu_size * i - percpu_base) with (i * percpu_size) by lia.
  by rewrite Z.mod_mul, Z.div_mul by done.
Qed.

Lemma cpu_ok_slot me c : cpu_ok me c → percpu_slot (percpu_current me c) = Some me.
Proof.
  intros (Hme & _ & Hgs). unfold percpu_current. destruct Hgs as [[E _]|[E1 E2]].
  - rewrite E, in_percpu_addr by done. by apply percpu_slot_addr.
  - rewrite E1, E2. by apply percpu_slot_addr.
Qed.

Lemma cpu_ok_index me c : cpu_ok me c → percpu_index me c = Some me.
Proof. intros H. unfold percpu_index. rewrite cpu_ok_slot by done. simpl. f_equal. apply H. Qed.

Lemma cpu_ok_current me c : cpu_ok me c → get_current me c = Some (pc_current (g_percpu c me)).
Proof. intros H. unfold get_current. by rewrite cpu_ok_slot. Qed.

Lemma cpu_ok_upd me f c : cpu_ok me c → upd_current me f c = Some (upd_percpu me f c).
Proof. intros H. unfold upd_current. by rewrite cpu_ok_slot. Qed.

Lemma cpu_ok_gs_to_user me c : cpu_ok me c → cpu_ok me (gs_to_user me c).
Proof.
  intros H. unfold gs_to_user, gs_base_is_percpu. split_if; [|done]. destruct H as (Hme & Hi & Hgs).
  split; [done|]. split; [done|]. unfold swapgs, upd_hw. simpl. rewrite fn_lookup_insert. simpl.
  destruct Hgs as [[E1 [E2|E2]]|[E1 E2]]; [left|right|congruence]; auto.
Qed.

Lemma cpu_ok_gs_to_kernel me c : cpu_ok me c → cpu_ok me (gs_to_kernel me c).
Proof.
  intros H. unfold gs_to_kernel, gs_base_is_percpu. split_if; [|done].
  destruct H as (Hme & Hi & Hgs). bsimp.
  split; [done|]. split; [done|]. unfold swapgs, upd_hw. simpl. rewrite fn_lookup_insert. simpl.
  destruct Hgs as [[E1 _]|[E1 E2]]; [|left; auto].
  rewrite E1, in_percpu_addr in * by done. done.
Qed.

(** Updates of another cpu's registers, of the other fields of a record, and of
    the other registers keep [cpu_ok]. *)
Lemma cpu_ok_upd_percpu me i f c :
  (∀ p, pc_cpu_index (f p) = pc_cpu_index p) → cpu_ok me c → cpu_ok me (upd_percpu i f c).
Proof.
  intros Hf (Hme & Hi & Hgs). split; [done|]. split; [|done]. simpl.
  destruct (decide (i = me)) as [->|]; [rewrite fn_lookup_insert, Hf|rewrite fn_lookup_insert_ne by done];
  done.
Qed.

Lemma cpu_ok_upd_hw me i f c :
  (∀ h, hw_gs_base (f h) = hw_gs_base h ∧ hw_kernel_gs_base (f h) = hw_kernel_gs_base h) →
  cpu_ok me c → cpu_ok me (upd_hw i f c).
Proof.
  intros Hf (Hme & Hi & Hgs). split; [done|]. split; [done|]. simpl.
  destruct (decide (i = me)) as [->|]; [rewrite fn_lookup_insert|by rewrite fn_lookup_insert_ne].
  destruct (Hf (hw c me)) as [-> ->]. done.
Qed.

Lemma cpu_ok_other me i c c' :
  me ≠ i → g_percpu c' = g_percpu c → (∀ j, j ≠ i → hw c' j = hw c j) → cpu_ok me c → cpu_ok me c'.
Proof. intros Hne Hg Hh. unfold cpu_ok. by rewrite Hg, Hh. Qed.

Lemma gs_to_user_percpu me c : g_percpu (gs_to_user me c) = g_percpu c.
Proof. unfold gs_to_user. by split_if. Qed.
Lemma gs_to_kernel_percpu me c : g_percpu (gs_to_kernel me c) = g_percpu c.
Proof. unfold gs_to_kernel. by split_if. Qed.
Lemma gs_to_user_hw me c j : j ≠ me → hw (gs_to_user me c) j = hw c j.
Proof. intros. unfold gs_to_user. split_if; [|done]. simpl. by rewrite fn_lookup_insert_ne. Qed.
Lemma gs_to_kernel_hw me c j : j ≠ me → hw (gs_to_kernel me c) j = hw c j.
Proof. intros. unfold gs_to_kernel. split_if; [|done]. simpl. by rewrite fn_lookup_insert_ne. Qed.

Lemma gs_to_user_space me c :
  hw_cr3 (hw (gs_to_user me c) me) = hw_cr3 (hw c me) ∧
  hw_fs_base (hw (gs_to_user me c) me) = hw_fs_base (hw c me).
Proof. unfold gs_to_user. split_if; [|done]. simpl. by rewrite fn_lookup_insert. Qed.
Lemma gs_to_kernel_space me c :
  hw_cr3 (hw (gs_to_kernel me c) me) = hw_cr3 (hw c me) ∧
  hw_fs_base (hw (gs_to_kernel me c) me) = hw_fs_base (hw c me).
Proof. unfold gs_to_kernel. split_if; [|done]. simpl. by rewrite fn_lookup_insert. Qed.

End Percpu.

(** ** spinlock.h *)

(** The lock word and the interrupt flag of the cpu.  In the sequential model a
    cpu that finds the lock taken spins for ever: [None]. *)
Definition spinlock_acquire (lock : bool) : option bool := if lock then None else Some true.
Definition spinlock_release (lock : bool) : bool := false.
Definition cpu_save_flags (me : Z) (c : cpus) : bool := hw_if (hw c me).
Definition cpu_restore_flags (me : Z) (flags : bool) (c : cpus) : cpus := upd_hw me (set_if flags) c.
Definition spinlock_acquire_irq (me : Z) (lock : bool) (c : cpus) : option (bool * bool * cpus) :=
  let flags := cpu_save_flags me c in
  let c := upd_hw me (set_if false) c in
  lock ← spinlock_acquire lock;
  Some (flags, lock, c).
Definition spinlock_release_irq (me : Z) (flags lock : bool) (c : cpus) : bool * cpus :=
  (spinlock_release lock, cpu_restore_flags me flags c).
