(* ===== verification/Scheduler.v ===== *)
(** The scheduler (scheduler/scheduler.c).

    Each cpu has a runqueue: a chain of process control blocks linked through
    [next], with a counter and a decaying load.  Operations run to completion
    under the global lock, so they are functions on the state; [None] is an
    access through a pointer that is not a live process, a lock that is already
    held, or a walk that does not end.  Cpu [me] executes the operation.

    A timer tick or an exit ends by leaving the kernel: [iret_frame] (return
    from the interrupt with this frame), [resume_user], [resume_kernel] (back into
    a blocked system call) or [idle].

    The section [Queues] relates each chain to the list of its members, the
    section [Correct] proves that every operation keeps the representation
    [wf] and says what it does to the queues. *)

From stdpp Require Import prelude numbers list gmap functions strings.
From Stdlib Require Import ZArith Lia.
From S2P Require Import Prelude Pcb Percpu.

Open Scope Z_scope.

Definition SCHED_QUANTUM : Z := 5.
Definition LOAD_UNIT : Z := 4096.

(** More rounds than there are 64-bit addresses for a chain to visit. *)
Definition chain_fuel : positive := 18446744073709551617.

Record cpu_rq : Type := CpuRq {
  rq_head : Z;
  rq_count : Z;
  rq_load : Z;
  rq_busy_ticks : Z;
  rq_idle_ticks : Z
}.

Definition set_rq_head (v : Z) (r : cpu_rq) : cpu_rq :=
  CpuRq v (rq_count r) (rq_load r) (rq_busy_ticks r) (rq_idle_ticks r).
Definition set_rq_count (v : Z) (r : cpu_rq) : cpu_rq :=
  CpuRq (rq_head r) v (rq_load r) (rq_busy_ticks r) (rq_idle_ticks r).
Definition busy_tick (r : cpu_rq) : cpu_rq :=
  CpuRq (rq_head r) (rq_count r) (u64 (Z.shiftr (rq_load r) 1 + LOAD_UNIT))
    (u64 (rq_busy_ticks r + 1)) (rq_idle_ticks r).
Definition idle_tick (r : cpu_rq) : cpu_rq :=
  CpuRq (rq_head r) (rq_count r) (Z.shiftr (rq_load r) 1) (rq_busy_ticks r)
    (u64 (rq_idle_ticks r + 1)).

(** What the scheduler needs of process.c: giving back the memory of a process
    (its kernel stack, its address space and the block itself). *)
Class ProcessMemory (M : Type) : Type := pm_destroy : pcb → Z → M → option M.

Section Scheduler.
Context {M : Type} `{!ProcessMemory M}.
Context (percpu_base : Z).

Record sched : Type := Sched {
  procs : gmap Z pcb;
  rq : Z → cpu_rq;
  sched_lock : bool;
  uptime_ticks : Z;
  smp_cpu_count : Z;
  s_cpus : cpus;
  s_mach : M
}.

Definition with_procs (P : gmap Z pcb) (s : sched) : sched :=
  Sched P (rq s) (sched_lock s) (uptime_ticks s) (smp_cpu_count s) (s_cpus s) (s_mach s).
Definition with_rq (r : Z → cpu_rq) (s : sched) : sched :=
  Sched (procs s) r (sched_lock s) (uptime_ticks s) (smp_cpu_count s) (s_cpus s) (s_mach s).
Definition with_lock (b : bool) (s : sched) : sched :=
  Sched (procs s) (rq s) b (uptime_ticks s) (smp_cpu_count s) (s_cpus s) (s_mach s).
Definition with_uptime (n : Z) (s : sched) : sched :=
  Sched (procs s) (rq s) (sched_lock s) n (smp_cpu_count s) (s_cpus s) (s_mach s).
Definition with_cpus (c : cpus) (s : sched) : sched :=
  Sched (procs s) (rq s) (sched_lock s) (uptime_ticks s) (smp_cpu_count s) c (s_mach s).
Definition with_mach (m : M) (s : sched) : sched :=
  Sched (procs s) (rq s) (sched_lock s) (uptime_ticks s) (smp_cpu_count s) (s_cpus s) m.

(** Assignment to fields of [*a], and to fields of [rq[cpu]]. *)
Definition upd_proc (a : Z) (f : pcb → pcb) (s : sched) : option sched :=
  p ← procs s !! a; Some (with_procs (<[a := f p]> (procs s)) s).
Definition upd_rq (cpu : Z) (f : cpu_rq → cpu_rq) (s : sched) : sched :=
  with_rq (<[cpu := f (rq s cpu)]> (rq s)) s.

Definition lock (s : sched) : option sched :=
  b ← spinlock_acquire (sched_lock s); Some (with_lock b s).
Definition unlock (s : sched) : sched := with_lock (spinlock_release (sched_lock s)) s.
Definition lock_irq (me : Z) (s : sched) : option (bool * sched) :=
  r ← spinlock_acquire_irq me (sched_lock s) (s_cpus s);
  let '(flags, b, c) := r in Some (flags, with_lock b (with_cpus c s)).
Definition unlock_irq (me : Z) (flags : bool) (s : sched) : sched :=
  let '(b, c) := spinlock_release_irq me flags (sched_lock s) (s_cpus s) in
  with_lock b (with_cpus c s).

Definition scheduler_ticks (s : sched) : Z := uptime_ticks s.

Definition scheduler_init (s : sched) : sched :=
  let s := with_uptime 0 (with_lock false s) in
  for_do 0 PERCPU_MAX_CPUS (λ i s, upd_rq i (λ _, CpuRq 0 0 0 0 0) s) s.

Definition cpu_count (s : sched) : Z :=
  let n := smp_cpu_count s in if truthy n then n else 1.

Definition push_front (cpu proc : Z) (s : sched) : option sched :=
  s ← upd_proc proc (set_p_next (rq_head (rq s cpu))) s;
  let s := upd_rq cpu (set_rq_head proc) s in
  Some (upd_rq cpu (λ r, set_rq_count (u32 (rq_count r + 1)) r) s).

(** The comparison of the selection loop. *)
Definition less_loaded (r best : cpu_rq) : bool :=
  (rq_count r <? rq_count best) ||
  ((rq_count r =? rq_count best) && (rq_load r <? rq_load best)).

Definition least_loaded_locked (s : sched) : Z :=
  for_do 1 (cpu_count s) (λ i best, if less_loaded (rq s i) (rq s best) then i else best) 0.

(** [proc->state = PROC_READY; proc->cpu = cpu; proc->ticks = 0;] *)
Definition make_ready (cpu : Z) (p : pcb) : pcb :=
  set_p_ticks 0 (set_p_cpu cpu (set_p_state PROC_READY p)).

Definition scheduler_enqueue_on (me proc cpu : Z) (s : sched) : option sched :=
  if proc =? 0 then Some s
  else
    let cpu := if PERCPU_MAX_CPUS <=? cpu then 0 else cpu in
    r ← lock_irq me s;
    let '(flags, s) := r in
    s ← upd_proc proc (make_ready cpu) s;
    s ← push_front cpu proc s;
    Some (unlock_irq me flags s).

Definition scheduler_least_loaded_cpu (me : Z) (s : sched) : option (Z * sched) :=
  r ← lock_irq me s;
  let '(flags, s) := r in
  Some (least_loaded_locked s, unlock_irq me flags s).

Definition scheduler_enqueue (me proc : Z) (s : sched) : option sched :=
  if proc =? 0 then Some s
  else
    r ← lock_irq me s;
    let '(flags, s) := r in
    let cpu := least_loaded_locked s in
    s ← upd_proc proc (make_ready cpu) s;
    s ← push_front cpu proc s;
    Some (unlock_irq me flags s).

(** The cursor of [unlink], a pointer to a pointer: [None] is [&rq[cpu].head],
    [Some a] is [&a->next]. *)
Definition read_link (cpu : Z) (link : option Z) (s : sched) : option Z :=
  match link with
  | None => Some (rq_head (rq s cpu))
  | Some a => p ← procs s !! a; Some (p_next p)
  end.
Definition write_link (cpu : Z) (link : option Z) (v : Z) (s : sched) : option sched :=
  match link with
  | None => Some (upd_rq cpu (set_rq_head v) s)
  | Some a => upd_proc a (set_p_next v) s
  end.

Definition unlink_step (cpu proc : Z) (s : sched) (link : option Z) :
    option Z + option sched :=
  match read_link cpu link s with
  | None => inr None
  | Some cur =>
      if cur =? 0 then inr (Some s)
      else if cur =? proc then
        inr (p ← procs s !! proc;
             s ← write_link cpu link (p_next p) s;
             Some (upd_rq cpu (λ r, set_rq_count (u32 (rq_count r - 1)) r) s))
      else inl (Some cur)
  end.

Definition unlink (cpu proc : Z) (s : sched) : option sched :=
  mjoin (while_ chain_fuel (unlink_step cpu proc s) None).

Definition pick_step (start skip : Z) (P : gmap Z pcb) (p : Z) : Z + option Z :=
  match P !! p with
  | None => inr None
  | Some b =>
      if bool_decide (p_state b = PROC_READY) && negb (p =? skip) then inr (Some p)
      else
        let p := if truthy (p_next b) then p_next b else start in
        if p =? start then inr (Some 0) else inl p
  end.

Definition pick_next (cpu skip : Z) (s : sched) : option Z :=
  let start := rq_head (rq s cpu) in
  if start =? 0 then Some 0
  else mjoin (while_ chain_fuel (pick_step start skip (procs s)) start).

(** One queue of the search for a pid. *)
Definition find_step (pid : Z) (P : gmap Z pcb) (p : Z) : Z + option Z :=
  if p =? 0 then inr (Some 0)
  else match P !! p with
       | None => inr None
       | Some b => if p_pid b =? pid then inr (Some p) else inl (p_next b)
       end.

Definition find_pid_locked (pid : Z) (s : sched) : option Z :=
  match for_ 0 PERCPU_MAX_CPUS (λ cpu (_ : unit),
          match mjoin (while_ chain_fuel (find_step pid (procs s)) (rq_head (rq s cpu))) with
          | None => inr None
          | Some p => if p =? 0 then inl () else inr (Some p)
          end) () with
  | inl _ => Some 0
  | inr r => r
  end.

(** process.c: [process_destroy]; the block is gone afterwards. *)
Definition process_destroy (proc : Z) (s : sched) : option sched :=
  if proc =? 0 then Some s
  else
    p ← procs s !! proc;
    m ← pm_destroy p proc (s_mach s);
    Some (with_mach m (with_procs (delete proc (procs s)) s)).

Definition set_current (me : Z) (f : percpu → percpu) (s : sched) : option sched :=
  c ← upd_current percpu_base me f (s_cpus s); Some (with_cpus c s).

Definition kill_cur_locked (me cur cpu : Z) (s : sched) : option sched :=
  if cur =? 0 then Some s
  else
    s ← unlink cpu cur s;
    s ← set_current me (set_pc_current 0) s;
    p ← procs s !! cur;
    if truthy (p_parent p)
    then upd_proc cur (λ p, set_p_terminate false (set_p_state PROC_ZOMBIE p)) s
    else process_destroy cur s.

(** How the kernel is left.  [resume_kernel] carries whether the end of the
    interrupt was signalled to both interrupt controllers first. *)
Inductive leave : Type :=
  | iret_frame (regs : registers)
  | resume_user (ctx : registers)
  | resume_kernel (ctx : registers) (krsp : Z) (eoi : bool)
  | idle.

(** [&regs->user_rsp] for a frame at address [fp]. *)
Definition frame_user_rsp (fp : Z) : Z := fp + 160.

(** Accounting of one tick: [inr] is an early return, [inl cur] goes on with the
    process that is still current ([0] when it was just killed). *)
Definition tick_save (regs : registers) (fp : Z) (p : pcb) : pcb :=
  let p := set_p_ctx regs (set_p_ticks (u64 (p_ticks p + 1)) p) in
  if p_blocked p then set_p_saved_kernel_rsp (frame_user_rsp fp) p else p.

Definition tick_running (me cpu cur : Z) (regs : registers) (fp : Z) (s : sched)
    : option (Z * sched + sched) :=
  s ← upd_proc cur (tick_save regs fp) (upd_rq cpu busy_tick s);
  p ← procs s !! cur;
  if p_terminate p then
    if r_cs regs =? 0x23 then s ← kill_cur_locked me cur cpu s; Some (inl (0, s))
    else Some (inr s)
  else if (p_ticks p <? SCHED_QUANTUM) && negb (p_blocked p) then Some (inr s)
  else Some (inl (cur, s)).

(** [cur && cur->state == PROC_RUNNING] *)
Definition is_running (cur : Z) (s : sched) : option bool :=
  if cur =? 0 then Some false
  else p ← procs s !! cur; Some (bool_decide (p_state p = PROC_RUNNING)).

Definition tick_account (me cpu cur : Z) (regs : registers) (fp : Z) (s : sched)
    : option (Z * sched + sched) :=
  b ← is_running cur s;
  if (b : bool) then tick_running me cpu cur regs fp s
  else Some (inl (cur, upd_rq cpu idle_tick s)).

(** [regs->cs != 0x23 && cur && !cur->blocked] *)
Definition in_kernel (cur : Z) (regs : registers) (s : sched) : option bool :=
  if (r_cs regs =? 0x23) || (cur =? 0) then Some false
  else p ← procs s !! cur; Some (negb (p_blocked p)).

(** Makes [next] the running process of this cpu. *)
Definition start_process (me next : Z) (s : sched) : option (pcb * sched) :=
  s ← upd_proc next (λ p, set_p_state PROC_RUNNING (set_p_ticks 0 p)) s;
  p ← procs s !! next;
  s ← set_current me (λ c, set_pc_kernel_rsp (p_kernel_stack_top p) (set_pc_current next c)) s;
  Some (p, s).

(** [write_cr3(p->cr3); wrmsr(MSR_IA32_FS_BASE, p->fs_base);] *)
Definition load_space (me : Z) (p : pcb) (s : sched) : sched :=
  with_cpus (upd_hw me (set_fs (p_fs_base p)) (upd_hw me (set_cr3 (p_cr3 p)) (s_cpus s))) s.

Definition switch_to (me next : Z) (s : sched) : option (leave * sched) :=
  r ← start_process me next s;
  let '(p, s) := r in
  let s := load_space me p s in
  if p_blocked p then
    let s := unlock s in
    Some (resume_kernel (p_ctx p) (p_saved_kernel_rsp p) true,
          with_cpus (gs_to_kernel percpu_base me (s_cpus s)) s)
  else
    Some (iret_frame (p_ctx p),
          unlock (with_cpus (gs_to_user percpu_base me (s_cpus s)) s)).

(** [cur->ticks = 0; cur->state = PROC_READY;] *)
Definition preempt (cur : Z) (s : sched) : option sched :=
  if cur =? 0 then Some s
  else upd_proc cur (λ p, set_p_state PROC_READY (set_p_ticks 0 p)) s.

(** Second half of the tick: choose the next process and switch to it. *)
Definition tick_switch (me cpu cur : Z) (regs : registers) (s : sched) : option (leave * sched) :=
  stay ← in_kernel cur regs s;
  if (stay : bool) then Some (iret_frame regs, unlock s)
  else
    next ← pick_next cpu cur s;
    if (next =? 0) || (next =? cur) then Some (iret_frame regs, unlock s)
    else s ← preempt cur s; switch_to me next s.

Definition scheduler_timer_tick (me : Z) (regs : registers) (fp : Z) (s : sched)
    : option (leave * sched) :=
  cpu ← percpu_index percpu_base me (s_cpus s);
  s ← lock s;
  let s := with_uptime (u64 (uptime_ticks s + 1)) s in
  cur ← get_current percpu_base me (s_cpus s);
  r ← tick_account me cpu cur regs fp s;
  match r with
  | inr s => Some (iret_frame regs, unlock s)
  | inl (cur, s) => tick_switch me cpu cur regs s
  end.

Definition scheduler_exit_current (me status : Z) (s : sched) : option (leave * sched) :=
  cpu ← percpu_index percpu_base me (s_cpus s);
  r ← lock_irq me s;
  let '(flags, s) := r in
  cur ← get_current percpu_base me (s_cpus s);
  s ← (if cur =? 0 then Some s
       else s ← upd_proc cur (set_p_exit_status (s32 status)) s;
            kill_cur_locked me cur cpu s);
  next ← pick_next cpu 0 s;
  if next =? 0 then Some (idle, unlock_irq me flags s)
  else
    r ← start_process me next s;
    let '(p, s) := r in
    let s := load_space me p (unlock_irq me flags s) in
    if p_blocked p then
      Some (resume_kernel (p_ctx p) (p_saved_kernel_rsp p) false,
            with_cpus (gs_to_kernel percpu_base me (s_cpus s)) s)
    else Some (resume_user (p_ctx p), with_cpus (gs_to_user percpu_base me (s_cpus s)) s).

Definition scheduler_terminate (me pid : Z) (s : sched) : option (bool * sched) :=
  r ← lock_irq me s;
  let '(flags, s) := r in
  a ← find_pid_locked pid s;
  if a =? 0 then Some (false, unlock_irq me flags s)
  else
    p ← procs s !! a;
    if bool_decide (p_state p ≠ PROC_ZOMBIE) then
      s ← upd_proc a (λ p, set_p_exit_status 2 (set_p_terminate true p)) s;
      Some (true, unlock_irq me flags s)
    else Some (false, unlock_irq me flags s).

Definition process_current (me : Z) (s : sched) : option Z := get_current percpu_base me (s_cpus s).

Definition scheduler_terminate_requested (me : Z) (s : sched) : option bool :=
  cur ← process_current me s;
  if cur =? 0 then Some false else p ← procs s !! cur; Some (p_terminate p).

Definition state_label (st : process_state) : string :=
  match st with PROC_RUNNING => "running" | PROC_ZOMBIE => "zombie" | _ => "ready" end.

(** The calls of the callback, in order: pid, name, state, cpu. *)
Definition list_step (cpu : Z) (P : gmap Z pcb) (st : Z * list (Z * list Z * string * Z)) :
    Z * list (Z * list Z * string * Z) + option (list (Z * list Z * string * Z)) :=
  let '(a, acc) := st in
  if a =? 0 then inr (Some acc)
  else match P !! a with
       | None => inr None
       | Some p => inl (p_next p, acc ++ [(p_pid p, p_name p, state_label (p_state p), cpu)])
       end.

Definition scheduler_list (me : Z) (s : sched) : option (list (Z * list Z * string * Z) * sched) :=
  r ← lock_irq me s;
  let '(flags, s) := r in
  match for_ 0 PERCPU_MAX_CPUS (λ cpu acc,
          match mjoin (while_ chain_fuel (list_step cpu (procs s)) (rq_head (rq s cpu), acc)) with
          | None => inr ()
          | Some acc => inl acc
          end) [] with
  | inl acc => Some (acc, unlock_irq me flags s)
  | inr _ => None
  end.

Definition scheduler_process_count (me : Z) (s : sched) : option (Z * sched) :=
  r ← lock_irq me s;
  let '(flags, s) := r in
  let total := for_do 0 PERCPU_MAX_CPUS (λ i n, u32 (n + rq_count (rq s i))) 0 in
  Some (total, unlock_irq me flags s).
End Scheduler.
Arguments sched : clear implicits.

(** ** Chains of control blocks *)

Section Queues.

Fixpoint chain (P : gmap Z pcb) (h : Z) (l : list Z) : Prop :=
  match l with
  | [] => h = 0
  | a :: l => h = a ∧ a ≠ 0 ∧ ∃ p, P !! a = Some p ∧ chain P (p_next p) l
  end.

Lemma chain_ext P P' h l :
  (∀ a, a ∈ l → p_next <$> P' !! a = p_next <$> P !! a) → chain P h l → chain P' h l.
Proof.
  revert h. induction l as [|a l IH]; intros h Hext; simpl; [done|].
  intros (-> & Ha & p & Hp & Hc). split_and!; [done..|].
  pose proof (Hext a ltac:(left)) as E. rewrite Hp in E.
  destruct (P' !! a) as [p'|]; [|done]. simpl in E. injection E as E.
  exists p'. split; [done|]. rewrite E. apply IH; [|done]. intros. apply Hext. by right.
Qed.

Lemma chain_elem P h l a : chain P h l → a ∈ l → a ≠ 0 ∧ is_Some (P !! a).
Proof.
  revert h. induction l as [|b l IH]; intros h Hc Ha; [by apply elem_of_nil in Ha|].
  destruct Hc as (-> & Hb & p & Hp & Hc). apply elem_of_cons in Ha as [->|Ha]; [by eauto|].
  by apply (IH _ Hc).
Qed.

(** Distinct 64-bit addresses: a chain is shorter than the fuel of the walks. *)
Lemma nodup_bound (l : list Z) n :
  NoDup l → Forall (λ a, 0 < a < n) l → 0 < n → Z.of_nat (length l) < n.
Proof.
  intros Hnd Hf Hn. assert (l ⊆+ seqZ 1 (n - 1)) as H.
  { apply NoDup_submseteq; [done|]. intros x Hx. rewrite Forall_forall in Hf.
    apply elem_of_seqZ. specialize (Hf x Hx). lia. }
  apply submseteq_length in H. rewrite length_seqZ in H. lia.
Qed.

(** *** Choosing a process *)

Definition eligible (P : gmap Z pcb) (skip a : Z) : bool :=
  match P !! a with
  | Some p => bool_decide (p_state p = PROC_READY) && negb (a =? skip)
  | None => false
  end.

(** The first process of the queue that is ready and is not [skip]; zero if none. *)
Fixpoint first_eligible (P : gmap Z pcb) (skip : Z) (l : list Z) : Z :=
  match l with
  | [] => 0
  | a :: l => if eligible P skip a then a else first_eligible P skip l
  end.

Lemma pick_walk P start skip h l :
  chain P h l → l ≠ [] → start ∉ tail l →
  iter_nat (length l) (pick_step start skip P) h = inr (Some (first_eligible P skip l)).
Proof.
  revert h. induction l as [|a l IH]; intros h Hc Hne Hs; [done|]. clear Hne.
  destruct Hc as (-> & Ha & p & Hp & Hc). simpl. unfold pick_step at 1, eligible. rewrite Hp.
  destruct (bool_decide _ && _); [done|]. simpl in Hs. destruct l as [|b l].
  - simpl in Hc. rewrite Hc. simpl. by rewrite Z.eqb_refl.
  - assert (p_next p = b ∧ b ≠ 0) as [En Hb] by (destruct Hc as (-> & ? & _); done).
    rewrite En. unfold truthy. replace (b =? 0) with false by lia. simpl negb. cbv iota.
    apply not_elem_of_cons in Hs as [Hsb Hs].
    replace (b =? start) with false by lia. apply IH; [rewrite En in Hc; exact Hc|done|done].
Qed.

Lemma pick_next_spec {M} (s : sched M) cpu skip l :
  chain (procs s) (rq_head (rq s cpu)) l → NoDup l →
  Z.of_nat (length l) ≤ Zpos chain_fuel →
  pick_next cpu skip s = Some (first_eligible (procs s) skip l).
Proof.
  intros Hc Hnd Hlen. unfold pick_next. destruct l as [|a l]; [by simpl in Hc; rewrite Hc|].
  assert (rq_head (rq s cpu) = a ∧ a ≠ 0) as [Eh Ha] by (destruct Hc as (? & ? & _); done).
  rewrite Eh in Hc |- *. replace (a =? 0) with false by lia.
  rewrite (while_steps _ _ _ _ _ (pick_walk _ a skip _ _ Hc ltac:(done)
             (proj1 (proj1 (NoDup_cons _ _) Hnd)))) by done. done.
Qed.

Lemma first_eligible_spec P skip l :
  let r := first_eligible P skip l in
  (r ≠ 0 → r ∈ l ∧ eligible P skip r = true) ∧
  (r = 0 → Forall (λ a, a ≠ 0) l → ∀ a, a ∈ l → eligible P skip a = false).
Proof.
  induction l as [|a l [IH1 IH2]]; simpl.
  - split; [done|]. intros _ _ a Ha. by apply elem_of_nil in Ha.
  - destruct (eligible P skip a) eqn:E.
    + split; [intros _; split; [apply elem_of_cons; by left|done]|]. intros E0 Hf. apply Forall_cons in Hf as [Hf _]. lia.
    + split; [intros Hr; destruct (IH1 Hr); split; [by right|done]|].
      intros Hr Hf b Hb. inversion Hf; subst. apply elem_of_cons in Hb as [->|Hb]; auto.
Qed.

(** *** Unlinking *)

Definition last_link (link : option Z) (l : list Z) : option Z :=
  match last l with Some a => Some a | None => link end.

Lemma unlink_walk {M} (s : sched M) cpu proc link h l1 l2 :
  read_link cpu link s = Some h → chain (procs s) h (l1 ++ l2) → proc ∉ l1 →
  iter_nat (length l1) (unlink_step cpu proc s) link = inl (last_link link l1) ∧
  ∃ h2, read_link cpu (last_link link l1) s = Some h2 ∧ chain (procs s) h2 l2.
Proof.
  revert link h. induction l1 as [|a l1 IH]; intros link h Hr Hc Hn; [by eauto|].
  apply not_elem_of_cons in Hn as [Hne Hn].
  destruct Hc as (-> & Ha & p & Hp & Hc). simpl. unfold unlink_step at 1. rewrite Hr.
  replace (a =? 0) with false by lia. replace (a =? proc) with false by lia.
  destruct (IH (Some a) (p_next p)) as (E1 & h2 & E2 & E3); [|done|done|].
  { simpl. by rewrite Hp. }
  rewrite E1. assert (last_link link (a :: l1) = last_link (Some a) l1) as ->.
  { unfold last_link. rewrite last_cons. by destruct (last l1). }
  eauto.
Qed.

(** What [unlink] changes in the store: the [next] field of the predecessor. *)
Definition relink (l1 : list Z) (n : Z) (P : gmap Z pcb) : gmap Z pcb :=
  match last l1 with
  | Some a => match P !! a with Some p => <[a := set_p_next n p]> P | None => P end
  | None => P
  end.

Lemma relink_lookup l1 n P x :
  ∃ k, relink l1 n P !! x = set_p_next k <$> P !! x ∧
       (x ∉ l1 → ∀ p, P !! x = Some p → k = p_next p).
Proof.
  unfold relink. assert (∃ k, P !! x = set_p_next k <$> P !! x ∧
     (x ∉ l1 → ∀ p, P !! x = Some p → k = p_next p)) as Hsame.
  { destruct (P !! x) as [p|]; [|by exists 0]. exists (p_next p). split; [by destruct p|].
    intros _ p' [= <-]. done. }
  destruct (last l1) as [a|] eqn:El; [|done]. destruct (P !! a) as [p|] eqn:Hp; [|done].
  destruct (decide (a = x)) as [->|Hne].
  - exists n. rewrite lookup_insert_eq, Hp. split; [done|]. intros Hx.
    exfalso. apply Hx. by apply last_Some_elem_of.
  - by rewrite lookup_insert_ne.
Qed.

Lemma relink_chain P h l1 a p l2 :
  chain P h (l1 ++ a :: l2) → NoDup (l1 ++ a :: l2) → P !! a = Some p →
  chain (relink l1 (p_next p) P) (match l1 with [] => p_next p | _ => h end) (l1 ++ l2).
Proof.
  revert h. induction l1 as [|b l1 IH]; intros h Hc Hnd Hp.
  - destruct Hc as (_ & _ & p' & Hp' & Hc). rewrite Hp in Hp'. injection Hp' as <-. done.
  - destruct Hc as (-> & Hb & pb & Hpb & Hc). simpl in Hnd. apply NoDup_cons in Hnd as [Hbn Hnd].
    split_and!; [done|done|]. destruct l1 as [|c l1].
    + unfold relink. simpl. rewrite Hpb. exists (set_p_next (p_next p) pb).
      rewrite lookup_insert_eq. split; [done|]. simpl.
      destruct Hc as (_ & _ & p' & Hp' & Hc). rewrite Hp in Hp'. injection Hp' as <-.
      revert Hc. apply chain_ext. intros x Hx. rewrite lookup_insert_ne; [done|].
      intros ->. apply Hbn. apply elem_of_app. right. by right.
    + assert (relink (b :: c :: l1) (p_next p) P = relink (c :: l1) (p_next p) P) as ->.
      { unfold relink. by rewrite last_cons_cons. }
      destruct (relink_lookup (c :: l1) (p_next p) P b) as (k & Ek & Hk).
      rewrite Hpb in Ek. exists (set_p_next k pb). split; [done|].
      rewrite (Hk ltac:(intros Hin; apply Hbn, elem_of_app; by left) pb Hpb).
      simpl. exact (IH (p_next pb) Hc Hnd Hp).
Qed.

Definition unlinked {M} (cpu : Z) (l1 : list Z) (n : Z) (s : sched M) : sched M :=
  upd_rq cpu (λ r, set_rq_count (u32 (rq_count r - 1)) r)
    (match last l1 with
     | None => upd_rq cpu (set_rq_head n) s
     | Some _ => with_procs (relink l1 n (procs s)) s
     end).

Lemma unlink_spec {M} (s : sched M) cpu a p l1 l2 :
  chain (procs s) (rq_head (rq s cpu)) (l1 ++ a :: l2) → NoDup (l1 ++ a :: l2) →
  Z.of_nat (length (l1 ++ a :: l2)) ≤ Zpos chain_fuel → procs s !! a = Some p →
  unlink cpu a s = Some (unlinked cpu l1 (p_next p) s).
Proof.
  intros Hc Hnd Hlen Hp. assert (a ∉ l1) as Hn.
  { apply NoDup_app in Hnd as (_ & Hd & _). intros Hin. apply (Hd a Hin). by left. }
  destruct (unlink_walk s cpu a None _ l1 (a :: l2) eq_refl Hc Hn) as (E1 & h2 & E2 & E3).
  destruct E3 as (-> & Ha & p' & Hp' & _). unfold unlink.
  rewrite (while_steps (length l1 + 1) _ _ _
             (Some (unlinked cpu l1 (p_next p) s))); [done| |rewrite length_app in Hlen; simpl in *; lia].
  rewrite iter_nat_add, E1. simpl. unfold unlink_step. rewrite E2.
  replace (a =? 0) with false by lia. rewrite Z.eqb_refl, Hp. simpl. unfold unlinked, relink.
  unfold last_link in *. destruct (last l1) as [b|] eqn:El; simpl; [|done].
  unfold upd_proc. simpl in E2. destruct (procs s !! b) as [pb|]; [|done]. done.
Qed.

Lemma find_walk P pid h l :
  chain P h l →
  ∃ r, iter_nat (length l + 1) (find_step pid P) h = inr (Some r) ∧
       (r = 0 ∨ r ∈ l) .
Proof.
  revert h. induction l as [|a l IH]; intros h Hc.
  - simpl in Hc. subst h. exists 0. by split; [|left].
  - destruct Hc as (-> & Ha & p & Hp & Hc). simpl. unfold find_step at 1.
    replace (a =? 0) with false by lia. rewrite Hp. destruct (p_pid p =? pid).
    + exists a. split; [done|right; by left].
    + destruct (IH _ Hc) as (r & Hr & Hin). exists r. split; [done|].
      destruct Hin; [by left|right; by right].
Qed.

Lemma list_walk P cpu h l acc :
  chain P h l → ∃ acc', iter_nat (length l + 1) (list_step cpu P) (h, acc) = inr (Some acc').
Proof.
  revert h acc. induction l as [|a l IH]; intros h acc Hc.
  - simpl in Hc. subst h. by exists acc.
  - destruct Hc as (-> & Ha & p & Hp & Hc). simpl. 
    replace (a =? 0) with false by lia. rewrite Hp. apply (IH _ _ Hc).
Qed.
End Queues.

(** ** Representation *)

(** What the scheduler relies on: [pm_ok P m] says that [m] holds the memory of
    the live processes [P]; it is about the fields the scheduler never writes,
    and the memory of any live process can be given back. *)
Definition owned (p : pcb) : Z * Z := (p_cr3 p, p_kernel_stack_top p).

Class ProcessMemoryOk (M : Type) `{!ProcessMemory M} : Type := {
  pm_ok : gmap Z pcb → M → Prop;
  pm_ok_ext : ∀ P P' m,
    (∀ a, owned <$> P' !! a = owned <$> P !! a) → pm_ok P m → pm_ok P' m;
  pm_destroy_ok : ∀ P m a p,
    pm_ok P m → P !! a = Some p →
    ∃ m', pm_destroy p a m = Some m' ∧ pm_ok (delete a P) m'
}.

Definition cpu_in (c : Z) : Prop := 0 ≤ c < PERCPU_MAX_CPUS.

(** The process cpu [c] is running. *)
Definition cur_of {M} (s : sched M) (c : Z) : Z := pc_current (g_percpu (s_cpus s) c).

Section Correct.
Context {M : Type} `{!ProcessMemory M, !ProcessMemoryOk M}.
Context (percpu_base : Z).
Implicit Types (s : sched M) (q : Z → list Z).

(** [q c] is the queue of cpu [c]: the chain from its head, with no repetition
    and with its length in the counter; its members live on cpu [c] and are
    ready, except the current process, which may be running. *)
Record wf0 q s : Prop := {
  wf_addr : ∀ a p, procs s !! a = Some p → 0 < a < 18446744073709551616;
  wf_chain : ∀ c, cpu_in c → chain (procs s) (rq_head (rq s c)) (q c);
  wf_count : ∀ c, cpu_in c → rq_count (rq s c) = u32 (Z.of_nat (length (q c)));
  wf_nodup : ∀ c, cpu_in c → NoDup (q c);
  wf_home : ∀ c a p, cpu_in c → a ∈ q c → procs s !! a = Some p → p_cpu p = c;
  wf_state : ∀ c a p, cpu_in c → a ∈ q c → procs s !! a = Some p →
    p_state p = PROC_READY ∨ (p_state p = PROC_RUNNING ∧ cur_of s c = a);
  wf_current : ∀ c, cpu_in c → cur_of s c = 0 ∨ cur_of s c ∈ q c;
  wf_cpus : ∀ c, cpu_in c → cpu_ok percpu_base c (s_cpus s);
  wf_ncpu : 0 ≤ smp_cpu_count s ≤ PERCPU_MAX_CPUS;
  wf_mem : pm_ok (procs s) (s_mach s)
}.

Definition wf q s : Prop := wf0 q s ∧ sched_lock s = false.

Lemma wf_elem q s c a : wf0 q s → cpu_in c → a ∈ q c → a ≠ 0 ∧ ∃ p, procs s !! a = Some p.
Proof. intros H Hc Ha. destruct (chain_elem _ _ _ _ (wf_chain _ _ H c Hc) Ha) as [? [p ?]]. eauto. Qed.

Lemma wf_len q s c : wf0 q s → cpu_in c → Z.of_nat (length (q c)) < 18446744073709551616.
Proof.
  intros H Hc. apply nodup_bound; [by eapply wf_nodup| |lia]. rewrite Forall_forall.
  intros a Ha. destruct (wf_elem q s c a H Hc Ha) as (_ & p & Hp). by apply (wf_addr _ _ H a p).
Qed.

Lemma wf_disjoint q s c d a : wf0 q s → cpu_in c → cpu_in d → a ∈ q c → a ∈ q d → c = d.
Proof.
  intros H Hc Hd Hac Had. destruct (wf_elem q s c a H Hc Hac) as (_ & p & Hp).
  by rewrite <- (wf_home _ _ H c a p), <- (wf_home _ _ H d a p).
Qed.

(** The fields the queues and the memory of the processes hang on. *)
Definition core (p : pcb) : Z * Z * (Z * Z) := (p_next p, p_cpu p, owned p).

Lemma core_lookup (P P' : gmap Z pcb) a p' :
  core <$> P' !! a = core <$> P !! a → P' !! a = Some p' → ∃ p, P !! a = Some p ∧ core p = core p'.
Proof.
  intros E Hp. symmetry in E. rewrite Hp in E. destruct (P !! a) as [p|]; [|done]. exists p. split; [done|]. by apply (inj Some).
Qed.

Lemma core_fields (x y : option pcb) :
  core <$> x = core <$> y → p_next <$> x = p_next <$> y ∧ owned <$> x = owned <$> y.
Proof.
  destruct x as [x|], y as [y|]; intros E; try done. injection E as E1 E2 E3 E4.
  unfold owned. simpl. rewrite E1, E3, E4. done.
Qed.

(** A change that keeps the links, with the states and current processes given. *)
Lemma wf0_intro q s s' :
  wf0 q s →
  (∀ a, core <$> procs s' !! a = core <$> procs s !! a) →
  (∀ c, rq_head (rq s' c) = rq_head (rq s c) ∧ rq_count (rq s' c) = rq_count (rq s c)) →
  smp_cpu_count s' = smp_cpu_count s → s_mach s' = s_mach s →
  (∀ c, cpu_in c → cpu_ok percpu_base c (s_cpus s')) →
  (∀ c a p, cpu_in c → a ∈ q c → procs s' !! a = Some p →
     p_state p = PROC_READY ∨ (p_state p = PROC_RUNNING ∧ cur_of s' c = a)) →
  (∀ c, cpu_in c → cur_of s' c = 0 ∨ cur_of s' c ∈ q c) →
  wf0 q s'.
Proof.
  intros H Hcore Hrq Hn Hm Hcpu Hst Hcur. split; try done.
  - intros a p Hp. destruct (core_lookup _ _ _ _ (Hcore a) Hp) as (p0 & Hp0 & _).
    by apply (wf_addr _ _ H a p0).
  - intros c Hc. destruct (Hrq c) as [-> _]. apply (chain_ext (procs s)); [|by apply H].
    intros a _. by apply core_fields.
  - intros c Hc. destruct (Hrq c) as [_ ->]. by apply H.
  - apply H.
  - intros c a p Hc Ha Hp. destruct (core_lookup _ _ _ _ (Hcore a) Hp) as (p0 & Hp0 & E).
    injection E as _ E _ _. rewrite <- E. by apply (wf_home _ _ H c a p0).
  - rewrite Hn. apply H.
  - rewrite Hm. apply (pm_ok_ext (procs s)); [|apply H].
    intros a. by apply core_fields.
Qed.

(** A change the queues do not see. *)
Lemma wf0_frame q s s' :
  wf0 q s →
  (∀ a, core <$> procs s' !! a = core <$> procs s !! a) →
  (∀ a, p_state <$> procs s' !! a = p_state <$> procs s !! a) →
  (∀ c, rq_head (rq s' c) = rq_head (rq s c) ∧ rq_count (rq s' c) = rq_count (rq s c)) →
  smp_cpu_count s' = smp_cpu_count s → s_mach s' = s_mach s →
  (∀ c, cpu_in c → cpu_ok percpu_base c (s_cpus s')) →
  (∀ c, cpu_in c → cur_of s' c = cur_of s c) →
  wf0 q s'.
Proof.
  intros H Hcore Hst Hrq Hn Hm Hcpu Hcur. apply (wf0_intro q s); try done.
  - intros c a p Hc Ha Hp. rewrite Hcur by done. specialize (Hst a). rewrite Hp in Hst.
    destruct (procs s !! a) as [p0|] eqn:Hp0; [|done]. injection Hst as ->.
    by apply (wf_state _ _ H c a p0).
  - intros c Hc. rewrite Hcur by done. by apply (wf_current _ _ H).
Qed.

(** *** Locking and registers *)

Lemma wf0_lock q s b : wf0 q s → wf0 q (with_lock b s).
Proof. intros []. by split. Qed.

Lemma wf0_uptime q s n : wf0 q s → wf0 q (with_uptime n s).
Proof. intros []. by split. Qed.

Lemma wf0_cpus q s cs :
  wf0 q s → (∀ c, cpu_in c → cpu_ok percpu_base c cs) →
  (∀ c, pc_current (g_percpu cs c) = cur_of s c) → wf0 q (with_cpus cs s).
Proof. intros H Hok Hc. apply (wf0_frame q s); try done. intros c _. apply Hc. Qed.

Lemma wf0_hw q s me f :
  (∀ h, hw_gs_base (f h) = hw_gs_base h ∧ hw_kernel_gs_base (f h) = hw_kernel_gs_base h) →
  wf0 q s → wf0 q (with_cpus (upd_hw me f (s_cpus s)) s).
Proof.
  intros Hf H. apply wf0_cpus; [done| |done]. intros c Hc. apply cpu_ok_upd_hw; [done|].
  by apply (wf_cpus _ _ H).
Qed.

Lemma wf0_load_space q s me p : wf0 q s → wf0 q (load_space me p s).
Proof.
  intros H. unfold load_space.
  apply (wf0_hw q (with_cpus (upd_hw me (set_cr3 (p_cr3 p)) (s_cpus s)) s) me (set_fs (p_fs_base p)));
    [by intros []|]. apply wf0_hw; [by intros []|done].
Qed.

Lemma wf0_gs_to_user q s me :
  cpu_in me → wf0 q s → wf0 q (with_cpus (gs_to_user percpu_base me (s_cpus s)) s).
Proof.
  intros Hme H. apply wf0_cpus; [done| |by intros; unfold cur_of; rewrite gs_to_user_percpu].
  intros c Hc. destruct (decide (c = me)) as [->|Hne].
  - apply cpu_ok_gs_to_user. by apply (wf_cpus _ _ H).
  - apply (cpu_ok_other _ c me (s_cpus s)); [done|by apply gs_to_user_percpu| |by apply (wf_cpus _ _ H)].
    intros. by apply gs_to_user_hw.
Qed.

Lemma wf0_gs_to_kernel q s me :
  cpu_in me → wf0 q s → wf0 q (with_cpus (gs_to_kernel percpu_base me (s_cpus s)) s).
Proof.
  intros Hme H. apply wf0_cpus; [done| |by intros; unfold cur_of; rewrite gs_to_kernel_percpu].
  intros c Hc. destruct (decide (c = me)) as [->|Hne].
  - apply cpu_ok_gs_to_kernel. by apply (wf_cpus _ _ H).
  - apply (cpu_ok_other _ c me (s_cpus s)); [done|by apply gs_to_kernel_percpu| |by apply (wf_cpus _ _ H)].
    intros. by apply gs_to_kernel_hw.
Qed.

Lemma lock_spec q s : wf q s → lock s = Some (with_lock true s).
Proof. intros [_ Hl]. unfold lock. by rewrite Hl. Qed.

(** The state inside a critical section entered with interrupts masked. *)
Definition masked (me : Z) s : sched M :=
  with_lock true (with_cpus (upd_hw me (set_if false) (s_cpus s)) s).

Lemma lock_irq_spec q s me :
  wf q s → lock_irq me s = Some (hw_if (hw (s_cpus s) me), masked me s) ∧ wf0 q (masked me s).
Proof.
  intros [H Hl]. unfold lock_irq, spinlock_acquire_irq. rewrite Hl. split; [done|].
  apply wf0_lock, wf0_hw; [by intros []|done].
Qed.

Lemma unlock_irq_wf q s me flags : wf0 q s → wf q (unlock_irq me flags s).
Proof.
  intros H. split; [|done]. unfold unlock_irq. simpl.
  apply wf0_lock, wf0_hw; [by intros []|done].
Qed.

Lemma unlock_wf q s : wf0 q s → wf q (unlock s).
Proof. intros H. split; [by apply wf0_lock|done]. Qed.

(** *** Store updates *)

Lemma fmap_insert_same {B} (g : pcb → B) (P : gmap Z pcb) a p p' b :
  P !! a = Some p → g p' = g p → g <$> <[a := p']> P !! b = g <$> P !! b.
Proof.
  intros Hp E. destruct (decide (a = b)) as [->|Hne]; [|by rewrite lookup_insert_ne].
  rewrite lookup_insert_eq, Hp. simpl. by rewrite E.
Qed.

Lemma upd_proc_some s a f p :
  procs s !! a = Some p → upd_proc a f s = Some (with_procs (<[a := f p]> (procs s)) s).
Proof. intros Hp. unfold upd_proc. by rewrite Hp. Qed.

Lemma wf0_upd_proc q s a f p :
  wf0 q s → procs s !! a = Some p → core (f p) = core p → p_state (f p) = p_state p →
  wf0 q (with_procs (<[a := f p]> (procs s)) s).
Proof.
  intros H Hp Hc Hs. apply (wf0_frame q s); try done.
  - intros b. by apply fmap_insert_same with (p := p).
  - intros b. by apply fmap_insert_same with (p := p).
  - apply H.
Qed.

Lemma wf0_upd_rq q s c f :
  wf0 q s → (∀ r, rq_head (f r) = rq_head r ∧ rq_count (f r) = rq_count r) → wf0 q (upd_rq c f s).
Proof.
  intros H Hf. apply (wf0_frame q s); try done; [|apply H].
  intros d. simpl. destruct (decide (c = d)) as [->|]; [rewrite fn_lookup_insert; apply Hf|].
  by rewrite fn_lookup_insert_ne.
Qed.

(** *** Enqueueing *)

Lemma length_u32_succ (l : list Z) (a : Z) :
  u32 (u32 (Z.of_nat (length l)) + 1) = u32 (Z.of_nat (length (a :: l))).
Proof.
  unfold u32. rewrite Zplus_mod_idemp_l. f_equal. simpl length. lia.
Qed.

Definition enqueued (c a : Z) (p : pcb) s : sched M :=
  upd_rq c (λ r, set_rq_count (u32 (rq_count r + 1)) r)
    (upd_rq c (set_rq_head a)
       (with_procs (<[a := set_p_next (rq_head (rq s c)) (make_ready c p)]>
                      (<[a := make_ready c p]> (procs s))) s)).

Lemma enqueue_some s c a p :
  procs s !! a = Some p →
  (s ← upd_proc a (make_ready c) s; push_front c a s) = Some (enqueued c a p s).
Proof.
  intros Hp. rewrite (upd_proc_some _ _ _ _ Hp). simpl. unfold push_front.
  erewrite upd_proc_some by (simpl; apply lookup_insert_eq). done.
Qed.

Lemma enqueued_procs s c a p b :
  procs (enqueued c a p s) !! b =
  if decide (b = a) then Some (set_p_next (rq_head (rq s c)) (make_ready c p)) else procs s !! b.
Proof.
  simpl. case_decide; [subst; by rewrite lookup_insert_eq|]. by rewrite !lookup_insert_ne.
Qed.

Lemma enqueued_rq s c a p d :
  rq_head (rq (enqueued c a p s) d) = (if decide (d = c) then a else rq_head (rq s d)) ∧
  rq_count (rq (enqueued c a p s) d) =
    (if decide (d = c) then u32 (rq_count (rq s d) + 1) else rq_count (rq s d)).
Proof.
  simpl. case_decide; [subst; by rewrite !fn_lookup_insert|]. by rewrite !fn_lookup_insert_ne.
Qed.

Lemma wf0_enqueued q s c a p :
  wf0 q s → cpu_in c → procs s !! a = Some p → (∀ d, cpu_in d → a ∉ q d) →
  wf0 (<[c := a :: q c]> q) (enqueued c a p s).
Proof.
  intros H Hc Hp Hfresh.
  assert (∀ d b, cpu_in d → b ∈ (<[c := a :: q c]> q) d → b = a ∧ d = c ∨ b ≠ a ∧ b ∈ q d) as Hin.
  { intros d b Hd. destruct (decide (c = d)) as [->|Hne].
    - rewrite fn_lookup_insert, elem_of_cons. intros [->|Hb]; [by left|].
      right. split; [|done]. intros ->. by apply (Hfresh d Hd).
    - rewrite fn_lookup_insert_ne by done. intros Hb. right. split; [|done].
      intros ->. by apply (Hfresh d Hd). }
  split; try apply H.
  - intros b pb. rewrite enqueued_procs. case_decide; [subst|]; intros; by eapply wf_addr.
  - intros d Hd. rewrite (proj1 (enqueued_rq s c a p d)).
    assert (chain (procs (enqueued c a p s)) (rq_head (rq s d)) (q d)) as Hch.
    { apply (chain_ext (procs s)); [|by apply H]. intros b Hb. rewrite enqueued_procs.
      case_decide; [subst; by destruct (Hfresh d Hd)|done]. }
    case_decide as E; [subst d; rewrite fn_lookup_insert|by rewrite fn_lookup_insert_ne].
    split; [done|]. split; [pose proof (wf_addr _ _ H a p Hp); lia|].
    eexists. rewrite enqueued_procs, decide_True by done. split; [done|]. exact Hch.
  - intros d Hd. rewrite (proj2 (enqueued_rq s c a p d)), (wf_count _ _ H d Hd).
    case_decide as E; [subst d; rewrite fn_lookup_insert; apply length_u32_succ|].
    by rewrite fn_lookup_insert_ne.
  - intros d Hd. destruct (decide (c = d)) as [->|Hne].
    + rewrite fn_lookup_insert. apply NoDup_cons. split; [by apply Hfresh|by apply H].
    + rewrite fn_lookup_insert_ne by done. by apply H.
  - intros d b pb Hd Hb. rewrite enqueued_procs. apply Hin in Hb as [[-> ->]|[Hne Hb]]; [| |done].
    + rewrite decide_True by done. by intros [= <-].
    + rewrite decide_False by done. by apply (wf_home _ _ H).
  - intros d b pb Hd Hb. rewrite enqueued_procs. apply Hin in Hb as [[-> ->]|[Hne Hb]]; [| |done].
    + rewrite decide_True by done. intros [= <-]. by left.
    + rewrite decide_False by done. by apply (wf_state _ _ H).
  - intros d Hd. destruct (wf_current _ _ H d Hd) as [E|E]; [by left|right].
    destruct (decide (c = d)) as [->|Hne]; [rewrite fn_lookup_insert; by right|].
    by rewrite fn_lookup_insert_ne.
  - apply (pm_ok_ext (procs s)); [|apply H]. intros b. rewrite enqueued_procs.
    case_decide; [subst|done]. by rewrite Hp.
Qed.

(** The selected cpu is one of those started, no other is less loaded, and the
    lowest such index is taken. *)
Lemma least_loaded_spec s :
  0 < cpu_count s →
  let b := least_loaded_locked s in
  0 ≤ b < cpu_count s ∧
  ∀ i, 0 ≤ i < cpu_count s →
    less_loaded (rq s i) (rq s b) = false ∧ (i < b → less_loaded (rq s b) (rq s i) = true).
Proof.
  intros Hn b. subst b. unfold least_loaded_locked.
  apply (for_do_ind (λ k best, 0 ≤ best < k ∧ ∀ i, 0 ≤ i < k →
    less_loaded (rq s i) (rq s best) = false ∧ (i < best → less_loaded (rq s best) (rq s i) = true)));
    [lia| |].
  - split; [lia|]. intros i Hi. replace i with 0 by lia. unfold less_loaded. split; lia.
  - intros k best Hk [Hb Hmin]. destruct (less_loaded (rq s k) (rq s best)) eqn:E.
    + split; [lia|]. intros i Hi. destruct (decide (i = k)) as [->|Hne].
      * unfold less_loaded. split; lia.
      * destruct (Hmin i ltac:(lia)) as [H1 _]. unfold less_loaded in *. split; lia.
    + split; [lia|]. intros i Hi. destruct (decide (i = k)) as [->|Hne]; [split; [done|lia]|].
      apply Hmin. lia.
Qed.

Lemma cpu_count_range q s : wf0 q s → 0 < cpu_count s ≤ PERCPU_MAX_CPUS.
Proof.
  intros H. pose proof (wf_ncpu _ _ H). unfold cpu_count, truthy, PERCPU_MAX_CPUS in *.
  destruct (Z.eqb_spec (smp_cpu_count s) 0); simpl; lia.
Qed.

Lemma least_loaded_in q s : wf0 q s → cpu_in (least_loaded_locked s).
Proof.
  intros H. pose proof (cpu_count_range q s H) as Hn.
  destruct (least_loaded_spec s ltac:(lia)) as [Hb _]. unfold cpu_in. lia.
Qed.

(** *** Killing the current process *)

Lemma unlinked_procs s c l1 n : procs (unlinked c l1 n s) = relink l1 n (procs s).
Proof. unfold unlinked, relink. by destruct (last l1). Qed.

Lemma unlinked_rq s c l1 n d :
  rq_head (rq (unlinked c l1 n s) d) =
    (if decide (d = c) then match l1 with [] => n | _ => rq_head (rq s d) end else rq_head (rq s d)) ∧
  rq_count (rq (unlinked c l1 n s) d) =
    (if decide (d = c) then u32 (rq_count (rq s d) - 1) else rq_count (rq s d)).
Proof.
  unfold unlinked. destruct (last l1) as [b|] eqn:El.
  - destruct l1; [done|]. simpl. case_decide; [subst; by rewrite fn_lookup_insert|].
    by rewrite fn_lookup_insert_ne.
  - apply last_None in El as ->. simpl. case_decide; [subst; by rewrite !fn_lookup_insert|].
    by rewrite !fn_lookup_insert_ne.
Qed.

Lemma unlinked_rest s c l1 n :
  s_cpus (unlinked c l1 n s) = s_cpus s ∧ s_mach (unlinked c l1 n s) = s_mach s ∧
  smp_cpu_count (unlinked c l1 n s) = smp_cpu_count s ∧
  sched_lock (unlinked c l1 n s) = sched_lock s ∧ uptime_ticks (unlinked c l1 n s) = uptime_ticks s.
Proof. unfold unlinked. by destruct (last l1). Qed.

(** Without [a] in its queue and as the current process. *)
Definition dropped (me : Z) (l1 : list Z) (n : Z) s : sched M :=
  with_cpus (upd_percpu me (set_pc_current 0) (s_cpus s)) (unlinked me l1 n s).

Lemma cur_of_upd s me f c :
  pc_current (g_percpu (upd_percpu me f (s_cpus s)) c) =
  if decide (c = me) then pc_current (f (g_percpu (s_cpus s) c)) else cur_of s c.
Proof.
  simpl. case_decide; [subst; by rewrite fn_lookup_insert|]. by rewrite fn_lookup_insert_ne.
Qed.

Lemma length_u32_pred (l1 l2 : list Z) (a : Z) :
  u32 (u32 (Z.of_nat (length (l1 ++ a :: l2))) - 1) = u32 (Z.of_nat (length (l1 ++ l2))).
Proof.
  unfold u32. rewrite Zminus_mod_idemp_l. f_equal. rewrite !length_app. simpl. lia.
Qed.

Lemma relink_view {B} (g : pcb → B) l1 n P x :
  (∀ k p, g (set_p_next k p) = g p) → g <$> relink l1 n P !! x = g <$> P !! x.
Proof.
  intros Hg. destruct (relink_lookup l1 n P x) as (k & -> & _).
  destruct (P !! x); simpl; [by rewrite Hg|done].
Qed.

Lemma relink_inv l1 n P x p' :
  relink l1 n P !! x = Some p' → ∃ p k, P !! x = Some p ∧ p' = set_p_next k p.
Proof.
  destruct (relink_lookup l1 n P x) as (k & -> & _). destruct (P !! x) as [p|]; [|done].
  intros [= <-]. eauto.
Qed.

Lemma dropped_procs me l1 n s : procs (dropped me l1 n s) = relink l1 n (procs s).
Proof. apply unlinked_procs. Qed.

Lemma wf0_dropped q s me a p l1 l2 :
  wf0 q s → cpu_in me → q me = l1 ++ a :: l2 → procs s !! a = Some p → cur_of s me = a →
  wf0 (<[me := l1 ++ l2]> q) (dropped me l1 (p_next p) s).
Proof.
  intros H Hme Hq Hp Hcur. destruct (unlinked_rest s me l1 (p_next p)) as (Ec & Em & En & _ & _).
  assert (∀ d b, cpu_in d → b ∈ (<[me := l1 ++ l2]> q) d → b ∈ q d ∧ b ≠ a) as Hin.
  { intros d b Hd. destruct (decide (me = d)) as [->|Hne].
    - rewrite fn_lookup_insert, Hq, !elem_of_app, elem_of_cons.
      pose proof (wf_nodup _ _ H d Hd) as Hnd. rewrite Hq in Hnd.
      apply NoDup_app in Hnd as (_ & Hd1 & Hd2). apply NoDup_cons in Hd2 as [Hd2 _].
      intros [Hb|Hb]; (split; [tauto|]); intros ->; [|done]. apply (Hd1 a Hb). by left.
    - rewrite fn_lookup_insert_ne by done. intros Hb. split; [done|]. intros ->.
      apply Hne. apply (wf_disjoint q s me d a); try done.
      rewrite Hq. apply elem_of_app. right. by left. }
  split; rewrite ?dropped_procs; try apply H; change (rq (dropped ?x ?y ?z ?w)) with (rq (unlinked x y z w)).
  - intros b pb Hb. apply relink_inv in Hb as (p0 & k & Hp0 & _). by eapply wf_addr.
  - intros d Hd. rewrite (proj1 (unlinked_rq s me l1 (p_next p) d)).
    case_decide as E.
    + subst d. rewrite fn_lookup_insert.
      pose proof (wf_chain _ _ H me Hme) as Hch. rewrite Hq in Hch.
      apply (relink_chain (procs s) (rq_head (rq s me)) l1 a p l2); [done| |done].
      rewrite <- Hq. by apply H.
    + rewrite fn_lookup_insert_ne by done.
      apply (chain_ext (procs s)); [|by apply H]. intros b Hb.
      destruct (relink_lookup l1 (p_next p) (procs s) b) as (k & -> & Hk).
      destruct (procs s !! b) as [pb|] eqn:Hpb; [|done]. simpl. f_equal. apply Hk; [|done].
      intros Hb1. apply E, (wf_disjoint q s d me b); try done.
      rewrite Hq. apply elem_of_app. by left.
  - intros d Hd. rewrite (proj2 (unlinked_rq s me l1 (p_next p) d)), (wf_count _ _ H d Hd).
    case_decide as E; [|by rewrite fn_lookup_insert_ne].
    subst d. rewrite fn_lookup_insert, Hq. apply length_u32_pred.
  - intros d Hd. destruct (decide (me = d)) as [->|Hne]; [|rewrite fn_lookup_insert_ne by done; by apply H].
    rewrite fn_lookup_insert. pose proof (wf_nodup _ _ H d Hd) as Hnd. rewrite Hq in Hnd.
    apply (sublist_NoDup _ _ Hnd). apply sublist_app; [done|]. by apply sublist_cons.
  - intros d b pb Hd Hb Hpb. apply relink_inv in Hpb as (p0 & k & Hp0 & ->). simpl.
    apply (wf_home _ _ H d b p0); [done|by apply Hin|done].
  - intros d b pb Hd Hb Hpb. apply relink_inv in Hpb as (p0 & k & Hp0 & ->).
    destruct (Hin d b Hd Hb) as [Hb1 Hb2]. unfold cur_of at 1. simpl s_cpus. rewrite cur_of_upd.
    destruct (wf_state _ _ H d b p0 Hd Hb1 Hp0) as [E|[E1 E2]]; [by left|]. right. split; [done|].
    case_decide; [subst d; congruence|done].
  - intros d Hd. unfold cur_of. simpl s_cpus. rewrite cur_of_upd. case_decide; [by left|].
    rewrite fn_lookup_insert_ne by done. by apply H.
  - intros d Hd. apply cpu_ok_upd_percpu; [by intros []|]. by apply H.
  - unfold dropped. cbn [with_cpus smp_cpu_count]. rewrite En. apply H.
  - unfold dropped. cbn [with_cpus s_mach]. rewrite Em. apply (pm_ok_ext (procs s)); [|apply H]. intros b. by apply relink_view.
Qed.

Lemma wf0_delete q s a p m :
  wf0 q s → procs s !! a = Some p → (∀ c, cpu_in c → a ∉ q c) →
  pm_ok (delete a (procs s)) m →
  wf0 q (with_mach m (with_procs (delete a (procs s)) s)).
Proof.
  intros H Hp Hn Hm. split; simpl; try apply H; try done.
  - intros b pb Hb. apply lookup_delete_Some in Hb as [_ Hb]. by eapply wf_addr.
  - intros c Hc. apply (chain_ext (procs s)); [|by apply H]. intros b Hb.
    rewrite lookup_delete_ne; [done|]. intros ->. by apply (Hn c Hc).
  - intros c b pb Hc Hb Hpb. apply lookup_delete_Some in Hpb as [_ Hpb]. by apply (wf_home _ _ H c b).
  - intros c b pb Hc Hb Hpb. apply lookup_delete_Some in Hpb as [_ Hpb]. by apply (wf_state _ _ H c b).
Qed.

(** The queue of cpu [me] without [a]. *)
Definition q_drop q (me a : Z) : Z → list Z := <[me := filter (λ x, x ≠ a) (q me)]> q.

Lemma filter_split (l1 l2 : list Z) a :
  NoDup (l1 ++ a :: l2) → filter (λ x, x ≠ a) (l1 ++ a :: l2) = l1 ++ l2.
Proof.
  intros Hnd. apply NoDup_app in Hnd as (_ & Hd & Hnd). apply NoDup_cons in Hnd as [Hd2 _].
  assert (∀ l : list Z, a ∉ l → filter (λ x, x ≠ a) l = l) as Hid.
  { induction l as [|b l IH]; intros Hn; [done|]. apply not_elem_of_cons in Hn as [Hne Hn].
    rewrite filter_cons_True by done. by rewrite IH. }
  rewrite filter_app, filter_cons_False by tauto. rewrite !Hid; [done|done|].
  intros Hin. apply (Hd a Hin). by left.
Qed.

Lemma q_drop_not q s me a c :
  wf0 q s → cpu_in me → cpu_in c → a ∈ q me → a ∉ q_drop q me a c.
Proof.
  intros H Hme Hc Ha Hb. unfold q_drop in Hb. destruct (decide (me = c)) as [->|Hne].
  - rewrite fn_lookup_insert in Hb. by apply list_elem_of_filter in Hb as [? _].
  - rewrite fn_lookup_insert_ne in Hb by done. by apply Hne, (wf_disjoint q s me c a).
Qed.

(** Another process keeps everything but its place in the queue. *)
Definition others_kept (a : Z) s s' : Prop :=
  ∀ x, x ≠ a → ∃ k, procs s' !! x = set_p_next k <$> procs s !! x.

Definition buried (p : pcb) : pcb := set_p_terminate false (set_p_state PROC_ZOMBIE p).

Lemma kill_spec q s me p :
  let cur := cur_of s me in
  wf0 q s → cpu_in me → cur ≠ 0 → procs s !! cur = Some p →
  ∃ s', kill_cur_locked percpu_base me cur me s = Some s' ∧
    wf0 (q_drop q me cur) s' ∧
    s_cpus s' = upd_percpu me (set_pc_current 0) (s_cpus s) ∧
    others_kept cur s s' ∧
    (if truthy (p_parent p) then ∃ k, procs s' !! cur = Some (buried (set_p_next k p))
     else procs s' !! cur = None).
Proof.
  intros cur H Hme Hne Hp. destruct (wf_current _ _ H me Hme) as [E|Hin]; [done|].
  fold cur in Hin. destruct (list_elem_of_split _ _ Hin) as (l1 & l2 & Hq).
  pose proof (wf_nodup _ _ H me Hme) as Hnd. rewrite Hq in Hnd.
  pose proof (wf_len q s me H Hme) as Hlen. rewrite Hq in Hlen.
  pose proof (wf_chain _ _ H me Hme) as Hch. rewrite Hq in Hch.
  assert (q_drop q me cur = <[me := l1 ++ l2]> q) as Eq.
  { unfold q_drop. rewrite Hq, filter_split; done. }
  pose proof (wf0_dropped q s me cur p l1 l2 H Hme Hq Hp eq_refl) as Hw.
  destruct (relink_lookup l1 (p_next p) (procs s) cur) as (k & Ek & _). rewrite Hp in Ek. simpl in Ek.
  unfold kill_cur_locked. replace (cur =? 0) with false by lia.
  rewrite (unlink_spec s me cur p l1 l2) by (done || unfold chain_fuel; lia). obind.
  destruct (unlinked_rest s me l1 (p_next p)) as (Ecp & _).
  unfold set_current. rewrite Ecp. rewrite cpu_ok_upd by (by apply (wf_cpus _ _ H)). obind. obind.
  fold (dropped me l1 (p_next p) s). rewrite dropped_procs, Ek. obind. simpl (p_parent _).
  assert (others_kept cur s (dropped me l1 (p_next p) s)) as Hoth.
  { intros x Hx. rewrite dropped_procs.
    destruct (relink_lookup l1 (p_next p) (procs s) x) as (kx & Ekx & _). eauto. }
  rewrite Eq. destruct (truthy (p_parent p)).
  - erewrite upd_proc_some by (rewrite dropped_procs; exact Ek). eexists. split; [done|]. split_and!.
    + apply (wf0_intro _ (dropped me l1 (p_next p) s)); try done.
      * intros b. apply fmap_insert_same with (p := set_p_next k p); [by rewrite dropped_procs|done].
      * apply Hw.
      * intros c b pb Hc Hb. cbn [procs with_procs]. rewrite lookup_insert_ne; [by apply (wf_state _ _ Hw)|].
        intros <-. rewrite <- Eq in Hb. by apply (q_drop_not q s me cur c).
      * apply Hw.
    + done.
    + intros x Hx. cbn [procs with_procs]. rewrite lookup_insert_ne by done. by apply Hoth.
    + exists k. cbn [procs with_procs]. by rewrite lookup_insert_eq.
  - unfold process_destroy. replace (cur =? 0) with false by lia.
    rewrite dropped_procs, Ek. cbn [mbind option_bind].
    destruct (pm_destroy_ok (procs (dropped me l1 (p_next p) s)) (s_mach (dropped me l1 (p_next p) s))
                cur (set_p_next k p)) as (m' & Em & Hm); [apply Hw|by rewrite dropped_procs|].
    rewrite Em. eexists. split; [done|]. split_and!.
    + rewrite <- (dropped_procs me l1 (p_next p) s).
      apply (wf0_delete _ _ _ (set_p_next k p)); [done|by rewrite dropped_procs| |done].
      intros c Hc. rewrite <- Eq. by apply (q_drop_not q s).
    + done.
    + intros x Hx. cbn [procs with_procs with_mach]. rewrite lookup_delete_ne by done.
      rewrite <- (dropped_procs me l1 (p_next p) s). by apply Hoth.
    + cbn [procs with_procs with_mach]. by rewrite lookup_delete_eq.
Qed.

(** *** Starting a process *)

Definition run_pcb (p : pcb) : pcb := set_p_state PROC_RUNNING (set_p_ticks 0 p).

Definition started (me a : Z) (p : pcb) s : sched M :=
  with_cpus (upd_percpu me (λ c, set_pc_kernel_rsp (p_kernel_stack_top p) (set_pc_current a c)) (s_cpus s))
    (with_procs (<[a := run_pcb p]> (procs s)) s).

(** No process of the queue is running. *)
Definition all_ready q s (me : Z) : Prop :=
  ∀ b pb, b ∈ q me → procs s !! b = Some pb → p_state pb = PROC_READY.

Lemma start_spec q s me a p :
  wf0 q s → cpu_in me → a ∈ q me → procs s !! a = Some p → all_ready q s me →
  start_process percpu_base me a s = Some (run_pcb p, started me a p s) ∧ wf0 q (started me a p s).
Proof.
  intros H Hme Ha Hp Hr. split.
  - unfold start_process. rewrite (upd_proc_some _ _ _ _ Hp). obind. cbn [procs with_procs].
    rewrite lookup_insert_eq. obind. unfold set_current.
    change (s_cpus (with_procs ?x ?y)) with (s_cpus y).
    rewrite cpu_ok_upd by (by apply (wf_cpus _ _ H)). done.
  - apply (wf0_intro q s); try done.
    + intros b. by apply fmap_insert_same with (p := p).
    + intros c Hc. apply cpu_ok_upd_percpu; [by intros []|]. by apply (wf_cpus _ _ H).
    + intros c b pb Hc Hb. unfold cur_of. cbn [procs with_procs with_cpus started s_cpus]. rewrite cur_of_upd.
      destruct (decide (a = b)) as [->|Hne].
      * rewrite lookup_insert_eq. intros [= <-]. right. split; [done|].
        rewrite decide_True; [done|]. by apply (wf_disjoint q s c me b).
      * rewrite lookup_insert_ne by done. intros Hpb. case_decide as E; [subst c; left; eauto|].
        by apply (wf_state _ _ H).
    + intros c Hc. unfold cur_of. cbn [s_cpus started with_cpus]. rewrite cur_of_upd.
      case_decide; [subst c; by right|by apply H].
Qed.

(** How a process is entered. *)
Definition enter (p : pcb) : leave :=
  if p_blocked p then resume_kernel (p_ctx p) (p_saved_kernel_rsp p) true else iret_frame (p_ctx p).

(** Cpu [me] runs [a] in its address space. *)
Definition runs (me a : Z) (p : pcb) s : Prop :=
  cur_of s me = a ∧ hw_cr3 (hw (s_cpus s) me) = p_cr3 p ∧
  hw_fs_base (hw (s_cpus s) me) = p_fs_base p ∧
  pc_kernel_rsp (g_percpu (s_cpus s) me) = p_kernel_stack_top p.

Definition cur_same (me : Z) s s' : Prop := ∀ c, c ≠ me → cur_of s' c = cur_of s c.

Lemma runs_load me a p s :
  runs me a p (load_space me (run_pcb p) (started me a p s)) ∧
  cur_same me s (load_space me (run_pcb p) (started me a p s)).
Proof.
  split.
  - unfold runs, cur_of. simpl. rewrite !fn_lookup_insert. done.
  - intros c Hc. unfold cur_of. simpl. by rewrite fn_lookup_insert_ne.
Qed.

Lemma runs_gs me a p s cs s0 :
  (cs = gs_to_user percpu_base me (s_cpus s) ∨ cs = gs_to_kernel percpu_base me (s_cpus s)) →
  runs me a p s ∧ cur_same me s0 s →
  runs me a p (with_cpus cs s) ∧ cur_same me s0 (with_cpus cs s).
Proof.
  intros Hcs [(H1 & H2 & H3 & H4) Hs]. unfold runs, cur_same, cur_of in *. cbn [s_cpus with_cpus].
  destruct Hcs as [-> | ->].
  - destruct (gs_to_user_space percpu_base me (s_cpus s)) as [-> ->].
    rewrite gs_to_user_percpu. done.
  - destruct (gs_to_kernel_space percpu_base me (s_cpus s)) as [-> ->].
    rewrite gs_to_kernel_percpu. done.
Qed.

Lemma switch_spec q s me a p :
  wf0 q s → cpu_in me → a ∈ q me → procs s !! a = Some p → all_ready q s me →
  ∃ s', switch_to percpu_base me a s = Some (enter p, s') ∧ wf q s' ∧
    procs s' = <[a := run_pcb p]> (procs s) ∧ runs me a p s' ∧ cur_same me s s'.
Proof.
  intros H Hme Ha Hp Hr. destruct (start_spec q s me a p H Hme Ha Hp Hr) as [Es Hs].
  unfold switch_to. rewrite Es. obind. cbv zeta.
  pose proof (wf0_load_space q _ me (run_pcb p) Hs) as Hl.
  pose proof (runs_load me a p s) as Hrun. unfold enter.
  change (p_blocked (run_pcb p)) with (p_blocked p). destruct (p_blocked p).
  - eexists. split; [done|]. split; [|split; [done|]].
    + exact (unlock_wf q _ (wf0_gs_to_kernel q _ me Hme Hl)).
    + apply (runs_gs me a p (load_space me (run_pcb p) (started me a p s)) _ s (or_intror eq_refl) Hrun).
  - eexists. split; [done|]. split; [|split; [done|]].
    + exact (unlock_wf q _ (wf0_gs_to_user q _ me Hme Hl)).
    + apply (runs_gs me a p (load_space me (run_pcb p) (started me a p s)) _ s (or_introl eq_refl) Hrun).
Qed.

(** *** The timer tick *)

Definition running (p : pcb) : bool := bool_decide (p_state p = PROC_RUNNING).
Definition user_mode (regs : registers) : bool := r_cs regs =? 0x23.

(** The tick kills the current process. *)
Definition kills (regs : registers) (o : option pcb) : bool :=
  match o with Some p => running p && p_terminate p && user_mode regs | None => false end.

(** The tick returns during the accounting. *)
Definition early (regs : registers) (o : option pcb) : bool :=
  match o with
  | Some p => running p &&
      (if p_terminate p then negb (user_mode regs)
       else (u64 (p_ticks p + 1) <? SCHED_QUANTUM) && negb (p_blocked p))
  | None => false
  end.

(** The tick interrupted kernel code that must not be suspended. *)
Definition atomic (regs : registers) (o : option pcb) : bool :=
  negb (user_mode regs) && match o with Some p => negb (p_blocked p) | None => false end.

Definition save (regs : registers) (fp : Z) (p : pcb) : pcb :=
  if running p then tick_save regs fp p else p.

Lemma tick_save_fields regs fp p :
  core (tick_save regs fp p) = core p ∧ p_state (tick_save regs fp p) = p_state p ∧
  p_blocked (tick_save regs fp p) = p_blocked p ∧ p_terminate (tick_save regs fp p) = p_terminate p ∧
  p_parent (tick_save regs fp p) = p_parent p ∧ p_ctx (tick_save regs fp p) = regs ∧
  p_exit_status (tick_save regs fp p) = p_exit_status p ∧ p_ticks (tick_save regs fp p) = u64 (p_ticks p + 1).
Proof.
  unfold tick_save. cbv zeta. change (p_blocked (set_p_ctx _ _)) with (p_blocked p).
  destruct (p_blocked p) eqn:E; simpl; rewrite ?E; done.
Qed.

(** What is left of a killed process: a zombie for its parent, or nothing. *)
Definition fate (o o' : option pcb) : Prop :=
  match o with
  | None => True
  | Some p => if truthy (p_parent p)
              then ∃ p', o' = Some p' ∧ p_state p' = PROC_ZOMBIE ∧ p_exit_status p' = p_exit_status p
              else o' = None
  end.

Definition ticked (me cur : Z) (regs : registers) (fp : Z) s s1 : Prop :=
  s_cpus s1 = s_cpus s ∧
  ∀ x, procs s1 !! x = (if decide (x = cur) then save regs fp else id) <$> procs s !! x.

Lemma wf_cur_pcb q s me :
  wf0 q s → cpu_in me → cur_of s me ≠ 0 → ∃ p, procs s !! cur_of s me = Some p ∧ cur_of s me ∈ q me.
Proof.
  intros H Hme Hne. destruct (wf_current _ _ H me Hme) as [?|Hin]; [done|].
  destruct (wf_elem q s me _ H Hme Hin) as (_ & p & Hp). eauto.
Qed.

Lemma wf_null q s : wf0 q s → procs s !! 0 = None.
Proof. intros H. destruct (procs s !! 0) as [p|] eqn:E; [|done]. pose proof (wf_addr _ _ H 0 p E). lia. Qed.

Lemma account_spec q s me regs fp :
  let cur := cur_of s me in
  wf0 q s → cpu_in me →
  ∃ r, tick_account percpu_base me me cur regs fp s = Some r ∧
  match r with
  | inr s1 => early regs (procs s !! cur) = true ∧ wf0 q s1 ∧ ticked me cur regs fp s s1
  | inl (cur', s1) =>
      early regs (procs s !! cur) = false ∧
      if kills regs (procs s !! cur) then
        cur' = 0 ∧ wf0 (q_drop q me cur) s1 ∧ cur ≠ 0 ∧
        s_cpus s1 = upd_percpu me (set_pc_current 0) (s_cpus s) ∧ others_kept cur s s1 ∧
        fate (procs s !! cur) (procs s1 !! cur)
      else cur' = cur ∧ wf0 q s1 ∧ ticked me cur regs fp s s1
  end.
Proof.
  intros cur H Hme. unfold tick_account, is_running.
  assert ((∀ p, procs s !! cur = Some p → running p = false) →
     early regs (procs s !! cur) = false ∧ kills regs (procs s !! cur) = false ∧
     ticked me cur regs fp s (upd_rq me idle_tick s)) as Hidle.
  { intros Hb. unfold early, kills, ticked, save. destruct (procs s !! cur) as [p|] eqn:Hp.
    - rewrite (Hb p eq_refl). split_and!; try done. intros x. cbn [procs upd_rq with_rq].
      case_decide; [subst x; rewrite Hp; simpl; by rewrite (Hb p eq_refl)|by rewrite option_fmap_id].
    - split_and!; try done. intros x. cbn [procs upd_rq with_rq].
      case_decide; [subst x; by rewrite Hp|by rewrite option_fmap_id]. }
  assert (wf0 q (upd_rq me idle_tick s)) as Hwi by (apply wf0_upd_rq; [done|by intros []]).
  destruct (Z.eqb_spec cur 0) as [E0|E0].
  - obind. eexists. split; [done|]. cbv beta iota.
    destruct Hidle as (E1 & E2 & E3); [intros p; by rewrite E0, (wf_null q s H)|].
    rewrite E2. done.
  - destruct (wf_cur_pcb q s me H Hme E0) as (p & Hp & Hin). fold cur in Hp, Hin.
    rewrite Hp. obind. obind. fold (running p). destruct (running p) eqn:Er.
    2:{ eexists. split; [done|]. cbv beta iota.
        destruct Hidle as (E1 & E2 & E3); [rewrite Hp; by intros ? [= <-]|].
        rewrite Hp in E1, E2. rewrite E2. done. }
    clear Hidle Hwi. unfold tick_running.
    destruct (tick_save_fields regs fp p) as (F1 & F2 & F3 & F4 & F5 & F6 & F8 & F7).
    set (s0 := upd_rq me busy_tick s). assert (wf0 q s0) as H0 by (apply wf0_upd_rq; [done|by intros []]).
    rewrite (upd_proc_some s0 cur _ p Hp). obind.
    set (s1 := with_procs (<[cur:=tick_save regs fp p]> (procs s0)) s0).
    assert (wf0 q s1) as H1 by (by apply wf0_upd_proc).
    assert (procs s1 !! cur = Some (tick_save regs fp p)) as Hp1 by apply lookup_insert_eq.
    assert (ticked me cur regs fp s s1) as Ht.
    { split; [done|]. intros x. cbn [s1 procs with_procs]. case_decide.
      - subst x. rewrite lookup_insert_eq, Hp. unfold save. simpl. by rewrite Er.
      - rewrite lookup_insert_ne by done. by rewrite option_fmap_id. }
    rewrite Hp1. obind. rewrite F3, F4, F7. unfold early, kills. rewrite Er. fold (user_mode regs).
    simpl andb. destruct (p_terminate p).
    + destruct (user_mode regs).
      * destruct (kill_spec q s1 me (tick_save regs fp p) H1 Hme E0 Hp1) as (s2 & Ek & Hw & Hc & Ho & Hg).
        change (cur_of s1 me) with cur in Ek, Hw, Ho, Hg. rewrite Ek. obind. eexists. split; [done|].
        split; [done|]. simpl. split_and!; try done.
        { intros x Hx. destruct (Ho x Hx) as (k & ->). exists k. cbn [s1 procs with_procs].
          by rewrite lookup_insert_ne. }
        simpl. rewrite F5 in Hg. destruct (truthy (p_parent p)); [|done].
        destruct Hg as (k & ->). eexists. split_and!; [done|done|]. exact F8.
      * eexists. split; [done|]. done.
    + destruct (_ && _); (eexists; split; [done|]); done.
Qed.

Lemma in_kernel_spec q s me regs :
  wf0 q s → cpu_in me →
  in_kernel (cur_of s me) regs s = Some (atomic regs (procs s !! cur_of s me)).
Proof.
  intros H Hme. unfold in_kernel, atomic. fold (user_mode regs). destruct (user_mode regs); [done|].
  destruct (Z.eqb_spec (cur_of s me) 0) as [E|E]; simpl; [by rewrite E, (wf_null q s H)|].
  destruct (wf_cur_pcb q s me H Hme E) as (p & -> & _). done.
Qed.

Lemma pick_wf q s me skip :
  wf0 q s → cpu_in me → pick_next me skip s = Some (first_eligible (procs s) skip (q me)).
Proof.
  intros H Hme. apply pick_next_spec; [by apply H|by apply H|].
  pose proof (wf_len q s me H Hme). unfold chain_fuel. lia.
Qed.

Definition ready_pcb (p : pcb) : pcb := set_p_state PROC_READY (set_p_ticks 0 p).

Lemma preempt_spec q s me :
  let cur := cur_of s me in
  wf0 q s → cpu_in me →
  ∃ s', preempt cur s = Some s' ∧ wf0 q s' ∧ all_ready q s' me ∧ s_cpus s' = s_cpus s ∧
    ∀ x, procs s' !! x = (if decide (x = cur) then ready_pcb else id) <$> procs s !! x.
Proof.
  intros cur H Hme. unfold preempt. destruct (Z.eqb_spec cur 0) as [E|E].
  - exists s. split_and!; try done.
    + intros b pb Hb Hpb. destruct (wf_state _ _ H me b pb Hme Hb Hpb) as [?|[_ Hc]]; [done|].
      destruct (wf_elem q s me b H Hme Hb). unfold cur in E. congruence.
    + intros x. case_decide; [|by rewrite option_fmap_id]. subst x. by rewrite E, (wf_null q s H).
  - destruct (wf_cur_pcb q s me H Hme E) as (p & Hp & Hin). fold cur in Hp, Hin.
    rewrite (upd_proc_some _ _ _ _ Hp). eexists. split; [done|].
    assert (∀ c b pb, cpu_in c → b ∈ q c → <[cur := ready_pcb p]> (procs s) !! b = Some pb →
              p_state pb = PROC_READY ∨ p_state pb = PROC_RUNNING ∧ b ≠ cur ∧ cur_of s c = b) as Hst.
    { intros c b pb Hc Hb Hpb. destruct (decide (cur = b)) as [->|Hne].
      - rewrite lookup_insert_eq in Hpb. injection Hpb as <-. by left.
      - rewrite lookup_insert_ne in Hpb by done.
        destruct (wf_state _ _ H c b pb Hc Hb Hpb) as [?|[? ?]]; [by left|right; auto]. }
    split_and!.
    + apply (wf0_intro q s); try done.
      * intros b. by apply fmap_insert_same with (p := p).
      * apply H.
      * intros c b pb Hc Hb Hpb. destruct (Hst c b pb Hc Hb Hpb) as [?|(? & _ & ?)]; auto.
      * apply H.
    + intros b pb Hb Hpb. destruct (Hst me b pb Hme Hb Hpb) as [?|(_ & Hne & Hc)]; [done|].
      unfold cur in Hne. congruence.
    + done.
    + intros x. cbn [procs with_procs]. case_decide.
      * subst x. by rewrite lookup_insert_eq, Hp.
      * rewrite lookup_insert_ne by done. by rewrite option_fmap_id.
Qed.

Lemma first_eligible_facts q s me skip :
  wf0 q s → cpu_in me →
  let next := first_eligible (procs s) skip (q me) in
  next ≠ 0 → next ∈ q me ∧ next ≠ skip ∧ ∃ p, procs s !! next = Some p ∧ p_state p = PROC_READY.
Proof.
  intros H Hme next Hn. destruct (first_eligible_spec (procs s) skip (q me)) as [Hs _].
  fold next in Hs. destruct (Hs Hn) as [Hin He]. unfold eligible in He.
  destruct (procs s !! next) as [p|]; [|done]. bsimp. apply bool_decide_eq_true in H0.
  split_and!; [done|lia|eauto].
Qed.

(** The tick has chosen [next] and entered it. *)
Definition switched (me cur next : Z) (f : pcb → pcb) s (out : leave) s' : Prop :=
  ∃ p, procs s !! next = Some p ∧ p_state p = PROC_READY ∧ out = enter p ∧
    runs me next p s' ∧ cur_same me s s' ∧
    ∀ x, procs s' !! x = if decide (x = next) then Some (run_pcb p)
                         else (if decide (x = cur) then f else id) <$> procs s !! x.

Lemma tick_switch_spec q s me regs :
  let cur := cur_of s me in
  let next := first_eligible (procs s) cur (q me) in
  wf0 q s → cpu_in me →
  ∃ out s', tick_switch percpu_base me me cur regs s = Some (out, s') ∧ wf q s' ∧
    if atomic regs (procs s !! cur) || (next =? 0)
    then out = iret_frame regs ∧ s' = unlock s
    else switched me cur next ready_pcb s out s'.
Proof.
  intros cur next H Hme. unfold tick_switch.
  pose proof (in_kernel_spec q s me regs H Hme) as Ei. fold cur in Ei. rewrite Ei. obind. destruct (atomic _ _); simpl orb.
  { eexists _, _. split; [done|]. split; [by apply unlock_wf|done]. }
  rewrite (pick_wf q) by done. obind. fold next. destruct (Z.eqb_spec next 0) as [E|E].
  { eexists _, _. split; [done|]. split; [by apply unlock_wf|done]. }
  destruct (first_eligible_facts q s me cur H Hme E) as (Hin & Hne & p & Hp & Hr).
  fold next in Hin, Hne, Hp. simpl orb. replace (next =? cur) with false by lia.
  destruct (preempt_spec q s me H Hme) as (s1 & E1 & H1 & Hall & Hc & Hl).
  fold cur in E1, Hl. rewrite E1. obind.
  assert (procs s1 !! next = Some p) as Hp1.
  { rewrite Hl, decide_False by done. by rewrite option_fmap_id. }
  destruct (switch_spec q s1 me next p H1 Hme Hin Hp1 Hall) as (s2 & E2 & H2 & Hpr & Hrun & Hsame).
  exists (enter p), s2. split; [done|]. split; [done|]. exists p. split_and!; try done.
  - intros c Hcm. rewrite Hsame by done. unfold cur_of. by rewrite Hc.
  - intros x. rewrite Hpr. case_decide as Ex; [subst x; by rewrite lookup_insert_eq|].
    rewrite lookup_insert_ne by done. apply Hl.
Qed.

Lemma first_eligible_ext P P' skip skip' l :
  (∀ a, a ∈ l → eligible P' skip' a = eligible P skip a) →
  first_eligible P' skip' l = first_eligible P skip l.
Proof.
  induction l as [|a l IH]; intros He; simpl; [done|]. rewrite He by left.
  rewrite IH; [done|]. intros. apply He. by right.
Qed.

Lemma first_eligible_filter P skip a l :
  eligible P skip a = false →
  first_eligible P skip (filter (λ x, x ≠ a) l) = first_eligible P skip l.
Proof.
  intros Ha. induction l as [|b l IH]; [done|]. destruct (decide (b = a)) as [->|Hne].
  - rewrite filter_cons_False by tauto. simpl. by rewrite Ha.
  - rewrite filter_cons_True by done. simpl. by rewrite IH.
Qed.

Lemma eligible_skip P a : eligible P a a = false.
Proof. unfold eligible. destruct (P !! a); [|done]. by rewrite Z.eqb_refl, andb_false_r. Qed.

(** A view of a process that scheduling other processes does not change. *)
Definition inert {B} (g : pcb → B) : Prop :=
  ∀ p, (∀ k, g (set_p_next k p) = g p) ∧ (∀ st, g (set_p_state st p) = g p) ∧
       (∀ n, g (set_p_ticks n p) = g p) ∧ (∀ c, g (set_p_cpu c p) = g p).

Definition kept {B} (g : pcb → B) (a : Z) s s' : Prop :=
  ∀ x, x ≠ a → g <$> procs s' !! x = g <$> procs s !! x.

Lemma inert_ready {B} (g : pcb → B) p : inert g → g (ready_pcb p) = g p.
Proof. intros H. destruct (H (set_p_ticks 0 p)) as (_ & E & _). destruct (H p) as (_ & _ & E2 & _). unfold ready_pcb. by rewrite E, E2. Qed.
Lemma inert_run {B} (g : pcb → B) p : inert g → g (run_pcb p) = g p.
Proof. intros H. destruct (H (set_p_ticks 0 p)) as (_ & E & _). destruct (H p) as (_ & _ & E2 & _). unfold run_pcb. by rewrite E, E2. Qed.

Lemma others_kept_view {B} (g : pcb → B) a s s' : inert g → others_kept a s s' → kept g a s s'.
Proof.
  intros Hg Ho x Hx. destruct (Ho x Hx) as (k & ->). destruct (procs s !! x) as [p|]; [|done].
  simpl. by rewrite (proj1 (Hg p)).
Qed.

Lemma ticked_view {B} (g : pcb → B) me cur regs fp s s1 : ticked me cur regs fp s s1 → kept g cur s s1.
Proof. intros [_ Ht] x Hx. rewrite Ht, decide_False by done. by rewrite option_fmap_id. Qed.

Lemma switched_view {B} (g : pcb → B) me cur next f s out s' x :
  inert g → switched me cur next f s out s' → (x = cur → ∀ p, g (f p) = g p) →
  g <$> procs s' !! x = g <$> procs s !! x.
Proof.
  intros Hg (p & Hp & _ & _ & _ & _ & Hl) Hf. rewrite Hl. case_decide.
  - subst x. rewrite Hp. simpl. by rewrite inert_run.
  - destruct (procs s !! x) as [px|]; [|done]. simpl. case_decide; simpl; [by rewrite Hf|done].
Qed.

(** What a tick on cpu [me] does, in terms of the state before it. *)
Definition tick_next q s (me : Z) : Z := first_eligible (procs s) (cur_of s me) (q me).

Definition tick_stays (regs : registers) q s (me : Z) : bool :=
  let o := procs s !! cur_of s me in
  early regs o || (negb (kills regs o) && atomic regs o) || (tick_next q s me =? 0).

Definition tick_queue (regs : registers) q s (me : Z) : Z → list Z :=
  if kills regs (procs s !! cur_of s me) then q_drop q me (cur_of s me) else q.

Definition tick_result (regs : registers) (fp : Z) q s (me : Z) (out : leave) s' : Prop :=
  let cur := cur_of s me in
  cur_same me s s' ∧
  (if tick_stays regs q s me then
     out = iret_frame regs ∧ cur_of s' me = (if kills regs (procs s !! cur) then 0 else cur) ∧
     hw (s_cpus s') = hw (s_cpus s)
   else
     ∃ p, procs s !! tick_next q s me = Some p ∧ p_state p = PROC_READY ∧ out = enter p ∧
          runs me (tick_next q s me) p s') ∧
  (kills regs (procs s !! cur) = true → fate (procs s !! cur) (procs s' !! cur)) ∧
  (∀ B (g : pcb → B), inert g → kept g cur s s' ∧
     (kills regs (procs s !! cur) = false →
      g <$> procs s' !! cur = (λ p, g (save regs fp p)) <$> procs s !! cur)).

Lemma save_state regs fp p : p_state (save regs fp p) = p_state p.
Proof. unfold save. destruct (running p); [|done]. by destruct (tick_save_fields regs fp p) as (_ & ? & _). Qed.
Lemma save_core regs fp p : core (save regs fp p) = core p.
Proof. unfold save. destruct (running p); [|done]. by destruct (tick_save_fields regs fp p) as (? & _). Qed.

Lemma ticked_eligible me cur regs fp s s1 skip a :
  ticked me cur regs fp s s1 → eligible (procs s1) skip a = eligible (procs s) skip a.
Proof.
  intros [_ Ht]. unfold eligible. rewrite Ht. destruct (procs s !! a) as [p|]; [|done]. simpl.
  case_decide; simpl; [by rewrite save_state|done].
Qed.

Lemma atomic_ticked regs cur fp me s s1 :
  ticked me cur regs fp s s1 → atomic regs (procs s1 !! cur) = atomic regs (procs s !! cur).
Proof.
  intros [_ Ht]. unfold atomic. rewrite Ht, decide_True by done. destruct (procs s !! cur) as [p|]; [|done].
  simpl. unfold save. destruct (running p); [|done].
  by destruct (tick_save_fields regs fp p) as (_ & _ & -> & _).
Qed.

Lemma early_kills regs o : early regs o = true → kills regs o = false.
Proof.
  destruct o as [p|]; [|done]. simpl. destruct (running p), (p_terminate p), (user_mode regs); done.
Qed.

Lemma kills_eligible regs P skip a :
  kills regs (P !! a) = true → eligible P skip a = false.
Proof.
  unfold kills, eligible, running. destruct (P !! a) as [p|]; [|done]. intros H. bsimp.
  apply bool_decide_eq_true in H. rewrite H. done.
Qed.

(** The accounting left the current process alone, up to its saved frame. *)
Lemma tick_go_on q s s1 me regs fp :
  let cur := cur_of s me in
  wf0 q s → cpu_in me → wf0 q s1 → ticked me cur regs fp s s1 →
  early regs (procs s !! cur) = false → kills regs (procs s !! cur) = false →
  ∃ out s', tick_switch percpu_base me me cur regs s1 = Some (out, s') ∧
    wf (tick_queue regs q s me) s' ∧ tick_result regs fp q s me out s'.
Proof.
  intros cur H Hme H1 Ht He Hk. pose proof Ht as [Hc Hl].
  assert (cur_of s1 me = cur) as Ec by (unfold cur_of; by rewrite Hc).
  destruct (tick_switch_spec q s1 me regs H1 Hme) as (out & s' & Es & Hw & Hpost).
  rewrite Ec in Es, Hpost. exists out, s'. split; [done|].
  unfold tick_queue, tick_result, tick_stays. fold cur. rewrite Hk, He. simpl orb. split; [done|].
  rewrite (atomic_ticked regs cur fp me s s1 Ht) in Hpost.
  assert (first_eligible (procs s1) cur (q me) = tick_next q s me) as En.
  { apply first_eligible_ext. intros a _. by apply (ticked_eligible me cur regs fp). }
  rewrite En in Hpost. destruct (atomic _ _ || _).
  - destruct Hpost as [-> ->]. split_and!; try done.
    + intros c Hcm. unfold cur_of. simpl. by rewrite Hc.
    + simpl. by rewrite Hc.
    + intros B g Hg. split; [apply (ticked_view g me cur regs fp s s1 Ht)|]. intros _.
      cbn [procs unlock with_lock]. rewrite Hl, decide_True by done. by destruct (procs s !! cur).
  - pose proof Hpost as (p & Hp & Hr & -> & Hrun & Hsame & _). split_and!.
    + intros c Hcm. rewrite Hsame by done. unfold cur_of. by rewrite Hc.
    + assert (tick_next q s me ≠ cur) as Hnc.
      { destruct (decide (tick_next q s me = 0)) as [E|E].
        - rewrite E, (wf_null q s1 H1) in Hp. done.
        - by apply (first_eligible_facts q s me cur H Hme E). }
      rewrite Hl, decide_False, option_fmap_id in Hp by done. eauto.
    + done.
    + intros B g Hg. split.
      * intros x Hx. rewrite (switched_view g _ _ _ _ _ _ _ x Hg Hpost) by done.
        by apply (ticked_view g me cur regs fp s s1 Ht).
      * intros _. rewrite (switched_view g _ _ _ _ _ _ _ cur Hg Hpost) by (intros; by apply inert_ready).
        rewrite Hl, decide_True by done. by destruct (procs s !! cur).
Qed.

(** The accounting killed it. *)
Lemma tick_killed q s s1 me regs fp :
  let cur := cur_of s me in
  wf0 q s → cpu_in me → wf0 (q_drop q me cur) s1 →
  s_cpus s1 = upd_percpu me (set_pc_current 0) (s_cpus s) → others_kept cur s s1 →
  fate (procs s !! cur) (procs s1 !! cur) → cur ≠ 0 →
  early regs (procs s !! cur) = false → kills regs (procs s !! cur) = true →
  ∃ out s', tick_switch percpu_base me me 0 regs s1 = Some (out, s') ∧
    wf (tick_queue regs q s me) s' ∧ tick_result regs fp q s me out s'.
Proof.
  intros cur H Hme H1 Hc Ho Hf Hc0 He Hk.
  assert (cur_of s1 me = 0 ∧ cur_same me s s1) as [Ec Hsm].
  { unfold cur_same, cur_of. rewrite Hc. split; [|intros c Hcm]; rewrite cur_of_upd;
      [by rewrite decide_True|by rewrite decide_False]. }
  destruct (tick_switch_spec (q_drop q me cur) s1 me regs H1 Hme) as (out & s' & Es & Hw & Hpost).
  rewrite Ec in Es, Hpost. exists out, s'. split; [done|].
  unfold tick_queue, tick_result, tick_stays. fold cur. rewrite Hk, He. simpl orb. split; [done|].
  assert (atomic regs (procs s1 !! 0) = false) as Ea.
  { unfold atomic. rewrite (wf_null _ s1 H1). apply andb_false_r. }
  rewrite Ea in Hpost. clear Ea.
  assert (∀ x, x ∈ q me → x ≠ cur → eligible (procs s1) 0 x = eligible (procs s) cur x) as Hel.
  { intros x Hx Hxc. unfold eligible. destruct (Ho x Hxc) as (k & ->).
    destruct (procs s !! x) as [p|] eqn:Hp; [|done]. simpl.
    replace (x =? 0) with false by (symmetry; apply Z.eqb_neq; pose proof (wf_addr _ _ H x p Hp); lia).
    replace (x =? cur) with false by lia. done. }
  assert (first_eligible (procs s1) 0 (q_drop q me cur me) = tick_next q s me) as En.
  { unfold q_drop. rewrite fn_lookup_insert. unfold tick_next. fold cur.
    rewrite <- (first_eligible_filter (procs s) cur cur (q me)) by apply eligible_skip.
    apply first_eligible_ext. intros x Hx. apply list_elem_of_filter in Hx as [? ?]. by apply Hel. }
  rewrite En in Hpost. simpl orb in Hpost. destruct (_ =? 0) eqn:E0.
  - destruct Hpost as [-> ->]. split_and!; try done; [by simpl; rewrite Hc|].
    intros B g Hg. split; [by apply others_kept_view|done].
  - pose proof Hpost as (p & Hp & Hr & -> & Hrun & Hsame & Hlk).
    assert (tick_next q s me ≠ 0) as E by lia.
    destruct (first_eligible_facts q s me cur H Hme E) as (_ & Hnc & p0 & Hp0 & Hr0).
    change (first_eligible (procs s) cur (q me)) with (tick_next q s me) in Hp0, Hnc. split_and!.
    + intros c Hcm. rewrite Hsame by done. by apply Hsm.
    + destruct (Ho _ Hnc) as (k & Ek). rewrite Hp, Hp0 in Ek. injection Ek as ->.
      exists p0. split_and!; try done.
    + intros _. rewrite Hlk, !decide_False by done. by rewrite option_fmap_id.
    + intros B g Hg. split; [|done]. intros x Hx.
      destruct (decide (x = 0)) as [->|Hx0].
      { destruct Hw as [Hw _]. by rewrite (wf_null _ s' Hw), (wf_null _ s H). }
      rewrite (switched_view g _ _ _ _ _ _ _ x Hg Hpost) by done.
      by apply (others_kept_view g cur s s1 Hg Ho).
Qed.

Lemma tick_spec q s me regs fp :
  wf q s → cpu_in me →
  ∃ out s', scheduler_timer_tick percpu_base me regs fp s = Some (out, s') ∧
    wf (tick_queue regs q s me) s' ∧ tick_result regs fp q s me out s'.
Proof.
  intros Hwf Hme. pose proof Hwf as [H Hl]. unfold scheduler_timer_tick.
  rewrite cpu_ok_index by (by apply (wf_cpus _ _ H)). obind. rewrite (lock_spec q) by done. obind.
  set (s0 := with_uptime _ _). assert (wf0 q s0) as H0 by (by apply wf0_uptime, wf0_lock).
  rewrite cpu_ok_current by (by apply (wf_cpus _ _ H0)). obind.
  change (pc_current (g_percpu (s_cpus s0) me)) with (cur_of s0 me).
  destruct (account_spec q s0 me regs fp H0 Hme) as (r & Er & Hr). rewrite Er. obind.
  destruct r as [[cur' s1]|s1].
  - destruct Hr as [He Hr]. destruct (kills regs (procs s0 !! cur_of s0 me)) eqn:Hk.
    + destruct Hr as (-> & H1 & Hn & Hc & Ho & Hf). by apply (tick_killed q s0 s1).
    + destruct Hr as (-> & H1 & Ht). by apply (tick_go_on q s0 s1).
  - destruct Hr as (He & H1 & Ht). eexists _, _. split; [done|].
    change (cur_of s0 me) with (cur_of s me) in *. change (procs s0) with (procs s) in *.
    unfold tick_queue, tick_result, tick_stays. rewrite (early_kills _ _ He), He. simpl orb.
    split; [by apply unlock_wf|]. pose proof Ht as [Hc Hlk]. split_and!; try done.
    + intros c Hcm. unfold cur_of. simpl. by rewrite Hc.
    + unfold cur_of. simpl. by rewrite Hc.
    + simpl. by rewrite Hc.
    + intros B g Hg. split; [exact (ticked_view g me _ regs fp s0 s1 Ht)|]. intros _.
      cbn [procs unlock with_lock]. rewrite Hlk, decide_True by done.
      change (procs s0) with (procs s). by destruct (procs s !! _).
Qed.

(** *** Exit *)

Lemma all_ready_idle q s me : wf0 q s → cpu_in me → cur_of s me = 0 → all_ready q s me.
Proof.
  intros H Hme Hc b pb Hb Hpb. destruct (wf_state _ _ H me b pb Hme Hb Hpb) as [?|[_ E]]; [done|].
  destruct (wf_elem q s me b H Hme Hb). congruence.
Qed.

Definition resume (p : pcb) : leave :=
  if p_blocked p then resume_kernel (p_ctx p) (p_saved_kernel_rsp p) false else resume_user (p_ctx p).

(** The fate of a process that exits: a zombie with its status for its parent,
    or nothing if it has none. *)
Definition gone (status : Z) (o o' : option pcb) : Prop :=
  match o with
  | None => True
  | Some p => if truthy (p_parent p)
              then ∃ p', o' = Some p' ∧ p_state p' = PROC_ZOMBIE ∧ p_exit_status p' = s32 status ∧
                         p_parent p' = p_parent p ∧ p_pid p' = p_pid p ∧ p_next_sibling p' = p_next_sibling p
              else o' = None
  end.

(** The process that exits leaves its queue. *)
Lemma exit_kill q s me status :
  let cur := cur_of s me in
  let q' := if cur =? 0 then q else q_drop q me cur in
  wf0 q s → cpu_in me →
  ∃ s', (if cur =? 0 then Some s
         else s ← upd_proc cur (set_p_exit_status (s32 status)) s;
              kill_cur_locked percpu_base me cur me s) = Some s' ∧
    wf0 q' s' ∧ cur_of s' me = 0 ∧ cur_same me s s' ∧ others_kept cur s s' ∧
    gone status (procs s !! cur) (procs s' !! cur).
Proof.
  intros cur q' H Hme. subst q'. destruct (Z.eqb_spec cur 0) as [E|E].
  - exists s. split_and!; try done; [|by rewrite E, (wf_null q s H)].
    intros x _. destruct (procs s !! x) as [p|]; [exists (p_next p); by destruct p|by exists 0].
  - destruct (wf_cur_pcb q s me H Hme E) as (p & Hp & Hin). fold cur in Hp, Hin.
    rewrite (upd_proc_some _ _ _ _ Hp). obind.
    set (p1 := set_p_exit_status (s32 status) p).
    set (s1 := with_procs (<[cur := p1]> (procs s)) s).
    assert (wf0 q s1) as H1 by (by apply (wf0_upd_proc q s cur (set_p_exit_status (s32 status)))).
    assert (procs s1 !! cur = Some p1) as Hp1 by apply lookup_insert_eq.
    destruct (kill_spec q s1 me p1 H1 Hme E Hp1) as (s2 & Ek & Hw & Hc & Ho & Hg).
    change (cur_of s1 me) with cur in Ek, Hw, Ho, Hg. rewrite Ek. exists s2.
    split; [done|]. split; [done|].
    assert (cur_of s2 me = 0 ∧ cur_same me s s2) as [Ec Hsm].
    { unfold cur_same, cur_of. rewrite Hc. split; [|intros c Hcm]; rewrite cur_of_upd;
        [by rewrite decide_True|by rewrite decide_False]. }
    split_and!; try done.
    + intros x Hx. destruct (Ho x Hx) as (k & ->). exists k. cbn [s1 procs with_procs].
      by rewrite lookup_insert_ne.
    + unfold gone. rewrite Hp. change (p_parent p1) with (p_parent p) in Hg.
      destruct (truthy (p_parent p)); [|done]. destruct Hg as (k & ->). eexists. by split_and!.
Qed.

Definition exit_queue q s (me : Z) : Z → list Z :=
  if cur_of s me =? 0 then q else q_drop q me (cur_of s me).

Definition exit_result (status : Z) q s (me : Z) (out : leave) s' : Prop :=
  let cur := cur_of s me in
  let next := first_eligible (procs s) cur (q me) in
  cur_same me s s' ∧
  (if next =? 0 then out = idle ∧ cur_of s' me = 0
   else ∃ p, procs s !! next = Some p ∧ p_state p = PROC_READY ∧ out = resume p ∧ runs me next p s') ∧
  gone status (procs s !! cur) (procs s' !! cur) ∧
  (∀ B (g : pcb → B), inert g → kept g cur s s').

Lemma exit_next q s s1 me :
  let cur := cur_of s me in
  wf0 q s → cpu_in me → wf0 (exit_queue q s me) s1 → others_kept cur s s1 →
  first_eligible (procs s1) 0 (exit_queue q s me me) = first_eligible (procs s) cur (q me).
Proof.
  intros cur H Hme H1 Ho.
  assert (∀ x, x ≠ cur → eligible (procs s1) 0 x = eligible (procs s) cur x) as Hel.
  { intros x Hxc. unfold eligible. destruct (Ho x Hxc) as (k & ->).
    destruct (procs s !! x) as [p|] eqn:Hp; [|done]. simpl.
    replace (x =? 0) with false by (symmetry; apply Z.eqb_neq; pose proof (wf_addr _ _ H x p Hp); lia).
    replace (x =? cur) with false by lia. done. }
  unfold exit_queue. fold cur. destruct (Z.eqb_spec cur 0) as [E|E].
  - apply first_eligible_ext. intros x Hx. apply Hel. rewrite E. by apply (wf_elem q s me).
  - unfold q_drop. rewrite fn_lookup_insert.
    rewrite <- (first_eligible_filter (procs s) cur cur (q me)) by apply eligible_skip.
    apply first_eligible_ext. intros x Hx. apply list_elem_of_filter in Hx as [? ?]. by apply Hel.
Qed.

Lemma runs_unlock_irq me a p s flags s0 :
  runs me a p (load_space me (run_pcb p) (unlock_irq me flags (started me a p s))) ∧
  (cur_same me s0 s → cur_same me s0 (load_space me (run_pcb p) (unlock_irq me flags (started me a p s)))).
Proof.
  split.
  - unfold runs, cur_of. simpl. rewrite !fn_lookup_insert. done.
  - intros Hs c Hc. unfold cur_of. simpl. rewrite fn_lookup_insert_ne by done. by apply Hs.
Qed.

Lemma exit_spec q s me status :
  wf q s → cpu_in me →
  ∃ out s', scheduler_exit_current percpu_base me status s = Some (out, s') ∧
    wf (exit_queue q s me) s' ∧ exit_result status q s me out s'.
Proof.
  intros Hwf Hme. pose proof Hwf as [H Hl]. unfold scheduler_exit_current.
  rewrite cpu_ok_index by (by apply (wf_cpus _ _ H)). obind.
  destruct (lock_irq_spec q s me Hwf) as [-> H0]. obind. set (flags := hw_if _).
  rewrite cpu_ok_current by (by apply (wf_cpus _ _ H0)). obind.
  change (pc_current (g_percpu (s_cpus (masked me s)) me)) with (cur_of (masked me s) me).
  destruct (exit_kill q (masked me s) me status H0 Hme) as (s1 & -> & H1 & Ec & Hsm & Ho & Hg). obind.
  change (cur_of (masked me s) me) with (cur_of s me) in *. fold (exit_queue q s me) in H1.
  rewrite (pick_wf _ s1 me 0 H1 Hme). obind.
  pose proof (exit_next q (masked me s) s1 me H0 Hme H1 Ho) as En.
  change (exit_queue q (masked me s) me) with (exit_queue q s me) in En.
  change (cur_of (masked me s) me) with (cur_of s me) in En. change (procs (masked me s)) with (procs s) in *.
  rewrite En.
  unfold exit_result. set (next := first_eligible _ _ _).
  destruct (Z.eqb_spec next 0) as [E|E].
  - eexists _, _. split; [done|]. split; [by apply unlock_irq_wf|]. split_and!; try done.
    intros B g Hgi. exact (others_kept_view g _ (masked me s) s1 Hgi Ho).
  - assert (procs s1 !! next ≠ None ∧ next ∈ exit_queue q s me me) as [Hp1 Hin].
    { destruct (first_eligible_facts _ s1 me 0 H1 Hme) as (Hi & _ & p & Hp & _); [by rewrite En|].
      rewrite En in Hi, Hp. split; [|done]. unfold next. by rewrite Hp. }
    destruct (first_eligible_facts q s me (cur_of s me) H Hme E) as (_ & Hnc & p & Hp & Hr).
    fold next in Hnc, Hp. destruct (Ho next Hnc) as (k & Ek).
    change (procs (masked me s)) with (procs s) in Ek. rewrite Hp in Ek. simpl in Ek.
    destruct (start_spec _ s1 me next _ H1 Hme Hin Ek (all_ready_idle _ _ _ H1 Hme Ec)) as [Es Hs].
    rewrite Es. obind. set (p1 := set_p_next k p) in *.
    destruct (runs_unlock_irq me next p1 s1 flags s) as [Hrun Hcs].
    pose proof (unlock_irq_wf _ _ me flags Hs) as [Hu Hul].
    pose proof (wf0_load_space _ _ me (run_pcb p1) Hu) as Hld.
    set (X := load_space me (run_pcb p1) (unlock_irq me flags (started me next p1 s1))) in *.
    cbv zeta. change (p_blocked (run_pcb p1)) with (p_blocked p).
    assert (∀ cs, cs = gs_to_user percpu_base me (s_cpus X) ∨ cs = gs_to_kernel percpu_base me (s_cpus X) →
      wf (exit_queue q s me) (with_cpus cs X) ∧ cur_same me s (with_cpus cs X) ∧
      runs me next p (with_cpus cs X) ∧ procs (with_cpus cs X) = <[next := run_pcb p1]> (procs s1)) as Hfin.
    { intros cs Hcs'. split; [split; [|done]|].
      - destruct Hcs' as [-> | ->]; [by apply wf0_gs_to_user|by apply wf0_gs_to_kernel].
      - destruct (runs_gs me next p1 X cs s Hcs' (conj Hrun (Hcs Hsm))) as [R1 R2]. done. }
    assert (∀ s', procs s' = <[next := run_pcb p1]> (procs s1) →
      gone status (procs s !! cur_of s me) (procs s' !! cur_of s me) ∧
      ∀ B (g : pcb → B), inert g → kept g (cur_of s me) s s') as Hrest.
    { intros s' Ep. split; [by rewrite Ep, lookup_insert_ne|]. intros B g Hgi x Hx. rewrite Ep.
      pose proof (others_kept_view g _ (masked me s) s1 Hgi Ho x Hx) as Hk.
      destruct (decide (next = x)) as [<-|Hne].
      - rewrite lookup_insert_eq. simpl. rewrite inert_run by done. rewrite Ek in Hk. exact Hk.
      - rewrite lookup_insert_ne by done. exact Hk. }
    destruct (p_blocked p) eqn:Eb.
    + eexists _, _. split; [done|]. destruct (Hfin _ (or_intror eq_refl)) as (W & C & R & P).
      destruct (Hrest _ P) as [G K]. split; [done|].
      split; [done|]. split; [|done]. exists p. split_and!; try apply R; try done. unfold resume. by rewrite Eb.
    + eexists _, _. split; [done|]. destruct (Hfin _ (or_introl eq_refl)) as (W & C & R & P).
      destruct (Hrest _ P) as [G K]. split; [done|].
      split; [done|]. split; [|done]. exists p. split_and!; try apply R; try done. unfold resume. by rewrite Eb.
Qed.

(** *** The other operations *)

Lemma enqueue_on_spec q s me c a p :
  wf q s → cpu_in c → procs s !! a = Some p → (∀ d, cpu_in d → a ∉ q d) →
  ∃ s', scheduler_enqueue_on me a c s = Some s' ∧ wf (<[c := a :: q c]> q) s' ∧
    procs s' = procs (enqueued c a p s) ∧ ∀ d, cur_of s' d = cur_of s d.
Proof.
  intros Hwf Hc Hp Hf. pose proof Hwf as [H _]. unfold scheduler_enqueue_on.
  pose proof (wf_addr _ _ H a p Hp) as Ha. replace (a =? 0) with false by lia.
  unfold cpu_in in Hc. replace (PERCPU_MAX_CPUS <=? c) with false by lia.
  destruct (lock_irq_spec q s me Hwf) as [-> H0]. obind.
  pose proof (enqueue_some (masked me s) c a p Hp) as E.
  destruct (upd_proc a (make_ready c) (masked me s)) as [s1|]; [|done]. obind. rewrite bind_some in E.
  rewrite E. obind. eexists. split; [done|]. split; [|done].
  apply unlock_irq_wf. by apply (wf0_enqueued q (masked me s)).
Qed.

Lemma enqueue_spec q s me a p :
  wf q s → procs s !! a = Some p → (∀ d, cpu_in d → a ∉ q d) →
  let c := least_loaded_locked s in
  ∃ s', scheduler_enqueue me a s = Some s' ∧ wf (<[c := a :: q c]> q) s' ∧
    procs s' = procs (enqueued c a p s) ∧ ∀ d, cur_of s' d = cur_of s d.
Proof.
  intros Hwf Hp Hf. pose proof Hwf as [H _]. unfold scheduler_enqueue.
  pose proof (wf_addr _ _ H a p Hp) as Ha. replace (a =? 0) with false by lia.
  destruct (lock_irq_spec q s me Hwf) as [-> H0]. obind.
  change (least_loaded_locked (masked me s)) with (least_loaded_locked s).
  pose proof (enqueue_some (masked me s) (least_loaded_locked s) a p Hp) as E.
  destruct (upd_proc a (make_ready (least_loaded_locked s)) (masked me s)) as [s1|]; [|done].
  obind. rewrite bind_some in E. rewrite E. obind. eexists. split; [done|]. split; [|done].
  apply unlock_irq_wf. apply (wf0_enqueued q (masked me s)); try done.
  by apply (least_loaded_in q).
Qed.

Lemma find_pid_spec q s pid :
  wf0 q s → ∃ r, find_pid_locked pid s = Some r ∧ (r = 0 ∨ ∃ c, cpu_in c ∧ r ∈ q c).
Proof.
  intros H. unfold find_pid_locked.
  pose proof (for_ind (λ _ (_ : unit), True)
    (λ r : option Z, ∃ a, r = Some a ∧ ∃ c, cpu_in c ∧ a ∈ q c) 0 PERCPU_MAX_CPUS
    (λ cpu (_ : unit),
          match mjoin (while_ chain_fuel (find_step pid (procs s)) (rq_head (rq s cpu))) with
          | None => inr None
          | Some p => if p =? 0 then inl () else inr (Some p)
          end) () ltac:(done) I) as Hf. feed Hf.
  { intros c _ Hc _. destruct (find_walk (procs s) pid _ _ (wf_chain _ _ H c Hc)) as (r & Er & Hr).
    pose proof (wf_len q s c H Hc).
    rewrite (while_steps _ _ _ _ _ Er) by (unfold chain_fuel; lia). simpl.
    destruct (Z.eqb_spec r 0) as [E|E]; [done|]. destruct Hr as [|Hr]; [done|]. eauto. }
  destruct (for_ _ _ _ _) as [u|r]; [exists 0; auto|]. destruct Hf as (a & -> & Ha). eauto.
Qed.

Lemma terminate_spec q s me pid :
  wf q s →
  ∃ b s', scheduler_terminate me pid s = Some (b, s') ∧ wf q s' ∧ (∀ c, cur_of s' c = cur_of s c) ∧
    ∀ x, ∃ t e, procs s' !! x = (λ p, set_p_exit_status (e p) (set_p_terminate (t p) p)) <$> procs s !! x.
Proof.
  intros Hwf. unfold scheduler_terminate. destruct (lock_irq_spec q s me Hwf) as [-> H0]. obind.
  set (flags := hw_if _). destruct (find_pid_spec q (masked me s) pid H0) as (a & -> & Ha). obind.
  assert (∀ x, ∃ t e, procs s !! x = (λ p, set_p_exit_status (e p) (set_p_terminate (t p) p)) <$> procs s !! x) as Hid.
  { intros x. exists p_terminate, p_exit_status. destruct (procs s !! x) as [p|]; [by destruct p|done]. }
  destruct (Z.eqb_spec a 0) as [E|E].
  { eexists _, _. split; [done|]. split; [by apply unlock_irq_wf|done]. }
  destruct Ha as [|(c & Hc & Hin)]; [done|].
  destruct (wf_elem q _ c a H0 Hc Hin) as (_ & p & Hp). rewrite Hp. obind. case_bool_decide as Hz.
  2:{ eexists _, _. split; [done|]. split; [by apply unlock_irq_wf|done]. }
  rewrite (upd_proc_some _ _ _ _ Hp). obind. eexists _, _. split; [done|]. split; [|split; [done|]].
  - apply unlock_irq_wf.
    by apply (wf0_upd_proc q (masked me s) a (λ p, set_p_exit_status 2 (set_p_terminate true p))).
  - intros x. change (procs (unlock_irq _ _ ?y)) with (procs y). cbn [procs with_procs].
    destruct (decide (a = x)) as [<-|Hne].
    + rewrite lookup_insert_eq. change (procs (masked me s)) with (procs s) in Hp. rewrite Hp.
      by exists (λ _, true), (λ _, 2).
    + rewrite lookup_insert_ne by done. apply Hid.
Qed.

Lemma list_spec q s me : wf q s → ∃ l s', scheduler_list me s = Some (l, s') ∧ wf q s' ∧ procs s' = procs s ∧ ∀ c, cur_of s' c = cur_of s c.
Proof.
  intros Hwf. unfold scheduler_list. destruct (lock_irq_spec q s me Hwf) as [-> H0]. obind.
  set (s0 := masked me s) in *. set (flags := hw_if _).
  pose proof (for_ind (λ _ _, True) (λ _ : unit, False) 0 PERCPU_MAX_CPUS (λ cpu acc,
          match mjoin (while_ chain_fuel (list_step cpu (procs s0)) (rq_head (rq s0 cpu), acc)) with
          | None => inr ()
          | Some acc => inl acc
          end) [] ltac:(done) I) as Hf. feed Hf.
  { intros c acc Hc _. destruct (list_walk (procs s0) c _ _ acc (wf_chain _ _ H0 c Hc)) as (acc' & E).
    pose proof (wf_len q s0 c H0 Hc). rewrite (while_steps _ _ _ _ _ E) by (unfold chain_fuel; lia). done. }
  destruct (for_ _ _ _ _) as [l|r]; [|done].
  eexists _, _. split; [done|]. split; [by apply unlock_irq_wf|done].
Qed.

Lemma count_spec q s me :
  wf q s → ∃ n s', scheduler_process_count me s = Some (n, s') ∧ wf q s' ∧ procs s' = procs s ∧
    (∀ c, cur_of s' c = cur_of s c) ∧
    n = u32 (Z.of_nat (sum_list_with (λ c, length (q c)) (seqZ 0 16))).
Proof.
  intros Hwf. unfold scheduler_process_count. destruct (lock_irq_spec q s me Hwf) as [-> H0]. obind.
  eexists _, _. split; [done|]. split; [by apply unlock_irq_wf|]. split; [done|]. split; [done|].
  apply (for_do_ind (λ k n, n = u32 (Z.of_nat (sum_list_with (λ c, length (q c)) (seqZ 0 k)))));
    [done|done|].
  intros i n Hi ->. rewrite (wf_count _ _ H0 i Hi). rewrite seqZ_app by lia.
  rewrite sum_list_with_app. simpl (seqZ (0 + i) 1). simpl sum_list_with.
  replace (Z.of_nat 0 + (0 + i)) with i by lia. unfold u32. rewrite <- Zplus_mod. f_equal. lia.
Qed.

(** ** Refinement: the operations on queues of process addresses *)

Inductive op : Type :=
  | op_tick (regs : registers) (fp : Z)
  | op_exit (status : Z)
  | op_enqueue (proc : Z)
  | op_enqueue_on (proc cpu : Z)
  | op_terminate (pid : Z)
  | op_list
  | op_count.

(** Cpu [me] performs the operation. *)
Definition run_op (me : Z) (o : op) s : option (sched M) :=
  match o with
  | op_tick regs fp => snd <$> scheduler_timer_tick percpu_base me regs fp s
  | op_exit status => snd <$> scheduler_exit_current percpu_base me status s
  | op_enqueue proc => scheduler_enqueue me proc s
  | op_enqueue_on proc cpu => scheduler_enqueue_on me proc cpu s
  | op_terminate pid => snd <$> scheduler_terminate me pid s
  | op_list => snd <$> scheduler_list me s
  | op_count => snd <$> scheduler_process_count me s
  end.

(** What a caller owes: a process is enqueued once, on a cpu of the array. *)
Definition op_ok q s (o : op) : Prop :=
  match o with
  | op_enqueue proc => is_Some (procs s !! proc) ∧ ∀ d, cpu_in d → proc ∉ q d
  | op_enqueue_on proc cpu => is_Some (procs s !! proc) ∧ (∀ d, cpu_in d → proc ∉ q d) ∧ cpu_in cpu
  | _ => True
  end.

(** The abstract effect. *)
Definition op_queue q s (me : Z) (o : op) : Z → list Z :=
  match o with
  | op_tick regs _ => tick_queue regs q s me
  | op_exit _ => exit_queue q s me
  | op_enqueue proc => let c := least_loaded_locked s in <[c := proc :: q c]> q
  | op_enqueue_on proc cpu => <[cpu := proc :: q cpu]> q
  | _ => q
  end.

(** The part of a process that only its own execution changes. *)
Definition suspended (p : pcb) : registers * bool * Z * (Z * Z) :=
  (p_ctx p, p_blocked p, p_saved_kernel_rsp p, (p_cr3 p, p_fs_base p)).

Lemma suspended_inert : inert suspended.
Proof. by intros []. Qed.

Lemma enqueued_view {B} (g : pcb → B) c a p s x :
  inert g → procs s !! a = Some p → g <$> procs (enqueued c a p s) !! x = g <$> procs s !! x.
Proof.
  intros Hg Hp. rewrite enqueued_procs. case_decide; [subst|done]. rewrite Hp. simpl.
  unfold make_ready. destruct p as []. f_equal. etrans; [apply (Hg _)|]. etrans; [apply (Hg _)|].
  etrans; [apply (Hg _)|]. apply (Hg _).
Qed.

Lemma run_op_spec q s me o :
  wf q s → cpu_in me → op_ok q s o →
  ∃ s', run_op me o s = Some s' ∧ wf (op_queue q s me o) s' ∧ kept suspended (cur_of s me) s s' ∧
        cur_same me s s'.
Proof.
  intros Hwf Hme Ho. pose proof suspended_inert as Hi.
  destruct o as [regs fp|status|proc|proc cpu|pid| |]; simpl.
  - destruct (tick_spec q s me regs fp Hwf Hme) as (out & s' & -> & Hw & Hc & _ & _ & Hk).
    exists s'. split; [done|]. split; [done|]. split; [by apply Hk|done].
  - destruct (exit_spec q s me status Hwf Hme) as (out & s' & -> & Hw & Hc & _ & _ & Hk).
    exists s'. split; [done|]. split; [done|]. split; [by apply Hk|done].
  - destruct Ho as [[p Hp] Hf]. destruct (enqueue_spec q s me proc p Hwf Hp Hf) as (s' & -> & Hw & Ep & Hc).
    exists s'. split; [done|]. split; [done|]. split; [|intros c _; apply Hc].
    intros x _. rewrite Ep. by apply enqueued_view.
  - destruct Ho as ([p Hp] & Hf & Hcpu).
    destruct (enqueue_on_spec q s me cpu proc p Hwf Hcpu Hp Hf) as (s' & -> & Hw & Ep & Hc).
    exists s'. split; [done|]. split; [done|]. split; [|intros c _; apply Hc].
    intros x _. rewrite Ep. by apply enqueued_view.
  - destruct (terminate_spec q s me pid Hwf) as (b & s' & -> & Hw & Hc & Hk).
    exists s'. split; [done|]. split; [done|]. split; [|intros c _; apply Hc].
    intros x _. destruct (Hk x) as (t & e & ->). by destruct (procs s !! x).
  - destruct (list_spec q s me Hwf) as (l & s' & -> & Hw & Ep & Hc).
    exists s'. split; [done|]. split; [done|]. split; [|intros c _; apply Hc]. intros x _. by rewrite Ep.
  - destruct (count_spec q s me Hwf) as (n & s' & -> & Hw & Ep & Hc & _).
    exists s'. split; [done|]. split; [done|]. split; [|intros c _; apply Hc]. intros x _. by rewrite Ep.
Qed.

(** C10: every scheduler operation, on every cpu, finishes without touching a
    process that is not live, releases the lock, and keeps the runqueues well
    formed; its effect on them is that of [op_queue]: an enqueue puts the
    process in front of the queue of its cpu, a tick or an exit takes the killed
    process out of the local queue, and nothing else moves. *)
Theorem scheduler_op_refines q s me o :
  wf q s → cpu_in me → op_ok q s o →
  ∃ s', run_op me o s = Some s' ∧ wf (op_queue q s me o) s'.
Proof.
  intros Hwf Hme Ho. destruct (run_op_spec q s me o Hwf Hme Ho) as (s' & E & Hw & _). eauto.
Qed.

(** C12: the timer tick.  It returns to the interrupted frame while the process
    has quantum left, in kernel code that is not a blocking call, or when nobody
    else is ready; otherwise the first ready process of the queue other than
    the current one is entered in its own address space, with its own kernel
    stack.  No other process loses its saved context, and the preempted one
    has the interrupted frame saved. *)
Theorem scheduler_tick_correct q s me regs fp :
  wf q s → cpu_in me →
  ∃ out s', scheduler_timer_tick percpu_base me regs fp s = Some (out, s') ∧
    wf (tick_queue regs q s me) s' ∧ tick_result regs fp q s me out s'.
Proof. apply tick_spec. Qed.

(** C15: exit.  The current process leaves its queue; it stays as a zombie with
    its status if it has a parent and is destroyed otherwise; the cpu resumes
    the first ready process of its queue, or idles when there is none. *)
Theorem scheduler_exit_correct q s me status :
  wf q s → cpu_in me →
  ∃ out s', scheduler_exit_current percpu_base me status s = Some (out, s') ∧
    wf (exit_queue q s me) s' ∧ exit_result status q s me out s'.
Proof. apply exit_spec. Qed.

(** A new process goes to the front of the queue of a started cpu with the
    fewest queued processes, the lighter load among those, and the lowest
    index among those. *)
Theorem scheduler_enqueue_correct q s me a p :
  wf q s → procs s !! a = Some p → (∀ d, cpu_in d → a ∉ q d) →
  let c := least_loaded_locked s in
  (∃ s', scheduler_enqueue me a s = Some s' ∧ wf (<[c := a :: q c]> q) s' ∧
     ∃ p', procs s' !! a = Some p' ∧ p_state p' = PROC_READY ∧ p_cpu p' = c ∧ p_ticks p' = 0) ∧
  0 ≤ c < cpu_count s ∧
  ∀ i, 0 ≤ i < cpu_count s →
    less_loaded (rq s i) (rq s c) = false ∧ (i < c → less_loaded (rq s c) (rq s i) = true).
Proof.
  intros Hwf Hp Hf c. pose proof Hwf as [H _]. pose proof (cpu_count_range q s H).
  split; [|apply least_loaded_spec; lia].
  destruct (enqueue_spec q s me a p Hwf Hp Hf) as (s' & E & Hw & Ep & _).
  exists s'. split; [done|]. split; [done|]. rewrite Ep, enqueued_procs, decide_True by done. eauto.
Qed.

(** *** A context survives being preempted *)

(** Operations by cpus that are not running [a]. *)
Inductive away (a : Z) : sched M → sched M → Prop :=
  | away_refl s : away a s s
  | away_step q s me o s1 s2 :
      wf q s → cpu_in me → op_ok q s o → cur_of s me ≠ a → run_op me o s = Some s1 →
      away a s1 s2 → away a s s2.

Lemma away_suspended a s s' :
  away a s s' → suspended <$> procs s' !! a = suspended <$> procs s !! a.
Proof.
  induction 1 as [s|q s me o s1 s2 Hwf Hme Ho Hc Hr _ IH]; [done|]. rewrite IH.
  destruct (run_op_spec q s me o Hwf Hme Ho) as (s' & E & _ & Hk & _).
  rewrite E in Hr. injection Hr as ->. by apply Hk.
Qed.

Lemma enter_suspended p p' : suspended p = suspended p' → enter p = enter p'.
Proof. intros E. injection E as E1 E2 E3 E4 E5. unfold enter. by rewrite E1, E2, E3. Qed.

(** A tick that makes [a] the current process enters it from its saved context. *)
Lemma tick_enters q s me regs fp out s' a :
  wf q s → cpu_in me → scheduler_timer_tick percpu_base me regs fp s = Some (out, s') →
  cur_of s' me = a → cur_of s me ≠ a → a ≠ 0 →
  ∃ p, procs s !! a = Some p ∧ out = enter p ∧ hw_cr3 (hw (s_cpus s') me) = p_cr3 p.
Proof.
  intros Hwf Hme E Hc Hn H0. destruct (tick_spec q s me regs fp Hwf Hme) as (o2 & s2 & E2 & _ & Hr).
  rewrite E in E2. injection E2 as <- <-. destruct Hr as (_ & Hr & _).
  destruct (tick_stays regs q s me).
  - destruct Hr as (_ & Hc' & _). rewrite Hc in Hc'. by destruct (kills _ _).
  - destruct Hr as (p & Hp & _ & -> & Hrun & Hcr & _).
    rewrite Hc in Hrun. exists p. by rewrite Hrun.
Qed.

(** C11: a context switch loses nothing.  A process preempted with frame [regs]
    and later chosen by a tick of any cpu, after any scheduler operations of
    cpus that do not run it, continues with exactly [regs] in its own address
    space (through the kernel stack it was suspended on, if it is blocked in a
    system call). *)
Theorem preempt_resume_roundtrip q s me regs fp p out s1 s2 q2 me2 regs2 fp2 out2 s3 :
  let a := cur_of s me in
  wf q s → cpu_in me → procs s !! a = Some p → p_state p = PROC_RUNNING →
  p_terminate p = false →
  scheduler_timer_tick percpu_base me regs fp s = Some (out, s1) →
  away a s1 s2 → wf q2 s2 → cpu_in me2 → cur_of s2 me2 ≠ a →
  scheduler_timer_tick percpu_base me2 regs2 fp2 s2 = Some (out2, s3) → cur_of s3 me2 = a →
  out2 = (if p_blocked p then resume_kernel regs (frame_user_rsp fp) true else iret_frame regs) ∧
  hw_cr3 (hw (s_cpus s3) me2) = p_cr3 p.
Proof.
  intros a Hwf Hme Hp Hr Ht E1 Haw Hwf2 Hme2 Hn E2 Hc.
  assert (a ≠ 0) as H0 by (destruct Hwf as [H _]; pose proof (wf_addr _ _ H a p Hp); lia).
  destruct (tick_enters q2 s2 me2 regs2 fp2 out2 s3 a Hwf2 Hme2 E2 Hc Hn H0) as (p2 & Hp2 & -> & Hcr).
  destruct (tick_spec q s me regs fp Hwf Hme) as (o' & s' & E' & _ & _ & _ & _ & Hk).
  rewrite E1 in E'. injection E' as <- <-.
  destruct (Hk _ suspended suspended_inert) as [_ Hs]. feed Hs.
  { fold a. rewrite Hp. simpl. by rewrite Ht, andb_false_r. }
  fold a in Hs. rewrite Hp in Hs.
  pose proof (away_suspended a s1 s2 Haw) as Hsus. rewrite Hp2, Hs in Hsus. simpl in Hsus.
  apply (inj Some) in Hsus.
  assert (save regs fp p = tick_save regs fp p) as Esv
    by (unfold save, running; by rewrite bool_decide_eq_true_2).
  rewrite Esv in Hsus. rewrite Hcr, (enter_suspended _ _ Hsus).
  assert (p_cr3 p2 = p_cr3 (tick_save regs fp p)) as -> by (by injection Hsus).
  unfold enter, tick_save. cbv zeta. change (p_blocked (set_p_ctx _ _)) with (p_blocked p).
  destruct (p_blocked p) eqn:Eb; simpl; rewrite ?Eb; done.
Qed.

(** *** Only the first two processes of a queue ever run *)

Fixpoint run_ticks (me : Z) (frames : list (registers * Z)) s : option (sched M) :=
  match frames with
  | [] => Some s
  | (regs, fp) :: frames =>
      r ← scheduler_timer_tick percpu_base me regs fp s; run_ticks me frames r.2
  end.

Lemma kills_alive regs (o : option pcb) :
  (∀ p, o = Some p → p_terminate p = false) → kills regs o = false.
Proof.
  intros H. destruct o as [p|]; [|done]. simpl. by rewrite (H p eq_refl), andb_false_r.
Qed.

Lemma tick_front q s me a b l :
  wf q s → cpu_in me → q me = a :: b :: l → cur_of s me = a ∨ cur_of s me = b →
  tick_next q s me = (if cur_of s me =? a then b else a).
Proof.
  intros [H _] Hme Hq Hc. unfold tick_next. rewrite Hq.
  pose proof (wf_nodup _ _ H me Hme) as Hnd. rewrite Hq in Hnd.
  apply NoDup_cons in Hnd as [Hab _]. apply not_elem_of_cons in Hab as [Hab _].
  assert (∀ x, x ∈ q me → cur_of s me ≠ x → eligible (procs s) (cur_of s me) x = true) as He.
  { intros x Hx Hne. unfold eligible. destruct (wf_elem q s me x H Hme Hx) as (_ & p & Hp).
    rewrite Hp. destruct (wf_state _ _ H me x p Hme Hx Hp) as [E|[_ E]]; [|done].
    rewrite bool_decide_eq_true_2 by done. simpl. lia. }
  rewrite Hq in He. simpl. destruct Hc as [Hc|Hc].
  - rewrite Hc, eligible_skip, Z.eqb_refl. rewrite Hc in He.
    by rewrite He by (done || (right; left)).
  - rewrite He by (left || congruence). rewrite Hc. replace (b =? a) with false by lia. done.
Qed.

(** the queue is not served round robin.  A switch always takes the first
    ready process of the queue other than the current one, and preempted
    processes stay where they are, so whatever frames the timer interrupts, a
    cpu running one of the first two processes of its queue only ever
    alternates between these two: the third and later ones never run. *)
Theorem scheduler_starves q s me a b l frames p_a p_b :
  wf q s → cpu_in me → q me = a :: b :: l → cur_of s me = a ∨ cur_of s me = b →
  procs s !! a = Some p_a → procs s !! b = Some p_b →
  p_terminate p_a = false → p_terminate p_b = false →
  ∃ s', run_ticks me frames s = Some s' ∧ wf q s' ∧ (cur_of s' me = a ∨ cur_of s' me = b).
Proof.
  intros Hwf Hme Hq Hc Ha Hb Hta Htb. revert s p_a p_b Hwf Hc Ha Hb Hta Htb.
  induction frames as [|[regs fp] frames IH]; intros s p_a p_b Hwf Hc Ha Hb Hta Htb; [by exists s|].
  simpl. destruct (tick_spec q s me regs fp Hwf Hme) as (out & s1 & -> & Hw & _ & Hr & _ & Hk).
  obind. simpl (_.2).
  assert (kills regs (procs s !! cur_of s me) = false) as Hkl.
  { apply kills_alive. intros p Hp. destruct Hc as [E|E]; rewrite E in Hp; congruence. }
  unfold tick_queue in Hw. rewrite Hkl in Hw, Hr.
  destruct (Hk _ p_terminate) as [Hk1 Hk2]; [by intros []|]. specialize (Hk2 Hkl).
  assert (∀ x p, procs s !! x = Some p → p_terminate p = false →
            ∃ p', procs s1 !! x = Some p' ∧ p_terminate p' = false) as Hterm.
  { intros x p Hp Ht. assert (p_terminate <$> procs s1 !! x = Some false) as E.
    { destruct (decide (x = cur_of s me)) as [->|Hne].
      - rewrite Hk2, Hp. simpl. unfold save. destruct (running p); [|by rewrite Ht].
        by destruct (tick_save_fields regs fp p) as (_ & _ & _ & -> & _); rewrite Ht.
      - rewrite Hk1, Hp by done. simpl. by rewrite Ht. }
    destruct (procs s1 !! x) as [p'|]; [|done]. injection E as E. eauto. }
  destruct (Hterm a p_a Ha Hta) as (pa' & Ha' & Hta'). destruct (Hterm b p_b Hb Htb) as (pb' & Hb' & Htb').
  apply (IH s1 pa' pb'); try done. destruct (tick_stays regs q s me).
  - destruct Hr as (_ & -> & _). done.
  - destruct Hr as (p & _ & _ & _ & Hrun & _). rewrite Hrun, (tick_front q s me a b l) by done.
    split_if; auto.
Qed.

(** a killed process with nobody to take over keeps running.  When the
    current process has been asked to terminate and no other process of the
    queue is ready, the tick destroys it (no parent) and then returns to its
    user-mode frame with its page tables, already freed, still in CR3. *)
Theorem scheduler_killed_returns q s me regs fp p :
  wf q s → cpu_in me → procs s !! cur_of s me = Some p → p_state p = PROC_RUNNING →
  p_terminate p = true → r_cs regs = 0x23 → p_parent p = 0 → tick_next q s me = 0 →
  ∃ s', scheduler_timer_tick percpu_base me regs fp s = Some (iret_frame regs, s') ∧
    procs s' !! cur_of s me = None ∧ cur_of s' me = 0 ∧ hw (s_cpus s') me = hw (s_cpus s) me.
Proof.
  intros Hwf Hme Hp Hr Ht Hcs Hpar Hn.
  destruct (tick_spec q s me regs fp Hwf Hme) as (out & s' & -> & _ & _ & Hres & Hf & _).
  assert (kills regs (procs s !! cur_of s me) = true) as Hk.
  { rewrite Hp. simpl. unfold running, user_mode. by rewrite bool_decide_eq_true_2, Ht, Hcs. }
  unfold tick_stays in Hres. rewrite Hn, orb_true_r, Hk in Hres. destruct Hres as (-> & Hc & Hh).
  exists s'. split; [done|]. specialize (Hf Hk). rewrite Hp in Hf. simpl in Hf. rewrite Hpar in Hf.
  split; [done|]. split; [done|]. by rewrite Hh.
Qed.

End Correct.

(** ** Witnesses *)

(** A memory that knows whose blocks it still holds; freeing twice is an error. *)
#[export] Instance held_memory : ProcessMemory (gset Z) :=
  λ _ a m, if decide (a ∈ m) then Some (m ∖ {[a]}) else None.

#[export] Program Instance held_memory_ok : ProcessMemoryOk (gset Z) :=
  {| pm_ok P m := dom P ⊆ m |}.
Next Obligation.
  intros P P' m He Hs a Ha. apply Hs. apply elem_of_dom in Ha as [p Hp]. apply elem_of_dom.
  specialize (He a). rewrite Hp in He. by destruct (P !! a).
Qed.
Next Obligation.
  intros P m a p Hs Hp. unfold pm_destroy, held_memory. rewrite decide_True.
  2:{ apply Hs, elem_of_dom. eauto. }
  eexists. split; [done|]. rewrite dom_delete_L. set_solver.
Qed.

Definition demo_regs (rip cs : Z) : registers :=
  Registers 0 0 0 0 0 0 0 0 0 0 0 0 0 0 0 0 0 rip cs 0x202 0x3FFFFFFFD0 0x1B.
Definition demo_pcb (pid next : Z) (st : process_state) (ticks : Z) (term blk : bool) : pcb :=
  Pcb pid [] st 0 (pid * 4096) ticks 0 0 [] 65536 0 0 0 false 0 0 0 0 term blk (demo_regs pid 0x23) next.
Definition demo_cpus : cpus :=
  Cpus (λ i, Percpu (percpu_addr 4096 i) 0 0 i 0 (if i =? 0 then 8192 else 0) 0 0)
       (λ i, CpuHw (percpu_addr 4096 i) 0 0 0 true).
Definition demo_sched (P : gmap Z pcb) (n : Z) : sched (gset Z) :=
  Sched P (λ i, if i =? 0 then CpuRq 8192 n 0 0 0 else CpuRq 0 0 0 0 0) false 0 2 demo_cpus (dom P).
Definition demo_queue (l : list Z) : Z → list Z := λ c, if c =? 0 then l else [].

(** Three processes on cpu 0, the first running, the second in a blocking call. *)
Definition demo_three : sched (gset Z) := demo_sched
  (<[8192 := demo_pcb 1 16384 PROC_RUNNING 4 false false]>
   (<[16384 := demo_pcb 2 24576 PROC_READY 0 false true]>
    (<[24576 := demo_pcb 3 0 PROC_READY 0 false false]>
     (<[32768 := demo_pcb 4 0 PROC_READY 0 false false]> ∅)))) 3.
(** One running process that has been asked to terminate. *)
Definition demo_killed : sched (gset Z) := demo_sched
  (<[8192 := demo_pcb 1 0 PROC_RUNNING 0 true false]> ∅) 1.

Lemma demo_wf P l :
  (∀ a p, P !! a = Some p → 0 < a < 18446744073709551616) →
  chain P 8192 l → NoDup l → 8192 ∈ l →
  (∀ a p, a ∈ l → P !! a = Some p →
     p_cpu p = 0 ∧ (p_state p = PROC_READY ∨ (p_state p = PROC_RUNNING ∧ a = 8192))) →
  Z.of_nat (length l) < 4294967296 →
  wf 4096 (demo_queue l) (demo_sched P (Z.of_nat (length l))).
Proof.
  intros Ha Hc Hnd Hin Hst Hlen. split; [|done]. unfold demo_queue.
  split; unfold cpu_in, cur_of; cbn [procs rq s_cpus smp_cpu_count s_mach demo_sched demo_cpus g_percpu pc_current].
  - done.
  - intros c _. by destruct (Z.eqb_spec c 0).
  - intros c _. destruct (Z.eqb_spec c 0); simpl; by unwrap.
  - intros c _. destruct (Z.eqb_spec c 0); [done|constructor].
  - intros c a p _. destruct (Z.eqb_spec c 0) as [->|]; intros Hx Hp; [by apply (Hst a p)|by apply elem_of_nil in Hx].
  - intros c a p _. destruct (Z.eqb_spec c 0) as [->|]; intros Hx Hp; [|by apply elem_of_nil in Hx].
    destruct (Hst a p Hx Hp) as [_ [?|[? ->]]]; auto.
  - intros c _. destruct (Z.eqb_spec c 0); auto.
  - intros c Hc'. split; [done|]. split; [done|]. left. split; [done|]. right. done.
  - unfold PERCPU_MAX_CPUS. lia.
  - change (dom P ⊆ dom P). done.
Qed.

Lemma demo_three_wf : wf 4096 (demo_queue [8192; 16384; 24576]) demo_three.
Proof.
  apply demo_wf; simpl length; [| |by apply (bool_decide_unpack _)|by apply (bool_decide_unpack _)| |done].
  - intros a p Hp. rewrite !lookup_insert_Some in Hp.
    destruct Hp as [[<- _]|[_ [[<- _]|[_ [[<- _]|[_ [[<- _]|[_ Hp]]]]]]]]; done.
  - do 3 (split; [done|]; split; [done|]; eexists; split; [vm_compute; reflexivity|]). done.
  - intros a p Ha. rewrite !elem_of_cons, elem_of_nil in Ha.
    destruct Ha as [-> | [-> | [-> | []]]]; vm_compute; intros [= <-]; simpl; auto.
Qed.

Lemma demo_killed_wf : wf 4096 (demo_queue [8192]) demo_killed.
Proof.
  apply demo_wf; simpl length; [| |by apply (bool_decide_unpack _)|by apply (bool_decide_unpack _)| |done].
  - intros a p Hp. rewrite lookup_insert_Some in Hp. destruct Hp as [[<- _]|[_ Hp]]; done.
  - split; [done|]; split; [done|]; eexists; split; [vm_compute; reflexivity|]. done.
  - intros a p Ha. rewrite elem_of_cons, elem_of_nil in Ha.
    destruct Ha as [-> | []]; vm_compute; intros [= <-]; simpl; auto.
Qed.

(** Process 4 (at 32768) is in no queue. *)
Lemma demo_fresh d : cpu_in d → 32768 ∉ demo_queue [8192; 16384; 24576] d.
Proof.
  intros _. unfold demo_queue. destruct (d =? 0); [|by apply not_elem_of_nil].
  by apply (bool_decide_unpack _).
Qed.

Lemma scheduler_op_refines_witness :
  ∃ s', run_op 4096 0 (op_enqueue 32768) demo_three = Some s' ∧
    wf 4096 (op_queue (demo_queue [8192; 16384; 24576]) demo_three 0 (op_enqueue 32768)) s'.
Proof.
  apply (scheduler_op_refines 4096 _ demo_three 0 (op_enqueue 32768) demo_three_wf); [done|].
  split; [by eexists|apply demo_fresh].
Defined.

Lemma scheduler_enqueue_witness :
  ∃ s', scheduler_enqueue 0 32768 demo_three = Some s' ∧
    wf 4096 (<[1 := [32768]]> (demo_queue [8192; 16384; 24576])) s'.
Proof.
  destruct (scheduler_enqueue_correct 4096 _ demo_three 0 32768 (demo_pcb 4 0 PROC_READY 0 false false)
              demo_three_wf eq_refl demo_fresh) as [(s' & E & Hw & _) _].
  exists s'. split; [exact E|]. exact Hw.
Defined.

Lemma scheduler_tick_witness :
  ∃ s', scheduler_timer_tick 4096 0 (demo_regs 7 0x23) 0 demo_three =
    Some (resume_kernel (demo_regs 2 0x23) 0 true, s') ∧ runs 0 16384 (demo_pcb 2 24576 PROC_READY 0 false true) s'.
Proof.
  destruct (scheduler_tick_correct 4096 _ demo_three 0 (demo_regs 7 0x23) 0 demo_three_wf)
    as (out & s' & E & _ & _ & Hr & _); [done|].
  change (tick_stays _ _ _ _) with false in Hr. cbv iota in Hr. destruct Hr as (p & Hp & _ & -> & Hrun).
  change (procs demo_three !! tick_next _ _ _) with (Some (demo_pcb 2 24576 PROC_READY 0 false true)) in Hp.
  injection Hp as <-. exists s'. split; [exact E|exact Hrun].
Defined.

Lemma scheduler_exit_witness :
  ∃ s', scheduler_exit_current 4096 0 3 demo_killed = Some (idle, s') ∧ procs s' !! 8192 = None.
Proof.
  destruct (scheduler_exit_correct 4096 _ demo_killed 0 3 demo_killed_wf)
    as (out & s' & E & _ & _ & Hr & Hg & _); [done|].
  change (first_eligible _ _ _ =? 0) with true in Hr. destruct Hr as [-> _].
  exists s'. split; [exact E|exact Hg].
Defined.

Lemma scheduler_killed_witness :
  ∃ s', scheduler_timer_tick 4096 0 (demo_regs 7 0x23) 0 demo_killed = Some (iret_frame (demo_regs 7 0x23), s') ∧
    procs s' !! 8192 = None ∧ cur_of s' 0 = 0 ∧ hw (s_cpus s') 0 = hw (s_cpus demo_killed) 0.
Proof.
  exact (scheduler_killed_returns 4096 _ demo_killed 0 (demo_regs 7 0x23) 0
           (demo_pcb 1 0 PROC_RUNNING 0 true false) demo_killed_wf ltac:(done) eq_refl eq_refl eq_refl
           eq_refl eq_refl eq_refl).
Defined.

Lemma scheduler_starves_witness (* the process at 24576 never runs *) :
  ∃ s', run_ticks 4096 0 (replicate 100 (demo_regs 7 0x23, 0)) demo_three = Some s' ∧ cur_of s' 0 ≠ 24576.
Proof.
  destruct (scheduler_starves 4096 _ demo_three 0 8192 16384 [24576] (replicate 100 (demo_regs 7 0x23, 0))
              (demo_pcb 1 16384 PROC_RUNNING 4 false false) (demo_pcb 2 24576 PROC_READY 0 false true)
              demo_three_wf ltac:(done) eq_refl (or_introl eq_refl) eq_refl eq_refl eq_refl eq_refl)
    as (s' & E & _ & Hc). exists s'. split; [exact E|]. destruct Hc as [-> | ->]; done.
Defined.

(** Process 1 is preempted with one frame, process 2 runs in between, and the
    second tick puts process 1 back into that frame. *)
Lemma preempt_resume_witness :
  ∃ s1 s3, scheduler_timer_tick 4096 0 (demo_regs 7 0x23) 0 demo_three =
             Some (resume_kernel (demo_regs 2 0x23) 0 true, s1) ∧
           scheduler_timer_tick 4096 0 (demo_regs 9 0x08) 0 s1 = Some (iret_frame (demo_regs 7 0x23), s3).
Proof.
  assert ((r ← scheduler_timer_tick 4096 0 (demo_regs 7 0x23) 0 demo_three;
           r3 ← scheduler_timer_tick 4096 0 (demo_regs 9 0x08) 0 r.2;
           Some (r.1, cur_of r.2 0, cur_of r3.2 0)) =
          Some (resume_kernel (demo_regs 2 0x23) 0 true, 16384, 8192)) as Hrun by (vm_compute; reflexivity).
  destruct (tick_spec 4096 _ demo_three 0 (demo_regs 7 0x23) 0 demo_three_wf ltac:(done))
    as (out & s1 & E1 & Hw1 & _).
  destruct (tick_spec 4096 _ s1 0 (demo_regs 9 0x08) 0 Hw1 ltac:(done)) as (out3 & s3 & E3 & Hw3 & _).
  rewrite E1 in Hrun. rewrite bind_some in Hrun. cbn [fst snd] in Hrun. rewrite E3 in Hrun.
  rewrite bind_some in Hrun. cbn [fst snd] in Hrun. injection Hrun as Ho Hc1 Hc3.
  exists s1, s3. rewrite E1, Ho. split; [reflexivity|]. rewrite E3. f_equal. f_equal.
  apply (preempt_resume_roundtrip 4096 _ demo_three 0 (demo_regs 7 0x23) 0
           (demo_pcb 1 16384 PROC_RUNNING 4 false false) out s1 s1 _ 0 (demo_regs 9 0x08) 0 out3 s3
           demo_three_wf ltac:(done) eq_refl eq_refl eq_refl E1 (away_refl 4096 _ s1) Hw1 ltac:(done)
           ltac:(rewrite Hc1; discriminate) E3 Hc3).
Defined.
