(* ===== verification/Storage.v ===== *)
(** Block devices and partitions (driver/stacks/storage/block.c, partition.c).

    Devices live on the heap, in a store from addresses to records, linked
    through [next] in the order of registration.  The functions of a hardware
    driver are parameters ([drv_read], [drv_write]): they get the device's
    driver data, a sector range and the disk.  A transfer returns the bytes
    read, or the new disk; [None] on the outside is an access outside an
    object (a freed device, the sector buffer), [None] inside it is the C
    function returning [false]. *)

From stdpp Require Import prelude numbers list gmap.
From Stdlib Require Import ZArith Lia.
From S2P Require Import Prelude Memory Frames Pmm Kheap Alloc Bytes.

Open Scope Z_scope.

Definition STORAGE_NAME_MAX : Z := 48.

(** A [block_read_fn] or [block_write_fn] pointer: null, the partition layer's
    function, or the function of the hardware driver. *)
Inductive block_fn : Type := fn_null | fn_partition | fn_driver.

#[export] Instance block_fn_eq_dec : EqDecision block_fn.
Proof. solve_decision. Defined.

Record block_device : Type := BlockDevice {
  bd_name : list Z;
  bd_sector_count : Z;
  bd_sector_size : Z;
  bd_removable : bool;
  bd_is_partition : bool;
  bd_parent : Z;
  bd_parent_lba : Z;
  bd_driver_data : Z;
  bd_read : block_fn;
  bd_write : block_fn;
  bd_next : Z
}.

Definition set_bd_next (v : Z) (d : block_device) : block_device :=
  BlockDevice (bd_name d) (bd_sector_count d) (bd_sector_size d) (bd_removable d)
    (bd_is_partition d) (bd_parent d) (bd_parent_lba d) (bd_driver_data d) (bd_read d) (bd_write d) v.

(** [partition_info_t] *)
Record partition_info : Type := PartitionInfo { pi_parent : Z; pi_start_lba : Z }.

(** The sector of the parent a request of the partition goes to. *)
Definition parent_sector (i : partition_info) (lba : Z) : Z := u64 (pi_start_lba i + lba).

Definition sizeof_block_device : Z := 112.
Definition sizeof_partition_info : Z := 16.

(** Walks over the device list: more rounds than there are addresses. *)
Definition dev_fuel : positive := 18446744073709551617.

Section Storage.
Context {H D : Type} `{!HeapAllocator H}.
Context (drv_read : Z → Z → Z → D → option (list Z)).
Context (drv_write : Z → Z → Z → list Z → D → option D).

Record storage : Type := Storage {
  devs : gmap Z block_device;
  infos : gmap Z partition_info;
  first_device : Z;
  last_device : Z;
  device_count : Z;
  st_heap : H;
  st_disk : D
}.

Definition with_devs (m : gmap Z block_device) (s : storage) : storage :=
  Storage m (infos s) (first_device s) (last_device s) (device_count s) (st_heap s) (st_disk s).
Definition with_infos (m : gmap Z partition_info) (s : storage) : storage :=
  Storage (devs s) m (first_device s) (last_device s) (device_count s) (st_heap s) (st_disk s).
Definition with_list (f l n : Z) (s : storage) : storage :=
  Storage (devs s) (infos s) f l n (st_heap s) (st_disk s).
Definition with_heap (h : H) (s : storage) : storage :=
  Storage (devs s) (infos s) (first_device s) (last_device s) (device_count s) h (st_disk s).
Definition with_disk (d : D) (s : storage) : storage :=
  Storage (devs s) (infos s) (first_device s) (last_device s) (device_count s) (st_heap s) d.

(** ** block.c *)

Definition block_stack_init (s : storage) : storage := with_list 0 0 0 s.

(** The memory comes back zeroed. *)
Definition block_device_alloc (s : storage) : option (Z * storage) :=
  r ← ha_alloc sizeof_block_device 16 (st_heap s);
  let '(p, h) := r in
  let s := with_heap h s in
  if p =? 0 then Some (0, s)
  else Some (p, with_devs (<[p := BlockDevice [] 0 512 false false 0 0 0 fn_null fn_null 0]> (devs s)) s).

Definition upd_dev (a : Z) (f : block_device → block_device) (s : storage) : option storage :=
  d ← devs s !! a; Some (with_devs (<[a := f d]> (devs s)) s).

Definition block_device_register (dev : Z) (s : storage) : option (bool * storage) :=
  if dev =? 0 then Some (false, s)
  else
    d ← devs s !! dev;
    if bool_decide (bd_read d = fn_null) || (bd_sector_size d =? 0) || (bd_sector_count d =? 0)
    then Some (false, s)
    else
      s ← upd_dev dev (set_bd_next 0) s;
      s ← (if first_device s =? 0 then Some (with_list dev (last_device s) (device_count s) s)
           else upd_dev (last_device s) (set_bd_next dev) s);
      Some (true, with_list (first_device s) dev (u32 (device_count s + 1)) s).

Definition block_device_count (s : storage) : Z := device_count s.
Definition block_device_first (s : storage) : Z := first_device s.
Definition block_device_next (dev : Z) (s : storage) : option Z :=
  if dev =? 0 then Some 0 else d ← devs s !! dev; Some (bd_next d).

(** [!dev || !dev->read || !buffer || count == 0], then the range check. *)
Definition transfer_ok (f : block_fn) (d : block_device) (lba count buffer : Z) : bool :=
  negb (bool_decide (f = fn_null) || (buffer =? 0) || (count =? 0)) &&
  negb ((bd_sector_count d <=? lba) || (bd_sector_count d - lba <? count)).

Fixpoint block_read (depth : nat) (dev lba count buffer : Z) (s : storage) : option (option (list Z)) :=
  match depth with
  | O => None
  | Datatypes.S depth =>
      if dev =? 0 then Some None
      else
        d ← devs s !! dev;
        if negb (transfer_ok (bd_read d) d lba count buffer) then Some None
        else
          match bd_read d with
          | fn_null => Some None
          | fn_driver => Some (drv_read (bd_driver_data d) lba count (st_disk s))
          | fn_partition => (* partition_read *)
              i ← infos s !! bd_driver_data d;
              block_read depth (pi_parent i) (parent_sector i lba) count buffer s
          end
  end.

Fixpoint block_write (depth : nat) (dev lba count buffer : Z) (data : list Z) (s : storage)
    : option (bool * storage) :=
  match depth with
  | O => None
  | Datatypes.S depth =>
      if dev =? 0 then Some (false, s)
      else
        d ← devs s !! dev;
        if negb (transfer_ok (bd_write d) d lba count buffer) then Some (false, s)
        else
          match bd_write d with
          | fn_null => Some (false, s)
          | fn_driver =>
              match drv_write (bd_driver_data d) lba count data (st_disk s) with
              | Some disk => Some (true, with_disk disk s)
              | None => Some (false, s)
              end
          | fn_partition => (* partition_write *)
              i ← infos s !! bd_driver_data d;
              block_write depth (pi_parent i) (parent_sector i lba) count buffer data s
          end
  end.

(** A partition sits on a device that is not one: two levels. *)
Definition io_depth : nat := 2.

(** ** partition.c *)

(** [parent->name] with [p] and the number, when there is room. *)
Definition partition_name (parent : list Z) (index : Z) : list Z :=
  let name := take 47 parent in
  let pos := Z.of_nat (length name) in
  if pos + 4 <? STORAGE_NAME_MAX then
    name ++ [112] ++ (if 10 <=? index then [u8 (48 + index / 10)] else []) ++ [u8 (48 + index mod 10)]
  else name.

Definition register_partition (parent index start_lba sector_count : Z) (s : storage)
    : option (bool * storage) :=
  if (parent =? 0) || (start_lba =? 0) || (sector_count =? 0) then Some (false, s)
  else
    p ← devs s !! parent;
    if (bd_sector_count p <=? start_lba) || (bd_sector_count p - start_lba <? sector_count)
    then Some (false, s)
    else
      r ← block_device_alloc s;
      let '(dev, s) := r in
      if dev =? 0 then Some (false, s)
      else
        r ← ha_alloc sizeof_partition_info 16 (st_heap s);
        let '(info, h) := r in
        let s := with_heap h s in
        if info =? 0 then Some (false, s)
        else
          let s := with_infos (<[info := PartitionInfo parent start_lba]> (infos s)) s in
          s ← upd_dev dev (λ d,
                BlockDevice (partition_name (bd_name p) index) sector_count (bd_sector_size p)
                  (bd_removable d) true parent start_lba info fn_partition
                  (if bool_decide (bd_write p = fn_null) then fn_null else fn_partition) (bd_next d)) s;
          block_device_register dev s.

(** The buffer the scans read into. *)
Definition sector_buffer : Z := 4096.

Definition scan_mbr (dev : Z) (s : storage) : option (Z * storage) :=
  r ← block_read io_depth dev 0 1 sector_buffer s;
  match r with
  | None => Some (0, s)
  | Some sector =>
      b510 ← byte_at sector 510; b511 ← byte_at sector 511;
      if negb (b510 =? 0x55) || negb (b511 =? 0xAA) then Some (0, s)
      else
        match for_ 0 4 (λ i '(found, s),
                match (type ← byte_at sector (446 + i * 16 + 4);
                       start ← le32_at sector (446 + i * 16 + 8);
                       count ← le32_at sector (446 + i * 16 + 12);
                       if (type =? 0) || (count =? 0) then Some (found, s)
                       else
                         r ← register_partition dev (i + 1) start count s;
                         let '(ok, s) := r in
                         Some (if (ok : bool) then found + 1 else found, s)) with
                | Some st => inl st
                | None => inr ()
                end) (0, s) with
        | inl st => Some st
        | inr _ => None
        end
  end.

(** The characters of the signature. *)
Definition EFI_PART : list Z := [69; 70; 73; 32; 80; 65; 82; 84].

Definition has_gpt (dev : Z) (s : storage) : option (bool * list Z) :=
  r ← block_read io_depth dev 1 1 sector_buffer s;
  match r with
  | None => Some (false, [])
  | Some sector => Some (bool_decide (take 8 sector = EFI_PART), sector)
  end.

(** [entry[0..15]] all zero, stopping at the first that is not. *)
Definition guid_empty (sector : list Z) (offset : Z) : option bool :=
  match for_ 0 16 (λ b (_ : unit),
          match byte_at sector (offset + b) with
          | None => inr None
          | Some v => if truthy v then inr (Some false) else inl ()
          end) () with
  | inl _ => Some true
  | inr r => r
  end.

(** One entry of the table: [inr] leaves the loop. *)
Definition gpt_entry (dev entries_lba entry_size sector_size i : Z) (st : Z * storage)
    : Z * storage + option (Z * storage) :=
  let '(found, s) := st in
  let lba := u64 (entries_lba + i * entry_size / sector_size) in
  let offset := i * entry_size mod sector_size in
  match block_read io_depth dev lba 1 sector_buffer s with
  | None => inr None
  | Some None => inr (Some (found, s))
  | Some (Some sector) =>
      match guid_empty sector offset with
      | None => inr None
      | Some true => inl (found, s)
      | Some false =>
          match le64_at sector (offset + 32), le64_at sector (offset + 40) with
          | Some first_lba, Some last_lba =>
              if last_lba <? first_lba then inl (found, s)
              else
                match register_partition dev (u32 (i + 1)) first_lba (u64 (last_lba - first_lba + 1)) s with
                | None => inr None
                | Some (ok, s) => inl (if (ok : bool) then u32 (found + 1) else found, s)
                end
          | _, _ => inr None
          end
      end
  end.

Definition scan_gpt (dev : Z) (s : storage) : option (Z * storage) :=
  r ← has_gpt dev s;
  let '(gpt, sector) := r in
  if negb gpt then Some (0, s)
  else
    entries_lba ← le64_at sector 72;
    entry_count ← le32_at sector 80;
    entry_size ← le32_at sector 84;
    if (entry_size <? 128) || (512 <? entry_size) then Some (0, s)
    else
      d ← devs s !! dev;
      match for_ 0 entry_count (gpt_entry dev entries_lba entry_size (bd_sector_size d)) (0, s) with
      | inl st => Some st
      | inr r => r
      end.

(** Some primary entry of the boot sector has type 0xEE. *)
Definition protective (sector : list Z) : option bool :=
  b510 ← byte_at sector 510; b511 ← byte_at sector 511;
  if (b510 =? 0x55) && (b511 =? 0xAA) then
    match for_ 0 4 (λ i (acc : bool),
            match byte_at sector (446 + i * 16 + 4) with
            | None => inr ()
            | Some t => inl (if t =? 0xEE then true else acc)
            end) false with
    | inl b => Some b
    | inr _ => None
    end
  else Some false.

Definition partition_scan_device (dev : Z) (s : storage) : option (Z * storage) :=
  if dev =? 0 then Some (0, s)
  else
    d ← devs s !! dev;
    if bd_is_partition d || negb (bd_sector_size d =? 512) then Some (0, s)
    else
      r ← block_read io_depth dev 0 1 sector_buffer s;
      match r with
      | None => Some (0, s)
      | Some sector =>
          protective_mbr ← protective sector;
          if (protective_mbr : bool) then scan_gpt dev s else scan_mbr dev s
      end.

Definition partition_scan_all (s : storage) : option (Z * storage) :=
  mjoin (while_ dev_fuel (λ '(dev, found, s),
    if dev =? 0 then inr (Some (found, s))
    else
      match (next ← block_device_next dev s;
             r ← partition_scan_device dev s;
             let '(n, s) := r in Some (next, u32 (found + n), s)) with
      | Some st => inl st
      | None => inr None
      end) (block_device_first s, 0, s)).
End Storage.
Arguments storage : clear implicits.

(** ** Transfers through a partition *)

Section Windows.
Context {H D : Type} `{!HeapAllocator H}.
Context (drv_read : Z → Z → Z → D → option (list Z)).
Context (drv_write : Z → Z → Z → list Z → D → option D).
Implicit Types (s : storage H D).

(** [d] is the window [start, start + sector_count) of the hardware device [pd]. *)
Definition window s (d : block_device) (start : Z) (pd : block_device) : Prop :=
  ∃ i, infos s !! bd_driver_data d = Some i ∧ pi_start_lba i = start ∧ pi_parent i ≠ 0 ∧
    devs s !! pi_parent i = Some pd ∧ bd_read pd = fn_driver ∧ bd_write pd ≠ fn_partition ∧
    0 < start ∧ start + bd_sector_count d ≤ bd_sector_count pd ∧
    bd_sector_count pd < 18446744073709551616.

(** Every partition is a window of a hardware device. *)
Definition windows_ok s : Prop :=
  ∀ a d, devs s !! a = Some d → bd_read d = fn_partition ∨ bd_write d = fn_partition →
    ∃ start pd, window s d start pd.

Definition in_window (d : block_device) (lba count : Z) : bool := lba + count <=? bd_sector_count d.

Lemma transfer_ok_spec f d lba count buffer :
  f ≠ fn_null → 0 ≤ lba → 0 < count → buffer ≠ 0 →
  transfer_ok f d lba count buffer = in_window d lba count.
Proof.
  intros Hf Hl Hc Hb. unfold transfer_ok, in_window. rewrite bool_decide_eq_false_2 by done.
  simpl. lia.
Qed.

(** What a window forwards is in range for its parent. *)
Lemma window_forward s d start pd i f lba count buffer :
  window s d start pd → infos s !! bd_driver_data d = Some i → f ≠ fn_null →
  0 ≤ lba → 0 < count → buffer ≠ 0 → in_window d lba count = true →
  parent_sector i lba = start + lba ∧
  transfer_ok f pd (start + lba) count buffer = true.
Proof.
  intros (i' & Hi' & Hst & _ & _ & _ & _ & Hpos & Hend & Hmax) Hi Hf Hl Hc Hb Hin.
  rewrite Hi in Hi'. injection Hi' as <-. unfold in_window in Hin. unfold parent_sector.
  rewrite Hst, u64_small by lia. split; [done|].
  rewrite transfer_ok_spec by (done || lia). unfold in_window. lia.
Qed.

(** C31: a partition is a window.  A read or write through a partition either
    fails without touching the disk, when it does not fit in the partition,
    or is exactly the hardware transfer at [start + lba], which lies
    between the first and the last sector of the partition; it never wraps around
    and never reaches another partition's sectors or the partition table. *)
Theorem partition_io_confined s dev d start pd lba count buffer data :
  dev ≠ 0 → devs s !! dev = Some d → window s d start pd →
  bd_read d = fn_partition → 0 ≤ lba → 0 < count → buffer ≠ 0 →
  block_read drv_read io_depth dev lba count buffer s =
    Some (if in_window d lba count
          then drv_read (bd_driver_data pd) (start + lba) count (st_disk s) else None) ∧
  (bd_write d = fn_partition → bd_write pd = fn_driver →
   block_write drv_write io_depth dev lba count buffer data s =
    Some (if in_window d lba count then
            match drv_write (bd_driver_data pd) (start + lba) count data (st_disk s) with
            | Some disk => (true, with_disk disk s)
            | None => (false, s)
            end
          else (false, s))) ∧
  (in_window d lba count = true →
   0 < start ≤ start + lba ∧ start + lba + count ≤ start + bd_sector_count d ≤ bd_sector_count pd).
Proof.
  intros Hd0 Hd Hw Hr Hl Hc Hb. pose proof Hw as (i & Hi & Hst & Hp0 & Hpd & Hpr & Hpw & Hpos & Hend & _).
  pose proof (window_forward s d start pd i fn_driver lba count buffer Hw Hi ltac:(done) Hl Hc Hb) as Hfw.
  split; [|split].
  - unfold io_depth. cbn [block_read]. replace (dev =? 0) with false by lia. rewrite Hd. obind.
    rewrite Hr, transfer_ok_spec by done. destruct (in_window d lba count) eqn:Hin; [|done].
    destruct (Hfw eq_refl) as [Es Ht]. cbn [negb]. cbv iota. rewrite Hi. obind. rewrite Es.
    replace (pi_parent i =? 0) with false by lia. rewrite Hpd. obind. by rewrite Hpr, Ht.
  - intros Hwr Hdw. unfold io_depth. cbn [block_write]. replace (dev =? 0) with false by lia. rewrite Hd. obind.
    rewrite Hwr, transfer_ok_spec by done. destruct (in_window d lba count) eqn:Hin; [|done].
    destruct (Hfw eq_refl) as [Es Ht]. cbn [negb]. cbv iota. rewrite Hi. obind. rewrite Es.
    replace (pi_parent i =? 0) with false by lia. rewrite Hpd. obind. rewrite Hdw, Ht. simpl.
    by destruct (drv_write _ _ _ _ _).
  - unfold in_window. intros Hin. lia.
Qed.
End Windows.

(** ** The registry and the scan *)

Fixpoint dev_chain (M : gmap Z block_device) (h : Z) (l : list Z) : Prop :=
  match l with
  | [] => h = 0
  | a :: l => h = a ∧ a ≠ 0 ∧ ∃ d, M !! a = Some d ∧ dev_chain M (bd_next d) l
  end.

Lemma dev_chain_ext M M' h l :
  (∀ a, a ∈ l → bd_next <$> M' !! a = bd_next <$> M !! a) → dev_chain M h l → dev_chain M' h l.
Proof.
  revert h. induction l as [|a l IH]; intros h Hext; simpl; [done|].
  intros (-> & Ha & d & Hd & Hc). split_and!; [done..|].
  pose proof (Hext a ltac:(left)) as E. rewrite Hd in E.
  destruct (M' !! a) as [d'|]; [|done]. simpl in E. injection E as E.
  exists d'. split; [done|]. rewrite E. apply IH; [|done]. intros. apply Hext. by right.
Qed.

(** Appending: the last device is made to point to the new one. *)
Lemma dev_chain_snoc M h l a b d_a d_b :
  dev_chain M h (l ++ [a]) → NoDup (l ++ [a]) → b ∉ l ++ [a] → b ≠ 0 →
  M !! a = Some d_a → M !! b = Some d_b → bd_next d_b = 0 →
  dev_chain (<[a := set_bd_next b d_a]> M) h ((l ++ [a]) ++ [b]).
Proof.
  revert h. induction l as [|c l IH]; intros h Hc Hnd Hb Hb0 Ha Hbd Hn; simpl in *.
  - destruct Hc as (-> & Ha0 & d & Hd & Hc). split_and!; [done..|].
    eexists. rewrite lookup_insert_eq. split; [done|]. split_and!; [done..|].
    exists d_b. rewrite lookup_insert_ne; [done|]. intros ->. set_solver.
  - destruct Hc as (-> & Hc0 & d & Hd & Hc). apply NoDup_cons in Hnd as [Hcn Hnd].
    split_and!; [done..|]. exists d. rewrite lookup_insert_ne.
    2:{ intros ->. apply Hcn. apply elem_of_app. right. by left. }
    split; [done|]. apply IH; try done. set_solver.
Qed.

Section Registry.
Context {H D : Type} `{!HeapAllocator H, !HeapAllocatorOk H}.
Context (drv_read : Z → Z → Z → D → option (list Z)).
Implicit Types (s : storage H D).

(** [l] are the registered devices in order. *)
Record registry_ok (l : list Z) s : Prop := {
  ro_chain : dev_chain (devs s) (first_device s) l;
  ro_nodup : NoDup l;
  ro_last : last l = (if first_device s =? 0 then None else Some (last_device s));
  ro_count : device_count s = u32 (Z.of_nat (length l));
  ro_windows : windows_ok s;
  ro_heap : ha_ok (st_heap s) (dom (devs s) ∪ dom (infos s))
}.

(** Old devices are still there, relinked at most, on the same disk. *)
Definition extends s s' : Prop :=
  (∀ a d, devs s !! a = Some d → ∃ k, devs s' !! a = Some (set_bd_next k d)) ∧
  (∀ a i, infos s !! a = Some i → infos s' !! a = Some i) ∧ st_disk s' = st_disk s.

Lemma extends_refl s : extends s s.
Proof. split_and!; [|done..]. intros a d Hd. exists (bd_next d). by destruct d. Qed.

Lemma extends_trans s1 s2 s3 : extends s1 s2 → extends s2 s3 → extends s1 s3.
Proof.
  intros (A1 & B1 & C1) (A2 & B2 & C2). split_and!; [|auto|congruence].
  intros a d Hd. destruct (A1 a d Hd) as (k & Hk). destruct (A2 _ _ Hk) as (k2 & Hk2). eauto.
Qed.

Lemma window_extends s s' d start pd :
  extends s s' → window s d start pd → ∃ pd', window s' d start pd' ∧
    bd_sector_count pd' = bd_sector_count pd.
Proof.
  intros (Hd & Hi & _) (i & Ei & Hst & Hp0 & Hpd & Hr & Hw & Hrest).
  destruct (Hd _ _ Hpd) as (k & Hk). exists (set_bd_next k pd). split; [|done].
  exists i. split_and!; try done; [by apply Hi|apply Hrest..].
Qed.

(** The devices that may be scanned: hardware ones. *)
Definition hardware s (dev : Z) (d : block_device) : Prop :=
  dev ≠ 0 ∧ devs s !! dev = Some d ∧ bd_read d = fn_driver ∧ bd_write d ≠ fn_partition ∧
  bd_sector_size d = 512 ∧ is_u64 (bd_sector_count d).

Lemma hardware_extends s s' dev d :
  extends s s' → hardware s dev d → ∃ d', hardware s' dev d' ∧ bd_sector_count d' = bd_sector_count d ∧
    bd_driver_data d' = bd_driver_data d.
Proof.
  intros (Hd & _) (H0 & Hl & Hrest). destruct (Hd _ _ Hl) as (k & Hk).
  exists (set_bd_next k d). done.
Qed.

(** A partition of [dev] that lies inside it, beyond sector 0. *)
Definition partition_of s (dev : Z) (total : Z) (n : Z) : Prop :=
  ∃ d, devs s !! n = Some d ∧ bd_is_partition d = true ∧ bd_parent d = dev ∧
    1 ≤ bd_parent_lba d ∧ 1 ≤ bd_sector_count d ∧ bd_parent_lba d + bd_sector_count d ≤ total.

Lemma partition_of_extends s s' dev total n :
  extends s s' → partition_of s dev total n → partition_of s' dev total n.
Proof.
  intros (Hd & _) (d & Hl & Hrest). destruct (Hd _ _ Hl) as (k & Hk). by exists (set_bd_next k d).
Qed.

(** Nothing registered: a device record with no functions is added to the store. *)
Lemma registry_add l s p d h :
  registry_ok l s → devs s !! p = None → p ≠ 0 → bd_read d = fn_null → bd_write d = fn_null →
  ha_ok h ({[p]} ∪ (dom (devs s) ∪ dom (infos s))) →
  registry_ok l (with_devs (<[p := d]> (devs s)) (with_heap h s)) ∧
  extends s (with_devs (<[p := d]> (devs s)) (with_heap h s)).
Proof.
  intros [Hc Hnd Hl Hn Hw Hh] Hp Hp0 Hr Hwr Hok.
  assert (extends s (with_devs (<[p := d]> (devs s)) (with_heap h s))) as He.
  { split_and!; [|done..]. intros a x Hx. exists (bd_next x). cbn [devs with_devs].
    rewrite lookup_insert_ne by congruence. rewrite Hx. by destruct x. }
  split; [|done]. split; try done.
  - cbn [devs with_devs first_device]. apply (dev_chain_ext (devs s)); [|done]. intros a Ha.
    destruct (decide (p = a)) as [->|]; [|by rewrite lookup_insert_ne].
    exfalso. clear -Hc Ha Hp. revert Hc Ha. generalize (first_device s).
    induction l as [|b l IH]; intros h0 Hc Ha; [set_solver|]. destruct Hc as (-> & _ & x & Hx & Hc).
    apply elem_of_cons in Ha as [->|Ha]; [congruence|eauto].
  - intros a x Hx Hf. cbn [devs with_devs] in Hx. destruct (decide (p = a)) as [->|Hne].
    + rewrite lookup_insert_eq in Hx. injection Hx as <-. destruct Hf; congruence.
    + rewrite lookup_insert_ne in Hx by done. destruct (Hw a x Hx Hf) as (start & pd & Hwin).
      destruct (window_extends _ _ _ _ _ He Hwin) as (pd' & Hwin' & _). eauto.
  - cbn [devs infos with_devs with_heap st_heap]. rewrite dom_insert_L.
    replace ({[p]} ∪ dom (devs s) ∪ dom (infos s)) with ({[p]} ∪ (dom (devs s) ∪ dom (infos s))) by set_solver.
    done.
Qed.

Lemma block_device_alloc_spec l s :
  registry_ok l s →
  ∃ p s', block_device_alloc s = Some (p, s') ∧ registry_ok l s' ∧ extends s s' ∧
    (p ≠ 0 → devs s !! p = None ∧ infos s !! p = None ∧
       s' = with_devs (<[p := BlockDevice [] 0 512 false false 0 0 0 fn_null fn_null 0]> (devs s))
              (with_heap (st_heap s') s)).
Proof.
  intros Hr. unfold block_device_alloc, sizeof_block_device.
  destruct (ha_alloc_spec (st_heap s) _ 112 16 (ro_heap _ _ Hr) ltac:(lia) ltac:(auto)) as (p & h & -> & Hp).
  obind. destruct Hp as [[-> Hok]|(Hne & Hfr & Hok)].
  - exists 0, (with_heap h s). split; [done|]. split; [by destruct Hr; split|]. split; [|done].
    exact (extends_refl s).
  - replace (p =? 0) with false by lia. eexists p, _. split; [done|].
    assert (devs s !! p = None ∧ infos s !! p = None) as [Hd Hi]
      by (rewrite <- !not_elem_of_dom; set_solver).
    destruct (registry_add l s p (BlockDevice [] 0 512 false false 0 0 0 fn_null fn_null 0) h Hr Hd Hne
                eq_refl eq_refl Hok) as [H1 H2].
    split; [exact H1|]. split; [exact H2|]. done.
Qed.

Lemma dev_chain_elem M h l a : dev_chain M h l → a ∈ l → a ≠ 0 ∧ is_Some (M !! a).
Proof.
  revert h. induction l as [|b l IH]; intros h Hc Ha; [by apply elem_of_nil in Ha|].
  destruct Hc as (-> & Hb & d & Hd & Hc). apply elem_of_cons in Ha as [->|Ha]; [by eauto|].
  by apply (IH _ Hc).
Qed.

Lemma windows_relink s M :
  (∀ a, ∃ k, M !! a = set_bd_next k <$> devs s !! a) → windows_ok s → windows_ok (with_devs M s).
Proof.
  intros HM Hw a d Hd Hf. cbn [devs with_devs] in Hd. destruct (HM a) as (k & Ek). rewrite Hd in Ek.
  destruct (devs s !! a) as [d0|] eqn:Hd0; [|done]. injection Ek as ->.
  destruct (Hw a d0 Hd0 Hf) as (start & pd & i & Hi & Hst & Hp0 & Hpd & Hrest).
  destruct (HM (pi_parent i)) as (k2 & Ek2). rewrite Hpd in Ek2.
  exists start, (set_bd_next k2 pd), i. split_and!; try done; apply Hrest.
Qed.

Lemma register_spec l s dev d :
  registry_ok l s → devs s !! dev = Some d → dev ∉ l → dev ≠ 0 → bd_read d ≠ fn_null →
  bd_sector_size d ≠ 0 → bd_sector_count d ≠ 0 →
  ∃ s', block_device_register dev s = Some (true, s') ∧ registry_ok (l ++ [dev]) s' ∧ extends s s'.
Proof.
  intros Hro Hd Hn H0 Hr Hsz Hct. pose proof Hro as [Hc Hnd Hl Hcount Hw Hh].
  unfold block_device_register. replace (dev =? 0) with false by lia. rewrite Hd. obind.
  rewrite bool_decide_eq_false_2 by done.
  replace (bd_sector_size d =? 0) with false by lia. replace (bd_sector_count d =? 0) with false by lia.
  simpl orb. cbv iota.
  set (s1 := with_devs (<[dev := set_bd_next 0 d]> (devs s)) s).
  assert (upd_dev dev (set_bd_next 0) s = Some s1) as -> by (unfold upd_dev; by rewrite Hd). obind.
  change (first_device s1) with (first_device s).
  assert (NoDup (l ++ [dev])) as Hnd'.
  { apply NoDup_app. split_and!; [done|set_solver|apply NoDup_singleton]. }
  assert (∀ n, u32 (u32 (Z.of_nat (length l)) + 1) = n → n = u32 (Z.of_nat (length (l ++ [dev])))) as Hlen.
  { intros n <-. unfold u32. rewrite Zplus_mod_idemp_l, length_app. f_equal. simpl. lia. }
  destruct (Z.eqb_spec (first_device s) 0) as [E|E].
  - destruct l as [|a l]; [|destruct Hc as (? & ? & _); congruence].
    obind. eexists. split; [done|]. split; [|split_and!; [|done..]].
    + split; cbn [devs infos with_devs with_list first_device last_device device_count st_heap s1].
      * split_and!; [done..|]. eexists. rewrite lookup_insert_eq. done.
      * done.
      * by replace (dev =? 0) with false by lia.
      * apply Hlen. by rewrite Hcount.
      * apply (windows_relink s); [|done]. intros a. destruct (decide (dev = a)) as [->|Hne].
        { exists 0. by rewrite lookup_insert_eq, Hd. }
        rewrite lookup_insert_ne by done. destruct (devs s !! a) as [x|]; [exists (bd_next x); by destruct x|by exists 0].
      * rewrite dom_insert_lookup_L; [done|]. by eexists.
    + intros a x Hx. cbn [devs with_devs with_list s1]. destruct (decide (dev = a)) as [->|Hne].
      * exists 0. rewrite lookup_insert_eq. congruence.
      * rewrite lookup_insert_ne by done. exists (bd_next x). rewrite Hx. by destruct x.
  - destruct (last l) as [a|] eqn:Ela; [|done].
    injection Hl as ->. apply last_Some in Ela as [l0 ->].
    assert (last_device s ∈ l0 ++ [last_device s]) as Hin by (apply elem_of_app; right; by left).
    destruct (dev_chain_elem _ _ _ _ Hc Hin) as (Hl0 & x & Hx).
    assert (dev ≠ last_device s) as Hne by (intros ->; done).
    unfold upd_dev. change (devs s1) with (<[dev := set_bd_next 0 d]> (devs s)).
    change (last_device s1) with (last_device s). rewrite lookup_insert_ne, Hx by done. obind. obind.
    set (M := <[last_device s := set_bd_next dev x]> (<[dev := set_bd_next 0 d]> (devs s))).
    assert (∀ a, ∃ k, M !! a = set_bd_next k <$> devs s !! a) as HM.
    { intros a. unfold M. destruct (decide (last_device s = a)) as [<-|Hna].
      - exists dev. by rewrite lookup_insert_eq, Hx.
      - rewrite lookup_insert_ne by done. destruct (decide (dev = a)) as [->|Hna2].
        + exists 0. by rewrite lookup_insert_eq, Hd.
        + rewrite lookup_insert_ne by done.
          destruct (devs s !! a) as [y|]; [exists (bd_next y); by destruct y|by exists 0]. }
    assert (dom M = dom (devs s)) as HdM.
    { unfold M. rewrite !dom_insert_L. apply elem_of_dom_2 in Hx, Hd. set_solver. }
    eexists. split; [done|]. split; [|split_and!; [|done..]].
    + split; cbn [devs infos with_devs with_list first_device last_device device_count st_heap s1]; fold M.
      * apply (dev_chain_snoc _ _ l0 (last_device s) dev x (set_bd_next 0 d)); try done.
        -- apply (dev_chain_ext (devs s)); [|done]. intros a Ha.
           rewrite lookup_insert_ne; [done|]. intros ->. done.
        -- by rewrite lookup_insert_ne.
        -- by rewrite lookup_insert_eq.
      * done.
      * rewrite last_snoc. by replace (first_device s =? 0) with false by lia.
      * apply Hlen. by rewrite Hcount.
      * by apply (windows_relink s).
      * by rewrite HdM.
    + intros a y Hy. cbn [devs with_devs with_list]. fold M. destruct (HM a) as (k & ->). rewrite Hy. eauto.
Qed.

Lemma register_partition_spec l s parent p index start count :
  registry_ok l s → hardware s parent p → 0 ≤ start → 0 ≤ count →
  ∃ ok s' new, register_partition parent index start count s = Some (ok, s') ∧
    registry_ok (l ++ new) s' ∧ extends s s' ∧ length new = (if (ok : bool) then 1 else 0)%nat ∧
    Forall (partition_of s' parent (bd_sector_count p)) new.
Proof.
  intros Hr (Hp0 & Hp & Hrd & Hwr & Hss & Hu) Hst Hct. unfold register_partition.
  assert (∀ s1 : storage H D, registry_ok l s1 → extends s s1 →
    ∃ ok s' new, Some (false, s1) = Some (ok, s') ∧ registry_ok (l ++ new) s' ∧ extends s s' ∧
      length new = (if (ok : bool) then 1 else 0)%nat ∧ Forall (partition_of s' parent (bd_sector_count p)) new) as Hfail.
  { intros s1 H1 H2. exists false, s1, []. rewrite app_nil_r. done. }
  destruct ((parent =? 0) || (start =? 0) || (count =? 0)) eqn:E1; [by apply Hfail, extends_refl|].
  rewrite Hp. obind.
  destruct ((bd_sector_count p <=? start) || (bd_sector_count p - start <? count)) eqn:E2; [by apply Hfail, extends_refl|].
  destruct (block_device_alloc_spec l s Hr) as (dev & s1 & -> & H1 & He1 & Hdev). obind.
  destruct (Z.eqb_spec dev 0) as [E|Hd0]; [by apply Hfail|].
  destruct (Hdev Hd0) as (Hnd & Hni & Es1). clear Hdev. unfold sizeof_partition_info.
  destruct (ha_alloc_spec (st_heap s1) _ 16 16 (ro_heap _ _ H1) ltac:(lia) ltac:(auto)) as (info & h & -> & Hi).
  obind. destruct Hi as [[-> Hok]|(Hi0 & Hifr & Hok)].
  { change (0 =? 0) with true. cbv iota. apply Hfail; [by destruct H1; split|]. exact He1. }
  replace (info =? 0) with false by lia.
  assert (devs s1 !! dev = Some (BlockDevice [] 0 512 false false 0 0 0 fn_null fn_null 0)) as Hd1.
  { rewrite Es1. cbn [devs with_devs]. by rewrite lookup_insert_eq. }
  assert (devs s1 !! info = None ∧ infos s1 !! info = None) as [Hid Hii]
    by (rewrite <- !not_elem_of_dom; set_solver).
  unfold upd_dev. cbn [devs infos with_infos with_heap]. rewrite Hd1. obind. obind.
  set (d := BlockDevice _ count _ _ true parent start info fn_partition _ _).
  set (s2 := with_devs (<[dev := d]> (devs s1)) (with_infos (<[info := PartitionInfo parent start]> (infos s1)) (with_heap h s1))).
  assert (extends s s2) as He2.
  { destruct He1 as (A1 & B1 & C1). split_and!; [| |done].
    - intros a x Hx. destruct (A1 a x Hx) as (k & Hk). exists k. cbn [devs with_devs s2].
      rewrite lookup_insert_ne; [done|]. intros ->. congruence.
    - intros a i Hai. cbn [infos with_devs with_infos s2]. rewrite lookup_insert_ne; [by apply B1|].
      intros ->. apply B1 in Hai. congruence. }
  assert (dev ∉ l) as Hdl.
  { intros Hin. pose proof (dev_chain_elem _ _ _ _ (ro_chain _ _ Hr) Hin) as [_ [? ?]]. congruence. }
  destruct (proj1 He1 parent p Hp) as (kp & Hpar1).
  assert (dev ≠ parent) as Hdp by congruence.
  assert (registry_ok l s2) as H2.
  { destruct H1 as [Hc1 Hnd1 Hl1 Hn1 Hw1 Hh1]. split; try done.
    - cbn [devs first_device with_devs with_infos with_heap s2]. apply (dev_chain_ext (devs s1)); [|done].
      intros a Ha. rewrite lookup_insert_ne; [done|]. by intros ->.
    - intros a x Hx Hf. cbn [devs with_devs s2] in Hx. destruct (decide (dev = a)) as [<-|Hne].
      + rewrite lookup_insert_eq in Hx. injection Hx as <-. exists start, (set_bd_next kp p), (PartitionInfo parent start).
        cbn [infos devs with_devs with_infos s2 bd_driver_data d pi_start_lba pi_parent].
        rewrite lookup_insert_eq, lookup_insert_ne by done. simpl.
        unfold is_u64 in Hu. split_and!; try done; lia.
      + rewrite lookup_insert_ne in Hx by done. destruct (Hw1 a x Hx Hf) as (st & pd & i & Ei & F1 & F2 & F3 & F4 & F5).
        exists st, pd, i. cbn [infos devs with_devs with_infos s2]. split_and!; try done; [| |apply F5..].
        * rewrite lookup_insert_ne; [done|]. intros ->. congruence.
        * rewrite lookup_insert_ne; [done|]. intros Ex. rewrite <- Ex, Hd1 in F3. injection F3 as <-. done.
    - cbn [devs infos with_devs with_infos with_heap s2 st_heap]. rewrite !dom_insert_L.
      assert (dev ∈ dom (devs s1)) by (apply elem_of_dom; eauto).
      replace ({[dev]} ∪ dom (devs s1) ∪ ({[info]} ∪ dom (infos s1)))
        with ({[info]} ∪ (dom (devs s1) ∪ dom (infos s1))) by set_solver. done. }
  assert (devs s2 !! dev = Some d) as Hd2 by apply lookup_insert_eq.
  destruct (register_spec l s2 dev d H2 Hd2 Hdl Hd0) as (s' & -> & H' & He');
    [done|simpl; lia|simpl; lia|].
  exists true, s', [dev]. split; [done|]. split; [done|]. split; [by eapply extends_trans|]. split; [done|].
  apply Forall_singleton. apply (partition_of_extends s2); [done|]. exists d. simpl. split_and!; try done; lia.
Qed.

(** *** Reading the tables *)

(** A sector of the disk is 512 bytes. *)
Definition sectors_ok : Prop :=
  ∀ dd lba disk data, drv_read dd lba 1 disk = Some data → length data = 512%nat.

Definition is_sector (data : list Z) : Prop := length data = 512%nat.

Lemma sector_byte data i : is_sector data → 0 ≤ i < 512 → ∃ v, byte_at data i = Some v.
Proof. intros Hl Hi. apply byte_at_some. rewrite Hl. lia. Qed.

Lemma sector_covers data : is_sector data → covers (byte_at data) 512.
Proof. intros Hl. pose proof (byte_at_covers data) as Hc. rewrite Hl in Hc. exact Hc. Qed.

Lemma hardware_read s dev d lba :
  sectors_ok → hardware s dev d → 0 ≤ lba →
  ∃ r, block_read drv_read io_depth dev lba 1 sector_buffer s = Some r ∧
    (r = if in_window d lba 1 then drv_read (bd_driver_data d) lba 1 (st_disk s) else None) ∧
    ∀ data, r = Some data → is_sector data.
Proof.
  intros Hs (H0 & Hd & Hr & _) Hl. unfold io_depth. cbn [block_read].
  replace (dev =? 0) with false by lia. rewrite Hd. obind. rewrite Hr.
  rewrite transfer_ok_spec by (done || lia). destruct (in_window d lba 1).
  - eexists. split; [done|]. split; [done|]. intros data E. by apply (Hs _ _ _ _ E).
  - eexists. split; [done|]. split; [done|]. done.
Qed.

(** The outcome of scanning: the new partitions, all inside the device. *)
Definition scanned (l : list Z) s (dev total : Z) (found : Z) s' : Prop :=
  ∃ new, registry_ok (l ++ new) s' ∧ extends s s' ∧ found = u32 (Z.of_nat (length new)) ∧
    Forall (partition_of s' dev total) new.

Lemma scanned_refl l s dev total : registry_ok l s → scanned l s dev total 0 s.
Proof. intros Hr. exists []. rewrite app_nil_r. split_and!; try done. apply extends_refl. Qed.

(** One more registration attempt. *)
Lemma scanned_step l s dev d found s1 index start count :
  hardware s dev d → scanned l s dev (bd_sector_count d) found s1 → 0 ≤ start → 0 ≤ count →
  ∃ ok s2, register_partition dev index start count s1 = Some (ok, s2) ∧
    scanned l s dev (bd_sector_count d) (if (ok : bool) then u32 (found + 1) else found) s2.
Proof.
  intros Hh (new & Hr & He & Hf & Hp) Hst Hct.
  destruct (hardware_extends s s1 dev d He Hh) as (d1 & Hh1 & Ec & _).
  destruct (register_partition_spec (l ++ new) s1 dev d1 index start count Hr Hh1 Hst Hct)
    as (ok & s2 & new2 & -> & Hr2 & He2 & Hlen & Hp2).
  exists ok, s2. split; [done|]. exists (new ++ new2). rewrite app_assoc. split; [done|].
  split; [by eapply extends_trans|]. split.
  - rewrite length_app, Hlen, Hf. destruct ok; [|f_equal; lia].
    unfold u32. rewrite Zplus_mod_idemp_l. f_equal. lia.
  - apply Forall_app. split; [|by rewrite <- Ec].
    eapply Forall_impl; [exact Hp|]. intros n. by apply partition_of_extends.
Qed.

Lemma scan_mbr_spec l s dev d :
  sectors_ok → registry_ok l s → hardware s dev d →
  ∃ found s', scan_mbr drv_read dev s = Some (found, s') ∧ scanned l s dev (bd_sector_count d) found s'.
Proof.
  intros Hs Hr Hh. unfold scan_mbr.
  destruct (hardware_read s dev d 0 Hs Hh ltac:(lia)) as (r & -> & _ & Hdata). obind.
  destruct r as [data|]; [|eexists _, _; split; [done|by apply scanned_refl]].
  pose proof (Hdata data eq_refl) as Hl.
  destruct (sector_byte data 510 Hl ltac:(lia)) as (b0 & ->). obind.
  destruct (sector_byte data 511 Hl ltac:(lia)) as (b1 & ->). obind.
  destruct (_ || _); [eexists _, _; split; [done|by apply scanned_refl]|].
  match goal with |- context [for_ 0 4 ?b ?x] =>
    pose proof (for_ind (λ i '(found, s1), 0 ≤ found ≤ i ∧ scanned l s dev (bd_sector_count d) found s1)
      (λ _ : unit, False) 0 4 b x ltac:(lia)) as Hloop end.
  feed Hloop; [split; [lia|by apply scanned_refl]|]. feed Hloop.
  { intros i [found s1] Hi [Hfi Hsc].
    destruct (sector_byte data (446 + i * 16 + 4) Hl ltac:(lia)) as (ty & ->). obind.
    destruct (le32_of_some _ 512 (446 + i * 16 + 8) (sector_covers data Hl) ltac:(lia) ltac:(lia)) as (st & -> & Hst). obind.
    destruct (le32_of_some _ 512 (446 + i * 16 + 12) (sector_covers data Hl) ltac:(lia) ltac:(lia)) as (ct & -> & Hct). obind.
    destruct ((ty =? 0) || (ct =? 0)); [split; [lia|done]|].
    destruct (scanned_step l s dev d found s1 (i + 1) st ct Hh Hsc ltac:(lia) ltac:(lia)) as (ok & s2 & -> & Hs2).
    obind. destruct ok; [|split; [lia|done]]. rewrite (u32_small (found + 1)) in Hs2 by lia. split; [lia|done]. }
  destruct (for_ _ _ _ _) as [[found s1]|]; [|done]. destruct Hloop. eauto.
Qed.

Lemma guid_empty_some data o :
  is_sector data → 0 ≤ o ≤ 496 → ∃ b, guid_empty data o = Some b.
Proof.
  intros Hl Ho. unfold guid_empty.
  match goal with |- context [for_ 0 16 ?body ?x] =>
    pose proof (for_ind (λ _ _, True) (λ r : option bool, ∃ b, r = Some b) 0 16 body x ltac:(lia) I) as Hloop end.
  feed Hloop.
  { intros i _ Hi _. destruct (sector_byte data (o + i) Hl ltac:(lia)) as (v & ->).
    destruct (truthy v); eauto. }
  destruct (for_ _ _ _ _); eauto.
Qed.

Lemma entry_offset es i : 0 < es → 512 mod es = 0 → 0 ≤ i → 0 ≤ i * es mod 512 ≤ 512 - es.
Proof.
  intros Hes Hd Hi. apply Z.mod_divide in Hd as [k Hk]; [|lia]. rewrite Hk.
  rewrite Z.mul_mod_distr_r by lia. pose proof (Z.mod_pos_bound i k). nia.
Qed.

Lemma scan_gpt_spec l s dev d :
  sectors_ok → registry_ok l s → hardware s dev d →
  (∀ sector es, drv_read (bd_driver_data d) 1 1 (st_disk s) = Some sector →
     le32_at sector 84 = Some es → 128 ≤ es ≤ 512 → 512 mod es = 0) →
  ∃ found s', scan_gpt drv_read dev s = Some (found, s') ∧ scanned l s dev (bd_sector_count d) found s'.
Proof.
  intros Hs Hr Hh Hes. unfold scan_gpt, has_gpt.
  assert (∃ found s', Some (0, s) = Some (found, s') ∧ scanned l s dev (bd_sector_count d) found s') as Hno
    by (eexists _, _; split; [done|by apply scanned_refl]).
  destruct (hardware_read s dev d 1 Hs Hh ltac:(lia)) as (r & -> & Er & Hdata). obind.
  destruct r as [data|]; [|done]. obind. destruct (bool_decide _); [|done].
  pose proof (Hdata data eq_refl) as Hl. cbn [negb]. cbv iota.
  destruct (le64_of_some _ 512 72 (sector_covers data Hl) ltac:(lia) ltac:(lia)) as (el & -> & Hel). obind.
  destruct (le32_of_some _ 512 80 (sector_covers data Hl) ltac:(lia) ltac:(lia)) as (n & -> & Hn). obind.
  destruct (le32_of_some _ 512 84 (sector_covers data Hl) ltac:(lia) ltac:(lia)) as (es & Ees & _). rewrite Ees. obind.
  destruct (_ || _) eqn:Erange; [done|]. pose proof Hh as (_ & Hd & _ & _ & Hss & _). rewrite Hd. obind.
  assert (512 mod es = 0) as Hdiv.
  { destruct (in_window d 1 1); [|done]. apply (Hes data es); [done|done|lia]. }
  rewrite Hss.
  pose proof (for_ind (λ _ '(found, s1), scanned l s dev (bd_sector_count d) found s1)
    (λ r, ∃ found s1, r = Some (found, s1) ∧ scanned l s dev (bd_sector_count d) found s1)
    0 n (gpt_entry drv_read dev el es 512) (0, s) ltac:(lia)) as Hloop.
  feed Hloop; [by apply scanned_refl|]. feed Hloop.
  { intros i [found s1] Hi Hsc. unfold gpt_entry. pose proof Hsc as (new & Hr1 & He1 & _).
    destruct (hardware_extends s s1 dev d He1 Hh) as (d1 & Hh1 & _).
    destruct (hardware_read s1 dev d1 (u64 (el + i * es / 512)) Hs Hh1) as (r1 & -> & _ & Hdata1);
      [pose proof (u64_range (el + i * es / 512)); lia|].
    destruct r1 as [sec|]; [|eauto]. pose proof (Hdata1 sec eq_refl) as Hl1.
    pose proof (entry_offset es i ltac:(lia) Hdiv ltac:(lia)) as Hoff.
    destruct (guid_empty_some sec (i * es mod 512) Hl1 ltac:(lia)) as ([|] & ->); [done|].
    destruct (le64_of_some _ 512 (i * es mod 512 + 32) (sector_covers sec Hl1) ltac:(lia) ltac:(lia)) as (fl & -> & Hfl).
    destruct (le64_of_some _ 512 (i * es mod 512 + 40) (sector_covers sec Hl1) ltac:(lia) ltac:(lia)) as (ll & -> & Hll).
    destruct (ll <? fl); [done|].
    destruct (scanned_step l s dev d found s1 (u32 (i + 1)) fl (u64 (ll - fl + 1)) Hh Hsc)
      as (ok & s2 & -> & Hs2); [unfold is_u64 in *; lia|pose proof (u64_range (ll - fl + 1)); lia|].
    done. }
  destruct (for_ _ _ _ _) as [[found s1]|r]; [eauto|done].
Qed.

Lemma protective_some data :
  is_sector data → ∃ b, protective data = Some b.
Proof.
  intros Hl. unfold protective.
  destruct (sector_byte data 510 Hl ltac:(lia)) as (b0 & ->). obind.
  destruct (sector_byte data 511 Hl ltac:(lia)) as (b1 & ->). obind. destruct (_ && _); [|eauto].
  match goal with |- context [for_ 0 4 ?b ?x] =>
    pose proof (for_ind (λ _ _, True) (λ _ : unit, False) 0 4 b x ltac:(lia) I) as Hloop end.
  feed Hloop.
  { intros i acc Hi _. by destruct (sector_byte data (446 + i * 16 + 4) Hl ltac:(lia)) as (v & ->). }
  destruct (for_ _ _ _ _); [eauto|done].
Qed.

(** C34: scanning a disk for partitions is safe on any disk contents, for MBR
    tables and for GPT tables whose entries do not straddle sectors: it ends
    without reading outside the sector buffer, keeps the device list well formed
    and the existing devices as they are, and the partitions it registers, as
    many as it reports, all lie inside the disk and beyond its first sector. *)
Theorem partition_scan_safe l s dev d :
  sectors_ok → registry_ok l s → hardware s dev d →
  (∀ sector es, drv_read (bd_driver_data d) 1 1 (st_disk s) = Some sector →
     le32_at sector 84 = Some es → 128 ≤ es ≤ 512 → 512 mod es = 0) →
  ∃ found s', partition_scan_device drv_read dev s = Some (found, s') ∧
    scanned l s dev (bd_sector_count d) found s'.
Proof.
  intros Hs Hr Hh Hes. unfold partition_scan_device. pose proof Hh as (H0 & Hd & _).
  assert (∃ found s', Some (0, s) = Some (found, s') ∧ scanned l s dev (bd_sector_count d) found s') as Hno
    by (eexists _, _; split; [done|by apply scanned_refl]).
  replace (dev =? 0) with false by lia. rewrite Hd. obind. destruct (_ || _); [done|].
  destruct (hardware_read s dev d 0 Hs Hh ltac:(lia)) as (r & -> & _ & Hdata). obind.
  destruct r as [data|]; [|done]. pose proof (Hdata data eq_refl) as Hl.
  destruct (protective_some data Hl) as ([|] & ->); obind; [by apply scan_gpt_spec|by apply scan_mbr_spec].
Qed.

End Registry.

(** ** Witnesses *)

(** A disk of 2048 sectors and a partition of 100 sectors at 64; reads give zeroes. *)
Definition demo_disk : block_device := BlockDevice [105] 2048 512 false false 0 0 7 fn_driver fn_driver 0.
Definition demo_part : block_device :=
  BlockDevice [105; 112; 49] 100 512 false true 65584 64 70000 fn_partition fn_partition 0.
Definition demo_read (dd lba count : Z) (_ : unit) : option (list Z) := Some (replicate 512 0).
Definition demo_write (dd lba count : Z) (data : list Z) (_ : unit) : option unit := Some ().
Definition demo_storage : storage (heap pmm) unit :=
  Storage (<[80000 := demo_part]> {[65584 := demo_disk]}) {[70000 := PartitionInfo 65584 64]} 65584 80000 2 demo_heap ().
Definition demo_bare : storage (heap pmm) unit :=
  Storage {[65584 := demo_disk]} ∅ 65584 65584 1 demo_heap ().

Lemma partition_io_witness :
  block_read demo_read io_depth 80000 99 1 4096 demo_storage = Some (Some (replicate 512 0)) ∧
  block_read demo_read io_depth 80000 99 2 4096 demo_storage = Some None.
Proof.
  assert (window demo_storage demo_part 64 demo_disk) as Hw.
  { exists (PartitionInfo 65584 64). split_and!; done. }
  split.
  - exact (proj1 (partition_io_confined demo_read demo_write demo_storage 80000 demo_part 64 demo_disk 99 1 4096 []
      ltac:(done) eq_refl Hw eq_refl ltac:(done) ltac:(done) ltac:(done))).
  - exact (proj1 (partition_io_confined demo_read demo_write demo_storage 80000 demo_part 64 demo_disk 99 2 4096 []
      ltac:(done) eq_refl Hw eq_refl ltac:(done) ltac:(done) ltac:(done))).
Defined.

Lemma demo_bare_ok : registry_ok [65584] demo_bare.
Proof.
  split.
  - split_and!; [done..|]. by exists demo_disk.
  - apply NoDup_singleton.
  - done.
  - done.
  - intros a d Hd Hf. cbn [devs demo_bare] in Hd. apply lookup_singleton_Some in Hd as [_ <-].
    by destruct Hf.
  - exists [demo_used; demo_rest]. split; [apply demo_heap_inv|]. intros p Hp.
    cbn [devs infos demo_bare] in Hp. rewrite dom_singleton_L, dom_empty_L, union_empty_r_L in Hp.
    apply elem_of_singleton in Hp as ->. exists demo_used. split; [left|done].
Qed.

Lemma partition_scan_witness :
  ∃ found s', partition_scan_device demo_read 65584 demo_bare = Some (found, s') ∧
    scanned [65584] demo_bare 65584 2048 found s'.
Proof.
  apply (partition_scan_safe demo_read [65584] demo_bare 65584 demo_disk).
  - intros dd lba disk data E. assert (data = replicate 512 0) as -> by (unfold demo_read in E; congruence).
    apply length_replicate.
  - exact demo_bare_ok.
  - split_and!; done.
  - intros sector es E Ees Hes. assert (sector = replicate 512 0) as -> by (unfold demo_read in E; congruence).
    change (Some 0 = Some es) in Ees. injection Ees as <-. lia.
Defined.

(** A GPT whose entries are 500 bytes long: the second one starts 12 bytes before
    the end of the sector buffer and the scan reads past it. *)
Definition straddling_read (dd lba count : Z) (_ : unit) : option (list Z) :=
  Some (if lba =? 0 then replicate 450 0 ++ [238] ++ replicate 59 0 ++ [85; 170]
        else if lba =? 1 then
          EFI_PART ++ replicate 64 0 ++ [2; 0; 0; 0; 0; 0; 0; 0] ++ [4; 0; 0; 0] ++ [244; 1; 0; 0] ++ replicate 424 0
        else replicate 512 0).

Lemma gpt_straddling_entry_faults : partition_scan_device straddling_read 65584 demo_bare = None.
Proof. vm_compute. reflexivity. Qed.
