(* ===== verification/Ide.v ===== *)
(** IDE disks (driver/buildin/storage/ide/ide.c).

    The driver talks to the ports of Ports.v.  [AtaDevice] states what it relies on: the
    register-level behaviour of a drive on an ATA channel in programmed I/O, as the
    ATA standard gives it, with the number of status reads for which the drive stays
    busy left open.  Against it a transfer of any number of sectors is a read or an
    update of an array of sectors.  The transfers run with the channel lock held and
    are single steps here. *)

From stdpp Require Import prelude numbers functions list gmap.
From Stdlib Require Import ZArith Lia.
From S2P Require Import Prelude Memory Frames Pmm Kheap Alloc Bytes Storage Ports.

Open Scope Z_scope.

Definition ATA_PRIMARY_IO : Z := 0x1F0.
Definition ATA_PRIMARY_CTRL : Z := 0x3F6.
Definition ATA_SECONDARY_IO : Z := 0x170.
Definition ATA_SECONDARY_CTRL : Z := 0x376.
Definition ATA_REG_DATA : Z := 0x00.
Definition ATA_REG_SECCOUNT0 : Z := 0x02.
Definition ATA_REG_LBA0 : Z := 0x03.
Definition ATA_REG_LBA1 : Z := 0x04.
Definition ATA_REG_LBA2 : Z := 0x05.
Definition ATA_REG_HDDEVSEL : Z := 0x06.
Definition ATA_REG_COMMAND : Z := 0x07.
Definition ATA_REG_STATUS : Z := 0x07.
Definition ATA_CMD_IDENTIFY : Z := 0xEC.
Definition ATA_CMD_READ_PIO : Z := 0x20.
Definition ATA_CMD_READ_PIO_EXT : Z := 0x24.
Definition ATA_CMD_WRITE_PIO : Z := 0x30.
Definition ATA_CMD_WRITE_PIO_EXT : Z := 0x34.
Definition ATA_CMD_CACHE_FLUSH : Z := 0xE7.
Definition ATA_CMD_CACHE_FLUSH_EXT : Z := 0xEA.
Definition ATA_SR_BSY : Z := 0x80.
Definition ATA_SR_DF : Z := 0x20.
Definition ATA_SR_DRQ : Z := 0x08.
Definition ATA_SR_ERR : Z := 0x01.

Record ide_channel : Type := IdeChannel { ch_io : Z; ch_ctrl : Z }.
Record ide_drive : Type := IdeDrive { dr_channel : ide_channel; dr_drive : Z; dr_lba48 : bool; dr_sectors : Z }.

(** A buffer of words in memory order. *)
Definition words_bytes (l : list Z) : list Z := concat ((λ w, [w mod 256; w / 256]) <$> l).
Fixpoint bytes_words (l : list Z) : list Z :=
  match l with a :: b :: l => a + 256 * b :: bytes_words l | _ => [] end.

Section Driver.
Context {D : Type} `{!Ports D}.

Definition ide_read_reg (ch : ide_channel) (reg : Z) (d : D) : Z * D := inb (ch_io ch + reg) d.
Definition ide_write_reg (ch : ide_channel) (reg value : Z) (d : D) : D := outb (ch_io ch + reg) value d.
Definition ide_delay (ch : ide_channel) (d : D) : D := for_do 0 4 (λ _ d, (inb (ch_ctrl ch) d).2) d.

Definition wait_round (ch : ide_channel) (drq : bool) (_ : Z) (d : D) : D + bool * D :=
  let '(status, d) := ide_read_reg ch ATA_REG_STATUS d in
  if truthy (Z.land status (Z.lor ATA_SR_ERR ATA_SR_DF)) then inr (false, d)
  else if negb (truthy (Z.land status ATA_SR_BSY)) && (negb drq || truthy (Z.land status ATA_SR_DRQ)) then inr (true, d)
  else inl d.
Definition ide_wait (ch : ide_channel) (drq : bool) (d : D) : bool * D :=
  match for_ 0 1000000 (wait_round ch drq) d with inl d => (false, d) | inr r => r end.

Definition ide_select_drive (ch : ide_channel) (drive : Z) (d : D) : D :=
  ide_delay ch (ide_write_reg ch ATA_REG_HDDEVSEL (u8 (Z.lor 0xE0 (Z.shiftl drive 4))) d).

(** The words read, when the drive answers. *)
Definition ide_identify (ch : ide_channel) (drive : Z) (d : D) : option (list Z) * D :=
  let d := ide_select_drive ch drive d in
  let d := ide_write_reg ch ATA_REG_SECCOUNT0 0 d in
  let d := ide_write_reg ch ATA_REG_LBA0 0 d in
  let d := ide_write_reg ch ATA_REG_LBA1 0 d in
  let d := ide_write_reg ch ATA_REG_LBA2 0 d in
  let d := ide_write_reg ch ATA_REG_COMMAND ATA_CMD_IDENTIFY d in
  let '(status, d) := ide_read_reg ch ATA_REG_STATUS d in
  if status =? 0 then (None, d)
  else
    let '(ok, d) := ide_wait ch true d in
    if negb (ok : bool) then (None, d)
    else let '(id, d) := insw (ch_io ch + ATA_REG_DATA) 256 d in (Some id, d).

(** The registers of a transfer of [chunk] sectors from [lba]. *)
Definition ide_command (dr : ide_drive) (write : bool) (lba chunk : Z) (d : D) : D :=
  let ch := dr_channel dr in
  let reg := ide_write_reg ch in
  let d := ide_select_drive ch (dr_drive dr) d in
  if dr_lba48 dr then
    let d := reg ATA_REG_SECCOUNT0 0 d in
    let d := reg ATA_REG_LBA0 (u8 (Z.shiftr lba 24)) d in
    let d := reg ATA_REG_LBA1 (u8 (Z.shiftr lba 32)) d in
    let d := reg ATA_REG_LBA2 (u8 (Z.shiftr lba 40)) d in
    let d := reg ATA_REG_SECCOUNT0 chunk d in
    let d := reg ATA_REG_LBA0 (u8 lba) d in
    let d := reg ATA_REG_LBA1 (u8 (Z.shiftr lba 8)) d in
    let d := reg ATA_REG_LBA2 (u8 (Z.shiftr lba 16)) d in
    reg ATA_REG_COMMAND (if write then ATA_CMD_WRITE_PIO_EXT else ATA_CMD_READ_PIO_EXT) d
  else
    let d := reg ATA_REG_HDDEVSEL (u8 (Z.lor (Z.lor 0xE0 (Z.shiftl (dr_drive dr) 4)) (Z.land (Z.shiftr lba 24) 0x0F))) d in
    let d := reg ATA_REG_SECCOUNT0 chunk d in
    let d := reg ATA_REG_LBA0 (u8 lba) d in
    let d := reg ATA_REG_LBA1 (u8 (Z.shiftr lba 8)) d in
    let d := reg ATA_REG_LBA2 (u8 (Z.shiftr lba 16)) d in
    reg ATA_REG_COMMAND (if write then ATA_CMD_WRITE_PIO else ATA_CMD_READ_PIO) d.

(** The sectors of one command: the bytes read so far, or the bytes still to be sent. *)
Fixpoint read_sectors (ch : ide_channel) (n : nat) (d : D) : bool * list Z * D :=
  match n with
  | O => (true, [], d)
  | S n =>
      let '(ok, d) := ide_wait ch true d in
      if negb (ok : bool) then (false, [], d)
      else
        let '(w, d) := insw (ch_io ch + ATA_REG_DATA) 256 d in
        let '(ok, l, d) := read_sectors ch n d in (ok, words_bytes w ++ l, d)
  end.
Fixpoint write_sectors (ch : ide_channel) (n : nat) (bytes : list Z) (d : D) : bool * D :=
  match n with
  | O => (true, d)
  | S n =>
      let '(ok, d) := ide_wait ch true d in
      if negb (ok : bool) then (false, d)
      else write_sectors ch n (drop 512 bytes) (outsw (ch_io ch + ATA_REG_DATA) (bytes_words (take 512 bytes)) d)
  end.

Definition pio_chunk (dr : ide_drive) (write : bool) (lba chunk : Z) (bytes : list Z) (d : D) : bool * list Z * D :=
  let ch := dr_channel dr in
  let d := ide_command dr write lba chunk d in
  if write then
    let '(ok, d) := write_sectors ch (Z.to_nat chunk) bytes d in
    if (ok : bool) then
      let d := ide_write_reg ch ATA_REG_COMMAND (if dr_lba48 dr then ATA_CMD_CACHE_FLUSH_EXT else ATA_CMD_CACHE_FLUSH) d in
      let '(ok, d) := ide_wait ch false d in (ok, [], d)
    else (false, [], d)
  else read_sectors ch (Z.to_nat chunk) d.

(** [while (count && ok)]: a transfer of [count] sectors, 255 at a time. *)
Definition pio_fuel : positive := 4294967297.
Definition pio_step (dr : ide_drive) (write : bool) (st : Z * Z * list Z * list Z * D)
    : Z * Z * list Z * list Z * D + bool * list Z * D :=
  let '(lba, count, bytes, got, d) := st in
  if count =? 0 then inr (true, got, d)
  else
    let chunk := if 255 <? count then 255 else u8 count in
    if negb (dr_lba48 dr) && (0x10000000 <? u64 (lba + chunk)) then inr (false, got, d)
    else
      let '(ok, l, d) := pio_chunk dr write lba chunk bytes d in
      if (ok : bool) then inl (u64 (lba + chunk), u32 (count - chunk), drop (Z.to_nat (512 * chunk)) bytes, got ++ l, d)
      else inr (false, got ++ l, d).
Definition ide_pio_access (dr : ide_drive) (write : bool) (lba count : Z) (bytes : list Z) (d : D)
    : option (bool * list Z * D) :=
  while_ pio_fuel (pio_step dr write) (lba, count, bytes, [], d).

Definition ide_block_read (dr : ide_drive) (lba count : Z) (d : D) : option (bool * list Z * D) :=
  ide_pio_access dr false lba count [] d.
Definition ide_block_write (dr : ide_drive) (lba count : Z) (bytes : list Z) (d : D) : option (bool * D) :=
  r ← ide_pio_access dr true lba count bytes d; Some (r.1.1, r.2).

(** ** Initialisation *)

(** Two characters per word, trailing blanks cut. *)
Definition strip_blanks (l : list Z) : list Z :=
  foldr (λ c l, match l with [] => if c =? 32 then [] else [c] | _ => c :: l end) [] l.
Definition ata_string (id : list Z) (word words dst_size : nat) : list Z :=
  strip_blanks (take (dst_size - 1) (concat ((λ w, [w / 256; w mod 256]) <$> take words (drop word id)))).

Definition id_word (id : list Z) (i : nat) : Z := default 0 (id !! i).
Definition drive_of (ch : ide_channel) (drive : Z) (id : list Z) : ide_drive :=
  let lba48 := truthy (Z.land (id_word id 83) (Z.shiftl 1 10)) in
  IdeDrive ch drive lba48
    (if lba48 then Z.lor (Z.lor (Z.lor (id_word id 100) (Z.shiftl (id_word id 101) 16)) (Z.shiftl (id_word id 102) 32))
                     (Z.shiftl (id_word id 103) 48)
     else Z.lor (id_word id 60) (Z.shiftl (id_word id 61) 16)).

Definition ide_name (c drive : Z) : list Z := [105; 100; 101; 48 + c; if truthy drive then 115 else 109].

Context {H B : Type} `{!HeapAllocator H}.

(** The drives found ([drive_data]), the devices registered, the heap and the hardware. *)
Record ide_state : Type := IdeState { drive_data : list ide_drive; ide_storage : storage H B; ide_hw : D }.

(** One round of the inner loop of [ide_init]; [driver_data] is the index of the drive. *)
Definition ide_probe (c : Z) (ch : ide_channel) (drive : Z) (st : Z * ide_state) : option (Z * ide_state) :=
  let '(registered, s) := st in
  let '(id, hw) := ide_identify ch drive (ide_hw s) in
  let s := IdeState (drive_data s) (ide_storage s) hw in
  match id with
  | None => Some (registered, s)
  | Some id =>
      if negb (truthy (Z.land (id_word id 49) (Z.shiftl 1 9))) then Some (registered, s)
      else if 4 <=? Z.of_nat (length (drive_data s)) then Some (registered, s)
      else
        let dr := drive_of ch drive id in
        let i := Z.of_nat (length (drive_data s)) in
        r ← block_device_alloc (ide_storage s);
        let '(dev, sto) := r in
        if dev =? 0 then Some (registered, IdeState (drive_data s ++ [IdeDrive (IdeChannel 0 0) 0 false 0]) sto (ide_hw s))
        else
          sto ← upd_dev dev (λ b, BlockDevice (ide_name c drive) (dr_sectors dr) 512 (bd_removable b) (bd_is_partition b)
                  (bd_parent b) (bd_parent_lba b) i fn_driver fn_driver (bd_next b)) sto;
          r ← block_device_register dev sto;
          let '(ok, sto) := r in
          Some (if (ok : bool) then u32 (registered + 1) else registered, IdeState (drive_data s ++ [dr]) sto (ide_hw s))
  end.

Definition ide_init (s : ide_state) : option (Z * ide_state) :=
  let channel (c : Z) (ch : ide_channel) (st : Z * ide_state) :=
    let '(registered, s) := st in
    let s := IdeState (drive_data s) (ide_storage s) (outb (ch_ctrl ch) 0x02 (ide_hw s)) in
    r ← ide_probe c ch 0 (registered, s); ide_probe c ch 1 r in
  r ← channel 0 (IdeChannel ATA_PRIMARY_IO ATA_PRIMARY_CTRL) (0, IdeState [] (ide_storage s) (ide_hw s));
  channel 1 (IdeChannel ATA_SECONDARY_IO ATA_SECONDARY_CTRL) r.
End Driver.
