(* ===== verification/Ata.v ===== *)
(** What the IDE driver does with a drive that follows the ATA standard.

    [ata] is the state of a drive as its registers show it: the device register, the
    current and previous contents of the count and address registers, the command it
    is executing and its sectors.  [AtaDevice] says how port accesses change it, for a
    drive that may stay busy for any number of status reads below the driver's limit.
    The theorems read and write ranges of sectors; [sim] is a drive that satisfies the
    interface. *)

From stdpp Require Import prelude numbers functions list gmap.
From Stdlib Require Import ZArith Lia.
From S2P Require Import Prelude Memory Frames Pmm Kheap Alloc Bytes Storage Ports Ide.

Open Scope Z_scope.

(** ** The drive *)

(** No command, [n] sectors from [lba] on to be read or written by the host, or an
    error. *)
Inductive ata_mode : Type := ata_ready | ata_sending (lba n : Z) | ata_receiving (lba n : Z) | ata_failed.

#[export] Instance ata_mode_eq_dec : EqDecision ata_mode.
Proof. solve_decision. Defined.

(** A register with the value it had before the last write. *)
Record reg2 : Type := Reg2 { r_cur : Z; r_prev : Z }.
Definition push (v : Z) (r : reg2) : reg2 := Reg2 v (r_cur r).

Record ata : Type := Ata {
  at_sel : Z;
  at_count : reg2; at_lba0 : reg2; at_lba1 : reg2; at_lba2 : reg2;
  at_mode : ata_mode;
  at_disk : Z → list Z;
  at_sectors : Z
}.

Definition with_mode (m : ata_mode) (a : ata) : ata :=
  Ata (at_sel a) (at_count a) (at_lba0 a) (at_lba1 a) (at_lba2 a) m (at_disk a) (at_sectors a).
Definition with_sector (lba : Z) (w : list Z) (a : ata) : ata :=
  Ata (at_sel a) (at_count a) (at_lba0 a) (at_lba1 a) (at_lba2 a) (at_mode a) (<[lba := w]> (at_disk a)) (at_sectors a).

Definition write_reg (reg v : Z) (a : ata) : ata :=
  if reg =? 2 then Ata (at_sel a) (push v (at_count a)) (at_lba0 a) (at_lba1 a) (at_lba2 a) (at_mode a) (at_disk a) (at_sectors a)
  else if reg =? 3 then Ata (at_sel a) (at_count a) (push v (at_lba0 a)) (at_lba1 a) (at_lba2 a) (at_mode a) (at_disk a) (at_sectors a)
  else if reg =? 4 then Ata (at_sel a) (at_count a) (at_lba0 a) (push v (at_lba1 a)) (at_lba2 a) (at_mode a) (at_disk a) (at_sectors a)
  else if reg =? 5 then Ata (at_sel a) (at_count a) (at_lba0 a) (at_lba1 a) (push v (at_lba2 a)) (at_mode a) (at_disk a) (at_sectors a)
  else Ata v (at_count a) (at_lba0 a) (at_lba1 a) (at_lba2 a) (at_mode a) (at_disk a) (at_sectors a).

(** The address and the number of sectors the registers give, in both schemes. *)
Definition lba28 (a : ata) : Z := r_cur (at_lba0 a) + 256 * r_cur (at_lba1 a) + 65536 * r_cur (at_lba2 a) + 16777216 * (at_sel a mod 16).
Definition lba48 (a : ata) : Z :=
  r_cur (at_lba0 a) + 256 * r_cur (at_lba1 a) + 65536 * r_cur (at_lba2 a) + 16777216 * r_prev (at_lba0 a) +
  4294967296 * r_prev (at_lba1 a) + 1099511627776 * r_prev (at_lba2 a).
Definition count28 (a : ata) : Z := if r_cur (at_count a) =? 0 then 256 else r_cur (at_count a).
Definition count48 (a : ata) : Z :=
  let n := r_cur (at_count a) + 256 * r_prev (at_count a) in if n =? 0 then 65536 else n.

(** A transfer inside the disk starts, another is refused; other commands are not
    described. *)
Definition transfer (f : Z → Z → ata_mode) (lba n : Z) (a : ata) : ata :=
  with_mode (if lba + n <=? at_sectors a then f lba n else ata_failed) a.
Definition run_command (cmd : Z) (a : ata) : option ata :=
  if cmd =? ATA_CMD_READ_PIO then Some (transfer ata_sending (lba28 a) (count28 a) a)
  else if cmd =? ATA_CMD_READ_PIO_EXT then Some (transfer ata_sending (lba48 a) (count48 a) a)
  else if cmd =? ATA_CMD_WRITE_PIO then Some (transfer ata_receiving (lba28 a) (count28 a) a)
  else if cmd =? ATA_CMD_WRITE_PIO_EXT then Some (transfer ata_receiving (lba48 a) (count48 a) a)
  else None.

(** Drive [drive] is the one selected, with addresses as block numbers. *)
Definition selected (drive : Z) (a : ata) : Prop := at_sel a / 16 mod 2 = drive ∧ at_sel a / 64 mod 2 = 1.

Definition next_mode (f : Z → Z → ata_mode) (lba n : Z) : ata_mode := if n =? 1 then ata_ready else f (lba + 1) (n - 1).

(** The status register of a drive that is not busy. *)
Definition status_of (m : ata_mode) (status : Z) : Prop :=
  Z.land status ATA_SR_BSY = 0 ∧
  (Z.land status (Z.lor ATA_SR_ERR ATA_SR_DF) = 0 ↔ m ≠ ata_failed) ∧
  (Z.land status ATA_SR_DRQ = 0 ↔ m = ata_ready ∨ m = ata_failed).

Class AtaDevice (D : Type) `{!Ports D} (ch : ide_channel) (drive : Z) : Type := {
  ata_ok : D → Prop;
  ata_view : D → ata;
  (** status reads until the drive is done *)
  ata_busy : D → Z;
  ata_busy_range : ∀ d, ata_ok d → 0 ≤ ata_busy d < 1000000;
  (** the alternate status register has no effect *)
  ata_alt : ∀ d, ata_ok d → let d' := (inb (ch_ctrl ch) d).2 in
    ata_ok d' ∧ ata_view d' = ata_view d ∧ (ata_busy d = 0 → ata_busy d' = 0);
  ata_status : ∀ d, ata_ok d → let r := inb (ch_io ch + ATA_REG_STATUS) d in
    ata_ok r.2 ∧ ata_view r.2 = ata_view d ∧
    if ata_busy d =? 0 then ata_busy r.2 = 0 ∧ status_of (at_mode (ata_view d)) r.1
    else ata_busy r.2 = ata_busy d - 1 ∧ Z.land r.1 ATA_SR_BSY ≠ 0 ∧ Z.land r.1 (Z.lor ATA_SR_ERR ATA_SR_DF) = 0;
  (** a register of an idle drive *)
  ata_reg : ∀ d reg v, ata_ok d → at_mode (ata_view d) = ata_ready → ata_busy d = 0 → 2 ≤ reg ≤ 6 → 0 ≤ v < 256 →
    let d' := outb (ch_io ch + reg) v d in
    ata_ok d' ∧ ata_view d' = write_reg reg v (ata_view d) ∧ ata_busy d' = 0;
  (** a command for this drive, when it is idle *)
  ata_command : ∀ d cmd a, ata_ok d → at_mode (ata_view d) = ata_ready → ata_busy d = 0 → selected drive (ata_view d) →
    run_command cmd (ata_view d) = Some a →
    let d' := outb (ch_io ch + ATA_REG_COMMAND) cmd d in ata_ok d' ∧ ata_view d' = a;
  (** a flush keeps the drive busy for a while; a drive still busy ignores it *)
  ata_flush : ∀ d cmd, ata_ok d → at_mode (ata_view d) = ata_ready →
    cmd = ATA_CMD_CACHE_FLUSH ∨ cmd = ATA_CMD_CACHE_FLUSH_EXT →
    let d' := outb (ch_io ch + ATA_REG_COMMAND) cmd d in ata_ok d' ∧ ata_view d' = ata_view d;
  (** one sector to the host; after the last the drive is idle *)
  ata_in : ∀ d lba n, ata_ok d → ata_busy d = 0 → at_mode (ata_view d) = ata_sending lba n → 0 < n →
    let r := insw (ch_io ch + ATA_REG_DATA) 256 d in
    ata_ok r.2 ∧ r.1 = at_disk (ata_view d) lba ∧
    ata_view r.2 = with_mode (next_mode ata_sending lba n) (ata_view d) ∧ (n = 1 → ata_busy r.2 = 0);
  (** one sector from the host; the drive may be busy with it afterwards *)
  ata_out : ∀ d lba n w, ata_ok d → ata_busy d = 0 → at_mode (ata_view d) = ata_receiving lba n → 0 < n →
    length w = 256%nat → Forall (λ v, 0 ≤ v < 65536) w →
    let d' := outsw (ch_io ch + ATA_REG_DATA) w d in
    ata_ok d' ∧ ata_view d' = with_mode (next_mode ata_receiving lba n) (with_sector lba w (ata_view d))
}.

(** The device register: the drive and the top four bits of an address. *)
Lemma select_value k x :
  0 ≤ k < 2 → 0 ≤ x < 16 →
  u8 (Z.lor 0xE0 (Z.shiftl k 4)) = 224 + 16 * k ∧ u8 (Z.lor (Z.lor 0xE0 (Z.shiftl k 4)) x) = 224 + 16 * k + x.
Proof.
  intros Hk Hx. assert (Forall (λ kx : Z * Z, u8 (Z.lor 0xE0 (Z.shiftl kx.1 4)) = 224 + 16 * kx.1 ∧
    u8 (Z.lor (Z.lor 0xE0 (Z.shiftl kx.1 4)) kx.2) = 224 + 16 * kx.1 + kx.2)
    (((λ x, (0, x)) <$> seqZ 0 16) ++ ((λ x, (1, x)) <$> seqZ 0 16))) as Hall.
  { apply (bool_decide_unpack _). vm_compute. exact I. }
  rewrite Forall_forall in Hall. apply (Hall (k, x)). apply elem_of_app.
  assert (k = 0 ∨ k = 1) as [->| ->] by lia; [left|right]; apply list_elem_of_fmap; exists x; (split; [done|apply elem_of_seqZ; lia]).
Qed.

(** An address from the bytes the driver puts in the registers. *)
Lemma lba48_bytes x :
  0 ≤ x < 2 ^ 48 →
  u8 x + 256 * u8 (Z.shiftr x 8) + 65536 * u8 (Z.shiftr x 16) + 16777216 * u8 (Z.shiftr x 24) +
  4294967296 * u8 (Z.shiftr x 32) + 1099511627776 * u8 (Z.shiftr x 40) = x.
Proof.
  intros Hx. unfold u8. rewrite !Z.shiftr_div_pow2 by lia. change (2 ^ 8) with 256. change (2 ^ 16) with 65536.
  change (2 ^ 24) with 16777216. change (2 ^ 32) with 4294967296. change (2 ^ 40) with 1099511627776.
  change (2 ^ 48) with 281474976710656 in Hx. Z.to_euclidean_division_equations. lia.
Qed.

Lemma lba28_bytes x :
  0 ≤ x < 2 ^ 28 →
  u8 x + 256 * u8 (Z.shiftr x 8) + 65536 * u8 (Z.shiftr x 16) + 16777216 * (Z.land (Z.shiftr x 24) 0x0F) = x ∧
  0 ≤ Z.land (Z.shiftr x 24) 0x0F < 16.
Proof.
  intros Hx. change 0x0F with (Z.ones 4). rewrite Z.land_ones by lia. unfold u8. rewrite !Z.shiftr_div_pow2 by lia.
  change (2 ^ 8) with 256. change (2 ^ 16) with 65536. change (2 ^ 24) with 16777216. change (2 ^ 4) with 16.
  change (2 ^ 28) with 268435456 in Hx. Z.to_euclidean_division_equations. lia.
Qed.

(** ** Ranges of sectors *)

Fixpoint sector_bytes (disk : Z → list Z) (lba : Z) (k : nat) : list Z :=
  match k with O => [] | S k => words_bytes (disk lba) ++ sector_bytes disk (lba + 1) k end.
Fixpoint put_sectors (lba : Z) (k : nat) (bytes : list Z) (disk : Z → list Z) : Z → list Z :=
  match k with
  | O => disk
  | S k => put_sectors (lba + 1) k (drop 512 bytes) (<[lba := bytes_words (take 512 bytes)]> disk)
  end.

Lemma sector_bytes_app disk lba j k :
  sector_bytes disk lba (j + k) = sector_bytes disk lba j ++ sector_bytes disk (lba + Z.of_nat j) k.
Proof.
  revert lba. induction j as [|j IH]; intros lba; cbn [sector_bytes Nat.add app]; [by rewrite Z.add_0_r|].
  rewrite IH, <- app_assoc. do 3 f_equal. lia.
Qed.

Lemma put_sectors_app lba j k bytes disk :
  put_sectors lba (j + k) bytes disk =
  put_sectors (lba + Z.of_nat j) k (drop (512 * j) bytes) (put_sectors lba j bytes disk).
Proof.
  revert lba bytes disk. induction j as [|j IH]; intros lba bytes disk; cbn [put_sectors Nat.add].
  - rewrite Z.add_0_r. done.
  - rewrite IH, drop_drop. f_equal; [lia|]. f_equal. lia.
Qed.

Lemma put_sectors_other lba k bytes disk x : x < lba ∨ lba + Z.of_nat k ≤ x → put_sectors lba k bytes disk x = disk x.
Proof.
  revert lba bytes disk. induction k as [|k IH]; intros lba bytes disk Hx; cbn [put_sectors]; [done|].
  rewrite IH by lia. by rewrite fn_lookup_insert_ne by lia.
Qed.

Lemma bytes_words_bytes l k :
  length l = (2 * k)%nat → Forall (λ b, 0 ≤ b < 256) l →
  words_bytes (bytes_words l) = l ∧ length (bytes_words l) = k ∧ Forall (λ v, 0 ≤ v < 65536) (bytes_words l).
Proof.
  revert l. induction k as [|k IH]; intros l Hl Hb; [by destruct l|].
  destruct l as [|a [|b l]]; cbn [length] in Hl; [lia..|]. apply Forall_cons in Hb as [Ha [Hb Hr]%Forall_cons].
  destruct (IH l ltac:(lia) Hr) as (E1 & E2 & E3). cbn [bytes_words length]. split; [|split; [by rewrite E2|by apply Forall_cons; split; [lia|]]].
  unfold words_bytes in *. cbn [fmap list_fmap concat app]. rewrite E1. f_equal; [|f_equal]; Z.to_euclidean_division_equations; lia.
Qed.

Lemma put_sectors_read lba k bytes disk :
  length bytes = (512 * k)%nat → Forall (λ b, 0 ≤ b < 256) bytes → sector_bytes (put_sectors lba k bytes disk) lba k = bytes.
Proof.
  revert lba bytes disk. induction k as [|k IH]; intros lba bytes disk Hl Hb; cbn [put_sectors sector_bytes].
  { by destruct bytes. }
  rewrite IH; [|rewrite length_drop; lia|by apply Forall_drop]. rewrite put_sectors_other by lia. rewrite fn_lookup_insert.
  destruct (bytes_words_bytes (take 512 bytes) 256) as (-> & _); [rewrite length_take; lia|by apply Forall_take|].
  apply take_drop.
Qed.

(** ** Polling *)

Section Spec.
Context {D : Type} `{!Ports D} (ch : ide_channel) (drive : Z) `{!AtaDevice D ch drive}.
Implicit Types d : D.

(** An idle drive of the channel. *)
Record idle d : Prop := {
  idle_ok : ata_ok d;
  idle_mode : at_mode (ata_view d) = ata_ready;
  idle_busy : ata_busy d = 0
}.

Lemma wait_loop drq n i d :
  ata_ok d → Z.of_nat n = ata_busy d → 0 ≤ i → i + Z.of_nat n < 1000000 →
  (drq = true → at_mode (ata_view d) ≠ ata_ready) →
  ∃ d', for_ i 1000000 (wait_round ch drq) d = inr (bool_decide (at_mode (ata_view d) ≠ ata_failed), d') ∧
    ata_ok d' ∧ ata_view d' = ata_view d ∧ ata_busy d' = 0.
Proof.
  revert i d. induction n as [|n IH]; intros i d Hok Hn Hi Hlt Hdrq; rewrite for_unfold by lia; unfold wait_round at 1, ide_read_reg;
    pose proof (ata_status d Hok) as (Hok' & Hv & Hst); destruct (inb (ch_io ch + ATA_REG_STATUS) d) as [st d1];
    cbn [fst snd] in *.
  - rewrite <- Hn in Hst. change (Z.of_nat 0 =? 0) with true in Hst. cbv iota in Hst.
    destruct Hst as (Hb & Hbsy & Herr & Hd). destruct (at_mode (ata_view d)) eqn:Em.
    + rewrite (proj2 Herr) by done. destruct drq; [by destruct (Hdrq eq_refl)|]. rewrite Hbsy. cbn. eauto.
    + rewrite (proj2 Herr), Hbsy by done. cbn. unfold truthy. destruct (Z.eqb_spec (Z.land st ATA_SR_DRQ) 0) as [E|E].
      { destruct (proj1 Hd E); done. }
      destruct drq; cbn; eauto.
    + rewrite (proj2 Herr), Hbsy by done. cbn. unfold truthy. destruct (Z.eqb_spec (Z.land st ATA_SR_DRQ) 0) as [E|E].
      { destruct (proj1 Hd E); done. }
      destruct drq; cbn; eauto.
    + unfold truthy. destruct (Z.eqb_spec (Z.land st (Z.lor ATA_SR_ERR ATA_SR_DF)) 0) as [E|E]; [by destruct (proj1 Herr E)|].
      cbn. eauto.
  - assert (ata_busy d =? 0 = false) as Eb by lia. rewrite Eb in Hst. destruct Hst as (Hb & Hbsy & Herr).
    rewrite Herr. cbn [truthy negb Z.eqb]. unfold truthy at 1. replace (Z.land st ATA_SR_BSY =? 0) with false by lia. cbn [negb andb].
    destruct (IH (i + 1) d1) as (d' & E & H1 & H2 & H3); [done|lia|lia|lia|by rewrite Hv|].
    rewrite Hv in E, H2. exists d'. done.
Qed.

Lemma wait_spec drq d :
  ata_ok d → (drq = true → at_mode (ata_view d) ≠ ata_ready) →
  ∃ d', ide_wait ch drq d = (bool_decide (at_mode (ata_view d) ≠ ata_failed), d') ∧
    ata_ok d' ∧ ata_view d' = ata_view d ∧ ata_busy d' = 0.
Proof.
  intros Hok Hd. pose proof (ata_busy_range d Hok) as Hb.
  destruct (wait_loop drq (Z.to_nat (ata_busy d)) 0 d) as (d' & E & Hrest); [done|lia|lia|lia|done|].
  exists d'. unfold ide_wait. by rewrite E.
Qed.

(** ** Registers *)

Lemma delay_spec d : idle d → idle (ide_delay ch d) ∧ ata_view (ide_delay ch d) = ata_view d.
Proof.
  intros Hi. unfold ide_delay.
  apply (for_do_ind (λ _ d', idle d' ∧ ata_view d' = ata_view d)); [lia|done|].
  intros i d' _ ([Ho Hm Hb] & Hv). destruct (ata_alt d' Ho) as (Ho' & Hv' & Hb'). split; [|by rewrite Hv'].
  split; [done|by rewrite Hv'|by apply Hb'].
Qed.

Lemma reg_spec reg v d :
  idle d → 2 ≤ reg ≤ 6 → 0 ≤ v < 256 →
  idle (ide_write_reg ch reg v d) ∧ ata_view (ide_write_reg ch reg v d) = write_reg reg v (ata_view d).
Proof.
  intros [Ho Hm Hb] Hr Hv. unfold ide_write_reg. destruct (ata_reg d reg v Ho Hm Hb Hr Hv) as (Ho' & Hv' & Hb'). split; [|done].
  split; [done| |done]. rewrite Hv'. unfold write_reg. by repeat case_match.
Qed.

(** The drive writes a list of registers. *)
Fixpoint write_regs (l : list (Z * Z)) (a : ata) : ata :=
  match l with [] => a | (r, v) :: l => write_regs l (write_reg r v a) end.
Fixpoint set_regs (l : list (Z * Z)) d : D :=
  match l with [] => d | (r, v) :: l => set_regs l (ide_write_reg ch r v d) end.

Lemma set_regs_spec l d :
  idle d → Forall (λ rv, 2 ≤ rv.1 ≤ 6 ∧ 0 ≤ rv.2 < 256) l →
  idle (set_regs l d) ∧ ata_view (set_regs l d) = write_regs l (ata_view d).
Proof.
  intros Hi Hl. revert d Hi. induction Hl as [|[r v] l [Hr Hv] _ IH]; intros d Hi; cbn [set_regs write_regs]; [done|].
  destruct (reg_spec r v d Hi Hr Hv) as [Hi' Ev]. destruct (IH _ Hi') as [H1 H2]. split; [done|]. by rewrite H2, Ev.
Qed.

Lemma select_spec d :
  idle d → 0 ≤ drive < 2 →
  idle (ide_select_drive ch drive d) ∧
  ata_view (ide_select_drive ch drive d) = write_reg 6 (224 + 16 * drive) (ata_view d).
Proof.
  intros Hi Hd. unfold ide_select_drive.
  rewrite (proj1 (select_value drive 0 Hd ltac:(lia))).
  destruct (reg_spec ATA_REG_HDDEVSEL (224 + 16 * drive) d Hi) as [Hi' Ev]; [unfold ATA_REG_HDDEVSEL; lia|lia|].
  destruct (delay_spec _ Hi') as [H1 H2]. split; [done|]. by rewrite H2, Ev.
Qed.

(** ** Commands *)

Definition same_media (a b : ata) : Prop := at_disk a = at_disk b ∧ at_sectors a = at_sectors b.
Definition mode_for (write : bool) : Z → Z → ata_mode := if write then ata_receiving else ata_sending.

Lemma command_spec (l48 write : bool) sectors lba chunk d :
  let dr := IdeDrive ch drive l48 sectors in
  idle d → 0 ≤ drive < 2 → 0 ≤ lba → lba + chunk ≤ (if l48 then 2 ^ 48 else 2 ^ 28) → 1 ≤ chunk ≤ 255 →
  let d' := ide_command dr write lba chunk d in
  ata_ok d' ∧ same_media (ata_view d') (ata_view d) ∧
  at_mode (ata_view d') = if lba + chunk <=? at_sectors (ata_view d) then mode_for write lba chunk else ata_failed.
Proof.
  intros dr Hi Hd Hl Hmax Hc d'. destruct (select_spec d Hi Hd) as [Hi1 Ev1]. set (d1 := ide_select_drive ch drive d) in *.
  assert (∃ l cmd, d' = ide_write_reg ch ATA_REG_COMMAND cmd (set_regs l d1) ∧
    Forall (λ rv, 2 ≤ rv.1 ≤ 6 ∧ 0 ≤ rv.2 < 256) l ∧
    let a := write_regs l (ata_view d1) in
    selected drive a ∧ same_media a (ata_view d) ∧
    run_command cmd a = Some (transfer (mode_for write) lba chunk a)) as (l & cmd & Ed & Hl' & Hsel & Hsm & Hrun).
  { destruct l48.
    - exists [(2, 0); (3, u8 (Z.shiftr lba 24)); (4, u8 (Z.shiftr lba 32)); (5, u8 (Z.shiftr lba 40));
        (2, chunk); (3, u8 lba); (4, u8 (Z.shiftr lba 8)); (5, u8 (Z.shiftr lba 16))],
        (if write then ATA_CMD_WRITE_PIO_EXT else ATA_CMD_READ_PIO_EXT).
      split; [done|]. split.
      { repeat (apply Forall_cons; split; [cbn [fst snd]; split; [lia|try apply u8_range; lia]|]). apply Forall_nil. done. }
      rewrite Ev1. cbv zeta. destruct (ata_view d) as [s0 c0 l0 l1 l2 m0 disk0 n0].
      cbv [write_regs write_reg Z.eqb Pos.eqb push at_sel at_count at_lba0 at_lba1 at_lba2 at_mode at_disk at_sectors r_cur r_prev]. split; [split; cbn [at_sel]; Z.to_euclidean_division_equations; lia|].
      split; [done|]. set (a := Ata _ _ _ _ _ _ _ _).
      assert (lba48 a = lba) as E1.
      { unfold lba48, a. cbn [at_lba0 at_lba1 at_lba2 push r_cur r_prev]. rewrite <- (lba48_bytes lba) at 7 by lia. lia. }
      assert (count48 a = chunk) as E2.
      { unfold count48, a. cbn [at_count push r_cur r_prev]. replace (chunk + 256 * 0) with chunk by lia. by replace (chunk =? 0) with false by lia. }
      by destruct write; cbn -[transfer lba48 count48 a]; rewrite E1, E2.
    - destruct (lba28_bytes lba) as [Eb Hhi]; [lia|].
      exists [(6, u8 (Z.lor (Z.lor 0xE0 (Z.shiftl drive 4)) (Z.land (Z.shiftr lba 24) 0x0F))); (2, chunk); (3, u8 lba);
        (4, u8 (Z.shiftr lba 8)); (5, u8 (Z.shiftr lba 16))], (if write then ATA_CMD_WRITE_PIO else ATA_CMD_READ_PIO).
      split; [done|]. split.
      { repeat (apply Forall_cons; split; [cbn [fst snd]; split; [lia|try apply u8_range; lia]|]). apply Forall_nil. done. }
      rewrite (proj2 (select_value drive _ Hd Hhi)). rewrite Ev1. cbv zeta. destruct (ata_view d) as [s0 c0 l0 l1 l2 m0 disk0 n0].
      cbv [write_regs write_reg Z.eqb Pos.eqb push at_sel at_count at_lba0 at_lba1 at_lba2 at_mode at_disk at_sectors r_cur r_prev].
      set (x := Z.land (Z.shiftr lba 24) 15) in *. clearbody x.
      split; [split; cbn [at_sel]; Z.to_euclidean_division_equations; lia|]. split; [done|]. set (a := Ata _ _ _ _ _ _ _ _).
      assert (lba28 a = lba) as E1.
      { unfold lba28, a. cbn [at_lba0 at_lba1 at_lba2 at_sel push r_cur r_prev].
        replace ((224 + 16 * drive + x) mod 16) with x by (Z.to_euclidean_division_equations; lia). lia. }
      assert (count28 a = chunk) as E2.
      { unfold count28, a. cbn [at_count push r_cur r_prev]. by replace (chunk =? 0) with false by lia. }
      by destruct write; cbn -[transfer lba28 count28 a]; rewrite E1, E2. }
  destruct (set_regs_spec l d1 Hi1 Hl') as [Hi2 Ev2]. rewrite <- Ev2 in Hsel, Hsm, Hrun. destruct Hi2 as [Ho Hm Hb].
  destruct (ata_command (set_regs l d1) cmd _ Ho Hm Hb Hsel Hrun) as [Ho' Ev']. rewrite Ed.
  change (outb (ch_io ch + ATA_REG_COMMAND) cmd (set_regs l d1)) with (ide_write_reg ch ATA_REG_COMMAND cmd (set_regs l d1)) in *.
  rewrite Ev'. split; [done|]. unfold transfer. destruct Hsm as [E1 E2]. split; [done|]. cbn [at_mode with_mode]. by rewrite E2.
Qed.

(** ** Transfers *)

Lemma read_sectors_S n d :
  read_sectors ch (S n) d =
  let '(ok, d) := ide_wait ch true d in
  if negb (ok : bool) then (false, [], d)
  else
    let '(w, d) := insw (ch_io ch + ATA_REG_DATA) 256 d in
    let '(ok, l, d) := read_sectors ch n d in (ok, words_bytes w ++ l, d).
Proof. done. Qed.

Lemma read_sectors_spec k lba d :
  ata_ok d → at_mode (ata_view d) = ata_sending lba (Z.of_nat (S k)) →
  ∃ d', read_sectors ch (S k) d = (true, sector_bytes (at_disk (ata_view d)) lba (S k), d') ∧
    idle d' ∧ same_media (ata_view d') (ata_view d).
Proof.
  revert lba d. induction k as [|k IH]; intros lba d Ho Hm; rewrite read_sectors_S;
    (destruct (wait_spec true d Ho) as (d1 & Ew & Ho1 & Hv1 & Hb1); [by rewrite Hm|]); rewrite Ew, Hm;
    rewrite bool_decide_true by done; cbn [negb];
    (destruct (ata_in d1 lba _ Ho1 Hb1 ltac:(rewrite Hv1; exact Hm) ltac:(lia)) as (Ho2 & Hw & Hv2 & Hb2));
    destruct (insw (ch_io ch + ATA_REG_DATA) 256 d1) as [w d2]; cbn [fst snd] in *; rewrite Hv1 in Hw, Hv2; subst w.
  - exists d2. split; [done|]. split; [|by rewrite Hv2]. split; [done|by rewrite Hv2|by apply Hb2].
  - destruct (IH (lba + 1) d2) as (d' & E & Hi & Hs); [done|rewrite Hv2; cbn [at_mode with_mode]|].
    { unfold next_mode. rewrite (proj2 (Z.eqb_neq _ _)) by lia. f_equal. lia. }
    rewrite E. exists d'. rewrite Hv2 in *. done.
Qed.

Lemma read_sectors_fails k d :
  ata_ok d → at_mode (ata_view d) = ata_failed → ∃ d', read_sectors ch (S k) d = (false, [], d').
Proof.
  intros Ho Hm. rewrite read_sectors_S. destruct (wait_spec true d Ho) as (d1 & Ew & _); [by rewrite Hm|]. rewrite Ew, Hm.
  rewrite bool_decide_false by (intros H; by apply H). by eexists.
Qed.

Lemma write_sectors_S n bytes d :
  write_sectors ch (S n) bytes d =
  let '(ok, d) := ide_wait ch true d in
  if negb (ok : bool) then (false, d)
  else write_sectors ch n (drop 512 bytes) (outsw (ch_io ch + ATA_REG_DATA) (bytes_words (take 512 bytes)) d).
Proof. done. Qed.

Lemma write_sectors_spec k lba bytes d :
  ata_ok d → at_mode (ata_view d) = ata_receiving lba (Z.of_nat (S k)) →
  (512 * S k ≤ length bytes)%nat → Forall (λ b, 0 ≤ b < 256) bytes →
  ∃ d', write_sectors ch (S k) bytes d = (true, d') ∧ ata_ok d' ∧ at_mode (ata_view d') = ata_ready ∧
    at_disk (ata_view d') = put_sectors lba (S k) bytes (at_disk (ata_view d)) ∧ at_sectors (ata_view d') = at_sectors (ata_view d).
Proof.
  revert lba bytes d. induction k as [|k IH]; intros lba bytes d Ho Hm Hlen Hby;
    (destruct (wait_spec true d Ho) as (d1 & Ew & Ho1 & Hv1 & Hb1); [by rewrite Hm|]);
    (destruct (bytes_words_bytes (take 512 bytes) 256) as (_ & Hwl & Hwr); [rewrite length_take; lia|by apply Forall_take|]);
    (destruct (ata_out d1 lba _ (bytes_words (take 512 bytes)) Ho1 Hb1 ltac:(rewrite Hv1; exact Hm) ltac:(lia) Hwl Hwr) as (Ho2 & Hv2));
    rewrite Hv1 in Hv2; remember (outsw (ch_io ch + ATA_REG_DATA) (bytes_words (take 512 bytes)) d1) as d2 eqn:E2;
    rewrite write_sectors_S, Ew, Hm, bool_decide_true by done; cbv beta iota; cbn [negb]; rewrite <- E2.
  - exists d2. cbn [write_sectors]. rewrite Hv2. done.
  - destruct (IH (lba + 1) (drop 512 bytes) d2) as (d' & E & H1 & H2 & H3 & H4).
    { done. }
    { rewrite Hv2. cbn [at_mode with_mode]. unfold next_mode. rewrite (proj2 (Z.eqb_neq _ _)) by lia. f_equal. lia. }
    { rewrite length_drop. lia. }
    { by apply Forall_drop. }
    exists d'. rewrite Hv2 in *. done.
Qed.

Lemma write_sectors_fails k bytes d :
  ata_ok d → at_mode (ata_view d) = ata_failed → ∃ d', write_sectors ch (S k) bytes d = (false, d').
Proof.
  intros Ho Hm. rewrite write_sectors_S. destruct (wait_spec true d Ho) as (d1 & Ew & _); [by rewrite Hm|]. rewrite Ew, Hm.
  rewrite bool_decide_false by (intros H; by apply H). by eexists.
Qed.

(** One command: a chunk inside the disk is transferred, another fails. *)
Lemma read_chunk_spec (l48 : bool) sectors lba chunk bytes d :
  let dr := IdeDrive ch drive l48 sectors in
  idle d → 0 ≤ drive < 2 → 0 ≤ lba → lba + chunk ≤ (if l48 then 2 ^ 48 else 2 ^ 28) → 1 ≤ chunk ≤ 255 →
  if lba + chunk <=? at_sectors (ata_view d)
  then ∃ d', pio_chunk dr false lba chunk bytes d = (true, sector_bytes (at_disk (ata_view d)) lba (Z.to_nat chunk), d') ∧
         idle d' ∧ same_media (ata_view d') (ata_view d)
  else ∃ l d', pio_chunk dr false lba chunk bytes d = (false, l, d').
Proof.
  intros dr Hi Hd Hl Hm Hc. destruct (command_spec l48 false sectors lba chunk d Hi Hd Hl Hm Hc) as (Ho & [Ed Es] & Em).
  unfold pio_chunk. fold dr in Ho, Em, Ed, Es. cbn [dr_channel dr]. fold dr. set (d1 := ide_command dr false lba chunk d) in *. clearbody d1.
  destruct (Z.to_nat chunk) as [|k] eqn:Ek; [lia|]. destruct (lba + chunk <=? at_sectors (ata_view d)).
  - destruct (read_sectors_spec k lba d1 Ho) as (d' & E & Hi' & [Hs1 Hs2]).
    { rewrite Em. unfold mode_for. f_equal. lia. }
    rewrite Ed in E. exists d'. split; [exact E|]. split; [done|]. split; congruence.
  - destruct (read_sectors_fails k d1 Ho Em) as (d' & E). eauto.
Qed.

Lemma write_chunk_spec (l48 : bool) sectors lba chunk bytes d :
  let dr := IdeDrive ch drive l48 sectors in
  idle d → 0 ≤ drive < 2 → 0 ≤ lba → lba + chunk ≤ (if l48 then 2 ^ 48 else 2 ^ 28) → 1 ≤ chunk ≤ 255 →
  (512 * Z.to_nat chunk ≤ length bytes)%nat → Forall (λ b, 0 ≤ b < 256) bytes →
  if lba + chunk <=? at_sectors (ata_view d)
  then ∃ d', pio_chunk dr true lba chunk bytes d = (true, [], d') ∧ idle d' ∧
         at_disk (ata_view d') = put_sectors lba (Z.to_nat chunk) bytes (at_disk (ata_view d)) ∧
         at_sectors (ata_view d') = at_sectors (ata_view d)
  else ∃ l d', pio_chunk dr true lba chunk bytes d = (false, l, d').
Proof.
  intros dr Hi Hd Hl Hm Hc Hlen Hb. destruct (command_spec l48 true sectors lba chunk d Hi Hd Hl Hm Hc) as (Ho & [Ed Es] & Em).
  unfold pio_chunk. fold dr in Ho, Em, Ed, Es. cbn [dr_channel dr]. fold dr. set (d1 := ide_command dr true lba chunk d) in *. clearbody d1.
  destruct (Z.to_nat chunk) as [|k] eqn:Ek; [lia|]. destruct (lba + chunk <=? at_sectors (ata_view d)).
  - destruct (write_sectors_spec k lba bytes d1 Ho) as (d2 & E & Ho2 & Hm2 & Hd2 & Hs2); [|done|done|].
    { rewrite Em. unfold mode_for. f_equal. lia. }
    rewrite E. set (cmd := if dr_lba48 dr then _ else _).
    destruct (ata_flush d2 cmd Ho2 Hm2) as [Ho3 Hv3]; [destruct (dr_lba48 dr); auto|].
    change (outb (ch_io ch + ATA_REG_COMMAND) cmd d2) with (ide_write_reg ch ATA_REG_COMMAND cmd d2) in *.
    set (d3 := ide_write_reg ch ATA_REG_COMMAND cmd d2) in *. clearbody d3.
    destruct (wait_spec false d3 Ho3) as (d4 & Ew & Ho4 & Hv4 & Hb4); [done|]. rewrite Ew, Hv3, Hm2, bool_decide_true by done.
    exists d4. split; [done|]. rewrite Hv4, Hv3. split; [split; [done|by rewrite Hv4, Hv3|done]|]. split; congruence.
  - destruct (write_sectors_fails k bytes d1 Ho Em) as (d' & E). rewrite E. eauto.
Qed.

(** ** Whole transfers *)

Context (l48 : bool) (sectors : Z).
Notation dr := (IdeDrive ch drive l48 sectors).

(** A request of the block layer to a drive no larger than its addressing reaches. *)
Record request (lba count : Z) d : Prop := {
  rq_idle : idle d;
  rq_drive : 0 ≤ drive < 2;
  rq_size : at_sectors (ata_view d) ≤ if l48 then 2 ^ 48 else 2 ^ 28;
  rq_range : 0 ≤ lba ∧ 0 < count < 4294967296 ∧ lba + count ≤ 2 ^ 48
}.

(** The size of the next chunk. *)
Lemma chunk_bounds count :
  0 < count < 4294967296 → let chunk := if 255 <? count then 255 else u8 count in 1 ≤ chunk ≤ 255 ∧ chunk ≤ count.
Proof. intros Hc. cbv zeta. destruct (Z.ltb_spec 255 count); [lia|]. rewrite u8_small by lia. lia. Qed.

Lemma ide_read_spec lba count d :
  request lba count d →
  if lba + count <=? at_sectors (ata_view d)
  then ∃ d', ide_block_read dr lba count d = Some (true, sector_bytes (at_disk (ata_view d)) lba (Z.to_nat count), d') ∧
         idle d' ∧ same_media (ata_view d') (ata_view d)
  else ∃ l d', ide_block_read dr lba count d = Some (false, l, d').
Proof.
  intros [Hi Hd Hsz (Hl & Hc & Hmax)]. set (a := ata_view d) in *.
  destruct (while_total
    (λ st : Z * Z * list Z * list Z * D, ∃ k : nat, st.1.1.1.1 = lba + Z.of_nat k ∧ st.1.1.1.2 = count - Z.of_nat k ∧
       0 ≤ count - Z.of_nat k ∧ st.1.2 = sector_bytes (at_disk a) lba k ∧ idle st.2 ∧ same_media (ata_view st.2) a ∧
       (k = O ∨ lba + Z.of_nat k ≤ at_sectors a))
    (λ st, st.1.1.1.2)
    (λ r : bool * list Z * D, if lba + count <=? at_sectors a
       then r.1 = (true, sector_bytes (at_disk a) lba (Z.to_nat count)) ∧ idle r.2 ∧ same_media (ata_view r.2) a
       else r.1.1 = false)
    pio_fuel (pio_step dr false) (lba, count, [], [], d)) as ([[ok l] d'] & E & HQ).
  - exists O. cbn. rewrite Z.add_0_r, Z.sub_0_r. split_and!; try done; [lia|by left].
  - cbn. unfold pio_fuel. lia.
  - intros [[[[lba' count'] bytes] got] d'] (k & E1 & E2 & Hk & E3 & Hi' & [Ed Es] & Hin). cbn [fst snd] in *. subst lba' count' got.
    split; [done|]. unfold pio_step. destruct (Z.eqb_spec (count - Z.of_nat k) 0) as [E0|E0].
    { assert (lba + count <=? at_sectors a = true) as -> by (apply Z.leb_le; lia). cbn [fst snd].
      replace (Z.to_nat count) with k by lia. done. }
    destruct (chunk_bounds (count - Z.of_nat k) ltac:(lia)) as [Hch Hle]. set (chunk := if _ <? _ then _ else _) in *. clearbody chunk.
    rewrite (u64_small (lba + Z.of_nat k + chunk)) by lia.
    destruct (negb (dr_lba48 dr) && (0x10000000 <? lba + Z.of_nat k + chunk)) eqn:E28.
    { apply andb_true_iff in E28 as [Hn%negb_true_iff Hgt]. cbn [dr_lba48] in Hn. subst l48.
      rewrite (proj2 (Z.leb_gt _ _)) by lia. done. }
    pose proof (read_chunk_spec l48 sectors (lba + Z.of_nat k) chunk bytes d' Hi' Hd ltac:(lia)) as Hchunk. cbv zeta in Hchunk.
    rewrite Ed, Es in Hchunk. specialize (Hchunk ltac:(destruct l48; cbn [dr_lba48 negb andb] in *; lia) Hch).
    destruct (Z.leb_spec (lba + Z.of_nat k + chunk) (at_sectors a)) as [Hfit|Hfit].
    + destruct Hchunk as (d1 & -> & Hi1 & [Ed1 Es1]). cbn [fst snd]. rewrite u32_small by lia. split; [|lia].
      exists (k + Z.to_nat chunk)%nat. rewrite sector_bytes_app. split_and!; try done; try lia. by split; congruence.
    + destruct Hchunk as (l & d1 & ->). cbn [fst snd]. by rewrite (proj2 (Z.leb_gt _ _)) by lia.
  - unfold ide_block_read, ide_pio_access. rewrite E. cbn [fst snd] in HQ. destruct (lba + count <=? at_sectors a).
    + destruct HQ as (E' & ? & ?). injection E' as -> ->. eauto.
    + subst ok. eauto.
Qed.

Lemma ide_write_spec lba count bytes d :
  request lba count d → length bytes = Z.to_nat (512 * count) → Forall (λ b, 0 ≤ b < 256) bytes →
  if lba + count <=? at_sectors (ata_view d)
  then ∃ d', ide_block_write dr lba count bytes d = Some (true, d') ∧ idle d' ∧
         at_disk (ata_view d') = put_sectors lba (Z.to_nat count) bytes (at_disk (ata_view d)) ∧
         at_sectors (ata_view d') = at_sectors (ata_view d)
  else ∃ d', ide_block_write dr lba count bytes d = Some (false, d').
Proof.
  intros [Hi Hd Hsz (Hl & Hc & Hmax)] Hlen Hby. set (a := ata_view d) in *.
  destruct (while_total
    (λ st : Z * Z * list Z * list Z * D, ∃ k : nat, st.1.1.1.1 = lba + Z.of_nat k ∧ st.1.1.1.2 = count - Z.of_nat k ∧
       0 ≤ count - Z.of_nat k ∧ st.1.1.2 = drop (512 * k) bytes ∧ idle st.2 ∧
       at_disk (ata_view st.2) = put_sectors lba k bytes (at_disk a) ∧ at_sectors (ata_view st.2) = at_sectors a ∧
       (k = O ∨ lba + Z.of_nat k ≤ at_sectors a))
    (λ st, st.1.1.1.2)
    (λ r : bool * list Z * D, if lba + count <=? at_sectors a
       then r.1.1 = true ∧ idle r.2 ∧ at_disk (ata_view r.2) = put_sectors lba (Z.to_nat count) bytes (at_disk a) ∧
            at_sectors (ata_view r.2) = at_sectors a
       else r.1.1 = false)
    pio_fuel (pio_step dr true) (lba, count, bytes, [], d)) as ([[ok l] d'] & E & HQ).
  - exists O. rewrite Z.add_0_r, Z.sub_0_r. split_and!; try done; [lia|by left].
  - cbn. unfold pio_fuel. lia.
  - intros [[[[lba' count'] bytes'] got] d'] (k & E1 & E2 & Hk & E3 & Hi' & Ed & Es & Hin). cbn [fst snd] in *. subst lba' count' bytes'.
    split; [done|]. unfold pio_step. destruct (Z.eqb_spec (count - Z.of_nat k) 0) as [E0|E0].
    { assert (lba + count <=? at_sectors a = true) as -> by (apply Z.leb_le; lia). cbn [fst snd].
      replace (Z.to_nat count) with k by lia. done. }
    destruct (chunk_bounds (count - Z.of_nat k) ltac:(lia)) as [Hch Hle]. set (chunk := if _ <? _ then _ else _) in *. clearbody chunk.
    rewrite (u64_small (lba + Z.of_nat k + chunk)) by lia.
    destruct (negb (dr_lba48 dr) && (0x10000000 <? lba + Z.of_nat k + chunk)) eqn:E28.
    { apply andb_true_iff in E28 as [Hn%negb_true_iff Hgt]. cbn [dr_lba48] in Hn. subst l48.
      rewrite (proj2 (Z.leb_gt _ _)) by lia. done. }
    pose proof (write_chunk_spec l48 sectors (lba + Z.of_nat k) chunk (drop (512 * k) bytes) d' Hi' Hd ltac:(lia)) as Hchunk. cbv zeta in Hchunk.
    rewrite Ed, Es in Hchunk. specialize (Hchunk ltac:(destruct l48; cbn [dr_lba48 negb andb] in *; lia) Hch).
    specialize (Hchunk ltac:(rewrite length_drop; lia) ltac:(by apply Forall_drop)).
    destruct (Z.leb_spec (lba + Z.of_nat k + chunk) (at_sectors a)) as [Hfit|Hfit].
    + destruct Hchunk as (d1 & -> & Hi1 & Ed1 & Es1). cbn [fst snd]. rewrite u32_small by lia. split; [|lia].
      exists (k + Z.to_nat chunk)%nat. rewrite put_sectors_app. split_and!; try done; try lia.
      rewrite drop_drop. f_equal. lia.
    + destruct Hchunk as (l & d1 & ->). cbn [fst snd]. by rewrite (proj2 (Z.leb_gt _ _)) by lia.
  - unfold ide_block_write, ide_pio_access. rewrite E. obind. cbn [fst snd] in HQ. destruct (lba + count <=? at_sectors a).
    + destruct HQ as (-> & ? & ? & ?). eauto.
    + subst ok. eauto.
Qed.

(** C32: A read of [count] sectors from [lba] on, in chunks of at most 255 and with either addressing
    scheme, succeeds exactly when the range lies on the disk; then the bytes are those
    of the sectors in order, the disk is unchanged and the drive is idle again. *)
Theorem ide_read_refines lba count d :
  request lba count d →
  if lba + count <=? at_sectors (ata_view d)
  then ∃ d', ide_block_read dr lba count d = Some (true, sector_bytes (at_disk (ata_view d)) lba (Z.to_nat count), d') ∧
         idle d' ∧ same_media (ata_view d') (ata_view d)
  else ∃ l d', ide_block_read dr lba count d = Some (false, l, d').
Proof. apply ide_read_spec. Qed.

End Spec.

(** On any hardware whatever, a transfer comes back: every wait gives up after a million
    status reads, and at most [count] commands are issued. *)
Theorem ide_pio_ends {D} `{!Ports D} dr write lba count bytes (d : D) :
  0 ≤ count < 4294967296 → is_Some (ide_pio_access dr write lba count bytes d).
Proof.
  intros Hc. destruct (while_total (λ st : Z * Z * list Z * list Z * D, 0 ≤ st.1.1.1.2 < 4294967296) (λ st, st.1.1.1.2)
    (λ _, True) pio_fuel (pio_step dr write) (lba, count, bytes, [], d)) as (r & E & _); [done|cbn; unfold pio_fuel; lia| |].
  - intros [[[[lba' count'] bytes'] got] d'] Hc'. cbn [fst snd] in *. split; [lia|]. unfold pio_step.
    destruct (Z.eqb_spec count' 0) as [|Hne]; [done|].
    destruct (chunk_bounds count' ltac:(lia)) as [Hch Hle]. set (chunk := if _ <? _ then _ else _) in *. clearbody chunk.
    destruct (negb (dr_lba48 dr) && _); [done|]. destruct (pio_chunk dr write lba' chunk bytes' d') as [[[|] l] d1]; [|done].
    cbn [fst snd]. rewrite u32_small by lia. lia.
  - unfold ide_pio_access. rewrite E. by eexists.
Qed.

(** ** A drive *)

(** A drive alone on the primary channel: after a command and between sectors it stays
    busy for [sim_delay] status reads.  [sim_pos] words of the sector being read have
    been taken and the words [sim_in] of the sector being written have arrived. *)
Record sim : Type := Sim { sim_ata : ata; sim_busy : Z; sim_delay : Z; sim_pos : nat; sim_in : list Z }.

Definition sim_channel : ide_channel := IdeChannel ATA_PRIMARY_IO ATA_PRIMARY_CTRL.

Definition sim_status (m : ata_mode) : Z :=
  match m with ata_ready => 0x40 | ata_sending _ _ | ata_receiving _ _ => 0x48 | ata_failed => 0x41 end.

Definition sim_in8 (port : Z) (d : sim) : Z * sim :=
  if port =? 0x1F7 then
    if sim_busy d =? 0 then (sim_status (at_mode (sim_ata d)), d)
    else (0x80, Sim (sim_ata d) (sim_busy d - 1) (sim_delay d) (sim_pos d) (sim_in d))
  else (0, d).

Definition sim_out8 (port v : Z) (d : sim) : sim :=
  if (0x1F2 <=? port) && (port <=? 0x1F6) then Sim (write_reg (port - 0x1F0) v (sim_ata d)) (sim_busy d) (sim_delay d) (sim_pos d) (sim_in d)
  else if (port =? 0x1F7) && (sim_busy d =? 0) then
    Sim (default (sim_ata d) (run_command v (sim_ata d))) (sim_delay d) (sim_delay d) (sim_pos d) (sim_in d)
  else d.

Definition sim_in16 (port : Z) (d : sim) : Z * sim :=
  match at_mode (sim_ata d) with
  | ata_sending lba n =>
      let w := default 0 (at_disk (sim_ata d) lba !! sim_pos d) in
      if (sim_pos d =? 255)%nat
      then (w, Sim (with_mode (next_mode ata_sending lba n) (sim_ata d)) (if n =? 1 then 0 else sim_delay d) (sim_delay d) 0 (sim_in d))
      else (w, Sim (sim_ata d) (sim_busy d) (sim_delay d) (S (sim_pos d)) (sim_in d))
  | _ => (0, d)
  end.

Definition sim_out16 (port v : Z) (d : sim) : sim :=
  match at_mode (sim_ata d) with
  | ata_receiving lba n =>
      let l := sim_in d ++ [v] in
      if (length l =? 256)%nat
      then Sim (with_mode (next_mode ata_receiving lba n) (with_sector lba l (sim_ata d))) (sim_delay d) (sim_delay d) (sim_pos d) []
      else Sim (sim_ata d) (sim_busy d) (sim_delay d) (sim_pos d) l
  | _ => d
  end.

#[export] Instance sim_ports : Ports sim := {|
  port_in8 := sim_in8; port_out8 := sim_out8; port_in16 := sim_in16; port_out16 := sim_out16;
  port_in32 port d := (0, d); port_out32 port v d := d
|}.

Record sim_ok (d : sim) : Prop := {
  so_busy : 0 ≤ sim_busy d < 1000000;
  so_delay : 0 ≤ sim_delay d < 1000000;
  so_pos : sim_pos d = O ∧ sim_in d = [];
  so_disk : ∀ lba, length (at_disk (sim_ata d) lba) = 256%nat ∧ Forall (λ v, 0 ≤ v < 65536) (at_disk (sim_ata d) lba)
}.

Lemma insw_S k (d : sim) :
  insw 0x1F0 (S k) d = let '(v, d) := sim_in16 0x1F0 d in let '(l, d) := insw 0x1F0 k d in (u16 v :: l, d).
Proof. cbn [insw]. unfold inw. cbn [port_in16 sim_ports]. change (u16 0x1F0) with 0x1F0. by destruct (sim_in16 0x1F0 d). Qed.

(** The last [k] words of a sector. *)
Lemma sim_insw k d lba n :
  at_mode (sim_ata d) = ata_sending lba n → length (at_disk (sim_ata d) lba) = 256%nat →
  Forall (λ v, 0 ≤ v < 65536) (at_disk (sim_ata d) lba) → (sim_pos d + S k = 256)%nat →
  insw 0x1F0 (S k) d = (drop (sim_pos d) (at_disk (sim_ata d) lba),
    Sim (with_mode (next_mode ata_sending lba n) (sim_ata d)) (if n =? 1 then 0 else sim_delay d) (sim_delay d) 0 (sim_in d)).
Proof.
  revert d. induction k as [|k IH]; intros d Hm Hl Hw Hp; rewrite insw_S; unfold sim_in16 at 1; rewrite Hm;
    (destruct (lookup_lt_is_Some_2 (at_disk (sim_ata d) lba) (sim_pos d)) as [w Ew]; [lia|]);
    rewrite (drop_S _ w (sim_pos d)) by done; rewrite Ew; cbn [default from_option id];
    pose proof (proj1 (Forall_lookup _ _) Hw _ _ Ew) as Hwr; cbn beta in Hwr.
  - rewrite (proj2 (Nat.eqb_eq _ _)) by lia. rewrite (drop_ge _ (S (sim_pos d))) by lia. cbn [insw]. by rewrite u16_small by lia.
  - rewrite (proj2 (Nat.eqb_neq _ _)) by lia.
    rewrite (IH (Sim (sim_ata d) (sim_busy d) (sim_delay d) (S (sim_pos d)) (sim_in d))) by (done || cbn; lia). by rewrite u16_small by lia.
Qed.

Lemma sim_outsw w d lba n :
  at_mode (sim_ata d) = ata_receiving lba n → w ≠ [] → (length (sim_in d) + length w = 256)%nat →
  Forall (λ v, 0 ≤ v < 65536) w →
  outsw 0x1F0 w d = Sim (with_mode (next_mode ata_receiving lba n) (with_sector lba (sim_in d ++ w) (sim_ata d)))
    (sim_delay d) (sim_delay d) (sim_pos d) [].
Proof.
  intros Hm Hne Hl Hw. revert d Hm Hne Hl. induction Hw as [|v w Hv Hw IH]; intros d Hm Hne Hl; [done|].
  cbn [outsw]. unfold outw. rewrite (u16_small v) by lia. cbn [port_out16 sim_ports]. unfold sim_out16. rewrite Hm, length_app. cbn [length] in *.
  destruct w as [|v' w].
  - rewrite (proj2 (Nat.eqb_eq _ _)) by (cbn [length] in *; lia). done.
  - rewrite (proj2 (Nat.eqb_neq _ _)) by (cbn [length] in *; lia).
    rewrite IH; [cbn [sim_in sim_ata sim_delay sim_pos]; by rewrite <- app_assoc|done|done|cbn [sim_in length] in *; rewrite length_app; cbn [length]; lia].
Qed.

#[export] Program Instance sim_device : AtaDevice sim sim_channel 0 := {|
  ata_ok := sim_ok; ata_view := sim_ata; ata_busy := sim_busy
|}.
Next Obligation. intros d []. done. Qed.
Next Obligation. done. Qed.
Next Obligation.
  intros d [Hb Hd Hp Hk]. change (inb (ch_io sim_channel + ATA_REG_STATUS) d) with (let '(v, d) := sim_in8 0x1F7 d in (u8 v, d)).
  unfold sim_in8. change (0x1F7 =? 0x1F7) with true. cbv iota. destruct (Z.eqb_spec (sim_busy d) 0) as [E|E]; cbn [fst snd].
  - split; [done|]. split; [done|]. split; [done|]. destruct (at_mode (sim_ata d)); vm_compute; naive_solver.
  - split; [by split; cbn; try lia|]. done.
Qed.
Next Obligation.
  intros d reg v [Hb Hd Hp Hk] Hm H0 Hr Hv. change (ch_io sim_channel) with 0x1F0. unfold outb. rewrite u8_small, u16_small by lia.
  cbn [port_out8 sim_ports]. unfold sim_out8. replace ((0x1F2 <=? 0x1F0 + reg) && (0x1F0 + reg <=? 0x1F6)) with true by lia.
  replace (0x1F0 + reg - 0x1F0) with reg by lia. split; [|done]. split; try done. cbn [sim_ata]. unfold write_reg. by repeat case_match.
Qed.
Next Obligation.
  intros d cmd a [Hb Hd Hp Hk] Hm H0 _ Hrun.
  assert (u8 cmd = cmd) as Ecmd.
  { unfold run_command in Hrun. repeat case_match; try done; (assert (cmd = 0x20 ∨ cmd = 0x24 ∨ cmd = 0x30 ∨ cmd = 0x34) as Hc
      by (unfold ATA_CMD_READ_PIO, ATA_CMD_READ_PIO_EXT, ATA_CMD_WRITE_PIO, ATA_CMD_WRITE_PIO_EXT in *; lia)); destruct Hc as [->|[->|[->| ->]]]; done. }
  change (outb (ch_io sim_channel + ATA_REG_COMMAND) cmd d) with (sim_out8 0x1F7 (u8 cmd) d). rewrite Ecmd. unfold sim_out8.
  change ((0x1F2 <=? 0x1F7) && (0x1F7 <=? 0x1F6)) with false. rewrite H0. change ((0x1F7 =? 0x1F7) && (0 =? 0)) with true. cbv iota.
  rewrite Hrun. split; [|done]. split; try done. cbn [sim_ata default from_option id]. intros lba.
  unfold run_command, transfer in Hrun. repeat case_match; simplify_eq; apply Hk.
Qed.
Next Obligation.
  intros d cmd [Hb Hd Hp Hk] Hm Hcmd. destruct Hcmd as [-> | ->];
  (change (outb (ch_io sim_channel + ATA_REG_COMMAND) ?c d) with (sim_out8 0x1F7 c d); unfold sim_out8;
   change ((0x1F2 <=? 0x1F7) && (0x1F7 <=? 0x1F6)) with false; cbv iota; destruct ((0x1F7 =? 0x1F7) && (sim_busy d =? 0)); [|done];
   split; [split; done|done]).
Qed.
Next Obligation.
  intros d lba n [Hb Hd [Hp Hin] Hk] H0 Hm Hn. destruct (Hk lba) as [Hl Hw].
  change (ch_io sim_channel + ATA_REG_DATA) with 0x1F0. rewrite (sim_insw 255 d lba n) by (done || lia). rewrite Hp. cbn [fst snd]. split; [|split; [done|]].
  - split; try done. cbn [sim_busy]. destruct (n =? 1); lia.
  - split; [done|]. intros ->. done.
Qed.
Next Obligation.
  intros d lba n w [Hb Hd [Hp Hin] Hk] H0 Hm Hn Hl Hw.
  change (ch_io sim_channel + ATA_REG_DATA) with 0x1F0. rewrite (sim_outsw w d lba n); [|done|by intros ->|rewrite Hin; cbn [length]; lia|done]. rewrite Hin. cbn [app].
  split; [|done]. split; try done. cbn [sim_ata with_mode with_sector at_disk]. intros x.
  destruct (decide (lba = x)) as [->|Hne]; [by rewrite fn_lookup_insert|]. rewrite fn_lookup_insert_ne by done. apply Hk.
Qed.

(** ** Witnesses *)

(** Ten sectors, each filled with its number; busy for three status reads at a time. *)
Definition demo_sim : sim :=
  Sim (Ata 0 (Reg2 0 0) (Reg2 0 0) (Reg2 0 0) (Reg2 0 0) ata_ready (λ lba, replicate 256 (lba mod 65536)) 10) 0 3 0 [].
Definition demo_drive : ide_drive := IdeDrive sim_channel 0 true 10.

Lemma demo_request lba count : 0 ≤ lba → 0 < count → lba + count ≤ 10 → request sim_channel 0 true lba count demo_sim.
Proof.
  intros Hl Hc Hs. split; [split; [|done..]|lia|cbn; lia|lia].
  split; [cbn; lia|cbn; lia|done|]. intros x. cbn [sim_ata demo_sim at_disk]. rewrite length_replicate. split; [done|].
  apply Forall_replicate. apply Z.mod_pos_bound. lia.
Qed.

Lemma ide_read_witness :
  ∃ d', ide_block_read demo_drive 2 3 demo_sim = Some (true, sector_bytes (λ lba, replicate 256 (lba mod 65536)) 2 3, d').
Proof.
  destruct (ide_read_refines sim_channel 0 true 10 2 3 demo_sim) as (d' & E & _); [apply demo_request; lia|].
  exists d'. exact E.
Defined.


Lemma ide_pio_ends_witness : is_Some (ide_pio_access demo_drive false 0 4294967295 [] demo_sim).
Proof. apply ide_pio_ends. lia. Defined.
