(* ===== verification/Elf.v ===== *)
(** The ELF loader (exec/elf.c).

    The image is read through an accessor [get] over its [size] bytes ([None] is
    the null pointer); an access outside of them is a fault, the outer [None].
    The functions that return [bool] give their output parameters together with
    it: [Some (Some r)] is [true] with [r] stored, [Some None] is [false].

    The theorems show that the parser never leaves the image, whatever its
    bytes, and that what it accepts are the PT_LOAD headers of the file, in
    order, each inside the file. *)

From stdpp Require Import prelude numbers list.
From Stdlib Require Import ZArith Lia.
From S2P Require Import Prelude Memory Bytes.

Open Scope Z_scope.

Definition ELFCLASS64 : Z := 2.
Definition ELFDATA2LSB : Z := 1.
Definition ET_EXEC : Z := 2.
Definition ET_DYN : Z := 3.
Definition EM_X86_64 : Z := 62.
Definition PT_LOAD : Z := 1.
Definition PT_DYNAMIC : Z := 2.
Definition DT_STRTAB : Z := 5.
Definition DT_SYMTAB : Z := 6.
Definition DT_RELA : Z := 7.
Definition DT_RELASZ : Z := 8.
Definition DT_RELAENT : Z := 9.
Definition DT_SYMENT : Z := 11.
Definition DT_RELACOUNT : Z := 0x6FFFFFF9.
Definition ELF_SEGMENT_MAX : Z := 8.

Definition sizeof_ehdr : Z := 64.
Definition sizeof_phdr : Z := 56.
Definition sizeof_dyn : Z := 16.

(** The fields of [elf64_phdr_t] the loader looks at. *)
Record phdr : Type := Phdr {
  ph_type : Z;
  ph_offset : Z;
  ph_vaddr : Z;
  ph_filesz : Z;
  ph_memsz : Z
}.

Record elf_segment : Type := ElfSegment {
  seg_vaddr : Z;
  seg_offset : Z;
  seg_filesz : Z;
  seg_memsz : Z
}.

Record elf_dynamic : Type := ElfDynamic {
  dyn_present : bool;
  dyn_rela_offset : Z;
  dyn_rela_size : Z;
  dyn_rela_ent : Z;
  dyn_rela_count : Z;
  dyn_symtab_offset : Z;
  dyn_strtab_offset : Z;
  dyn_sym_ent : Z
}.

Record elf_image : Type := ElfImage {
  im_entry : Z;
  im_low_address : Z;
  im_high_address : Z;
  im_segment_count : Z
}.

Definition range_ok (size off len : Z) : bool := (off <=? size) && (len <=? size - off).

(** ** Reading the headers *)

Section Headers.
Context (get : Z → option Z) (size : Z).

Definition eh_type : option Z := le16_of get 16.
Definition eh_machine : option Z := le16_of get 18.
Definition eh_entry : option Z := le64_of get 24.
Definition eh_phoff : option Z := le64_of get 32.
Definition eh_phentsize : option Z := le16_of get 54.
Definition eh_phnum : option Z := le16_of get 56.

(** [ph[i]] with [ph] at file offset [phoff]. *)
Definition phdr_at (phoff i : Z) : option phdr :=
  let o := phoff + sizeof_phdr * i in
  ty ← le32_of get o; off ← le64_of get (o + 8); va ← le64_of get (o + 16);
  fs ← le64_of get (o + 32); ms ← le64_of get (o + 40);
  Some (Phdr ty off va fs ms).

(** The identification bytes, compared from left to right. *)
Fixpoint ident_is (o : Z) (bs : list Z) : option bool :=
  match bs with
  | [] => Some true
  | b :: bs => v ← get o; if negb (v =? b) then Some false else ident_is (o + 1) bs
  end.

(** After the null and size tests. *)
Definition validate_header : option bool :=
  magic ← ident_is 0 [0x7F; 69; 76; 70; ELFCLASS64; ELFDATA2LSB];
  if negb magic then Some false
  else
    type ← eh_type; machine ← eh_machine;
    if (negb (type =? ET_EXEC) && negb (type =? ET_DYN)) || negb (machine =? EM_X86_64) then Some false
    else
      phentsize ← eh_phentsize; phnum ← eh_phnum;
      if negb (phentsize =? sizeof_phdr) || (phnum =? 0) then Some false
      else phoff ← eh_phoff; Some (range_ok size phoff (phnum * phentsize)).

Definition elf64_validate (null : bool) : option bool :=
  if null || (size <? sizeof_ehdr) then Some false else validate_header.

(** One program header of the segment loop: [inr None] is a fault, [inr (Some ())]
    is [return false]. *)
Definition segment_step (phoff max_segs i : Z) (segs : list elf_segment)
    : list elf_segment + option unit :=
  match phdr_at phoff i with
  | None => inr None
  | Some p =>
      if negb (ph_type p =? PT_LOAD) then inl segs
      else if (ph_memsz p <? ph_filesz p) || negb (range_ok size (ph_offset p) (ph_filesz p))
      then inr (Some ())
      else if max_segs <=? Z.of_nat (length segs) then inr (Some ())
      else inl (segs ++ [ElfSegment (ph_vaddr p) (ph_offset p) (ph_filesz p) (ph_memsz p)])
  end.

Definition elf64_parse_segments (null : bool) (max_segs : Z)
    : option (option (list elf_segment * Z * bool)) :=
  ok ← elf64_validate null;
  if negb ok then Some None
  else
    phoff ← eh_phoff; phnum ← eh_phnum;
    match for_ 0 phnum (segment_step phoff max_segs) [] with
    | inr None => None
    | inr (Some _) => Some None
    | inl segs =>
        if bool_decide (segs = []) then Some None
        else entry ← eh_entry; type ← eh_type; Some (Some (segs, entry, type =? ET_DYN))
    end.

(** [out_offset] is not null in any call. *)
Definition elf64_vaddr_to_offset (null : bool) (vaddr : Z) : option (option Z) :=
  if null then Some None
  else
    phoff ← eh_phoff; phnum ← eh_phnum;
    match for_ 0 phnum (λ i (_ : unit),
            match phdr_at phoff i with
            | None => inr None
            | Some p =>
                if negb (ph_type p =? PT_LOAD) then inl ()
                else if (ph_vaddr p <=? vaddr) && (vaddr <? u64 (ph_vaddr p + ph_memsz p))
                then inr (Some (u64 (ph_offset p + (vaddr - ph_vaddr p))))
                else inl ()
            end) () with
    | inl _ => Some None
    | inr None => None
    | inr (Some off) => Some (Some off)
    end.

Definition dyn_zero : elf_dynamic := ElfDynamic false 0 0 0 0 0 0 0.

(** The [switch] on the tag of one dynamic entry. *)
Definition dyn_entry (tag value : Z) (o : elf_dynamic) : option elf_dynamic :=
  let '(ElfDynamic p ro rs re rc so st se) := o in
  if tag =? DT_RELA then
    r ← elf64_vaddr_to_offset false value;
    Some (match r with Some off => ElfDynamic p off rs re rc so st se | None => o end)
  else if tag =? DT_RELASZ then Some (ElfDynamic p ro value re rc so st se)
  else if tag =? DT_RELAENT then Some (ElfDynamic p ro rs value rc so st se)
  else if tag =? DT_RELACOUNT then Some (ElfDynamic p ro rs re value so st se)
  else if tag =? DT_SYMTAB then
    r ← elf64_vaddr_to_offset false value;
    Some (match r with Some off => ElfDynamic p ro rs re rc off st se | None => o end)
  else if tag =? DT_STRTAB then
    r ← elf64_vaddr_to_offset false value;
    Some (match r with Some off => ElfDynamic p ro rs re rc so off se | None => o end)
  else if tag =? DT_SYMENT then Some (ElfDynamic p ro rs re rc so st value)
  else Some o.

(** The entries of the dynamic section at [off]. *)
Definition dyn_section (off count : Z) (o : elf_dynamic) : option elf_dynamic :=
  match for_ 0 count (λ d o,
          match (tag ← le64_of get (off + sizeof_dyn * d);
                 value ← le64_of get (off + sizeof_dyn * d + 8);
                 dyn_entry (s64 tag) value o) with
          | None => inr ()
          | Some o => inl o
          end) o with
  | inl o => Some o
  | inr _ => None
  end.

(** The result and what is left in [*out]. *)
Definition elf64_parse_dynamic (null : bool) : option (bool * elf_dynamic) :=
  ok ← elf64_validate null;
  if negb ok then Some (false, dyn_zero)
  else
    phoff ← eh_phoff; phnum ← eh_phnum;
    match for_ 0 phnum (λ i (_ : unit),
            match phdr_at phoff i with
            | None => inr None
            | Some p =>
                if negb (ph_type p =? PT_DYNAMIC) then inl ()
                else if negb (range_ok size (ph_offset p) (ph_memsz p)) then inr (Some (false, dyn_zero))
                else
                  inr (o ← dyn_section (ph_offset p) (ph_memsz p / sizeof_dyn)
                             (ElfDynamic true 0 0 0 0 0 0 0);
                       Some (truthy (dyn_rela_size o) && truthy (dyn_rela_ent o), o))
            end) () with
    | inl _ => Some (false, dyn_zero)
    | inr r => r
    end.
End Headers.

(** ** Loading to fixed addresses *)

(** The image at address [image] of the memory. *)
Definition image_get (m : mem) (image size : Z) (o : Z) : option Z :=
  if (0 <=? o) && (o <? size) then Some (load8 m (image + o)) else None.

Definition UINT64_MAX : Z := 18446744073709551615.

(** One header of the loading loop, on the memory and the output record. *)
Definition load_step (image size phoff i : Z) (st : mem * elf_image)
    : mem * elf_image + option (mem * elf_image) :=
  let '(m, out) := st in
  match phdr_at (image_get m image size) phoff i with
  | None => inr None
  | Some p =>
      if negb (ph_type p =? PT_LOAD) then inl (m, out)
      else if (ph_memsz p <? ph_filesz p) || negb (range_ok size (ph_offset p) (ph_filesz p))
      then inr (Some (m, out))
      else if ph_vaddr p <? 0x2000000 then inr (Some (m, out))
      else
        let m := k_memcpy m (ph_vaddr p) (image + ph_offset p) (ph_filesz p) in
        let m := if ph_filesz p <? ph_memsz p
                 then k_memset m (ph_vaddr p + ph_filesz p) 0 (ph_memsz p - ph_filesz p) else m in
        let end_ := u64 (ph_vaddr p + ph_memsz p) in
        inl (m, ElfImage (im_entry out)
                  (if ph_vaddr p <? im_low_address out then ph_vaddr p else im_low_address out)
                  (if im_high_address out <? end_ then end_ else im_high_address out)
                  (im_segment_count out + 1))
  end.

(** The loop re-reads the number of headers, which a segment may overwrite;
    the counter has 16 bits. *)
Definition load_loop (image size phoff : Z) (st : Z * (mem * elf_image))
    : Z * (mem * elf_image) + option (bool * mem * elf_image) :=
  let '(i, (m, out)) := st in
  match eh_phnum (image_get m image size) with
  | None => inr None
  | Some phnum =>
      if phnum <=? i then inr (Some (truthy (im_segment_count out), m, out))
      else
        match load_step image size phoff i (m, out) with
        | inl st => inl (u16 (i + 1), st)
        | inr None => inr None
        | inr (Some (m, out)) => inr (Some (false, m, out))
        end
  end.

Definition elf64_load_image (image size : Z) (m : mem) : option (bool * mem * elf_image) :=
  let get := image_get m image size in
  ok ← elf64_validate get size (image =? 0);
  if negb ok then Some (false, m, ElfImage 0 0 0 0)
  else
    entry ← eh_entry get; phoff ← eh_phoff get;
    mjoin (while_ 65537 (load_loop image size phoff) (0, (m, ElfImage entry UINT64_MAX 0 0))).

(** ** The parser stays inside the image *)

Section Parser.
Context (get : Z → option Z) (size : Z).
Context (Hget : covers get size).

Lemma ident_total o bs :
  0 ≤ o → o + Z.of_nat (length bs) ≤ size → ∃ b, ident_is get o bs = Some b.
Proof.
  revert o. induction bs as [|b bs IH]; intros o Ho Hs; simpl in *; [eauto|].
  destruct (Hget o ltac:(lia)) as [v ->]. obind. destruct (negb _); [eauto|]. apply IH; lia.
Qed.

(** The header of an image that is long enough. *)
Lemma header_fields :
  sizeof_ehdr ≤ size →
  ∃ ty ma en po pe pn, eh_type get = Some ty ∧ eh_machine get = Some ma ∧ eh_entry get = Some en ∧
    eh_phoff get = Some po ∧ eh_phentsize get = Some pe ∧ eh_phnum get = Some pn ∧
    is_u64 po ∧ 0 ≤ pn < 65536.
Proof.
  unfold sizeof_ehdr. intros Hs.
  destruct (le16_of_some get size 16 Hget ltac:(lia) ltac:(lia)) as (ty & Ety & _).
  destruct (le16_of_some get size 18 Hget ltac:(lia) ltac:(lia)) as (ma & Ema & _).
  destruct (le64_of_some get size 24 Hget ltac:(lia) ltac:(lia)) as (en & Een & _).
  destruct (le64_of_some get size 32 Hget ltac:(lia) ltac:(lia)) as (po & Epo & Hpo).
  destruct (le16_of_some get size 54 Hget ltac:(lia) ltac:(lia)) as (pe & Epe & _).
  destruct (le16_of_some get size 56 Hget ltac:(lia) ltac:(lia)) as (pn & Epn & Hpn).
  exists ty, ma, en, po, pe, pn. split_and!; done || lia.
Qed.

(** Every program header lies in the image. *)
Definition headers_in (phoff phnum : Z) : Prop := 0 ≤ phoff ∧ phoff + phnum * sizeof_phdr ≤ size.

Lemma validate_spec null :
  ∃ b, elf64_validate get size null = Some b ∧
    (b = true → sizeof_ehdr ≤ size ∧ ∃ po pn, eh_phoff get = Some po ∧ eh_phnum get = Some pn ∧
       0 < pn < 65536 ∧ headers_in po pn).
Proof.
  unfold elf64_validate. destruct null; [by exists false|]. simpl orb.
  destruct (Z.ltb_spec size sizeof_ehdr) as [Hlt|Hge]; [by exists false|]. unfold validate_header.
  destruct (ident_total 0 [0x7F; 69; 76; 70; ELFCLASS64; ELFDATA2LSB]) as (b & ->);
    [lia|unfold sizeof_ehdr in Hge; simpl; lia|]. obind.
  destruct (header_fields Hge) as (ty & ma & en & po & pe & pn & -> & -> & _ & -> & -> & -> & Hpo & Hpn).
  destruct (negb b); [by exists false|]. obind. obind. destruct (_ || _); [by exists false|]. obind. obind.
  destruct (negb (pe =? sizeof_phdr) || (pn =? 0)) eqn:E; [by exists false|]. obind.
  eexists. split; [done|]. intros Hr. split; [done|]. exists po, pn. split; [done|]. split; [done|].
  split; [lia|]. unfold range_ok in Hr. unfold headers_in, is_u64 in *.
  assert (pe = sizeof_phdr) as -> by lia. lia.
Qed.

Lemma phdr_at_total po pn i :
  headers_in po pn → 0 ≤ i < pn → ∃ p, phdr_at get po i = Some p ∧
    is_u64 (ph_offset p) ∧ is_u64 (ph_filesz p) ∧ is_u64 (ph_memsz p).
Proof.
  unfold headers_in, sizeof_phdr. intros [Hpo Hs] Hi. unfold phdr_at, sizeof_phdr.
  assert (po + 56 * i + 56 ≤ size) as Hend by nia. set (o := po + 56 * i) in *.
  assert (0 ≤ o) by (unfold o; nia).
  destruct (le32_of_some get size o Hget ltac:(lia) ltac:(lia)) as (ty & -> & _).
  destruct (le64_of_some get size (o + 8) Hget ltac:(lia) ltac:(lia)) as (off & -> & Ho).
  destruct (le64_of_some get size (o + 16) Hget ltac:(lia) ltac:(lia)) as (va & -> & _).
  destruct (le64_of_some get size (o + 32) Hget ltac:(lia) ltac:(lia)) as (fs & -> & Hf).
  destruct (le64_of_some get size (o + 40) Hget ltac:(lia) ltac:(lia)) as (ms & -> & Hm).
  eexists. split; [reflexivity|]. done.
Qed.

(** The reference: the loadable headers of the file as a list. *)
Definition headers (po n : Z) : list phdr := omap (phdr_at get po) (seqZ 0 n).
Definition loads (hs : list phdr) : list phdr := filter (λ p, ph_type p = PT_LOAD) hs.
Definition segment_of (p : phdr) : elf_segment :=
  ElfSegment (ph_vaddr p) (ph_offset p) (ph_filesz p) (ph_memsz p).
Definition load_ok (p : phdr) : bool :=
  (ph_filesz p <=? ph_memsz p) && range_ok size (ph_offset p) (ph_filesz p).

Definition segments_ref (po n max_segs : Z) : option (list elf_segment) :=
  let ls := loads (headers po n) in
  if forallb load_ok ls && (1 <=? Z.of_nat (length ls)) && (Z.of_nat (length ls) <=? max_segs)
  then Some (segment_of <$> ls) else None.

Lemma headers_split po i n :
  0 ≤ i ≤ n → headers po n = headers po i ++ omap (phdr_at get po) (seqZ i (n - i)).
Proof.
  intros Hi. unfold headers. rewrite <- omap_app. f_equal.
  replace n with (i + (n - i)) at 1 by lia. rewrite seqZ_app by lia. by rewrite Z.add_0_l.
Qed.

Lemma headers_step po i p :
  0 ≤ i → phdr_at get po i = Some p → headers po (i + 1) = headers po i ++ [p].
Proof.
  intros Hi Hp. rewrite (headers_split po i (i + 1)) by lia. f_equal.
  replace (i + 1 - i) with 1 by lia. simpl. rewrite Z.add_0_l, Hp. done.
Qed.

Lemma loads_prefix po i n :
  0 ≤ i ≤ n → ∃ rest, loads (headers po n) = loads (headers po i) ++ rest.
Proof. intros Hi. rewrite (headers_split po i n Hi). unfold loads. rewrite filter_app. eauto. Qed.

Lemma segment_loop po pn max_segs :
  headers_in po pn → 0 < pn → 0 ≤ max_segs →
  match for_ 0 pn (segment_step get size po max_segs) [] with
  | inl segs => segs = segment_of <$> loads (headers po pn) ∧
      forallb load_ok (loads (headers po pn)) = true ∧ Z.of_nat (length segs) ≤ max_segs
  | inr r => r = Some () ∧ segments_ref po pn max_segs = None
  end.
Proof.
  intros Hin Hpn Hmax.
  apply (for_ind (λ i segs, segs = segment_of <$> loads (headers po i) ∧
      forallb load_ok (loads (headers po i)) = true ∧ Z.of_nat (length segs) ≤ max_segs)
    (λ r, r = Some () ∧ segments_ref po pn max_segs = None)); [lia|done|].
  intros i segs Hi (Hsegs & Hok & Hlen). unfold segment_step.
  destruct (phdr_at_total po pn i Hin ltac:(lia)) as (p & Hp & _). rewrite Hp.
  pose proof (headers_step po i p ltac:(lia) Hp) as Hst.
  assert (loads (headers po (i + 1)) = loads (headers po i) ++ (if ph_type p =? PT_LOAD then [p] else [])) as Hl.
  { rewrite Hst. unfold loads. rewrite filter_app. f_equal. destruct (Z.eqb_spec (ph_type p) PT_LOAD).
    - by rewrite filter_cons_True.
    - by rewrite filter_cons_False. }
  destruct (loads_prefix po (i + 1) pn ltac:(lia)) as (rest & Hrest).
  destruct (ph_type p =? PT_LOAD); simpl negb; cbv iota.
  2:{ rewrite Hl, app_nil_r. done. }
  assert (length segs = length (loads (headers po i))) as Hls by (by rewrite Hsegs, length_fmap).
  destruct ((ph_memsz p <? ph_filesz p) || negb (range_ok size (ph_offset p) (ph_filesz p))) eqn:E.
  { split; [done|]. unfold segments_ref. rewrite Hrest, Hl, !forallb_app. simpl.
    assert (load_ok p = false) as -> by (unfold load_ok; destruct (range_ok _ _ _); simpl in *; lia). by rewrite andb_false_l, andb_false_r. }
  destruct (Z.leb_spec max_segs (Z.of_nat (length segs))) as [Hge|Hlt].
  { split; [done|]. unfold segments_ref. rewrite Hrest, Hl, !length_app. simpl length.
    assert ((Z.of_nat (length (loads (headers po i)) + 1 + length rest) <=? max_segs) = false) as E3
      by (clear -Hls Hge; rewrite Z.leb_gt; lia).
    by rewrite E3, andb_false_r. }
  split_and!.
  - rewrite Hl, fmap_app, Hsegs. done.
  - rewrite Hl, forallb_app, Hok. simpl. assert (load_ok p = true) as -> by (unfold load_ok; destruct (range_ok _ _ _); simpl in *; lia). done.
  - rewrite length_app. simpl. lia.
Qed.

Lemma parse_segments_spec null max_segs :
  0 ≤ max_segs →
  ∃ ok, elf64_validate get size null = Some ok ∧
  if ok then
    ∃ po pn entry ty, eh_phoff get = Some po ∧ eh_phnum get = Some pn ∧ eh_entry get = Some entry ∧
      eh_type get = Some ty ∧ headers_in po pn ∧
      elf64_parse_segments get size null max_segs =
        Some ((λ segs, (segs, entry, ty =? ET_DYN)) <$> segments_ref po pn max_segs)
  else elf64_parse_segments get size null max_segs = Some None.
Proof.
  intros Hmax. unfold elf64_parse_segments.
  destruct (validate_spec null) as (b & Hv & Hb). exists b. split; [done|]. rewrite Hv. obind.
  destruct b; simpl negb; cbv iota; [|done].
  destruct (Hb eq_refl) as (Hsz & po & pn & Epo & Epn & Hpn & Hin).
  destruct (header_fields Hsz) as (ty & _ & en & _ & _ & _ & Ety & _ & Een & _).
  exists po, pn, en, ty. split_and!; try done. rewrite Epo, Epn. obind. obind.
  pose proof (segment_loop po pn max_segs Hin ltac:(lia) Hmax) as Hloop.
  destruct (for_ _ _ _ _) as [segs|r]; [|by destruct Hloop as [-> ->]].
  destruct Hloop as (Hsegs & Hok & Hlen).
  assert (length segs = length (loads (headers po pn))) as Hls by (by rewrite Hsegs, length_fmap).
  unfold segments_ref. rewrite Hok, <- Hls. case_bool_decide as Hn; [by rewrite Hn|].
  rewrite Een, Ety. obind. obind. simpl andb.
  assert (0 < length segs)%nat by (destruct segs; [done|simpl; lia]).
  assert ((1 <=? Z.of_nat (length segs)) = true) as -> by (apply Z.leb_le; lia).
  assert ((Z.of_nat (length segs) <=? max_segs) = true) as -> by (apply Z.leb_le; lia).
  by rewrite Hsegs.
Qed.

Lemma segments_ref_ok po pn max_segs segs :
  segments_ref po pn max_segs = Some segs →
  1 ≤ Z.of_nat (length segs) ≤ max_segs ∧
  Forall (λ g, seg_filesz g ≤ seg_memsz g ∧ seg_offset g + seg_filesz g ≤ size) segs.
Proof.
  unfold segments_ref. destruct (_ && _ && _) eqn:E; [|done]. intros [= <-]. bsimp.
  rewrite length_fmap. split; [lia|]. apply Forall_fmap. apply Is_true_true, forallb_True in H.
  eapply Forall_impl; [exact H|]. intros p Hp. apply Is_true_true in Hp.
  unfold load_ok, range_ok in Hp. simpl. lia.
Qed.

Lemma vaddr_to_offset_total po pn null vaddr :
  eh_phoff get = Some po → eh_phnum get = Some pn → headers_in po pn → 0 ≤ pn →
  ∃ r, elf64_vaddr_to_offset get null vaddr = Some r.
Proof.
  intros Epo Epn Hin Hpn. unfold elf64_vaddr_to_offset. destruct null; [eauto|]. rewrite Epo, Epn. obind. obind.
  match goal with |- context [for_ 0 pn ?body ?x] =>
    pose proof (for_ind (λ _ _, True) (λ r : option Z, ∃ v, r = Some v) 0 pn body x Hpn I) as Hloop end.
  feed Hloop.
  { intros i _ Hi _. destruct (phdr_at_total po pn i Hin Hi) as (p & -> & _).
    destruct (negb _); [done|]. destruct (_ && _); eauto. }
  destruct (for_ _ _ _ _) as [u|r]; [eauto|]. destruct Hloop as (v & ->). eauto.
Qed.

Lemma dyn_entry_total po pn tag value o :
  eh_phoff get = Some po → eh_phnum get = Some pn → headers_in po pn → 0 ≤ pn →
  ∃ o', dyn_entry get tag value o = Some o'.
Proof.
  intros Epo Epn Hin Hpn. destruct (vaddr_to_offset_total po pn false value Epo Epn Hin Hpn) as (r & Er).
  unfold dyn_entry. destruct o. rewrite Er, !bind_some.
  repeat (destruct (tag =? _); [by eexists|]). by eexists.
Qed.

Lemma dyn_section_total po pn off len o :
  eh_phoff get = Some po → eh_phnum get = Some pn → headers_in po pn → 0 ≤ pn →
  0 ≤ off → 0 ≤ len → range_ok size off len = true →
  ∃ o', dyn_section get off (len / sizeof_dyn) o = Some o'.
Proof.
  intros Epo Epn Hin Hpn Hoff Hlen Hr. unfold dyn_section, sizeof_dyn. unfold range_ok in Hr.
  assert (0 ≤ len / 16 ∧ 16 * (len / 16) ≤ len) as [Hc0 Hc1] by dlia. set (n := len / 16) in *.
  match goal with |- context [for_ 0 n ?body o] =>
    pose proof (for_ind (λ _ _, True) (λ _ : unit, False) 0 n body o Hc0 I) as Hl end.
  feed Hl.
  { intros d o1 Hd _.
    destruct (le64_of_some get size (off + 16 * d) Hget ltac:(lia) ltac:(lia)) as (tag & -> & _). obind.
    destruct (le64_of_some get size (off + 16 * d + 8) Hget ltac:(lia) ltac:(lia)) as (v & -> & _). obind.
    by destruct (dyn_entry_total po pn (s64 tag) v o1 Epo Epn Hin Hpn) as (o' & ->). }
  destruct (for_ _ _ _ _); [eauto|done].
Qed.

Lemma parse_dynamic_total null : ∃ r, elf64_parse_dynamic get size null = Some r.
Proof.
  unfold elf64_parse_dynamic. destruct (validate_spec null) as (b & -> & Hb). obind.
  destruct b; simpl negb; cbv iota; [|eauto].
  destruct (Hb eq_refl) as (_ & po & pn & Epo & Epn & Hpn & Hin). rewrite Epo, Epn. obind. obind.
  match goal with |- context [for_ 0 pn ?body ?x] =>
    pose proof (for_ind (λ _ _, True) (λ r : option (bool * elf_dynamic), ∃ v, r = Some v) 0 pn body x ltac:(lia) I) as Hloop end.
  feed Hloop.
  { intros i _ Hi _. destruct (phdr_at_total po pn i Hin Hi) as (p & -> & Ho & _ & Hm).
    destruct (negb (_ =? _)); [done|]. destruct (negb _) eqn:Er; [eauto|].
    destruct (dyn_section_total po pn (ph_offset p) (ph_memsz p) (ElfDynamic true 0 0 0 0 0 0 0)) as (o & ->);
      [done|done|done|lia|apply Ho|apply Hm|by apply negb_false_iff|].
    obind. eauto. }
  destruct (for_ _ _ _ _) as [u|r]; [eauto|]. exact Hloop.
Qed.

(** C30: parsing is total and exact.  Whatever the bytes of the file, the parser
    reads only inside it.  A file that validates yields exactly its PT_LOAD
    headers in file order, with the entry point and the PIE flag, when all of
    them are sound and their number is between one and [max_segs], and is
    refused otherwise; every accepted segment lies inside the file and is no
    longer there than in memory.  The dynamic section is read within the file too. *)
Theorem elf_parse_segments_exact null max_segs :
  0 ≤ max_segs →
  ∃ ok, elf64_validate get size null = Some ok ∧
  (if ok then
     ∃ po pn entry ty, eh_phoff get = Some po ∧ eh_phnum get = Some pn ∧ eh_entry get = Some entry ∧
       eh_type get = Some ty ∧ headers_in po pn ∧
       elf64_parse_segments get size null max_segs =
         Some ((λ segs, (segs, entry, ty =? ET_DYN)) <$> segments_ref po pn max_segs) ∧
       ∀ segs, segments_ref po pn max_segs = Some segs →
         1 ≤ Z.of_nat (length segs) ≤ max_segs ∧
         Forall (λ g, seg_filesz g ≤ seg_memsz g ∧ seg_offset g + seg_filesz g ≤ size) segs
   else elf64_parse_segments get size null max_segs = Some None) ∧
  ∃ r, elf64_parse_dynamic get size null = Some r.
Proof.
  intros Hmax. destruct (parse_segments_spec null max_segs Hmax) as (ok & Hv & Hp).
  exists ok. split; [done|]. split; [|apply parse_dynamic_total]. destruct ok; [|done].
  destruct Hp as (po & pn & entry & ty & E1 & E2 & E3 & E4 & Hin & E). exists po, pn, entry, ty.
  split_and!; try done; intros segs Hs; by apply (segments_ref_ok po pn).
Qed.

End Parser.

(** ** Witnesses *)

Fixpoint le_bytes (n : nat) (v : Z) : list Z :=
  match n with O => [] | Datatypes.S n => v mod 256 :: le_bytes n (v / 256) end.

Definition demo_phdr (ty off va fs ms : Z) : list Z :=
  le_bytes 4 ty ++ le_bytes 4 7 ++ le_bytes 8 off ++ le_bytes 8 va ++ le_bytes 8 va ++
  le_bytes 8 fs ++ le_bytes 8 ms ++ le_bytes 8 4096.

(** A PIE with one loadable segment and a dynamic section whose relocation table
    is said to be 64 KiB long at address 0x8000, beyond the 224 bytes of the file
    but inside the segment's memory size. *)
Definition demo_elf : list Z :=
  [127; 69; 76; 70; 2; 1; 1; 0; 0; 0; 0; 0; 0; 0; 0; 0] ++
  le_bytes 2 ET_DYN ++ le_bytes 2 EM_X86_64 ++ le_bytes 4 1 ++ le_bytes 8 0x100 ++ le_bytes 8 64 ++
  le_bytes 8 0 ++ le_bytes 4 0 ++ le_bytes 2 64 ++ le_bytes 2 56 ++ le_bytes 2 2 ++ le_bytes 6 0 ++
  demo_phdr PT_LOAD 0 0 224 0x20000 ++ demo_phdr PT_DYNAMIC 176 176 48 48 ++
  le_bytes 8 DT_RELA ++ le_bytes 8 0x8000 ++ le_bytes 8 DT_RELASZ ++ le_bytes 8 65536 ++
  le_bytes 8 DT_RELAENT ++ le_bytes 8 24.

Lemma elf_parse_witness :
  elf64_parse_segments (byte_at demo_elf) 224 false ELF_SEGMENT_MAX =
    Some (Some ([ElfSegment 0 0 224 0x20000], 0x100, true)).
Proof.
  assert (covers (byte_at demo_elf) 224) as Hc by exact (byte_at_covers demo_elf).
  destruct (elf_parse_segments_exact (byte_at demo_elf) 224 Hc false ELF_SEGMENT_MAX ltac:(done)) as (ok & Hv & Hp & _).
  assert (elf64_validate (byte_at demo_elf) 224 false = Some true) as Hv' by (vm_compute; reflexivity).
  rewrite Hv' in Hv. injection Hv as <-. destruct Hp as (po & pn & en & ty & E1 & E2 & E3 & E4 & _ & E & _).
  assert (eh_phoff (byte_at demo_elf) = Some 64) as F1 by (vm_compute; reflexivity).
  assert (eh_phnum (byte_at demo_elf) = Some 2) as F2 by (vm_compute; reflexivity).
  assert (eh_entry (byte_at demo_elf) = Some 0x100) as F3 by (vm_compute; reflexivity).
  assert (eh_type (byte_at demo_elf) = Some ET_DYN) as F4 by (vm_compute; reflexivity).
  rewrite F1 in E1. rewrite F2 in E2. rewrite F3 in E3. rewrite F4 in E4.
  injection E1 as <-. injection E2 as <-. injection E3 as <-. injection E4 as <-.
  rewrite E. vm_compute. reflexivity.
Defined.

(** The relocation table of an accepted file need not lie in the file: nothing
    compares [rela_offset + rela_size] with the size of the image. *)
Lemma elf_rela_outside_file :
  ∃ d, elf64_parse_dynamic (byte_at demo_elf) 224 false = Some (true, d) ∧
       224 < dyn_rela_offset d + dyn_rela_size d.
Proof. eexists. split; [vm_compute; reflexivity|]. vm_compute. reflexivity. Qed.
