(* ===== verification/Image.v ===== *)
(** The image of a process: its segments, relocations and first stack
    (the part of process/process.c that builds an address space).

    Everything happens in the flat memory of Paging.v: a page of the process is a
    frame, and the kernel writes to it at the physical address
    [paging_translate] gives, so a write that does not stay inside the page lands
    in whatever frame comes next.  The ELF file lies at address [image] of the
    same memory.  [None] on the outside is an access outside the image buffer or
    outside the address arrays of [build_exec_stack].

    The theorems state what loading a segment and building a stack do to the user
    memory of Space.v, in address spaces with the invariant [space_ok]. *)

From stdpp Require Import prelude numbers list.
From Stdlib Require Import ZArith Lia.
From S2P Require Import Prelude Memory Frames Pmm Paging Space Bytes Pcb Elf.

Open Scope Z_scope.

Definition PIE_BASE_MIN : Z := PAGING_USER_BASE.
Definition PIE_BASE_RANGE : Z := 512 * 1024 * 1024.

Definition R_X86_64_64 : Z := 1.
Definition R_X86_64_GLOB_DAT : Z := 6.
Definition R_X86_64_JUMP_SLOT : Z := 7.
Definition R_X86_64_RELATIVE : Z := 8.
Definition R_X86_64_IRELATIVE : Z := 0x24.
Definition R_X86_64_IRELATIV : Z := 0x25.

Definition sizeof_rela : Z := 24.
Definition sizeof_sym : Z := 24.

Definition USER_RW : Z := Z.lor PAGING_FLAG_USER PAGING_FLAG_WRITABLE.

(** Deterministic per pid. *)
Definition pie_base (pid : Z) : Z :=
  let x := u64 (pid * 0x9E3779B97F4A7C15 + 0x1234567) in
  let off := x mod PIE_BASE_RANGE in
  u64 (PIE_BASE_MIN + Z.land off (u64 (Z.lnot 0x1FFFFF))).

(** Copies bytes that are not in the modelled memory (the name of a process, the
    strings of another address space) to address [a]. *)
Fixpoint store_list (m : mem) (a : Z) (l : list Z) : mem :=
  match l with
  | [] => m
  | b :: l => store_list (store8 m a b) (a + 1) l
  end.

Section Image.
Context {A : Type} `{!FrameAllocator A}.

(** The common part of the two mapping loops: a zeroed frame mapped at [va].
    [None] is [return false], with the frame given back. *)
Definition map_new_page (cr3 va : Z) (s : vm A) : option Z * vm A :=
  let '(frame, s) := alloc_frame s in
  if frame =? 0 then (None, s)
  else
    let s := zero_page frame s in
    let '(ok, s) := paging_map cr3 va frame USER_RW s in
    if ok then (Some frame, s) else (None, free_frame frame s).

(** The bytes of the file that belong into the page at [va]. *)
Definition copy_page (image : Z) (seg : elf_segment) (vaddr va frame : Z) (s : vm A) : vm A :=
  let lo := if va <? vaddr then vaddr else va in
  let hi := if u64 (vaddr + seg_filesz seg) <? u64 (va + 0x1000)
            then u64 (vaddr + seg_filesz seg) else u64 (va + 0x1000) in
  if lo <? hi then
    let src := u64 (seg_offset seg + (lo - vaddr)) in
    with_vmem s (k_memcpy (vmem s) (frame + (lo - va)) (image + src) (hi - lo))
  else s.

Definition page_down (x : Z) : Z := Z.land x (u64 (Z.lnot 0xFFF)).

Definition segment_page (cr3 image : Z) (seg : elf_segment) (vaddr va : Z) (s : vm A) : vm A + vm A :=
  let '(f, s) := map_new_page cr3 va s in
  match f with
  | None => inr s
  | Some frame => inl (copy_page image seg vaddr va frame s)
  end.

(** [va] runs in steps of a page from [start_page] to [end_page]. *)
Definition map_segment (cr3 image : Z) (seg : elf_segment) (base : Z) (s : vm A) : bool * vm A :=
  let vaddr := u64 (base + seg_vaddr seg) in
  let start_page := page_down vaddr in
  let end_page := page_down (u64 (u64 (vaddr + seg_memsz seg) + 0xFFF)) in
  match for_ 0 ((end_page - start_page) / 0x1000)
          (λ k, segment_page cr3 image seg vaddr (start_page + 0x1000 * k)) s with
  | inl s => (true, s)
  | inr s => (false, s)
  end.

Definition map_user_stack (cr3 : Z) (s : vm A) : bool * vm A :=
  let base := PROCESS_USER_STACK_TOP - PROCESS_USER_STACK_SIZE in
  match for_ 0 (PROCESS_USER_STACK_SIZE / 0x1000)
          (λ k s, let '(f, s) := map_new_page cr3 (base + 0x1000 * k) s in
                  match f with None => inr s | Some _ => inl s end) s with
  | inl s => (true, s)
  | inr s => (false, s)
  end.

(** ** Relocations *)

(** Value and [*defined]. *)
Definition resolve_symbol (get : Z → option Z) (size : Z) (dyn : elf_dynamic) (sym_index base : Z)
    : option (Z * bool) :=
  if (dyn_symtab_offset dyn =? 0) || (dyn_sym_ent dyn <? sizeof_sym) then Some (0, false)
  else
    let off := u64 (dyn_symtab_offset dyn + sym_index * dyn_sym_ent dyn) in
    if size <? u64 (off + sizeof_sym) then Some (0, false)
    else
      shndx ← le16_of get (off + 6);
      if shndx =? 0 then Some (0, false)
      else value ← le64_of get (off + 8); Some (u64 (base + value), true).

Record rela : Type := Rela { rela_offset : Z; rela_info : Z; rela_addend : Z }.

Definition rela_at (get : Z → option Z) (dyn : elf_dynamic) (i : Z) : option rela :=
  let o := u64 (dyn_rela_offset dyn + i * dyn_rela_ent dyn) in
  off ← le64_of get o; info ← le64_of get (o + 8); addend ← le64_of get (o + 16);
  Some (Rela off info addend).

(** The [switch]: [Some None] leaves the slot untouched. *)
Definition rela_value (get : Z → option Z) (size : Z) (dyn : elf_dynamic) (base : Z) (r : rela)
    : option (option Z) :=
  let type := Z.land (rela_info r) 0xFFFFFFFF in
  let sym := u32 (Z.shiftr (rela_info r) 32) in
  if type =? R_X86_64_RELATIVE then Some (Some (u64 (base + rela_addend r)))
  else if (type =? R_X86_64_GLOB_DAT) || (type =? R_X86_64_JUMP_SLOT) then
    r' ← resolve_symbol get size dyn sym base;
    let '(value, defined) := r' in
    Some (if (defined : bool) then Some value else None)
  else if type =? R_X86_64_64 then
    r' ← resolve_symbol get size dyn sym base;
    let '(value, _) := r' in
    Some (Some (u64 (value + rela_addend r)))
  else Some None.

(** One entry; [inr None] is an access outside the image, [inr (Some m)] is
    [return false]. *)
Definition reloc_step (cr3 image size base : Z) (dyn : elf_dynamic) (i : Z) (m : mem) : mem + option mem :=
  let get := image_get m image size in
  match (r ← rela_at get dyn i; v ← rela_value get size dyn base r; Some (r, v)) with
  | None => inr None
  | Some (_, None) => inl m
  | Some (r, Some value) =>
      let phys := paging_translate m cr3 (u64 (base + rela_offset r)) in
      if phys =? 0 then inr (Some m) else inl (store64 m phys value)
  end.

Definition apply_relocations (cr3 image size base : Z) (s : vm A) : option (bool * vm A) :=
  r ← elf64_parse_dynamic (image_get (vmem s) image size) size (image =? 0);
  let '(ok, dyn) := r in
  if negb ok || negb (dyn_present dyn) then Some (true, s)
  else if dyn_rela_ent dyn <? sizeof_rela then Some (true, s)
  else
    match for_ 0 (dyn_rela_size dyn / dyn_rela_ent dyn) (reloc_step cr3 image size base dyn) (vmem s) with
    | inl m => Some (true, with_vmem s m)
    | inr None => None
    | inr (Some m) => Some (false, with_vmem s m)
    end.
End Image.

(** ** The initial stacks *)

(** [if (p) *p = v;] for [p] the translation of [va]. *)
Definition poke64 (cr3 va v : Z) (m : mem) : mem :=
  let p := paging_translate m cr3 va in
  if truthy p then store64 m p v else m.

(** The stack of a process started by the kernel: argc, argv[0], the two null
    pointers and the null auxiliary pair, with the name below. *)
Definition setup_stack (cr3 : Z) (name : list Z) (stack_top : Z) (m : mem) : Z * mem :=
  let str_vaddr := u64 (stack_top - 0x2000) in
  let str_k := paging_translate m cr3 str_vaddr in
  let m := if truthy str_k then store_list m str_k (name ++ [0]) else m in
  let vaddr := u64 (stack_top - 16) in
  let aux := paging_translate m cr3 vaddr in
  let m := if truthy aux then store64 (store64 m aux 0) (aux + 8) 0 else m in
  let vaddr := u64 (vaddr - 8) in
  let m := poke64 cr3 vaddr 0 m in
  let vaddr := u64 (vaddr - 8) in
  let m := poke64 cr3 vaddr 0 m in
  let vaddr := u64 (vaddr - 8) in
  let m := poke64 cr3 vaddr str_vaddr m in
  let vaddr := u64 (vaddr - 8) in
  let m := poke64 cr3 vaddr 1 m in
  (vaddr, m).

(** The reading loop of [read_user_cstr]: the characters before the terminator, or
    [None] when a page is missing or 255 characters hold no terminator. *)
Definition user_cstr (m : mem) (cr3 uaddr : Z) : option (list Z) :=
  match for_ 0 255 (λ i out,
          let phys := paging_translate m cr3 (u64 (uaddr + i)) in
          if phys =? 0 then inr None
          else let c := load8 m phys in
               if c =? 0 then inr (Some out) else inl (out ++ [c])) [] with
  | inl _ => None
  | inr r => r
  end.

(** Space a string takes: its terminator, rounded up to eight bytes. *)
Definition str_space (s : list Z) : Z := Z.land (Z.of_nat (length s) + 1 + 7) (u64 (Z.lnot 7)).

Definition str_bytes (l : list (list Z)) : Z := foldl (λ n s, u64 (n + str_space s)) 0 l.

(** Both loops over strings: copied downwards from [cur], their addresses kept in
    an array of 128.  [inr None] is a write behind the array, [inr (Some m)]
    is [return 0]. *)
Fixpoint push_strings (cr3 : Z) (l : list (list Z)) (addrs : list Z) (cur : Z) (m : mem)
    : (list Z * Z * mem) + option mem :=
  match l with
  | [] => inl (addrs, cur, m)
  | s :: l =>
      let len := Z.of_nat (length s) + 1 in
      let cur := Z.land (u64 (cur - len)) (u64 (Z.lnot 7)) in
      let phys := paging_translate m cr3 cur in
      if phys =? 0 then inr (Some m)
      else
        let m := store_list m phys (s ++ [0]) in
        if (128 <=? length addrs)%nat then inr None
        else push_strings cr3 l (addrs ++ [cur]) cur m
  end.

(** [if (!p) return 0; *p = v;] for the words of a list, upwards from [sp]. *)
Fixpoint push_words (cr3 sp : Z) (l : list Z) (m : mem) : mem + option mem :=
  match l with
  | [] => inl m
  | v :: l =>
      let p := paging_translate m cr3 (u64 sp) in
      if p =? 0 then inr (Some m) else push_words cr3 (sp + 8) l (store64 m p v)
  end.

(** The auxiliary pair is written through one translation. *)
Definition push_aux (cr3 sp : Z) (m : mem) : mem + option mem :=
  let p := paging_translate m cr3 sp in
  if p =? 0 then inr (Some m) else inl (store64 (store64 m p 0) (p + 8) 0).

(** Sequencing of the steps above. *)
Definition then_ {X Y} (r : X + option mem) (f : X → Y + option mem) : Y + option mem :=
  match r with inl x => f x | inr e => inr e end.

(** The stack pointer (0 for failure) and the memory. *)
Definition build_exec_stack (cr3 : Z) (argv envp : list (list Z)) (m : mem) : option (Z * mem) :=
  let argc := Z.of_nat (length argv) in
  let envc := Z.of_nat (length envp) in
  let total := u64 (u64 (foldl (λ n s, u64 (n + str_space s)) (str_bytes envp) argv) + 8 * (5 + argc + envc)) in
  let pad := if truthy (Z.land total 0xF) then 8 else 0 in
  let r :=
    then_ (push_strings cr3 envp [] (PROCESS_USER_STACK_TOP - pad) m) (λ '(env_addr, cur, m),
    then_ (push_strings cr3 argv [] cur m) (λ '(arg_addr, cur, m),
    let sp := u64 (cur - 16) in
    then_ (push_aux cr3 sp m) (λ m,
    let sp := u64 (sp - 8) in
    then_ (push_words cr3 sp [0] m) (λ m,
    let sp := u64 (sp - 8 * envc) in
    then_ (push_words cr3 sp env_addr m) (λ m,
    let sp := u64 (sp - 8) in
    then_ (push_words cr3 sp [0] m) (λ m,
    let sp := u64 (sp - 8 * argc) in
    then_ (push_words cr3 sp arg_addr m) (λ m,
    let sp := u64 (sp - 8) in
    then_ (push_words cr3 sp [argc] m) (λ m, inl (sp, m))))))))) in
  match r with
  | inl r => Some r
  | inr None => None
  | inr (Some m) => Some (0, m)
  end.

(** ** Mapping pages *)

Section Mapping.
Context {A : Type} `{!FrameAllocator A, !FrameAllocatorOk A}.
Implicit Types s : vm A.

(** The user pages of [s'] are those of [s], with the same bytes, except for [va]. *)
Definition pages_kept (cr3 : Z) (in_range : Z → Prop) s s' : Prop :=
  ∀ w, uaddr w → ¬ in_range w →
    leaf (vmem s') cr3 w = leaf (vmem s) cr3 w ∧ uview (vmem s') cr3 w = uview (vmem s) cr3 w.

Lemma pages_kept_refl cr3 R s : pages_kept cr3 R s s.
Proof. by intros w _ _. Qed.

Definition page_at (va w : Z) : Prop := w / 4096 = va / 4096.

Lemma uview_of m cr3 w f : uframe m cr3 w = Some f → uview m cr3 w = Some (m (f + w mod 4096)).
Proof. unfold uview. by intros ->. Qed.

Lemma in_page_offset f w : in_page f (f + w mod 4096).
Proof. unfold in_page. pose proof (Z.mod_pos_bound w 4096). lia. Qed.

(** A frame filled by [fill] and put at [va]: the frame (0 when there is none), whether
    the page was mapped, and the state, in which the frame is still taken when it was
    not. *)
Definition filled_page (fill : mem → Z → mem) (cr3 va flags : Z) s : Z * bool * vm A :=
  let '(frame, s) := alloc_frame s in
  if frame =? 0 then (0, false, s)
  else let '(ok, s) := paging_map cr3 va frame flags (with_vmem s (fill (vmem s) frame)) in (frame, ok, s).
Definition fresh_page : Z → Z → Z → vm A → Z * bool * vm A := filled_page pmm_zero_page.

(** It writes the frame only. *)
Definition fills (fill : mem → Z → mem) (m : mem) : Prop :=
  ∀ n, 0 < n → mem_ok (fill m n) ∧ ∀ x, ¬ in_page n x → fill m n x = m x.

Lemma zero_fills m : mem_ok m → fills pmm_zero_page m.
Proof. intros Hm n _. split; [by apply mem_ok_zero_page|apply zero_page_out]. Qed.

(** A frame that belongs to no one: neither free, nor a table, nor behind a page. *)
Definition stray s s' (cr3 n : Z) : Prop :=
  n mod 4096 = 0 ∧ 0 < n ∧ fa_avail (vframes s) (n / 4096) ∧
  (∀ p t, path_ok p → walk (vmem s') cr3 4 p = Some t → t ≠ n) ∧
  ∀ w f, uaddr w → uframe (vmem s') cr3 w = Some f → f ≠ n.

Lemma alloc_fails_spec s cr3 a :
  space_ok s cr3 → fa_alloc (vframes s) = (0, a) → runs_out 0 s (with_vframes s a) ∧ evolves cr3 s (with_vframes s a).
Proof.
  intros Hs Ea. pose proof (sp_vm s cr3 Hs) as (Htree & Hfa & Hap).
  pose proof (fa_alloc_spec (vframes s) Hfa) as (Hfa' & Hsub & _). rewrite Ea in *. cbn [fst snd] in *.
  pose proof (alloc_few (vframes s) Hfa) as Hfew. pose proof (alloc_drained (vframes s) Hfa) as Hdr. rewrite Ea in Hfew, Hdr.
  split; [split; [by apply Hfew|by apply Hdr]|]. split; [split; [|by apply new_tables_same]|split; [|done]].
  - destruct Hs as [Hvm Hm Hfr Hi Hmp]. split; [|done| |done|done].
    + split; [done|]. split; [done|]. intros p t Hp Hw Hg. by eapply Hap, Hsub.
    + intros v f Hv Hf. destruct (Hfr v f Hv Hf) as [Hna ?]. split; [|done]. cbn. auto.
  - intros x (Hna & ? & ?). split; [|done]. split; [cbn; auto|done].
Qed.

Lemma filled_page_spec fill s cr3 va flags :
  space_ok s cr3 → fills fill (vmem s) → uaddr va → va mod 4096 = 0 → 0 ≤ flags < 4096 →
  let '(n, ok, s') := filled_page fill cr3 va flags s in
  evolves cr3 s s' ∧ takes 4 s s' ∧
  if n =? 0 then ok = false ∧ runs_out 0 s s' ∧ pages_kept cr3 (λ _, False) s s'
  else if ok then fa_avail (vframes s) (n / 4096) ∧ leaf (vmem s) cr3 va = None ∧
    (∃ e, e_base e = n ∧ leaf (vmem s') cr3 va = Some (false, e)) ∧ uframe (vmem s') cr3 va = Some n ∧
    (∀ x, in_page n x → vmem s' x = fill (vmem s) n x) ∧ pages_kept cr3 (page_at va) s s'
  else (runs_out 3 s s' ∨ leaf (vmem s) cr3 va ≠ None) ∧ pages_kept cr3 (λ _, False) s s' ∧ stray s s' cr3 n.
Proof.
  intros Hs Hfill Hva Hva4 Hfl. unfold filled_page, alloc_frame.
  pose proof (alloc_took (vframes s) (proj1 (proj2 (sp_vm s cr3 Hs)))) as Htk.
  destruct (fa_alloc (vframes s)) as [n a] eqn:Ea. cbn [fst snd] in Htk. destruct (Z.eqb_spec n 0) as [-> |Hn].
  { destruct (alloc_fails_spec s cr3 a Hs Ea). split; [done|]. split; [by apply (took_le 1); [lia|]|]. split_and!; [done..|]. by intros w. }
  destruct (fresh_frame s cr3 n a Hs Ea Hn) as (Hn4 & Hnr & Hav & Hna & Hfa' & Hsub).
  change (vmem (with_vframes s a)) with (vmem s).
  destruct (Hfill n ltac:(lia)) as [Hfm Hfo]. set (m2 := fill (vmem s) n) in *.
  destruct (filled_vm s cr3 n a m2 Hs Ea Hn Hfm Hfo) as [Hvm2 Hm2].
  pose proof (filled_frame s cr3 n a m2 Hs Ea Hn Hfo) as Hzf. set (s2 := with_vmem (with_vframes s a) m2) in *.
  destruct (paging_map_spec s2 cr3 va n flags Hvm2 Hva Hva4 Hn4) as (Hvm3 & Hout & Hnew & Hsub3 & Htk3 & Hr);
    [unfold is_u64, PMM_MAX_PHYS in *; lia|done|].
  destruct (paging_map cr3 va n flags s2) as [ok s3]; cbn [fst snd] in *.
  pose proof (fresh_kernel_byte s cr3 n a m2 Hs Ea Hn Hfo s3 Hvm3 Hout Hnew Hsub3) as Hkb.
  pose proof (fresh_old_page s cr3 n a m2 Hs Ea Hn Hfo s3 Hvm3 Hout Hnew) as Hold.
  pose proof (fresh_new_page s cr3 n a m2 Hs Ea Hn Hfo s3 Hvm3 Hout Hnew) as Hnewp.
  replace (n =? 0) with false by lia.
  assert (∀ w f, uaddr w → uframe (vmem s) cr3 w = Some f → f ≠ n) as Hfn.
  { intros w f Hw Hf ->. by destruct (sp_frame s cr3 Hs w n Hw Hf). }
  assert (∀ w, uaddr w → uframe (vmem s3) cr3 w =
    if ok && (w / 4096 =? va / 4096) then Some n else uframe (vmem s) cr3 w) as Huf.
  { intros w Hw. rewrite <- (proj2 (Hzf w)). unfold uframe. pose proof (uaddr_start w Hw) as Hw0. destruct ok; cbn [andb].
    - destruct Hr as (_ & _ & _ & Htr). rewrite Htr by (unfold uaddr, PAGING_USER_BASE in Hw0; lia).
      rewrite (proj1 (page_start w)). destruct (w / 4096 =? va / 4096); [|done].
      rewrite (proj2 (page_start w)), Z.add_0_r. by replace (n =? 0) with false by lia.
    - destruct Hr as [Hlf _]. by rewrite !translate_leaf, Hlf. }
  assert (∀ w, uaddr w → ok && (w / 4096 =? va / 4096) = false → uview (vmem s3) cr3 w = uview (vmem s) cr3 w) as Huv.
  { intros w Hw E. unfold uview. rewrite Huf, E by done. destruct (uframe (vmem s) cr3 w) as [f|] eqn:Ef; [|done].
    obind. obind. f_equal. by eapply Hold, in_page_offset. }
  assert (new_tables cr3 s s3) as Hnt.
  { eapply new_tables_trans; [|by apply (filled_tables s cr3 n a m2)|exact Hnew]. exact Hsub. }
  split; [split; [split; [split; [done|by apply Hnew| | |]|exact Hnt]|split; [|auto]]|split; [by apply (took_trans 1 3 _ a)|]].
  - intros w f Hw. rewrite Huf by done. destruct (_ && _).
    + intros [= <-]. split; [auto|]. apply (Hnewp n). unfold in_page. lia.
    + intros Hf. destruct (sp_frame s cr3 Hs w f Hw Hf) as [? _]. split; [auto|].
      apply (Hold w f f Hw Hf). unfold in_page. lia.
  - intros v w f Hv Hw. rewrite !Huf by done.
    destruct (ok && (v / 4096 =? va / 4096)) eqn:E1, (ok && (w / 4096 =? va / 4096)) eqn:E2.
    + intros _ _. lia.
    + intros [= <-] Hf. by destruct (Hfn w n Hw Hf).
    + intros Hf [= <-]. by destruct (Hfn v n Hv Hf).
    + by apply (sp_inj s cr3 Hs).
  - intros w Hw Hl. rewrite Huf by done. destruct (ok && (w / 4096 =? va / 4096)) eqn:E; [done|].
    apply (sp_map s cr3 Hs w Hw). rewrite <- (proj1 (Hzf w)). destruct ok; cbn [andb] in E.
    + destruct Hr as (_ & Hlf & _). rewrite <- Hlf; [done|unfold uaddr, PAGING_USER_BASE in Hw; lia|by apply Z.eqb_neq].
    + destruct Hr as [Hlf _]. by rewrite <- Hlf.
  - intros x Hx. apply Hkb; [|done]. intros w f Hw. rewrite Huf by done. destruct (_ && _); [intros [= <-]; by left|by right].
  - destruct ok; cbn [andb] in *.
    + destruct Hr as (Hnone & Hlf & He & Htr). split_and!.
      * done.
      * by rewrite <- (proj1 (Hzf va)).
      * done.
      * rewrite Huf by done. by rewrite Z.eqb_refl.
      * intros x Hx. by apply Hnewp.
      * intros w Hw Hne. split; [rewrite Hlf; [apply Hzf|unfold uaddr, PAGING_USER_BASE in Hw; lia|done]|].
        apply Huv; [done|]. by apply Z.eqb_neq.
    + destruct Hr as [Hlf Hwhy]. split_and!.
      * destruct Hwhy as [[Hst Hd]|Hl]; [left; split; [by apply (took_few 1 2 _ a)|by eapply drained_from]|].
        right. by rewrite <- (proj1 (Hzf va)).
      * intros w Hw _. split; [by rewrite Hlf; apply Hzf|by apply Huv].
      * split_and!; [done|lia|done| |]; [intros p t; apply (Hnewp n); unfold in_page; lia|].
        intros w f Hw. rewrite Huf by done. eauto.
Qed.

Lemma fresh_page_spec s cr3 va flags :
  space_ok s cr3 → uaddr va → va mod 4096 = 0 → 0 ≤ flags < 4096 →
  let '(n, ok, s') := fresh_page cr3 va flags s in
  evolves cr3 s s' ∧ takes 4 s s' ∧
  if n =? 0 then ok = false ∧ runs_out 0 s s' ∧ pages_kept cr3 (λ _, False) s s'
  else if ok then fa_avail (vframes s) (n / 4096) ∧ leaf (vmem s) cr3 va = None ∧
    (∃ e, e_base e = n ∧ leaf (vmem s') cr3 va = Some (false, e)) ∧ uframe (vmem s') cr3 va = Some n ∧
    (∀ x, in_page n x → vmem s' x = 0) ∧ pages_kept cr3 (page_at va) s s'
  else (runs_out 3 s s' ∨ leaf (vmem s) cr3 va ≠ None) ∧ pages_kept cr3 (λ _, False) s s' ∧ stray s s' cr3 n.
Proof.
  intros Hs Hva Hva4 Hfl. pose proof (sp_mem s cr3 Hs) as Hm.
  pose proof (filled_page_spec pmm_zero_page s cr3 va flags Hs (zero_fills _ Hm) Hva Hva4 Hfl) as H. unfold fresh_page.
  destruct (filled_page _ _ _ _ _) as [[n ok] s']. destruct H as (He & Ht & H). split; [done|]. split; [done|].
  destruct (Z.eqb_spec n 0) as [|Hn]; [done|]. destruct ok; [|done]. destruct H as (Hav & Hl & He' & Hf & Hz & Hpk).
  split_and!; try done. intros x Hx. rewrite Hz by done. unfold pmm_zero_page.
  replace (truthy n) with true by (unfold truthy; lia). rewrite k_memset_at. unfold in_page, PMM_FRAME_SIZE in *. split_if; [done|lia].
Qed.

Lemma evolves_free cr3 s s' n : evolves cr3 s s' → stray s s' cr3 n → evolves cr3 s (free_frame n s').
Proof.
  intros ((Hs & Htb) & Hk & Ha) (Hn4 & Hn & Hav & Hnt & Hnu). destruct Hs as [(Ht & Hfa & Hap) Hm Hfr Hi Hmp].
  destruct (fa_free_spec n (vframes s') Hfa ltac:(lia)) as [Hfa' Hfree]. unfold PMM_FRAME_SIZE in *.
  split; [split; [split; [|done| |done|done]|exact Htb]|split].
  - split; [done|]. split; [done|]. intros p t Hp Hw [Hg|[Eg _]]%Hfree; [by eapply Hap|].
    apply (Hnt p t Hp Hw). pose proof (tree_page _ _ Ht p t Hp Hw). dlia.
  - intros w f Hw Hf. destruct (Hfr w f Hw Hf) as [Hna Hne]. split; [|done]. intros [Hg|[Eg _]]%Hfree; [done|].
    apply (Hnu w f Hw Hf). destruct (uframe_spec _ _ _ _ Hm Hf) as (Hf4 & _). dlia.
  - intros x Hx. pose proof Hx as (Hxa & _). destruct (Hk x Hx) as [(Hxa' & Hxt & Hxu) E]. split; [|done].
    split; [|done]. intros [Hg|[Eg _]]%Hfree; [done|]. by rewrite <- Eg in Hav.
  - intros g [Hg|[-> _]]%Hfree; [auto|done].
Qed.

Lemma map_new_page_spec s cr3 va :
  space_ok s cr3 → uaddr va → va mod 4096 = 0 →
  let r := map_new_page cr3 va s in
  evolves cr3 s r.2 ∧
  match r.1 with
  | Some f => takes 4 s r.2 ∧ leaf (vmem s) cr3 va = None ∧ uframe (vmem r.2) cr3 va = Some f ∧
              (∀ x, in_page f x → vmem r.2 x = 0) ∧ pages_kept cr3 (page_at va) s r.2
  | None => (starved 3 s ∨ leaf (vmem s) cr3 va ≠ None) ∧ pages_kept cr3 (λ _, False) s r.2
  end.
Proof.
  intros Hs Hva Hva4. pose proof (fresh_page_spec s cr3 va USER_RW Hs Hva Hva4 ltac:(done)) as H.
  unfold map_new_page, fresh_page, filled_page in *. destruct (alloc_frame s) as [n s1].
  destruct (Z.eqb_spec n 0) as [-> |Hn].
  { destruct H as (He & _ & _ & [Hst _] & Hpk). split; [done|]. split; [left; by apply (few_le 0); [lia|]|done]. }
  change (with_vmem s1 (pmm_zero_page (vmem s1) n)) with (zero_page n s1) in H.
  destruct (paging_map cr3 va n USER_RW (zero_page n s1)) as [ok s3]. replace (n =? 0) with false in H by lia.
  destruct H as (He & Ht & H). destruct ok; cbn [fst snd]; [by destruct H as (_ & ? & _ & ?)|]. destruct H as (Hwhy & Hpk & Hstray).
  split; [by apply evolves_free|]. split; [by destruct Hwhy as [[]|]; [left|right]|]. exact Hpk.
Qed.
(** ** Segments *)

(** A segment loaded at [vaddr] whose addresses stay in the user half, with the
    file contents in kernel bytes. *)
Record segment_ok s (cr3 image : Z) (seg : elf_segment) (vaddr : Z) : Prop := {
  so_low : PAGING_USER_BASE ≤ vaddr;
  so_high : vaddr + seg_memsz seg + 4096 ≤ 2 ^ 48;
  so_size : 0 ≤ seg_filesz seg ≤ seg_memsz seg;
  so_offset : 0 ≤ seg_offset seg ∧ seg_offset seg + seg_filesz seg < 18446744073709551616;
  so_kernel : ∀ o, 0 ≤ o < seg_filesz seg → kernel_byte s cr3 (image + (seg_offset seg + o))
}.

(** The byte the program expects at [w]: from the file, or zero. *)
Definition seg_byte (m : mem) (image : Z) (seg : elf_segment) (vaddr w : Z) : Z :=
  if (vaddr <=? w) && (w <? vaddr + seg_filesz seg) then m (image + (seg_offset seg + (w - vaddr))) else 0.

Lemma segment_ok_evolves s s' cr3 image seg vaddr :
  segment_ok s cr3 image seg vaddr → evolves cr3 s s' → segment_ok s' cr3 image seg vaddr.
Proof. intros [???? Hko] (_ & Hk & _). split; try done. intros o Ho. by apply Hk, Hko. Qed.

Lemma seg_byte_evolves s s' cr3 image seg vaddr w :
  segment_ok s cr3 image seg vaddr → evolves cr3 s s' →
  seg_byte (vmem s') image seg vaddr w = seg_byte (vmem s) image seg vaddr w.
Proof.
  intros [_ _ _ _ Hk] (_ & He & _). unfold seg_byte. destruct (_ && _) eqn:E; [|done].
  by destruct (He _ (Hk (w - vaddr) ltac:(lia))) as [_ ->].
Qed.

Lemma copy_page_spec s cr3 image seg vaddr va f :
  space_ok s cr3 → segment_ok s cr3 image seg vaddr → uaddr va → va mod 4096 = 0 → va + 4096 ≤ 2 ^ 48 →
  uframe (vmem s) cr3 va = Some f → (∀ x, in_page f x → vmem s x = 0) →
  let s' := copy_page image seg vaddr va f s in
  evolves cr3 s s' ∧ pages_kept cr3 (page_at va) s s' ∧ uframe (vmem s') cr3 va = Some f ∧
  ∀ w, page_at va w → uview (vmem s') cr3 w = Some (seg_byte (vmem s) image seg vaddr w).
Proof.
  intros Hs Hseg Hva Hva4 Hva48 Hf Hz. pose proof Hseg as [Hlow Hhigh Hsz Hoff Hk].
  pose proof (sp_mem s cr3 Hs) as Hm. unfold uaddr, PAGING_USER_BASE in *. unfold copy_page.
  rewrite !(u64_small (vaddr + _)), !(u64_small (va + _)) by lia.
  set (lo := if va <? vaddr then vaddr else va).
  set (hi := if vaddr + seg_filesz seg <? va + 4096 then vaddr + seg_filesz seg else va + 4096).
  assert (lo = Z.max va vaddr) as Hlo by (unfold lo; split_if; lia).
  assert (hi = Z.min (vaddr + seg_filesz seg) (va + 4096)) as Hhi by (unfold hi; split_if; lia).
  clearbody lo hi. destruct (Z.ltb_spec lo hi) as [Hlt|Hge].
  2:{ split; [by apply evolves_refl|]. split; [apply pages_kept_refl|]. split; [done|]. intros w Hw. unfold page_at in Hw.
      rewrite (uview_of _ _ w f) by (rewrite <- Hf; by apply uframe_page).
      rewrite Hz by apply in_page_offset. unfold seg_byte. split_if; [|done]. exfalso. dlia. }
  rewrite (u64_small (seg_offset seg + (lo - vaddr))) by lia.
  set (m' := k_memcpy _ _ _ _).
  assert (∀ x, m' x = if (f + (lo - va) <=? x) && (x <? f + (hi - va))
                      then vmem s (image + (seg_offset seg + (x - f + va - vaddr))) else vmem s x) as Hm'.
  { intros x. unfold m'. rewrite k_memcpy_at; [|done|].
    - replace (f + (lo - va) + (hi - lo)) with (f + (hi - va)) by lia. split_if; [|done]. f_equal. lia.
    - destruct (Z.le_gt_cases (f + (lo - va)) (image + (seg_offset seg + (lo - vaddr)))) as [|Hgt]; [by left|right].
      destruct (Z.le_gt_cases (image + (seg_offset seg + (lo - vaddr)) + (hi - lo)) (f + (lo - va))) as [|Hin]; [done|exfalso].
      destruct (Hk (f + (lo - va) - image - seg_offset seg)) as (_ & _ & Hnu); [lia|].
      apply (Hnu va f); [unfold uaddr, PAGING_USER_BASE; lia|done|]. unfold in_page. lia. }
  clearbody m'.
  assert (page_write s f m') as Hpw.
  { split; [intros x; rewrite Hm'; split_if; apply Hm|]. intros x Hx. rewrite Hm'. split_if; [|done].
    unfold in_page in Hx. lia. }
  assert (uaddr va) as Hva' by (unfold uaddr, PAGING_USER_BASE; lia).
  split; [|split; [|split]].
  - by apply (write_evolves s cr3 va f m').
  - intros w Hw Hne. cbn [vmem with_vmem]. rewrite (leaf_outside _ m' cr3 w (write_tables s cr3 va f m' Hs Hva' Hf Hpw)).
    rewrite (write_uview s cr3 va f m') by done. done.
  - cbn [vmem with_vmem]. by rewrite (write_uframe s cr3 va f m').
  - intros w Hw. cbn [vmem with_vmem]. unfold page_at in Hw. rewrite (uview_of _ _ w f).
    2:{ rewrite (write_uframe s cr3 va f m') by done. rewrite <- Hf. by apply uframe_page. }
    f_equal. rewrite Hm'. unfold seg_byte.
    assert (w mod 4096 = w - va) as Ew by dlia. pose proof (Z.mod_pos_bound w 4096 ltac:(lia)).
    rewrite Ew in *. split_if.
    + replace ((vaddr <=? w) && (w <? vaddr + seg_filesz seg)) with true by lia. f_equal. lia.
    + replace ((vaddr <=? w) && (w <? vaddr + seg_filesz seg)) with false by lia. apply Hz. unfold in_page. lia.
Qed.

Lemma segment_page_spec s cr3 image seg vaddr va :
  space_ok s cr3 → segment_ok s cr3 image seg vaddr → uaddr va → va mod 4096 = 0 → va + 4096 ≤ 2 ^ 48 →
  match segment_page cr3 image seg vaddr va s with
  | inl s' => evolves cr3 s s' ∧ pages_kept cr3 (page_at va) s s' ∧ takes 4 s s' ∧
      (∃ f, uframe (vmem s') cr3 va = Some f) ∧ leaf (vmem s) cr3 va = None ∧
      ∀ w, page_at va w → uview (vmem s') cr3 w = Some (seg_byte (vmem s) image seg vaddr w)
  | inr s' => evolves cr3 s s' ∧ pages_kept cr3 (λ _, False) s s' ∧
      (starved 3 s ∨ leaf (vmem s) cr3 va ≠ None)
  end.
Proof.
  intros Hs Hseg Hva Hva4 Hva48. unfold segment_page.
  destruct (map_new_page_spec s cr3 va Hs Hva Hva4) as [Hev Hr].
  destruct (map_new_page cr3 va s) as [[f|] s1]; cbn [fst snd] in *; [|by destruct Hr].
  destruct Hr as (Htk & Hnone & Hf & Hz & Hpk). pose proof (evolves_ok _ _ _ Hev) as Hs1.
  pose proof (segment_ok_evolves _ _ _ _ _ _ Hseg Hev) as Hseg1.
  destruct (copy_page_spec s1 cr3 image seg vaddr va f Hs1 Hseg1 Hva Hva4 Hva48 Hf Hz) as (Hev2 & Hpk2 & Hf2 & Hview).
  split; [by eapply evolves_trans|]. split.
  { intros w Hw Hne. destruct (Hpk w Hw Hne) as [<- <-]. by apply Hpk2. }
  split; [unfold takes, copy_page; split_if; exact Htk|]. split; [by eexists|]. split; [done|]. intros w Hw. rewrite Hview by done.
  by rewrite (seg_byte_evolves s s1 cr3).
Qed.
(** ** The mapping loops *)

(** What one round does at page [va], when it leaves the bytes [c] there. *)
Definition page_step (cr3 va : Z) (c : Z → Z) s (r : vm A + vm A) : Prop :=
  match r with
  | inl s' => evolves cr3 s s' ∧ pages_kept cr3 (page_at va) s s' ∧ takes 4 s s' ∧ leaf (vmem s) cr3 va = None ∧
      ∀ w, page_at va w → uview (vmem s') cr3 w = Some (c w)
  | inr s' => evolves cr3 s s' ∧ pages_kept cr3 (λ _, False) s s' ∧ (starved 3 s ∨ leaf (vmem s) cr3 va ≠ None)
  end.

Lemma evolves_starved cr3 j k s t : evolves cr3 s t → takes j s t → starved k t → starved (j + k) s.
Proof. intros (_ & _ & Ha) Ht. by apply took_few. Qed.

Definition in_pages (start n w : Z) : Prop := start ≤ w < start + 4096 * n.

Lemma run_pages cr3 start n body c s :
  space_ok s cr3 → PAGING_USER_BASE ≤ start → start mod 4096 = 0 → 0 ≤ n → start + 4096 * n ≤ 2 ^ 48 →
  (∀ k t, 0 ≤ k < n → evolves cr3 s t → page_step cr3 (start + 4096 * k) c t (body k t)) →
  match for_ 0 n body s with
  | inl t => evolves cr3 s t ∧ pages_kept cr3 (in_pages start n) s t ∧ takes (4 * Z.to_nat n) s t ∧
      ∀ w, in_pages start n w → leaf (vmem s) cr3 w = None ∧ uview (vmem t) cr3 w = Some (c w)
  | inr t => evolves cr3 s t ∧ pages_kept cr3 (in_pages start n) s t ∧
      (starved (4 * Z.to_nat n) s ∨ ∃ w, in_pages start n w ∧ leaf (vmem s) cr3 w ≠ None)
  end.
Proof.
  intros Hs Hlow Hst Hn Hhigh Hbody.
  apply (for_ind (λ k t, evolves cr3 s t ∧ pages_kept cr3 (in_pages start k) s t ∧ takes (4 * Z.to_nat k) s t ∧
      ∀ w, in_pages start k w → leaf (vmem s) cr3 w = None ∧ uview (vmem t) cr3 w = Some (c w))); [done| |].
  { split; [by apply evolves_refl|]. split; [apply pages_kept_refl|].
    split; [apply took_refl|]. unfold in_pages. intros; lia. }
  intros k t Hk (Hev & Hpk & Htk & Hin). specialize (Hbody k t Hk Hev).
  assert (∀ w, page_at (start + 4096 * k) w ↔ start + 4096 * k ≤ w < start + 4096 * (k + 1)) as Hpg
    by (intros w; unfold page_at; split; intros; dlia).
  assert (uaddr (start + 4096 * k)) as Hua by (unfold uaddr, PAGING_USER_BASE in *; lia).
  assert (leaf (vmem t) cr3 (start + 4096 * k) = leaf (vmem s) cr3 (start + 4096 * k)) as El.
  { apply Hpk; [done|]. unfold in_pages. lia. }
  destruct (body k t) as [t'|t']; destruct Hbody as (Hev' & Hpk' & Hrest);
    (split; [by eapply evolves_trans|]); split.
  - intros w Hw Hni. destruct (Hpk' w Hw) as [-> ->]; [rewrite Hpg; unfold in_pages in Hni; lia|].
    apply Hpk; [done|]. unfold in_pages in *. lia.
  - destruct Hrest as (Htk' & Hnone & Hview). split.
    { apply (took_le (4 * Z.to_nat k + 4)); [lia|]. by apply (took_trans _ _ _ _ _ Htk). }
    intros w Hw. destruct (Z.lt_ge_cases w (start + 4096 * k)) as [Hlt|Hge].
    + destruct (Hin w) as [? <-]; [unfold in_pages in *; lia|]. split; [done|]. apply Hpk'.
      { unfold uaddr, in_pages, PAGING_USER_BASE in *. lia. }
      rewrite Hpg. lia.
    + assert (page_at (start + 4096 * k) w) as Hpw by (apply Hpg; unfold in_pages in Hw; lia).
      split; [|by apply Hview]. rewrite (leaf_page _ _ w _ Hpw). by rewrite <- El.
  - intros w Hw Hni. destruct (Hpk' w Hw) as [-> ->]; [tauto|]. apply Hpk; [done|]. unfold in_pages in *. lia.
  - destruct Hrest as [Hst'|Hl]; [left|right].
    { apply (few_le (4 * Z.to_nat k + 3)); [lia|]. by apply (evolves_starved cr3 _ _ s t). }
    exists (start + 4096 * k). split; [unfold in_pages; lia|]. by rewrite <- El.
Qed.

Lemma page_down_div x : is_u64 x → page_down x = x / 4096 * 4096.
Proof. intros Hx. unfold page_down. change 0xFFF with (2 ^ 12 - 1). by rewrite round_down_mask. Qed.

(** The pages a segment touches. *)
Definition in_segment (seg : elf_segment) (vaddr w : Z) : Prop :=
  vaddr / 4096 ≤ w / 4096 ∧ w < (vaddr + seg_memsz seg + 4095) / 4096 * 4096.

Definition segment_pages (seg : elf_segment) (vaddr : Z) : Z :=
  (vaddr + seg_memsz seg + 4095) / 4096 - vaddr / 4096.

(** C20: loading a segment.  In an address space whose pages do not alias, the loop
    ends and keeps the invariant, the kernel's bytes and every page outside the
    segment.  If it succeeds, all pages of the segment were unmapped before, and
    the process now sees the file's bytes at [vaddr] and zeroes in the rest of
    these pages; it fails only when fewer frames are free than four per page, or a
    page is mapped already. *)
Theorem map_segment_correct s cr3 image seg base :
  let vaddr := u64 (base + seg_vaddr seg) in
  space_ok s cr3 → segment_ok s cr3 image seg vaddr →
  let r := map_segment cr3 image seg base s in
  evolves cr3 s r.2 ∧ pages_kept cr3 (in_segment seg vaddr) s r.2 ∧
  if r.1 then
    ∀ w, in_segment seg vaddr w →
      leaf (vmem s) cr3 w = None ∧ uview (vmem r.2) cr3 w = Some (seg_byte (vmem s) image seg vaddr w)
  else starved (4 * Z.to_nat (segment_pages seg vaddr)) s ∨ ∃ w, in_segment seg vaddr w ∧ leaf (vmem s) cr3 w ≠ None.
Proof.
  intros vaddr Hs Hseg. pose proof Hseg as [Hlow Hhigh Hsz Hoff Hk]. unfold map_segment. fold vaddr. clearbody vaddr.
  unfold PAGING_USER_BASE in Hlow.
  rewrite !(u64_small (vaddr + _)), (u64_small (_ + 0xFFF)), !page_down_div by (unfold is_u64; lia).
  set (start := vaddr / 4096 * 4096). set (stop := (vaddr + seg_memsz seg + 4095) / 4096 * 4096).
  assert (start mod 4096 = 0 ∧ stop mod 4096 = 0 ∧ 1073741824 ≤ start ≤ stop ∧ stop ≤ 2 ^ 48) as (Hs4 & Hp4 & Hss & Hst)
    by (unfold start, stop; dlia).
  pose proof (run_pages cr3 start ((stop - start) / 4096)
    (λ k, segment_page cr3 image seg vaddr (start + 4096 * k)) (seg_byte (vmem s) image seg vaddr) s Hs) as Hrun.
  do 4 (feed Hrun; [unfold PAGING_USER_BASE; dlia|]). feed Hrun.
  { intros k t Hk' Hev. pose proof (evolves_ok _ _ _ Hev) as Ht.
    pose proof (segment_page_spec t cr3 image seg vaddr (start + 4096 * k) Ht
      (segment_ok_evolves _ _ _ _ _ _ Hseg Hev)) as Hp.
    feed Hp; [unfold uaddr, PAGING_USER_BASE; dlia|]. feed Hp; [dlia|]. feed Hp; [dlia|].
    unfold page_step. destruct (segment_page _ _ _ _ _ _); [|done]. destruct Hp as (? & ? & ? & _ & ? & Hv).
    split_and!; try done. intros w Hw. rewrite Hv by done. by rewrite (seg_byte_evolves s t cr3). }
  assert (∀ w, in_pages start ((stop - start) / 4096) w ↔ in_segment seg vaddr w) as Hrange.
  { intros w. unfold in_pages, in_segment. fold stop. unfold start in *. split; intros; dlia. }
  destruct (for_ _ _ _ _) as [t|t]; destruct Hrun as (Hev & Hpk & Hr); cbn [fst snd]; (split; [done|]); split.
  - intros w Hw Hni. apply Hpk; [done|]. by rewrite Hrange.
  - intros w Hw. apply Hr. by rewrite Hrange.
  - intros w Hw Hni. apply Hpk; [done|]. by rewrite Hrange.
  - assert ((stop - start) / 4096 = segment_pages seg vaddr) as <- by (unfold segment_pages, stop, start; dlia).
    destruct Hr as [|(w & Hw & Hl)]; [by left|right]. exists w. by rewrite <- Hrange.
Qed.
(** ** Writing to user memory *)

(** From [t] to [t'] the kernel wrote to the user addresses from [lo] to [hi]. *)
Definition uwrite (cr3 lo hi : Z) (t t' : vm A) : Prop :=
  evolves cr3 t t' ∧ (∀ w, uframe (vmem t') cr3 w = uframe (vmem t) cr3 w) ∧
  ∀ w, uaddr w → ¬ (lo ≤ w < hi) → uview (vmem t') cr3 w = uview (vmem t) cr3 w.

Lemma uwrite_trans cr3 lo hi lo1 hi1 lo2 hi2 t1 t2 t3 :
  uwrite cr3 lo1 hi1 t1 t2 → uwrite cr3 lo2 hi2 t2 t3 →
  lo ≤ lo1 → hi1 ≤ hi → lo ≤ lo2 → hi2 ≤ hi → uwrite cr3 lo hi t1 t3.
Proof.
  intros (He & Hf & Hv) (He' & Hf' & Hv') ????. split; [by eapply evolves_trans|]. split; [intros w; by rewrite Hf'|].
  intros w Hw Hn. rewrite Hv', Hv by (done || lia). done.
Qed.

Lemma uwrite_nothing cr3 lo hi t : space_ok t cr3 → uwrite cr3 lo hi t t.
Proof. intros H. split; [by apply evolves_refl|done]. Qed.

(** Bytes [b] stored inside the page of [va]. *)
Lemma page_store cr3 t va n f b m' :
  space_ok t cr3 → uaddr va → uframe (vmem t) cr3 va = Some f → va mod 4096 + n ≤ 4096 →
  (∀ k, 0 ≤ k < n → 0 ≤ b k < 256) →
  (∀ x, m' x = if (f + va mod 4096 <=? x) && (x <? f + va mod 4096 + n) then b (x - (f + va mod 4096)) else vmem t x) →
  uwrite cr3 va (va + n) t (with_vmem t m') ∧ ∀ k, 0 ≤ k < n → uview m' cr3 (va + k) = Some (b k).
Proof.
  intros Ht Hva Hf Hn Hb Hm'. pose proof (Z.mod_pos_bound va 4096 ltac:(lia)) as Hmod.
  pose proof (sp_mem t cr3 Ht) as Hm.
  assert (page_write t f m') as Hpw.
  { split; [intros x; rewrite Hm'; split_if; [apply Hb; lia|apply Hm]|]. intros x Hx. rewrite Hm'.
    split_if; [|done]. unfold in_page in Hx. lia. }
  pose proof (write_uframe t cr3 va f m' Ht Hva Hf Hpw) as Huf.
  assert (∀ w, w / 4096 = va / 4096 → uview m' cr3 w = Some (m' (f + w mod 4096))) as Hpage.
  { intros w Hw. apply uview_of. rewrite Huf, <- Hf. by apply uframe_page. }
  split; [split; [|split]|].
  - by apply (write_evolves t cr3 va f m').
  - done.
  - intros w Hw Hout. destruct (decide (w / 4096 = va / 4096)) as [Hp|Hp].
    + rewrite Hpage by done. rewrite (uview_of _ _ w f) by (rewrite <- Hf; by apply uframe_page).
      f_equal. rewrite Hm'. split_if; [|done]. exfalso. assert (w mod 4096 - va mod 4096 = w - va) by dlia. lia.
    + by apply (write_uview t cr3 va f m').
  - intros k Hk. assert ((va + k) / 4096 = va / 4096 ∧ (va + k) mod 4096 = va mod 4096 + k) as [E1 E2].
    { split; symmetry; [apply (Z.div_unique _ _ _ (va mod 4096 + k))|apply (Z.mod_unique _ _ (va / 4096))];
        pose proof (Z.div_mod va 4096); lia. }
    rewrite Hpage, E2, Hm' by done. replace (f + va mod 4096 <=? f + (va mod 4096 + k)) with true by lia.
    replace (f + (va mod 4096 + k) <? f + va mod 4096 + n) with true by lia. cbn [andb]. do 2 f_equal. lia.
Qed.

(** The 64-bit word [v] at a user address, and the string [l] with its terminator. *)
Definition uword (m : mem) (cr3 va v : Z) : Prop :=
  ∀ k, 0 ≤ k < 8 → uview m cr3 (va + k) = Some (u8 (Z.shiftr v (8 * k))).
Definition ustr (m : mem) (cr3 va : Z) (l : list Z) : Prop :=
  ∀ k b, 0 ≤ k → (l ++ [0]) !! Z.to_nat k = Some b → uview m cr3 (va + k) = Some b.
Definition uwords (m : mem) (cr3 va : Z) (l : list Z) : Prop :=
  ∀ i v, l !! i = Some v → uword m cr3 (va + 8 * Z.of_nat i) v.

Lemma store_list_at m a l x :
  store_list m a l x = if (a <=? x) && (x <? a + Z.of_nat (length l))
                       then u8 (l !!! Z.to_nat (x - a)) else m x.
Proof.
  revert m a. induction l as [|b l IH]; intros m a; cbn [store_list length].
  { change (Z.of_nat 0) with 0. split_if; [exfalso; lia|done]. }
  rewrite IH. unfold store8. rewrite Nat2Z.inj_succ, <- Z.add_1_r. pose proof (Nat2Z.is_nonneg (length l)).
  set (n := Z.of_nat (length l)) in *. clearbody n. destruct (Z.eqb_spec x a) as [-> |Hne].
  - replace (a + 1 <=? a) with false by lia. replace (a <=? a) with true by lia.
    replace (a <? a + (n + 1)) with true by lia. cbn [andb]. by rewrite Z.sub_diag.
  - replace (a + 1 <=? x) with (a <=? x) by lia. replace (a + 1 + n) with (a + (n + 1)) by lia.
    destruct ((a <=? x) && (x <? a + (n + 1))) eqn:E; [|done].
    by replace (Z.to_nat (x - a)) with (Datatypes.S (Z.to_nat (x - (a + 1)))) by lia.
Qed.

Lemma store64_page cr3 t va v f :
  space_ok t cr3 → uaddr va → uframe (vmem t) cr3 va = Some f → va mod 4096 + 8 ≤ 4096 →
  let m' := store64 (vmem t) (paging_translate (vmem t) cr3 va) v in
  uwrite cr3 va (va + 8) t (with_vmem t m') ∧ uword m' cr3 va v.
Proof.
  intros Ht Hva Hf H8. destruct (uframe_spec _ _ _ _ (sp_mem t cr3 Ht) Hf) as (_ & _ & _ & ->).
  apply (page_store cr3 t va 8 f (λ k, u8 (Z.shiftr v (8 * k)))); try done. intros; apply u8_range.
Qed.

Lemma store64_user cr3 t va v f :
  space_ok t cr3 → uaddr va → uframe (vmem t) cr3 va = Some f → va mod 8 = 0 →
  let m' := store64 (vmem t) (paging_translate (vmem t) cr3 va) v in
  uwrite cr3 va (va + 8) t (with_vmem t m') ∧ uword m' cr3 va v.
Proof.
  intros Ht Hva Hf H8. apply (store64_page cr3 t va v f); try done.
  assert (va mod 4096 mod 8 = 0) by (rewrite <- Znumtheory.Zmod_div_mod; [done|lia|lia|by exists 512]).
  pose proof (Z.mod_pos_bound va 4096). dlia.
Qed.

Lemma store_list_user cr3 t va l f :
  space_ok t cr3 → uaddr va → uframe (vmem t) cr3 va = Some f → Forall is_u8 l →
  va mod 4096 + Z.of_nat (length l) + 1 ≤ 4096 →
  let m' := store_list (vmem t) (paging_translate (vmem t) cr3 va) (l ++ [0]) in
  uwrite cr3 va (va + Z.of_nat (length l) + 1) t (with_vmem t m') ∧ ustr m' cr3 va l.
Proof.
  intros Ht Hva Hf Hl Hfit. destruct (uframe_spec _ _ _ _ (sp_mem t cr3 Ht) Hf) as (_ & _ & _ & ->).
  destruct (page_store cr3 t va (Z.of_nat (length l) + 1) f (λ k, u8 ((l ++ [0]) !!! Z.to_nat k))
    (store_list (vmem t) (f + va mod 4096) (l ++ [0]))) as [Hw Hb]; try done.
  - lia.
  - intros; apply u8_range.
  - intros x. rewrite store_list_at, length_app. cbn [length]. by replace (Z.of_nat (length l + 1)) with (Z.of_nat (length l) + 1) by lia.
  - rewrite <- Z.add_assoc. split; [done|]. intros k b Hk Hlk. rewrite Hb.
    + rewrite (list_lookup_total_correct _ _ _ Hlk), u8_small; [done|].
      apply (Forall_lookup_1 is_u8 (l ++ [0]) (Z.to_nat k)); [|done]. apply Forall_app. split; [done|].
      apply Forall_singleton. unfold is_u8. lia.
    + apply lookup_lt_Some in Hlk. rewrite length_app in Hlk. simpl in Hlk. lia.
Qed.

Lemma uword_kept cr3 lo hi t t' va v :
  uwrite cr3 lo hi t t' → uaddr va → va + 8 ≤ 2 ^ 48 → hi ≤ va ∨ va + 8 ≤ lo →
  uword (vmem t) cr3 va v → uword (vmem t') cr3 va v.
Proof.
  intros (_ & _ & Hv) Hva H48 Hout Hw k Hk. rewrite Hv; [by apply Hw|unfold uaddr in *; lia|lia].
Qed.

Lemma ustr_kept cr3 lo hi t t' va l :
  uwrite cr3 lo hi t t' → uaddr va → va + Z.of_nat (length l) + 1 ≤ 2 ^ 48 →
  hi ≤ va ∨ va + Z.of_nat (length l) + 1 ≤ lo → ustr (vmem t) cr3 va l → ustr (vmem t') cr3 va l.
Proof.
  intros (_ & _ & Hv) Hva H48 Hout Hw k b Hk Hb. pose proof (lookup_lt_Some _ _ _ Hb) as Hlt.
  rewrite length_app in Hlt. simpl in Hlt. rewrite Hv; [by apply Hw|unfold uaddr in *; lia|lia].
Qed.
(** ** The stack of a new program *)

Definition stack_low : Z := PROCESS_USER_STACK_TOP - PROCESS_USER_STACK_SIZE.
Definition stack_mapped (m : mem) (cr3 : Z) : Prop :=
  ∀ w, stack_low ≤ w < PROCESS_USER_STACK_TOP → uframe m cr3 w ≠ None.

Lemma stack_user w : stack_low ≤ w < PROCESS_USER_STACK_TOP → uaddr w.
Proof. unfold uaddr, stack_low, PROCESS_USER_STACK_TOP, PROCESS_USER_STACK_SIZE, PAGING_USER_BASE. lia. Qed.

(** A stack word to be written: its frame, and that the translation is not null. *)
Lemma stack_slot cr3 t va :
  space_ok t cr3 → stack_mapped (vmem t) cr3 → stack_low ≤ va < PROCESS_USER_STACK_TOP →
  uaddr va ∧ ∃ f, uframe (vmem t) cr3 va = Some f ∧ paging_translate (vmem t) cr3 va =? 0 = false.
Proof.
  intros Ht Hm Hva. split; [by apply stack_user|].
  destruct (uframe (vmem t) cr3 va) as [f|] eqn:Ef; [|by destruct (Hm va Hva)]. exists f. split; [done|].
  destruct (uframe_spec _ _ _ _ (sp_mem t cr3 Ht) Ef) as (_ & ? & _ & ->). pose proof (Z.mod_pos_bound va 4096). lia.
Qed.

Lemma uwrite_stack cr3 lo hi t t' :
  uwrite cr3 lo hi t t' → stack_mapped (vmem t) cr3 → space_ok t' cr3 ∧ stack_mapped (vmem t') cr3.
Proof. intros (((? & _) & _) & Hf & _) Hm. split; [done|]. intros w Hw. rewrite Hf. by apply Hm. Qed.

(** Reference layout of the strings: each takes its length and terminator, rounded
    up to a multiple of eight, below the one before. *)
Definition round8 (n : Z) : Z := (n + 7) / 8 * 8.
Definition str_size (s : list Z) : Z := round8 (Z.of_nat (length s) + 1).
Fixpoint str_total (l : list (list Z)) : Z :=
  match l with [] => 0 | s :: l => str_size s + str_total l end.
Fixpoint string_addrs (cur : Z) (l : list (list Z)) : list Z :=
  match l with [] => [] | s :: l => (cur - str_size s) :: string_addrs (cur - str_size s) l end.

(** Every string lies inside one page. *)
Fixpoint strings_fit (cur : Z) (l : list (list Z)) : Prop :=
  match l with
  | [] => True
  | s :: l => Forall is_u8 s ∧ (cur - str_size s) mod 4096 + Z.of_nat (length s) + 1 ≤ 4096 ∧
              strings_fit (cur - str_size s) l
  end.

Lemma str_size_bounds (s : list Z) : Z.of_nat (length s) + 1 ≤ str_size s < Z.of_nat (length s) + 9 ∧ str_size s mod 8 = 0.
Proof. unfold str_size, round8. dlia. Qed.

Lemma str_total_pos l : 0 ≤ str_total l ∧ str_total l mod 8 = 0.
Proof.
  induction l as [|s l [IH1 IH2]]; cbn [str_total]; [done|]. destruct (str_size_bounds s) as [? E].
  split; [lia|]. dlia.
Qed.

Lemma string_addrs_bounds cur l i (s : list Z) a :
  l !! i = Some s → string_addrs cur l !! i = Some a →
  cur - str_total l ≤ a ∧ a + Z.of_nat (length s) + 1 ≤ cur.
Proof.
  revert cur i. induction l as [|s0 l IH]; intros cur i; [done|]. pose proof (str_size_bounds s0) as [Hs _].
  destruct (str_total_pos l) as [Hp _]. destruct i as [|i]; cbn [string_addrs str_total lookup list_lookup].
  - intros [= ->] [= <-]. lia.
  - intros Hl Ha. destruct (IH _ _ Hl Ha). lia.
Qed.

Lemma next_string_addr cur (s : list Z) :
  cur mod 8 = 0 → 0 ≤ cur - str_size s → cur < 18446744073709551616 →
  Z.land (u64 (cur - (Z.of_nat (length s) + 1))) (u64 (Z.lnot 7)) = cur - str_size s.
Proof.
  intros H8 H0 Hu. pose proof (str_size_bounds s) as [Hs Hs8]. rewrite u64_small by lia.
  change 7 with (2 ^ 3 - 1). rewrite round_down_mask by (unfold is_u64; lia). change (2 ^ 3) with 8.
  unfold str_size, round8 in *. dlia.
Qed.

Lemma push_strings_spec cr3 l addrs cur t :
  space_ok t cr3 → stack_mapped (vmem t) cr3 → cur mod 8 = 0 → cur ≤ PROCESS_USER_STACK_TOP →
  stack_low ≤ cur - str_total l → strings_fit cur l → (length addrs + length l ≤ 128)%nat →
  ∃ t', push_strings cr3 l addrs cur (vmem t) = inl (addrs ++ string_addrs cur l, cur - str_total l, vmem t') ∧
    uwrite cr3 (cur - str_total l) cur t t' ∧
    ∀ i (s : list Z) a, l !! i = Some s → string_addrs cur l !! i = Some a → ustr (vmem t') cr3 a s.
Proof.
  revert addrs cur t. induction l as [|s l IH]; intros addrs cur t Ht Hm H8 Htop Hlow Hfit Hlen;
    cbn [push_strings string_addrs str_total strings_fit length] in *.
  { exists t. rewrite app_nil_r, Z.sub_0_r. split; [done|]. split; [by apply uwrite_nothing|]. done. }
  destruct Hfit as (Hu8 & Hpage & Hfit). pose proof (str_size_bounds s) as [Hs Hs8]. destruct (str_total_pos l) as [Hl _].
  unfold stack_low, PROCESS_USER_STACK_TOP, PROCESS_USER_STACK_SIZE in Htop, Hlow.
  rewrite next_string_addr by (done || lia). set (a := cur - str_size s) in *.
  destruct (stack_slot cr3 t a Ht Hm) as (Hua & f & Hf & ->);
    [unfold stack_low, PROCESS_USER_STACK_TOP, PROCESS_USER_STACK_SIZE; lia|].
  destruct (store_list_user cr3 t a s f Ht Hua Hf Hu8 Hpage) as [Hw Hstr].
  set (t1 := with_vmem t _) in *. change (store_list _ _ _) with (vmem t1).
  destruct (uwrite_stack _ _ _ _ _ Hw Hm) as [Ht1 Hm1].
  replace (128 <=? length addrs)%nat with false by (symmetry; apply Nat.leb_gt; lia).
  destruct (IH (addrs ++ [a]) a t1 Ht1 Hm1) as (t' & E & Hw' & Hstrs);
    [dlia|unfold PROCESS_USER_STACK_TOP; lia| |done|rewrite length_app; simpl; lia|].
  { unfold stack_low, PROCESS_USER_STACK_TOP, PROCESS_USER_STACK_SIZE. lia. }
  exists t'. rewrite E, <- app_assoc. split; [do 3 f_equal; lia|]. split.
  { eapply uwrite_trans; [exact Hw|exact Hw'|lia..]. }
  intros [|i] s0 a0; cbn [lookup list_lookup].
  - intros [= <-] [= <-]. apply (ustr_kept _ _ _ _ _ _ _ Hw'); [done| |by left|done]. lia.
  - apply Hstrs.
Qed.

Lemma push_words_spec cr3 l sp t :
  space_ok t cr3 → stack_mapped (vmem t) cr3 → sp mod 8 = 0 → stack_low ≤ sp →
  sp + 8 * Z.of_nat (length l) ≤ PROCESS_USER_STACK_TOP →
  ∃ t', push_words cr3 sp l (vmem t) = inl (vmem t') ∧
    uwrite cr3 sp (sp + 8 * Z.of_nat (length l)) t t' ∧ uwords (vmem t') cr3 sp l.
Proof.
  revert sp t. induction l as [|v l IH]; intros sp t Ht Hm H8 Hlow Htop; cbn [push_words].
  { exists t. split; [done|]. split; [by apply uwrite_nothing|done]. }
  cbn [length] in Htop. rewrite Nat2Z.inj_succ in Htop.
  destruct (stack_slot cr3 t sp Ht Hm ltac:(lia)) as (Hua & f & Hf & Htr).
  unfold stack_low, PROCESS_USER_STACK_TOP, PROCESS_USER_STACK_SIZE in Htop, Hlow.
  rewrite u64_small, Htr by lia. destruct (store64_user cr3 t sp v f Ht Hua Hf H8) as [Hw Hword].
  set (t1 := with_vmem t _) in *. change (store64 _ _ _) with (vmem t1).
  destruct (uwrite_stack _ _ _ _ _ Hw Hm) as [Ht1 Hm1].
  destruct (IH (sp + 8) t1 Ht1 Hm1) as (t' & E & Hw' & Hwords);
    [dlia|unfold stack_low, PROCESS_USER_STACK_TOP, PROCESS_USER_STACK_SIZE; lia|unfold PROCESS_USER_STACK_TOP; lia|].
  exists t'. split; [done|]. cbn [length]. rewrite Nat2Z.inj_succ. split.
  { eapply uwrite_trans; [exact Hw|exact Hw'|lia..]. }
  intros [|i] w; cbn [lookup list_lookup].
  - intros [= <-]. replace (sp + 8 * Z.of_nat 0) with sp by lia. apply (uword_kept _ _ _ _ _ _ _ Hw'); [done|lia|by right; lia|done].
  - intros Hi. replace (sp + 8 * Z.of_nat (Datatypes.S i)) with (sp + 8 + 8 * Z.of_nat i) by lia. by apply Hwords.
Qed.
Lemma push_aux_spec cr3 sp t :
  space_ok t cr3 → stack_mapped (vmem t) cr3 → sp mod 8 = 0 → stack_low ≤ sp →
  sp + 16 ≤ PROCESS_USER_STACK_TOP → sp mod 4096 + 16 ≤ 4096 →
  ∃ t', push_aux cr3 sp (vmem t) = inl (vmem t') ∧ uwrite cr3 sp (sp + 16) t t' ∧ uwords (vmem t') cr3 sp [0; 0].
Proof.
  intros Ht Hm H8 Hlow Htop Hpage. unfold push_aux.
  destruct (stack_slot cr3 t sp Ht Hm ltac:(lia)) as (Hua & f & Hf & Htr). rewrite Htr.
  destruct (store64_user cr3 t sp 0 f Ht Hua Hf H8) as [Hw Hword].
  set (t1 := with_vmem t _) in *. change (store64 (vmem t) _ _) with (vmem t1) in Hword |- *. clearbody t1.
  destruct (uwrite_stack _ _ _ _ _ Hw Hm) as [Ht1 Hm1]. pose proof (Z.mod_pos_bound sp 4096 ltac:(lia)).
  assert ((sp + 8) / 4096 = sp / 4096 ∧ (sp + 8) mod 4096 = sp mod 4096 + 8) as [Ed Em].
  { split; symmetry; [apply (Z.div_unique _ _ _ (sp mod 4096 + 8))|apply (Z.mod_unique _ _ (sp / 4096))];
      pose proof (Z.div_mod sp 4096); lia. }
  assert (uframe (vmem t1) cr3 (sp + 8) = Some f) as Hf1.
  { rewrite (uframe_page _ _ _ sp Ed). by rewrite (proj1 (proj2 Hw)). }
  assert (paging_translate (vmem t) cr3 sp + 8 = paging_translate (vmem t1) cr3 (sp + 8)) as ->.
  { destruct (uframe_spec _ _ _ _ (sp_mem t cr3 Ht) Hf) as (_ & _ & _ & ->),
      (uframe_spec _ _ _ _ (sp_mem t1 cr3 Ht1) Hf1) as (_ & _ & _ & ->). lia. }
  assert (stack_low ≤ sp + 8 < PROCESS_USER_STACK_TOP) as Hsp8 by lia.
  destruct (store64_user cr3 t1 (sp + 8) 0 f Ht1 (stack_user _ Hsp8) Hf1 ltac:(dlia)) as [Hw2 Hword2].
  set (t2 := with_vmem t1 _) in *. exists t2. change (store64 (vmem t1) _ _) with (vmem t2) in Hword2 |- *. clearbody t2.
  split; [done|]. split; [eapply uwrite_trans; [exact Hw|exact Hw2|lia..]|].
  unfold stack_low, PROCESS_USER_STACK_TOP, PROCESS_USER_STACK_SIZE in *.
  intros [|[|i]] v; cbn [lookup list_lookup]; [| |done]; intros [= <-].
  - replace (sp + 8 * Z.of_nat 0) with sp by lia. apply (uword_kept _ _ _ _ _ _ _ Hw2); [done|lia|by right; lia|done].
  - by replace (sp + 8 * Z.of_nat 1) with (sp + 8) by lia.
Qed.

Lemma uwords_app m cr3 va l1 l2 :
  uwords m cr3 va l1 → uwords m cr3 (va + 8 * Z.of_nat (length l1)) l2 → uwords m cr3 va (l1 ++ l2).
Proof.
  intros H1 H2 i v [Hi|[Hge Hi]]%lookup_app_Some; [by apply H1|].
  replace (va + 8 * Z.of_nat i) with (va + 8 * Z.of_nat (length l1) + 8 * Z.of_nat (i - length l1)) by lia. by apply H2.
Qed.

Lemma uwords_kept cr3 lo hi t t' va l :
  uwrite cr3 lo hi t t' → stack_low ≤ va → va + 8 * Z.of_nat (length l) ≤ PROCESS_USER_STACK_TOP → hi ≤ va →
  uwords (vmem t) cr3 va l → uwords (vmem t') cr3 va l.
Proof.
  intros Hw Hlow Htop Hout Hl i v Hi. pose proof (lookup_lt_Some _ _ _ Hi).
  apply (uword_kept _ _ _ _ _ _ _ Hw); [apply stack_user; lia| |left; lia|by apply Hl].
  unfold PROCESS_USER_STACK_TOP in *. lia.
Qed.

Lemma str_space_size (s : list Z) : Z.of_nat (length s) < 2 ^ 60 → str_space s = str_size s.
Proof.
  intros H. unfold str_space, str_size, round8. change 7 with (2 ^ 3 - 1) at 2.
  rewrite round_down_mask by (unfold is_u64; lia). change (2 ^ 3) with 8. done.
Qed.

Lemma str_bytes_total l n :
  0 ≤ n → n + str_total l < 2 ^ 50 → foldl (λ n (s : list Z), u64 (n + str_space s)) n l = n + str_total l.
Proof.
  revert n. induction l as [|s l IH]; intros n Hn Hb; cbn [foldl str_total] in *; [lia|].
  pose proof (str_size_bounds s) as [Hs _]. destruct (str_total_pos l) as [Hp _].
  rewrite str_space_size, u64_small, IH by lia. lia.
Qed.

(** The reference layout: the words at the stack pointer, and the strings above. *)
Section Layout.
Context (argv envp : list (list Z)).

Definition exec_total : Z :=
  str_total envp + str_total argv + 8 * (5 + Z.of_nat (length argv) + Z.of_nat (length envp)).
Definition exec_pad : Z := if exec_total mod 16 =? 0 then 0 else 8.
Definition env_top : Z := PROCESS_USER_STACK_TOP - exec_pad.
Definition arg_top : Z := env_top - str_total envp.
Definition exec_sp : Z := PROCESS_USER_STACK_TOP - exec_pad - exec_total.
Definition exec_words : list Z :=
  [Z.of_nat (length argv)] ++ string_addrs arg_top argv ++ [0] ++ string_addrs env_top envp ++ [0] ++ [0; 0].

(** The strings and the auxiliary pair do not cross a page, all of it fits the
    stack, and there are at most 128 strings of each kind. *)
Record exec_fits : Prop := {
  ef_argc : (length argv ≤ 128)%nat;
  ef_envc : (length envp ≤ 128)%nat;
  ef_stack : exec_total + 8 ≤ PROCESS_USER_STACK_SIZE;
  ef_env : strings_fit env_top envp;
  ef_arg : strings_fit arg_top argv;
  ef_aux : (arg_top - str_total argv - 16) mod 4096 + 16 ≤ 4096
}.
End Layout.

Lemma string_addrs_length cur l : length (string_addrs cur l) = length l.
Proof. revert cur. induction l as [|s l IH]; intros cur; simpl; [done|]. by rewrite IH. Qed.
(** A write followed by writes further down. *)
Lemma uwrite_below cr3 lo mid mid' hi t1 t2 t3 :
  uwrite cr3 mid hi t1 t2 → uwrite cr3 lo mid' t2 t3 → lo ≤ mid → mid' ≤ hi → uwrite cr3 lo hi t1 t3.
Proof. intros H1 H2 ??. eapply uwrite_trans; [exact H1|exact H2|lia..]. Qed.

(** The part of the code below the strings, with its positions. *)
Lemma exec_words_spec cr3 argv envp t cur p1 p2 p3 p4 p5 p6 :
  let n := Z.of_nat (length envp) in let k := Z.of_nat (length argv) in
  space_ok t cr3 → stack_mapped (vmem t) cr3 → cur mod 8 = 0 → cur ≤ PROCESS_USER_STACK_TOP →
  p1 = cur - 16 → p2 = p1 - 8 → p3 = p2 - 8 * n → p4 = p3 - 8 → p5 = p4 - 8 * k → p6 = p5 - 8 →
  stack_low ≤ p6 → p1 mod 4096 + 16 ≤ 4096 →
  ∃ t', then_ (push_aux cr3 p1 (vmem t)) (λ m,
        then_ (push_words cr3 p2 [0] m) (λ m,
        then_ (push_words cr3 p3 envp m) (λ m,
        then_ (push_words cr3 p4 [0] m) (λ m,
        then_ (push_words cr3 p5 argv m) (λ m,
        then_ (push_words cr3 p6 [k] m) (λ m, inl (p6, m))))))) = inl (p6, vmem t') ∧
    uwrite cr3 p6 cur t t' ∧
    uwords (vmem t') cr3 p6 ([k] ++ argv ++ [0] ++ envp ++ [0] ++ [0; 0]).
Proof.
  intros n k Ht Hm H8 Htop E1 E2 E3 E4 E5 E6 Hlow Haux.
  assert (0 ≤ n ∧ 0 ≤ k ∧ n = Z.of_nat (length envp) ∧ k = Z.of_nat (length argv)) as (Hn & Hk & En & Ek) by lia.
  clearbody n k.
  assert (p1 mod 8 = 0 ∧ p2 mod 8 = 0 ∧ p3 mod 8 = 0 ∧ p4 mod 8 = 0 ∧ p5 mod 8 = 0 ∧ p6 mod 8 = 0)
    as (M1 & M2 & M3 & M4 & M5 & M6) by (clear -E1 E2 E3 E4 E5 E6 H8; repeat split; dlia).
  destruct (push_aux_spec cr3 p1 t Ht Hm) as (t1 & -> & Hw1 & Hu1); [lia..|].
  destruct (uwrite_stack _ _ _ _ _ Hw1 Hm) as [Ht1 Hm1]. cbn [then_].
  destruct (push_words_spec cr3 [0] p2 t1 Ht1 Hm1) as (t2 & -> & Hw2 & Hu2); [lia|lia|simpl; lia|].
  destruct (uwrite_stack _ _ _ _ _ Hw2 Hm1) as [Ht2 Hm2]. cbn [then_].
  destruct (push_words_spec cr3 envp p3 t2 Ht2 Hm2) as (t3 & -> & Hw3 & Hu3); [lia..|].
  destruct (uwrite_stack _ _ _ _ _ Hw3 Hm2) as [Ht3 Hm3]. cbn [then_].
  destruct (push_words_spec cr3 [0] p4 t3 Ht3 Hm3) as (t4 & -> & Hw4 & Hu4); [lia|lia|simpl; lia|].
  destruct (uwrite_stack _ _ _ _ _ Hw4 Hm3) as [Ht4 Hm4]. cbn [then_].
  destruct (push_words_spec cr3 argv p5 t4 Ht4 Hm4) as (t5 & -> & Hw5 & Hu5); [lia..|].
  destruct (uwrite_stack _ _ _ _ _ Hw5 Hm4) as [Ht5 Hm5]. cbn [then_].
  destruct (push_words_spec cr3 [k] p6 t5 Ht5 Hm5) as (t6 & -> & Hw6 & Hu6); [lia|lia|simpl; lia|].
  cbn [then_]. exists t6. split; [done|]. cbn [length] in *. change (Z.of_nat 1) with 1 in *.
  rewrite <- En in *. rewrite <- Ek in *.
  pose proof (uwrite_below _ _ _ _ _ _ _ _ Hw5 Hw6 ltac:(lia) ltac:(lia)) as C5.
  pose proof (uwrite_below _ _ _ _ _ _ _ _ Hw4 C5 ltac:(lia) ltac:(lia)) as C4.
  pose proof (uwrite_below _ _ _ _ _ _ _ _ Hw3 C4 ltac:(lia) ltac:(lia)) as C3.
  pose proof (uwrite_below _ _ _ _ _ _ _ _ Hw2 C3 ltac:(lia) ltac:(lia)) as C2.
  clear Ht Ht1 Ht2 Ht3 Ht4 Ht5 Hm Hm1 Hm2 Hm3 Hm4 Hm5 M1 M2 M3 M4 M5 M6 H8. split.
  { pose proof (uwrite_below _ _ _ _ _ _ _ _ Hw1 C2 ltac:(lia) ltac:(lia)) as C1. by replace (p1 + 16) with cur in C1 by lia. }
  apply (uwords_kept _ _ _ _ _ _ _ C2) in Hu1; [|lia|simpl; lia|lia].
  apply (uwords_kept _ _ _ _ _ _ _ C3) in Hu2; [|lia|simpl; lia|lia].
  apply (uwords_kept _ _ _ _ _ _ _ C4) in Hu3; [|lia|lia|lia].
  apply (uwords_kept _ _ _ _ _ _ _ C5) in Hu4; [|lia|simpl; lia|lia].
  apply (uwords_kept _ _ _ _ _ _ _ Hw6) in Hu5; [|lia|lia|lia].
  repeat apply uwords_app; cbn [length]; change (Z.of_nat 1) with 1; rewrite <- ?En, <- ?Ek.
  - exact Hu6.
  - by replace (_ + 8 * 1) with p5 by lia.
  - by replace (_ + 8 * k) with p4 by lia.
  - by replace (_ + 8 * 1) with p3 by lia.
  - by replace (_ + 8 * n) with p2 by lia.
  - by replace (_ + 8 * 1) with p1 by lia.
Qed.
(** The layout [build_exec_stack] leaves. *)
Lemma build_exec_stack_spec cr3 argv envp t :
  space_ok t cr3 → stack_mapped (vmem t) cr3 → exec_fits argv envp →
  ∃ t', build_exec_stack cr3 argv envp (vmem t) = Some (exec_sp argv envp, vmem t') ∧
    exec_sp argv envp mod 16 = 0 ∧
    uwords (vmem t') cr3 (exec_sp argv envp) (exec_words argv envp) ∧
    (∀ i (s : list Z) a, argv !! i = Some s → string_addrs (arg_top argv envp) argv !! i = Some a → ustr (vmem t') cr3 a s) ∧
    (∀ i (s : list Z) a, envp !! i = Some s → string_addrs (env_top argv envp) envp !! i = Some a → ustr (vmem t') cr3 a s) ∧
    uwrite cr3 (exec_sp argv envp) PROCESS_USER_STACK_TOP t t'.
Proof.
  intros Ht Hm [Hac Hec Hst Hfe Hfa Haux]. unfold build_exec_stack, str_bytes.
  destruct (str_total_pos envp) as [He0 He8], (str_total_pos argv) as [Ha0 Ha8].
  set (n := Z.of_nat (length envp)). set (k := Z.of_nat (length argv)).
  assert (exec_total argv envp = str_total envp + str_total argv + 8 * (5 + k + n)) as Etot by done.
  unfold PROCESS_USER_STACK_SIZE in Hst. assert (0 ≤ n ∧ 0 ≤ k) as [Hn Hk] by lia.
  rewrite (str_bytes_total envp 0), (str_bytes_total argv) by lia.
  rewrite (u64_small (0 + str_total envp + str_total argv)), u64_small by lia.
  replace (0 + str_total envp + str_total argv + 8 * (5 + k + n)) with (exec_total argv envp) by lia.
  assert ((if truthy (Z.land (exec_total argv envp) 0xF) then 8 else 0) = exec_pad argv envp) as ->.
  { unfold exec_pad, truthy. change 0xF with (2 ^ 4 - 1). rewrite land_ones_mod by lia. change (2 ^ 4) with 16.
    by destruct (_ =? _). }
  assert (0 ≤ exec_pad argv envp ≤ 8 ∧ (exec_pad argv envp + exec_total argv envp) mod 16 = 0 ∧ exec_pad argv envp mod 8 = 0)
    as (Hp & Hp16 & Hp8).
  { unfold exec_pad. rewrite Etot. destruct (Z.eqb_spec ((str_total envp + str_total argv + 8 * (5 + k + n)) mod 16) 0); dlia. }
  assert (exec_sp argv envp = arg_top argv envp - str_total argv - 8 * (5 + k + n)) as Esp
    by (unfold exec_sp, arg_top, env_top; lia).
  assert (env_top argv envp mod 8 = 0 ∧ arg_top argv envp mod 8 = 0) as [Het8 Hat8]
    by (unfold arg_top, env_top, PROCESS_USER_STACK_TOP; dlia).
  assert (arg_top argv envp = env_top argv envp - str_total envp) as Eat by done.
  assert (env_top argv envp = 0x4000000000 - exec_pad argv envp) as Eet by done.
  assert (exec_sp argv envp mod 16 = 0) as Hsp16
    by (unfold exec_sp, PROCESS_USER_STACK_TOP; dlia).
  fold (env_top argv envp).
  destruct (push_strings_spec cr3 envp [] (env_top argv envp) t Ht Hm) as (t1 & -> & Hw1 & Hs1);
    [done|unfold PROCESS_USER_STACK_TOP; lia|unfold stack_low, PROCESS_USER_STACK_TOP, PROCESS_USER_STACK_SIZE; lia|done|done|].
  destruct (uwrite_stack _ _ _ _ _ Hw1 Hm) as [Ht1 Hm1]. cbn [then_ app]. fold (arg_top argv envp) in Hw1 |- *.
  destruct (push_strings_spec cr3 argv [] (arg_top argv envp) t1 Ht1 Hm1) as (t2 & -> & Hw2 & Hs2);
    [done|unfold PROCESS_USER_STACK_TOP; lia|unfold stack_low, PROCESS_USER_STACK_TOP, PROCESS_USER_STACK_SIZE; lia|done|done|].
  destruct (uwrite_stack _ _ _ _ _ Hw2 Hm1) as [Ht2 Hm2]. cbn [then_ app].
  set (cur := arg_top argv envp - str_total argv) in *.
  rewrite !(u64_small (cur - 16)), !(u64_small (cur - 16 - 8)), !(u64_small (cur - 16 - 8 - 8 * n)),
    !(u64_small (cur - 16 - 8 - 8 * n - 8)), !(u64_small (cur - 16 - 8 - 8 * n - 8 - 8 * k)),
    !(u64_small (cur - 16 - 8 - 8 * n - 8 - 8 * k - 8)) by lia.
  pose proof (exec_words_spec cr3 (string_addrs (arg_top argv envp) argv) (string_addrs (env_top argv envp) envp) t2 cur
    (cur - 16) (cur - 16 - 8) (cur - 16 - 8 - 8 * n) (cur - 16 - 8 - 8 * n - 8) (cur - 16 - 8 - 8 * n - 8 - 8 * k)
    (cur - 16 - 8 - 8 * n - 8 - 8 * k - 8)) as Hx.
  rewrite !string_addrs_length in Hx. fold n k in Hx. cbv zeta in Hx.
  destruct Hx as (t3 & -> & Hw3 & Hu3); try done.
  { unfold cur. dlia. }
  { unfold PROCESS_USER_STACK_TOP. lia. }
  { unfold stack_low, PROCESS_USER_STACK_TOP, PROCESS_USER_STACK_SIZE. lia. }
  replace (cur - 16 - 8 - 8 * n - 8 - 8 * k - 8) with (exec_sp argv envp) in * by lia.
  exists t3. split; [done|]. split; [done|]. split; [exact Hu3|].
  unfold PROCESS_USER_STACK_TOP in *. split; [|split].
  - intros i s a Hi Ha. destruct (string_addrs_bounds _ _ _ _ _ Hi Ha) as [B1 B2]. fold cur in B1.
    apply (ustr_kept _ _ _ _ _ _ _ Hw3); [apply stack_user; unfold stack_low, PROCESS_USER_STACK_TOP, PROCESS_USER_STACK_SIZE; lia|lia|left; lia|].
    by apply (Hs2 i).
  - intros i s a Hi Ha. destruct (string_addrs_bounds _ _ _ _ _ Hi Ha).
    pose proof (uwrite_below _ _ _ _ _ _ _ _ Hw2 Hw3 ltac:(lia) ltac:(lia)) as Hw23.
    apply (ustr_kept _ _ _ _ _ _ _ Hw23); [apply stack_user; unfold stack_low, PROCESS_USER_STACK_TOP, PROCESS_USER_STACK_SIZE; lia|lia|left; lia|].
    by apply (Hs1 i).
  - pose proof (uwrite_below _ _ _ _ _ _ _ _ Hw2 Hw3 ltac:(lia) ltac:(lia)) as Hw23.
    eapply uwrite_trans; [exact Hw1|exact Hw23|lia..].
Qed.

End Mapping.

(** ** Reading strings back *)

Section Reading.
Context {A : Type} `{!FrameAllocator A, !FrameAllocatorOk A}.

Lemma uview_translate m cr3 v b :
  mem_ok m → uview m cr3 v = Some b → load8 m (paging_translate m cr3 v) = b ∧ paging_translate m cr3 v =? 0 = false.
Proof.
  intros Hm. unfold uview. destruct (uframe m cr3 v) as [f|] eqn:Ef; [|done]. intros [= <-].
  destruct (uframe_spec _ _ _ _ Hm Ef) as (_ & ? & _ & ->). split; [done|]. pose proof (Z.mod_pos_bound v 4096). lia.
Qed.

(** A string of at most 254 characters is read as it is. *)
Lemma user_cstr_spec m cr3 va l :
  mem_ok m → ustr m cr3 va l → Forall (λ c, c ≠ 0) l → (length l < 255)%nat →
  0 ≤ va → va + 255 ≤ 18446744073709551616 → user_cstr m cr3 va = Some l.
Proof.
  intros Hm Hs Hnz Hlen Hva Hhi. unfold user_cstr.
  match goal with |- context [for_ 0 255 ?b] => set (body := b) end.
  assert (∀ i out, 0 ≤ i < 255 → ∀ c, (l ++ [0]) !! Z.to_nat i = Some c →
    body i out = if c =? 0 then inr (Some out) else inl (out ++ [c])) as Hb.
  { intros i out Hi c Hc. unfold body. rewrite u64_small by lia.
    destruct (uview_translate m cr3 (va + i) c Hm) as [-> ->]; [|done]. apply Hs; [lia|done]. }
  clearbody body. pose proof (for_ind (λ i out, i ≤ Z.of_nat (length l) ∧ out = take (Z.to_nat i) l)
    (λ r, r = Some l) 0 255 body []) as HI.
  feed HI; [lia|]. feed HI; [split; [lia|done]|]. feed HI.
  { intros i out Hi [Hle ->]. destruct (decide (i = Z.of_nat (length l))) as [-> |Hne].
    - rewrite (Hb _ _ Hi 0) by (rewrite Nat2Z.id, lookup_app_r, Nat.sub_diag by lia; done).
      cbn [Z.eqb]. f_equal. rewrite Nat2Z.id. by rewrite take_ge.
    - destruct (lookup_lt_is_Some_2 l (Z.to_nat i)) as [c Hc]; [lia|].
      rewrite (Hb _ _ Hi c) by (rewrite lookup_app_l by lia; done).
      pose proof (Forall_lookup_1 _ _ _ _ Hnz Hc) as Hcz. cbn beta in Hcz. replace (c =? 0) with false by lia.
      split; [lia|]. replace (Z.to_nat (i + 1)) with (Datatypes.S (Z.to_nat i)) by lia. by rewrite (take_S_r _ _ c). }
  destruct (for_ 0 255 body []) as [out|r]; [|by rewrite HI]. destruct HI. lia.
Qed.
End Reading.

(** ** The loader's promises composed *)

Section Composed.
Context {A : Type} `{!FrameAllocator A, !FrameAllocatorOk A}.
Implicit Types t : vm A.

Lemma exec_words_arg argv envp i a :
  string_addrs (arg_top argv envp) argv !! i = Some a → exec_words argv envp !! (1 + i)%nat = Some a.
Proof.
  intros H. unfold exec_words. rewrite lookup_app_r by (simpl; lia). replace (1 + i - length [_])%nat with i by (simpl; lia).
  by apply lookup_app_l_Some.
Qed.

Lemma exec_words_env argv envp i a :
  string_addrs (env_top argv envp) envp !! i = Some a → exec_words argv envp !! (length argv + 2 + i)%nat = Some a.
Proof.
  intros H. unfold exec_words. rewrite lookup_app_r by (simpl; lia). rewrite lookup_app_r by (rewrite string_addrs_length; simpl; lia).
  rewrite string_addrs_length, lookup_app_r by (simpl; lia).
  replace (_ - length [0])%nat with i by (simpl; lia). by apply lookup_app_l_Some.
Qed.

(** the program finds its arguments.  After [build_exec_stack], the word at
    position [i] of the argument vector is an address at which [read_user_cstr]
    reads the argument back, for every argument of at most 254 characters; the same
    for the environment. *)
Theorem exec_arguments_roundtrip cr3 argv envp t i s :
  space_ok t cr3 → stack_mapped (vmem t) cr3 → exec_fits argv envp →
  Forall (λ c, c ≠ 0) s → (length s < 255)%nat →
  ∃ sp m', build_exec_stack cr3 argv envp (vmem t) = Some (sp, m') ∧
    (argv !! i = Some s → ∃ a, uword m' cr3 (sp + 8 + 8 * Z.of_nat i) a ∧ user_cstr m' cr3 a = Some s) ∧
    (envp !! i = Some s → ∃ a, uword m' cr3 (sp + 8 * (Z.of_nat (length argv) + 2) + 8 * Z.of_nat i) a ∧
                            user_cstr m' cr3 a = Some s).
Proof.
  intros Ht Hm Hfit Hnz Hlen. pose proof Hfit as [Hac Hec Hst _ _ _].
  destruct (build_exec_stack_spec cr3 argv envp t Ht Hm Hfit) as (t' & E & _ & Hw & Ha & He & Hu).
  destruct (uwrite_stack _ _ _ _ _ Hu Hm) as [Ht' _]. pose proof (sp_mem t' cr3 Ht') as Hmem.
  exists (exec_sp argv envp), (vmem t'). split; [done|].
  destruct (str_total_pos envp) as [He0 _], (str_total_pos argv) as [Ha0 _].
  unfold exec_total, PROCESS_USER_STACK_SIZE in Hst.
  assert (0 ≤ exec_pad argv envp ≤ 8) by (unfold exec_pad; destruct (_ =? _); lia).
  split; intros Hi.
  - destruct (lookup_lt_is_Some_2 (string_addrs (arg_top argv envp) argv) i) as [a Hai];
      [rewrite string_addrs_length; by eapply lookup_lt_Some|].
    exists a. destruct (string_addrs_bounds _ _ _ _ _ Hi Hai).
    unfold arg_top, env_top, PROCESS_USER_STACK_TOP in *. split.
    + replace (exec_sp argv envp + 8 + 8 * Z.of_nat i) with (exec_sp argv envp + 8 * Z.of_nat (1 + i)) by lia.
      by apply Hw, exec_words_arg.
    + apply user_cstr_spec; [done|by apply (Ha i)|done|done|lia|lia].
  - destruct (lookup_lt_is_Some_2 (string_addrs (env_top argv envp) envp) i) as [a Hai];
      [rewrite string_addrs_length; by eapply lookup_lt_Some|].
    exists a. destruct (string_addrs_bounds _ _ _ _ _ Hi Hai).
    unfold arg_top, env_top, PROCESS_USER_STACK_TOP in *. split.
    + replace (_ + 8 * (_ + 2) + _) with (exec_sp argv envp + 8 * Z.of_nat (length argv + 2 + i)) by lia.
      by apply Hw, exec_words_env.
    + apply user_cstr_spec; [done|by apply (He i)|done|done|lia|lia].
Qed.
(** A fresh stack.  [map_user_stack] ends, keeps the invariant, the kernel's
    bytes and all other pages; when it succeeds the 256 KiB below the stack top are
    mapped and read as zero, so that a program's stack can be built there; it fails
    only when frames run out or a page of the stack is mapped already. *)
Theorem map_user_stack_correct cr3 t :
  space_ok t cr3 →
  let r := map_user_stack cr3 t in
  evolves cr3 t r.2 ∧ pages_kept cr3 (λ w, stack_low ≤ w < PROCESS_USER_STACK_TOP) t r.2 ∧
  if r.1 then
    stack_mapped (vmem r.2) cr3 ∧
    ∀ w, stack_low ≤ w < PROCESS_USER_STACK_TOP → uview (vmem r.2) cr3 w = Some 0
  else starved 256 t ∨ ∃ w, stack_low ≤ w < PROCESS_USER_STACK_TOP ∧ leaf (vmem t) cr3 w ≠ None.
Proof.
  intros Ht. unfold map_user_stack. fold stack_low. change (PROCESS_USER_STACK_SIZE / 0x1000) with 64.
  match goal with |- context [for_ 0 64 ?b] => pose proof (run_pages cr3 stack_low 64 b (λ _, 0) t Ht) as Hrun end.
  do 4 (feed Hrun; [done|]). feed Hrun.
  { intros k u Hk Hu%evolves_ok. destruct (map_new_page_spec u cr3 (stack_low + 4096 * k) Hu) as [Hev Hr].
    { apply stack_user. unfold stack_low, PROCESS_USER_STACK_TOP, PROCESS_USER_STACK_SIZE. lia. }
    { unfold stack_low, PROCESS_USER_STACK_TOP, PROCESS_USER_STACK_SIZE. dlia. }
    destruct (map_new_page _ _ _) as [[f|] u']; cbn [fst snd] in *; unfold page_step.
    - destruct Hr as (Htk & Hn & Hf & Hz & Hpk). do 4 (split; [done|]). intros w Hw.
      rewrite (uview_of _ _ w f) by (rewrite <- Hf; by apply uframe_page). f_equal. apply Hz, in_page_offset.
    - destruct Hr as [Hwhy Hpk]. done. }
  assert (∀ w, in_pages stack_low 64 w ↔ stack_low ≤ w < PROCESS_USER_STACK_TOP) as Hrange.
  { intros w. unfold in_pages, stack_low, PROCESS_USER_STACK_TOP, PROCESS_USER_STACK_SIZE. lia. }
  destruct (for_ _ _ _ _) as [u|u]; destruct Hrun as (Hev & Hpk & Hr); cbn [fst snd]; (split; [done|]); split.
  - intros w Hw Hni. apply Hpk; [done|]. by rewrite Hrange.
  - assert (∀ w, stack_low ≤ w < PROCESS_USER_STACK_TOP → uview (vmem u) cr3 w = Some 0) as Hz
      by (intros w Hw; apply Hr; by rewrite Hrange).
    split; [|done]. intros w Hw Hn. specialize (Hz w Hw). unfold uview in Hz. by rewrite Hn in Hz.
  - intros w Hw Hni. apply Hpk; [done|]. by rewrite Hrange.
  - destruct Hr as [|(w & Hw & Hl)]; [by left|right]. exists w. by rewrite <- Hrange.
Qed.

(** ** Relocations *)

(** The slot and the value of entry [i]: [None] for an entry that is skipped. *)
Definition slot_of (base : Z) (r : rela) : Z := u64 (base + rela_offset r).

(** The image file in kernel bytes, and a table of entries that can be applied. *)
Record relocs_ok t (cr3 image size base : Z) (dyn : elf_dynamic) (n : Z) (slots : Z → option (Z * Z)) : Prop := {
  rl_kernel : ∀ o, 0 ≤ o < size → kernel_byte t cr3 (image + o);
  rl_entry : ∀ i, 0 ≤ i < n → ∃ r v, rela_at (image_get (vmem t) image size) dyn i = Some r ∧
    rela_value (image_get (vmem t) image size) size dyn base r = Some v ∧
    slots i = match v with Some v => Some (slot_of base r, v) | None => None end;
  rl_slot : ∀ i w v, 0 ≤ i < n → slots i = Some (w, v) →
    uaddr w ∧ w + 8 ≤ 2 ^ 48 ∧ w mod 4096 + 8 ≤ 4096 ∧ uframe (vmem t) cr3 w ≠ None;
  rl_apart : ∀ i j w v w' v', 0 ≤ i < n → 0 ≤ j < n → i ≠ j →
    slots i = Some (w, v) → slots j = Some (w', v') → w + 8 ≤ w' ∨ w' + 8 ≤ w
}.

(** Reading the image only depends on its bytes. *)
Lemma image_get_ext m m' image size o :
  (∀ o, 0 ≤ o < size → m' (image + o) = m (image + o)) → image_get m' image size o = image_get m image size o.
Proof. intros H. unfold image_get, load8. destruct (_ && _) eqn:E; [|done]. by rewrite H by lia. Qed.

Lemma le16_ext g g' o : (∀ o, g' o = g o) → le16_of g' o = le16_of g o.
Proof. intros H. unfold le16_of. by rewrite !H. Qed.
Lemma le64_ext g g' o : (∀ o, g' o = g o) → le64_of g' o = le64_of g o.
Proof. intros H. unfold le64_of, le32_of. by rewrite !H. Qed.

Lemma rela_at_ext g g' dyn i : (∀ o, g' o = g o) → rela_at g' dyn i = rela_at g dyn i.
Proof. intros H. unfold rela_at. by rewrite !(le64_ext g g'). Qed.
Lemma rela_value_ext g g' size dyn base r : (∀ o, g' o = g o) → rela_value g' size dyn base r = rela_value g size dyn base r.
Proof. intros H. unfold rela_value, resolve_symbol. by rewrite !(le64_ext g g'), !(le16_ext g g'). Qed.
(** The state after the first [i] entries. *)
Definition relocated cr3 (slots : Z → option (Z * Z)) (i : Z) t u : Prop :=
  evolves cr3 t u ∧ (∀ w, uframe (vmem u) cr3 w = uframe (vmem t) cr3 w) ∧
  (∀ j w v, 0 ≤ j < i → slots j = Some (w, v) → uword (vmem u) cr3 w v) ∧
  ∀ x, uaddr x → (∀ j w v, 0 ≤ j < i → slots j = Some (w, v) → x < w ∨ w + 8 ≤ x) →
    uview (vmem u) cr3 x = uview (vmem t) cr3 x.

Lemma relocated_write cr3 image size base dyn n slots t u u' i w v :
  relocs_ok t cr3 image size base dyn n slots → relocated cr3 slots i t u → 0 ≤ i < n →
  slots i = Some (w, v) → uwrite cr3 w (w + 8) u u' → uword (vmem u') cr3 w v → relocated cr3 slots (i + 1) t u'.
Proof.
  intros Hok (He & Hf & Hd & Hk) Hi Hs Hw Hword. split; [by eapply evolves_trans; [|apply Hw]|].
  split; [intros x; destruct Hw as (_ & -> & _); apply Hf|]. split.
  - intros j w' v' Hj Hs'. destruct (decide (j = i)) as [-> |Hne]; [by simplify_eq|].
    destruct (rl_slot _ _ _ _ _ _ _ _ Hok j w' v' ltac:(lia) Hs') as (Hu & H48 & _).
    apply (uword_kept _ _ _ _ _ _ _ Hw); [done|done| |by apply (Hd j); [lia|]].
    destruct (rl_apart _ _ _ _ _ _ _ _ Hok j i w' v' w v ltac:(lia) ltac:(lia) Hne Hs' Hs); [right|left]; lia.
  - intros x Hx Hout. destruct Hw as (_ & _ & ->); [|done|].
    + apply Hk; [done|]. intros j w' v' Hj. apply Hout. lia.
    + destruct (Hout i w v ltac:(lia) Hs); lia.
Qed.

Lemma reloc_step_spec cr3 image size base dyn n slots t u i :
  relocs_ok t cr3 image size base dyn n slots → relocated cr3 slots i t u → 0 ≤ i < n →
  ∃ u', reloc_step cr3 image size base dyn i (vmem u) = inl (vmem u') ∧ relocated cr3 slots (i + 1) t u'.
Proof.
  intros Hok Hrel Hi. pose proof Hrel as (He & Hf & _). pose proof He as ((Hsp & _) & Hkb & _).
  assert (∀ o, image_get (vmem u) image size o = image_get (vmem t) image size o) as Hg.
  { intros o. apply image_get_ext. intros o' Ho'. apply (Hkb (image + o')), (rl_kernel _ _ _ _ _ _ _ _ Hok o' Ho'). }
  destruct (rl_entry _ _ _ _ _ _ _ _ Hok i Hi) as (r & v & Er & Ev & Es). unfold reloc_step.
  rewrite (rela_at_ext _ _ dyn i Hg), Er. obind. rewrite (rela_value_ext _ _ size dyn base r Hg), Ev. obind.
  destruct v as [v|].
  - fold (slot_of base r). destruct (rl_slot _ _ _ _ _ _ _ _ Hok i _ _ Hi Es) as (Hu & H48 & Hpg & Hm).
    rewrite <- Hf in Hm. destruct (uframe (vmem u) cr3 (slot_of base r)) as [f|] eqn:Ef; [|done].
    destruct (store64_page cr3 u (slot_of base r) v f Hsp Hu Ef Hpg) as [Hw Hword].
    destruct (uframe_spec _ _ _ _ (sp_mem u cr3 Hsp) Ef) as (_ & Hf0 & _ & Etr).
    replace (paging_translate (vmem u) cr3 (slot_of base r) =? 0) with false.
    2:{ symmetry. rewrite Etr. pose proof (Z.mod_pos_bound (slot_of base r) 4096). lia. }
    eexists (with_vmem u _). split; [done|]. by eapply relocated_write.
  - exists u. split; [done|]. destruct Hrel as (_ & _ & Hd & Hk). split; [done|]. split; [done|]. split.
    + intros j w v Hj Hs. apply (Hd j); [|done]. destruct (decide (j = i)) as [-> |]; [congruence|lia].
    + intros x Hx Hout. apply Hk; [done|]. intros j w v Hj. apply Hout. lia.
Qed.

(** relocation.  When the dynamic section names a table inside the file and every
    slot it selects is mapped, inside a page and apart from the others, the loop
    succeeds: each slot then holds base + addend, or the address of its symbol (plus
    the addend), entries of other types and of undefined symbols change nothing, and
    neither do any other byte of the process or the file itself. *)
Theorem apply_relocations_correct cr3 image size base dyn slots t :
  space_ok t cr3 → image ≠ 0 →
  elf64_parse_dynamic (image_get (vmem t) image size) size false = Some (true, dyn) →
  dyn_present dyn = true → sizeof_rela ≤ dyn_rela_ent dyn → 0 ≤ dyn_rela_size dyn →
  relocs_ok t cr3 image size base dyn (dyn_rela_size dyn / dyn_rela_ent dyn) slots →
  ∃ u, apply_relocations cr3 image size base t = Some (true, with_vmem t (vmem u)) ∧
    relocated cr3 slots (dyn_rela_size dyn / dyn_rela_ent dyn) t u.
Proof.
  intros Ht Him Hdyn Hpr Hent Hsz Hok. unfold apply_relocations. replace (image =? 0) with false by lia.
  rewrite Hdyn. obind. rewrite Hpr. cbn [negb orb]. replace (dyn_rela_ent dyn <? sizeof_rela) with false by lia.
  set (n := dyn_rela_size dyn / dyn_rela_ent dyn) in *.
  assert (0 ≤ n) as Hn by (apply Z.div_pos; [lia|unfold sizeof_rela in Hent; lia]). clearbody n.
  pose proof (for_ind (λ i m, ∃ u, m = vmem u ∧ relocated cr3 slots i t u) (λ _, False) 0 n
    (reloc_step cr3 image size base dyn) (vmem t) Hn) as Hrun.
  feed Hrun.
  { exists t. split; [done|]. split; [by apply evolves_refl|]. split; [done|]. split; [intros; lia|done]. }
  feed Hrun.
  { intros i m Hi (u & -> & Hu). destruct (reloc_step_spec cr3 image size base dyn n slots t u i Hok Hu Hi) as (u' & -> & Hu').
    by exists u'. }
  destruct (for_ _ _ _ _) as [m|r]; [|done]. destruct Hrun as (u & -> & Hu). by exists u.
Qed.

(** The address a position-independent program is loaded at is a multiple of
    2 MiB between 1 GiB and 1.5 GiB, for every pid. *)
Lemma pie_base_range pid :
  PAGING_USER_BASE ≤ pie_base pid < PAGING_USER_BASE + PIE_BASE_RANGE ∧ pie_base pid mod PAGING_HUGE = 0.
Proof.
  unfold pie_base, PIE_BASE_MIN, PIE_BASE_RANGE, PAGING_USER_BASE, PAGING_HUGE.
  set (x := u64 (pid * _ + _)). pose proof (Z.mod_pos_bound x (512 * 1024 * 1024) ltac:(lia)) as Hx.
  set (y := x mod (512 * 1024 * 1024)) in *. clearbody y. change 0x1FFFFF with (2 ^ 21 - 1).
  rewrite round_down_mask by (unfold is_u64; lia). change (2 ^ 21) with 2097152.
  rewrite u64_small by dlia. dlia.
Qed.
End Composed.
