(* ===== verification/ImageDemo.v ===== *)
(** The image loader's theorems at concrete address spaces.

    The tables at 64 KiB map one huge page, chosen by its index in the second and
    third level, to the 2 MiB at 4 MiB; frames 5 and 6 are free.  One instance has
    the huge page under the user stack, the other at 1 GiB + 2 MiB, beside which a
    segment is loaded. *)

From stdpp Require Import prelude numbers list.
From Stdlib Require Import ZArith Lia.
From S2P Require Import Prelude Memory Frames Pmm Paging Space Bytes Pcb Elf Image.

Open Scope Z_scope.

(** The two free frames. *)
Lemma pmm_56_avail g : fa_avail pmm_56 g → g = 5 ∨ g = 6.
Proof.
  assert (∀ g, ¬ fa_avail pmm_bss g) as H0.
  { intros h [_ Hh]. rewrite frame_is_free_bit in Hh. change (bitmap pmm_bss (h / 8)) with 0 in Hh. by rewrite Z.testbit_0_l in Hh. }
  assert (fa_ok pmm_bss) as Hi0 by apply pmm_inv_bss.
  destruct (fa_free_spec 20480 pmm_bss Hi0 ltac:(lia)) as [Hi1 H1].
  destruct (fa_free_spec 24576 (fa_free 20480 pmm_bss) Hi1 ltac:(lia)) as [_ H2].
  change pmm_56 with (fa_free 24576 (fa_free 20480 pmm_bss)).
  intros [[Hg|[-> _]]%H1|[-> _]]%H2; [by destruct (H0 g)|by left|by right].
Qed.

Section OneHuge.
Context (a b : Z) (Ha : 0 ≤ a < 512) (Hb : 0 ≤ b < 512).

Definition huge_mem : mem :=
  set_entry (set_entry (set_entry (λ _, 0) 65536 0 69639) 69632 a 73735) 73728 b 4194439.
Definition huge_vm : vm pmm :=
  {| vmem := huge_mem; vframes := pmm_56; kernel_cr3 := 65536; g_lapic_base := 0 |}.

Lemma huge_entry t i :
  t mod 4096 = 0 → idx_ok i →
  entry huge_mem t i =
  if (t =? 73728) && (i =? b) then 4194439
  else if (t =? 69632) && (i =? a) then 73735
  else if (t =? 65536) && (i =? 0) then 69639 else 0.
Proof.
  intros Ht Hi. assert (idx_ok 0 ∧ idx_ok a ∧ idx_ok b) as (H0 & H1 & H2) by (unfold idx_ok; lia).
  assert (∀ m u j e, u mod 4096 = 0 → idx_ok j → is_u64 e →
    entry (set_entry m u j e) t i = if (t =? u) && (i =? j) then e else entry m t i) as Hs.
  { intros m u j e Hu Hj He. destruct ((t =? u) && (i =? j)) eqn:E.
    - bsimp. assert (t = u) as -> by lia. assert (i = j) as -> by lia. by apply entry_set_eq.
    - apply entry_set_ne; try done. lia. }
  unfold huge_mem. rewrite !Hs by (done || unfold is_u64; lia). done.
Qed.

Lemma huge_walk p :
  path_ok p →
  walk huge_mem 65536 4 p =
  match p with
  | [] => Some 65536
  | i :: p' => if i =? 0 then
      match p' with
      | [] => Some 69632
      | j :: r => match r with
                  | [] => if j =? a then Some 73728 else None
                  | _ => None
                  end
      end
    else None
  end.
Proof.
  intros [Hp Hl]. destruct p as [|i p]; [done|]. apply Forall_cons in Hp as [Hi Hp].
  simpl. rewrite huge_entry by done. simpl. destruct (i =? 0); [|done]. simpl.
  change (e_base 69639) with 69632. destruct p as [|j p]; [done|].
  apply Forall_cons in Hp as [Hj Hp]. simpl. rewrite huge_entry by done. simpl.
  destruct (j =? a); [|by destruct p]. simpl. change (e_base 73735) with 73728.
  destruct p as [|k p]; [done|]. apply Forall_cons in Hp as [Hk Hp]. simpl.
  rewrite huge_entry by done. simpl. by destruct (k =? b).
Qed.

Lemma huge_table p t : path_ok p → walk huge_mem 65536 4 p = Some t → t = 65536 ∨ t = 69632 ∨ t = 73728.
Proof.
  intros Hp. rewrite huge_walk by done. destruct p as [|i [|j [|k p]]]; intros; repeat split_if; simplify_eq/=; tauto.
Qed.

Lemma huge_vm_ok : vm_ok huge_vm 65536.
Proof.
  split; [split|split].
  - intros p q t Hp Hq. cbn [vmem huge_vm]. rewrite !huge_walk by done.
    destruct p as [|i [|j [|k p]]], q as [|i' [|j' [|k' q]]]; intros; repeat split_if;
      simplify_eq/=; try done;
      repeat match goal with H : (_ =? _) = true |- _ => apply Z.eqb_eq in H; subst end; done.
  - intros p t Hp Hw. by destruct (huge_table p t Hp Hw) as [-> |[-> | ->]].
  - apply pmm_inv_56.
  - intros p t Hp Hw [_ Hf]. by destruct (huge_table p t Hp Hw) as [-> |[-> | ->]]; vm_compute in Hf.
Qed.

Lemma huge_mem_ok : mem_ok huge_mem.
Proof. unfold huge_mem. repeat apply mem_ok_store64. intros x. lia. Qed.

Lemma huge_leaf v :
  0 ≤ v < 2 ^ 48 →
  leaf huge_mem 65536 v = if v / 2097152 =? a * 512 + b then Some (true, 4194439) else None.
Proof.
  intros Hv. assert (PML4_IDX v = v / 2097152 / 512 / 512 ∧ PDPT_IDX v = v / 2097152 / 512 mod 512 ∧ PD_IDX v = v / 2097152 mod 512) as (E4 & E3 & E2).
  { unfold PML4_IDX, PDPT_IDX, PD_IDX. rewrite !idx_val by lia. simpl (2 ^ _). dlia. }
  set (q := v / 2097152) in *. assert (0 ≤ q < 134217728) as Hq by (unfold q; dlia). clearbody q.
  unfold leaf. rewrite huge_entry by (done || apply pml4_idx_ok). rewrite E4. cbn [Z.eqb andb].
  destruct (Z.eqb_spec (q / 512 / 512) 0) as [H4|H4].
  2:{ cbn. replace (q =? a * 512 + b) with false; [done|]. symmetry. apply Z.eqb_neq. dlia. }
  cbn [present truthy negb]. change (present 69639) with true. change (e_base 69639) with 69632. cbn [negb].
  rewrite huge_entry by (done || apply pdpt_idx_ok). rewrite E3. cbn [Z.eqb andb Pos.eqb].
  destruct (Z.eqb_spec (q / 512 mod 512) a) as [H3|H3].
  2:{ cbn. replace (q =? a * 512 + b) with false; [done|]. symmetry. apply Z.eqb_neq. dlia. }
  change (present 73735) with true. change (e_base 73735) with 73728. cbn [negb].
  rewrite huge_entry by (done || apply pd_idx_ok). rewrite E2. cbn [Z.eqb andb Pos.eqb].
  destruct (Z.eqb_spec (q mod 512) b) as [H2|H2].
  - replace (q =? a * 512 + b) with true; [done|]. symmetry. apply Z.eqb_eq. dlia.
  - cbn. replace (q =? a * 512 + b) with false; [done|]. symmetry. apply Z.eqb_neq. dlia.
Qed.

Lemma huge_frame v :
  uaddr v →
  uframe huge_mem 65536 v =
  if v / 2097152 =? a * 512 + b then Some (4194304 + (v - v mod 4096) mod 2097152) else None.
Proof.
  intros Hv. unfold uframe. pose proof (uaddr_start v Hv) as Hv0. unfold uaddr, PAGING_USER_BASE in *.
  cbv zeta. rewrite translate_leaf, huge_leaf by lia.
  replace ((v - v mod 4096) / 2097152) with (v / 2097152) by dlia. destruct (v / 2097152 =? a * 512 + b); [|done].
  cbn [leaf_addr]. change (e_base_large 4194439) with 4194304. rewrite land_huge.
  pose proof (Z.mod_pos_bound (v - v mod 4096) 2097152 ltac:(lia)). rewrite u64_small by lia.
  by destruct (Z.eqb_spec (4194304 + (v - v mod 4096) mod 2097152) 0); [lia|].
Qed.

Lemma huge_space_ok : space_ok huge_vm 65536.
Proof.
  split; [apply huge_vm_ok|apply huge_mem_ok| | |].
  - intros v f Hv. cbn [vmem vframes huge_vm]. rewrite huge_frame by done. destruct (_ =? _); [|done]. intros [= <-].
    pose proof (Z.mod_pos_bound (v - v mod 4096) 2097152 ltac:(lia)). split.
    + assert (1024 ≤ (4194304 + (v - v mod 4096) mod 2097152) / 4096 < 1536) as Hr by dlia.
      intros [Hf|Hf]%pmm_56_avail; rewrite Hf in Hr; lia.
    + intros p t Hp Hw ->. destruct (huge_table p _ Hp Hw) as [E|[E|E]]; lia.
  - intros v w f Hv Hw. cbn [vmem huge_vm]. rewrite !huge_frame by done.
    destruct (Z.eqb_spec (v / 2097152) (a * 512 + b)), (Z.eqb_spec (w / 2097152) (a * 512 + b)); try done.
    intros [= <-] [= E]. dlia.
  - intros v Hv. cbn [vmem huge_vm]. rewrite huge_frame, huge_leaf by (done || unfold uaddr, PAGING_USER_BASE in Hv; lia).
    by destruct (_ =? _).
Qed.
End OneHuge.

(** ** Loading a segment *)

Definition demo_seg : elf_segment := ElfSegment 16 4 3 5.

Lemma demo_segment_ok : segment_ok (huge_vm 1 1) 65536 1048576 demo_seg 1077936144.
Proof.
  split; [done|done|cbn; lia|cbn; lia|].
  intros o Ho. cbn [seg_offset seg_filesz demo_seg] in *. split; [|split].
  - intros [H|H]%pmm_56_avail; assert ((1048576 + (4 + o)) / 4096 = 256) by dlia; lia.
  - intros p t Hp _ Hw. destruct (huge_table 1 1 ltac:(lia) ltac:(lia) p t Hp Hw) as [-> |[-> | ->]]; unfold in_page; lia.
  - intros v f Hv. cbn [vmem huge_vm]. rewrite huge_frame by (done || lia). destruct (_ =? _); [|done]. intros [= <-].
    pose proof (Z.mod_pos_bound (v - v mod 4096) 2097152 ltac:(lia)). unfold in_page. lia.
Qed.

Lemma map_segment_witness :
  (map_segment 65536 1048576 demo_seg 1077936128 (huge_vm 1 1)).1 = true ∧
  uview (vmem (map_segment 65536 1048576 demo_seg 1077936128 (huge_vm 1 1)).2) 65536 1077936145 = Some 0.
Proof.
  assert ((map_segment 65536 1048576 demo_seg 1077936128 (huge_vm 1 1)).1 = true) as E by (vm_compute; reflexivity).
  split; [exact E|].
  pose proof (map_segment_correct (huge_vm 1 1) 65536 1048576 demo_seg 1077936128
    (huge_space_ok 1 1 ltac:(lia) ltac:(lia)) demo_segment_ok) as H.
  apply proj2, proj2 in H. rewrite E in H. destruct (H 1077936145) as [_ Hv]; [by split|].
  rewrite Hv. vm_compute. reflexivity.
Defined.

(** ** A stack *)

Definition demo_argv : list (list Z) := [[97; 98]; [99]].
Definition demo_envp : list (list Z) := [[120; 61; 49]].

Lemma demo_stack_mapped : stack_mapped (vmem (huge_vm 255 511)) 65536.
Proof.
  intros w Hw. cbn [vmem huge_vm]. rewrite huge_frame by (lia || by apply stack_user).
  replace (w / 2097152 =? 255 * 512 + 511) with true; [done|]. symmetry. apply Z.eqb_eq.
  unfold stack_low, PROCESS_USER_STACK_TOP, PROCESS_USER_STACK_SIZE in Hw. dlia.
Qed.

Lemma demo_exec_fits : exec_fits demo_argv demo_envp.
Proof.
  split; try (vm_compute; lia); try (vm_compute; congruence).
  - vm_compute. split_and!; try done; try congruence. repeat constructor; congruence.
  - vm_compute. split_and!; try done; try congruence; repeat constructor; congruence.
Qed.


Lemma exec_arguments_witness :
  ∃ sp m', build_exec_stack 65536 demo_argv demo_envp (vmem (huge_vm 255 511)) = Some (sp, m') ∧
    ∃ a, uword m' 65536 (sp + 8 + 8 * Z.of_nat 0) a ∧ user_cstr m' 65536 a = Some [97; 98].
Proof.
  destruct (exec_arguments_roundtrip 65536 demo_argv demo_envp (huge_vm 255 511) 0 [97; 98]
    (huge_space_ok 255 511 ltac:(lia) ltac:(lia)) demo_stack_mapped demo_exec_fits) as (sp & m' & E & Ha & _).
  - repeat constructor; congruence.
  - simpl. lia.
  - exists sp, m'. split; [exact E|]. apply Ha. reflexivity.
Defined.

Lemma map_user_stack_witness :
  let r := map_user_stack 65536 (huge_vm 1 1) in
  evolves 65536 (huge_vm 1 1) r.2 ∧
  pages_kept 65536 (λ w, stack_low ≤ w < PROCESS_USER_STACK_TOP) (huge_vm 1 1) r.2.
Proof.
  destruct (map_user_stack_correct 65536 (huge_vm 1 1) (huge_space_ok 1 1 ltac:(lia) ltac:(lia))) as (H1 & H2 & _).
  exact (conj H1 H2).
Defined.

(** ** Relocations *)

(** A position-independent file with one relocation: the word at 8 becomes base + 16. *)
Definition le (n : nat) (v : Z) : list Z := (λ k, u8 (Z.shiftr v (8 * Z.of_nat k))) <$> seq 0 n.
Definition rela_file : list Z :=
  [127; 69; 76; 70; 2; 1] ++ replicate 10 0 ++ le 2 3 ++ le 2 62 ++ le 4 1 ++ le 8 0 ++ le 8 64 ++ le 8 0 ++
  le 4 0 ++ le 2 64 ++ le 2 56 ++ le 2 2 ++ replicate 6 0 ++
  le 4 1 ++ le 4 7 ++ le 8 0 ++ le 8 0 ++ le 8 0 ++ le 8 248 ++ le 8 248 ++ le 8 4096 ++
  le 4 2 ++ le 4 6 ++ le 8 176 ++ le 8 176 ++ le 8 176 ++ le 8 48 ++ le 8 48 ++ le 8 8 ++
  le 8 7 ++ le 8 224 ++ le 8 8 ++ le 8 24 ++ le 8 9 ++ le 8 24 ++
  le 8 8 ++ le 8 8 ++ le 8 16.
Definition rela_mem : mem := store_list (huge_mem 1 1) 1048576 rela_file.
Definition rela_vm : vm pmm := with_vmem (huge_vm 1 1) rela_mem.
Definition rela_dyn : elf_dynamic := ElfDynamic true 224 24 24 0 0 0 0.
Definition rela_slots (i : Z) : option (Z * Z) := if i =? 0 then Some (1075838984, 1075838992) else None.

Lemma rela_mem_out x : x < 1048576 ∨ 1048824 ≤ x → rela_mem x = huge_mem 1 1 x.
Proof.
  intros Hx. unfold rela_mem. rewrite store_list_at. change (Z.of_nat (length rela_file)) with 248.
  destruct ((1048576 <=? x) && (x <? 1048576 + 248)) eqn:E; [lia|done].
Qed.

Lemma rela_space : space_ok rela_vm 65536 ∧
  (∀ p, path_ok p → walk rela_mem 65536 4 p = walk (huge_mem 1 1) 65536 4 p) ∧
  ∀ w, leaf rela_mem 65536 w = leaf (huge_mem 1 1) 65536 w.
Proof.
  apply (space_ok_tables (huge_vm 1 1) 65536 rela_mem (huge_space_ok 1 1 ltac:(lia) ltac:(lia))).
  - intros x. unfold rela_mem. rewrite store_list_at. destruct (_ && _); [apply u8_range|apply huge_mem_ok].
  - intros q t Hq Hw x Hx. apply rela_mem_out.
    destruct (huge_table 1 1 ltac:(lia) ltac:(lia) q t Hq Hw) as [-> |[-> | ->]]; unfold in_page in Hx; lia.
Qed.

Lemma rela_frame v : uaddr v → uframe rela_mem 65536 v = uframe (huge_mem 1 1) 65536 v.
Proof. intros Hv. unfold uframe. by rewrite !translate_leaf, (proj2 (proj2 rela_space)). Qed.

Lemma rela_relocs_ok : relocs_ok rela_vm 65536 1048576 248 1075838976 rela_dyn 1 rela_slots.
Proof.
  split.
  - intros o Ho. split; [|split].
    + intros [H|H]%pmm_56_avail; assert ((1048576 + o) / 4096 = 256) by dlia; lia.
    + intros p t Hp _. cbn [vmem rela_vm with_vmem]. rewrite (proj1 (proj2 rela_space)) by done. intros Hw.
      destruct (huge_table 1 1 ltac:(lia) ltac:(lia) p t Hp Hw) as [-> |[-> | ->]]; unfold in_page; lia.
    + intros v f Hv. cbn [vmem rela_vm with_vmem]. rewrite rela_frame, huge_frame by (done || lia).
      destruct (_ =? _); [|done]. intros [= <-].
      pose proof (Z.mod_pos_bound (v - v mod 4096) 2097152 ltac:(lia)). unfold in_page. lia.
  - intros i Hi. assert (i = 0) as -> by lia. exists (Rela 8 8 16), (Some 1075838992).
    split; [vm_compute; reflexivity|]. split; vm_compute; reflexivity.
  - intros i w v Hi. unfold rela_slots. destruct (i =? 0); [|done]. intros [= <- <-].
    assert (uaddr 1075838984) as Hu by (unfold uaddr, PAGING_USER_BASE; lia).
    split; [done|]. split; [lia|]. split; [vm_compute; congruence|].
    cbn [vmem rela_vm with_vmem]. by rewrite rela_frame, huge_frame by (done || lia).
  - intros i j ???? Hi Hj. lia.
Qed.

Lemma apply_relocations_witness :
  ∃ u : vm pmm, apply_relocations 65536 1048576 248 1075838976 rela_vm = Some (true, with_vmem rela_vm (vmem u)) ∧
    uword (vmem u) 65536 1075838984 1075838992.
Proof.
  destruct (apply_relocations_correct 65536 1048576 248 1075838976 rela_dyn rela_slots rela_vm) as (u & E & Hr).
  - exact (proj1 rela_space).
  - lia.
  - vm_compute. reflexivity.
  - reflexivity.
  - vm_compute. congruence.
  - vm_compute. congruence.
  - exact rela_relocs_ok.
  - exists u. split; [exact E|]. destruct Hr as (_ & _ & Hd & _). apply (Hd 0); [vm_compute; split; congruence|reflexivity].
Defined.
