(* ===== verification/Spaces.v ===== *)
(** Several address spaces in one memory (mem/mm/paging.c).

    Every process has its own tree of tables; the tables of the first GiB are the
    kernel's and shared, and the 2 MiB of the local APIC show up in every space.
    [spaces_ok] is the invariant of a set of spaces: each is well formed, the shared
    part is that of the kernel, and otherwise no byte belongs to two of them.  An
    operation on one space that keeps the bytes outside of it ([moves]) keeps the
    invariant, and shows nothing of itself to the others ([moves_spaces]).  The
    sections that follow prove the three operations of paging.c on whole spaces:
    [paging_new_address_space] adds a space, [paging_clone_user_space] copies the user
    pages of one space into another, [paging_free_address_space] gives the frames of a
    space back. *)

From stdpp Require Import prelude numbers list gmap.
From Stdlib Require Import ZArith Lia.
From S2P Require Import Prelude Memory Frames Pmm Paging Space Elf Image.

Open Scope Z_scope.

Section Spaces.
Context {A : Type} `{!FrameAllocator A, !FrameAllocatorOk A}.
Implicit Types s : vm A.

(** The bytes of the local APIC. *)
Definition lapic_byte s (x : Z) : Prop :=
  g_lapic_base s ≠ 0 ∧ g_lapic_base s ≤ x < g_lapic_base s + PAGING_HUGE.

(** The address is one at which the local APIC is mapped. *)
Definition in_lapic s (v : Z) : Prop := v / PAGING_HUGE = g_lapic_base s / PAGING_HUGE.

#[local] Instance lapic_byte_dec s x : Decision (lapic_byte s x).
Proof. unfold lapic_byte. apply _. Defined.
#[local] Instance in_lapic_dec s v : Decision (in_lapic s v).
Proof. unfold in_lapic. apply _. Defined.

(** The bytes of a space's own tables, of its user pages, and of the shared tables. *)
Definition table_byte s (c x : Z) : Prop :=
  ∃ p t, path_ok p ∧ half p = false ∧ walk (vmem s) c 4 p = Some t ∧ in_page t x.
Definition user_byte s (c x : Z) : Prop :=
  ∃ v f, uaddr v ∧ uframe (vmem s) c v = Some f ∧ in_page f x.
Definition half_byte s (c x : Z) : Prop :=
  ∃ p t, path_ok p ∧ half p = true ∧ walk (vmem s) c 4 p = Some t ∧ in_page t x.
Definition used s (c x : Z) : Prop := table_byte s c x ∨ user_byte s c x.

Lemma kernel_byte_used s c x : kernel_byte s c x ↔ ¬ fa_avail (vframes s) (x / 4096) ∧ ¬ used s c x.
Proof.
  unfold kernel_byte, used, table_byte, user_byte. split.
  - intros (Ha & Ht & Hu). split; [done|]. intros [(p & t & ? & ? & ? & ?)|(v & f & ? & ? & ?)]; [by eapply Ht|by eapply Hu].
  - intros [Ha Hu]. split; [done|]. split.
    + intros p t ? ? ? ?. apply Hu. left. by exists p, t.
    + intros v f ? ? ?. apply Hu. right. by exists v, f.
Qed.

Lemma path_first : path_ok [0; 0].
Proof. split; [repeat constructor; unfold idx_ok; lia|simpl; lia]. Qed.

(** A byte that belongs to a space is not free. *)
Lemma page_frame t x : t mod 4096 = 0 → in_page t x → x / 4096 = t / 4096.
Proof. unfold in_page. intros. dlia. Qed.

Lemma table_taken s c x p t :
  space_ok s c → path_ok p → walk (vmem s) c 4 p = Some t → in_page t x → ¬ fa_avail (vframes s) (x / 4096).
Proof.
  intros Hs Hp Hw Hx. destruct (sp_vm s c Hs) as (Ht & _ & Hap).
  rewrite (page_frame t x); [by apply (Hap p)|by apply (tree_page _ _ Ht p)|done].
Qed.

Lemma used_taken s c x : space_ok s c → used s c x → ¬ fa_avail (vframes s) (x / 4096).
Proof.
  intros Hs [(p & t & Hp & _ & Hw & Hx)|(v & f & Hv & Hf & Hx)]; [by eapply table_taken|].
  rewrite (page_frame f x); [by apply (sp_frame s c Hs v)|by apply (uframe_spec _ _ _ _ (sp_mem s c Hs) Hf)|done].
Qed.

(** The shared tables are no part of a space's own bytes. *)
Lemma half_not_used s c x : space_ok s c → half_byte s c x → ¬ used s c x.
Proof.
  intros Hs (p & t & Hp & Hh & Hw & Hx). pose proof (sp_vm s c Hs) as (Ht & _).
  pose proof (tree_page _ _ Ht p t Hp Hw) as Ht4.
  intros [(q & u & Hq & Hhq & Hwq & Hxq)|(v & f & Hv & Hf & Hxf)].
  - assert (u = t) as -> by (apply (pages_disjoint u t x); try done; by apply (tree_page _ _ Ht q)).
    rewrite (tree_inj _ _ Ht q p t) in Hhq; congruence.
  - destruct (sp_frame s c Hs v f Hv Hf) as [_ Hne]. apply (Hne p t Hp Hw). apply (pages_disjoint t f x); try done.
    by apply (uframe_spec _ _ _ _ (sp_mem s c Hs) Hf).
Qed.

Lemma half_kernel s c x : space_ok s c → half_byte s c x → kernel_byte s c x.
Proof.
  intros Hs Hx. apply kernel_byte_used. split; [|by apply half_not_used].
  destruct Hx as (p & t & ? & _ & ? & ?). by eapply table_taken.
Qed.

Record spaces_ok s (S : gset Z) : Prop := {
  ss_space : ∀ c, c ∈ S → space_ok s c;
  ss_kernel : kernel_cr3 s ∈ S;
  ss_first : is_Some (walk (vmem s) (kernel_cr3 s) 4 [0; 0]);
  ss_half : ∀ c p, c ∈ S → path_ok p → half p = true →
    walk (vmem s) c 4 p = walk (vmem s) (kernel_cr3 s) 4 p;
  ss_apart : ∀ c d x, c ∈ S → d ∈ S → c ≠ d → used s c x → used s d x → lapic_byte s x;
  ss_lapic : ∀ x, lapic_byte s x → ¬ fa_avail (vframes s) (x / 4096) ∧ ¬ half_byte s (kernel_cr3 s) x;
  ss_lapic_table : ∀ c x, c ∈ S → lapic_byte s x → ¬ table_byte s c x;
  ss_lapic_user : ∀ c v f x, c ∈ S → uaddr v → uframe (vmem s) c v = Some f → in_page f x → lapic_byte s x → in_lapic s v;
  ss_pos : ∀ c, c ∈ S → 0 < c;
  ss_lapic_ok : lapic_ok s;
  ss_root : ∀ i, 1 ≤ i < 512 → present (entry (vmem s) (kernel_cr3 s) i) = false
}.

(** The kernel's own tables are as [paging_new_address_space] needs them. *)
Lemma spaces_kernel s S : spaces_ok s S → kernel_ok s.
Proof.
  intros Ho. pose proof (ss_space s S Ho _ (ss_kernel s S Ho)) as Hs. destruct (ss_first s S Ho) as [pd Hpd].
  simpl in Hpd. unfold is_table in Hpd. simpl in Hpd. rewrite !andb_true_r in Hpd.
  split; [apply Hs|]. split; [apply Hs|]. destruct (present (entry (vmem s) (kernel_cr3 s) 0)); [|done].
  split; [done|]. split; [apply (ss_root s S Ho)|]. by destruct (present _).
Qed.

(** The own bytes of a space are given by its walks and leaves. *)
Lemma used_ext s s' d x :
  (∀ p, path_ok p → walk (vmem s') d 4 p = walk (vmem s) d 4 p) → (∀ w, leaf (vmem s') d w = leaf (vmem s) d w) →
  used s' d x ↔ used s d x.
Proof.
  intros Hw Hl. assert (∀ v, uframe (vmem s') d v = uframe (vmem s) d v) as Hu by (intros v; unfold uframe; by rewrite !translate_leaf, Hl).
  unfold used, table_byte, user_byte. split; (intros [(p & t & Hp & Hh & Hwp & Hx)|(v & f & Hv & Hf & Hx)]; [left; exists p, t|right; exists v, f]).
  1,3: split_and!; try done; first [by rewrite <- Hw|by rewrite Hw].
  all: split_and!; try done; first [by rewrite <- Hu|by rewrite Hu].
Qed.

(** A byte that belongs to no space and is not free: the kernel's own data. *)
Definition apart s (S : gset Z) (x : Z) : Prop :=
  ¬ fa_avail (vframes s) (x / 4096) ∧ ¬ lapic_byte s x ∧ ∀ c, c ∈ S → ¬ used s c x ∧ ¬ half_byte s c x.

(** The same tables in another memory show the same space. *)
Lemma space_ok_frame s s' d :
  space_ok s d → mem_ok (vmem s') → fa_ok (vframes s') →
  (∀ x, half_byte s d x ∨ table_byte s d x → vmem s' x = vmem s x) →
  (∀ x, half_byte s d x ∨ used s d x → ¬ fa_avail (vframes s') (x / 4096)) →
  space_ok s' d ∧ (∀ p, path_ok p → walk (vmem s') d 4 p = walk (vmem s) d 4 p) ∧
  ∀ w, leaf (vmem s') d w = leaf (vmem s) d w.
Proof.
  intros Hs Hm Hfa Htab Hav.
  assert (∀ q t, path_ok q → walk (vmem s) d 4 q = Some t → ∀ x, in_page t x → half_byte s d x ∨ table_byte s d x) as Hcl.
  { intros q t Hq Hw x Hx. destruct (half q) eqn:Eh; [left|right]; by exists q, t. }
  destruct (space_ok_tables s d (vmem s') Hs Hm) as ([Hvm _ Hfr Hi Hmp] & Hw & Hl).
  { intros q t Hq Hwq x Hx. eapply Htab, Hcl; eauto. }
  cbn [vmem vframes with_vmem] in *. destruct Hvm as (Ht & _ & _).
  split; [|done]. split; [split; [done|split; [done|]]|done| |done|done].
  - intros p t Hp Hwp. assert (half_byte s d t ∨ table_byte s d t) as Ht'.
    { rewrite Hw in Hwp by done. eapply Hcl; eauto. unfold in_page. lia. }
    apply Hav. destruct Ht'; [by left|right; by left].
  - intros v f Hv Hf. split; [|by apply (Hfr v)]. apply Hav. right. right. exists v, f. split; [done|].
    split; [|unfold in_page; lia]. unfold uframe in *. by rewrite translate_leaf, <- Hl, <- translate_leaf.
Qed.

(** ** An operation on one space *)

Definition moves (c : Z) s s' : Prop :=
  space_ok s' c ∧ new_tables c s s' ∧
  (∀ x, kernel_byte s c x → vmem s' x = vmem s x ∧ (kernel_byte s' c x ∨
     (lapic_byte s x ∧ ∀ v f, uaddr v → uframe (vmem s') c v = Some f → in_page f x → in_lapic s v))) ∧
  ∀ g, fa_avail (vframes s') g → fa_avail (vframes s) g.

Lemma evolves_moves c s s' : evolves c s s' → moves c s s'.
Proof.
  intros ((Hs & Hn) & Hk & Ha). split; [done|]. split; [done|]. split; [|done]. intros x Hx.
  destruct (Hk x Hx). auto.
Qed.

Section Moves.
Context (s s' : vm A) (S : gset Z) (c : Z).
Context (Hok : spaces_ok s S) (Hc : c ∈ S) (Hck : c ≠ kernel_cr3 s) (Hmv : moves c s s').

Local Lemma mv_space : space_ok s' c. Proof. apply Hmv. Qed.
Local Lemma mv_kernel : kernel_cr3 s' = kernel_cr3 s.
Proof. by destruct Hmv as (_ & (_ & _ & ? & _) & _). Qed.
Local Lemma mv_lapic x : lapic_byte s' x ↔ lapic_byte s x.
Proof. destruct Hmv as (_ & (_ & _ & _ & E & _) & _). unfold lapic_byte. by rewrite E. Qed.
Local Lemma mv_avail g : fa_avail (vframes s') g → fa_avail (vframes s) g.
Proof. destruct Hmv as (_ & _ & _ & Ha). apply Ha. Qed.
Local Lemma mv_byte x : kernel_byte s c x → vmem s' x = vmem s x.
Proof. destruct Hmv as (_ & _ & Hk & _). apply Hk. Qed.

Lemma half_byte_kernel s1 S1 d x :
  spaces_ok s1 S1 → d ∈ S1 → half_byte s1 d x ↔ half_byte s1 (kernel_cr3 s1) x.
Proof.
  intros Ho Hd. split; intros (p & t & Hp & Hh & Hw & Hx); exists p, t; split_and!; try done.
  - by rewrite <- (ss_half _ _ Ho d).
  - by rewrite (ss_half _ _ Ho d).
Qed.

(** The bytes of the shared tables stay, and those of the tables of another space. *)
Local Lemma mv_half x d : d ∈ S → half_byte s d x → vmem s' x = vmem s x.
Proof.
  intros Hd Hx. apply mv_byte, half_kernel; [by apply (ss_space s S)|].
  by rewrite (half_byte_kernel s S) in Hx |- *.
Qed.

Local Lemma mv_other d x : d ∈ S → d ≠ c → used s d x → ¬ lapic_byte s x → kernel_byte s c x.
Proof.
  intros Hd Hne Hu Hl. apply kernel_byte_used. split; [by eapply used_taken, Hu; apply (ss_space s S)|].
  intros Hc'. by apply Hl, (ss_apart s S Hok d c).
Qed.

Local Lemma mv_tables d x : d ∈ S → d ≠ c → half_byte s d x ∨ table_byte s d x → vmem s' x = vmem s x.
Proof.
  intros Hd Hne [Hx|Hx]; [by apply (mv_half x d)|]. apply mv_byte, (mv_other d x Hd Hne); [by left|].
  intros Hl. by apply (ss_lapic_table s S Hok d x).
Qed.

Local Lemma mv_frame d :
  d ∈ S → d ≠ c →
  space_ok s' d ∧ (∀ p, path_ok p → walk (vmem s') d 4 p = walk (vmem s) d 4 p) ∧
  ∀ w, leaf (vmem s') d w = leaf (vmem s) d w.
Proof.
  intros Hd Hne. pose proof (ss_space s S Hok d Hd) as Hs. apply space_ok_frame; [done|..].
  - apply (sp_mem s' c mv_space).
  - by destruct (sp_vm s' c mv_space) as (_ & ? & _).
  - intros x. by apply mv_tables.
  - intros x Hx Ha%mv_avail. destruct Hx as [(p & t & ? & _ & ? & ?)|Hx]; [by eapply table_taken|].
    by eapply used_taken.
Qed.

Local Lemma mv_used d x : d ∈ S → d ≠ c → used s' d x ↔ used s d x.
Proof.
  intros Hd Hne. destruct (mv_frame d Hd Hne) as (_ & Hw & Hl). by apply used_ext.
Qed.

Local Lemma mv_walk_half p : path_ok p → half p = true → walk (vmem s') c 4 p = walk (vmem s) c 4 p.
Proof.
  intros Hp Hh. destruct p as [|i [|j r]]; try done. cbn in Hh. assert (i = 0 ∧ j = 0) as [-> ->] by lia.
  assert (path_ok [0; 0]) as H00 by apply path_first.
  destruct (ss_first s S Hok) as [pd Hpd]. rewrite <- (ss_half s S Hok c) in Hpd by done.
  assert (walk (vmem s') c 4 [0; 0] = Some pd) as Hpd'.
  { destruct Hmv as (_ & (_ & _ & _ & _ & Hmono) & _). by apply Hmono. }
  change (0 :: 0 :: r) with ([0; 0] ++ r) in *. rewrite !walk_app, Hpd, Hpd'. cbn [length Nat.sub].
  apply walk_ext; [destruct Hp as [Hp _]; by do 2 apply Forall_cons in Hp as [_ Hp]|].
  intros q i r' u -> Hwq. assert (path_ok ([0; 0] ++ q)) as Hq.
  { rewrite (assoc app) in Hp. by eapply path_ok_app. }
  apply entry_ext; [destruct Hp as [Hp _]; by apply Forall_app in Hp as [_ [_ [? _]%Forall_cons]%Forall_app]|].
  intros x Hx. apply (mv_half x c Hc). exists ([0; 0] ++ q), u. split_and!; try done. by rewrite walk_app, Hpd.
Qed.

(** The invariant is kept; the kernel's bytes stay and the other spaces show what
    they showed. *)
Lemma moves_spaces :
  spaces_ok s' S ∧ (∀ x, apart s S x → apart s' S x ∧ vmem s' x = vmem s x) ∧
  ∀ d, d ∈ S → d ≠ c → (∀ w, leaf (vmem s') d w = leaf (vmem s) d w) ∧
    (∀ p, path_ok p → walk (vmem s') d 4 p = walk (vmem s) d 4 p ∧
       ∀ t i, walk (vmem s) d 4 p = Some t → idx_ok i → entry (vmem s') t i = entry (vmem s) t i) ∧
    ∀ w f, uaddr w → uframe (vmem s) d w = Some f → ¬ lapic_byte s (f + w mod 4096) →
      uview (vmem s') d w = uview (vmem s) d w.
Proof.
  assert (∀ d p, d ∈ S → path_ok p → half p = true → walk (vmem s') d 4 p = walk (vmem s) (kernel_cr3 s) 4 p) as Hhf.
  { intros d p Hd Hp Hh. rewrite <- (ss_half s S Hok d) by done. destruct (decide (d = c)) as [-> |Hne]; [by apply mv_walk_half|].
    by destruct (mv_frame d Hd Hne) as (_ & Hw & _); apply Hw. }
  pose proof (ss_kernel s S Hok) as Hk.
  assert (∀ d x, d ∈ S → half_byte s' d x ↔ half_byte s d x) as Hhb.
  { intros d x Hd. split; intros (p & t & Hp & Hh & Hw & Hx); exists p, t; split_and!; try done.
    - by rewrite (ss_half s S Hok d), <- (Hhf d).
    - by rewrite (Hhf d), <- (ss_half s S Hok d). }
  assert (∀ x, ¬ used s c x → ¬ fa_avail (vframes s) (x / 4096) → ¬ lapic_byte s x → ¬ used s' c x) as Hcu.
  { intros x Hx Ha Hl. destruct Hmv as (_ & _ & Hkb & _). destruct (Hkb x) as [_ [Hn'|[? _]]]; [by apply kernel_byte_used| |done].
    by apply kernel_byte_used in Hn' as [_ ?]. }
  assert (∀ d x, d ∈ S → d ≠ c → used s' d x → used s' c x → lapic_byte s x) as Hap.
  { intros d x Hd Hne Hdx Hcx. rewrite mv_used in Hdx by done. destruct (decide (lapic_byte s x)) as [|Hl]; [done|].
    destruct (Hcu x); [|by eapply used_taken, Hdx; apply (ss_space s S)|done|done]. intros Hcx'. apply Hl. by apply (ss_apart s S Hok d c). }
  split; [|split].
  - split.
    + intros d Hd. destruct (decide (d = c)) as [-> |Hne]; [apply mv_space|by apply mv_frame].
    + by rewrite mv_kernel.
    + rewrite mv_kernel, Hhf; [apply (ss_first s S Hok)|done|apply path_first|done].
    + intros d p Hd Hp Hh. rewrite mv_kernel, !Hhf; done.
    + intros d e x Hd He Hne Hdx Hex. apply mv_lapic. destruct (decide (d = c)) as [-> |Hdc]; [by apply (Hap e)|].
      destruct (decide (e = c)) as [-> |Hec]; [by apply (Hap d)|]. rewrite mv_used in Hdx, Hex by done. by apply (ss_apart s S Hok d e).
    + intros x Hx%mv_lapic. destruct (ss_lapic s S Hok x Hx) as [Ha Hh]. split; [by intros ?%mv_avail|].
      rewrite mv_kernel, Hhb; done.
    + intros d x Hd Hx%mv_lapic Htb. destruct (decide (d = c)) as [-> |Hdc].
      * destruct Htb as (p & t & Hp & Hh & Hw & Hxt). destruct Hmv as (Hs' & (Hnt & _) & _). destruct (Hnt p t Hp Hw) as [Hw'|Ha].
        -- apply (ss_lapic_table s S Hok c x Hc Hx). by exists p, t.
        -- apply (proj1 (ss_lapic s S Hok x Hx)). rewrite (page_frame t x); [done| |done].
           by apply (tree_page _ _ (proj1 (sp_vm s' c Hs')) p).
      * destruct Htb as (p & t & Hp & Hh & Hw & Hxt). destruct (mv_frame d Hd Hdc) as (_ & Hwd & _). rewrite Hwd in Hw by done.
        apply (ss_lapic_table s S Hok d x Hd Hx). by exists p, t.
    + intros d v f x Hd Hv Hf Hx Hl%mv_lapic. unfold in_lapic. destruct Hmv as (Hs' & (_ & _ & _ & El & _ & Hlf) & Hkb & _).
      rewrite El. fold (in_lapic s v). destruct (decide (d = c)) as [-> |Hdc].
      2:{ destruct (mv_frame d Hd Hdc) as (_ & _ & Hld). apply (ss_lapic_user s S Hok d v f x); try done.
          unfold uframe in *. by rewrite translate_leaf, <- Hld, <- translate_leaf. }
      destruct (decide (in_lapic s v)) as [|Hn]; [done|]. destruct (Hkb x) as [_ [Hk'|[_ Hk']]]; [| |by apply (Hk' v f)].
      * apply kernel_byte_used. split; [apply (ss_lapic s S Hok x Hl)|]. intros [Ht|(w & g & Hw & Hg & Hxg)]; [by apply (ss_lapic_table s S Hok c x)|].
        pose proof (ss_lapic_user s S Hok c w g x Hc Hw Hg Hxg Hl) as Hin. apply Hn. unfold in_lapic in *. rewrite <- Hin.
        assert (v / 4096 = w / 4096) as E; [|unfold PAGING_HUGE; clear - E; dlia]. apply (sp_inj s' c Hs' v w f); try done.
        assert (leaf (vmem s) c w ≠ None) as Hne by (intros Hne; apply uframe_leaf in Hne; congruence).
        assert (uframe (vmem s') c w = Some g) as Hg'.
        { unfold uframe in *. rewrite translate_leaf, (leaf_page _ _ _ w) by apply page_start. rewrite Hlf by done.
          by rewrite translate_leaf, (leaf_page _ _ (w - w mod 4096) w) in Hg by apply page_start. }
        rewrite Hg'. f_equal. apply (pages_disjoint g f x); try done; by eapply uframe_spec; [apply (sp_mem s' c Hs')|].
      * apply kernel_byte_used in Hk' as [_ []]. right. by exists v, f.
    + apply (ss_pos s S Hok).
    + unfold lapic_ok. destruct Hmv as (_ & (_ & _ & _ & -> & _) & _). apply (ss_lapic_ok s S Hok).
    + intros i Hi. rewrite mv_kernel. rewrite (entry_ext (vmem s)); [by apply (ss_root s S Hok)|unfold idx_ok; lia|].
      intros x Hx. apply (mv_tables (kernel_cr3 s)); try done. right. exists [], (kernel_cr3 s). split; [apply nil_path_ok|done].
  - intros x (Ha & Hl & Hn). split.
    + split; [by intros ?%mv_avail|]. split; [by rewrite mv_lapic|]. intros d Hd. destruct (Hn d Hd) as [Hu Hh]. rewrite Hhb by done.
      split; [|done]. destruct (decide (d = c)) as [-> |Hdc]; [by apply Hcu|]. by rewrite mv_used.
    + apply mv_byte, kernel_byte_used. split; [done|by apply (Hn c)].
  - intros d Hd Hne. destruct (mv_frame d Hd Hne) as (_ & Hwk & Hl). split; [done|]. split.
    { intros p Hp. split; [by apply Hwk|]. intros t i Hwt Hi. apply entry_ext; [done|]. intros x Hx.
      apply (mv_tables d x Hd Hne). destruct (half p) eqn:Eh; [left|right]; by exists p, t. }
    intros w f Hw Hf Hnl.
    unfold uview. rewrite Hf. unfold uframe in *. rewrite translate_leaf, Hl, <- translate_leaf. rewrite Hf. obind. obind. f_equal.
    apply mv_byte, (mv_other d); try done. right. exists w, f. split_and!; try done. apply in_page_offset.
Qed.
End Moves.

(** Taking frames changes nothing else. *)
Lemma spaces_frames s s' S :
  spaces_ok s S → vmem s' = vmem s → kernel_cr3 s' = kernel_cr3 s → g_lapic_base s' = g_lapic_base s →
  fa_ok (vframes s') → (∀ g, fa_avail (vframes s') g → fa_avail (vframes s) g) →
  spaces_ok s' S ∧ ∀ x, apart s S x → apart s' S x.
Proof.
  intros [H1 H2 H3 H4 H5 H6 H7 H8 H9 H10 H11] Em Ek El Hfa Ha.
  assert (∀ c x, used s' c x ↔ used s c x) as Hu by (unfold used, table_byte, user_byte; by rewrite Em).
  assert (∀ c x, half_byte s' c x ↔ half_byte s c x) as Hh by (unfold half_byte; by rewrite Em).
  assert (∀ x, lapic_byte s' x ↔ lapic_byte s x) as Hl by (unfold lapic_byte; by rewrite El).
  split; [split; rewrite ?Em, ?Ek; try done|].
  - intros c Hc. destruct (H1 c Hc) as [(Ht & _ & Hap) Hm Hfr Hi Hmp]. split; rewrite ?Em; try done.
    + split; [by rewrite Em|]. split; [done|]. intros p t Hp. rewrite Em. intros Hw Hg. by eapply Hap, Ha.
    + intros v f Hv Hf. destruct (Hfr v f Hv Hf) as [Hna Hne]. split; [by intros ?%Ha|done].
  - intros c d x ? ? ?. rewrite !Hu, Hl. by apply H5.
  - intros x. rewrite Hl, Hh. intros Hx. destruct (H6 x Hx) as [Hna ?]. split; [by intros ?%Ha|done].
  - intros c x Hc. rewrite Hl. unfold table_byte. rewrite Em. by apply H7.
  - intros c v f x Hc Hv Hf Hx. rewrite Hl. unfold in_lapic. rewrite El. by apply (H8 c v f x).
  - unfold lapic_ok. by rewrite El.
  - intros x (Hna & Hx & Hn). split; [by intros ?%Ha|]. split; [by rewrite Hl|]. intros c Hc. rewrite Hu, Hh. by apply Hn.
Qed.

(** ** A new space *)

(** The user half of [c] shows nothing but the local APIC, to the kernel. *)
Definition bare s (c : Z) : Prop :=
  ∀ v, uaddr v → leaf (vmem s) c v = None ∨
    (g_lapic_base s ≠ 0 ∧ v / PAGING_HUGE = g_lapic_base s / PAGING_HUGE ∧ ∃ e, leaf (vmem s) c v = Some (true, e) ∧ is_user e = false).

Section New.
Context (s : vm A) (S : gset Z) (a : A) (P D : Z).
Context (Hok : spaces_ok s S) (Hfa : fa_ok a) (Hsub : ∀ g, fa_avail a g → fa_avail (vframes s) g).
Context (HP : P mod 4096 = 0) (HP0 : 0 < P) (HD : D mod 4096 = 0) (HD0 : 0 < D) (HDu : is_u64 D) (HPD : P ≠ D).
Context (HavP : fa_avail (vframes s) (P / 4096)) (HavD : fa_avail (vframes s) (D / 4096)).
Context (HnP : ¬ fa_avail a (P / 4096)) (HnD : ¬ fa_avail a (D / 4096)).
Let s5 := build_space P D (with_vframes s a).

Local Lemma built_kept x : ¬ fa_avail (vframes s) (x / 4096) → vmem s5 x = vmem s x.
Proof.
  intros Hx. destruct (build_space_ok s a P D (spaces_kernel s S Hok) Hfa Hsub HP HP0 HD HD0 HDu HPD HavP HavD HnP HnD)
    as (_ & _ & _ & _ & _ & _ & _ & _ & Ho & _).
  apply Ho; intros Hp; apply Hx; [rewrite (page_frame P x)|rewrite (page_frame D x)]; done.
Qed.

Lemma built_spaces :
  P ∉ S ∧ spaces_ok s5 ({[P]} ∪ S) ∧ (∀ v, uaddr v → leaf (vmem s5) P v = None) ∧
  (∀ x, apart s S x → apart s5 ({[P]} ∪ S) x ∧ vmem s5 x = vmem s x) ∧
  g_lapic_base s5 = g_lapic_base s ∧ kernel_cr3 s5 = kernel_cr3 s ∧ vframes s5 = a ∧
  ∀ d, d ∈ S → (∀ w, leaf (vmem s5) d w = leaf (vmem s) d w) ∧
    (∀ p, path_ok p → walk (vmem s5) d 4 p = walk (vmem s) d 4 p ∧
       ∀ t i, walk (vmem s) d 4 p = Some t → idx_ok i → entry (vmem s5) t i = entry (vmem s) t i) ∧
    ∀ w, uaddr w → uview (vmem s5) d w = uview (vmem s) d w.
Proof.
  pose proof built_kept as Hkept.
  destruct (build_space_ok s a P D (spaces_kernel s S Hok) Hfa Hsub HP HP0 HD HD0 HDu HPD HavP HavD HnP HnD)
    as (Hvm & Ef & El & _ & _ & _ & _ & Hleaf & Ho & Ek & Hw). fold s5 in Hvm, Ef, El, Hleaf, Ho, Ek, Hw.
  assert (mem_ok (vmem s5)) as Hm by (apply mem_ok_build_space, (sp_mem s _ (ss_space s S Hok _ (ss_kernel s S Hok)))).
  clearbody s5.
  assert (P ∉ S) as HPS.
  { intros Hin. destruct (sp_vm s P (ss_space s S Hok P Hin)) as (_ & _ & Hap). by apply (Hap [] P nil_path_ok eq_refl). }
  assert (∀ v, uaddr v → leaf (vmem s5) P v = None) as HPl.
  { intros v [Hv1 Hv2]. rewrite Hleaf by (unfold PAGING_USER_BASE in Hv1; lia). by replace (v <? PAGING_USER_BASE) with false by lia. }
  assert (∀ v, uaddr v → uframe (vmem s5) P v = None) as HPu by (intros v Hv; by apply uframe_leaf, HPl).
  assert (∀ d, d ∈ S → space_ok s5 d ∧ (∀ p, path_ok p → walk (vmem s5) d 4 p = walk (vmem s) d 4 p) ∧
    ∀ w, leaf (vmem s5) d w = leaf (vmem s) d w) as Hd.
  { intros d Hd. pose proof (ss_space s S Hok d Hd) as Hs. apply space_ok_frame; [done|done|by rewrite Ef| |].
    - intros x Hx. apply Hkept. destruct Hx as [(p & t & ? & _ & ? & ?)|(p & t & ? & _ & ? & ?)]; by eapply table_taken.
    - intros x Hx. rewrite Ef. intros Ha%Hsub. destruct Hx as [(p & t & ? & _ & ? & ?)|Hx]; [by eapply table_taken|by eapply used_taken]. }
  assert (∀ d x, d ∈ S → used s5 d x ↔ used s d x) as Hud.
  { intros d x Hin. destruct (Hd d Hin) as (_ & Hwd & Hld). by apply used_ext. }
  assert (∀ x, table_byte s5 P x → in_page P x ∨ in_page D x) as Htb.
  { intros x (p & t & Hp & Hh & Hwp & Hx). rewrite Hw, Hh in Hwp by done.
    destruct p as [|i [|j p]]; [|destruct (i =? 0); [|done]|done]; injection Hwp as <-; auto. }
  assert (∀ x, used s5 P x → in_page P x ∨ in_page D x) as HuP.
  { intros x [Hx|(v & f & Hv & Hf & _)]; [by apply Htb|]. rewrite HPu in Hf by done. done. }
  assert (∀ x, in_page P x ∨ in_page D x → fa_avail (vframes s) (x / 4096)) as Hav.
  { intros x [Hx|Hx]; [rewrite (page_frame P x)|rewrite (page_frame D x)]; done. }
  assert (∀ x, lapic_byte s5 x ↔ lapic_byte s x) as Hlb by (intros x; unfold lapic_byte; by rewrite El).
  assert (∀ c p, c ∈ {[P]} ∪ S → path_ok p → half p = true → walk (vmem s5) c 4 p = walk (vmem s) (kernel_cr3 s) 4 p) as Hhf.
  { intros c p [->%elem_of_singleton|Hc]%elem_of_union Hp Hh; [by rewrite Hw, Hh|].
    rewrite (proj1 (proj2 (Hd c Hc)) p Hp). by apply (ss_half s S Hok). }
  pose proof (ss_kernel s S Hok) as Hk.
  assert (∀ c x, c ∈ {[P]} ∪ S → half_byte s5 c x → half_byte s (kernel_cr3 s) x) as Hhb.
  { intros c x Hc (p & t & Hp & Hh & Hwp & Hx). exists p, t. split_and!; try done. by rewrite <- (Hhf c). }
  split; [done|]. split; [|split; [done|split; [|split; [done|split; [done|split; [done|]]]]]].
  - split.
    + intros c [->%elem_of_singleton|Hc]%elem_of_union; [|by apply Hd]. split; [done|done| | |intros v Hv; by rewrite HPl].
      * intros v f Hv Hf. by rewrite HPu in Hf.
      * intros v w f Hv _ Hf. by rewrite HPu in Hf.
    + rewrite Ek. set_solver.
    + rewrite Ek, Hhf; [apply (ss_first s S Hok)|set_solver|apply path_first|done].
    + intros c p Hc Hp Hh. rewrite Ek, !Hhf; set_solver.
    + intros c d x Hc Hd' Hne Hx Hy. apply Hlb.
      apply elem_of_union in Hc as [->%elem_of_singleton|Hc], Hd' as [->%elem_of_singleton|Hd']; [done|..].
      * rewrite Hud in Hy by done. destruct (used_taken s d x); [by apply (ss_space s S)|done|]. by apply Hav, HuP.
      * rewrite Hud in Hx by done. destruct (used_taken s c x); [by apply (ss_space s S)|done|]. by apply Hav, HuP.
      * rewrite !Hud in Hx, Hy by done. by apply (ss_apart s S Hok c d).
    + intros x Hx%Hlb. destruct (ss_lapic s S Hok x Hx) as [Hna Hh]. rewrite Ef. split; [by intros ?%Hsub|].
      intros Hx'. apply Hh. eapply Hhb; [|exact Hx']. rewrite Ek. set_solver.
    + intros c x [->%elem_of_singleton|Hc]%elem_of_union Hx%Hlb Ht.
      * apply (proj1 (ss_lapic s S Hok x Hx)). by apply Hav, Htb.
      * destruct Ht as (p & t & Hp & Hh & Hwp & Hxt). rewrite (proj1 (proj2 (Hd c Hc)) p Hp) in Hwp.
        apply (ss_lapic_table s S Hok c x Hc Hx). by exists p, t.
    + intros c v f x [->%elem_of_singleton|Hc]%elem_of_union Hv Hf Hx Hl%Hlb; [by rewrite HPu in Hf|]. unfold in_lapic. rewrite El.
      apply (ss_lapic_user s S Hok c v f x); try done. destruct (Hd c Hc) as (_ & _ & Hld). unfold uframe in *.
      by rewrite translate_leaf, <- Hld, <- translate_leaf.
    + intros c [->%elem_of_singleton|Hc]%elem_of_union; [done|by apply (ss_pos s S Hok)].
    + unfold lapic_ok. rewrite El. apply (ss_lapic_ok s S Hok).
    + intros i Hi. rewrite Ek. rewrite (entry_ext (vmem s)); [by apply (ss_root s S Hok)|unfold idx_ok; lia|].
      intros x Hx. apply Hkept. apply (table_taken s (kernel_cr3 s) x [] (kernel_cr3 s)); [by apply (ss_space s S)|apply nil_path_ok|done|done].
  - intros x (Ha & Hl & Hn). split; [|by apply Hkept]. split; [rewrite Ef; by intros ?%Hsub|]. split; [by rewrite Hlb|].
    intros c Hc. split.
    + apply elem_of_union in Hc as [->%elem_of_singleton|Hc]; [by intros ?%HuP%Hav|]. rewrite Hud by done. by apply Hn.
    + intros Hx. apply (proj2 (Hn _ Hk)). by eapply Hhb.
  - intros d Hin. destruct (Hd d Hin) as (_ & Hwk & Hl). split; [done|]. split.
    { intros p Hp. split; [by apply Hwk|]. intros t i Hwt Hi. apply entry_ext; [done|]. intros x Hx. apply Hkept.
      by apply (table_taken s d x p t); [apply (ss_space s S)|..]. }
    intros w Hwu. unfold uview, uframe.
    rewrite !translate_leaf, Hl, <- !translate_leaf. fold (uframe (vmem s) d w). destruct (uframe (vmem s) d w) as [f|] eqn:Ef'; [|done].
    obind. obind. f_equal. apply Hkept. apply (used_taken s d); [by apply (ss_space s S)|]. right. exists w, f.
    split_and!; try done. apply in_page_offset.
Qed.
End New.

(** The pages of the local APIC in a space whose user half is empty. *)
Lemma lapic_frame m c v e base :
  mem_ok m → leaf m c v = Some (true, e) → e_base_large e = base → is_u64 base → base mod 2097152 = 0 →
  uframe m c v = (let f := base + (v - v mod 4096) mod 2097152 in if f =? 0 then None else Some f).
Proof.
  intros Hm Hl He Hu Hb. unfold uframe. rewrite translate_leaf, (leaf_page m c (v - v mod 4096) v) by apply page_start.
  rewrite Hl. unfold leaf_addr. rewrite He, land_huge. unfold is_u64 in Hu.
  pose proof (Z.mod_pos_bound (v - v mod 4096) 2097152 ltac:(lia)). rewrite u64_small by dlia. done.
Qed.

Lemma map_lapic_moves s c :
  let base := g_lapic_base s in
  space_ok s c → lapic_ok s → base ≠ 0 → (∀ v, uaddr v → leaf (vmem s) c v = None) →
  (∀ x, lapic_byte s x → ¬ fa_avail (vframes s) (x / 4096) ∧ ¬ half_byte s c x ∧ ¬ table_byte s c x) →
  let s' := (paging_map_large c base base PAGING_FLAG_WRITABLE s).2 in moves c s s' ∧ bare s' c.
Proof.
  intros base Hs Hlap Hb0 Hnone Hlb. destruct Hlap as [?|[Hlr Hl2]]; [done|]. fold base in Hlr, Hl2.
  assert (is_u64 base) as Hbu by (unfold is_u64, PAGING_USER_BASE in *; lia).
  pose proof (paging_map_large_spec s c base base PAGING_FLAG_WRITABLE (sp_vm s c Hs) Hlr Hl2 Hl2 Hbu ltac:(done)) as H.
  cbv zeta in H. cbv zeta. destruct (paging_map_large c base base PAGING_FLAG_WRITABLE s) as [ok s']; cbn [fst snd] in *.
  destruct H as (Hvm & Hout & Hav & _ & Hnew & Hr).
  assert (mem_ok (vmem s')) as Hm' by (apply Hnew, (sp_mem s c Hs)).
  assert (g_lapic_base s' = base) as Elb by (by destruct Hnew as (_ & _ & _ & ? & _)).
  assert (bare s' c) as Hbare.
  { intros v Hv. rewrite Elb. destruct ok; [|left; rewrite Hr; by apply Hnone].
    destruct Hr as (e & _ & _ & Hue & Hle). rewrite Hle by (unfold uaddr, PAGING_USER_BASE in Hv; lia). unfold PAGING_HUGE.
    destruct (Z.eqb_spec (v / 2097152) (base / 2097152)); [right|left; by apply Hnone]. split_and!; try done. by exists e. }
  assert (∀ v f, uaddr v → uframe (vmem s') c v = Some f →
    v / 2097152 = base / 2097152 ∧ f = base + (v - v mod 4096) mod 2097152) as Hfr.
  { intros v f Hv Hf. destruct ok.
    - destruct Hr as (e & _ & He & _ & Hle). specialize (Hle v ltac:(unfold uaddr, PAGING_USER_BASE in Hv; lia)).
      destruct (Z.eqb_spec (v / 2097152) (base / 2097152)); [|rewrite (Hnone v Hv) in Hle; by rewrite uframe_leaf in Hf].
      split; [done|]. rewrite (lapic_frame _ _ _ _ _ Hm' Hle He Hbu Hl2) in Hf. cbv zeta in Hf. by destruct (_ =? 0); simplify_eq/=.
    - rewrite uframe_leaf in Hf; [done|]. rewrite Hr. by apply Hnone. }
  assert (∀ f x, (∃ v, uaddr v ∧ uframe (vmem s') c v = Some f) → in_page f x → lapic_byte s x) as Hfl.
  { intros f x (v & Hv & Hf) Hx. destruct (Hfr v f Hv Hf) as [_ ->]. unfold lapic_byte, in_page, PAGING_HUGE in *. fold base.
    split; [done|]. pose proof (Z.mod_pos_bound (v - v mod 4096) 2097152 ltac:(lia)). dlia. }
  assert (∀ p t x, path_ok p → walk (vmem s') c 4 p = Some t → in_page t x → ¬ lapic_byte s x) as Htl.
  { intros p t x Hp Hw Hx Hl. destruct (Hlb x Hl) as (Hna & Hnh & Hnt). destruct (proj1 Hnew p t Hp Hw) as [Hw'|Ha].
    - destruct (half p) eqn:Eh; [apply Hnh|apply Hnt]; by exists p, t.
    - apply Hna. rewrite (page_frame t x); [done|by apply (tree_page _ _ (proj1 Hvm) p)|done]. }
  split; [|done]. split; [split; [done|done| | |]|split; [done|split; [|done]]].
  - intros v f Hv Hf. assert (lapic_byte s f) as Hl by (eapply Hfl; [by exists v|unfold in_page; lia]). split.
    + intros Ha%Hav. exact (proj1 (Hlb f Hl) Ha).
    + intros p t Hp Hw ->. apply (Htl p f f Hp Hw); [unfold in_page; lia|done].
  - intros v w f Hv Hw Hf Hf'. destruct (Hfr v f Hv Hf) as [E ->], (Hfr w _ Hw Hf') as [E' Ef].
    assert (v / 2097152 = w / 2097152) as Evw by congruence. clear - Ef Evw. dlia.
  - intros v Hv Hl. destruct ok; [|by rewrite Hr, (Hnone v Hv) in Hl].
    destruct Hr as (e & _ & He & _ & Hle). specialize (Hle v ltac:(unfold uaddr, PAGING_USER_BASE in Hv; lia)).
    destruct (v / 2097152 =? base / 2097152); [|by rewrite Hle, (Hnone v Hv) in Hl].
    rewrite (lapic_frame _ _ _ _ _ Hm' Hle He Hbu Hl2). cbv zeta. pose proof (Z.mod_pos_bound (v - v mod 4096) 2097152 ltac:(lia)).
    unfold PAGING_USER_BASE in Hlr. by rewrite (proj2 (Z.eqb_neq _ 0)) by lia.
  - intros x Hx. pose proof Hx as (Hna & Hnt & _).
    assert (∀ p t, path_ok p → half p = false → walk (vmem s') c 4 p = Some t → ¬ in_page t x) as Hnt'.
    { intros p t Hp Hh Hw Hx'. destruct (proj1 Hnew p t Hp Hw) as [Hw'|Ha]; [by eapply Hnt|].
      apply Hna. rewrite (page_frame t x); [done|by apply (tree_page _ _ (proj1 Hvm) p)|done]. }
    split; [by apply Hout|]. destruct (decide (lapic_byte s x)) as [Hlx|Hl]; [right|left].
    { split; [done|]. intros v f Hv Hf _. by destruct (Hfr v f Hv Hf). }
    split; [by intros ?%Hav|].
    split; [done|]. intros v f Hv Hf Hxf. apply Hl. eapply Hfl; [by exists v|done].
Qed.

(** What stays of the rest of the system when one space changes: the kernel's bytes, and
    for each of the spaces [T] its tables, its mapping and the bytes it shows outside
    the APIC. *)
Record rest_kept s s' (S S' : gset Z) (T : Z → Prop) : Prop := {
  rk_apart : ∀ x, apart s S x → apart s' S' x ∧ vmem s' x = vmem s x;
  rk_consts : kernel_cr3 s' = kernel_cr3 s ∧ g_lapic_base s' = g_lapic_base s;
  rk_leaf : ∀ d w, T d → leaf (vmem s') d w = leaf (vmem s) d w;
  rk_table : ∀ d p, T d → path_ok p → walk (vmem s') d 4 p = walk (vmem s) d 4 p ∧
    ∀ t i, walk (vmem s) d 4 p = Some t → idx_ok i → entry (vmem s') t i = entry (vmem s) t i;
  rk_view : ∀ d w f, T d → uaddr w → uframe (vmem s) d w = Some f → ¬ lapic_byte s (f + w mod 4096) →
    uview (vmem s') d w = uview (vmem s) d w
}.

Lemma moves_kept s s' S c :
  spaces_ok s S → c ∈ S → c ≠ kernel_cr3 s → moves c s s' →
  spaces_ok s' S ∧ rest_kept s s' S S (λ d, d ∈ S ∧ d ≠ c).
Proof.
  intros Ho Hc Hck Hmv. destruct (moves_spaces s s' S c Ho Hc Hck Hmv) as (Ho' & Hap & Hd). split; [done|].
  destruct Hmv as (_ & (_ & _ & Ek & El & _) & _). split; [done|done| | |].
  - intros d w [Hdi Hne]. by apply (Hd d).
  - intros d p [Hdi Hne]. by apply (Hd d).
  - intros d w f [Hdi Hne]. by apply (Hd d).
Qed.

Lemma rest_kept_trans s1 s2 s3 S1 S2 S3 (T T' : Z → Prop) :
  (∀ d, T d → T' d) → rest_kept s1 s2 S1 S2 T → rest_kept s2 s3 S2 S3 T' → rest_kept s1 s3 S1 S3 T.
Proof.
  intros HT [Ha1 [Hk1 Hl1] Hf1 Ht1 Hv1] [Ha2 [Hk2 Hl2] Hf2 Ht2 Hv2]. split.
  - intros x Hx. destruct (Ha1 x Hx) as [Hx2 E]. destruct (Ha2 x Hx2) as [? E2]. split; [done|congruence].
  - split; congruence.
  - intros d w Hd. rewrite Hf2 by auto. by apply Hf1.
  - intros d p Hd Hp. destruct (Ht1 d p Hd Hp) as [Ew1 Ee1], (Ht2 d p (HT d Hd) Hp) as [Ew2 Ee2].
    split; [congruence|]. intros t i Hw Hi. rewrite Ee2 by (done || by rewrite Ew1). by apply Ee1.
  - intros d w f Hd Hw Hf Hl. rewrite (Hv2 d w f); [by apply (Hv1 d w f)|auto|done| |].
    + unfold uframe in *. by rewrite translate_leaf, Hf1, <- translate_leaf.
    + unfold lapic_byte in *. by rewrite Hl1.
Qed.

Lemma new_space_spec s S :
  spaces_ok s S →
  let r := paging_new_address_space s in
  if r.1 =? 0 then spaces_ok r.2 S ∧ rest_kept s r.2 S S (λ d, d ∈ S)
  else r.1 ∉ S ∧ spaces_ok r.2 ({[r.1]} ∪ S) ∧ bare r.2 r.1 ∧ rest_kept s r.2 S ({[r.1]} ∪ S) (λ d, d ∈ S).
Proof.
  intros Ho. pose proof (spaces_kernel s S Ho) as ((_ & Hfa & _) & _). unfold paging_new_address_space, alloc_frame.
  pose proof (fa_alloc_spec (vframes s) Hfa) as (Hfa1 & Hsub1 & _). pose proof (fa_alloc_aligned (vframes s) Hfa) as Hal1.
  destruct (fa_alloc (vframes s)) as [P a1] eqn:Ea1. cbn [fst snd vframes with_vframes] in *.
  pose proof (fa_alloc_spec a1 Hfa1) as (Hfa2 & Hsub2 & _). pose proof (fa_alloc_aligned a1 Hfa1) as Hal2.
  destruct (fa_alloc a1) as [D a2] eqn:Ea2. cbn [fst snd vframes with_vframes] in *.
  assert (∀ g, fa_avail a2 g → fa_avail (vframes s) g) as Hsub by auto. unfold PMM_MAX_PHYS in *.
  destruct ((P =? 0) || (D =? 0)) eqn:E0.
  { assert (∀ a, fa_ok a → (∀ g, fa_avail a g → fa_avail (vframes s) g) →
      spaces_ok (with_vframes s a) S ∧ rest_kept s (with_vframes s a) S S (λ d, d ∈ S)) as Hfr.
    { intros a Hka Hka'. destruct (spaces_frames s (with_vframes s a) S Ho) as [Ho' Hap]; try done.
      split; [done|]. split; auto. }
    cbn [fst snd]. unfold truthy. destruct (Z.eqb_spec P 0) as [-> |HP], (Z.eqb_spec D 0) as [-> |HD]; cbn [negb] in *; [by apply Hfr| | |done].
    - destruct (Hal2 HD) as (_ & ? & HavD & _). destruct (fa_free_spec D a2 Hfa2 ltac:(lia)) as [Hk _].
      apply (Hfr (fa_free D a2)); [done|]. apply free_back; auto with lia.
    - destruct (Hal1 HP) as (_ & ? & HavP & _). destruct (fa_free_spec P a2 Hfa2 ltac:(lia)) as [Hk _].
      apply (Hfr (fa_free P a2)); [done|]. apply free_back; auto with lia. }
  apply orb_false_iff in E0 as [HP0 HD0]. destruct (Hal1 ltac:(lia)) as (HP & HPr & HavP & HnP).
  destruct (Hal2 ltac:(lia)) as (HD & HDr & HavD & HnD).
  assert (P ≠ D) as HPD by (intros ->; done). assert (is_u64 D) as HDu by (unfold is_u64; lia).
  change (with_vframes (with_vframes s a1) a2) with (with_vframes s a2).
  destruct (built_spaces s S a2 P D Ho Hfa2 Hsub HP ltac:(lia) HD ltac:(lia) HDu HPD HavP ltac:(auto) ltac:(auto) HnD)
    as (HPS & Ho5 & Hl5 & Hap5 & El5 & Ek5 & Ef5 & Hd5).
  set (s5 := build_space P D (with_vframes s a2)) in *. clearbody s5. cbn [fst snd].
  replace (P =? 0) with false by (by rewrite HP0).
  assert (rest_kept s s5 S ({[P]} ∪ S) (λ d, d ∈ S)) as Hk5.
  { split; [done|done|intros d w Hd|intros d p Hd|intros d w f Hd Hw _ _]; by apply (Hd5 d). }
  split; [done|]. destruct (truthy (g_lapic_base s5)) eqn:Elb; unfold truthy in Elb.
  2:{ split; [done|]. split; [|done]. intros v Hv. left. by apply Hl5. }
  destruct (map_lapic_moves s5 P) as [Hmv Hb]; [apply (ss_space _ _ Ho5); set_solver|apply (ss_lapic_ok _ _ Ho5)|lia|done| |].
  { intros x Hx. destruct (ss_lapic _ _ Ho5 x Hx) as [? Hh]. split; [done|]. split.
    - by rewrite (half_byte_kernel s5 ({[P]} ∪ S) P) by set_solver.
    - apply (ss_lapic_table _ _ Ho5); [set_solver|done]. }
  assert (P ≠ kernel_cr3 s5) as HPk by (rewrite Ek5; intros ->; apply HPS, (ss_kernel s S Ho)).
  destruct (moves_kept s5 _ ({[P]} ∪ S) P Ho5 ltac:(set_solver) HPk Hmv) as [Ho6 Hk6].
  split; [done|]. split; [done|]. eapply rest_kept_trans; [|exact Hk5|exact Hk6]. intros d Hd. cbn. split; [set_solver|]. by intros ->.
Qed.

(** ** Writes that belong to no space *)

(** A change of memory outside the spaces, with no more free frames than before (the
    kernel's heap at work), leaves every space as it is; bytes of frames that were
    taken belong to no space. *)
Lemma spaces_outside s s' S :
  spaces_ok s S → mem_ok (vmem s') → kernel_cr3 s' = kernel_cr3 s → g_lapic_base s' = g_lapic_base s →
  fa_ok (vframes s') → (∀ g, fa_avail (vframes s') g → fa_avail (vframes s) g) →
  (∀ c x, c ∈ S → half_byte s c x ∨ used s c x → vmem s' x = vmem s x) →
  spaces_ok s' S ∧ (∀ x, apart s S x ∨ fa_avail (vframes s) (x / 4096) → ¬ fa_avail (vframes s') (x / 4096) → apart s' S x) ∧
  ∀ c w, c ∈ S → leaf (vmem s') c w = leaf (vmem s) c w.
Proof.
  intros Ho Hm Ek El Hfa Ha Hx. pose proof Ho as [H1 H2 H3 H4 H5 H6 H7 H8 H9 H10 H11].
  assert (∀ c x, c ∈ S → half_byte s c x ∨ used s c x → ¬ fa_avail (vframes s) (x / 4096)) as Htk.
  { intros c x Hc [Hb|Hu]; [by apply (half_kernel s c x (H1 c Hc) Hb)|by apply (used_taken s c x (H1 c Hc))]. }
  assert (∀ c, c ∈ S → space_ok s' c ∧ (∀ p, path_ok p → walk (vmem s') c 4 p = walk (vmem s) c 4 p) ∧
    ∀ w, leaf (vmem s') c w = leaf (vmem s) c w) as Hc.
  { intros c Hc. apply space_ok_frame; [by apply H1|done|done| |].
    - intros x [Hb|Hb]; apply (Hx c x Hc); [by left|right; by left].
    - intros x Hb Hg%Ha. by apply (Htk c x Hc Hb). }
  assert (∀ c x, c ∈ S → used s' c x ↔ used s c x) as Hu by (intros c x Hi; apply used_ext; by apply Hc).
  assert (∀ c x, c ∈ S → half_byte s' c x ↔ half_byte s c x) as Hh.
  { intros c x Hi. destruct (Hc c Hi) as (_ & Hw & _). unfold half_byte. split; intros (p & t & Hp & He & Hwp & Hb); exists p, t;
      (split_and!; try done); [by rewrite <- Hw|by rewrite Hw]. }
  assert (∀ x, lapic_byte s' x ↔ lapic_byte s x) as Hl by (unfold lapic_byte; by rewrite El).
  split; [split|split].
  - intros c Hi. by apply Hc.
  - by rewrite Ek.
  - rewrite Ek. destruct (Hc _ H2) as (_ & -> & _); [done|apply path_first].
  - intros c p Hi Hp He. rewrite Ek, (proj1 (proj2 (Hc c Hi)) p Hp), (proj1 (proj2 (Hc _ H2)) p Hp). by apply H4.
  - intros c d x Hi Hd Hne. rewrite !Hu, Hl by done. by apply H5.
  - intros x. rewrite Hl, Ek, Hh by done. intros Hlx. destruct (H6 x Hlx) as [Hna ?]. split; [by intros ?%Ha|done].
  - intros c x Hi. rewrite Hl. intros Hlx (p & t & Hp & He & Hw & Hb). apply (H7 c x Hi Hlx). exists p, t.
    destruct (Hc c Hi) as (_ & Hw' & _). rewrite Hw' in Hw by done. done.
  - intros c v f x Hi Hv Hf Hb. rewrite Hl. unfold in_lapic. rewrite El. apply (H8 c v f x); try done.
    destruct (Hc c Hi) as (_ & _ & Hlf). unfold uframe in *. by rewrite translate_leaf, <- Hlf, <- translate_leaf.
  - done.
  - unfold lapic_ok. by rewrite El.
  - intros i Hi. rewrite Ek. rewrite <- (H11 i Hi). f_equal. unfold entry. apply load64_ext. intros x Hb.
    apply (Hx (kernel_cr3 s)); [done|]. destruct (half []) eqn:E0; [done|]. right. left. exists [], (kernel_cr3 s).
    split_and!; try done; [apply nil_path_ok|]. unfold in_page. lia.
  - intros x Hax Hna. split; [done|]. split.
    { rewrite Hl. intros Hlx. destruct Hax as [(_ & Hn & _)|Hg]; [done|]. exact (proj1 (H6 x Hlx) Hg). }
    intros c Hi. rewrite Hu, Hh by done. destruct Hax as [(_ & _ & Hn)|Hg]; [by apply Hn|].
    split; intros Hb; apply (Htk c x Hi); auto.
  - intros c w Hi. by apply Hc.
Qed.
End Spaces.
