(* ===== verification/SpaceFree.v ===== *)
(** Giving an address space back (paging_free_address_space of mem/mm/paging.c).

    The code walks the tables below entry 0 of the root and frees the frames behind
    every entry, the tables and the root.  [space_frames] says which frames these are
    in terms of addresses and paths: the user pages below 512 GiB outside the GiB of
    the local APIC, and the tables on the way to them. *)

From stdpp Require Import prelude numbers list gmap.
From Stdlib Require Import ZArith Lia.
From S2P Require Import Prelude Memory Frames Pmm Paging Space Elf Image Spaces.

Open Scope Z_scope.

Section Free.
Context {A : Type} `{!FrameAllocator A, !FrameAllocatorOk A}.
Implicit Types s : vm A.

(** Only frames move. *)
Definition frames_only s s' : Prop :=
  vmem s' = vmem s ∧ kernel_cr3 s' = kernel_cr3 s ∧ g_lapic_base s' = g_lapic_base s ∧ fa_ok (vframes s').

(** Exactly the frames in [R] are given back. *)
Definition gives s s' (R : Z → Prop) : Prop :=
  frames_only s s' ∧ ∀ g, fa_avail (vframes s') g ↔ fa_avail (vframes s) g ∨ (g < MAX_FRAMES ∧ R g).

Lemma gives_nothing s (R : Z → Prop) : fa_ok (vframes s) → (∀ g, ¬ R g) → gives s s R.
Proof. intros Hf HR. split; [done|]. intros g. split; [by left|]. intros [|[_ H]]; [done|by destruct (HR g)]. Qed.

Lemma gives_then s1 s2 s3 R R' : gives s1 s2 R → gives s2 s3 R' → gives s1 s3 (λ g, R g ∨ R' g).
Proof.
  intros [(E1 & E2 & E3 & _) H1] [(F1 & F2 & F3 & Hf) H2]. split; [split_and!; congruence|].
  intros g. rewrite H2, H1. tauto.
Qed.

Lemma gives_ext s s' R R' : (∀ g, R g ↔ R' g) → gives s s' R → gives s s' R'.
Proof. intros HR [H1 H2]. split; [done|]. intros g. by rewrite H2, HR. Qed.

Lemma gives_frame p s : fa_ok (vframes s) → 0 ≤ p → gives s (free_frame p s) (λ g, g = p / 4096).
Proof.
  intros Hf Hp. destruct (free_frame_avail p s Hf Hp) as [Hf' Ha]. split; [done|]. intros g. rewrite Ha. tauto.
Qed.

Lemma gives_loop lo hi body (R : Z → Z → Prop) s :
  lo ≤ hi → fa_ok (vframes s) →
  (∀ i t, lo ≤ i < hi → frames_only s t → gives t (body i t) (R i)) →
  gives s (for_do lo hi body s) (λ g, ∃ i, lo ≤ i < hi ∧ R i g).
Proof.
  intros Hle Hf Hb. apply (for_do_ind (λ j t, gives s t (λ g, ∃ i, lo ≤ i < j ∧ R i g))); [done| |].
  - apply gives_nothing; [done|]. intros g (i & ? & _). lia.
  - intros j t Hj Ht. pose proof (gives_then _ _ _ _ _ Ht (Hb j t Hj (proj1 Ht))) as H. eapply gives_ext, H.
    intros g. split.
    + intros [(i & ? & ?)|?]; [exists i|exists j]; (split; [lia|done]).
    + intros (i & Hi & HR). destruct (decide (i = j)) as [-> |]; [by right|left]. exists i. split; [lia|done].
Qed.

(** ** The frames behind entries *)

Definition pt_frames (m : mem) (pt g : Z) : Prop :=
  ∃ k, 0 ≤ k < 512 ∧ present (entry m pt k) = true ∧ g = e_base (entry m pt k) / 4096.
Definition pd_frames (m : mem) (pd j g : Z) : Prop :=
  let e := entry m pd j in
  present e = true ∧ if is_large e then leaf_frames true e g else pt_frames m (e_base e) g ∨ g = e_base e / 4096.
(** The GiB of the local APIC is left alone. *)
Definition skipped s (i : Z) : bool := truthy (g_lapic_base s) && (u32 i =? u32 (Z.shiftr (g_lapic_base s) 30)).
Definition pdpt_frames s (pdpt i g : Z) : Prop :=
  let e := entry (vmem s) pdpt i in
  present e = true ∧ skipped s i = false ∧
  ((∃ j, 0 ≤ j < 512 ∧ pd_frames (vmem s) (e_base e) j g) ∨ g = e_base e / 4096).

Lemma e_base_nonneg e : is_u64 e → 0 ≤ e_base e.
Proof. intros He. rewrite e_base_div by done. unfold is_u64 in He. dlia. Qed.

Lemma gives_pt pt s : mem_ok (vmem s) → fa_ok (vframes s) → gives s (free_pt pt s) (pt_frames (vmem s) pt).
Proof.
  intros Hm Hf. apply (gives_loop 0 512 _ (λ k g, present (entry (vmem s) pt k) = true ∧ g = e_base (entry (vmem s) pt k) / 4096)); [lia|done|].
  intros k t Hk (Em & _ & _ & Hft). rewrite Em. destruct (present (entry (vmem s) pt k)).
  - eapply gives_ext; [|apply gives_frame; [done|apply e_base_nonneg; by apply load64_range]]. tauto.
  - apply gives_nothing; [done|]. intros g [H _]. discriminate H.
Qed.

Lemma gives_pd_entry pd j s : mem_ok (vmem s) → fa_ok (vframes s) → gives s (free_pd_entry pd j s) (pd_frames (vmem s) pd j).
Proof.
  intros Hm Hf. unfold free_pd_entry, pd_frames. assert (is_u64 (entry (vmem s) pd j)) as Hu by (by apply load64_range).
  destruct (present (entry (vmem s) pd j)); cbn [negb]; [|apply gives_nothing; [done|intros g [H _]; discriminate H]].
  destruct (is_large (entry (vmem s) pd j)).
  - destruct (free_huge_avail _ s Hu Hf) as (H1 & H2 & Ha & H3 & H4).
    split; [exact (conj H1 (conj H3 (conj H4 H2)))|]. intros g. rewrite Ha. tauto.
  - pose proof (gives_pt (e_base (entry (vmem s) pd j)) s Hm Hf) as H. eapply gives_ext; [|eapply gives_then; [exact H|]].
    2:{ apply gives_frame; [apply H|by apply e_base_nonneg]. }
    intros g. split; [intros H0; by split|]. intros [_ H0]. exact H0.
Qed.

Lemma gives_pdpt_entry pdpt i s :
  mem_ok (vmem s) → fa_ok (vframes s) → gives s (free_pdpt_entry pdpt i s) (pdpt_frames s pdpt i).
Proof.
  intros Hm Hf. unfold free_pdpt_entry, pdpt_frames. fold (skipped s i). set (e := entry (vmem s) pdpt i).
  assert (is_u64 e) as Hu by (by apply load64_range). destruct (present e); cbn [negb]; [|apply gives_nothing; [done|intros g [H _]; discriminate H]].
  destruct (skipped s i); [apply gives_nothing; [done|intros g (_ & H & _); discriminate H]|].
  assert (gives s (for_do 0 512 (free_pd_entry (e_base e)) s) (λ g, ∃ j, 0 ≤ j < 512 ∧ pd_frames (vmem s) (e_base e) j g)) as H.
  { apply gives_loop; [lia|done|]. intros j t Hj (Em & _ & _ & Hft). rewrite <- Em. apply gives_pd_entry; [by rewrite Em|done]. }
  eapply gives_ext; [|eapply gives_then; [exact H|apply gives_frame; [apply H|by apply e_base_nonneg]]]. intros g. tauto.
Qed.

Lemma gives_tree c s :
  mem_ok (vmem s) → fa_ok (vframes s) → 0 ≤ c →
  let pdpt := e_base (entry (vmem s) c 0) in
  gives s (free_user_tree c s) (λ g, ((∃ i, 1 ≤ i < 512 ∧ pdpt_frames s pdpt i g) ∨ g = pdpt / 4096) ∨ g = c / 4096).
Proof.
  intros Hm Hf Hc pdpt. unfold free_user_tree. fold pdpt.
  assert (gives s (for_do 1 512 (free_pdpt_entry pdpt) s) (λ g, ∃ i, 1 ≤ i < 512 ∧ pdpt_frames s pdpt i g)) as H.
  { apply gives_loop; [lia|done|]. intros i t Hi (Em & Ek & El & Hft). eapply gives_ext; [|apply gives_pdpt_entry; [by rewrite Em|done]].
    intros g. unfold pdpt_frames, skipped. by rewrite Em, El. }
  assert (0 ≤ pdpt) as Hp by (apply e_base_nonneg; by apply load64_range).
  pose proof (gives_then _ _ _ _ _ H (gives_frame pdpt _ ltac:(apply H) Hp)) as H2.
  exact (gives_then _ _ _ _ _ H2 (gives_frame c _ ltac:(apply H2) Hc)).
Qed.

(** ** Which frames these are *)

(** The paths the walk covers: entry 0 of the root, and below it every GiB but the
    kernel's and that of the local APIC. *)
Definition reclaimed s (p : list Z) : bool :=
  match p with
  | [] => true
  | i :: p' => (i =? 0) && match p' with [] => true | j :: _ => negb (j =? 0) && negb (skipped s j) end
  end.

Definition space_frames s (c g : Z) : Prop :=
  (∃ p t, path_ok p ∧ reclaimed s p = true ∧ walk (vmem s) c 4 p = Some t ∧ g = t / 4096) ∨
  (∃ v f, uaddr v ∧ reclaimed s (full_path v) = true ∧ uframe (vmem s) c v = Some f ∧ g = f / 4096).

(** The address of a page from its indices. *)
Definition page_addr (i j k : Z) : Z := i * 1073741824 + j * 2097152 + k * 4096.

Lemma page_addr_idx i j k :
  idx_ok i → idx_ok j → idx_ok k → 1 ≤ i →
  uaddr (page_addr i j k) ∧ full_path (page_addr i j k) = [0; i; j; k].
Proof.
  unfold idx_ok, page_addr, uaddr, PAGING_USER_BASE, full_path, PML4_IDX, PDPT_IDX, PD_IDX, PT_IDX. intros Hi Hj Hk Hi1.
  rewrite !idx_val by lia. change (2 ^ 39) with 549755813888. change (2 ^ 30) with 1073741824.
  change (2 ^ 21) with 2097152. change (2 ^ 12) with 4096. change (2 ^ 48) with 281474976710656.
  split; [lia|]. repeat f_equal; dlia.
Qed.

(** A path written out, with indices in range. *)
Local Ltac solve_path := split; [repeat (constructor; [done|]); constructor|simpl; lia].

Section Frames.
Context (s : vm A) (c : Z) (Hs : space_ok s c) (H0 : present (entry (vmem s) c 0) = true).
Let m := vmem s.
Let pdpt := e_base (entry m c 0).

Local Lemma walk_0 : walk m c 4 [0] = Some pdpt.
Proof. simpl. unfold is_table. simpl. unfold m. by rewrite H0. Qed.

Local Lemma walk_0i i pd : walk m c 4 [0; i] = Some pd ↔ present (entry m pdpt i) = true ∧ pd = e_base (entry m pdpt i).
Proof.
  change [0; i] with ([0] ++ [i]). rewrite walk_app, walk_0. simpl. unfold is_table. simpl.
  rewrite andb_true_r. generalize (e_base (entry m pdpt i)). intros b. destruct (present (entry m pdpt i)); naive_solver.
Qed.

Local Lemma walk_0ij i j pd pt :
  walk m c 4 [0; i] = Some pd →
  walk m c 4 [0; i; j] = Some pt ↔ present (entry m pd j) = true ∧ is_large (entry m pd j) = false ∧ pt = e_base (entry m pd j).
Proof.
  intros Hw. change [0; i; j] with ([0; i] ++ [j]). rewrite walk_app, Hw. simpl. unfold is_table. simpl.
  generalize (e_base (entry m pd j)). intros b. destruct (present (entry m pd j)), (is_large (entry m pd j)); simpl; naive_solver.
Qed.

(** A leaf below entry 0 of the root. *)
Local Lemma leaf_at v i j k pd :
  full_path v = [0; i; j; k] → walk m c 4 [0; i] = Some pd →
  leaf m c v = let e2 := entry m pd j in
    if negb (present e2) then None else if is_large e2 then Some (true, e2)
    else let e1 := entry m (e_base e2) k in if negb (present e1) then None else Some (false, e1).
Proof.
  unfold full_path. intros [= E4 E3 E2 E1] Hw. rewrite (leaf_pd m c v pd); [by rewrite E2, E1|]. unfold pd_path. by rewrite E4, E3.
Qed.

Definition walked (g : Z) : Prop :=
  ((∃ i, 1 ≤ i < 512 ∧ pdpt_frames s pdpt i g) ∨ g = pdpt / 4096) ∨ g = c / 4096.

Local Lemma walked_space g : walked g → space_frames s c g.
Proof.
  pose proof (sp_mem s c Hs) as Hm. assert (idx_ok 0) as Hi0 by (unfold idx_ok; lia).
  - intros [[(i & Hi & Hp & Hsk & Hg)| ->]| ->].
    2:{ left. exists [0], pdpt. split_and!; [solve_path|done|apply walk_0|done]. }
    2:{ left. exists [], c. split_and!; [apply nil_path_ok|done..]. }
    assert (idx_ok i) as Hii by (unfold idx_ok; lia).
    assert (∀ r, reclaimed s (0 :: i :: r) = true) as Hrc.
    { intros r. simpl. rewrite Hsk. by replace (i =? 0) with false by lia. }
    set (pd := e_base (entry m pdpt i)). assert (walk m c 4 [0; i] = Some pd) as Hwi by (by apply walk_0i).
    destruct Hg as [(j & Hj & Hpj & Hg)| ->].
    2:{ left. exists [0; i], pd. split_and!; [solve_path|apply Hrc|done|done]. }
    change (vmem s) with m in Hpj, Hg. fold pd in Hpj, Hg. assert (idx_ok j) as Hij by (unfold idx_ok; lia).
    assert (∀ k e l, idx_ok k → leaf m c (page_addr i j k) = Some (l, e) →
      ∀ g, (∀ f, f = (if l then e / 2097152 * 2097152 + (page_addr i j k - page_addr i j k mod 4096) mod 2097152
                     else e / 4096 * 4096) → g = f / 4096) → space_frames s c g) as Hpage.
    { intros k e l Hk Hl g' Hg'. destruct (page_addr_idx i j k Hii Hij Hk ltac:(lia)) as [Hu Hf]. right.
      destruct (uframe m c (page_addr i j k)) as [f|] eqn:Ef.
      - exists (page_addr i j k), f. split_and!; [done|rewrite Hf; apply Hrc|done|]. apply Hg'. by apply (uframe_value m c).
      - destruct (sp_map s c Hs _ Hu); [|done]. by fold m; rewrite Hl. }
    destruct (is_large (entry m pd j)) eqn:El.
    + assert (is_u64 (entry m pd j)) as He by (by apply load64_range). unfold leaf_frames in Hg. unfold is_u64 in He.
      set (k := g - entry m pd j / 2097152 * 512). assert (idx_ok k) as Hk by (unfold idx_ok, k; lia).
      destruct (page_addr_idx i j k Hii Hij Hk ltac:(lia)) as [_ Hfp].
      eapply (Hpage k); [done|rewrite (leaf_at _ i j k pd Hfp Hwi); cbv zeta; by rewrite Hpj, El|].
      intros f ->. cbn. assert (page_addr i j k mod 4096 = 0) as -> by (unfold page_addr; dlia).
      rewrite Z.sub_0_r. assert (page_addr i j k mod 2097152 = k * 4096) as -> by (unfold page_addr, idx_ok in *; dlia). unfold k. dlia.
    + destruct Hg as [(k & Hk & Hpk & ->)| ->].
      * assert (idx_ok k) as Hik by (unfold idx_ok; lia). destruct (page_addr_idx i j k Hii Hij Hik ltac:(lia)) as [_ Hfp].
        eapply (Hpage k); [done|rewrite (leaf_at _ i j k pd Hfp Hwi); cbv zeta; by rewrite Hpj, El, Hpk|].
        intros f ->. rewrite e_base_div by (by apply load64_range). done.
      * left. exists [0; i; j], (e_base (entry m pd j)). split_and!; [solve_path|apply Hrc| |done].
        by apply (walk_0ij i j pd).
Qed.

Local Lemma space_walked g : space_frames s c g → walked g.
Proof.
  pose proof (sp_mem s c Hs) as Hm.
  - intros [(p & t & Hp & Hr & Hw & ->)|(v & f & Hv & Hr & Hf & ->)].
    + destruct p as [|i p]; [simpl in Hw; injection Hw as <-; by right|]. simpl in Hr. apply andb_true_iff in Hr as [Hi Hr].
      assert (i = 0) as -> by lia. left. destruct p as [|j p].
      { right. fold m in Hw. rewrite walk_0 in Hw. by injection Hw as <-. }
      left. apply andb_true_iff in Hr as [Hj Hr]. pose proof Hp as [Hpf Hpl]. apply Forall_cons in Hpf as [_ Hpf].
      apply Forall_cons in Hpf as [Hij Hpf]. unfold idx_ok in Hij. exists j. split; [lia|].
      change (0 :: j :: p) with ([0; j] ++ p) in Hw. rewrite walk_app in Hw. fold m in Hw.
      destruct (walk m c 4 [0; j]) as [pd|] eqn:Ej; [|done]. pose proof (proj1 (walk_0i j pd) Ej) as [Hpj Epd].
      split; [done|]. split; [by apply negb_true_iff|]. change (vmem s) with m. rewrite <- Epd. destruct p as [|k p]; [right; simpl in Hw; by injection Hw as <-|left].
      apply Forall_cons in Hpf as [Hik _]. unfold idx_ok in Hik. exists k. split; [lia|].
      assert (p = []) as -> by (destruct p; [done|simpl in Hpl; lia]).
      assert (walk m c 4 [0; j; k] = Some t) as Ek by (change [0; j; k] with ([0; j] ++ [k]); by rewrite walk_app, Ej).
      apply (walk_0ij j k pd) in Ek as (Hpk & Hlk & ->); [|done]. split; [done|]. change (vmem s) with m. rewrite Hlk. by right.
    + left. left. assert (∃ i j k, full_path v = [0; i; j; k] ∧ 1 ≤ i < 512 ∧ 0 ≤ j < 512 ∧ 0 ≤ k < 512 ∧ skipped s i = false) as (i & j & k & Efp & Hi & Hj & Hk & Hsk).
      { unfold full_path in *. cbn [reclaimed] in Hr. pose proof (pdpt_idx_ok v). pose proof (pd_idx_ok v). pose proof (pt_idx_ok v).
        unfold idx_ok in *. exists (PDPT_IDX v), (PD_IDX v), (PT_IDX v). rewrite !andb_true_iff, !negb_true_iff in Hr.
        destruct Hr as (E4 & E3 & Hsk). apply Z.eqb_eq in E4. apply Z.eqb_neq in E3. rewrite E4. split_and!; done || lia. }
      assert (leaf m c v ≠ None) as Hl by (intros Hl; apply uframe_leaf in Hl; fold m in Hf; congruence).
      destruct (walk m c 4 [0; i]) as [pd|] eqn:Ewi.
      2:{ destruct Hl. unfold full_path in Efp. injection Efp as E4 E3 _ _. assert (present (entry m c 0) = true) as H0' by exact H0. unfold leaf. rewrite E4, H0'. cbn [negb].
          change (e_base (entry m c 0)) with pdpt. rewrite E3. destruct (present (entry m pdpt i)) eqn:Ep; [|done]. by rewrite (proj2 (walk_0i i _) (conj Ep eq_refl)) in Ewi. }
      pose proof (proj1 (walk_0i i pd) Ewi) as [Hpi Epd]. exists i. split; [done|]. split; [done|]. split; [done|]. left. exists j. split; [done|].
      change (vmem s) with m. change (vmem s) with m in Hf, Hm. rewrite <- Epd. rewrite (leaf_at v i j k pd Efp Ewi) in Hl. pose proof (leaf_at v i j k pd Efp Ewi) as El. cbv zeta in Hl, El.
      unfold pd_frames. destruct (present (entry m pd j)); cbn [negb] in *; [|done]. split; [done|].
      destruct (is_large (entry m pd j)).
      * rewrite (uframe_value m c v _ _ f Hm El Hf). unfold leaf_frames. pose proof (Z.mod_pos_bound (v - v mod 4096) 2097152 ltac:(lia)). dlia.
      * destruct (present (entry m (e_base (entry m pd j)) k)) eqn:Epk; cbn [negb] in *; [|done]. left. exists k. split; [done|]. split; [done|].
        rewrite (uframe_value m c v _ _ f Hm El Hf). set (pt := e_base (entry m pd j)). rewrite e_base_div; [reflexivity|apply load64_range; exact Hm].
Qed.

Lemma frames_reclaimed g : walked g ↔ space_frames s c g.
Proof. split; [apply walked_space|apply space_walked]. Qed.
End Frames.

(** ** The other spaces *)

Lemma reclaimed_half s p : reclaimed s p = true → half p = false.
Proof. destruct p as [|i [|j p]]; [done|done|]. simpl. destruct (i =? 0), (j =? 0); done. Qed.

(** What is given back belonged to this space alone. *)
Lemma freed_used s S c x :
  spaces_ok s S → c ∈ S → space_frames s c (x / 4096) → used s c x ∧ ¬ lapic_byte s x.
Proof.
  intros Ho Hc Hg. pose proof (ss_space s S Ho c Hc) as Hs.
  assert (∀ t, t mod 4096 = 0 → x / 4096 = t / 4096 → in_page t x) as Hin by (unfold in_page; intros; dlia).
  destruct Hg as [(p & t & Hp & Hr & Hw & Hg)|(v & f & Hv & Hr & Hf & Hg)].
  - assert (table_byte s c x) as Ht.
    { exists p, t. split_and!; [done|by eapply reclaimed_half|done|]. apply Hin; [|done].
      by apply (tree_page _ _ (proj1 (sp_vm s c Hs)) p). }
    split; [by left|]. intros Hl. by apply (ss_lapic_table s S Ho c x).
  - destruct (uframe_spec _ _ _ _ (sp_mem s c Hs) Hf) as (Hf4 & _). pose proof (Hin f Hf4 Hg) as Hx.
    split; [right; by exists v, f|]. intros Hl. pose proof (ss_lapic_user s S Ho c v f x Hc Hv Hf Hx Hl) as Hv'.
    destruct Hl as [Hb0 _]. unfold full_path, reclaimed, skipped in Hr. rewrite !andb_true_iff, !negb_true_iff in Hr.
    destruct Hr as (E4 & _ & Hsk). replace (truthy (g_lapic_base s)) with true in Hsk by (unfold truthy; lia).
    apply andb_false_iff in Hsk as [|Hsk]; [done|]. apply Z.eqb_neq in Hsk. apply Hsk. f_equal.
    apply Z.eqb_eq in E4. unfold PML4_IDX, PDPT_IDX in *. rewrite idx_val in * by lia. rewrite Z.shiftr_div_pow2 by lia.
    unfold uaddr, PAGING_USER_BASE in Hv. unfold in_lapic, PAGING_HUGE in Hv'. clear - E4 Hv Hv'.
    change (2 ^ 39) with 549755813888 in *. change (2 ^ 30) with 1073741824. change (2 ^ 48) with 281474976710656 in *. dlia.
Qed.

Lemma free_space_spec s S c :
  spaces_ok s S → c ∈ S → c ≠ kernel_cr3 s →
  let s' := paging_free_address_space c s in
  gives s s' (space_frames s c) ∧ spaces_ok s' (S ∖ {[c]}) ∧ rest_kept s s' S (S ∖ {[c]}) (λ d, d ∈ S ∧ d ≠ c).
Proof.
  intros Ho Hc Hck s'. pose proof (ss_space s S Ho c Hc) as Hs. pose proof (ss_pos s S Ho c Hc) as Hc0.
  assert (gives s s' (space_frames s c)) as Hg.
  { unfold s', paging_free_address_space. replace ((c =? 0) || (c =? kernel_cr3 s)) with false by lia.
    eapply gives_ext; [|apply gives_tree; [apply (sp_mem s c Hs)|apply (sp_vm s c Hs)|lia]].
    intros g. apply frames_reclaimed; [done|]. destruct (ss_first s S Ho) as [pd Hpd].
    rewrite <- (ss_half s S Ho c) in Hpd by (done || apply path_first). simpl in Hpd. unfold is_table in Hpd.
    destruct (present (entry (vmem s) c 0)); done. }
  split; [exact Hg|]. destruct Hg as [(Em & Ek & El & Hfa) Hav]. clearbody s'.
  assert (∀ x, fa_avail (vframes s') (x / 4096) → fa_avail (vframes s) (x / 4096) ∨ (used s c x ∧ ¬ lapic_byte s x)) as Hav'.
  { intros x [?|[_ Hx]]%Hav; [by left|right; by eapply freed_used]. }
  assert (∀ d x, used s' d x ↔ used s d x) as Hu by (unfold used, table_byte, user_byte; by rewrite Em).
  assert (∀ d x, half_byte s' d x ↔ half_byte s d x) as Hh by (unfold half_byte; by rewrite Em).
  assert (∀ x, lapic_byte s' x ↔ lapic_byte s x) as Hl by (unfold lapic_byte; by rewrite El).
  pose proof (ss_kernel s S Ho) as Hk.
  assert (∀ d x, d ∈ S ∖ {[c]} → half_byte s d x ∨ used s d x → ¬ fa_avail (vframes s') (x / 4096)) as Hna.
  { intros d x [Hd Hdc]%elem_of_difference Hx [Ha|[Hcx Hlx]]%Hav'.
    - destruct Hx as [(p & t & ? & _ & ? & ?)|Hx]; [by eapply table_taken; [apply (ss_space s S Ho d Hd)|..]|].
      by eapply used_taken; [apply (ss_space s S Ho d Hd)|..].
    - destruct Hx as [Hx|Hx].
      + apply (half_not_used s c x Hs); [|done]. by rewrite (half_byte_kernel s S) in Hx |- *.
      + apply Hlx. apply (ss_apart s S Ho d c); try done. set_solver. }
  split; [split; rewrite ?Em, ?Ek|split].
  - intros d Hd. apply (space_ok_frame s s' d); [apply (ss_space s S Ho); set_solver|rewrite Em; apply (sp_mem s c Hs)|done|by rewrite Em|].
    intros x. by apply Hna.
  - set_solver.
  - apply (ss_first s S Ho).
  - intros d p Hd. apply (ss_half s S Ho). set_solver.
  - intros d e x Hd He Hne. rewrite !Hu, Hl. apply (ss_apart s S Ho); set_solver.
  - intros x. rewrite Hl, Hh. intros Hx. destruct (ss_lapic s S Ho x Hx). split; [|done]. by intros [?|[_ ?]]%Hav'.
  - intros d x Hd. rewrite Hl. unfold table_byte. rewrite Em. apply (ss_lapic_table s S Ho). set_solver.
  - intros d v f x Hd Hv Hf Hx. rewrite Hl. unfold in_lapic. rewrite El. apply (ss_lapic_user s S Ho d v f x); set_solver.
  - intros d Hd. apply (ss_pos s S Ho). set_solver.
  - unfold lapic_ok. rewrite El. apply (ss_lapic_ok s S Ho).
  - apply (ss_root s S Ho).
  - intros x (Ha & Hlx & Hn). split; [|by rewrite Em]. split; [|split; [by rewrite Hl|]].
    + intros [?|[Hcx _]]%Hav'; [done|]. exact (proj1 (Hn c Hc) Hcx).
    + intros d Hd. rewrite Hu, Hh. apply Hn. set_solver.
  - done.
  - intros d w _. by rewrite Em.
  - intros d p _ _. by rewrite Em.
  - intros d w f _ _ _ _. by rewrite Em.
Qed.

(** C6: Freeing the space of a process among several gives back exactly the frames of its
    user pages and tables below 512 GiB, except the GiB of the local APIC, and nothing
    of what another space, the kernel's tables or the kernel's data use: the spaces that
    remain are in order, map what they mapped and show what they showed. *)
Theorem paging_free_address_space_correct s S c :
  spaces_ok s S → c ∈ S → c ≠ kernel_cr3 s →
  let s' := paging_free_address_space c s in
  (∀ g, fa_avail (vframes s') g ↔ fa_avail (vframes s) g ∨ (g < MAX_FRAMES ∧ space_frames s c g)) ∧
  vmem s' = vmem s ∧ spaces_ok s' (S ∖ {[c]}) ∧ rest_kept s s' S (S ∖ {[c]}) (λ d, d ∈ S ∧ d ≠ c).
Proof.
  intros Ho Hc Hck s'. destruct (free_space_spec s S c Ho Hc Hck) as ([(Em & _) Hav] & Ho' & Hk). by split_and!.
Qed.
End Free.
