(* ===== verification/SpaceClone.v ===== *)
(** Copying an address space (paging_clone_user_space of mem/mm/paging.c), the memory
    side of [fork].

    The code walks the tables of the source and puts a copy of every user page into
    the destination.  [clones] is the code's test whether the page of an address is
    copied.  The theorem says that the destination then shows, page by page, what the
    source showed, in frames that were free: nothing the one process writes later is
    seen by the other. *)

From stdpp Require Import prelude numbers list gmap.
From Stdlib Require Import ZArith Lia.
From S2P Require Import Prelude Memory Frames Pmm Paging Space Elf Image Spaces.

Open Scope Z_scope.

(** ** Page numbers and their indices *)

Definition page_no (a b c k : Z) : Z := ((a * 512 + b) * 512 + c) * 512 + k.

Lemma page_no_of v : 0 ≤ v < 2 ^ 48 → v / 4096 = page_no (PML4_IDX v) (PDPT_IDX v) (PD_IDX v) (PT_IDX v).
Proof.
  intros Hv. unfold page_no, PML4_IDX, PDPT_IDX, PD_IDX, PT_IDX. rewrite !idx_val by lia.
  change (2 ^ 39) with 549755813888. change (2 ^ 30) with 1073741824. change (2 ^ 21) with 2097152.
  change (2 ^ 12) with 4096. change (2 ^ 48) with 281474976710656 in Hv. dlia.
Qed.

Lemma page_no_inj a b c k a' b' c' k' :
  idx_ok b → idx_ok c → idx_ok k → idx_ok b' → idx_ok c' → idx_ok k' →
  page_no a b c k = page_no a' b' c' k' → a = a' ∧ b = b' ∧ c = c' ∧ k = k'.
Proof. unfold idx_ok, page_no. lia. Qed.

(** The base address the code builds from the indices. *)
Lemma clone_base a b c :
  idx_ok a → idx_ok b → idx_ok c →
  Z.lor (Z.lor (Z.shiftl a 39) (Z.shiftl b 30)) (Z.shiftl c 21) = page_no a b c 0 * 4096.
Proof.
  unfold idx_ok, page_no. intros. rewrite !Z.shiftl_mul_pow2 by lia.
  change (2 ^ 39) with 549755813888. change (2 ^ 30) with 1073741824. change (2 ^ 21) with 2097152.
  rewrite (lor_aligned_add (a * 549755813888) (b * 1073741824) 39), (lor_aligned_add (_ + _) (c * 2097152) 30);
    change (2 ^ 39) with 549755813888; change (2 ^ 30) with 1073741824; try lia; dlia.
Qed.

(** Is the page of [v] copied? *)
Definition clones (m : mem) (src v : Z) : bool :=
  let e4 := entry m src (PML4_IDX v) in
  present e4 &&
  (let e3 := entry m (e_base e4) (PDPT_IDX v) in
   present e3 &&
   (let e2 := entry m (e_base e3) (PD_IDX v) in
    present e2 && is_user e2 &&
    (is_large e2 || (let e1 := entry m (e_base e2) (PT_IDX v) in present e1 && is_user e1)))).

Section Clone.
Context {A : Type} `{!FrameAllocator A, !FrameAllocatorOk A}.
Implicit Types s t : vm A.

(** ** One page *)

Definition copy_frame (srcp : Z) (m : mem) (n : Z) : mem := k_memcpy (pmm_zero_page m n) n srcp PAGING_PAGE.

Lemma copy_fills srcp m : mem_ok m → fills (copy_frame srcp) m.
Proof.
  intros Hm n _. unfold copy_frame, PAGING_PAGE.
  split; [apply mem_ok_memcpy, mem_ok_zero_page, Hm|]. intros x Hx.
  rewrite k_memcpy_frame by (unfold in_page in Hx; lia). apply zero_page_out, Hx.
Qed.

Lemma copy_frame_at srcp m n x :
  mem_ok m → srcp mod 4096 = 0 → n mod 4096 = 0 → srcp ≠ n → in_page n x → copy_frame srcp m n x = m (srcp + (x - n)).
Proof.
  intros Hm Hs Hn Hne Hx. unfold copy_frame, PAGING_PAGE. unfold in_page in Hx.
  rewrite k_memcpy_at; [|apply mem_ok_zero_page, Hm|dlia].
  replace ((n <=? x) && (x <? n + 4096)) with true by lia. apply zero_page_out. unfold in_page. dlia.
Qed.

#[local] Opaque k_memcpy pmm_zero_page.

Lemma clone_page_filled dst v srcp s :
  clone_page dst v srcp s =
  let '(n, ok, s') := filled_page (copy_frame srcp) dst v USER_RW s in
  if n =? 0 then inr (false, s') else if ok : bool then inl s' else inr (false, s').
Proof.
  unfold clone_page, filled_page. destruct (alloc_frame s) as [n s1]. destruct (Z.eqb_spec n 0) as [-> |Hn]; [done|].
  change (with_vmem (zero_page n s1) (k_memcpy (vmem (zero_page n s1)) n srcp PAGING_PAGE))
    with (with_vmem s1 (copy_frame srcp (vmem s1) n)).
  change (Z.lor PAGING_FLAG_USER PAGING_FLAG_WRITABLE) with USER_RW.
  destruct (paging_map dst v n USER_RW _) as [ok s2]. rewrite (proj2 (Z.eqb_neq n 0) Hn). by destruct ok.
Qed.

Section Loop.
Context (s : vm A) (S : gset Z) (src dst : Z).
Context (Hok : spaces_ok s S) (Hsrc : src ∈ S) (Hdst : dst ∈ S) (Hne : src ≠ dst) (Hdk : dst ≠ kernel_cr3 s).

(** The page of [v] has been dealt with in [t]. *)
Definition page_done t (v : Z) : Prop :=
  if clones (vmem s) src v
  then uview (vmem t) dst v = uview (vmem s) src v ∧
       ∃ f, uframe (vmem t) dst v = Some f ∧ fa_avail (vframes s) (f / 4096)
  else leaf (vmem t) dst v = leaf (vmem s) dst v.

(** The pages before number [N] are dealt with, the others are as they were. *)
Definition cloned (N : Z) t : Prop :=
  evolves dst s t ∧ ∀ v, uaddr v → ¬ in_lapic s v →
    if v / 4096 <? N then page_done t v else leaf (vmem t) dst v = leaf (vmem s) dst v.

(** Why a copy is given up: no frame is left (or frame 0 counted as free), or a page
    of the destination is in use already. *)
Definition clone_stuck t : Prop :=
  evolves dst s t ∧
  (fa_avail (vframes s) 0 ∨ (∀ g, ¬ fa_avail (vframes t) g) ∨ 
   ∃ v, uaddr v ∧ clones (vmem s) src v = true ∧ (in_lapic s v ∨ leaf (vmem s) dst v ≠ None)).

(** What is the same of the source while the copy is made. *)
Local Lemma source_kept t :
  evolves dst s t → spaces_ok t S ∧ rest_kept s t S S (λ d, d ∈ S ∧ d ≠ dst).
Proof. intros He. by apply moves_kept; [..|by apply evolves_moves]. Qed.

Lemma cloned_skip N N' t :
  cloned N t → N ≤ N' → (∀ v, uaddr v → N ≤ v / 4096 < N' → clones (vmem s) src v = false) → cloned N' t.
Proof.
  intros [He Hv] Hle Hno. split; [done|]. intros v Hu Hl. specialize (Hv v Hu Hl).
  destruct (Z.ltb_spec (v / 4096) N), (Z.ltb_spec (v / 4096) N'); try done; [lia|]. unfold page_done.
  by rewrite Hno by (done || lia).
Qed.

Lemma clone_page_step N t v f :
  cloned N t → uaddr v → v = N * 4096 → clones (vmem s) src v = true → uframe (vmem s) src v = Some f →
  match clone_page dst v f t with inl t' => cloned (N + 1) t' | inr r => r.1 = false ∧ clone_stuck r.2 end.
Proof.
  intros [He Hv] Hu EN Hc Hf. destruct (source_kept t He) as [Hot Hrk]. pose proof (ss_space t S Hot dst Hdst) as Hsd.
  assert (v mod 4096 = 0) as Hv4 by (rewrite EN; dlia).
  assert (uframe (vmem t) src v = Some f) as Hft.
  { unfold uframe in *. by rewrite translate_leaf, (rk_leaf _ _ _ _ _ Hrk), <- translate_leaf. }
  pose proof (filled_page_spec (copy_frame f) t dst v USER_RW Hsd (copy_fills f _ (sp_mem t dst Hsd)) Hu Hv4 ltac:(done)) as H.
  rewrite clone_page_filled. destruct (filled_page _ _ _ _ _) as [[n ok] t']. destruct H as (He' & _ & H).
  assert (evolves dst s t') as Hev by (by eapply evolves_trans).
  assert (∀ a a' : A, drained a a' → (∀ g, fa_avail a g → fa_avail (vframes s) g) →
    fa_avail (vframes s) 0 ∨ (∀ g, ¬ fa_avail a' g)) as Hdr by (intros a a' [|] Hsub; auto).
  destruct He as (_ & _ & Hsub). destruct (Z.eqb_spec n 0) as [|Hn].
  { destruct H as (_ & [_ Hd] & _). split; [done|]. split; [done|]. destruct (Hdr _ _ Hd Hsub); auto. }
  destruct ok.
  2:{ destruct H as (Hwhy & Hpk & _). split; [done|]. split; [done|]. destruct Hwhy as [[_ Hd]|Hl]; [destruct (Hdr _ _ Hd Hsub); auto|].
      right. right. exists v. split; [done|]. split; [done|]. destruct (Z.eq_dec (v / PAGING_HUGE) (g_lapic_base s / PAGING_HUGE)) as [|Hlap]; [by left|]. right.
      specialize (Hv v Hu Hlap). rewrite (proj2 (Z.ltb_ge _ _)) in Hv by (rewrite EN; dlia). by rewrite <- Hv. }
  destruct H as (Hav & _ & _ & Hfn & Hcp & Hpk). split; [done|]. intros w Hw Hlw. specialize (Hv w Hw Hlw).
  destruct (Z.ltb_spec (w / 4096) (N + 1)) as [Hlt|Hge].
  2:{ destruct (Hpk w Hw) as [-> _]; [unfold page_at; rewrite EN; dlia|]. by replace (w / 4096 <? N) with false in Hv by lia. }
  destruct (decide (w / 4096 = N)) as [EwN|HwN].
  2:{ destruct (Hpk w Hw) as [El Ev]; [unfold page_at; rewrite EN; dlia|]. replace (w / 4096 <? N) with true in Hv by lia.
      unfold page_done in *. destruct (clones (vmem s) src w); [|by rewrite El]. destruct Hv as [Hv (g & Hg & Hga)].
      split; [by rewrite Ev|]. exists g. split; [|done]. unfold uframe in *. rewrite translate_leaf.
      rewrite (leaf_page _ _ _ w), El by apply page_start. by rewrite translate_leaf, (leaf_page _ _ (w - w mod 4096) w) in Hg by apply page_start. }
  assert (w / 4096 = v / 4096) as Ewv by (rewrite EN; dlia). unfold page_done.
  assert (clones (vmem s) src w = true) as ->.
  { rewrite <- Hc. destruct (page_idx w v Ewv) as (E4 & E3 & E2 & E1). unfold clones. by rewrite E4, E3, E2, E1. }
  assert (uframe (vmem t') dst w = Some n) as Hwn by (by rewrite (uframe_page _ _ w v)).
  assert (uframe (vmem t) src w = Some f) as Hwf by (by rewrite (uframe_page _ _ w v)).
  assert (uframe (vmem s) src w = Some f) as Hwf0 by (by rewrite (uframe_page _ _ w v)).
  destruct (uframe_spec _ _ _ _ (sp_mem t src (ss_space t S Hot src Hsrc)) Hwf) as (Hf4 & _).
  destruct (uframe_spec _ _ _ _ (sp_mem t' dst (evolves_ok _ _ _ He')) Hwn) as (Hn4 & _).
  split; [|exists n; split; [done|by apply Hsub]]. rewrite (uview_of _ _ w n Hwn), Hcp by apply in_page_offset.
  rewrite copy_frame_at; [|apply (sp_mem t dst Hsd)|done|done| |apply in_page_offset].
  2:{ intros ->. by destruct (sp_frame t src (ss_space t S Hot src Hsrc) w n Hw Hwf) as [[] _]. }
  replace (f + (n + w mod 4096 - n)) with (f + w mod 4096) by lia. rewrite <- (uview_of _ src w f Hwf).
  apply (rk_view _ _ _ _ _ Hrk src w f); try done. intros Hl. apply Hlw.
  apply (ss_lapic_user s S Hok src w f _ Hsrc Hw Hwf0 (in_page_offset f w) Hl).
Qed.

(** ** The loops *)

(** The pages of a table, by number. *)
Local Lemma number_path v a b c k :
  uaddr v → idx_ok b → idx_ok c → idx_ok k → v / 4096 = page_no a b c k → full_path v = [a; b; c; k].
Proof.
  intros Hv Hb Hc Hk E. rewrite page_no_of in E by (unfold uaddr, PAGING_USER_BASE in Hv; lia).
  apply page_no_inj in E as (E4 & E3 & E2 & E1); [|apply pdpt_idx_ok|apply pd_idx_ok|apply pt_idx_ok|exact Hb|exact Hc|exact Hk].
  unfold full_path. by rewrite E4, E3, E2, E1.
Qed.

Local Lemma clones_at v a b c k spd :
  full_path v = [a; b; c; k] → walk (vmem s) src 4 [a; b] = Some spd →
  clones (vmem s) src v =
  let e2 := entry (vmem s) spd c in
  present e2 && is_user e2 && (is_large e2 || (let e1 := entry (vmem s) (e_base e2) k in present e1 && is_user e1)).
Proof.
  unfold full_path. intros [= E4 E3 E2 E1] Hw. unfold clones. rewrite E4, E3, E2, E1. simpl in Hw. unfold is_table in Hw. simpl in Hw.
  rewrite !andb_true_r in Hw. destruct (present (entry (vmem s) src a)); [|done]. destruct (present _); [|done]. by injection Hw as <-.
Qed.

Local Lemma leaf_path v a b c k spd :
  full_path v = [a; b; c; k] → walk (vmem s) src 4 [a; b] = Some spd →
  leaf (vmem s) src v =
  let e2 := entry (vmem s) spd c in
  if negb (present e2) then None else if is_large e2 then Some (true, e2)
  else let e1 := entry (vmem s) (e_base e2) k in if negb (present e1) then None else Some (false, e1).
Proof.
  unfold full_path. intros [= E4 E3 E2 E1] Hw. rewrite (leaf_pd _ src v spd); [by rewrite E2, E1|]. unfold pd_path. by rewrite E4, E3.
Qed.

(** The frame behind a page of the source. *)
Local Lemma source_frame v l e :
  uaddr v → v mod 4096 = 0 → leaf (vmem s) src v = Some (l, e) →
  uframe (vmem s) src v = Some (if l then e_base_large e + v mod 2097152 else e_base e).
Proof.
  intros Hv Hv4 Hl. pose proof (ss_space s S Hok src Hsrc) as Hs. pose proof (sp_mem s src Hs) as Hm.
  pose proof (leaf_u64 _ _ _ _ _ Hm Hl) as He.
  destruct (uframe (vmem s) src v) as [f|] eqn:Ef; [|by destruct (sp_map s src Hs v Hv); [rewrite Hl|]].
  f_equal. rewrite (uframe_value _ _ _ _ _ _ Hm Hl Ef), Hv4, Z.sub_0_r, e_base_div, e_base_large_div by done. done.
Qed.

Local Lemma entry_kept t p u i :
  evolves dst s t → path_ok p → idx_ok i → walk (vmem s) src 4 p = Some u → entry (vmem t) u i = entry (vmem s) u i.
Proof. intros He Hp Hi Hw. destruct (source_kept t He) as [_ Hrk]. by apply (rk_table _ _ _ _ _ Hrk src p (conj Hsrc Hne) Hp). Qed.

Definition clone_ends (N : Z) (r : vm A + bool * vm A) : Prop :=
  match r with inl t => cloned N t | inr r => r.1 = false ∧ clone_stuck r.2 end.

Lemma clone_pd_step a b c spd t :
  idx_ok a → idx_ok b → idx_ok c → walk (vmem s) src 4 [a; b] = Some spd →
  cloned (page_no a b c 0) t → clone_ends (page_no a b (c + 1) 0) (clone_pd_entry dst a b spd c t).
Proof.
  intros Ha Hb Hc Hw Ht. unfold clone_pd_entry. rewrite clone_base by done.
  set (N := page_no a b c 0) in *. replace (page_no a b (c + 1) 0) with (N + 512) by (unfold N, page_no; lia).
  assert (path_ok [a; b]) as Hp by (split; [by repeat (constructor; [done|])|simpl; lia]).
  rewrite (entry_kept t [a; b] spd c (proj1 Ht) Hp Hc Hw). set (e := entry (vmem s) spd c) in *.
  assert (∀ v, uaddr v → N ≤ v / 4096 < N + 512 → ∃ k, idx_ok k ∧ v / 4096 = N + k ∧ full_path v = [a; b; c; k]) as Hin.
  { intros v Hv Hr. exists (v / 4096 - N). assert (idx_ok (v / 4096 - N)) as Hk by (unfold idx_ok; lia). split; [done|]. split; [lia|].
    apply number_path; try done. unfold N, page_no. lia. }
  destruct (present e) eqn:Ep; cbn [negb].
  2:{ apply (cloned_skip N); [done|lia|]. intros v Hv Hr. destruct (Hin v Hv Hr) as (k & Hk & _ & Hf).
      rewrite (clones_at v a b c k spd Hf Hw). fold e. cbv zeta. by rewrite Ep. }
  destruct (is_user e) eqn:Eu; cbn [negb].
  2:{ apply (cloned_skip N); [done|lia|]. intros v Hv Hr. destruct (Hin v Hv Hr) as (k & Hk & _ & Hf).
      rewrite (clones_at v a b c k spd Hf Hw). fold e. cbv zeta. by rewrite Ep, Eu. }
  destruct (Z.ltb_spec (N * 4096) PAGING_USER_BASE) as [Hlow|Hhigh].
  { apply (cloned_skip N); [done|lia|]. intros v [Hv _] Hr. exfalso. unfold PAGING_USER_BASE in *.
    assert (N = (a * 512 + b) * 262144 + c * 512) as EN by (unfold N, page_no; lia). clear - Hv Hr Hlow EN. dlia. }
  assert (∀ k, idx_ok k → uaddr ((N + k) * 4096) ∧ full_path ((N + k) * 4096) = [a; b; c; k]) as Hpg.
  { intros k Hk. assert (uaddr ((N + k) * 4096)) as Hv.
    { unfold uaddr, N, page_no, idx_ok in *. change (2 ^ 48) with 281474976710656. lia. }
    split; [done|]. apply number_path; try done. rewrite Z.div_mul by lia. unfold N, page_no. lia. }
  destruct (is_large e) eqn:El.
  - apply (for_ind (λ k t, cloned (N + k) t) (λ r, r.1 = false ∧ clone_stuck r.2)); [lia|by rewrite Z.add_0_r|].
    intros k u Hk Hu. destruct (Hpg k Hk) as [Hv Hf]. unfold PAGING_PAGE.
    replace (N * 4096 + k * 4096) with ((N + k) * 4096) by lia. rewrite Z.add_assoc. apply clone_page_step; try done.
    + rewrite (clones_at _ a b c k spd Hf Hw). fold e. cbv zeta. by rewrite Ep, Eu, El.
    + rewrite (source_frame _ true e); [|done|dlia|rewrite (leaf_path _ a b c k spd Hf Hw); fold e; cbv zeta; by rewrite Ep, El].
      f_equal. f_equal. unfold N, page_no, idx_ok in *. dlia.
  - assert (walk (vmem s) src 4 [a; b; c] = Some (e_base e)) as Hw3.
    { change [a; b; c] with ([a; b] ++ [c]). rewrite walk_app, Hw. simpl. fold e. unfold is_table. simpl. by rewrite Ep, El. }
    assert (path_ok [a; b; c]) as Hp3 by (split; [by repeat (constructor; [done|])|simpl; lia]).
    apply (for_ind (λ k t, cloned (N + k) t) (λ r, r.1 = false ∧ clone_stuck r.2)); [lia|by rewrite Z.add_0_r|].
    intros k u Hk Hu. destruct (Hpg k Hk) as [Hv Hf]. cbv zeta. rewrite (entry_kept u [a; b; c] (e_base e) k (proj1 Hu) Hp3 Hk Hw3).
    set (pe := entry (vmem s) (e_base e) k).
    assert (clones (vmem s) src ((N + k) * 4096) = present pe && is_user pe) as Hcl.
    { rewrite (clones_at _ a b c k spd Hf Hw). fold e. cbv zeta. by rewrite Ep, Eu, El. }
    assert (present pe && is_user pe = false → cloned (N + (k + 1)) u) as Hskip.
    { intros Eno. apply (cloned_skip (N + k)); [done|lia|]. intros v Hvu Hr. rewrite <- Eno, <- Hcl.
      destruct (page_idx v ((N + k) * 4096)) as (E4 & E3 & E2 & E1); [dlia|]. unfold clones. by rewrite E4, E3, E2, E1. }
    destruct (present pe) eqn:Epe; cbn [negb]; [|by apply Hskip]. destruct (is_user pe) eqn:Eue; cbn [negb]; [|by apply Hskip].
    unfold PAGING_PAGE. replace (N * 4096 + k * 4096) with ((N + k) * 4096) by lia. rewrite Z.add_assoc. apply clone_page_step; try done.
    rewrite (source_frame _ false pe); [done|done|dlia|]. rewrite (leaf_path _ a b c k spd Hf Hw). fold e. cbv zeta. fold pe. by rewrite Ep, El, Epe.
Qed.

(** Nothing below an entry that is not present is copied. *)
Local Lemma clones_absent v a b :
  PML4_IDX v = a → PDPT_IDX v = b → walk (vmem s) src 4 [a; b] = None → clones (vmem s) src v = false.
Proof.
  intros E4 E3 Hw. unfold clones. rewrite E4, E3. simpl in Hw. unfold is_table in Hw. simpl in Hw. rewrite !andb_true_r in Hw.
  destruct (present (entry (vmem s) src a)); [|done]. by destruct (present _).
Qed.

Local Lemma number_high v a b :
  uaddr v → idx_ok b → page_no a b 0 0 ≤ v / 4096 < page_no a (b + 1) 0 0 → PML4_IDX v = a ∧ PDPT_IDX v = b.
Proof.
  intros Hv Hb. rewrite page_no_of by (unfold uaddr, PAGING_USER_BASE in Hv; lia).
  pose proof (pdpt_idx_ok v). pose proof (pd_idx_ok v). pose proof (pt_idx_ok v). unfold page_no, idx_ok in *. lia.
Qed.

Lemma clone_pdpt_step a b t :
  idx_ok a → idx_ok b → present (entry (vmem s) src a) = true → cloned (page_no a b 0 0) t →
  clone_ends (page_no a (b + 1) 0 0)
    (let e3 := entry (vmem t) (e_base (entry (vmem s) src a)) b in
     if negb (present e3) then inl t else for_ 0 512 (clone_pd_entry dst a b (e_base e3)) t).
Proof.
  intros Ha Hb Hp4 Ht. cbv zeta. assert (walk (vmem s) src 4 [a] = Some (e_base (entry (vmem s) src a))) as Hwa.
  { simpl. unfold is_table. simpl. by rewrite Hp4. }
  assert (path_ok [a]) as Hpa by (split; [by repeat (constructor; [done|])|simpl; lia]).
  rewrite (entry_kept t [a] _ b (proj1 Ht) Hpa Hb Hwa). set (e3 := entry (vmem s) (e_base _) b).
  destruct (present e3) eqn:Ep3; cbn [negb].
  - assert (walk (vmem s) src 4 [a; b] = Some (e_base e3)) as Hw.
    { change [a; b] with ([a] ++ [b]). rewrite walk_app, Hwa. simpl. fold e3. unfold is_table. simpl. by rewrite Ep3. }
    replace (page_no a (b + 1) 0 0) with (page_no a b 512 0) by (unfold page_no; lia).
    apply (for_ind (λ c t, cloned (page_no a b c 0) t) (λ r, r.1 = false ∧ clone_stuck r.2)); [lia|done|].
    intros c u Hc Hu. by apply clone_pd_step.
  - apply (cloned_skip (page_no a b 0 0)); [done|unfold page_no; lia|]. intros v Hv Hr. destruct (number_high v a b Hv Hb Hr) as [E4 E3].
    apply (clones_absent v a b); [done|done|]. change [a; b] with ([a] ++ [b]). rewrite walk_app, Hwa. simpl. fold e3. unfold is_table. simpl. by rewrite Ep3.
Qed.

Lemma clone_user_space_spec :
  0 < src → 0 < dst →
  let r := paging_clone_user_space src dst s in
  if r.1 then cloned (2 ^ 36) r.2 else clone_stuck r.2.
Proof.
  intros Hs0 Hd0. unfold paging_clone_user_space. replace ((src =? 0) || (dst =? 0)) with false by lia.
  assert (clone_ends (page_no 512 0 0 0) (for_ 0 512 (λ a s0,
            let e4 := entry (vmem s0) src a in
            if negb (present e4) then inl s0
            else for_ 0 512 (λ b s1,
                   let e3 := entry (vmem s1) (e_base e4) b in
                   if negb (present e3) then inl s1
                   else for_ 0 512 (clone_pd_entry dst a b (e_base e3)) s1) s0) s)) as H.
  { apply (for_ind (λ a t, cloned (page_no a 0 0 0) t) (λ r, r.1 = false ∧ clone_stuck r.2)); [lia| |].
    - split; [apply evolves_refl, (ss_space s S Hok), Hdst|]. intros v Hv _. unfold page_no.
      rewrite (proj2 (Z.ltb_ge _ _)) by (unfold uaddr, PAGING_USER_BASE in Hv; dlia). reflexivity.
    - intros a t Ha Ht. cbv zeta. rewrite (entry_kept t [] src a (proj1 Ht) nil_path_ok Ha eq_refl).
      destruct (present (entry (vmem s) src a)) eqn:Ep; cbn [negb].
      + replace (page_no (a + 1) 0 0 0) with (page_no a 512 0 0) by (unfold page_no; lia).
        apply (for_ind (λ b t, cloned (page_no a b 0 0) t) (λ r, r.1 = false ∧ clone_stuck r.2)); [lia|done|].
        intros b u Hb Hu. by apply (clone_pdpt_step a b u).
      + apply (cloned_skip (page_no a 0 0 0)); [done|unfold page_no; lia|]. intros v Hv Hr. assert (PML4_IDX v = a) as E4.
        { rewrite page_no_of in Hr by (unfold uaddr, PAGING_USER_BASE in Hv; lia). pose proof (pdpt_idx_ok v). pose proof (pd_idx_ok v).
          pose proof (pt_idx_ok v). unfold page_no, idx_ok in *. lia. }
        unfold clones. by rewrite E4, Ep. }
  destruct (for_ _ _ _ _) as [t|[b t]]; cbn [fst snd]; [exact H|]. destruct H as [E Hst]. cbn in E. by subst b.
Qed.
End Loop.

(** C5: A copy of the user half of one address space into a bare one, among several.  When
    it succeeds, every page the copy covers shows in the destination the bytes the source
    showed, in a frame that was free before, so no later write through one of the two is
    seen through the other; other pages of the destination are as before.  When it fails,
    no frame is left, or a page to copy was in use in the destination before the call
    (or lies at the local APIC), so into a bare space it fails for want of memory only.
    In both cases all spaces are in order and every other space, the source included,
    maps and shows what it did.  (The 2 MiB at the local APIC are left out.) *)
Theorem paging_clone_user_space_correct s S src dst :
  spaces_ok s S → src ∈ S → dst ∈ S → src ≠ dst → dst ≠ kernel_cr3 s →
  let r := paging_clone_user_space src dst s in
  spaces_ok r.2 S ∧ rest_kept s r.2 S S (λ d, d ∈ S ∧ d ≠ dst) ∧
  if r.1 then
    ∀ v, uaddr v → ¬ in_lapic s v →
      if clones (vmem s) src v
      then uview (vmem r.2) dst v = uview (vmem s) src v ∧
           ∃ f, uframe (vmem r.2) dst v = Some f ∧ fa_avail (vframes s) (f / 4096)
      else leaf (vmem r.2) dst v = leaf (vmem s) dst v
  else fa_avail (vframes s) 0 ∨ (∀ g, ¬ fa_avail (vframes r.2) g) ∨
       ∃ v, uaddr v ∧ clones (vmem s) src v = true ∧ (in_lapic s v ∨ leaf (vmem s) dst v ≠ None).
Proof.
  intros Ho Hsrc Hdst Hne Hdk r.
  pose proof (clone_user_space_spec s S src dst Ho Hsrc Hdst Hne Hdk (ss_pos s S Ho src Hsrc) (ss_pos s S Ho dst Hdst)) as H. fold r in H.
  cbv zeta in H. clearbody r.
  assert (evolves dst s r.2) as He by (destruct r.1; apply H).
  destruct (moves_kept s r.2 S dst Ho Hdst Hdk (evolves_moves _ _ _ He)) as [Ho' Hk]. split; [done|]. split; [done|].
  destruct r.1; [|apply H]. intros v Hv Hl. pose proof (proj2 H v Hv Hl) as Hd. unfold page_done in Hd.
  replace (v / 4096 <? 2 ^ 36) with true in Hd; [exact Hd|]. unfold uaddr, PAGING_USER_BASE in Hv.
  change (2 ^ 36) with 68719476736. change (2 ^ 48) with 281474976710656 in Hv. symmetry. apply Z.ltb_lt. dlia.
Qed.
End Clone.
