(* ===== verification/SpacesDemo.v ===== *)
(** The theorems on whole address spaces at a concrete machine.

    The kernel's tables at 64 KiB map the first 2 MiB; frames 20 to 31 are free.  A
    process space is made in frames 20 and 21 and gets a page at 1 GiB (frame 22, under
    tables in 23 and 24), and a second space is made in frames 25 and 26.  The page is
    then copied into the second space, or the first space is freed. *)

From stdpp Require Import prelude numbers list gmap.
From Stdlib Require Import ZArith Lia.
From S2P Require Import Prelude Memory Frames Pmm Paging Space Elf Image ImageDemo Spaces SpaceFree SpaceClone.

Open Scope Z_scope.

(** Frames 20 to 31 free, everything else in use. *)
Definition twelve : list Z := [20; 21; 22; 23; 24; 25; 26; 27; 28; 29; 30; 31].
Definition free_list (l : list Z) : pmm := foldr (λ f, fa_free (f * 4096)) pmm_bss l.
Definition pmm_twelve : pmm := free_list twelve.

Lemma free_list_avail l :
  Forall (λ f, 0 ≤ f) l →
  fa_ok (free_list l) ∧ ∀ g, fa_avail (free_list l) g → g ∈ l.
Proof.
  unfold free_list.
  induction 1 as [|f l Hf _ [IH1 IH2]]; cbn [foldr].
  - split; [apply pmm_inv_bss|]. intros g [_ Hg]. rewrite frame_is_free_bit in Hg.
    change (bitmap pmm_bss (g / 8)) with 0 in Hg. by rewrite Z.testbit_0_l in Hg.
  - destruct (fa_free_spec (f * 4096) _ IH1 ltac:(simpl in Hf; lia)) as [H1 H2]. split; [exact H1|].
    intros g [Hg|[-> _]]%H2; [right; by apply IH2|]. replace (f * 4096 / PMM_FRAME_SIZE) with f by (unfold PMM_FRAME_SIZE; dlia). left.
Qed.

Lemma twelve_ok : fa_ok pmm_twelve.
Proof. unfold pmm_twelve. apply free_list_avail. repeat constructor; lia. Qed.
Lemma twelve_avail g : fa_avail pmm_twelve g → 20 ≤ g ≤ 31.
Proof.
  unfold pmm_twelve. intros H. assert (Forall (λ f, 0 ≤ f) twelve) as Hl by (repeat constructor; lia).
  pose proof (proj2 (free_list_avail twelve Hl) g H) as Hg. clear H.
  unfold twelve in Hg. rewrite !elem_of_cons, elem_of_nil in Hg. lia.
Qed.

(** The kernel alone. *)
Definition boot_vm : vm pmm :=
  {| vmem := huge_mem 0 0; vframes := pmm_twelve; kernel_cr3 := 65536; g_lapic_base := 0 |}.

Lemma boot_walk p t :
  path_ok p → walk (vmem boot_vm) 65536 4 p = Some t → 16 ≤ t / 4096 ≤ 18 ∧ t mod 4096 = 0.
Proof. intros Hp Hw. by destruct (huge_table 0 0 ltac:(lia) ltac:(lia) p t Hp Hw) as [-> |[-> | ->]]. Qed.

Lemma boot_frame v : uaddr v → uframe (vmem boot_vm) 65536 v = None.
Proof.
  intros Hv. cbn [vmem boot_vm]. rewrite huge_frame by (lia || done). unfold uaddr, PAGING_USER_BASE in Hv.
  by rewrite (proj2 (Z.eqb_neq _ _)) by dlia.
Qed.

Lemma boot_space : space_ok boot_vm 65536.
Proof.
  apply (space_ok_frame (huge_vm 0 0) boot_vm 65536); [by apply huge_space_ok|apply huge_mem_ok|apply twelve_ok|done|].
  assert (∀ p t x, path_ok p → walk (vmem boot_vm) 65536 4 p = Some t → in_page t x → ¬ fa_avail pmm_twelve (x / 4096)) as H.
  { intros p t x Hp Hw Hx Ha%twelve_avail. destruct (boot_walk p t Hp Hw) as [Hr Hm].
    rewrite (page_frame t x Hm Hx) in Ha. lia. }
  intros x [(p & t & Hp & _ & Hw & Hx)|[(p & t & Hp & _ & Hw & Hx)|(v & f & Hv & Hf & _)]]; [by eapply H..|].
  change (vmem (huge_vm 0 0)) with (vmem boot_vm) in Hf. by rewrite boot_frame in Hf.
Qed.

Lemma boot_spaces : spaces_ok boot_vm {[65536]}.
Proof.
  assert (∀ x, ¬ lapic_byte boot_vm x) as Hl by (by intros x [? _]).
  split.
  - intros c ->%elem_of_singleton. apply boot_space.
  - by apply elem_of_singleton.
  - eexists. cbn [vmem kernel_cr3 boot_vm]. rewrite huge_walk by (lia || apply path_first). reflexivity.
  - by intros c p ->%elem_of_singleton.
  - intros c d x ->%elem_of_singleton ->%elem_of_singleton. done.
  - intros x Hx. by destruct (Hl x).
  - intros c x _ Hx. by destruct (Hl x).
  - intros c v f x _ _ _ _ Hx. by destruct (Hl x).
  - by intros c ->%elem_of_singleton.
  - by left.
  - intros i Hi. cbn [vmem kernel_cr3 boot_vm]. rewrite huge_entry by (lia || done || unfold idx_ok; lia).
    cbn [Z.eqb Pos.eqb andb]. by rewrite (proj2 (Z.eqb_neq i 0)) by lia.
Qed.

(** A first process with one page, and an empty second one. *)
Definition first_vm : vm pmm := (paging_new_address_space boot_vm).2.
Definition paged_vm : vm pmm := (fresh_page 81920 1073741824 6 first_vm).2.
Definition two_vm : vm pmm := (paging_new_address_space paged_vm).2.

Lemma first_spaces : spaces_ok first_vm ({[81920]} ∪ {[65536]}).
Proof.
  pose proof (new_space_spec boot_vm {[65536]} boot_spaces) as H. cbv zeta in H.
  assert ((paging_new_address_space boot_vm).1 = 81920) as E by (lazy; reflexivity).
  rewrite E in H. cbn [Z.eqb] in H. apply H.
Qed.

Lemma paged_spaces : spaces_ok paged_vm ({[81920]} ∪ {[65536]}).
Proof.
  assert (81920 ∈ ({[81920]} ∪ {[65536]} : gset Z)) as Hin by set_solver.
  pose proof (fresh_page_spec first_vm 81920 1073741824 6 (ss_space _ _ first_spaces _ Hin)) as H.
  assert (kernel_cr3 first_vm = 65536) as Ek by (lazy; reflexivity).
  apply (moves_kept first_vm paged_vm _ 81920 first_spaces Hin); [by rewrite Ek|].
  apply evolves_moves. unfold paged_vm. destruct (fresh_page 81920 1073741824 6 first_vm) as [[n ok] s'] eqn:E. 
  apply H; [unfold uaddr, PAGING_USER_BASE; lia|done|lia].
Qed.

Lemma two_spaces : spaces_ok two_vm ({[102400]} ∪ ({[81920]} ∪ {[65536]})).
Proof.
  pose proof (new_space_spec paged_vm _ paged_spaces) as H. cbv zeta in H.
  assert ((paging_new_address_space paged_vm).1 = 102400) as E by (lazy; reflexivity).
  rewrite E in H. cbn [Z.eqb] in H. apply H.
Qed.

Lemma two_kernel : kernel_cr3 two_vm = 65536 ∧ g_lapic_base two_vm = 0.
Proof. split; lazy; reflexivity. Qed.

(** The first process keeps its page; when the copy succeeds it shows in the second. *)
Lemma paging_clone_user_space_witness :
  let r := paging_clone_user_space 81920 102400 two_vm in
  uview (vmem r.2) 81920 1073741829 = Some 0 ∧
  (r.1 = true → uview (vmem r.2) 102400 1073741829 = Some 0).
Proof.
  assert (uview (vmem two_vm) 81920 1073741829 = Some 0) as Ev by (lazy; reflexivity).
  assert (uframe (vmem two_vm) 81920 1073741829 = Some 90112) as Ef by (lazy; reflexivity).
  assert (clones (vmem two_vm) 81920 1073741829 = true) as Ec by (lazy; reflexivity).
  intros r. assert (uaddr 1073741829) as Hu by (unfold uaddr, PAGING_USER_BASE; lia).
  destruct (paging_clone_user_space_correct two_vm _ 81920 102400 two_spaces) as (_ & Hk & H);
    [set_solver|set_solver|done|by rewrite (proj1 two_kernel)|]. fold r in Hk, H. clearbody r. split.
  - rewrite <- Ev. apply (rk_view _ _ _ _ _ Hk 81920 _ 90112); [|exact Hu|exact Ef|intros [Hl _]; exact (Hl (proj2 two_kernel))].
    split; [set_solver|discriminate].
  - intros E. rewrite E in H. specialize (H 1073741829 Hu). unfold in_lapic in H. rewrite (proj2 two_kernel), Ec in H.
    rewrite <- Ev. apply H. discriminate.
Defined.

(** Freeing the first process gives back the frame of its page, and keeps the second. *)
Lemma paging_free_address_space_witness :
  fa_avail (vframes (paging_free_address_space 81920 two_vm)) 22 ∧
  spaces_ok (paging_free_address_space 81920 two_vm) (({[102400]} ∪ ({[81920]} ∪ {[65536]})) ∖ {[81920]}).
Proof.
  destruct (paging_free_address_space_correct two_vm _ 81920 two_spaces) as (H & _ & Hs & _);
    [set_solver|by rewrite (proj1 two_kernel)|]. split; [|exact Hs].
  apply H. right. split; [reflexivity|]. right. exists 1073741824, 90112.
  split; [unfold uaddr, PAGING_USER_BASE; lia|]. split; [lazy; reflexivity|]. split; lazy; reflexivity.
Defined.
