(* ===== verification/Mmap.v ===== *)
(** Anonymous mappings (sys_mmap and sys_munmap of
    arch/x86_64/syscall/syscall_dispatch.c).

    [mmap_in] and [munmap_in] are the two functions after the current process has
    been looked up: they work on its address space [cr3] and its mapping cursor.
    Pages are mapped upwards from the cursor, one zeroed frame each; the result of
    [paging_map] is not looked at, and when no frame is left the pages before are
    unmapped, their frames given back once by the call and once by [paging_unmap].

    The theorems say what the process sees afterwards in an address space with the
    invariant [space_ok] of Space.v. *)

From stdpp Require Import prelude numbers list.
From Stdlib Require Import ZArith Lia.
From S2P Require Import Prelude Memory Frames Pmm Paging Space Bytes Pcb Elf Image ImageDemo.

Open Scope Z_scope.

Definition MMAP_FLAGS : Z := Z.lor (Z.lor PAGING_FLAG_PRESENT PAGING_FLAG_WRITABLE) PAGING_FLAG_USER.
Definition SYS_ERROR : Z := u64 (-1).

(** [(len + 4095) & ~4095ULL] *)
Definition page_round (len : Z) : Z := Z.land (u64 (len + 4095)) (u64 (Z.lnot 4095)).

Section Mmap.
Context {A : Type} `{!FrameAllocator A}.

(** [for (v2 = base; v2 < va; v2 += 4096)] after [k] pages. *)
Definition mmap_undo (cr3 base k : Z) (s : vm A) : vm A :=
  for_do 0 k (λ j s,
    let v2 := base + 4096 * j in
    paging_unmap cr3 v2 (free_frame (paging_translate (vmem s) cr3 v2) s)) s.

(** One round of the loop; [inr] is the failure, with the pages before undone. *)
Definition mmap_page (cr3 base k : Z) (s : vm A) : vm A + vm A :=
  let '(phys, s) := alloc_frame s in
  if phys =? 0 then inr (mmap_undo cr3 base k s)
  else inl (paging_map cr3 (base + 4096 * k) phys MMAP_FLAGS (zero_page phys s)).2.

(** The result, the cursor and the memory. *)
Definition mmap_in (cr3 cursor len : Z) (s : vm A) : Z * Z * vm A :=
  let len := page_round (if len =? 0 then 4096 else len) in
  if 0x40000000 <? len then (SYS_ERROR, cursor, s)
  else if PROCESS_USER_STACK_TOP <? u64 (cursor + len) then (SYS_ERROR, cursor, s)
  else
    match for_ 0 ((u64 (cursor + len) - cursor) / 4096) (mmap_page cr3 cursor) s with
    | inl s => (cursor, u64 (cursor + len), s)
    | inr s => (SYS_ERROR, cursor, s)
    end.

Definition munmap_page (cr3 va : Z) (s : vm A) : vm A :=
  let phys := paging_translate (vmem s) cr3 va in
  paging_unmap cr3 va (if truthy phys then free_frame phys s else s).

Definition munmap_in (cr3 addr len : Z) (s : vm A) : Z * vm A :=
  let len := page_round len in
  if (len =? 0) || (addr <? PAGING_USER_BASE) || (PROCESS_USER_STACK_TOP <=? u64 (addr + len))
  then (-1, s)
  else (0, for_do 0 ((u64 (addr + len) - addr) / 4096) (λ k, munmap_page cr3 (addr + 4096 * k)) s).
End Mmap.

Lemma page_round_div len : 0 ≤ len < 18446744073709551616 - 4095 → page_round len = (len + 4095) / 4096 * 4096.
Proof.
  intros Hl. unfold page_round. rewrite u64_small by lia. change 4095 with (2 ^ 12 - 1) at 2.
  rewrite round_down_mask; [done|lia|unfold is_u64; lia].
Qed.

(** The pages of a mapping of [len] bytes; a mapping of no bytes gets one. *)
Definition mmap_pages (len : Z) : Z := if len =? 0 then 1 else (len + 4095) / 4096.

Section Correct.
Context {A : Type} `{!FrameAllocator A, !FrameAllocatorOk A}.
Implicit Types s : vm A.

(** ** Unmapping *)

(** The page of [w] is unmapped or an ordinary 4 KiB page. *)
Definition small_page (m : mem) (cr3 w : Z) : Prop :=
  leaf m cr3 w = None ∨ ∃ e, leaf m cr3 w = Some (false, e) ∧ 0 < e_base e.

(** The pages of [R] have been taken away: they are unmapped, exactly their frames have
    become free, and the other pages and the kernel's bytes are as before. *)
Record released (cr3 : Z) (R : Z → Prop) s s' : Prop := {
  rel_space : space_ok s' cr3;
  rel_kernel : ∀ x, kernel_byte s cr3 x → kernel_byte s' cr3 x ∧ vmem s' x = vmem s x;
  rel_kept : pages_kept cr3 R s s';
  rel_gone : ∀ w, uaddr w → R w → leaf (vmem s') cr3 w = None;
  rel_frames : ∀ g, fa_avail (vframes s') g ↔
    fa_avail (vframes s) g ∨ ∃ w f, uaddr w ∧ R w ∧ uframe (vmem s) cr3 w = Some f ∧ g = f / 4096 ∧ g < MAX_FRAMES
}.

Lemma small_frame m cr3 v e :
  mem_ok m → leaf m cr3 v = Some (false, e) → 0 < e_base e →
  uframe m cr3 v = Some (e_base e) ∧ e_base e / 4096 = e / 4096 ∧ paging_translate m cr3 v = e_base e + v mod 4096.
Proof.
  intros Hm Hl He. assert (uframe m cr3 v = Some (e_base e)) as Hf.
  { unfold uframe. rewrite translate_leaf, (leaf_page m cr3 (v - v mod 4096) v), Hl by apply page_start.
    unfold leaf_addr. rewrite land_offset, (proj2 (page_start v)), Z.add_0_r.
    pose proof (leaf_u64 m cr3 v _ e Hm Hl) as Hu. rewrite e_base_div in * by done. unfold is_u64 in Hu.
    rewrite u64_small by dlia. by replace (e / 4096 * 4096 =? 0) with false by lia. }
  split; [done|]. destruct (uframe_spec _ _ _ _ Hm Hf) as (_ & _ & _ & Ht). split; [|done].
  rewrite e_base_div by (by eapply leaf_u64). dlia.
Qed.

Lemma munmap_page_spec s cr3 va :
  space_ok s cr3 → uaddr va → small_page (vmem s) cr3 va →
  released cr3 (page_at va) s (munmap_page cr3 va s).
Proof.
  intros Hs Hva Hsmall. pose proof Hs as [Hvm Hm Hfr Hi Hmp]. unfold munmap_page.
  assert (∀ w, page_at va w → leaf (vmem s) cr3 w = leaf (vmem s) cr3 va) as Hpl by (intros w Hw; by apply leaf_page).
  destruct Hsmall as [Hn|(e & Hl & He)].
  { assert (paging_translate (vmem s) cr3 va = 0) as -> by (by rewrite translate_leaf, Hn).
    pose proof (paging_unmap_spec s cr3 va Hvm Hm Hva) as Hu. rewrite Hn in Hu. cbn. rewrite Hu.
    split; [done|done|by intros w| |].
    - intros w _ Hw. by rewrite Hpl.
    - intros g. split; [by left|]. intros [|(w & f & Hw & Hp & Hf & _)]; [done|].
      by rewrite uframe_leaf in Hf by (by rewrite Hpl). }
  destruct (small_frame _ _ _ _ Hm Hl He) as (Hf & Hdiv & Ht). pose proof (Z.mod_pos_bound va 4096 ltac:(lia)) as Hmod.
  rewrite Ht. replace (truthy (e_base e + va mod 4096)) with true by (unfold truthy; lia).
  destruct (uframe_spec _ _ _ _ Hm Hf) as (Hf4 & _ & _ & _).
  destruct (Hfr va (e_base e) Hva Hf) as [Hfa Hft]. pose proof Hvm as (Htree & Hok & Hap).
  destruct (fa_free_spec (e_base e + va mod 4096) (vframes s) Hok ltac:(lia)) as [Hok1 Hav1].
  unfold PMM_FRAME_SIZE in Hav1. replace ((e_base e + va mod 4096) / 4096) with (e / 4096) in Hav1 by dlia.
  set (s1 := free_frame (e_base e + va mod 4096) s) in *.
  assert (∀ p t, path_ok p → walk (vmem s) cr3 4 p = Some t → t / 4096 ≠ e / 4096) as Htab.
  { intros p t Hp Hw E. apply (Hft p t Hp Hw). pose proof (tree_page _ _ Htree p t Hp Hw). dlia. }
  assert (vm_ok s1 cr3) as Hvm1.
  { split; [done|]. split; [done|]. intros p t Hp Hw [Hg|[E _]]%Hav1; [by eapply Hap|by eapply Htab]. }
  pose proof (paging_unmap_spec s1 cr3 va Hvm1 Hm Hva) as Hu. cbn [vmem s1 free_frame with_vframes] in Hu. rewrite Hl in Hu.
  destruct Hu as (Hvm2 & Hout & Hav2 & Hm2 & Hwalk & Hleaf). { intros p t Hp Hw. cbn. by eapply Htab. }
  set (s2 := paging_unmap cr3 va s1) in *. cbn [same_leaf leaf_frames] in *.
  assert (∀ g, fa_avail (vframes s2) g ↔ fa_avail (vframes s) g ∨ (g = e / 4096 ∧ g < MAX_FRAMES)) as Hav.
  { intros g. rewrite Hav2. cbn [vframes s1 free_frame with_vframes]. rewrite Hav1. tauto. }
  assert (∀ w, uaddr w → leaf (vmem s2) cr3 w = if w / 4096 =? va / 4096 then None else leaf (vmem s) cr3 w) as Hlf.
  { intros w Hw. apply Hleaf. unfold uaddr, PAGING_USER_BASE in Hw. lia. }
  assert (∀ w, uaddr w → uframe (vmem s2) cr3 w = if w / 4096 =? va / 4096 then None else uframe (vmem s) cr3 w) as Huf.
  { intros w Hw. unfold uframe. rewrite !translate_leaf, !(leaf_page _ cr3 (w - w mod 4096) w) by apply page_start.
    rewrite Hlf by done. by destruct (w / 4096 =? va / 4096). }
  assert (∀ w f, uaddr w → uframe (vmem s) cr3 w = Some f → w / 4096 ≠ va / 4096 → f / 4096 ≠ e / 4096) as Hother.
  { intros w f Hw Hf' Hne E. apply Hne. apply (Hi w va f Hw Hva Hf'). rewrite Hf. f_equal.
    destruct (uframe_spec _ _ _ _ Hm Hf') as (Hf'4 & _). dlia. }
  assert (∀ x, (∀ p t, path_ok p → half p = false → walk (vmem s) cr3 4 p = Some t → ¬ in_page t x) → vmem s2 x = vmem s x) as Hmem.
  { intros x Hx. rewrite (Hout x); [done|]. intros p t Hp Hh. rewrite Hwalk by done. by apply Hx. }
  split.
  - split; [done|done| | |].
    + intros w f Hw. rewrite Huf by done. destruct (Z.eqb_spec (w / 4096) (va / 4096)) as [|Hne]; [done|]. intros Hf'.
      destruct (Hfr w f Hw Hf') as [Hna Hnt]. split.
      * rewrite Hav. intros [|[E _]]; [done|]. by apply (Hother w f Hw Hf' Hne).
      * intros p t Hp. rewrite Hwalk by done. by apply Hnt.
    + intros v w f Hv Hw. rewrite !Huf by done. repeat split_if; try done. by apply Hi.
    + intros w Hw. rewrite Huf, Hlf by done. split_if; [done|]. by apply Hmp.
  - intros x (Hna & Hnt & Hnu). split; [|by apply Hmem]. split; [|split].
    + rewrite Hav. intros [|[E _]]; [done|]. apply (Hnu va _ Hva Hf). unfold in_page. dlia.
    + intros p t Hp Hh. rewrite Hwalk by done. by apply Hnt.
    + intros w f Hw. rewrite Huf by done. split_if; [done|]. by apply Hnu.
  - intros w Hw Hne. unfold page_at in Hne. rewrite Hlf by done. unfold uview. rewrite Huf by done.
    replace (w / 4096 =? va / 4096) with false by lia. split; [done|].
    destruct (uframe (vmem s) cr3 w) as [f|] eqn:Ef; [|done]. obind. obind. f_equal. apply Hmem.
    intros p t Hp _ Hw' Hx. destruct (Hfr w f Hw Ef) as [_ Hnt]. apply (Hnt p t Hp Hw').
    apply (pages_disjoint t f (f + w mod 4096)); try done; [by apply (tree_page _ _ Htree p)| |by apply in_page_offset].
    by destruct (uframe_spec _ _ _ _ Hm Ef).
  - intros w Hw Hp. rewrite Hlf by done. unfold page_at in Hp. by rewrite Hp, Z.eqb_refl.
  - intros g. rewrite Hav. split.
    + intros [|[-> Hg]]; [by left|right]. exists va, (e_base e). by rewrite Hdiv.
    + intros [|(w & f & Hw & Hp & Hf' & -> & Hg)]; [by left|right]. split; [|done].
      rewrite (uframe_page _ _ w va Hp), Hf in Hf'. injection Hf' as <-. done.
Qed.

Lemma leaf_uframe m m' cr3 w : leaf m' cr3 w = leaf m cr3 w → uframe m' cr3 w = uframe m cr3 w.
Proof.
  intros E. unfold uframe. rewrite !translate_leaf.
  by rewrite !(leaf_page _ cr3 (w - w mod 4096) w), E by apply page_start.
Qed.

Lemma released_refl cr3 a s : space_ok s cr3 → released cr3 (in_pages a 0) s s.
Proof.
  intros Hs. assert (∀ w, ¬ in_pages a 0 w) as Hno by (unfold in_pages; intros w; lia).
  split; [done|done|by intros w| |]; [intros w _ Hw; by destruct (Hno w)|].
  intros g. split; [by left|]. intros [|(w & f & _ & Hw & _)]; [done|]. by destruct (Hno w).
Qed.

(** One more page at the end of the range. *)
Lemma released_snoc cr3 a k s s1 s2 :
  a mod 4096 = 0 → 0 ≤ k →
  released cr3 (in_pages a k) s s1 → released cr3 (page_at (a + 4096 * k)) s1 s2 →
  released cr3 (in_pages a (k + 1)) s s2.
Proof.
  intros Ha Hk [Hs1 Hk1 Hp1 Hg1 Hf1] [Hs2 Hk2 Hp2 Hg2 Hf2].
  assert (∀ w, in_pages a (k + 1) w ↔ in_pages a k w ∨ page_at (a + 4096 * k) w) as Hin
    by (intros w; unfold in_pages, page_at; split; intros; dlia).
  assert (∀ w, in_pages a k w → ¬ page_at (a + 4096 * k) w) as Hdis
    by (intros w; unfold in_pages, page_at; intros; dlia).
  split; [done| | | |].
  - intros x Hx. destruct (Hk1 x Hx) as [Hx1 <-]. by apply Hk2.
  - intros w Hw Hni. rewrite Hin in Hni. destruct (Hp2 w Hw) as [-> ->]; [tauto|]. apply Hp1; tauto.
  - intros w Hw [Hi|Hi]%Hin; [|by apply Hg2]. destruct (Hp2 w Hw (Hdis w Hi)) as [-> _]. by apply Hg1.
  - intros g. rewrite Hf2, Hf1. split.
    + intros [[|(w & f & ? & ? & ?)]|(w & f & Hw & Hi & Hf & Hg)]; [by left|right; exists w, f; rewrite Hin; tauto|].
      right. exists w, f. rewrite Hin. split; [done|]. split; [by right|]. split; [|done]. rewrite <- Hf. symmetry.
      apply leaf_uframe, Hp1; [done|]. intros Hi'. by apply (Hdis w).
    + intros [|(w & f & Hw & [Hi|Hi]%Hin & Hf & Hg)]; [by left; left|left; right; exists w, f; tauto|].
      right. exists w, f. split; [done|]. split; [done|]. split; [|done]. rewrite <- Hf.
      apply leaf_uframe, Hp1; [done|]. intros Hi'. by apply (Hdis w).
Qed.

(** A loop over pages, each unmapped by [body]. *)
Lemma released_range cr3 a n (body : Z → vm A → vm A) s :
  space_ok s cr3 → PAGING_USER_BASE ≤ a → a mod 4096 = 0 → 0 ≤ n → a + 4096 * n ≤ 2 ^ 48 →
  (∀ w, in_pages a n w → small_page (vmem s) cr3 w) →
  (∀ k t, 0 ≤ k < n → space_ok t cr3 → small_page (vmem t) cr3 (a + 4096 * k) →
    leaf (vmem t) cr3 (a + 4096 * k) = leaf (vmem s) cr3 (a + 4096 * k) → body k t = munmap_page cr3 (a + 4096 * k) t) →
  released cr3 (in_pages a n) s (for_do 0 n body s).
Proof.
  intros Hs Hlow Ha Hn Hhigh Hsmall Hbody. unfold PAGING_USER_BASE in Hlow.
  apply (for_do_ind (λ k t, released cr3 (in_pages a k) s t)); [done|by apply released_refl|].
  intros k t Hk Hr. pose proof Hr as [Ht _ Hkept _ _].
  assert (uaddr (a + 4096 * k)) as Hua by (unfold uaddr, PAGING_USER_BASE; lia).
  assert (leaf (vmem t) cr3 (a + 4096 * k) = leaf (vmem s) cr3 (a + 4096 * k)) as El
    by (apply Hkept; [done|unfold in_pages; lia]).
  assert (small_page (vmem t) cr3 (a + 4096 * k)) as Hsm.
  { unfold small_page. rewrite El. apply Hsmall. unfold in_pages. lia. }
  rewrite Hbody by (done || lia). apply (released_snoc cr3 a k s t); [done|lia|done|]. by apply munmap_page_spec.
Qed.

Lemma munmap_in_spec s cr3 addr len :
  space_ok s cr3 → 0 ≤ addr < 18446744073709551616 → addr mod 4096 = 0 → 0 ≤ len < 18446744073709551616 - 4095 →
  let n := (len + 4095) / 4096 in
  (∀ w, in_pages addr n w → small_page (vmem s) cr3 w) →
  let r := munmap_in cr3 addr len s in
  if (len =? 0) || (addr <? PAGING_USER_BASE) || (PROCESS_USER_STACK_TOP <=? u64 (addr + 4096 * n))
  then r = (-1, s)
  else r.1 = 0 ∧ (addr + 4096 * n < 18446744073709551616 → released cr3 (in_pages addr n) s r.2).
Proof.
  intros Hs Ha Ha4 Hl n Hsmall. unfold munmap_in. rewrite page_round_div by done. fold n.
  replace (n * 4096) with (4096 * n) by lia.
  assert ((4096 * n =? 0) = (len =? 0)) as -> by (unfold n; destruct (Z.eqb_spec len 0); dlia).
  destruct (_ || _) eqn:E; [done|]. split; [done|]. cbn [snd]. intros Hlt.
  assert (0 ≤ n) as Hn by (unfold n; dlia). rewrite u64_small in E |- * by lia.
  unfold PAGING_USER_BASE, PROCESS_USER_STACK_TOP in E.
  replace ((addr + 4096 * n - addr) / 4096) with n by dlia.
  apply released_range; try done; [unfold PAGING_USER_BASE; lia|lia].
Qed.

(** ** Mapping *)

(** The page at [w] came from a frame free in [s]: zeroed in [t]. *)
Definition new_page (cr3 : Z) s (t : vm A) (w : Z) : Prop :=
  uview (vmem t) cr3 w = Some 0 ∧ (∃ e, leaf (vmem t) cr3 w = Some (false, e) ∧ 0 < e_base e) ∧
  ∀ f, uframe (vmem t) cr3 w = Some f → fa_avail (vframes s) (f / 4096).

(** What the first [k] rounds did.  In the second alternative a table could not be
    allocated for the last page; the code does not notice. *)
Definition mmap_lost (cr3 base : Z) s (k : Z) (t : vm A) : Prop :=
  0 < k ∧ (∀ w, in_pages base (k - 1) w → new_page cr3 s t w) ∧
  (∀ w, page_at (base + 4096 * (k - 1)) w → leaf (vmem t) cr3 w = None) ∧
  starved (4 * Z.to_nat k) s ∧ ∀ g, ¬ fa_avail (vframes t) g.
Definition mmap_inv (cr3 base : Z) s (k : Z) (t : vm A) : Prop :=
  evolves cr3 s t ∧ pages_kept cr3 (in_pages base k) s t ∧ takes (4 * Z.to_nat k) s t ∧
  ((∀ w, in_pages base k w → new_page cr3 s t w) ∨ mmap_lost cr3 base s k t).

(** The pages before are undone: nothing but the frames of tables stays taken. *)
Definition mmap_undone (cr3 : Z) s (t : vm A) : Prop :=
  space_ok t cr3 ∧ (∀ x, kernel_byte s cr3 x → kernel_byte t cr3 x ∧ vmem t x = vmem s x) ∧
  pages_kept cr3 (λ _, False) s t ∧ ∀ g, fa_avail (vframes t) g → fa_avail (vframes s) g.

Lemma new_page_kept cr3 s t t' w :
  new_page cr3 s t w → leaf (vmem t') cr3 w = leaf (vmem t) cr3 w → uview (vmem t') cr3 w = uview (vmem t) cr3 w →
  new_page cr3 s t' w.
Proof. intros (Hv & He & Hf) El Ev. unfold new_page. by rewrite El, Ev, (leaf_uframe (vmem t)). Qed.

Lemma released_undone cr3 base n k s t t' :
  PAGING_USER_BASE ≤ base → 0 ≤ k ≤ n → base + 4096 * n ≤ 2 ^ 48 →
  (∀ w, in_pages base n w → leaf (vmem s) cr3 w = None) →
  evolves cr3 s t → pages_kept cr3 (in_pages base k) s t → (∀ w, in_pages base k w → new_page cr3 s t w) →
  released cr3 (in_pages base k) t t' → mmap_undone cr3 s t'.
Proof.
  intros Hlow Hk Hhigh Hnone (_ & Hkb & Hav) Hpk Hnew [Hs' Hk' Hp' Hg' Hf']. unfold PAGING_USER_BASE in Hlow.
  split; [done|]. split; [|split].
  - intros x Hx. destruct (Hkb x Hx) as [Hx1 <-]. by apply Hk'.
  - intros w Hw _. destruct (decide (base ≤ w < base + 4096 * k)) as [Hi|Hi].
    + rewrite Hg', Hnone by (done || unfold in_pages; lia). split; [done|]. unfold uview.
      rewrite !uframe_leaf; [done|apply Hnone; unfold in_pages; lia|by apply Hg'].
    + destruct (Hp' w Hw Hi) as [-> ->]. by apply Hpk.
  - intros g [Hg|(w & f & Hw & Hi & Hf & -> & _)]%Hf'; [auto|]. by apply (Hnew w Hi).
Qed.

Lemma mmap_undo_spec cr3 base n k s t :
  PAGING_USER_BASE ≤ base → base mod 4096 = 0 → 0 ≤ k ≤ n → base + 4096 * n ≤ 2 ^ 48 →
  (∀ w, in_pages base n w → leaf (vmem s) cr3 w = None) →
  evolves cr3 s t → pages_kept cr3 (in_pages base k) s t → (∀ w, in_pages base k w → new_page cr3 s t w) →
  mmap_undone cr3 s (mmap_undo cr3 base k t).
Proof.
  intros Hlow Hb Hk Hhigh Hnone Hev Hpk Hnew. apply (released_undone cr3 base n k s t); try done.
  unfold mmap_undo. apply released_range; [by eapply evolves_ok|done|done|lia|lia| |].
  - intros w Hw. right. by destruct (Hnew w Hw) as (_ & ? & _).
  - intros j u Hj Hu _ El. destruct (Hnew (base + 4096 * j)) as (_ & (e & Hl & He) & _); [unfold in_pages; lia|].
    rewrite Hl in El. destruct (small_frame _ _ _ _ (sp_mem u cr3 Hu) El He) as (_ & _ & Et). unfold munmap_page.
    pose proof (Z.mod_pos_bound (base + 4096 * j) 4096 ltac:(lia)).
    replace (truthy _) with true; [done|]. rewrite Et. unfold truthy. lia.
Qed.

Section Region.
Context (cr3 base n : Z) (s : vm A).
Context (Hs : space_ok s cr3) (Hlow : PAGING_USER_BASE ≤ base) (Hb : base mod 4096 = 0) (Hhigh : base + 4096 * n ≤ 2 ^ 48).
Context (Hnone : ∀ w, in_pages base n w → leaf (vmem s) cr3 w = None).
Context (Hzero : ¬ fa_avail (vframes s) 0).

Lemma mmap_page_fresh k t :
  mmap_page cr3 base k t =
  let '(frame, _, t') := fresh_page cr3 (base + 4096 * k) MMAP_FLAGS t in
  if frame =? 0 then inr (mmap_undo cr3 base k t') else inl t'.
Proof.
  unfold mmap_page, fresh_page, filled_page. destruct (alloc_frame t) as [frame t1].
  change (with_vmem t1 (pmm_zero_page (vmem t1) frame)) with (zero_page frame t1). destruct (frame =? 0) eqn:E; [done|].
  destruct (paging_map _ _ _ _ _) as [ok t2]. by rewrite E.
Qed.

Lemma mmap_page_uaddr k w : 0 ≤ k < n → page_at (base + 4096 * k) w → uaddr w ∧ in_pages base n w ∧ (in_pages base (k + 1) w).
Proof. unfold PAGING_USER_BASE in Hlow. unfold page_at, uaddr, in_pages, PAGING_USER_BASE. intros. dlia. Qed.

(** A failure of the frame allocator when a table was missing already: the undo loop
    gives back frame 0. *)
Lemma mmap_undo_lost k t :
  k ≤ n → evolves cr3 s t → pages_kept cr3 (in_pages base k) s t → mmap_lost cr3 base s k t →
  fa_avail (vframes (mmap_undo cr3 base k t)) 0.
Proof.
  intros Hkn Hev Hpk (Hk & Hnew & Hgone & _). pose proof (evolves_ok _ _ _ Hev) as Ht.
  assert (∀ w, page_at (base + 4096 * (k - 1)) w → uaddr w ∧ in_pages base n w ∧ in_pages base (k - 1 + 1) w) as Hpg
    by (intros w; apply mmap_page_uaddr; lia).
  assert (pages_kept cr3 (in_pages base (k - 1)) s t) as Hpk'.
  { intros w Hw Hni. destruct (decide (w / 4096 = (base + 4096 * (k - 1)) / 4096)) as [E|E].
    - destruct (Hpg w E) as (_ & Hi & _). rewrite Hgone, Hnone by done. split; [done|]. unfold uview.
      by rewrite !uframe_leaf by auto.
    - apply Hpk; [done|]. unfold in_pages in *. intros Hi. apply E. dlia. }
  destruct (mmap_undo_spec cr3 base n (k - 1) s t) as (Ht' & _ & Hk' & _); [done|done|lia|done..|].
  assert (mmap_undo cr3 base k t = let v2 := base + 4096 * (k - 1) in
    paging_unmap cr3 v2 (free_frame (paging_translate (vmem (mmap_undo cr3 base (k - 1) t)) cr3 v2) (mmap_undo cr3 base (k - 1) t))) as ->.
  { unfold mmap_undo. replace k with (k - 1 + 1) at 1 by lia. by rewrite for_do_snoc by lia. }
  set (t' := mmap_undo cr3 base (k - 1) t) in *. cbv zeta. set (v2 := base + 4096 * (k - 1)) in *.
  destruct (Hpg v2) as (Hu & Hi & _); [done|].
  assert (leaf (vmem t') cr3 v2 = None) as Hl by (destruct (Hk' v2 Hu) as [-> _]; [tauto|by apply Hnone]).
  pose proof (unmap_cases (free_frame (paging_translate (vmem t') cr3 v2) t') cr3 v2 (proj1 Hu)) as Hu'.
  cbn [vmem free_frame with_vframes] in Hu'. rewrite Hl in Hu'. rewrite translate_leaf, Hl in *. rewrite Hu'.
  pose proof (sp_vm t' cr3 Ht') as (_ & Hok & _). apply (fa_free_spec 0 _ Hok); [done|]. right. done.
Qed.

Lemma mmap_step k t :
  0 ≤ k < n → mmap_inv cr3 base s k t →
  match mmap_page cr3 base k t with
  | inl t' => mmap_inv cr3 base s (k + 1) t'
  | inr t' => starved (4 * Z.to_nat n) s ∧ (mmap_undone cr3 s t' ∨ fa_avail (vframes t') 0)
  end.
Proof.
  intros Hk (Hev & Hpk & Htk & Hcase). pose proof Hev as ((Ht & _) & _ & Hsub). rewrite mmap_page_fresh.
  set (va := base + 4096 * k) in *. assert (in_pages base n va) as Hin by (unfold in_pages, va; lia).
  destruct (mmap_page_uaddr k va Hk eq_refl) as (Hua & _ & _).
  assert (∀ w, page_at va w → leaf (vmem t) cr3 w = None) as Hva.
  { intros w Hw. rewrite (leaf_page _ _ w va Hw). destruct (Hpk va Hua) as [-> _]; [unfold in_pages, va; lia|by apply Hnone]. }
  pose proof (fresh_page_spec t cr3 va MMAP_FLAGS Ht Hua ltac:(unfold va; dlia) ltac:(done)) as Hf.
  destruct (fresh_page cr3 va MMAP_FLAGS t) as [[frame ok] t'] eqn:Ef. destruct Hf as (Hev' & Htk' & Hf).
  pose proof (evolves_trans _ _ _ _ Hev Hev') as Hev2.
  assert (¬ fa_avail (vframes t) 0) as Hz by (intros H; by apply Hzero, Hsub).
  destruct (Z.eqb_spec frame 0) as [E0|E0].
  - destruct Hf as (_ & [Hst _] & Hpk'). split.
    { apply (few_le (4 * Z.to_nat k + 0)); [lia|]. by apply (evolves_starved cr3 _ _ s t). }
    assert (pages_kept cr3 (in_pages base k) s t') as Hpk2.
    { intros w Hw Hni. destruct (Hpk' w Hw) as [-> ->]; [tauto|]. by apply Hpk. }
    assert (∀ w, uaddr w → new_page cr3 s t w → new_page cr3 s t' w) as Hnp.
    { intros w Hw Hn. destruct (Hpk' w Hw ltac:(tauto)). by apply (new_page_kept cr3 s t). }
    assert (∀ k', k' ≤ n → ∀ w, in_pages base k' w → uaddr w) as Hwu
      by (intros k' Hk' w; unfold in_pages, uaddr, PAGING_USER_BASE in *; lia).
    destruct Hcase as [Hnew|(Hk0 & Hnew & Hgone & Hstk & Hempty)].
    + left. apply (mmap_undo_spec cr3 base n k); try done; [lia|].
      intros w Hw. apply Hnp, Hnew; [by apply (Hwu k); [lia|]|done].
    + right. apply mmap_undo_lost; try done; [lia|]. split; [done|]. split_and!.
      * intros w Hw. apply Hnp, Hnew; [by apply (Hwu (k - 1)); [lia|]|done].
      * intros w Hw. destruct (mmap_page_uaddr (k - 1) w ltac:(lia) Hw) as (Hw' & _ & _).
        destruct (Hpk' w Hw' ltac:(tauto)) as [-> _]. by apply Hgone.
      * done.
      * intros g Hg. destruct Hev' as (_ & _ & Hsub'). by apply (Hempty g), Hsub'.
  - assert (fa_avail (vframes t) (frame / 4096)) as Hfr by (destruct ok; [by destruct Hf|by destruct Hf as (_ & _ & _ & _ & ? & _)]).
    destruct Hcase as [Hnew|(_ & _ & _ & _ & Hempty)]; [|by destruct (Hempty (frame / 4096))].
    assert (∀ w, in_pages base (k + 1) w → in_pages base k w ∨ page_at va w) as Hsplit
      by (intros w; unfold in_pages, page_at, va; intros; dlia).
    assert (∀ w, in_pages base k w → uaddr w ∧ ¬ page_at va w) as Hold
      by (intros w; unfold in_pages, page_at, uaddr, va, PAGING_USER_BASE in *; intros; dlia).
    assert (pages_kept cr3 (page_at va) t t') as Hpk'.
    { destruct ok; [by destruct Hf as (_ & _ & _ & _ & _ & ?)|]. intros w Hw _. destruct Hf as (_ & Hp & _). apply Hp; [done|tauto]. }
    split; [done|]. split; [|split].
    + intros w Hw Hni. destruct (Hpk' w Hw) as [-> ->].
      { intros Hp. apply Hni. by destruct (mmap_page_uaddr k w Hk Hp) as (_ & _ & ?). }
      apply Hpk; [done|]. intros Hi. apply Hni. unfold in_pages in *. lia.
    + apply (took_le (4 * Z.to_nat k + 4)); [lia|]. by apply (took_trans _ _ _ _ _ Htk).
    + destruct ok; [left|right].
      * destruct Hf as (_ & _ & (e & <- & Hle) & Hfe & Hz0 & _). intros w [Hw|Hw]%Hsplit.
        { destruct (Hold w Hw) as [Hw1 Hw2]. destruct (Hpk' w Hw1 Hw2). by apply (new_page_kept cr3 s t); [apply Hnew| |]. }
        assert (uframe (vmem t') cr3 w = Some (e_base e)) as Hfw by (rewrite <- Hfe; by apply uframe_page).
        split; [rewrite (uview_of _ _ w (e_base e)) by done; f_equal; apply Hz0, in_page_offset|]. split.
        -- exists e. rewrite (leaf_page _ _ w va) by done. split; [done|].
           by destruct (uframe_spec _ _ _ _ (sp_mem t' cr3 (evolves_ok _ _ _ Hev')) Hfe) as (_ & ? & _).
        -- intros f. rewrite Hfw. intros [= <-]. by apply Hsub.
      * destruct Hf as ([[Hst Hd]|Hne] & Hp & _); [|by rewrite Hva in Hne]. split; [lia|]. replace (k + 1 - 1) with k by lia.
        split_and!.
        -- intros w Hw. destruct (Hold w Hw) as [Hw1 _]. destruct (Hp w Hw1 ltac:(tauto)). by apply (new_page_kept cr3 s t); [apply Hnew| |].
        -- intros w Hw. destruct (mmap_page_uaddr k w Hk Hw) as (Hw1 & _ & _). destruct (Hp w Hw1 ltac:(tauto)) as [-> _]. by apply Hva.
        -- apply (few_le (4 * Z.to_nat k + 3)); [lia|]. by apply (evolves_starved cr3 _ _ s t).
        -- destruct Hd as [|Hd]; [done|exact Hd].
Qed.
End Region.

Lemma mmap_in_spec s cr3 cursor len :
  space_ok s cr3 → PAGING_USER_BASE ≤ cursor ≤ PROCESS_USER_STACK_TOP → cursor mod 4096 = 0 →
  0 ≤ len < 18446744073709551616 - 4095 →
  let n := mmap_pages len in
  (∀ w, in_pages cursor n w → leaf (vmem s) cr3 w = None) → ¬ fa_avail (vframes s) 0 →
  let '(r, cursor', s') := mmap_in cr3 cursor len s in
  if (0x40000000 <? 4096 * n) || (PROCESS_USER_STACK_TOP <? cursor + 4096 * n)
  then r = SYS_ERROR ∧ cursor' = cursor ∧ s' = s
  else if r =? cursor then cursor' = cursor + 4096 * n ∧ mmap_inv cr3 cursor s n s'
  else r = SYS_ERROR ∧ cursor' = cursor ∧ starved (4 * Z.to_nat n) s ∧ (mmap_undone cr3 s s' ∨ fa_avail (vframes s') 0).
Proof.
  intros Hs Hc Hc4 Hl n Hnone Hz. unfold mmap_in. unfold PAGING_USER_BASE, PROCESS_USER_STACK_TOP in Hc.
  assert (page_round (if len =? 0 then 4096 else len) = 4096 * n) as ->.
  { unfold n, mmap_pages. destruct (len =? 0); rewrite page_round_div by lia; [done|lia]. }
  assert (0 < n) as Hn by (unfold n, mmap_pages; destruct (Z.eqb_spec len 0); dlia).
  destruct (Z.ltb_spec 0x40000000 (4096 * n)) as [|Hle]; [done|]. rewrite u64_small by lia.
  destruct (Z.ltb_spec PROCESS_USER_STACK_TOP (cursor + 4096 * n)) as [|Htop]; [done|].
  replace ((cursor + 4096 * n - cursor) / 4096) with n by dlia. cbn [orb].
  unfold PROCESS_USER_STACK_TOP in Htop.
  assert (PAGING_USER_BASE ≤ cursor ∧ cursor + 4096 * n ≤ 2 ^ 48) as [Hlow Hhigh] by (unfold PAGING_USER_BASE; lia).
  pose proof (for_ind (mmap_inv cr3 cursor s)
    (λ t, starved (4 * Z.to_nat n) s ∧ (mmap_undone cr3 s t ∨ fa_avail (vframes t) 0)) 0 n (mmap_page cr3 cursor) s) as Hloop.
  feed Hloop; [lia|]. feed Hloop.
  { split; [by apply evolves_refl|]. split; [apply pages_kept_refl|]. split; [apply took_refl|]. left.
    unfold in_pages. intros; lia. }
  feed Hloop. { intros k t Hk Hi. by apply (mmap_step cr3 cursor n s). }
  destruct (for_ 0 n (mmap_page cr3 cursor) s) as [t|t].
  - by rewrite Z.eqb_refl.
  - assert (SYS_ERROR = 18446744073709551615) as E by done. rewrite E.
    replace (18446744073709551615 =? cursor) with false by lia. done.
Qed.



(** A length within 4095 bytes of the largest is rounded up to 0: the call reports
    success and maps nothing. *)
Lemma sys_mmap_overflow s cr3 cursor len :
  18446744073709551616 - 4095 ≤ len < 18446744073709551616 → 0 ≤ cursor ≤ PROCESS_USER_STACK_TOP →
  mmap_in cr3 cursor len s = (cursor, cursor, s).
Proof.
  intros Hl Hc. unfold PROCESS_USER_STACK_TOP in Hc. unfold mmap_in. replace (len =? 0) with false by lia.
  assert (page_round len = 0) as ->.
  { unfold page_round. replace (u64 (len + 4095)) with (len + 4095 - 18446744073709551616)
      by (unfold u64; apply (Z.mod_unique _ _ 1); lia).
    change 4095 with (2 ^ 12 - 1) at 2. rewrite round_down_mask by (lia || unfold is_u64; lia). dlia. }
  cbn [Z.ltb]. rewrite Z.add_0_r, u64_small by lia. change (0x40000000 <? 0) with false.
  unfold PROCESS_USER_STACK_TOP. replace (_ <? cursor) with false by lia. cbn iota. by rewrite Z.sub_diag.
Qed.
End Correct.

(** ** A page beside the huge page of ImageDemo.v *)

Lemma demo_region w : in_pages 1077936128 1 w → leaf (vmem (huge_vm 1 1)) 65536 w = None.
Proof.
  unfold in_pages. intros Hw. cbn [vmem huge_vm]. rewrite huge_leaf by lia.
  assert (w / 2097152 = 514) as -> by dlia. done.
Qed.

Lemma demo_zero : ¬ fa_avail (vframes (huge_vm 1 1)) 0.
Proof. by intros [H|H]%pmm_56_avail. Qed.


