(* ===== verification/Vfs.v ===== *)
(** The virtual file system (fs/vfs.c): file-system types, mounts, path lookup and
    the file-descriptor operations on a process's table of open files.

    A path is the list of its characters before the terminator; [None] is the
    null pointer.  A file system type is a record of operations on the state [W]
    of the disks, each present or a null pointer; an operation that fills a
    buffer returns the bytes it stores.  File types and mounts are chained
    through [next] in the code: new types are put in front, mounts at the end. *)

From stdpp Require Import prelude numbers list gmap.
From Stdlib Require Import ZArith Lia.
From S2P Require Import Prelude Memory Frames Pmm Kheap Alloc Pcb.

Open Scope Z_scope.

Definition VFS_NAME_MAX : Z := 32.
Definition VFS_O_WRONLY : Z := 1.
Definition VFS_O_RDWR : Z := 2.
Definition VFS_O_CREAT : Z := 64.
Definition VFS_O_TRUNC : Z := 512.
Definition VFS_O_APPEND : Z := 1024.
Definition VFS_SEEK_SET : Z := 0.
Definition VFS_SEEK_CUR : Z := 1.
Definition VFS_SEEK_END : Z := 2.

Notation path := (list Z) (only parsing).
Definition slash : Z := 47.

Record fs_type (W : Type) : Type := FsType {
  fs_name : option path;
  fs_probe : option (Z → W → bool * W);
  fs_mount : option (Z → W → option Z * W);
  fs_read_file : option (Z → path → Z → W → (Z * list Z) * W);
  fs_write_file : option (Z → path → option (list Z) → Z → W → bool * W);
  fs_stat_file : option (Z → path → W → option (Z * bool) * W);
  fs_read_at : option (Z → path → Z → Z → W → (Z * list Z) * W);
  fs_write_at : option (Z → path → Z → option (list Z) → Z → W → option Z * W);
  fs_list_dir : option (Z → path → W → list (path * Z * bool) * W);
  fs_mkdir : option (Z → path → W → Z * W);
  fs_remove : option (Z → path → W → Z * W)
}.
Arguments fs_name {W}. Arguments fs_probe {W}. Arguments fs_mount {W}. Arguments fs_read_file {W}.
Arguments fs_write_file {W}. Arguments fs_stat_file {W}. Arguments fs_read_at {W}.
Arguments fs_write_at {W}. Arguments fs_list_dir {W}. Arguments fs_mkdir {W}. Arguments fs_remove {W}.

(** [vfs_mount_t]; [m_fs] is never null once the mount is in the list. *)
Record mount (W : Type) : Type := Mount {
  m_path : path;
  m_fs : fs_type W;
  m_dev : Z;
  m_fs_data : Z
}.
Arguments Mount {W}. Arguments m_path {W}. Arguments m_fs {W}. Arguments m_dev {W}. Arguments m_fs_data {W}.

Definition sizeof_vfs_mount : Z := 64.

Section Vfs.
Context {H W : Type} `{!HeapAllocator H}.

Record vfs : Type := Vfs {
  fs_types : list (fs_type W);
  mount_used : Z;
  mounts : list (mount W);
  v_heap : H;
  v_world : W
}.

Definition with_types (l : list (fs_type W)) (s : vfs) : vfs := Vfs l (mount_used s) (mounts s) (v_heap s) (v_world s).
Definition with_used (n : Z) (s : vfs) : vfs := Vfs (fs_types s) n (mounts s) (v_heap s) (v_world s).
Definition with_mounts (l : list (mount W)) (s : vfs) : vfs := Vfs (fs_types s) (mount_used s) l (v_heap s) (v_world s).
Definition with_vheap (h : H) (s : vfs) : vfs := Vfs (fs_types s) (mount_used s) (mounts s) h (v_world s).
Definition with_world (w : W) (s : vfs) : vfs := Vfs (fs_types s) (mount_used s) (mounts s) (v_heap s) w.

Definition vfs_init (s : vfs) : vfs := Vfs [] 0 [] (v_heap s) (v_world s).

Definition is_null {A} (o : option A) : bool := match o with Some _ => false | None => true end.

Definition vfs_register_fs (fs : option (fs_type W)) (s : vfs) : bool * vfs :=
  match fs with
  | None => (false, s)
  | Some fs => if is_null (fs_name fs) || is_null (fs_probe fs) then (false, s)
               else (true, with_types (fs :: fs_types s) s)
  end.

(** "/" for the first mount, "/disk" and the number for the others. *)
Definition mount_path (index : Z) : path :=
  if index =? 1 then [slash]
  else [slash; 100; 105; 115; 107] ++
       (if 10 <=? index then [u8 (48 + index / 10)] else []) ++ [u8 (48 + index mod 10)].

Definition mount_device (dev : Z) (fs : fs_type W) (s : vfs) : option (bool * vfs) :=
  r ← ha_alloc sizeof_vfs_mount 16 (v_heap s);
  let '(p, h) := r in
  let s := with_vheap h s in
  if p =? 0 then Some (false, s)
  else
    let s := with_used (u32 (mount_used s + 1)) s in
    let index := mount_used s in
    match fs_mount fs with
    | None => Some (true, with_mounts (mounts s ++ [Mount (mount_path index) fs dev 0]) s)
    | Some mnt =>
        let '(data, w) := mnt dev (v_world s) in
        let s := with_world w s in
        match data with
        | None => Some (false, with_used (u32 (mount_used s - 1)) s)
        | Some data => Some (true, with_mounts (mounts s ++ [Mount (mount_path index) fs dev data]) s)
        end
    end.

(** The inner loop over the types: the first whose probe accepts is mounted. *)
Fixpoint try_types (dev : Z) (types : list (fs_type W)) (s : vfs) : option (bool * vfs) :=
  match types with
  | [] => Some (false, s)
  | fs :: types =>
      match fs_probe fs with
      | None => None
      | Some probe =>
          let '(ok, w) := probe dev (v_world s) in
          let s := with_world w s in
          if (ok : bool) then mount_device dev fs s else try_types dev types s
      end
  end.

(** Over the registered devices, in order. *)
Fixpoint vfs_mount_all (devices : list Z) (s : vfs) : option (Z * vfs) :=
  match devices with
  | [] => Some (0, s)
  | dev :: devices =>
      r ← try_types dev (fs_types s) s;
      let '(ok, s) := r in
      r ← vfs_mount_all devices s;
      let '(n, s) := r in
      Some (if (ok : bool) then u32 (n + 1) else n, s)
  end.

Definition vfs_mount_count (s : vfs) : Z := mount_used s.
Definition vfs_mount_first (s : vfs) : option (mount W) := head (mounts s).

(** [k_strncmp(prefix, p, strlen(prefix)) == 0] and [p[i]]. *)
Definition starts_with (prefix p : path) : bool := bool_decide (take (length prefix) p = prefix).
Definition char_at (p : path) (i : nat) : Z := default 0 (p !! i).

Definition mount_matches (p : path) (m : mount W) : bool :=
  let plen := length (m_path m) in
  starts_with (m_path m) p &&
  ((char_at p plen =? 0) || (char_at p plen =? slash) || (Z.of_nat plen =? 1)).

Fixpoint find_mount (l : list (mount W)) (p : path) : option (mount W) :=
  match l with
  | [] => None
  | m :: l => if mount_matches p m then Some m else find_mount l p
  end.

Definition vfs_find_mount (p : option path) (s : vfs) : option (mount W) :=
  match p with None => None | Some p => find_mount (mounts s) p end.

Definition strip_mount_prefix (m : mount W) (p : path) : path :=
  let plen := length (m_path m) in
  if Z.of_nat plen =? 1 then (if char_at p 0 =? slash then drop 1 p else p)
  else if starts_with (m_path m) p then
    let p := drop plen p in if char_at p 0 =? slash then drop 1 p else p
  else p.

(** The mount of a path, an operation of its type, and the path inside it. *)
Definition resolve {A} (op : fs_type W → option A) (p : option path) (s : vfs)
    : option (A * Z * path) :=
  m ← vfs_find_mount p s; q ← p; f ← op (m_fs m);
  Some (f, m_fs_data m, strip_mount_prefix m q).

(** [buffer] is whether the buffer pointer is not null; the bytes it receives come
    with the result. *)
Definition vfs_read_file (p : option path) (buffer : bool) (buffer_size : Z) (s : vfs)
    : (Z * list Z) * vfs :=
  match resolve fs_read_file p s with
  | Some (f, ctx, rel) =>
      if negb buffer then (-1, [], s)
      else let '(r, w) := f ctx rel buffer_size (v_world s) in (r, with_world w s)
  | None => (-1, [], s)
  end.

Definition vfs_write_file (p : option path) (buffer : option (list Z)) (size : Z) (s : vfs) : bool * vfs :=
  match resolve fs_write_file p s with
  | Some (f, ctx, rel) =>
      if (0 <? size) && is_null buffer then (false, s)
      else let '(ok, w) := f ctx rel buffer size (v_world s) in (ok, with_world w s)
  | None => (false, s)
  end.

Definition vfs_list_dir (p : option path) (callback : bool) (s : vfs) : list (path * Z * bool) * vfs :=
  match resolve fs_list_dir p s with
  | Some (f, ctx, rel) =>
      if negb callback then ([], s) else let '(l, w) := f ctx rel (v_world s) in (l, with_world w s)
  | None => ([], s)
  end.

(** Zero with the size and kind, or [None] for [-1]. *)
Definition vfs_stat (p : option path) (s : vfs) : option (Z * bool) * vfs :=
  match resolve fs_stat_file p s with
  | Some (f, ctx, rel) => let '(r, w) := f ctx rel (v_world s) in (r, with_world w s)
  | None => (None, s)
  end.

Definition vfs_mkdir (p : option path) (s : vfs) : Z * vfs :=
  match resolve fs_mkdir p s with
  | Some (f, ctx, rel) =>
      if char_at rel 0 =? 0 then (-22, s)
      else let '(r, w) := f ctx rel (v_world s) in (r, with_world w s)
  | None => (-22, s)
  end.

Definition vfs_remove (p : option path) (s : vfs) : Z * vfs :=
  match resolve fs_remove p s with
  | Some (f, ctx, rel) =>
      if char_at rel 0 =? 0 then (-22, s)
      else let '(r, w) := f ctx rel (v_world s) in (r, with_world w s)
  | None => (-22, s)
  end.

(** ** File descriptors *)

(** The table of open files of the process; [None] is a null process. *)
Notation files := (list proc_file) (only parsing).

(** The first closed slot from 3 on, or -1. *)
Definition free_fd (fs : files) : Z :=
  match for_ 3 PROCESS_MAX_FDS (λ i (_ : unit),
          match fs !! Z.to_nat i with
          | Some f => if f_open f then inl () else inr i
          | None => inl ()
          end) () with
  | inl _ => -1
  | inr i => i
  end.

Definition set_file (fd : Z) (f : proc_file) (fs : files) : files := <[Z.to_nat fd := f]> fs.

(** The file behind a descriptor, when it is in range and open. *)
Definition open_file (proc : option files) (fd : Z) : option (files * proc_file) :=
  fs ← proc;
  if (fd <? 0) || (PROCESS_MAX_FDS <=? fd) then None
  else f ← fs !! Z.to_nat fd; if f_open f then Some (fs, f) else None.

(** Creating or truncating the file before it is opened: the size it then has. *)
Definition prepare_open (p : path) (flags : Z) (s : vfs) : option Z * vfs :=
  let '(st, s) := vfs_stat (Some p) s in
  match st with
  | Some (_, true) => (None, s)
  | None =>
      if negb (truthy (Z.land flags VFS_O_CREAT)) then (None, s)
      else let '(ok, s) := vfs_write_file (Some p) None 0 s in (if (ok : bool) then Some 0 else None, s)
  | Some (size, false) =>
      if truthy (Z.land flags VFS_O_TRUNC) && truthy (Z.land flags (Z.lor VFS_O_WRONLY VFS_O_RDWR)) then
        let '(ok, s) := vfs_write_file (Some p) None 0 s in (if (ok : bool) then Some 0 else None, s)
      else (Some size, s)
  end.

Definition vfs_open_fd (proc : option files) (p : option path) (flags : Z) (s : vfs)
    : Z * option files * vfs :=
  match proc, p with
  | Some fs, Some p =>
      let '(r, s) := prepare_open p flags s in
      match r with
      | None => (-1, proc, s)
      | Some size =>
          let fd := free_fd fs in
          if fd <? 0 then (-1, proc, s)
          else (fd, Some (set_file fd (ProcFile (take 127 p)
                        (if truthy (Z.land flags VFS_O_APPEND) then size else 0) true) fs), s)
      end
  | _, _ => (-1, proc, s)
  end.

Definition advance (fs : files) (fd n : Z) (f : proc_file) : option files :=
  Some (set_file fd (set_f_offset (u64 (f_offset f + n)) f) fs).

(** The length after the comparison with the size of the file: [None] is end of file. *)
Definition clamp_read (m : mount W) (rel : path) (offset len : Z) (s : vfs) : option Z * vfs :=
  match fs_stat_file (m_fs m) with
  | None => (Some len, s)
  | Some stat =>
      let '(r, w) := stat (m_fs_data m) rel (v_world s) in
      let s := with_world w s in
      match r with
      | None => (Some len, s)
      | Some (size, _) =>
          if size <=? offset then (None, s)
          else (Some (if size - offset <? len then size - offset else len), s)
      end
  end.

Definition vfs_read_fd (proc : option files) (fd : Z) (buf : bool) (len : Z) (s : vfs)
    : (Z * list Z) * option files * vfs :=
  match open_file proc fd with
  | None => (-1, [], proc, s)
  | Some (fs, f) =>
      match vfs_find_mount (Some (f_path f)) s with
      | None => (-1, [], proc, s)
      | Some m =>
          if negb buf then (-1, [], proc, s)
          else
            let rel := strip_mount_prefix m (f_path f) in
            let '(l, s) := clamp_read m rel (f_offset f) len s in
            match l with
            | None => (0, [], proc, s)
            | Some len =>
                let done n data w :=
                  (n, data, if 0 <? n then advance fs fd n f else proc, with_world w s) in
                match fs_read_at (m_fs m), fs_read_file (m_fs m) with
                | Some rd, _ =>
                    let '(n, data, w) := rd (m_fs_data m) rel (u32 (f_offset f)) (u32 len) (v_world s) in
                    done n data w
                | None, Some rd =>
                    if truthy (f_offset f) || (0x7fffffff <? len) then (-1, [], proc, s)
                    else let '(n, data, w) := rd (m_fs_data m) rel (u32 len) (v_world s) in done n data w
                | None, None => (-1, [], proc, s)
                end
            end
      end
  end.

Definition vfs_write_fd (proc : option files) (fd : Z) (buf : option (list Z)) (len : Z) (s : vfs)
    : Z * option files * vfs :=
  match open_file proc fd with
  | None => (-1, proc, s)
  | Some (fs, f) =>
      match vfs_find_mount (Some (f_path f)) s with
      | None => (-1, proc, s)
      | Some m =>
          if (0 <? len) && is_null buf then (-1, proc, s)
          else
            let rel := strip_mount_prefix m (f_path f) in
            if 0xffffffff <? f_offset f then (-1, proc, s)
            else
              match fs_write_at (m_fs m) with
              | Some wr =>
                  let '(r, w) := wr (m_fs_data m) rel (u32 (f_offset f)) buf (u32 len) (v_world s) in
                  let s := with_world w s in
                  if is_null r then (-1, proc, s) else (s64 len, advance fs fd len f, s)
              | None =>
                  if truthy (f_offset f) then (-1, proc, s)
                  else
                    match fs_write_file (m_fs m) with
                    | None => (-1, proc, s)
                    | Some wr =>
                        let '(ok, w) := wr (m_fs_data m) rel buf (u32 len) (v_world s) in
                        let s := with_world w s in
                        if (ok : bool) then (s64 len, advance fs fd len f, s) else (-1, proc, s)
                    end
              end
      end
  end.

(** The base of a seek: [None] is an error. *)
Definition seek_base (f : proc_file) (whence : Z) (s : vfs) : option Z * vfs :=
  if whence =? VFS_SEEK_CUR then (Some (s64 (f_offset f)), s)
  else if whence =? VFS_SEEK_END then
    let '(r, s) := vfs_stat (Some (f_path f)) s in
    (match r with Some (size, _) => Some (s64 size) | None => None end, s)
  else if negb (whence =? VFS_SEEK_SET) then (None, s)
  else (Some 0, s).

Definition vfs_seek_fd (proc : option files) (fd off whence : Z) (s : vfs) : Z * option files * vfs :=
  match open_file proc fd with
  | None => (-1, proc, s)
  | Some (fs, f) =>
      let '(b, s) := seek_base f whence s in
      match b with
      | None => (-1, proc, s)
      | Some base =>
          if (base <? 0) || (s64 (base + off) <? 0) then (-1, proc, s)
          else
            let f := set_f_offset (u64 (s64 (base + off))) f in
            (s64 (f_offset f), Some (set_file fd f fs), s)
      end
  end.

Definition vfs_close_fd (proc : option files) (fd : Z) (s : vfs) : Z * option files * vfs :=
  match open_file proc fd with
  | None => (-1, proc, s)
  | Some (fs, f) => (0, Some (set_file fd (set_f_open false f) fs), s)
  end.

(** ** Mounting *)

(** The mounts made so far: the counter is their number, and the first is at the root. *)
Definition mounts_ok (s : vfs) : Prop :=
  mount_used s = Z.of_nat (length (mounts s)) ∧
  ∀ m, head (mounts s) = Some m → m_path m = [slash].

Lemma mounts_ok_add m s :
  mounts_ok s → u32 (mount_used s + 1) = mount_used s + 1 →
  m_path m = mount_path (mount_used s + 1) →
  ∀ h w, mounts_ok (Vfs (fs_types s) (mount_used s + 1) (mounts s ++ [m]) h w).
Proof.
  intros [Hn Hh] Hu Hm h w. split; cbn [mount_used mounts]; [rewrite length_app; simpl; lia|].
  intros m0. destruct (mounts s) as [|m1 l] eqn:E; [|apply Hh].
  intros [= <-]. by rewrite Hm, Hn.
Qed.

Context {Hok : HeapAllocatorOk H}.

(** What one call may do: the heap stays sound, at most one mount is added. *)
Definition mount_step (s s' : vfs) (ok : bool) (X X' : gset Z) : Prop :=
  mounts_ok s' ∧ ha_ok (v_heap s') X' ∧ X ⊆ X' ∧ fs_types s' = fs_types s ∧
  if ok then ∃ m, mounts s' = mounts s ++ [m] else mounts s' = mounts s.

Lemma mount_device_spec dev fs s X :
  mounts_ok s → ha_ok (v_heap s) X → Z.of_nat (length (mounts s)) < 4294967295 →
  ∃ ok s' X', mount_device dev fs s = Some (ok, s') ∧ mount_step s s' ok X X'.
Proof.
  intros Hm Hh Hlt. pose proof Hm as [Hn Hhd]. unfold mount_device.
  destruct (ha_alloc_spec (v_heap s) X sizeof_vfs_mount 16 Hh ltac:(unfold sizeof_vfs_mount; lia) ltac:(lia))
    as (p & h & E & Hp). rewrite E. obind.
  destruct Hp as [[-> Hh']|(Hne & _ & Hh')].
  { exists false, (with_vheap h s), X. split; [done|]. by split_and!. }
  apply Z.eqb_neq in Hne. rewrite Hne.
  assert (u32 (mount_used s + 1) = mount_used s + 1) as Hu by (apply u32_small; lia).
  cbn [with_used with_vheap mount_used]. rewrite Hu.
  assert (∀ data w, mount_step s (Vfs (fs_types s) (mount_used s + 1)
            (mounts s ++ [Mount (mount_path (mount_used s + 1)) fs dev data]) h w) true X ({[p]} ∪ X)) as Hstep.
  { intros data w. split; [by apply mounts_ok_add|]. split_and!; [done|set_solver|done|]. by eexists. }
  destruct (fs_mount fs) as [mnt|].
  - cbn [with_used with_vheap with_world v_world]. destruct (mnt dev (v_world s)) as [[data|] w].
    + eexists true, _, _. split; [reflexivity|]. apply Hstep.
    + eexists false, _, ({[p]} ∪ X). split; [reflexivity|]. unfold mount_step, with_used. cbn [mount_used fs_types mounts v_heap v_world with_world].
      replace (u32 (mount_used s + 1 - 1)) with (mount_used s) by (rewrite u32_small; lia).
      split_and!; [done|done|set_solver|done|done].
  - eexists true, _, _. split; [reflexivity|]. apply Hstep.
Qed.

Lemma try_types_spec dev types s X :
  (∀ fs, fs ∈ types → is_Some (fs_probe fs)) →
  mounts_ok s → ha_ok (v_heap s) X → Z.of_nat (length (mounts s)) < 4294967295 →
  ∃ ok s' X', try_types dev types s = Some (ok, s') ∧ mount_step s s' ok X X'.
Proof.
  revert s. induction types as [|fs types IH]; intros s Hpr Hm Hh Hlt; simpl.
  { exists false, s, X. by split_and!. }
  destruct (Hpr fs ltac:(left)) as [probe ->].
  destruct (probe dev (v_world s)) as [[|] w]; [by apply (mount_device_spec dev fs (with_world w s))|].
  apply (IH (with_world w s)); [|done..]. intros fs' ?. apply Hpr. by right.
Qed.

Lemma vfs_mount_all_spec devices s X :
  (∀ fs, fs ∈ fs_types s → is_Some (fs_probe fs)) →
  mounts_ok s → ha_ok (v_heap s) X →
  Z.of_nat (length (mounts s) + length devices) < 4294967295 →
  ∃ n s' X' new, vfs_mount_all devices s = Some (n, s') ∧
    mounts_ok s' ∧ ha_ok (v_heap s') X' ∧ X ⊆ X' ∧
    mounts s' = mounts s ++ new ∧ n = Z.of_nat (length new) ∧ (length new ≤ length devices)%nat.
Proof.
  revert s X. induction devices as [|dev devices IH]; intros s X Hpr Hm Hh Hlt; simpl.
  { exists 0, s, X, []. split_and!; try done. by rewrite app_nil_r. }
  simpl in Hlt.
  destruct (try_types_spec dev (fs_types s) s X Hpr Hm Hh ltac:(lia))
    as (ok & s1 & X1 & -> & Hm1 & Hh1 & HX1 & Ht & Hl). obind.
  destruct (IH s1 X1) as (n & s2 & X2 & new & -> & Hm2 & Hh2 & HX2 & Hnew & -> & Hle);
    [by rewrite Ht|done|done| |].
  { destruct ok; [destruct Hl as [m ->]; rewrite length_app; simpl|rewrite Hl]; lia. }
  obind. destruct ok; [destruct Hl as [m Hl]|].
  - exists (Z.of_nat (length (m :: new))), s2, X2, (m :: new). split_and!.
    + rewrite u32_small by lia. simpl. repeat f_equal; lia.
    + done.
    + done.
    + set_solver.
    + by rewrite Hnew, Hl, <- app_assoc.
    + done.
    + simpl; lia.
  - exists (Z.of_nat (length new)), s2, X2, new. rewrite Hnew, Hl.
    split_and!; try done; [set_solver|lia].
Qed.

Lemma root_matches m p : m_path m = [slash] → mount_matches (slash :: p) m = true.
Proof.
  intros E. unfold mount_matches, starts_with. rewrite E. simpl.
  by rewrite !orb_true_r.
Qed.

(** mounting every device.  From the initial state, with types registered by
    [vfs_register_fs], the call ends and returns the number of mounts made; the
    counter is the length of the list; the first mount is at "/", and from then on
    every absolute path, those under "/diskN" included, resolves to it, with the
    leading slash removed. *)
Theorem vfs_mount_all_root devices s X :
  (∀ fs, fs ∈ fs_types s → is_Some (fs_probe fs)) →
  mounts s = [] → mount_used s = 0 → ha_ok (v_heap s) X →
  Z.of_nat (length devices) < 4294967295 →
  ∃ n s', vfs_mount_all devices s = Some (n, s') ∧
    vfs_mount_count s' = n ∧ n = Z.of_nat (length (mounts s')) ∧ n ≤ Z.of_nat (length devices) ∧
    ∀ m p, vfs_mount_first s' = Some m →
      vfs_find_mount (Some (slash :: p)) s' = Some m ∧ strip_mount_prefix m (slash :: p) = p.
Proof.
  intros Hpr Hm0 Hu Hh Hlt.
  destruct (vfs_mount_all_spec devices s X Hpr) as (n & s' & X' & new & E & [Hn Hhd] & _ & _ & Hnew & -> & Hle).
  { split; [by rewrite Hu, Hm0|by rewrite Hm0]. }
  { done. }
  { rewrite Hm0. simpl. lia. }
  rewrite Hm0 in Hnew. simpl in Hnew. subst new.
  exists (Z.of_nat (length (mounts s'))), s'. split; [done|]. split; [done|]. split; [done|].
  split; [lia|]. intros m p Hfirst. unfold vfs_mount_first in Hfirst. specialize (Hhd m Hfirst).
  unfold vfs_find_mount. destruct (mounts s') as [|m0 l]; [done|]. injection Hfirst as ->. simpl.
  rewrite root_matches by done. split; [done|].
  unfold strip_mount_prefix. by rewrite Hhd.
Qed.

(** ** Files *)

(** What the layer relies on in a file system with positioned access: the
    contents of a regular file, which [stat_file] measures, [read_at] copies and
    [write_at] replaces.  Bytes between the old end and the start of a write are
    left open.  [fsl_room] is the file system's own decision to accept a write. *)
Definition overwrites (c : list Z) (off : Z) (data c' : list Z) : Prop :=
  Z.of_nat (length c') = Z.max (Z.of_nat (length c)) (off + Z.of_nat (length data)) ∧
  take (length data) (drop (Z.to_nat off) c') = data ∧
  ∀ i, 0 ≤ i < Z.of_nat (length c) → i < off ∨ off + Z.of_nat (length data) ≤ i →
    c' !! Z.to_nat i = c !! Z.to_nat i.

Class FileSystem (fs : fs_type W) : Type := {
  fsl_contents : W → Z → path → option (list Z);
  fsl_room : W → Z → path → Z → Z → bool;
  fsl_size : ∀ w ctx p c, fsl_contents w ctx p = Some c → Z.of_nat (length c) < 2147483648;
  fsl_stat : ∀ w ctx p c, fsl_contents w ctx p = Some c →
    ∃ f w', fs_stat_file fs = Some f ∧ f ctx p w = (Some (Z.of_nat (length c), false), w') ∧
      fsl_contents w' = fsl_contents w ∧ fsl_room w' = fsl_room w;
  fsl_read_at : ∀ w ctx p c off n, fsl_contents w ctx p = Some c →
    0 ≤ off → 0 ≤ n → off + n ≤ Z.of_nat (length c) →
    ∃ f w', fs_read_at fs = Some f ∧
      f ctx p off n w = (n, take (Z.to_nat n) (drop (Z.to_nat off) c), w') ∧
      fsl_contents w' = fsl_contents w ∧ fsl_room w' = fsl_room w;
  fsl_write_at : ∀ w ctx p c off data, fsl_contents w ctx p = Some c →
    0 ≤ off < 4294967296 → Z.of_nat (length data) < 4294967296 →
    ∃ f r w', fs_write_at fs = Some f ∧
      f ctx p off (Some data) (Z.of_nat (length data)) w = (r, w') ∧
      (if fsl_room w ctx p off (Z.of_nat (length data))
       then is_Some r ∧ ∃ c', fsl_contents w' ctx p = Some c' ∧ overwrites c off data c'
       else r = None ∧ fsl_contents w' ctx p = Some c) ∧
      ∀ ctx' p', (ctx', p') ≠ (ctx, p) → fsl_contents w' ctx' p' = fsl_contents w ctx' p'
}.

(** Calls on one descriptor, and what they return: the result and the bytes stored
    in the caller's buffer. *)
Inductive fd_op : Type :=
| op_read (len : Z)
| op_write (data : list Z)
| op_seek (off whence : Z).

Definition fd_op_ok (op : fd_op) : Prop :=
  match op with
  | op_read len => is_u64 len
  | op_write data => Z.of_nat (length data) < 4294967296
  | op_seek off _ => -9223372036854775808 ≤ off < 9223372036854775808
  end.

Definition run_op (fd : Z) (op : fd_op) (proc : option files) (s : vfs)
    : (Z * list Z) * option files * vfs :=
  match op with
  | op_read len => vfs_read_fd proc fd true len s
  | op_write data => let '(r, proc, s) := vfs_write_fd proc fd (Some data) (Z.of_nat (length data)) s in (r, [], proc, s)
  | op_seek off whence => let '(r, proc, s) := vfs_seek_fd proc fd off whence s in (r, [], proc, s)
  end.

(** The file an open descriptor denotes: its contents and the position in it. *)
Definition seek_origin (whence : Z) (size pos : Z) : option Z :=
  if whence =? VFS_SEEK_SET then Some 0
  else if whence =? VFS_SEEK_CUR then Some pos
  else if whence =? VFS_SEEK_END then Some size else None.

Definition read_count (size pos len : Z) : Z := Z.max 0 (Z.min len (size - pos)).

(** One call on the abstract file; [room] is whether the file system takes a write. *)
Definition file_spec (room : bool) (op : fd_op) (c : list Z) (pos : Z)
    (r : Z) (bytes : list Z) (c' : list Z) (pos' : Z) : Prop :=
  match op with
  | op_read len =>
      let n := read_count (Z.of_nat (length c)) pos len in
      r = n ∧ bytes = take (Z.to_nat n) (drop (Z.to_nat pos) c) ∧ c' = c ∧ pos' = pos + n
  | op_write data =>
      bytes = [] ∧
      if (pos <? 4294967296) && room
      then r = Z.of_nat (length data) ∧ overwrites c pos data c' ∧ pos' = pos + r
      else r = -1 ∧ c' = c ∧ pos' = pos
  | op_seek off whence =>
      bytes = [] ∧ c' = c ∧
      match seek_origin whence (Z.of_nat (length c)) pos with
      | Some b => if (0 <=? b + off) && (b + off <? 9223372036854775808)
                  then r = b + off ∧ pos' = r else r = -1 ∧ pos' = pos
      | None => r = -1 ∧ pos' = pos
      end
  end.

(** Descriptor [fd] is open at [pos] on the file with contents [c] of mount [m]. *)
Definition fd_denotes (m : mount W) `{!FileSystem (m_fs m)} (q : path) (fs : files) (s : vfs)
    (fd : Z) (c : list Z) (pos : Z) : Prop :=
  0 ≤ fd < PROCESS_MAX_FDS ∧ 0 ≤ pos < 9223372036854775808 ∧
  fs !! Z.to_nat fd = Some (ProcFile q pos true) ∧
  vfs_find_mount (Some q) s = Some m ∧
  fsl_contents (v_world s) (m_fs_data m) (strip_mount_prefix m q) = Some c.

Lemma denotes_open m `{!FileSystem (m_fs m)} q fs s fd c pos :
  fd_denotes m q fs s fd c pos → open_file (Some fs) fd = Some (fs, ProcFile q pos true).
Proof.
  intros (Hfd & _ & Hf & _). unfold open_file. obind. unfold PROCESS_MAX_FDS in *.
  replace (fd <? 0) with false by lia. replace (16 <=? fd) with false by lia.
  cbn [orb]. rewrite Hf. by obind.
Qed.

Lemma denotes_find_world (p : option path) w s : vfs_find_mount p (with_world w s) = vfs_find_mount p s.
Proof. by destruct p. Qed.

(** The descriptor after a call that moved it to [pos'] over contents [c']. *)
Lemma denotes_moved m `{!FileSystem (m_fs m)} q fs s fd c pos c' pos' w :
  fd_denotes m q fs s fd c pos → 0 ≤ pos' < 9223372036854775808 →
  fsl_contents w (m_fs_data m) (strip_mount_prefix m q) = Some c' →
  fd_denotes m q (set_file fd (ProcFile q pos' true) fs) (with_world w s) fd c' pos'.
Proof.
  intros (Hfd & _ & Hf & Hm & _) Hp Hc. split; [done|]. split; [done|]. split.
  { unfold set_file. apply list_lookup_insert_eq. by eapply lookup_lt_Some. }
  split; [by rewrite denotes_find_world|done].
Qed.

Lemma set_file_same fs fd f : fs !! Z.to_nat fd = Some f → set_file fd f fs = fs.
Proof. intros Hf. unfold set_file. by apply list_insert_id. Qed.

Lemma denotes_world m `{!FileSystem (m_fs m)} q fs s fd c pos w c' :
  fd_denotes m q fs s fd c pos → fsl_contents w (m_fs_data m) (strip_mount_prefix m q) = Some c' →
  fd_denotes m q fs (with_world w s) fd c' pos.
Proof. intros (? & ? & ? & ? & ?) ?. split_and!; try done; try lia. Qed.

(** The outcome of one call: the abstract file moves as specified, the other
    descriptors and the other files stay. *)
Definition op_refines (m : mount W) `{!FileSystem (m_fs m)} (q : path) (fd : Z) (op : fd_op)
    (fs : files) (s : vfs) (c : list Z) (pos : Z) : Prop :=
  ∃ r bytes s' c' pos',
    run_op fd op (Some fs) s = (r, bytes, Some (set_file fd (ProcFile q pos' true) fs), s') ∧
    file_spec (fsl_room (v_world s) (m_fs_data m) (strip_mount_prefix m q) pos
                 (match op with op_write data => Z.of_nat (length data) | _ => 0 end))
      op c pos r bytes c' pos' ∧
    fd_denotes m q (set_file fd (ProcFile q pos' true) fs) s' fd c' pos' ∧
    mounts s' = mounts s ∧
    ∀ ctx p, (ctx, p) ≠ (m_fs_data m, strip_mount_prefix m q) →
      fsl_contents (v_world s') ctx p = fsl_contents (v_world s) ctx p.

Section Calls.
Context (m : mount W) `{!FileSystem (m_fs m)} (q : path) (fd : Z).

Lemma read_refines len fs s c pos :
  fd_denotes m q fs s fd c pos → is_u64 len → op_refines m q fd (op_read len) fs s c pos.
Proof.
  intros Hd Hlen. pose proof Hd as (Hfd & Hp & Hf & Hm & Hc).
  pose proof (fsl_size _ _ _ _ Hc) as Hsz.
  destruct (fsl_stat _ _ _ _ Hc) as (st & w1 & Est & Eval & Hw1 & _).
  unfold op_refines, run_op, vfs_read_fd. rewrite (denotes_open m q fs s fd c pos Hd). cbn [f_path f_offset negb].
  rewrite Hm. unfold clamp_read. rewrite Est, Eval. cbn [file_spec]. unfold read_count.
  destruct (Z.leb_spec (Z.of_nat (length c)) pos) as [Hend|Hin].
  - exists 0, [], (with_world w1 s), c, pos. rewrite set_file_same by done. split; [done|].
    replace (Z.max 0 (Z.min len (Z.of_nat (length c) - pos))) with 0 by lia.
    split; [split_and!; done || lia|]. split; [apply (denotes_world _ _ _ _ _ _ _ _ c Hd); by rewrite Hw1|].
    split; [done|]. intros. cbn [with_world v_world]. by rewrite Hw1.
  - set (n := if Z.of_nat (length c) - pos <? len then Z.of_nat (length c) - pos else len).
    assert (n = Z.max 0 (Z.min len (Z.of_nat (length c) - pos))) as Hn
      by (unfold n, is_u64 in *; destruct (Z.ltb_spec (Z.of_nat (length c) - pos) len); lia).
    assert (0 ≤ n ∧ pos + n ≤ Z.of_nat (length c)) as [Hn0 Hn1] by (unfold is_u64 in *; lia).
    rewrite <- Hn. clearbody n. cbn [v_world with_world].
    rewrite <- Hw1 in Hc.
    destruct (fsl_read_at w1 _ _ c pos n Hc ltac:(lia) Hn0 Hn1) as (rd & w2 & Erd & Eval2 & Hw2 & _).
    rewrite Erd, (u32_small pos), (u32_small n) by lia. rewrite Eval2.
    eexists n, _, (with_world w2 s), c, (pos + n). split.
    { repeat f_equal; try done. destruct (Z.ltb_spec 0 n).
      - unfold advance. cbn [f_offset set_f_offset f_path f_open]. by rewrite u64_small by lia.
      - replace (pos + n) with pos by lia. by rewrite set_file_same. }
    split; [done|]. split; [apply (denotes_moved _ _ _ _ _ c pos); [done|lia|by rewrite Hw2]|].
    split; [done|]. intros. cbn [with_world v_world]. by rewrite Hw2, Hw1.
Qed.

Lemma write_refines data fs s c pos :
  fd_denotes m q fs s fd c pos → Z.of_nat (length data) < 4294967296 →
  op_refines m q fd (op_write data) fs s c pos.
Proof.
  intros Hd Hlen. pose proof Hd as (Hfd & Hp & Hf & Hm & Hc).
  unfold op_refines, run_op, vfs_write_fd. rewrite (denotes_open m q fs s fd c pos Hd). cbn [f_path f_offset is_null].
  rewrite Hm, andb_false_r. cbn [file_spec].
  destruct (Z.ltb_spec 4294967295 pos) as [Hbig|Hsmall].
  - exists (-1), [], s, c, pos. rewrite set_file_same by done. split; [done|].
    replace (pos <? 4294967296) with false by lia. done.
  - destruct (fsl_write_at _ _ _ c pos data Hc ltac:(lia) Hlen) as (wr & r & w & Ewr & Eval & Hr & Hoth).
    rewrite Ewr, (u32_small pos), (u32_small (Z.of_nat _)) by lia. rewrite Eval.
    replace (pos <? 4294967296) with true by lia. cbn [andb].
    destruct (fsl_room _ _ _ _ _).
    + destruct Hr as ([x ->] & c' & Hc' & Hov). cbn [is_null].
      exists (Z.of_nat (length data)), [], (with_world w s), c', (pos + Z.of_nat (length data)). split.
      { unfold advance. cbn [f_offset set_f_offset f_path f_open]. rewrite u64_small by lia.
        by rewrite s64_id by lia. }
      split; [done|]. split; [apply (denotes_moved _ _ _ _ _ c pos); [done|lia|done]|].
      split; [done|]. intros. by apply Hoth.
    + destruct Hr as [-> Hc']. cbn [is_null].
      exists (-1), [], (with_world w s), c, pos. rewrite set_file_same by done. split; [done|].
      split; [done|]. split; [by apply (denotes_world _ _ _ _ _ c pos)|].
      split; [done|]. intros. by apply Hoth.
Qed.
Lemma seek_refines off whence fs s c pos :
  fd_denotes m q fs s fd c pos → -9223372036854775808 ≤ off < 9223372036854775808 →
  op_refines m q fd (op_seek off whence) fs s c pos.
Proof.
  intros Hd Hoff. pose proof Hd as (Hfd & Hp & Hf & Hm & Hc).
  pose proof (fsl_size _ _ _ _ Hc) as Hsz.
  destruct (fsl_stat _ _ _ _ Hc) as (st & w1 & Est & Eval & Hw1 & _).
  assert (∃ w, fsl_contents w = fsl_contents (v_world s) ∧
    seek_base (ProcFile q pos true) whence s = (seek_origin whence (Z.of_nat (length c)) pos, with_world w s)) as (w & Hw & Eb).
  { unfold seek_base, seek_origin, VFS_SEEK_CUR, VFS_SEEK_END, VFS_SEEK_SET. cbn [f_offset f_path].
    destruct (Z.eqb_spec whence 1) as [-> |]; [exists (v_world s); split; [done|]; by rewrite s64_id by lia; destruct s|].
    destruct (Z.eqb_spec whence 2) as [-> |]; [|exists (v_world s); split; [done|]; by destruct (whence =? 0), s].
    exists w1. split; [done|]. unfold vfs_stat, resolve. rewrite Hm. obind. cbn [mbind option_bind].
    rewrite Est. cbn [mbind option_bind]. rewrite Eval. by rewrite s64_id by lia. }
  unfold op_refines, run_op, vfs_seek_fd. rewrite (denotes_open m q fs s fd c pos Hd), Eb. cbn [file_spec].
  assert (∀ b, seek_origin whence (Z.of_nat (length c)) pos = Some b → 0 ≤ b < 9223372036854775808) as Hb.
  { intros b. unfold seek_origin. repeat split_if; intros; simplify_eq; lia. }
  destruct (seek_origin _ _ _) as [b|]; [specialize (Hb b eq_refl)|].
  - replace (b <? 0) with false by lia. cbn [orb].
    destruct (decide (0 ≤ b + off < 9223372036854775808)) as [Hin|Hout].
    + rewrite !s64_id by lia. replace (b + off <? 0) with false by lia. cbn [set_f_offset f_offset f_path f_open].
      rewrite u64_small, s64_id by lia.
      eexists (b + off), [], (with_world w s), c, (b + off). split; [done|].
      replace (0 <=? b + off) with true by lia. replace (b + off <? 9223372036854775808) with true by lia.
      split; [done|]. split; [apply (denotes_moved _ _ _ _ _ c pos); [done|lia|by rewrite Hw]|].
      split; [done|]. intros. cbn [with_world v_world]. by rewrite Hw.
    + assert (s64 (b + off) <? 0 = true) as ->.
      { destruct (Z.lt_ge_cases (b + off) 0); [rewrite s64_id; lia|].
        replace (s64 (b + off)) with (s64 (b + off - 18446744073709551616)); [rewrite s64_id; lia|].
        unfold s64, signed_of. replace ((b + off - 18446744073709551616) mod 18446744073709551616) with ((b + off) mod 18446744073709551616) by dlia. done. }
      exists (-1), [], (with_world w s), c, pos. rewrite set_file_same by done. split; [done|].
      assert ((0 <=? b + off) && (b + off <? 9223372036854775808) = false) as -> by lia.
      split; [done|]. split; [apply (denotes_world _ _ _ _ _ c pos); [done|by rewrite Hw]|].
      split; [done|]. intros. cbn [with_world v_world]. by rewrite Hw.
  - exists (-1), [], (with_world w s), c, pos. rewrite set_file_same by done. split; [done|]. split; [done|].
    split; [apply (denotes_world _ _ _ _ _ c pos); [done|by rewrite Hw]|].
    split; [done|]. intros. cbn [with_world v_world]. by rewrite Hw.
Qed.
End Calls.

(** C28: the descriptor calls refine the abstract file.  A descriptor open on a
    file of a file system that keeps the laws of [FileSystem] denotes contents and a
    position; a read returns the bytes from the position to the end of the request or
    of the file, whichever comes first, and advances by their number; a write
    replaces or appends exactly its bytes when the file system takes it and changes
    nothing when it does not; a seek sets the position or fails on a bad origin, a
    negative or an unrepresentable target.  No other descriptor, file or mount
    changes. *)
Theorem vfs_fd_refines m `{!FileSystem (m_fs m)} q fd op fs s c pos :
  fd_denotes m q fs s fd c pos → fd_op_ok op → op_refines m q fd op fs s c pos.
Proof.
  intros Hd Hop. destruct op; [by apply read_refines|by apply write_refines|by apply seek_refines].
Qed.

(** what is written is read back.  After a write the file system accepts, seeking
    back to where it started and reading as many bytes returns those bytes. *)
Theorem vfs_write_read_roundtrip m `{!FileSystem (m_fs m)} q fd fs s c pos data :
  fd_denotes m q fs s fd c pos → Z.of_nat (length data) < 4294967296 → pos < 4294967296 →
  fsl_room (v_world s) (m_fs_data m) (strip_mount_prefix m q) pos (Z.of_nat (length data)) = true →
  let '(r1, p1, s1) := vfs_write_fd (Some fs) fd (Some data) (Z.of_nat (length data)) s in
  let '(r2, p2, s2) := vfs_seek_fd p1 fd pos VFS_SEEK_SET s1 in
  let '(r3, bytes, p3, s3) := vfs_read_fd p2 fd true (Z.of_nat (length data)) s2 in
  r1 = Z.of_nat (length data) ∧ r2 = pos ∧ r3 = Z.of_nat (length data) ∧ bytes = data ∧ p3 = p1.
Proof.
  intros Hd Hlen Hpos Hroom. pose proof Hd as (Hfd & Hp & Hf & _).
  destruct (write_refines m q fd data fs s c pos Hd Hlen) as (r1 & b1 & s1 & c1 & q1 & E1 & H1 & Hd1 & _).
  simpl in E1, H1. destruct H1 as [_ H1]. rewrite Hroom in H1. replace (pos <? 4294967296) with true in H1 by lia.
  destruct H1 as (-> & (Hl & Hdata & _) & ->).
  destruct (vfs_write_fd _ _ _ _ _) as [[x1 y1] z1]. injection E1 as -> _ -> ->.
  destruct (seek_refines m q fd pos VFS_SEEK_SET _ _ _ _ Hd1 ltac:(lia)) as (r2 & b2 & s2 & c2 & q2 & E2 & H2 & Hd2 & _).
  simpl in E2, H2. destruct H2 as (_ & -> & H2).
  replace (0 <=? 0 + pos) with true in H2 by lia. replace (0 + pos <? 9223372036854775808) with true in H2 by lia.
  destruct H2 as [-> ->].
  destruct (vfs_seek_fd _ _ _ _ _) as [[x2 y2] z2]. injection E2 as -> _ -> ->.
  replace (0 + pos) with pos in * by lia.
  destruct (read_refines m q fd (Z.of_nat (length data)) _ _ _ _ Hd2) as (r3 & b3 & s3 & c3 & q3 & E3 & H3 & _).
  { unfold is_u64. lia. }
  simpl in E3, H3. rewrite E3. replace (read_count _ _ _) with (Z.of_nat (length data)) in H3
    by (unfold read_count; lia).
  destruct H3 as (-> & -> & _ & ->). split_and!; try done; [by rewrite Nat2Z.id|].
  unfold set_file. by rewrite !list_insert_insert_eq.
Qed.

(** ** Opening *)

Lemma free_fd_spec (fs : files) :
  length fs = Z.to_nat PROCESS_MAX_FDS →
  (free_fd fs = -1 ∧ ∀ i f, 3 ≤ i → fs !! Z.to_nat i = Some f → f_open f = true) ∨
  (3 ≤ free_fd fs < PROCESS_MAX_FDS ∧
   (∃ f, fs !! Z.to_nat (free_fd fs) = Some f ∧ f_open f = false) ∧
   ∀ i f, 3 ≤ i < free_fd fs → fs !! Z.to_nat i = Some f → f_open f = true).
Proof.
  intros Hlen. unfold free_fd.
  pose proof (for_ind (λ i (_ : unit), ∀ j f, 3 ≤ j < i → fs !! Z.to_nat j = Some f → f_open f = true)
    (λ r, 3 ≤ r < PROCESS_MAX_FDS ∧ (∃ f, fs !! Z.to_nat r = Some f ∧ f_open f = false) ∧
          ∀ j f, 3 ≤ j < r → fs !! Z.to_nat j = Some f → f_open f = true)
    3 PROCESS_MAX_FDS (λ i _, match fs !! Z.to_nat i with
          | Some f => if f_open f then inl () else inr i | None => inl () end) ()) as HI.
  feed HI; [done|]. feed HI; [intros; lia|]. feed HI.
  { intros i [] Hi IH. destruct (lookup_lt_is_Some_2 fs (Z.to_nat i)) as [f Ef]; [rewrite Hlen; lia|].
    rewrite Ef. destruct (f_open f) eqn:Eo; [|by eauto].
    intros j g Hj Hg. destruct (decide (j = i)) as [-> |]; [by simplify_eq|]. apply (IH j); [lia|done]. }
  destruct (for_ _ _ _ _) as [u|r]; [left|by right].
  split; [done|]. intros i f Hi Hf. apply (HI i); [|done].
  apply lookup_lt_Some in Hf. lia.
Qed.

(** The outcomes of opening [p], given what [stat] said of it. *)
Definition open_post (fs : files) (p : path) (flags : Z) (st : option (Z * bool))
    (fd : Z) (proc : option files) : Prop :=
  (fd = -1 ∧ proc = Some fs ∨
   ∃ fs' off, proc = Some fs' ∧ 3 ≤ fd < PROCESS_MAX_FDS ∧
     (∃ f, fs !! Z.to_nat fd = Some f ∧ f_open f = false) ∧
     (∀ i f, 3 ≤ i < fd → fs !! Z.to_nat i = Some f → f_open f = true) ∧
     fs' !! Z.to_nat fd = Some (ProcFile (take 127 p) off true) ∧
     (∀ i, i ≠ Z.to_nat fd → fs' !! i = fs !! i) ∧
     (off = 0 ∨ truthy (Z.land flags VFS_O_APPEND) = true ∧ ∃ size, st = Some (size, false) ∧ off = size)) ∧
  ((∃ size, st = Some (size, true)) → fd = -1) ∧
  (st = None → truthy (Z.land flags VFS_O_CREAT) = false → fd = -1) ∧
  ((∀ i f, 3 ≤ i → fs !! Z.to_nat i = Some f → f_open f = true) → fd = -1).

Lemma open_post_fail fs p flags st : open_post fs p flags st (-1) (Some fs).
Proof. unfold open_post. split_and!; try done. by left. Qed.

(** Taking the free descriptor once the file is there with size [size]. *)
Lemma open_post_take fs p flags st size :
  length fs = Z.to_nat PROCESS_MAX_FDS →
  size = 0 ∨ st = Some (size, false) → (∀ z, st ≠ Some (z, true)) →
  (st = None → truthy (Z.land flags VFS_O_CREAT) = true) → 0 ≤ free_fd fs →
  open_post fs p flags st (free_fd fs) (Some (set_file (free_fd fs) (ProcFile (take 127 p)
    (if truthy (Z.land flags VFS_O_APPEND) then size else 0) true) fs)).
Proof.
  intros Hlen Hsize Hdir Hcreat H0. unfold open_post.
  destruct (free_fd_spec fs Hlen) as [[E _]|(Hr & (f & Hf & Ho) & Hlow)]; [lia|]. split_and!.
  - right. eexists _, _. split; [done|]. split; [done|]. split; [by eauto|]. split; [done|].
    unfold set_file. split; [apply list_lookup_insert_eq; by eapply lookup_lt_Some|].
    split; [intros; by apply list_lookup_insert_ne|].
    destruct (truthy (Z.land flags VFS_O_APPEND)); [|by left].
    destruct Hsize as [-> |Hs]; [by left|right; split; [done|]; by eexists].
  - intros [z Hz]. by destruct (Hdir z).
  - intros Hn Hc. by rewrite Hcreat in Hc.
  - intros Hall. rewrite (Hall (free_fd fs) f) in Ho; [done|lia|done].
Qed.

(** opening.  A successful call returns the lowest closed descriptor from 3 on,
    leaves it open on the path (cut to its 127 characters) at the start, or at the
    end of the file for [O_APPEND], and touches no other slot; a failing call returns
    -1 and leaves the table as it was, and it fails when the path is a directory,
    when it is missing and [O_CREAT] is not set, or when no descriptor is free. *)
Theorem vfs_open_fd_correct fs p flags s :
  length fs = Z.to_nat PROCESS_MAX_FDS →
  let '(fd, proc, s') := vfs_open_fd (Some fs) (Some p) flags s in
  open_post fs p flags (vfs_stat (Some p) s).1 fd proc.
Proof.
  intros Hlen. unfold vfs_open_fd, prepare_open.
  destruct (vfs_stat (Some p) s) as [st s1] eqn:Est. cbn [fst].
  assert (∀ size (s2 : vfs), (size = 0 ∨ st = Some (size, false)) → (∀ z, st ≠ Some (z, true)) →
    (st = None → truthy (Z.land flags VFS_O_CREAT) = true) →
    let '(fd, proc, s') := (if free_fd fs <? 0 then (-1, Some fs, s2)
       else (free_fd fs, Some (set_file (free_fd fs) (ProcFile (take 127 p)
              (if truthy (Z.land flags VFS_O_APPEND) then size else 0) true) fs), s2)) in
    open_post fs p flags st fd proc) as Hopen.
  { intros size s2 Hsize Hdir Hcreat. destruct (Z.ltb_spec (free_fd fs) 0); [apply open_post_fail|].
    by apply open_post_take. }
  destruct st as [[size [|]]|]; [apply open_post_fail|destruct (truthy _ && _)|].
  - destruct (vfs_write_file _ _ _ _) as [[|] s2]; [by apply (Hopen 0); [left|..]|apply open_post_fail].
  - apply (Hopen size); [by right|done..].
  - destruct (truthy (Z.land flags VFS_O_CREAT)) eqn:Ec; cbn [negb]; [|apply open_post_fail].
    destruct (vfs_write_file _ _ _ _) as [[|] s2]; [by apply (Hopen 0); [left|..]|apply open_post_fail].
Qed.

End Vfs.
Arguments vfs : clear implicits.

(** ** Witnesses *)

(** A file system with one file "f" of at most 100 bytes, a write extending it with
    zeroes; the state of the disk is the file. *)
Definition memfs_contents (w : list Z) (ctx : Z) (p : path) : option (list Z) :=
  if bool_decide (ctx = 5 ∧ p = [102]) && (length w <=? 100)%nat then Some w else None.
Definition memfs_room (w : list Z) (ctx : Z) (p : path) (off n : Z) : bool := off + n <=? 100.
Definition memfs_put (w : list Z) (off : Z) (data : list Z) : list Z :=
  take (Z.to_nat off) (w ++ replicate (Z.to_nat off - length w) 0) ++ data ++ drop (Z.to_nat off + length data) w.

Definition memfs : fs_type (list Z) := {|
  fs_name := Some [109];
  fs_probe := Some (λ dev w, (dev <? 3, w));
  fs_mount := Some (λ dev w, (if dev <? 2 then Some 5 else None, w));
  fs_read_file := None;
  fs_write_file := Some (λ ctx p buf n w, (false, w));
  fs_stat_file := Some (λ ctx p w, (c ← memfs_contents w ctx p; Some (Z.of_nat (length c), false), w));
  fs_read_at := Some (λ ctx p off n w,
    match memfs_contents w ctx p with
    | Some c => (n, take (Z.to_nat n) (drop (Z.to_nat off) c), w)
    | None => (-1, [], w)
    end);
  fs_write_at := Some (λ ctx p off buf n w,
    match memfs_contents w ctx p, buf with
    | Some c, Some data => if memfs_room w ctx p off n then (Some 0, memfs_put c off data) else (None, w)
    | _, _ => (None, w)
    end);
  fs_list_dir := None;
  fs_mkdir := None;
  fs_remove := None
|}.

Lemma memfs_put_overwrites c off data : 0 ≤ off → overwrites c off data (memfs_put c off data).
Proof.
  intros Hoff. unfold memfs_put.
  assert (length (take (Z.to_nat off) (c ++ replicate (Z.to_nat off - length c) 0)) = Z.to_nat off) as Hl
    by (rewrite length_take, length_app, length_replicate; lia).
  split; [|split].
  - rewrite !length_app, Hl, length_drop. lia.
  - rewrite drop_app_length' by done. by rewrite take_app_length.
  - intros i Hi Hor. destruct (Z.lt_ge_cases i off).
    + rewrite lookup_app_l by lia. rewrite lookup_take_lt by lia. by rewrite lookup_app_l by lia.
    + rewrite lookup_app_r, Hl by lia. rewrite lookup_app_r by lia. rewrite lookup_drop. f_equal. lia.
Qed.

Lemma memfs_contents_Some w ctx p c :
  memfs_contents w ctx p = Some c → ctx = 5 ∧ p = [102] ∧ c = w ∧ (length w ≤ 100)%nat.
Proof.
  unfold memfs_contents. destruct (bool_decide_reflect (ctx = 5 ∧ p = [102])) as [[-> ->]|]; [|done].
  cbn [andb]. destruct (Nat.leb_spec (length w) 100); [|done]. by intros [= ->].
Qed.

#[export] Program Instance memfs_laws : FileSystem memfs :=
  {| fsl_contents := memfs_contents; fsl_room := memfs_room |}.
Next Obligation. intros w ctx p c (_ & _ & -> & ?)%memfs_contents_Some. lia. Qed.
Next Obligation. intros w ctx p c Hc. eexists _, w. split; [done|]. cbn beta. by rewrite Hc. Qed.
Next Obligation. intros w ctx p c off n Hc ???. eexists _, w. split; [done|]. cbn beta. by rewrite Hc. Qed.
Next Obligation.
  intros w ctx p c off data Hc Hoff Hlen. pose proof (memfs_contents_Some w ctx p c Hc) as (-> & -> & -> & Hl).
  eexists _, _, _. split; [done|]. cbn beta. rewrite Hc. split; [apply surjective_pairing|].
  split.
  - destruct (memfs_room _ _ _ _ _) eqn:Er; [|done]. split; [done|]. exists (memfs_put w off data).
    pose proof (memfs_put_overwrites w off data ltac:(lia)) as Ho. split; [|done]. cbn [snd].
    unfold memfs_contents. replace (_ <=? 100)%nat with true; [done|]. symmetry. apply Nat.leb_le.
    destruct Ho as (Ho & _). unfold memfs_room in Er. lia.
  - intros ctx p Hne. assert (∀ v, memfs_contents v ctx p = None) as Hn; [|by rewrite !Hn].
    intros v. unfold memfs_contents. rewrite bool_decide_eq_false_2; [done|]. intros [-> ->]. done.
Qed.

Definition demo_mount : mount (list Z) := Mount [slash] memfs 1 5.
Definition demo_vfs : vfs (heap pmm) (list Z) := Vfs [memfs] 1 [demo_mount] demo_heap [1; 2; 3; 4].
Definition closed_file : proc_file := ProcFile [] 0 false.
Definition demo_files : list proc_file :=
  replicate 4 (ProcFile [47; 102] 2 true) ++ replicate 12 closed_file.

Lemma demo_denotes : fd_denotes demo_mount [47; 102] demo_files demo_vfs 3 [1; 2; 3; 4] 2.
Proof. split; [done|]. split; [done|]. split; [done|]. split; [vm_compute; reflexivity|]. vm_compute. reflexivity. Qed.

Lemma vfs_fd_refines_witness :
  op_refines demo_mount [47; 102] 3 (op_write [9; 8; 7]) demo_files demo_vfs [1; 2; 3; 4] 2.
Proof. apply (vfs_fd_refines demo_mount); [exact demo_denotes|done]. Defined.

Lemma vfs_roundtrip_witness :
  let '(r1, p1, s1) := vfs_write_fd (Some demo_files) 3 (Some [9; 8; 7]) 3 demo_vfs in
  let '(r2, p2, s2) := vfs_seek_fd p1 3 2 VFS_SEEK_SET s1 in
  let '(r3, bytes, p3, s3) := vfs_read_fd p2 3 true 3 s2 in
  r1 = 3 ∧ r2 = 2 ∧ r3 = 3 ∧ bytes = [9; 8; 7] ∧ p3 = p1.
Proof.
  apply (vfs_write_read_roundtrip demo_mount [47; 102] 3 demo_files demo_vfs [1; 2; 3; 4] 2 [9; 8; 7]);
    [exact demo_denotes|done|done|reflexivity].
Defined.

Lemma vfs_open_fd_witness :
  let '(fd, proc, s') := vfs_open_fd (Some demo_files) (Some [47; 102]) VFS_O_APPEND demo_vfs in
  fd = 4 ∧ open_post demo_files [47; 102] VFS_O_APPEND (Some (4, false)) fd proc.
Proof.
  split; [reflexivity|]. exact (vfs_open_fd_correct demo_files [47; 102] VFS_O_APPEND demo_vfs eq_refl).
Defined.

Definition demo_unmounted : vfs (heap pmm) (list Z) := Vfs [memfs] 0 [] demo_heap [1; 2; 3; 4].

Lemma vfs_mount_all_witness :
  ∃ n s', vfs_mount_all [0; 2; 1; 3] demo_unmounted = Some (n, s') ∧
    vfs_mount_count s' = n ∧ n = Z.of_nat (length (mounts s')) ∧ n ≤ 4 ∧
    ∀ m p, vfs_mount_first s' = Some m →
      vfs_find_mount (Some (slash :: p)) s' = Some m ∧ strip_mount_prefix m (slash :: p) = p.
Proof.
  apply (vfs_mount_all_root [0; 2; 1; 3] demo_unmounted ∅).
  - intros fs ->%list_elem_of_singleton. by eexists.
  - done.
  - done.
  - exists [demo_used; demo_rest]. split; [apply demo_heap_inv|]. intros p Hp. set_solver.
  - done.
Defined.
