(* ===== verification/Process.v ===== *)
(** Process management (process/process.c): creation, loading, [execve], [fork]
    and the children of a process.

    The memory behind it (kernel heap, address spaces and the image loader) is
    the class [ProcessKernel]; Machine.v instantiates it with the
    definitions of Kheap.v, Paging.v and Image.v, where the heap and the page tables
    share one memory and one frame allocator.  [ProcessKernelOk] states what the
    theorems rely on in terms of the live heap pointers [X] and the live address
    spaces [S].  Process blocks are records in a store, as in Scheduler.v; [None] is
    an access through a pointer that is not a live process, or a fault of the
    memory layer. *)

From stdpp Require Import prelude numbers list gmap.
From Stdlib Require Import ZArith Lia.
From S2P Require Import Prelude Memory Frames Pmm Kheap Alloc Paging Bytes Pcb Percpu Elf Image Vfs.

Open Scope Z_scope.

Definition PROCESS_KSTACK_SIZE : Z := 16 * 1024.
Definition sizeof_process : Z := 2632.
Definition ELF_BUF_SIZE : Z := 1024 * 1024.

(** [syscall_regs_t]: the registers the system-call entry saves. *)
Record syscall_regs : Type := SyscallRegs {
  sr_rax : Z; sr_rbx : Z; sr_rcx : Z; sr_rdx : Z; sr_rsi : Z; sr_rdi : Z; sr_rbp : Z; sr_r8 : Z;
  sr_r9 : Z; sr_r10 : Z; sr_r11 : Z; sr_r12 : Z; sr_r13 : Z; sr_r14 : Z; sr_r15 : Z
}.

Class ProcessKernel (K : Type) : Type := {
  pk_alloc : Z → Z → K → option (Z * K);
  pk_free : Z → K → option K;
  pk_new_space : K → Z * K;
  pk_free_space : Z → K → K;
  pk_clone : Z → Z → K → bool * K;
  (** the bytes of a file in a buffer *)
  pk_store : Z → list Z → K → K;
  pk_parse : Z → Z → K → option (option (list elf_segment * Z * bool));
  pk_map_segment : Z → Z → elf_segment → Z → K → bool * K;
  pk_relocate : Z → Z → Z → Z → K → option (bool * K);
  pk_map_stack : Z → K → bool * K;
  pk_setup : Z → list Z → Z → K → Z * K;
  pk_exec_stack : Z → list (list Z) → list (list Z) → K → option (Z * K);
  pk_cstr : Z → Z → K → option (list Z)
}.

Section Process.
Context {K H W : Type} `{!ProcessKernel K}.
Context (percpu_base : Z).

Record pstate : Type := PState {
  ps_kernel : K;
  ps_procs : gmap Z pcb;
  next_pid : Z;
  ps_cpus : cpus;
  ps_vfs : vfs H W
}.

Definition with_kern (k : K) (s : pstate) : pstate := PState k (ps_procs s) (next_pid s) (ps_cpus s) (ps_vfs s).
Definition with_table (P : gmap Z pcb) (s : pstate) : pstate := PState (ps_kernel s) P (next_pid s) (ps_cpus s) (ps_vfs s).
Definition with_pid (n : Z) (s : pstate) : pstate := PState (ps_kernel s) (ps_procs s) n (ps_cpus s) (ps_vfs s).
Definition with_vfs (v : vfs H W) (s : pstate) : pstate := PState (ps_kernel s) (ps_procs s) (next_pid s) (ps_cpus s) v.
Definition with_pcpus (c : cpus) (s : pstate) : pstate := PState (ps_kernel s) (ps_procs s) (next_pid s) c (ps_vfs s).

Definition upd_pcb (a : Z) (f : pcb → pcb) (s : pstate) : option pstate :=
  p ← ps_procs s !! a; Some (with_table (<[a := f p]> (ps_procs s)) s).

(** Calls into the memory layer. *)
Definition kalloc (size align : Z) (s : pstate) : option (Z * pstate) :=
  r ← pk_alloc size align (ps_kernel s); let '(p, k) := r in Some (p, with_kern k s).
Definition kfree (p : Z) (s : pstate) : option pstate :=
  k ← pk_free p (ps_kernel s); Some (with_kern k s).

Definition process_init (s : pstate) : pstate := with_pid 1 s.
Definition process_next_pid (s : pstate) : Z := next_pid s.
Definition process_current (me : Z) (s : pstate) : option Z := get_current percpu_base me (ps_cpus s).
Definition process_set_current (me proc : Z) (s : pstate) : option pstate :=
  c ← upd_current percpu_base me (set_pc_current proc) (ps_cpus s); Some (with_pcpus c s).

Definition zero_regs : registers := Registers 0 0 0 0 0 0 0 0 0 0 0 0 0 0 0 0 0 0 0 0 0 0.
Definition closed_slot : proc_file := ProcFile [] 0 false.
Definition tty_file : proc_file := ProcFile [116; 116; 121] 0 true.

(** The block after the assignments up to the file table and the name. *)
Definition fresh_pcb (pid : Z) (name : option (list Z)) : pcb :=
  Pcb pid (match name with Some n => take 31 n | None => [117; 115; 101; 114] end) PROC_READY 0 0 0 0
    PROCESS_MMAP_START ([tty_file; tty_file; tty_file] ++ replicate 13 closed_slot) 0 0 0 0 false 0 0 0 0 false false
    (Registers 0 0 0 0 0 0 0 0 0 0 0 0 0 0 0 0 0 0 0x23 0x202 0 0x1B) 0.

(** The block is given back to the heap. *)
Definition drop_pcb (proc : Z) (s : pstate) : option pstate :=
  s ← kfree proc s; Some (with_table (delete proc (ps_procs s)) s).

Definition process_create (name : option (list Z)) (s : pstate) : option (Z * pstate) :=
  r ← kalloc sizeof_process 16 s;
  let '(proc, s) := r in
  if proc =? 0 then Some (0, s)
  else
    let p := fresh_pcb (next_pid s) name in
    let s := with_pid (u64 (next_pid s + 1)) s in
    let '(cr3, k) := pk_new_space (ps_kernel s) in
    let s := with_table (<[proc := set_p_cr3 cr3 p]> (ps_procs s)) (with_kern k s) in
    if cr3 =? 0 then s ← drop_pcb proc s; Some (0, s)
    else
      r ← kalloc PROCESS_KSTACK_SIZE 16 s;
      let '(stack, s) := r in
      let top := u64 (stack + PROCESS_KSTACK_SIZE) in
      s ← upd_pcb proc (set_p_kernel_stack_top top) s;
      if top =? 0 then
        s ← drop_pcb proc (with_kern (pk_free_space cr3 (ps_kernel s)) s); Some (0, s)
      else Some (proc, s).

(** The loop over the segments, then relocations and the stack: the part of the
    loader after which both callers give back the buffer. *)
Fixpoint map_segments (cr3 image : Z) (segs : list elf_segment) (base : Z) (k : K) : bool * K :=
  match segs with
  | [] => (true, k)
  | seg :: segs =>
      let '(ok, k) := pk_map_segment cr3 image seg base k in
      if (ok : bool) then map_segments cr3 image segs base k else (false, k)
  end.

Definition load_image (cr3 image size : Z) (segs : list elf_segment) (base : Z) (k : K) : option (bool * K) :=
  let '(ok, k) := map_segments cr3 image segs base k in
  if negb ok then Some (false, k)
  else
    r ← pk_relocate cr3 image size base k;
    let '(ok, k) := r in
    if negb (ok : bool) then Some (false, k) else Some (pk_map_stack cr3 k).

(** A buffer with the file and its parsed headers: [None] inside is the failure
    both callers return, with the buffer freed. *)
Definition read_elf (path : list Z) (s : pstate)
    : option (option (Z * Z * list elf_segment * Z * bool) * pstate) :=
  r ← kalloc ELF_BUF_SIZE 16 s;
  let '(buf, s) := r in
  if buf =? 0 then Some (None, s)
  else
    let '(size, bytes, v) := vfs_read_file (Some path) true ELF_BUF_SIZE (ps_vfs s) in
    let s := with_kern (pk_store buf bytes (ps_kernel s)) (with_vfs v s) in
    if size <=? 0 then s ← kfree buf s; Some (None, s)
    else
      r ← pk_parse buf size (ps_kernel s);
      match r with
      | None => s ← kfree buf s; Some (None, s)
      | Some (segs, entry, pie) => Some (Some (buf, size, segs, entry, pie), s)
      end.

(** [process_setup] *)
Definition process_setup (proc entry stack_top : Z) (s : pstate) : option pstate :=
  p ← ps_procs s !! proc;
  let '(rsp, k) := pk_setup (p_cr3 p) (p_name p) stack_top (ps_kernel s) in
  upd_pcb proc (λ p, set_p_ctx (set_r_rflags 0x202 (set_r_user_rsp rsp (set_r_rip entry (p_ctx p)))) p) (with_kern k s).

Definition process_load_elf (proc : Z) (path : list Z) (s : pstate) : option (bool * pstate) :=
  r ← read_elf path s;
  let '(f, s) := r in
  match f with
  | None => Some (false, s)
  | Some (buf, size, segs, entry, pie) =>
      p ← ps_procs s !! proc;
      let base := if (pie : bool) then pie_base (p_pid p) else 0 in
      r ← load_image (p_cr3 p) buf size segs base (ps_kernel s);
      let '(ok, k) := r in
      s ← kfree buf (with_kern k s);
      if negb (ok : bool) then Some (false, s)
      else
        s ← process_setup proc (u64 (base + entry)) PROCESS_USER_STACK_TOP s;
        Some (true, s)
  end.

Definition process_destroy (proc : Z) (s : pstate) : option pstate :=
  if proc =? 0 then Some s
  else
    p ← ps_procs s !! proc;
    s ← (if truthy (p_kernel_stack_top p)
         then kfree (u64 (p_kernel_stack_top p - PROCESS_KSTACK_SIZE)) s else Some s);
    drop_pcb proc (with_kern (pk_free_space (p_cr3 p) (ps_kernel s)) s).

(** A kernel copy of a user string: its address and characters, or a null pointer. *)
Definition read_user_cstr (cr3 uaddr : Z) (s : pstate) : option (option (Z * list Z) * pstate) :=
  r ← kalloc 256 1 s;
  let '(out, s) := r in
  if out =? 0 then Some (None, s)
  else
    match pk_cstr cr3 uaddr (ps_kernel s) with
    | None => s ← kfree out s; Some (None, s)
    | Some str => Some (Some (out, str), s)
    end.

(** What a successful [execve] leaves in the block. *)
Definition exec_pcb (cr3 rip rsp : Z) (p : pcb) : pcb :=
  set_p_ctx (set_r_rflags 0x202 (set_r_user_rsp rsp (set_r_rip rip (p_ctx p))))
    (set_p_terminate false (set_p_fs_base 0 (set_p_mmap_cursor PROCESS_MMAP_START (set_p_cr3 cr3 p)))).

(** [argv] and [envp] are the strings the arrays point to, counted by the caller's
    null pointers. *)
Definition process_execve (proc : Z) (path : list Z) (argv envp : list (list Z)) (s : pstate)
    : option (bool * pstate) :=
  r ← read_elf path s;
  let '(f, s) := r in
  match f with
  | None => Some (false, s)
  | Some (buf, size, segs, entry, pie) =>
      let '(new_cr3, k) := pk_new_space (ps_kernel s) in
      if new_cr3 =? 0 then s ← kfree buf (with_kern k s); Some (false, s)
      else
        p ← ps_procs s !! proc;
        let base := if (pie : bool) then pie_base (p_pid p) else 0 in
        r ← load_image new_cr3 buf size segs base k;
        let '(ok, k) := r in
        if negb (ok : bool) then
          s ← kfree buf (with_kern (pk_free_space new_cr3 k) s); Some (false, s)
        else
          s ← kfree buf (with_kern k s);
          r ← pk_exec_stack new_cr3 argv envp (ps_kernel s);
          let '(rsp, k) := r in
          if rsp =? 0 then Some (false, with_kern (pk_free_space new_cr3 k) s)
          else
            s ← upd_pcb proc (exec_pcb new_cr3 (u64 (base + entry)) rsp)
                  (with_kern (pk_free_space (p_cr3 p) k) s);
            Some (true, s)
  end.

(** [child] is a live process, different from [parent]. *)
Definition process_link_child (parent child : Z) (s : pstate) : option pstate :=
  s ← upd_pcb child (set_p_parent parent) s;
  p ← ps_procs s !! parent;
  s ← upd_pcb child (set_p_next_sibling (p_children p)) s;
  upd_pcb parent (set_p_children child) s.

(** The context the child starts with: [fork] returning 0 at the user's address. *)
Definition fork_ctx (r : syscall_regs) (user_rsp : Z) : registers :=
  Registers 0 (sr_rbx r) (sr_rcx r) (sr_rdx r) (sr_rsi r) (sr_rdi r) (sr_rbp r) (sr_r8 r) (sr_r9 r) (sr_r10 r)
    (sr_r11 r) (sr_r12 r) (sr_r13 r) (sr_r14 r) (sr_r15 r) 0 0 (sr_rcx r) 0x23 (sr_r11 r) user_rsp 0x1B.

Definition process_fork (me : Z) (regs : syscall_regs) (s : pstate) : option (Z * pstate) :=
  parent ← process_current me s;
  if parent =? 0 then Some (0, s)
  else
    pp ← ps_procs s !! parent;
    r ← process_create (Some (p_name pp)) s;
    let '(child, s) := r in
    if child =? 0 then Some (0, s)
    else
      c ← ps_procs s !! child;
      let '(ok, k) := pk_clone (p_cr3 pp) (p_cr3 c) (ps_kernel s) in
      let s := with_kern k s in
      if negb (ok : bool) then s ← process_destroy child s; Some (0, s)
      else
        s ← upd_pcb child (λ c, set_p_vt (p_vt pp) (set_p_fs_base (p_fs_base pp)
              (set_p_mmap_cursor (p_mmap_cursor pp) (set_p_files (p_files pp) c)))) s;
        i ← percpu_slot percpu_base (percpu_current percpu_base me (ps_cpus s));
        s ← upd_pcb child (set_p_ctx (fork_ctx regs (pc_user_rsp (g_percpu (ps_cpus s) i)))) s;
        s ← process_link_child parent child s;
        Some (child, s).

(** The walk over the children; more rounds than there are addresses. *)
Definition sibling_fuel : positive := 18446744073709551617.

Definition zombie_step (pid : Z) (P : gmap Z pcb) (c : Z) : Z + option Z :=
  if c =? 0 then inr (Some 0)
  else match P !! c with
       | None => inr None
       | Some b =>
           if bool_decide (p_state b = PROC_ZOMBIE) && ((pid =? 0) || (p_pid b =? pid)) then inr (Some c)
           else inl (p_next_sibling b)
       end.

Definition process_find_zombie_child (parent pid : Z) (s : pstate) : option Z :=
  c ← (if parent =? 0 then Some 0 else p ← ps_procs s !! parent; Some (p_children p));
  mjoin (while_ sibling_fuel (zombie_step pid (ps_procs s)) c).

(** [pp]: [None] is [&parent->children], [Some b] is [&b->next_sibling]. *)
Definition read_child_link (parent : Z) (pp : option Z) (P : gmap Z pcb) : option Z :=
  match pp with
  | None => p ← P !! parent; Some (p_children p)
  | Some b => p ← P !! b; Some (p_next_sibling p)
  end.

Definition reap_step (parent child : Z) (P : gmap Z pcb) (pp : option Z) : option Z + option (option Z) :=
  match read_child_link parent pp P with
  | None => inr None
  | Some c => if (c =? 0) || (c =? child) then inr (Some pp) else inl (Some c)
  end.

Definition process_reap_child (parent child : Z) (s : pstate) : option pstate :=
  if (parent =? 0) || (child =? 0) then Some s
  else
    pp ← mjoin (while_ sibling_fuel (reap_step parent child (ps_procs s)) None);
    c ← read_child_link parent pp (ps_procs s);
    s ← (if c =? 0 then Some s
         else
           b ← ps_procs s !! child;
           match pp with
           | None => upd_pcb parent (set_p_children (p_next_sibling b)) s
           | Some q => upd_pcb q (set_p_next_sibling (p_next_sibling b)) s
           end);
    process_destroy child s.
End Process.
Arguments pstate : clear implicits.

(** ** What the memory layer promises *)

(** [X] maps the live heap pointers to their sizes, [S] holds the roots of the live
    address spaces. *)
Class ProcessKernelOk (K : Type) `{!ProcessKernel K} : Type := {
  pk_ok : K → gmap Z Z → gset Z → Prop;
  (** the buffer at [b] begins with these bytes *)
  pk_holds : K → Z → list Z → Prop;
  pk_alloc_spec : ∀ k X S size align, pk_ok k X S → 0 < size < 2 ^ 61 → align = 1 ∨ align = 16 →
    ∃ p k', pk_alloc size align k = Some (p, k') ∧
      ((p = 0 ∧ pk_ok k' X S) ∨ (0 < p < 2 ^ 36 ∧ X !! p = None ∧ pk_ok k' (<[p := size]> X) S));
  pk_free_spec : ∀ k X S p, pk_ok k X S → is_Some (X !! p) → ∃ k', pk_free p k = Some k' ∧ pk_ok k' (delete p X) S;
  pk_free_null : ∀ k, pk_free 0 k = Some k;
  pk_new_space_spec : ∀ k X S, pk_ok k X S →
    let r := pk_new_space k in
    ((r.1 = 0 ∧ pk_ok r.2 X S) ∨ (r.1 ≠ 0 ∧ r.1 ∉ S ∧ pk_ok r.2 X ({[r.1]} ∪ S))) ∧
    ∀ b bytes, is_Some (X !! b) → pk_holds k b bytes → pk_holds r.2 b bytes;
  pk_free_space_spec : ∀ k X S c, pk_ok k X S → c ∈ S → pk_ok (pk_free_space c k) X (S ∖ {[c]});
  pk_clone_spec : ∀ k X S src dst, pk_ok k X S → src ∈ S → dst ∈ S → src ≠ dst → pk_ok (pk_clone src dst k).2 X S;
  pk_store_spec : ∀ k X S b n bytes, pk_ok k X S → X !! b = Some n → Z.of_nat (length bytes) ≤ n →
    pk_ok (pk_store b bytes k) X S ∧ pk_holds (pk_store b bytes k) b bytes;
  pk_parse_spec : ∀ k b size, ∃ r, pk_parse b size k = Some r;
  (** the addresses of the segment stay in the user half *)
  pk_seg_ok : elf_segment → Z → Prop;
  pk_map_segment_spec : ∀ k X S c image seg base, pk_ok k X S → c ∈ S → pk_seg_ok seg base →
    let k' := (pk_map_segment c image seg base k).2 in
    pk_ok k' X S ∧ ∀ b bytes, is_Some (X !! b) → pk_holds k b bytes → pk_holds k' b bytes;
  pk_relocate_spec : ∀ k X S c image size base b k', pk_ok k X S → c ∈ S →
    pk_relocate c image size base k = Some (b, k') → pk_ok k' X S;
  pk_map_stack_spec : ∀ k X S c, pk_ok k X S → c ∈ S → pk_ok (pk_map_stack c k).2 X S;
  pk_exec_stack_spec : ∀ k X S c argv envp sp k', pk_ok k X S → c ∈ S →
    pk_exec_stack c argv envp k = Some (sp, k') → pk_ok k' X S
}.

Section Correct.
Context {K H W : Type} `{!ProcessKernel K, !ProcessKernelOk K}.
Context (percpu_base : Z).
Implicit Types s : pstate K H W.

(** Only the memory layer moved. *)
Definition same_table s s' : Prop :=
  ps_procs s' = ps_procs s ∧ next_pid s' = next_pid s ∧ ps_cpus s' = ps_cpus s.

Lemma kalloc_spec size align s X S :
  pk_ok (ps_kernel s) X S → 0 < size < 2 ^ 61 → align = 1 ∨ align = 16 →
  ∃ p s', kalloc size align s = Some (p, s') ∧ same_table s s' ∧ ps_vfs s' = ps_vfs s ∧
    ((p = 0 ∧ pk_ok (ps_kernel s') X S) ∨
     (0 < p < 2 ^ 36 ∧ X !! p = None ∧ pk_ok (ps_kernel s') (<[p := size]> X) S)).
Proof.
  intros Hk Hs Ha. destruct (pk_alloc_spec _ _ _ size align Hk Hs Ha) as (p & k' & E & Hp).
  exists p, (with_kern k' s). unfold kalloc. rewrite E. by split.
Qed.

Lemma kfree_spec p s X S :
  pk_ok (ps_kernel s) X S → is_Some (X !! p) →
  ∃ s', kfree p s = Some s' ∧ same_table s s' ∧ pk_ok (ps_kernel s') (delete p X) S.
Proof.
  intros Hk Hp. destruct (pk_free_spec _ _ _ p Hk Hp) as (k' & E & Hk').
  exists (with_kern k' s). unfold kfree. rewrite E. by split.
Qed.

(** The buffer taken for a file is given back. *)
Lemma kfree_buf p n s X S :
  pk_ok (ps_kernel s) (<[p := n]> X) S → X !! p = None →
  ∃ s', kfree p s = Some s' ∧ same_table s s' ∧ pk_ok (ps_kernel s') X S.
Proof.
  intros Hk Hp. destruct (kfree_spec p s (<[p := n]> X) S Hk) as (s' & E & Ht & Hk').
  { rewrite lookup_insert_eq. by eexists. }
  rewrite delete_insert_id in Hk' by done. by exists s'.
Qed.

Lemma same_table_trans s1 s2 s3 : same_table s1 s2 → same_table s2 s3 → same_table s1 s3.
Proof. intros (? & ? & ?) (? & ? & ?). split_and!; congruence. Qed.

(** What is assumed of the file that is executed: the file system delivers no more
    than the buffer holds, and wherever its bytes lie the segments stay in the user
    half and the relocation tables in the file. *)
Record loadable (path : list Z) (pid : Z) (v : vfs H W) : Prop := {
  ld_reads : ∀ size bytes v', vfs_read_file (Some path) true ELF_BUF_SIZE v = (size, bytes, v') →
    Z.of_nat (length bytes) ≤ ELF_BUF_SIZE;
  ld_segs : ∀ size bytes v' k b segs entry pie, vfs_read_file (Some path) true ELF_BUF_SIZE v = (size, bytes, v') →
    pk_holds k b bytes → pk_parse b size k = Some (Some (segs, entry, pie)) →
    Forall (λ g, pk_seg_ok g (if (pie : bool) then pie_base pid else 0)) segs;
  ld_reloc : ∀ size bytes v' k b c base, vfs_read_file (Some path) true ELF_BUF_SIZE v = (size, bytes, v') →
    pk_holds k b bytes → is_Some (pk_relocate c b size base k)
}.

(** A file in a buffer: its segments can be placed and its relocations read. *)
Definition staged (k : K) (pid buf size : Z) (bytes : list Z) (segs : list elf_segment) (pie : bool) : Prop :=
  pk_holds k buf bytes ∧ Forall (λ g, pk_seg_ok g (if pie then pie_base pid else 0)) segs ∧
  ∀ k' c base, pk_holds k' buf bytes → is_Some (pk_relocate c buf size base k').

Lemma read_elf_spec path pid s X S :
  loadable path pid (ps_vfs s) → pk_ok (ps_kernel s) X S →
  ∃ f s', read_elf path s = Some (f, s') ∧ same_table s s' ∧
    match f with
    | None => pk_ok (ps_kernel s') X S
    | Some (buf, size, segs, entry, pie) =>
        X !! buf = None ∧ pk_ok (ps_kernel s') (<[buf := ELF_BUF_SIZE]> X) S ∧
        ∃ bytes, staged (ps_kernel s') pid buf size bytes segs pie
    end.
Proof.
  intros [Hrd Hsg Hrl] Hk. unfold read_elf.
  destruct (kalloc_spec ELF_BUF_SIZE 16 s X S Hk) as (buf & s1 & -> & Ht1 & Ev & Hb);
    [unfold ELF_BUF_SIZE; lia|by right|]. obind.
  destruct (Z.eqb_spec buf 0) as [-> |Hne]; [destruct Hb as [[_ Hb]|[? _]]; [|lia]; by exists None, s1|].
  destruct Hb as [[? _]|(_ & Hn & Hb)]; [lia|].
  rewrite Ev. destruct (vfs_read_file _ _ _ _) as [[size bytes] v].
  specialize (Hrd _ _ _ eq_refl). specialize (λ k b segs entry pie, Hsg _ _ _ k b segs entry pie eq_refl).
  specialize (λ k b c base, Hrl _ _ _ k b c base eq_refl).
  assert (let k := ps_kernel (with_kern (pk_store buf bytes (ps_kernel s1)) (with_vfs v s1)) in
    pk_ok k (<[buf := ELF_BUF_SIZE]> X) S ∧ pk_holds k buf bytes) as [Hk2 Hh].
  { eapply pk_store_spec; [exact Hb|apply lookup_insert_eq|done]. }
  change (ps_kernel (with_vfs v s1)) with (ps_kernel s1).
  set (s2 := with_kern _ _) in *. assert (same_table s s2) as Ht2 by (eapply same_table_trans; [exact Ht1|done]).
  clearbody s2. assert (∃ s3, kfree buf s2 = Some s3 ∧ same_table s s3 ∧ pk_ok (ps_kernel s3) X S) as (s3 & E3 & Ht3 & Hk3).
  { destruct (kfree_buf buf ELF_BUF_SIZE s2 X S Hk2 Hn) as (s3 & E & Ht & Hk3). exists s3. split; [done|].
    split; [by eapply same_table_trans|done]. }
  destruct (size <=? 0); [rewrite E3; obind; by exists None, s3|].
  destruct (pk_parse_spec (ps_kernel s2) buf size) as (r & Er). rewrite Er. obind.
  destruct r as [[[segs entry] pie]|]; [|rewrite E3; obind; by exists None, s3].
  eexists (Some _), s2. split; [done|]. split; [done|]. split; [done|]. split; [done|].
  exists bytes. split; [done|]. split; [by eapply Hsg|]. intros. by eapply Hrl.
Qed.

Lemma map_segments_spec c image segs base k X S b bytes :
  pk_ok k X S → c ∈ S → Forall (λ g, pk_seg_ok g base) segs → is_Some (X !! b) → pk_holds k b bytes →
  let k' := (map_segments c image segs base k).2 in pk_ok k' X S ∧ pk_holds k' b bytes.
Proof.
  intros Hk Hc Hs Hb. revert k Hk. induction Hs as [|seg segs Hseg Hs IH]; intros k Hk Hh; simpl; [done|].
  pose proof (pk_map_segment_spec k X S c image seg base Hk Hc Hseg) as [Hk1 Hh1].
  destruct (pk_map_segment c image seg base k) as [[|] k1]; [apply IH|split]; try done; by apply Hh1.
Qed.

Lemma load_image_spec c pid buf size bytes segs pie k X S :
  pk_ok k X S → c ∈ S → is_Some (X !! buf) → staged k pid buf size bytes segs pie →
  ∃ b k', load_image c buf size segs (if pie then pie_base pid else 0) k = Some (b, k') ∧ pk_ok k' X S.
Proof.
  intros Hk Hc Hb (Hh & Hs & Hrel). unfold load_image. set (base := if pie then _ else 0) in *.
  pose proof (map_segments_spec c buf segs base k X S buf bytes Hk Hc Hs Hb Hh) as [Hk1 Hh1].
  destruct (map_segments c buf segs base k) as [[|] k1]; cbn [negb]; [|by exists false, k1].
  destruct (Hrel k1 c base Hh1) as [[b k2] E]. rewrite E. obind.
  pose proof (pk_relocate_spec _ _ _ _ _ _ _ _ _ Hk1 Hc E) as Hk2.
  destruct b; cbn [negb]; [|by exists false, k2].
  pose proof (pk_map_stack_spec k2 X S c Hk2 Hc) as Hk3. destruct (pk_map_stack c k2) as [b k3]. by exists b, k3.
Qed.


(** ** Creation and [fork] *)

(** The kernel stack of a new process: a fresh allocation, or address 0 when the
    allocation failed and the check did not see it. *)
Definition stack_taken (X X' : gmap Z Z) (proc top : Z) : Prop :=
  (top = PROCESS_KSTACK_SIZE ∧ X' = <[proc := sizeof_process]> X) ∨
  ∃ stack, 0 < stack < 2 ^ 36 ∧ top = stack + PROCESS_KSTACK_SIZE ∧ stack ≠ proc ∧ X !! stack = None ∧
    X' = <[stack := PROCESS_KSTACK_SIZE]> (<[proc := sizeof_process]> X).

(** Every process block is a live allocation. *)
Definition blocks_live s (X : gmap Z Z) : Prop := ∀ a p, ps_procs s !! a = Some p → is_Some (X !! a).

Lemma drop_pcb_spec proc n p s X S P :
  pk_ok (ps_kernel s) (<[proc := n]> X) S → X !! proc = None → ps_procs s = <[proc := p]> P → P !! proc = None →
  ∃ s', drop_pcb proc s = Some s' ∧ ps_procs s' = P ∧ next_pid s' = next_pid s ∧ ps_cpus s' = ps_cpus s ∧
    pk_ok (ps_kernel s') X S.
Proof.
  intros Hk Hn Hp HP. unfold drop_pcb.
  destruct (kfree_buf proc n s X S Hk Hn) as (s1 & -> & (E1 & E2 & E3) & Hk1). obind.
  eexists. split; [done|]. cbn [ps_procs with_table next_pid ps_cpus ps_kernel].
  split_and!; try done. rewrite E1, Hp. by apply delete_insert_id.
Qed.

Lemma process_create_spec name s X S :
  pk_ok (ps_kernel s) X S → blocks_live s X →
  ∃ proc s', process_create name s = Some (proc, s') ∧ ps_cpus s' = ps_cpus s ∧
    if proc =? 0 then ps_procs s' = ps_procs s ∧ pk_ok (ps_kernel s') X S
    else
      ∃ c top X', 0 < proc < 2 ^ 36 ∧ X !! proc = None ∧ c ≠ 0 ∧ c ∉ S ∧ stack_taken X X' proc top ∧
        ps_procs s' = <[proc := set_p_kernel_stack_top top (set_p_cr3 c (fresh_pcb (next_pid s) name))]> (ps_procs s) ∧
        next_pid s' = u64 (next_pid s + 1) ∧ pk_ok (ps_kernel s') X' ({[c]} ∪ S).
Proof.
  intros Hk Hlive. unfold process_create.
  destruct (kalloc_spec sizeof_process 16 s X S Hk) as (proc & s1 & -> & (Ep1 & En1 & Ec1) & _ & Hb);
    [unfold sizeof_process; lia|by right|]. obind.
  destruct (Z.eqb_spec proc 0) as [-> |Hne].
  { destruct Hb as [[_ Hb]|[? _]]; [|lia]. by exists 0, s1. }
  destruct Hb as [[? _]|(Hr & Hxn & Hk1)]; [done|].
  assert (ps_procs s !! proc = None) as Hpn.
  { destruct (ps_procs s !! proc) as [q|] eqn:Eq; [|done]. destruct (Hlive proc q Eq) as [? E]. congruence. }
  cbn [ps_kernel with_pid]. pose proof (pk_new_space_spec _ _ _ Hk1) as [Hn _].
  destruct (pk_new_space (ps_kernel s1)) as [c k2]. cbn [fst snd] in Hn. rewrite En1.
  set (p0 := fresh_pcb (next_pid s) name). set (s2 := with_table _ _).
  assert (ps_procs s2 = <[proc := set_p_cr3 c p0]> (ps_procs s)) as Ep2 by (unfold s2; cbn; by rewrite Ep1).
  assert (ps_cpus s2 = ps_cpus s ∧ next_pid s2 = u64 (next_pid s + 1) ∧ ps_kernel s2 = k2) as (Ec2 & En2 & Ek2) by done.
  clearbody s2. destruct (Z.eqb_spec c 0) as [-> |Hc0].
  { destruct Hn as [[_ Hn]|[? _]]; [|done]. rewrite <- Ek2 in Hn.
    destruct (drop_pcb_spec _ _ _ _ _ _ _ Hn Hxn Ep2 Hpn) as (s3 & -> & ? & ? & ? & ?). obind.
    exists 0, s3. split; [done|]. split; [congruence|done]. }
  destruct Hn as [[? _]|(_ & Hcn & Hk2)]; [done|]. rewrite <- Ek2 in Hk2.
  destruct (kalloc_spec PROCESS_KSTACK_SIZE 16 s2 _ _ Hk2) as (stack & s3 & -> & (Ep3 & En3 & Ec3) & _ & Hst);
    [unfold PROCESS_KSTACK_SIZE; lia|by right|]. obind.
  assert (0 ≤ stack < 2 ^ 36) as Hsr by (destruct Hst as [[-> _]|[? _]]; lia).
  rewrite u64_small by (unfold PROCESS_KSTACK_SIZE; lia). unfold upd_pcb. rewrite Ep3, Ep2, lookup_insert_eq. obind. obind.
  replace (stack + PROCESS_KSTACK_SIZE =? 0) with false by (unfold PROCESS_KSTACK_SIZE; lia).
  eexists proc, _. split; [done|]. cbn [ps_cpus with_table ps_procs next_pid ps_kernel].
  split; [congruence|]. replace (proc =? 0) with false by lia.
  destruct Hst as [[-> Hk3]|(Hs0 & Hsn & Hk3)].
  - exists c, PROCESS_KSTACK_SIZE, (<[proc := sizeof_process]> X). split_and!; try done; try lia; [by left|].
    by rewrite insert_insert_eq.
  - exists c, (stack + PROCESS_KSTACK_SIZE), (<[stack := PROCESS_KSTACK_SIZE]> (<[proc := sizeof_process]> X)).
    apply lookup_insert_None in Hsn as [Hsn Hsne].
    split_and!; try done; try lia; [right; exists stack; split_and!; done || lia || congruence|].
    by rewrite insert_insert_eq.
Qed.
(** The block of a forked child of [pp]. *)
Definition forked (parent : Z) (pp : pcb) (pid c top : Z) (regs : syscall_regs) (user_rsp : Z) : pcb :=
  let p := set_p_kernel_stack_top top (set_p_cr3 c (fresh_pcb pid (Some (p_name pp)))) in
  let p := set_p_vt (p_vt pp) (set_p_fs_base (p_fs_base pp) (set_p_mmap_cursor (p_mmap_cursor pp) (set_p_files (p_files pp) p))) in
  set_p_next_sibling (p_children pp) (set_p_parent parent (set_p_ctx (fork_ctx regs user_rsp) p)).

(** A process just created and not yet linked anywhere is destroyed again. *)
Lemma destroy_created proc c top p s P X X' S :
  pk_ok (ps_kernel s) X' ({[c]} ∪ S) → stack_taken X X' proc top → X !! proc = None → 0 < proc → c ∉ S →
  ps_procs s = <[proc := p]> P → P !! proc = None → p_cr3 p = c → p_kernel_stack_top p = top →
  ∃ s', process_destroy proc s = Some s' ∧ ps_procs s' = P ∧ next_pid s' = next_pid s ∧ ps_cpus s' = ps_cpus s ∧
    pk_ok (ps_kernel s') X S.
Proof.
  intros Hk Hst Hn H0 Hc Hp HP Ec Et. unfold process_destroy. replace (proc =? 0) with false by lia.
  rewrite Hp, lookup_insert_eq. obind. rewrite Et, Ec.
  assert (∃ s1, (if truthy top then kfree (u64 (top - PROCESS_KSTACK_SIZE)) s else Some s) = Some s1 ∧
    same_table s s1 ∧ pk_ok (ps_kernel s1) (<[proc := sizeof_process]> X) ({[c]} ∪ S)) as (s1 & -> & (E1 & E2 & E3) & Hk1).
  { destruct Hst as [[-> ->]|(stack & Hs & -> & Hne & Hsn & ->)]; unfold PROCESS_KSTACK_SIZE in *.
    - exists s. change (u64 (16 * 1024 - 16 * 1024)) with 0. unfold truthy. cbn [Z.mul Z.eqb negb Pos.mul].
      unfold kfree. rewrite pk_free_null. obind. by destruct s.
    - replace (truthy (stack + 16 * 1024)) with true by (unfold truthy; lia).
      rewrite (u64_small (stack + 16 * 1024 - 16 * 1024)) by lia. replace (stack + 16 * 1024 - 16 * 1024) with stack by lia.
      apply (kfree_buf stack (16 * 1024)); [done|]. by rewrite lookup_insert_ne. }
  obind. pose proof (pk_free_space_spec _ _ _ c Hk1 ltac:(set_solver)) as Hk2.
  replace (({[c]} ∪ S) ∖ {[c]}) with S in Hk2 by set_solver.
  destruct (drop_pcb_spec proc sizeof_process p (with_kern (pk_free_space c (ps_kernel s1)) s1) X S P)
    as (s2 & -> & Ep2 & En2 & Ec2 & Hk3); try done; [by cbn; rewrite E1|]. cbn [next_pid ps_cpus with_kern] in En2, Ec2.
  exists s2. split; [done|]. split; [done|]. split; [congruence|]. split; [congruence|done].
Qed.

Lemma upd_pcb_insert a p f P s :
  ps_procs s = <[a := p]> P →
  ∃ s', upd_pcb a f s = Some s' ∧ ps_procs s' = <[a := f p]> P ∧ ps_kernel s' = ps_kernel s ∧ ps_cpus s' = ps_cpus s.
Proof.
  intros E. unfold upd_pcb. rewrite E, lookup_insert_eq. obind. eexists. split; [done|].
  cbn [ps_procs with_table]. by rewrite insert_insert_eq.
Qed.

Lemma process_fork_spec me regs parent pp s X S :
  pk_ok (ps_kernel s) X S → blocks_live s X → cpu_ok percpu_base me (ps_cpus s) →
  pc_current (g_percpu (ps_cpus s) me) = parent → parent ≠ 0 → ps_procs s !! parent = Some pp → p_cr3 pp ∈ S →
  ∃ child s', process_fork percpu_base me regs s = Some (child, s') ∧ ps_cpus s' = ps_cpus s ∧
    if child =? 0 then ps_procs s' = ps_procs s ∧ pk_ok (ps_kernel s') X S
    else
      ∃ c top X', 0 < child < 2 ^ 36 ∧ X !! child = None ∧ c ∉ S ∧ stack_taken X X' child top ∧
        ps_procs s' = <[parent := set_p_children child pp]>
          (<[child := forked parent pp (next_pid s) c top regs (pc_user_rsp (g_percpu (ps_cpus s) me))]> (ps_procs s)) ∧
        pk_ok (ps_kernel s') X' ({[c]} ∪ S).
Proof.
  intros Hk Hlive Hcpu Hcur Hp0 Hpp Hcr3. unfold process_fork, process_current.
  rewrite (cpu_ok_current percpu_base me _ Hcpu), Hcur. obind. replace (parent =? 0) with false by lia.
  rewrite Hpp. obind. destruct (process_create_spec (Some (p_name pp)) s X S Hk Hlive) as (child & s1 & -> & Ec1 & Hcr). obind.
  destruct (Z.eqb_spec child 0) as [-> |Hch0]; [exists 0, s1; by split_and!|].
  destruct Hcr as (c & top & X' & Hchr & Hxn & Hc0 & Hcn & Hst & Ep1 & En1 & Hk1).
  assert (ps_procs s !! child = None) as Hpn.
  { destruct (ps_procs s !! child) as [q|] eqn:Eq; [|done]. destruct (Hlive child q Eq) as [? E]. congruence. }
  rewrite Ep1, lookup_insert_eq. obind.
  assert (p_cr3 pp ≠ c) as Hcne by (intros E; rewrite E in Hcr3; done).
  pose proof (pk_clone_spec _ _ _ (p_cr3 pp) c Hk1 ltac:(set_solver) ltac:(set_solver) Hcne) as Hk2.
  cbn [p_cr3 set_p_kernel_stack_top set_p_cr3]. destruct (pk_clone (p_cr3 pp) c (ps_kernel s1)) as [[|] k2]; cbn [fst snd negb] in *.
  2:{ destruct (destroy_created child c top _ (with_kern k2 s1) (ps_procs s) X X' S Hk2 Hst Hxn ltac:(lia) Hcn Ep1 Hpn eq_refl eq_refl)
        as (s2 & -> & ? & ? & ? & ?). obind. exists 0, s2. split_and!; try done. cbn in *. congruence. }
  assert (parent ≠ child) as Hne by congruence.
  destruct (upd_pcb_insert child _ (λ c, set_p_vt (p_vt pp) (set_p_fs_base (p_fs_base pp)
    (set_p_mmap_cursor (p_mmap_cursor pp) (set_p_files (p_files pp) c)))) _ (with_kern k2 s1) Ep1)
    as (s2 & -> & Ep2 & Ek2 & Ec2). obind. cbn [ps_kernel ps_cpus with_kern] in Ek2, Ec2. rewrite Ec1 in Ec2.
  rewrite Ec2, (cpu_ok_slot percpu_base me _ Hcpu). obind.
  destruct (upd_pcb_insert child _ (set_p_ctx (fork_ctx regs (pc_user_rsp (g_percpu (ps_cpus s) me)))) _ s2 Ep2)
    as (s3 & -> & Ep3 & Ek3 & Ec3). obind. unfold process_link_child.
  destruct (upd_pcb_insert child _ (set_p_parent parent) _ s3 Ep3) as (s4 & -> & Ep4 & Ek4 & Ec4). obind.
  rewrite Ep4, lookup_insert_ne, Hpp by done. obind.
  destruct (upd_pcb_insert child _ (set_p_next_sibling (p_children pp)) _ s4 Ep4) as (s5 & -> & Ep5 & Ek5 & Ec5). obind.
  unfold upd_pcb. rewrite Ep5, lookup_insert_ne, Hpp by done. obind. obind.
  eexists child, _. split; [done|]. cbn [ps_cpus ps_procs ps_kernel with_table]. split; [congruence|].
  replace (child =? 0) with false by lia. exists c, top, X'. split; [done|]. split; [done|]. split; [done|]. split; [done|].
  split; [done|]. rewrite Ek5, Ek4, Ek3, Ek2. exact Hk2.
Qed.

(** [fork].  The call ends.  Either it returns 0 and the process table, the heap
    and the address spaces are as before (only a pid may have been used up), or it
    returns a new process: the child has the parent's name, open files, mapping
    cursor, thread base and terminal, a new address space and pid, the saved
    registers of the system call with 0 in [rax], returning to the same address and
    stack; it is put in front of the parent's children, and no other process
    changes. *)
Theorem process_fork_correct me regs parent pp s X S :
  pk_ok (ps_kernel s) X S → blocks_live s X → cpu_ok percpu_base me (ps_cpus s) →
  pc_current (g_percpu (ps_cpus s) me) = parent → parent ≠ 0 → ps_procs s !! parent = Some pp → p_cr3 pp ∈ S →
  ∃ child s', process_fork percpu_base me regs s = Some (child, s') ∧ ps_cpus s' = ps_cpus s ∧
    if child =? 0 then ps_procs s' = ps_procs s ∧ pk_ok (ps_kernel s') X S
    else
      ∃ c top X', 0 < child < 2 ^ 36 ∧ X !! child = None ∧ c ∉ S ∧ stack_taken X X' child top ∧
        ps_procs s' = <[parent := set_p_children child pp]>
          (<[child := forked parent pp (next_pid s) c top regs (pc_user_rsp (g_percpu (ps_cpus s) me))]> (ps_procs s)) ∧
        pk_ok (ps_kernel s') X' ({[c]} ∪ S).
Proof. apply process_fork_spec. Qed.

(** ** Children *)

(** The chain of [next_sibling] pointers from [c] through [l], ending at [d]. *)
Fixpoint sib_seg (P : gmap Z pcb) (c : Z) (l : list Z) (d : Z) : Prop :=
  match l with
  | [] => c = d
  | a :: l => c = a ∧ a ≠ 0 ∧ ∃ b, P !! a = Some b ∧ sib_seg P (p_next_sibling b) l d
  end.

Lemma sib_seg_app P c l1 l2 d : sib_seg P c (l1 ++ l2) d ↔ ∃ e, sib_seg P c l1 e ∧ sib_seg P e l2 d.
Proof.
  revert c. induction l1 as [|a l1 IH]; intros c; simpl.
  - split; [by exists c|by intros (e & -> & ?)].
  - split.
    + intros (-> & Ha & b & Hb & (e & H1 & H2)%IH). exists e. split; [|done]. split; [done|]. split; [done|]. by exists b.
    + intros (e & (-> & Ha & b & Hb & H1) & H2). split; [done|]. split; [done|]. exists b. split; [done|].
      apply IH. by exists e.
Qed.

Lemma sib_seg_frame P P' c l d : (∀ a, a ∈ l → P' !! a = P !! a) → sib_seg P c l d → sib_seg P' c l d.
Proof.
  revert c. induction l as [|a l IH]; intros c HP; simpl; [done|]. intros (-> & Ha & b & Hb & Hl).
  split; [done|]. split; [done|]. exists b. split; [rewrite HP by left; done|]. apply IH; [|done]. intros x Hx. apply HP. by right.
Qed.

Lemma sib_seg_live P c l d a : sib_seg P c l d → a ∈ l → a ≠ 0 ∧ ∃ b, P !! a = Some b.
Proof.
  revert c. induction l as [|x l IH]; intros c; simpl; [by intros _ ?%elem_of_nil|].
  intros (-> & Hx & b & Hb & Hl) [-> |Ha]%elem_of_cons; [by eauto|by eapply IH].
Qed.

(** What [waitpid] looks for. *)
Definition is_zombie (pid : Z) (b : pcb) : bool :=
  bool_decide (p_state b = PROC_ZOMBIE) && ((pid =? 0) || (p_pid b =? pid)).

Lemma zombie_walk pid P c l :
  sib_seg P c l 0 →
  ∃ r, iter_nat (Datatypes.S (length l)) (zombie_step pid P) c = inr (Some r) ∧
    ((r = 0 ∧ ∀ a b, a ∈ l → P !! a = Some b → is_zombie pid b = false) ∨
     ∃ l1 l2 b, l = l1 ++ r :: l2 ∧ P !! r = Some b ∧ is_zombie pid b = true ∧
       ∀ a b, a ∈ l1 → P !! a = Some b → is_zombie pid b = false).
Proof.
  revert c. induction l as [|a l IH]; intros c; simpl.
  { intros ->. exists 0. split; [done|]. left. split; [done|]. by intros a b ?%elem_of_nil. }
  intros (-> & Ha & b & Hb & Hl). unfold zombie_step at 1. replace (a =? 0) with false by lia. rewrite Hb.
  fold (is_zombie pid b). destruct (is_zombie pid b) eqn:Ez.
  { exists a. split; [done|]. right. exists [], l, b. split; [done|]. split; [done|]. split; [done|]. by intros x y ?%elem_of_nil. }
  destruct (IH _ Hl) as (r & E & Hr). cbn [iter_nat] in E. rewrite E. exists r. split; [done|]. destruct Hr as [[-> Hn]|(l1 & l2 & z & -> & Hz & Hzz & Hn)].
  - left. split; [done|]. intros x y [-> |Hx]%elem_of_cons Hy; [congruence|by eapply Hn].
  - right. exists (a :: l1), l2, z. split; [done|]. split; [done|]. split; [done|].
    intros x y [-> |Hx]%elem_of_cons Hy; [congruence|by eapply Hn].
Qed.

Lemma reap_walk parent z P pp c l1 l2 :
  read_child_link parent pp P = Some c → sib_seg P c (l1 ++ z :: l2) 0 → z ∉ l1 →
  iter_nat (Datatypes.S (length l1)) (reap_step parent z P) pp =
    inr (Some (match last l1 with Some q => Some q | None => pp end)).
Proof.
  revert pp c. induction l1 as [|a l1 IH]; intros pp c Hr Hs Hz; cbn [iter_nat length app sib_seg] in *; unfold reap_step at 1; rewrite Hr.
  - destruct Hs as (-> & _). by rewrite Z.eqb_refl, orb_true_r.
  - destruct Hs as (-> & Ha & b & Hb & Hl). apply not_elem_of_cons in Hz as [Hza Hz].
    replace (a =? 0) with false by lia. replace (a =? z) with false by lia. cbn [orb].
    specialize (IH (Some a) (p_next_sibling b)). cbn [iter_nat] in IH. rewrite IH; [|cbn; by rewrite Hb|done|done].
    rewrite last_cons. by destruct (last l1).
Qed.

(** Unlinking [z] from the chain. *)
Definition unlink_child (parent : Z) (pp : pcb) (l1 : list Z) (n : Z) (P : gmap Z pcb) : gmap Z pcb :=
  match last l1 with
  | None => <[parent := set_p_children n pp]> P
  | Some q => match P !! q with Some bq => <[q := set_p_next_sibling n bq]> P | None => P end
  end.

Lemma unlink_child_seg parent pp P z b l1 l2 :
  sib_seg P (p_children pp) (l1 ++ z :: l2) 0 → NoDup (l1 ++ z :: l2) → parent ∉ l1 ++ z :: l2 →
  P !! parent = Some pp → P !! z = Some b →
  ∃ pp', unlink_child parent pp l1 (p_next_sibling b) P !! parent = Some pp' ∧
    sib_seg (unlink_child parent pp l1 (p_next_sibling b) P) (p_children pp') (l1 ++ l2) 0 ∧
    p_state pp' = p_state pp ∧ unlink_child parent pp l1 (p_next_sibling b) P !! z = Some b.
Proof.
  intros Hs Hnd Hpar Hpp Hz. apply sib_seg_app in Hs as (e & Hs1 & (-> & Hz0 & b' & Hb' & Hs2)).
  assert (b' = b) as -> by congruence. apply NoDup_app in Hnd as (Hnd1 & Hdis & (Hz2 & Hnd2)%NoDup_cons).
  unfold unlink_child. destruct (last l1) as [q|] eqn:El.
  - apply last_Some in El as [l0 ->]. apply sib_seg_app in Hs1 as (e & Hs0 & (-> & Hq0 & bq & Hbq & Hend)). simpl in Hend.
    rewrite Hbq. apply NoDup_app in Hnd1 as (Hnd0 & Hdis0 & _).
    assert (q ≠ parent) as Hqp by (intros ->; apply Hpar; set_solver).
    assert (q ≠ z) as Hqz by (intros ->; apply (Hdis z); set_solver).
    exists pp. rewrite lookup_insert_ne by done. split; [done|]. split; [|split; [done|by rewrite lookup_insert_ne]].
    rewrite <- app_assoc. apply sib_seg_app. exists q. split.
    + eapply sib_seg_frame; [|exact Hs0]. intros a Ha. apply lookup_insert_ne. intros ->. apply (Hdis0 a Ha). set_solver.
    + simpl. split; [done|]. split; [done|]. eexists. rewrite lookup_insert_eq. split; [done|]. simpl.
      eapply sib_seg_frame; [|exact Hs2]. intros a Ha. apply lookup_insert_ne. intros ->. apply (Hdis a); set_solver.
  - apply last_None in El as ->. simpl in *. exists (set_p_children (p_next_sibling b) pp). rewrite lookup_insert_eq.
    split; [done|]. split; [|split; [done|rewrite lookup_insert_ne; [done|set_solver]]].
    eapply sib_seg_frame; [|exact Hs2]. intros a Ha. apply lookup_insert_ne. set_solver.
Qed.

(** Only the parent or an elder sibling is touched. *)
Lemma unlink_child_other parent pp P l1 n a : a ≠ parent → a ∉ l1 → unlink_child parent pp l1 n P !! a = P !! a.
Proof.
  intros Hp Ha. unfold unlink_child. destruct (last l1) as [q|] eqn:El; [|by apply lookup_insert_ne].
  destruct (P !! q) eqn:Eq; [|done]. apply lookup_insert_ne. intros ->. apply Ha.
  apply last_Some in El as [l0 ->]. set_solver.
Qed.

(** The block, the kernel stack and the address space of [z] are live; without them
    the heap has the allocations [X0]. *)
Definition owned (X X0 : gmap Z Z) (S : gset Z) (z : Z) (b : pcb) : Prop :=
  stack_taken X0 X z (p_kernel_stack_top b) ∧ X0 !! z = None ∧ p_cr3 b ∈ S.

Lemma destroy_owned z b s X X0 S :
  pk_ok (ps_kernel s) X S → owned X X0 S z b → 0 < z → ps_procs s !! z = Some b →
  ∃ s', process_destroy z s = Some s' ∧ ps_procs s' = delete z (ps_procs s) ∧
    pk_ok (ps_kernel s') X0 (S ∖ {[p_cr3 b]}).
Proof.
  intros Hk (Hst & Hn & Hc) Hz Hb. replace S with ({[p_cr3 b]} ∪ (S ∖ {[p_cr3 b]})) in Hk.
  2:{ apply set_eq. intros x. destruct (decide (x = p_cr3 b)) as [-> |]; set_solver. }
  destruct (destroy_created z (p_cr3 b) (p_kernel_stack_top b) b s (delete z (ps_procs s)) X0 X (S ∖ {[p_cr3 b]}))
    as (s' & E & Ep & _ & _ & Hk'); try done; [set_solver|by rewrite insert_delete_id|by rewrite lookup_delete_eq|].
  by exists s'.
Qed.

(** The unlinking part of [process_reap_child]. *)
Lemma reap_unlink parent z b s pp l1 l2 :
  sib_seg (ps_procs s) (p_children pp) (l1 ++ z :: l2) 0 → NoDup (l1 ++ z :: l2) →
  ps_procs s !! parent = Some pp → ps_procs s !! z = Some b → parent ≠ 0 → z ≠ 0 →
  Z.of_nat (length l1) < 2 ^ 64 →
  process_reap_child parent z s =
    process_destroy z (with_table (unlink_child parent pp l1 (p_next_sibling b) (ps_procs s)) s).
Proof.
  intros Hs Hnd Hpp Hz Hp0 Hz0 Hlen. unfold process_reap_child.
  replace (parent =? 0) with false by lia. replace (z =? 0) with false by lia. cbn [orb].
  assert (z ∉ l1) as Hzl by (apply NoDup_app in Hnd as (_ & Hd & _); intros ?; apply (Hd z); set_solver).
  assert (read_child_link parent None (ps_procs s) = Some (p_children pp)) as Hr by (cbn; by rewrite Hpp).
  rewrite (while_steps _ sibling_fuel _ _ _ (reap_walk parent z _ None _ l1 l2 Hr Hs Hzl)); [|unfold sibling_fuel; lia].
  cbn [mjoin option_join]. apply sib_seg_app in Hs as (e & Hs1 & (-> & _)). obind.
  unfold unlink_child. destruct (last l1) as [q|] eqn:El.
  - apply last_Some in El as [l0 ->]. apply sib_seg_app in Hs1 as (e & _ & (-> & _ & bq & Hbq & Hend)). simpl in Hend.
    cbn [read_child_link]. rewrite Hbq. obind. obind. rewrite Hend. replace (z =? 0) with false by lia.
    rewrite Hz. obind. unfold upd_pcb. rewrite Hbq. obind. by obind.
  - apply last_None in El as ->. simpl in Hs1. rewrite Hr. obind. rewrite Hs1. replace (z =? 0) with false by lia.
    rewrite Hz. obind. unfold upd_pcb. rewrite Hpp. obind. by obind.
Qed.

Lemma process_wait_spec parent pid pp l s X S :
  pk_ok (ps_kernel s) X S → parent ≠ 0 → ps_procs s !! parent = Some pp →
  sib_seg (ps_procs s) (p_children pp) l 0 → NoDup l → parent ∉ l →
  Forall (λ a, 0 < a) l → Z.of_nat (length l) < 2 ^ 64 →
  ∃ z, process_find_zombie_child parent pid s = Some z ∧
    if z =? 0 then ∀ a b, a ∈ l → ps_procs s !! a = Some b → is_zombie pid b = false
    else
      ∃ l1 l2 b, l = l1 ++ z :: l2 ∧ ps_procs s !! z = Some b ∧ is_zombie pid b = true ∧
        (∀ a c, a ∈ l1 → ps_procs s !! a = Some c → is_zombie pid c = false) ∧
        ∀ X0, owned X X0 S z b →
          ∃ s' pp', process_reap_child parent z s = Some s' ∧ ps_procs s' !! z = None ∧
            ps_procs s' !! parent = Some pp' ∧ sib_seg (ps_procs s') (p_children pp') (l1 ++ l2) 0 ∧
            (∀ a, a ≠ parent → a ∉ l1 → a ≠ z → ps_procs s' !! a = ps_procs s !! a) ∧
            pk_ok (ps_kernel s') X0 (S ∖ {[p_cr3 b]}).
Proof.
  intros Hk Hp0 Hpp Hs Hnd Hpar Hpos Hlen. unfold process_find_zombie_child.
  replace (parent =? 0) with false by lia. rewrite Hpp. obind. obind.
  destruct (zombie_walk pid (ps_procs s) (p_children pp) l Hs) as (z & E & Hz).
  rewrite (while_steps _ sibling_fuel _ _ _ E) by (unfold sibling_fuel; lia). exists z. split; [done|].
  destruct Hz as [[-> Hno]|(l1 & l2 & b & -> & Hb & Hzb & Hno)]; [done|].
  assert (0 < z) as Hz0 by (rewrite Forall_forall in Hpos; apply Hpos; set_solver).
  replace (z =? 0) with false by lia. exists l1, l2, b. split; [done|]. split; [done|]. split; [done|]. split; [done|].
  intros X0 Hown. rewrite length_app in Hlen. rewrite (reap_unlink parent z b s pp l1 l2) by (done || lia).
  destruct (unlink_child_seg parent pp _ z b l1 l2 Hs Hnd Hpar Hpp Hb) as (pp' & Epp & Hs' & _ & Ez).
  set (P' := unlink_child _ _ _ _ _) in *.
  destruct (destroy_owned z b (with_table P' s) X X0 S Hk Hown Hz0 Ez) as (s' & -> & Ep & Hk').
  exists s', pp'. rewrite Ep. cbn [ps_procs with_table].
  split; [done|]. split; [by rewrite lookup_delete_eq|]. split; [rewrite lookup_delete_ne; [done|set_solver]|].
  split; [|split; [|done]].
  - eapply sib_seg_frame; [|exact Hs']. intros a Ha. apply lookup_delete_ne. intros ->.
    apply NoDup_app in Hnd as (_ & Hd & (Hz2 & _)%NoDup_cons). set_solver.
  - intros a Hap Ha Haz. rewrite lookup_delete_ne by done. by apply unlink_child_other.
Qed.

(** Waiting for a child.  The search over the sibling chain ends; it returns 0
    exactly when no child is a zombie with the wanted pid (any pid for 0), and
    otherwise the first such child.  Reaping that child ends, takes it out of the
    chain and leaves the order of the other children and every process that is
    neither the parent nor an elder sibling alone; its block is gone and its kernel
    stack, address space and block are given back. *)
Theorem process_wait_correct parent pid pp l s X S :
  pk_ok (ps_kernel s) X S → parent ≠ 0 → ps_procs s !! parent = Some pp →
  sib_seg (ps_procs s) (p_children pp) l 0 → NoDup l → parent ∉ l →
  Forall (λ a, 0 < a) l → Z.of_nat (length l) < 2 ^ 64 →
  ∃ z, process_find_zombie_child parent pid s = Some z ∧
    if z =? 0 then ∀ a b, a ∈ l → ps_procs s !! a = Some b → is_zombie pid b = false
    else
      ∃ l1 l2 b, l = l1 ++ z :: l2 ∧ ps_procs s !! z = Some b ∧ is_zombie pid b = true ∧
        (∀ a c, a ∈ l1 → ps_procs s !! a = Some c → is_zombie pid c = false) ∧
        ∀ X0, owned X X0 S z b →
          ∃ s' pp', process_reap_child parent z s = Some s' ∧ ps_procs s' !! z = None ∧
            ps_procs s' !! parent = Some pp' ∧ sib_seg (ps_procs s') (p_children pp') (l1 ++ l2) 0 ∧
            (∀ a, a ≠ parent → a ∉ l1 → a ≠ z → ps_procs s' !! a = ps_procs s !! a) ∧
            pk_ok (ps_kernel s') X0 (S ∖ {[p_cr3 b]}).
Proof. apply process_wait_spec. Qed.
End Correct.
