(* ===== verification/Machine.v ===== *)
(** The process layer on the machine, and its theorems at concrete states.

    [machine] is the kernel's memory: one byte memory and one frame allocator under
    both the heap list and the page tables.  [machine_kernel] instantiates
    [ProcessKernel] with kheap.c, paging.c, elf.c and the loader of process.c on it,
    so that the operations of Process.v run on the definitions of the other files.
    The second part is a small memory layer that satisfies [ProcessKernelOk]: it
    hands out increasing addresses, keeps the contents of buffers and parses them
    with the code's ELF parser. *)

From stdpp Require Import prelude numbers list gmap.
From Stdlib Require Import ZArith Lia.
From S2P Require Import Prelude Memory Frames Pmm Kheap Alloc Paging Bytes Pcb Percpu Elf Image Vfs Process.

Open Scope Z_scope.

Section Machine.
Context {A : Type} `{!FrameAllocator A}.

Record machine : Type := Machine { mc_vm : vm A; mc_heap_head : Z; mc_allocated : Z }.

Definition heap_of (mc : machine) : heap A :=
  {| hmem := vmem (mc_vm mc); heap_head := mc_heap_head mc; allocated_bytes := mc_allocated mc;
     hframes := vframes (mc_vm mc) |}.
Definition set_heap (h : heap A) (mc : machine) : machine :=
  Machine (with_vframes (with_vmem (mc_vm mc) (hmem h)) (hframes h)) (heap_head h) (allocated_bytes h).
Definition set_vm (v : vm A) (mc : machine) : machine := Machine v (mc_heap_head mc) (mc_allocated mc).
Definition set_mem (m : mem) (mc : machine) : machine := set_vm (with_vmem (mc_vm mc) m) mc.
Definition on_vm {R} (f : vm A → R * vm A) (mc : machine) : R * machine :=
  let '(r, v) := f (mc_vm mc) in (r, set_vm v mc).

#[export] Instance machine_kernel : ProcessKernel machine := {|
  pk_alloc size align mc := r ← kheap_alloc size align (heap_of mc); Some (r.1, set_heap r.2 mc);
  pk_free p mc := h ← kheap_free p (heap_of mc); Some (set_heap h mc);
  pk_new_space := on_vm paging_new_address_space;
  pk_free_space c mc := set_vm (paging_free_address_space c (mc_vm mc)) mc;
  pk_clone src dst := on_vm (paging_clone_user_space src dst);
  pk_store b bytes mc := set_mem (store_list (vmem (mc_vm mc)) b bytes) mc;
  pk_parse b size mc :=
    elf64_parse_segments (image_get (vmem (mc_vm mc)) b size) size (b =? 0) ELF_SEGMENT_MAX;
  pk_map_segment c image seg base := on_vm (map_segment c image seg base);
  pk_relocate c image size base mc :=
    r ← apply_relocations c image size base (mc_vm mc); Some (r.1, set_vm r.2 mc);
  pk_map_stack c := on_vm (map_user_stack c);
  pk_setup c name top mc := let r := setup_stack c name top (vmem (mc_vm mc)) in (r.1, set_mem r.2 mc);
  pk_exec_stack c argv envp mc :=
    r ← build_exec_stack c argv envp (vmem (mc_vm mc)); Some (r.1, set_mem r.2 mc);
  pk_cstr c ua mc := user_cstr (vmem (mc_vm mc)) c ua
|}.
End Machine.

(** ** A memory layer that keeps the promise *)

Record toy : Type := Toy { toy_next : Z; toy_space : Z; toy_bufs : Z → list Z }.

Definition toy_get (k : toy) (b size o : Z) : option Z :=
  if (0 <=? o) && (o <? size) then Some (u8 (default 0 (toy_bufs k b !! Z.to_nat o))) else None.

#[export] Instance toy_kernel : ProcessKernel toy := {|
  pk_alloc size align k :=
    if toy_next k <? 2 ^ 35 then Some (toy_next k, Toy (toy_next k + 16 * size) (toy_space k) (toy_bufs k))
    else Some (0, k);
  pk_free p k := Some k;
  pk_new_space k := (toy_space k, Toy (toy_next k) (toy_space k + 1) (toy_bufs k));
  pk_free_space c k := k;
  pk_clone src dst k := (true, k);
  pk_store b bytes k := Toy (toy_next k) (toy_space k) (λ x, if x =? b then bytes else toy_bufs k x);
  pk_parse b size k := elf64_parse_segments (toy_get k b size) size false ELF_SEGMENT_MAX;
  pk_map_segment c image seg base k := (true, k);
  pk_relocate c image size base k := Some (true, k);
  pk_map_stack c k := (true, k);
  pk_setup c name top k := (top - 48, k);
  pk_exec_stack c argv envp k := Some (PROCESS_USER_STACK_TOP - 64, k);
  pk_cstr c ua k := None
|}.

Definition toy_ok (k : toy) (X : gmap Z Z) (S : gset Z) : Prop :=
  0 < toy_next k ∧ 0 < toy_space k ∧ (∀ p, is_Some (X !! p) → p < toy_next k) ∧ ∀ c, c ∈ S → c < toy_space k.

#[export] Program Instance toy_kernel_ok : ProcessKernelOk toy := {|
  pk_ok := toy_ok;
  pk_holds k b bytes := toy_bufs k b = bytes;
  pk_seg_ok seg base := True
|}.
Next Obligation.
  intros k X S size align (Hn & Hs & HX & HS) Hsz _. simpl. destruct (Z.ltb_spec (toy_next k) (2 ^ 35)) as [Hl|Hl].
  - eexists _, _. split; [done|]. right. split; [lia|]. split.
    + destruct (X !! toy_next k) eqn:E; [|done]. specialize (HX (toy_next k)). rewrite E in HX. specialize (HX ltac:(by eexists)). lia.
    + split; cbn [toy_next toy_space]; [lia|]. split; [done|]. split; [|done]. intros p Hp.
      destruct (decide (p = toy_next k)) as [-> |]; [lia|]. rewrite lookup_insert_ne in Hp by done. specialize (HX p Hp). lia.
  - eexists _, _. split; [done|]. by left.
Qed.
Next Obligation.
  intros k X S p (Hn & Hs & HX & HS) Hp. eexists. split; [done|]. split; [done|]. split; [done|]. split; [|done].
  intros q [x Hq]. apply lookup_delete_Some in Hq as [_ Hq]. apply HX. by eexists.
Qed.
Next Obligation. done. Qed.
Next Obligation.
  intros k X S (Hn & Hs & HX & HS). simpl. split; [|done]. right. split; [lia|]. split; [intros Hc; specialize (HS _ Hc); lia|].
  split; [done|]. cbn [toy_space toy_next]. split; [lia|]. split; [done|]. intros c [->%elem_of_singleton|Hc]%elem_of_union; [lia|].
  specialize (HS c Hc). lia.
Qed.
Next Obligation. intros k X S c (Hn & Hs & HX & HS) Hc. do 3 (split; [done|]). intros d Hd. apply HS. set_solver. Qed.
Next Obligation. done. Qed.
Next Obligation. intros k X S b n bytes Hk _ _. split; [done|]. simpl. by rewrite Z.eqb_refl. Qed.
Next Obligation.
  intros k b size.
  assert (covers (toy_get k b size) size) as Hc.
  { intros o Ho. unfold toy_get. replace ((0 <=? o) && (o <? size)) with true by lia. by eexists. }
  destruct (parse_segments_spec _ _ Hc false ELF_SEGMENT_MAX ltac:(done)) as ([|] & _ & Hp); [|by eexists].
  destruct Hp as (? & ? & ? & ? & _ & _ & _ & _ & _ & E). by eexists.
Qed.
Next Obligation. done. Qed.
Next Obligation. by intros k X S c image size base b k' Hk _ [= _ <-]. Qed.
Next Obligation. done. Qed.
Next Obligation. by intros k X S c argv envp sp k' Hk _ [= _ <-]. Qed.

(** ** Witnesses *)

(** A file system with one file, readable as a whole. *)
Definition romfs : fs_type (list Z) := {|
  fs_name := Some [114];
  fs_probe := None; fs_mount := None;
  fs_read_file := Some (λ ctx p n w, (Z.of_nat (length w), take (Z.to_nat n) w, w));
  fs_write_file := None; fs_stat_file := None; fs_read_at := None; fs_write_at := None;
  fs_list_dir := None; fs_mkdir := None; fs_remove := None
|}.

(** A process at 4096 with a running child at 8192 and a zombie at 12288, on the
    first of the processors. *)
Definition demo_proc (pid cr3 top parent children sibling : Z) (st : process_state) : pcb :=
  set_p_state st (set_p_parent parent (set_p_children children (set_p_next_sibling sibling
    (set_p_kernel_stack_top top (set_p_cr3 cr3 (fresh_pcb pid None)))))).
Definition demo_parent : pcb := demo_proc 1 1 32768 0 8192 0 PROC_RUNNING.
Definition demo_child : pcb := demo_proc 2 2 65536 4096 0 12288 PROC_READY.
Definition demo_zombie : pcb := demo_proc 3 3 (131072 + 16384) 4096 0 0 PROC_ZOMBIE.

Definition demo_base : Z := 1048576.
Definition demo_cpus : cpus :=
  Cpus (λ i, Percpu 0 0 1234 i i (if i =? 0 then 4096 else 0) 0 0)
       (λ i, CpuHw (percpu_addr demo_base i) (percpu_addr demo_base i) 0 0 false).
Definition demo_state : pstate toy (heap pmm) (list Z) := {|
  ps_kernel := Toy 1048576 10 (λ _, []);
  ps_procs := {[4096 := demo_parent; 8192 := demo_child; 12288 := demo_zombie]};
  next_pid := 4;
  ps_cpus := demo_cpus;
  ps_vfs := Vfs [romfs] 1 [Mount [slash] romfs 1 5] demo_heap demo_elf
|}.

(** The heap without the zombie, and with it. *)
Definition demo_rest_heap : gmap Z Z := {[4096 := sizeof_process; 8192 := sizeof_process]}.
Definition demo_live : gmap Z Z :=
  <[131072 := PROCESS_KSTACK_SIZE]> (<[12288 := sizeof_process]> demo_rest_heap).
Definition demo_spaces : gset Z := {[1; 2; 3]}.

Lemma demo_ok : pk_ok (ps_kernel demo_state) demo_live demo_spaces.
Proof.
  split; [done|]. split; [done|]. cbn [toy_next toy_space ps_kernel demo_state]. split.
  - intros p [n Hp]. unfold demo_live, demo_rest_heap in Hp. rewrite !lookup_insert_Some, lookup_singleton_Some in Hp. lia.
  - intros c Hc. unfold demo_spaces in Hc. set_solver by lia.
Qed.

Lemma demo_blocks : blocks_live demo_state demo_live.
Proof.
  intros a p. unfold demo_state, demo_live, demo_rest_heap. cbn [ps_procs].
  rewrite !lookup_insert_Some, lookup_singleton_Some. intros Ha.
  assert (a = 4096 ∨ a = 8192 ∨ a = 12288) as [-> |[-> | ->]] by naive_solver; by eexists.
Qed.


Definition demo_regs : syscall_regs := SyscallRegs 57 1 0x401000 3 4 5 6 7 8 9 0x246 10 11 12 13.

Lemma process_fork_witness :
  ∃ child s', process_fork demo_base 0 demo_regs demo_state = Some (child, s') ∧ child ≠ 0 ∧
    ∃ c top X', c ∉ demo_spaces ∧
      ps_procs s' = <[4096 := set_p_children child demo_parent]>
        (<[child := forked 4096 demo_parent 4 c top demo_regs 1234]> (ps_procs demo_state)) ∧
      pk_ok (ps_kernel s') X' ({[c]} ∪ demo_spaces).
Proof.
  destruct (process_fork_correct demo_base 0 demo_regs 4096 demo_parent demo_state demo_live demo_spaces)
    as (child & s' & E & _ & Hrest).
  - exact demo_ok.
  - exact demo_blocks.
  - split; [unfold PERCPU_MAX_CPUS; lia|]. split; [reflexivity|]. left. split; [reflexivity|]. left. reflexivity.
  - reflexivity.
  - discriminate.
  - reflexivity.
  - unfold demo_spaces. set_solver.
  - assert (fst <$> process_fork demo_base 0 demo_regs demo_state = Some 1048576) as Ht by (vm_compute; reflexivity).
    rewrite E in Ht. injection Ht as ->. exists 1048576, s'. split; [exact E|]. split; [discriminate|].
    destruct Hrest as (c & top & X' & _ & _ & Hc & _ & Hp & Hk). exists c, top, X'. split; [exact Hc|]. split; [exact Hp|exact Hk].
Defined.

Lemma process_wait_witness :
  ∃ s' pp', process_find_zombie_child 4096 0 demo_state = Some 12288 ∧
    process_reap_child 4096 12288 demo_state = Some s' ∧ ps_procs s' !! 12288 = None ∧
    ps_procs s' !! 4096 = Some pp' ∧ sib_seg (ps_procs s') (p_children pp') [8192] 0 ∧
    pk_ok (ps_kernel s') demo_rest_heap (demo_spaces ∖ {[3]}).
Proof.
  destruct (process_wait_correct 4096 0 demo_parent [8192; 12288] demo_state demo_live demo_spaces)
    as (z & E & Hz).
  - exact demo_ok.
  - discriminate.
  - reflexivity.
  - cbn [sib_seg]. split; [reflexivity|]. split; [discriminate|]. exists demo_child. split; [reflexivity|].
    split; [reflexivity|]. split; [discriminate|]. exists demo_zombie. split; reflexivity.
  - apply NoDup_cons. split; [set_solver|]. apply NoDup_singleton.
  - set_solver.
  - repeat constructor.
  - simpl. lia.
  - assert (process_find_zombie_child 4096 0 demo_state = Some 12288) as Ht by (vm_compute; reflexivity).
    rewrite Ht in E. injection E as <-. destruct Hz as (l1 & l2 & b & El & Eb & _ & Hno & Hreap).
    assert (Some demo_zombie = Some b) as [= <-] by (rewrite <- Eb; reflexivity).
    assert (l1 = [8192] ∧ l2 = []) as [-> ->].
    { destruct l1 as [|x [|y l1]]; simpl in El; [discriminate|injection El as -> <-; done|].
      injection El as -> _ El. by destruct l1. }
    destruct (Hreap demo_rest_heap) as (s' & pp' & H1 & H2 & H3 & H4 & _ & H6).
    + split; [|split; [reflexivity|unfold demo_spaces; set_solver]]. right. exists 131072.
      split; [lia|]. split; [reflexivity|]. split; [discriminate|]. split; reflexivity.
    + exists s', pp'. done.
Defined.
