(* ===== verification/Syscall.v ===== *)
(** System calls (arch/x86_64/syscall/syscall_dispatch.c).

    [syscall_dispatch] runs one system call of the process that is current on cpu
    [me].  Its state [kst] puts together the process table, memory and file systems
    (Process.v), the run queues (Scheduler.v), the terminals (Tty.v) and the screen
    (Term.v).  The kernel reaches user memory through the tables in the cpu's [cr3]:
    [UserKernel] names these accesses, and an access to an address that is not mapped
    is [None], as is every other fault of the layers below.

    A call that waits ends each round with [hlt]: what the rest of the system does
    until the process runs again is a function on the state, taken from the list
    [env].  The outcome is a return to user mode, the kernel being left for another
    process ([Left]), or still waiting when the list is used up.

    Debug output is not part of the state. *)

From stdpp Require Import prelude numbers list gmap strings.
From Stdlib Require Import ZArith Lia.
From S2P Require Import Prelude Memory Frames Pmm Kheap Alloc Paging Screen Digits Term Tty Bytes Pcb Percpu Scheduler Elf Image ImageDemo Vfs Process Machine SysText Mmap.

Open Scope Z_scope.

Inductive sysno : Type :=
  | SYS_EXIT | SYS_WRITE | SYS_READ | SYS_READ_FILE | SYS_LIST_DIR | SYS_EXEC | SYS_GETPID | SYS_SLEEP | SYS_PS
  | SYS_MMAP | SYS_MUNMAP | SYS_OPEN | SYS_CLOSE | SYS_SEEK | SYS_GETTICKS | SYS_SETFSBASE | SYS_FORK | SYS_EXECVE
  | SYS_WAITPID | SYS_KILL | SYS_VTSET | SYS_TCGETATTR | SYS_TCSETATTR | SYS_TTYWINSIZE | SYS_MKDIR | SYS_REMOVE.

(** In the order of their numbers, from 0. *)
Definition sys_table : list sysno :=
  [SYS_EXIT; SYS_WRITE; SYS_READ; SYS_READ_FILE; SYS_LIST_DIR; SYS_EXEC; SYS_GETPID; SYS_SLEEP; SYS_PS;
   SYS_MMAP; SYS_MUNMAP; SYS_OPEN; SYS_CLOSE; SYS_SEEK; SYS_GETTICKS; SYS_SETFSBASE; SYS_FORK; SYS_EXECVE;
   SYS_WAITPID; SYS_KILL; SYS_VTSET; SYS_TCGETATTR; SYS_TCSETATTR; SYS_TTYWINSIZE; SYS_MKDIR; SYS_REMOVE].
Definition sys_of (rax : Z) : option sysno :=
  if (0 <=? rax) && (rax <? 26) then sys_table !! Z.to_nat rax else None.

Definition set_sr_rax (v : Z) (r : syscall_regs) : syscall_regs :=
  SyscallRegs v (sr_rbx r) (sr_rcx r) (sr_rdx r) (sr_rsi r) (sr_rdi r) (sr_rbp r) (sr_r8 r) (sr_r9 r) (sr_r10 r)
    (sr_r11 r) (sr_r12 r) (sr_r13 r) (sr_r14 r) (sr_r15 r).
Definition set_sr_rcx (v : Z) (r : syscall_regs) : syscall_regs :=
  SyscallRegs (sr_rax r) (sr_rbx r) v (sr_rdx r) (sr_rsi r) (sr_rdi r) (sr_rbp r) (sr_r8 r) (sr_r9 r) (sr_r10 r)
    (sr_r11 r) (sr_r12 r) (sr_r13 r) (sr_r14 r) (sr_r15 r).
Definition set_pc_user_rsp (v : Z) (p : percpu) : percpu :=
  Percpu (pc_self p) (pc_kernel_rsp p) v (pc_cpu_index p) (pc_lapic_id p) (pc_current p)
    (pc_tss_rsp0 p) (pc_syscall_stack_top p).

(** User memory through an address space, and the two mapping calls. *)
Class UserKernel (K : Type) : Type := {
  uk_load : Z → Z → K → option Z;
  uk_store : Z → Z → Z → K → option K;
  uk_mmap : Z → Z → Z → K → Z * Z * K;
  uk_munmap : Z → Z → Z → K → Z * K
}.

(** Giving back the memory of a process, for the scheduler. *)
#[export] Instance kernel_memory {K} `{!ProcessKernel K} : ProcessMemory K := λ p proc k,
  k ← (if truthy (p_kernel_stack_top p) then pk_free (u64 (p_kernel_stack_top p - PROCESS_KSTACK_SIZE)) k else Some k);
  pk_free proc (pk_free_space (p_cr3 p) k).

Section Syscall.
Context {K H W : Type} `{!ProcessKernel K, !UserKernel K}.
Context (percpu_base me : Z).

Record kst : Type := KSt {
  k_ps : pstate K H W;
  k_rq : Z → cpu_rq;
  k_lock : bool;
  k_uptime : Z;
  k_ncpu : Z;
  k_kbd : kbd;
  k_con : console;
  k_video : bool;
  (** bytes waiting at the serial port *)
  k_serial_in : list Z
}.

Definition with_ps (p : pstate K H W) (s : kst) : kst :=
  KSt p (k_rq s) (k_lock s) (k_uptime s) (k_ncpu s) (k_kbd s) (k_con s) (k_video s) (k_serial_in s).
Definition with_kbd (k : kbd) (s : kst) : kst :=
  KSt (k_ps s) (k_rq s) (k_lock s) (k_uptime s) (k_ncpu s) k (k_con s) (k_video s) (k_serial_in s).
Definition with_con (c : console) (s : kst) : kst :=
  KSt (k_ps s) (k_rq s) (k_lock s) (k_uptime s) (k_ncpu s) (k_kbd s) c (k_video s) (k_serial_in s).
Definition with_serial_in (l : list Z) (s : kst) : kst :=
  KSt (k_ps s) (k_rq s) (k_lock s) (k_uptime s) (k_ncpu s) (k_kbd s) (k_con s) (k_video s) l.

(** The scheduler's view of the state, and the state after a scheduler operation. *)
Definition sched_of (s : kst) : sched K :=
  Sched (ps_procs (k_ps s)) (k_rq s) (k_lock s) (k_uptime s) (k_ncpu s) (ps_cpus (k_ps s)) (ps_kernel (k_ps s)).
Definition put_sched (x : sched K) (s : kst) : kst :=
  KSt (PState (s_mach x) (procs x) (next_pid (k_ps s)) (s_cpus x) (ps_vfs (k_ps s)))
    (rq x) (sched_lock x) (uptime_ticks x) (smp_cpu_count x) (k_kbd s) (k_con s) (k_video s) (k_serial_in s).

Definition cur_cr3 (s : kst) : Z := hw_cr3 (hw (ps_cpus (k_ps s)) me).
Definition on_hw (f : cpu_hw → cpu_hw) (s : kst) : kst :=
  with_ps (with_pcpus (upd_hw me f (ps_cpus (k_ps s))) (k_ps s)) s.
Definition sti : kst → kst := on_hw (set_if true).
Definition cli : kst → kst := on_hw (set_if false).

Definition current (s : kst) : option Z := Process.process_current percpu_base me (k_ps s).
Definition scheduler_ticks (s : kst) : Z := Scheduler.scheduler_ticks (sched_of s).

(** [cur ? cur->vt : 0], and an assignment to [*cur] when there is one. *)
Definition vt_of (cur : Z) (s : kst) : option Z :=
  if cur =? 0 then Some 0 else p ← ps_procs (k_ps s) !! cur; Some (p_vt p).
Definition on_cur (cur : Z) (f : pcb → pcb) (s : kst) : option kst :=
  if cur =? 0 then Some s else p ← upd_pcb cur f (k_ps s); Some (with_ps p s).

(** ** User memory *)

Fixpoint read_user (va : Z) (n : nat) (s : kst) : option (list Z) :=
  match n with
  | O => Some []
  | S n => b ← uk_load (cur_cr3 s) va (ps_kernel (k_ps s)); l ← read_user (va + 1) n s; Some (b :: l)
  end.
Fixpoint write_user (va : Z) (l : list Z) (s : kst) : option kst :=
  match l with
  | [] => Some s
  | b :: l => k ← uk_store (cur_cr3 s) va b (ps_kernel (k_ps s)); write_user (va + 1) l (with_ps (with_kern k (k_ps s)) s)
  end.

(** A string up to its terminator: more rounds than there are user addresses. *)
Definition string_fuel : positive := 281474976710657.
Definition string_step (s : kst) (st : Z * list Z) : Z * list Z + option (list Z) :=
  let '(va, acc) := st in
  match uk_load (cur_cr3 s) va (ps_kernel (k_ps s)) with
  | None => inr None
  | Some b => if b =? 0 then inr (Some acc) else inl (va + 1, acc ++ [b])
  end.
Definition user_string (va : Z) (s : kst) : option (list Z) :=
  mjoin (while_ string_fuel (string_step s) (va, [])).

(** [while (argv && argv[argc]) argc++;] and the strings. *)
Definition le_value (l : list Z) : Z := foldr (λ b v, b + 256 * v) 0 l.
Definition vector_step (s : kst) (st : Z * list (list Z)) : Z * list (list Z) + option (list (list Z)) :=
  let '(va, acc) := st in
  match read_user va 8 s with
  | None => inr None
  | Some w => if le_value w =? 0 then inr (Some acc)
              else match user_string (le_value w) s with None => inr None | Some str => inl (va + 8, acc ++ [str]) end
  end.
Definition user_vector (va : Z) (s : kst) : option (list (list Z)) :=
  if va =? 0 then Some [] else mjoin (while_ string_fuel (vector_step s) (va, [])).

Definition le_bytes (n : nat) (v : Z) : list Z := (λ i, u8 (Z.shiftr v (8 * Z.of_nat i))) <$> seq 0 n.

(** ** Outcomes *)

Inductive outcome : Type :=
  | Returned (regs : syscall_regs) (s : kst)
  | Left (how : leave) (s : kst)
  | Waiting (s : kst).

Definition ret (v : Z) (regs : syscall_regs) (s : kst) : option outcome := Some (Returned (set_sr_rax v regs) s).
Definition ret_error (regs : syscall_regs) (s : kst) : option outcome := ret SYS_ERROR regs s.

(** One round of a waiting loop. *)
Inductive round : Type :=
  | R_done (rax : Z) (s : kst)
  | R_exit (how : leave) (s : kst)
  | R_again (s : kst).

(** [for (;;) { ...; hlt(); }]; afterwards [cli()] and [cur->blocked = false]. *)
Fixpoint wait (cur : Z) (body : kst → option round) (env : list (kst → kst)) (regs : syscall_regs) (s : kst)
    : option outcome :=
  r ← body s;
  match r with
  | R_done rax s => s ← on_cur cur (set_p_blocked false) (cli s); ret rax regs s
  | R_exit how s => Some (Left how s)
  | R_again s =>
      match env with
      | [] => Some (Waiting s)
      | f :: env => wait cur body env regs (f s)
      end
  end.

(** [if (scheduler_terminate_requested()) scheduler_exit_current(process_current()->exit_status);] *)
Definition check_terminate (s : kst) : option round :=
  b ← scheduler_terminate_requested percpu_base me (sched_of s);
  if (b : bool) then
    cur ← current s;
    p ← ps_procs (k_ps s) !! cur;
    r ← scheduler_exit_current percpu_base me (p_exit_status p) (sched_of s);
    let '(how, x) := r in Some (R_exit how (put_sched x s))
  else Some (R_again s).

(** The start of a waiting loop: [cur->blocked = true; sti();] *)
Definition start_wait (cur : Z) (s : kst) : option kst :=
  s ← on_cur cur (set_p_blocked true) s; Some (sti s).

Definition drain (s : kst) : kst := with_serial_in [] (with_kbd (tty_drain_serial (k_serial_in s) (k_kbd s)) s).

(** ** The calls *)

Definition sys_list_dir (path buf len : Z) (s : kst) : option (Z * kst) :=
  if negb (user_ptr_ok path 1) || negb (user_ptr_ok buf len) then Some (-1, s)
  else
    p ← user_string path s;
    let '(entries, v) := vfs_list_dir (Some p) true (ps_vfs (k_ps s)) in
    let s := with_ps (with_vfs v (k_ps s)) s in
    lb ← list_entries entries (fresh_buf len);
    s ← write_user buf (lb_text lb ++ [0]) s;
    Some (s32 (Z.of_nat (length (lb_text lb))), s).

Definition sys_read_file (path buf len : Z) (s : kst) : option (Z * kst) :=
  if negb (user_ptr_ok path 1) || negb (user_ptr_ok buf len) then Some (-1, s)
  else
    p ← user_string path s;
    let '(r, bytes, v) := vfs_read_file (Some p) true (u32 len) (ps_vfs (k_ps s)) in
    s ← write_user buf bytes (with_ps (with_vfs v (k_ps s)) s);
    Some (s32 r, s).

Definition sleep_round (deadline : Z) (s : kst) : option round :=
  if scheduler_ticks s <? deadline then check_terminate s else Some (R_done 0 s).

Definition sys_sleep (ms : Z) (env : list (kst → kst)) (regs : syscall_regs) (s : kst) : option outcome :=
  cur ← current s;
  let deadline := u64 (scheduler_ticks s + ms / 10) in
  s ← start_wait cur s;
  wait cur (sleep_round deadline) env regs s.

Definition sys_ps (buf len : Z) (s : kst) : option (Z * kst) :=
  if negb (user_ptr_ok buf len) then Some (-1, s)
  else
    r ← scheduler_list me (sched_of s);
    let '(entries, x) := r in
    pb ← ps_entries entries (fresh_buf len);
    s ← write_user buf (lb_text pb ++ [0]) (put_sched x s);
    Some (s32 (Z.of_nat (length (lb_text pb))), s).

(** The mapping calls work on the address space and the cursor of the process. *)
Definition sys_mmap (len : Z) (s : kst) : option (Z * kst) :=
  cur ← current s;
  if cur =? 0 then Some (SYS_ERROR, s)
  else
    p ← ps_procs (k_ps s) !! cur;
    let '(r, cursor, k) := uk_mmap (p_cr3 p) (p_mmap_cursor p) len (ps_kernel (k_ps s)) in
    s ← on_cur cur (set_p_mmap_cursor cursor) (with_ps (with_kern k (k_ps s)) s);
    Some (r, s).

Definition sys_munmap (addr len : Z) (s : kst) : option (Z * kst) :=
  cur ← current s;
  if cur =? 0 then Some (-1, s)
  else
    p ← ps_procs (k_ps s) !! cur;
    let '(r, k) := uk_munmap (p_cr3 p) addr len (ps_kernel (k_ps s)) in
    Some (r, with_ps (with_kern k (k_ps s)) s).

(** The file table of the process, [None] for no process, and an operation on it. *)
Definition files_of (cur : Z) (s : kst) : option (option (list proc_file)) :=
  if cur =? 0 then Some None else p ← ps_procs (k_ps s) !! cur; Some (Some (p_files p)).
Definition put_files (cur : Z) (fs : option (list proc_file)) (v : vfs H W) (s : kst) : option kst :=
  let s := with_ps (with_vfs v (k_ps s)) s in
  match fs with None => Some s | Some fs => on_cur cur (set_p_files fs) s end.

Definition sys_write (regs : syscall_regs) (s : kst) : option outcome :=
  if negb (user_ptr_ok (sr_rsi regs) (sr_rdx regs)) then ret_error regs s
  else
    cur ← current s;
    if sr_rdi regs <=? 2 then
      vt ← vt_of cur s;
      bytes ← read_user (sr_rsi regs) (Z.to_nat (sr_rdx regs)) s;
      r ← term_write (k_video s) vt (s8 <$> bytes) (k_con s);
      let '(n, con) := r in ret n regs (with_con con s)
    else
      fs ← files_of cur s;
      let fd := s32 (sr_rdi regs) in
      (** the buffer is only touched for an open file *)
      bytes ← (if is_null (open_file fs fd) then Some [] else read_user (sr_rsi regs) (Z.to_nat (sr_rdx regs)) s);
      let '(n, fs, v) := vfs_write_fd fs fd (Some bytes) (sr_rdx regs) (ps_vfs (k_ps s)) in
      s ← put_files cur fs v s; ret (u64 n) regs s.

(** What [tty_read_raw] and [tty_getline] leave in the buffer goes to user memory. *)
Definition read_raw (vt buf len : Z) (s : kst) : option round :=
  r ← tty_read_raw vt buf (u32 len) (λ _, 0) (k_kbd s);
  let '(n, m, k) := r in
  s ← write_user buf ((λ i, m (buf + Z.of_nat i)) <$> seq 0 (Z.to_nat n)) (with_kbd k s);
  Some (R_done n s).

Definition raw_round (vt vmin vtime deadline buf len : Z) (s : kst) : option round :=
  let s := drain s in
  let avail := tty_raw_available vt (k_kbd s) in
  if (0 <? avail) && ((vmin =? 0) || (vmin <=? avail)) then read_raw vt buf len s
  else if (0 <? vtime) && (deadline <=? scheduler_ticks s) then Some (R_done 0 s)
  else check_terminate s.

(** The terminator is stored at [buf[n]] also when [n] is negative. *)
Definition read_line (vt buf len : Z) (s : kst) : option round :=
  let '(n, m, k) := tty_getline vt buf (s32 len) (λ _, 0) (k_kbd s) in
  s ← write_user buf ((λ i, m (buf + Z.of_nat i)) <$> seq 0 (Z.to_nat n)) (with_kbd k s);
  s ← write_user (buf + n) [0] s;
  Some (R_done (u64 n) s).

Definition line_round (vt buf len : Z) (s : kst) : option round :=
  let s := drain s in
  if tty_line_ready vt (k_kbd s) then read_line vt buf len s
  else
    let '(b, k) := tty_sigint_consume vt (k_kbd s) in
    let s := with_kbd k s in
    if (b : bool) then Some (R_done (u64 (-4)) s) else check_terminate s.

Definition read_tty (buf len : Z) (env : list (kst → kst)) (regs : syscall_regs) (s : kst) : option outcome :=
  cur ← current s;
  vt ← vt_of cur s;
  let raw := tty_raw_mode vt (k_kbd s) in
  s ← start_wait cur s;
  if raw then
    let vtime := tty_get_vtime vt (k_kbd s) in
    let deadline := if 0 <? vtime then u64 (scheduler_ticks s + vtime * 10) else 0 in
    wait cur (raw_round vt (tty_get_vmin vt (k_kbd s)) vtime deadline buf len) env regs s
  else wait cur (line_round vt buf len) env regs s.

Definition sys_read (env : list (kst → kst)) (regs : syscall_regs) (s : kst) : option outcome :=
  let fd := s64 (sr_rdi regs) in
  if sr_rdx regs =? 0 then ret 0 regs s
  else if negb (user_ptr_ok (sr_rsi regs) (sr_rdx regs)) then ret_error regs s
  else if fd =? 0 then read_tty (sr_rsi regs) (sr_rdx regs) env regs s
  else if 3 <=? fd then
    cur ← current s;
    fs ← files_of cur s;
    let '(n, data, fs, v) := vfs_read_fd fs (s32 fd) true (sr_rdx regs) (ps_vfs (k_ps s)) in
    s ← put_files cur fs v s;
    s ← write_user (sr_rsi regs) data s; ret (u64 n) regs s
  else ret_error regs s.

Definition sys_open (regs : syscall_regs) (s : kst) : option outcome :=
  if negb (user_ptr_ok (sr_rdi regs) 1) then ret_error regs s
  else
    cur ← current s;
    fs ← files_of cur s;
    p ← user_string (sr_rdi regs) s;
    let '(fd, fs, v) := vfs_open_fd fs (Some p) (u32 (sr_rsi regs)) (ps_vfs (k_ps s)) in
    s ← put_files cur fs v s; ret (u64 fd) regs s.

Definition sys_close (regs : syscall_regs) (s : kst) : option outcome :=
  cur ← current s;
  fs ← files_of cur s;
  let '(r, fs, v) := vfs_close_fd fs (s32 (sr_rdi regs)) (ps_vfs (k_ps s)) in
  s ← put_files cur fs v s; ret (u64 r) regs s.

Definition sys_seek (regs : syscall_regs) (s : kst) : option outcome :=
  cur ← current s;
  fs ← files_of cur s;
  let '(r, fs, v) := vfs_seek_fd fs (s32 (sr_rdi regs)) (s64 (sr_rsi regs)) (u32 (sr_rdx regs)) (ps_vfs (k_ps s)) in
  s ← put_files cur fs v s; ret (u64 r) regs s.

(** [scheduler_enqueue(child)] *)
Definition enqueue (child : Z) (s : kst) : option kst :=
  x ← scheduler_enqueue me child (sched_of s); Some (put_sched x s).

Definition user_name : list Z := [117; 115; 101; 114].

Definition sys_exec (regs : syscall_regs) (s : kst) : option outcome :=
  if negb (user_ptr_ok (sr_rdi regs) 1) then ret_error regs s
  else
    r ← process_create (Some user_name) (k_ps s);
    let '(child, p) := r in
    if child =? 0 then ret_error regs (with_ps p s)
    else
      path ← user_string (sr_rdi regs) (with_ps p s);
      r ← process_load_elf child path p;
      let '(ok, p) := r in
      if negb (ok : bool) then p ← Process.process_destroy child p; ret_error regs (with_ps p s)
      else
        s ← enqueue child (with_ps p s);
        c ← ps_procs (k_ps s) !! child; ret (p_pid c) regs s.

Definition sys_fork (regs : syscall_regs) (s : kst) : option outcome :=
  r ← process_fork percpu_base me regs (k_ps s);
  let '(child, p) := r in
  if child =? 0 then ret_error regs (with_ps p s)
  else
    s ← enqueue child (with_ps p s);
    c ← ps_procs (k_ps s) !! child; ret (p_pid c) regs s.

(** The registers and the cpu after a successful [execve]. *)
Definition enter_image (cur : Z) (regs : syscall_regs) (s : kst) : option (syscall_regs * kst) :=
  p ← ps_procs (k_ps s) !! cur;
  let s := on_hw (set_fs 0) (on_hw (set_cr3 (p_cr3 p)) s) in
  c ← upd_current percpu_base me (λ c, set_pc_user_rsp (r_user_rsp (p_ctx p)) (set_pc_kernel_rsp (p_kernel_stack_top p) c))
        (ps_cpus (k_ps s));
  Some (set_sr_rax 0 (set_sr_rcx (r_rip (p_ctx p)) regs), with_ps (with_pcpus c (k_ps s)) s).

(** The vectors are read through the caller's tables before these are replaced.  The
    code counts the pointers at once and reads the strings when the image is loaded:
    for strings that can be read this is the same. *)
Definition sys_execve (regs : syscall_regs) (s : kst) : option outcome :=
  cur ← current s;
  if cur =? 0 then ret_error regs s
  else
    b ← ps_procs (k_ps s) !! cur;
    r ← read_user_cstr (p_cr3 b) (sr_rdi regs) (k_ps s);
    let '(path, p) := r in
    let s := with_ps p s in
    match path with
    | None => ret_error regs s
    | Some (buf, path) =>
        argv ← user_vector (sr_rsi regs) s;
        envp ← user_vector (sr_rdx regs) s;
        r ← process_execve cur path argv envp (k_ps s);
        let '(ok, p) := r in
        let s := with_ps p s in
        if negb (ok : bool) then p ← kfree buf (k_ps s); ret_error regs (with_ps p s)
        else
          r ← enter_image cur regs s;
          let '(regs, s) := r in
          p ← kfree buf (k_ps s); Some (Returned regs (with_ps p s))
    end.

Definition waitpid_round (cur want status vt : Z) (s : kst) : option round :=
  z ← process_find_zombie_child cur (if want <=? 0 then 0 else want) (k_ps s);
  if negb (z =? 0) then
    b ← ps_procs (k_ps s) !! z;
    s ← (if truthy status && user_ptr_ok status 4 then write_user status (le_bytes 4 (p_exit_status b)) s else Some s);
    p ← process_reap_child cur z (k_ps s);
    Some (R_done (p_pid b) (with_ps p s))
  else
    let '(b, k) := tty_sigint_consume vt (k_kbd s) in
    let s := with_kbd k s in
    if (b : bool) then Some (R_done (u64 (-4)) s) else check_terminate s.

Definition sys_waitpid (env : list (kst → kst)) (regs : syscall_regs) (s : kst) : option outcome :=
  cur ← current s;
  if cur =? 0 then ret_error regs s
  else
    vt ← vt_of cur s;
    s ← start_wait cur s;
    wait cur (waitpid_round cur (s64 (sr_rdi regs)) (sr_rsi regs) vt) env regs s.

(** [dynt_termios_t]: 49 bytes and three of padding, which are not modelled. *)
Definition sizeof_termios : Z := 52.
Definition termios_bytes (t : termios) : list Z :=
  le_bytes 4 (c_iflag t) ++ le_bytes 4 (c_oflag t) ++ le_bytes 4 (c_cflag t) ++ le_bytes 4 (c_lflag t) ++
  [c_line t] ++ ((λ i, c_cc t (Z.of_nat i)) <$> seq 0 32).
Definition termios_of (l : list Z) : termios :=
  {| c_iflag := le_value (take 4 l); c_oflag := le_value (take 4 (drop 4 l)); c_cflag := le_value (take 4 (drop 8 l));
     c_lflag := le_value (take 4 (drop 12 l)); c_line := default 0 (l !! 16%nat);
     c_cc i := if (0 <=? i) && (i <? 32) then default 0 (l !! (17 + Z.to_nat i)%nat) else 0 |}.

Definition sys_tcgetattr (regs : syscall_regs) (s : kst) : option outcome :=
  cur ← current s;
  vt ← vt_of cur s;
  if negb (user_ptr_ok (sr_rdi regs) sizeof_termios) then ret_error regs s
  else
    s ← (match tty_get_mode vt (k_kbd s) with
         | None => Some s
         | Some t => write_user (sr_rdi regs) (termios_bytes t) s
         end);
    ret 0 regs s.

Definition sys_tcsetattr (regs : syscall_regs) (s : kst) : option outcome :=
  cur ← current s;
  vt ← vt_of cur s;
  if negb (user_ptr_ok (sr_rdi regs) sizeof_termios) then ret_error regs s
  else
    t ← read_user (sr_rdi regs) 49 s;
    ret 0 regs (with_kbd (tty_set_mode vt (termios_of t) (k_kbd s)) s).

Definition sys_ttywinsize (regs : syscall_regs) (s : kst) : option outcome :=
  if negb (user_ptr_ok (sr_rdi regs) 4) then ret_error regs s
  else
    s ← write_user (sr_rdi regs) (le_bytes 4 (Z.lor (Z.shiftl vga_vt_rows 16) vga_vt_cols)) s; ret 0 regs s.

(** [vfs_mkdir] and [vfs_remove]. *)
Definition sys_path (op : option (list Z) → vfs H W → Z * vfs H W) (regs : syscall_regs) (s : kst) : option outcome :=
  if negb (user_ptr_ok (sr_rdi regs) 1) then ret_error regs s
  else
    p ← user_string (sr_rdi regs) s;
    let '(r, v) := op (Some p) (ps_vfs (k_ps s)) in
    ret (u64 r) regs (with_ps (with_vfs v (k_ps s)) s).

Definition sys_kill (regs : syscall_regs) (s : kst) : option outcome :=
  r ← scheduler_terminate me (sr_rdi regs) (sched_of s); ret 0 regs (put_sched r.2 s).

Definition sys_vtset (regs : syscall_regs) (s : kst) : option outcome :=
  cur ← current s;
  s ← on_cur cur (set_p_vt (u8 (Z.land (sr_rdi regs) 0xFF))) s; ret 0 regs s.

Definition sys_getpid (regs : syscall_regs) (s : kst) : option outcome :=
  cur ← current s;
  pid ← (if cur =? 0 then Some 1 else p ← ps_procs (k_ps s) !! cur; Some (p_pid p)); ret pid regs s.

Definition sys_setfsbase (regs : syscall_regs) (s : kst) : option outcome :=
  cur ← current s;
  s ← on_cur cur (set_p_fs_base (sr_rdi regs)) s;
  ret 0 regs (if cur =? 0 then s else on_hw (set_fs (sr_rdi regs)) s).

Definition sys_exit (regs : syscall_regs) (s : kst) : option outcome :=
  r ← scheduler_exit_current percpu_base me (Z.shiftl (Z.land (sr_rdi regs) 0xFF) 8) (sched_of s);
  let '(how, x) := r in Some (Left how (put_sched x s)).

(** The message for an unknown number, sent to the serial port. *)
Definition unknown_message : list Z :=
  [10] ++ chars "[syscall] UNKNOW, unknown syscall number." ++ [10].

Definition syscall_dispatch (env : list (kst → kst)) (regs : syscall_regs) (s : kst) : option outcome :=
  match sys_of (sr_rax regs) with
  | Some SYS_WRITE => sys_write regs s
  | Some SYS_READ => sys_read env regs s
  | Some SYS_OPEN => sys_open regs s
  | Some SYS_CLOSE => sys_close regs s
  | Some SYS_SEEK => sys_seek regs s
  | Some SYS_READ_FILE => r ← sys_read_file (sr_rdi regs) (sr_rsi regs) (sr_rdx regs) s; ret (u64 r.1) regs r.2
  | Some SYS_LIST_DIR => r ← sys_list_dir (sr_rdi regs) (sr_rsi regs) (sr_rdx regs) s; ret (u64 r.1) regs r.2
  | Some SYS_EXEC => sys_exec regs s
  | Some SYS_FORK => sys_fork regs s
  | Some SYS_EXECVE => sys_execve regs s
  | Some SYS_WAITPID => sys_waitpid env regs s
  | Some SYS_KILL => sys_kill regs s
  | Some SYS_VTSET => sys_vtset regs s
  | Some SYS_TCGETATTR => sys_tcgetattr regs s
  | Some SYS_TCSETATTR => sys_tcsetattr regs s
  | Some SYS_TTYWINSIZE => sys_ttywinsize regs s
  | Some SYS_MKDIR => sys_path vfs_mkdir regs s
  | Some SYS_REMOVE => sys_path vfs_remove regs s
  | Some SYS_GETPID => sys_getpid regs s
  | Some SYS_SLEEP => sys_sleep (sr_rdi regs) env regs s
  | Some SYS_PS => r ← sys_ps (sr_rdi regs) (sr_rsi regs) s; ret (u64 r.1) regs r.2
  | Some SYS_MMAP => r ← sys_mmap (sr_rdi regs) s; ret r.1 regs r.2
  | Some SYS_MUNMAP => r ← sys_munmap (sr_rdi regs) (sr_rsi regs) s; ret (u64 r.1) regs r.2
  | Some SYS_GETTICKS => ret (scheduler_ticks s) regs s
  | Some SYS_SETFSBASE => sys_setfsbase regs s
  | Some SYS_EXIT => sys_exit regs s
  | None =>
      ret_error regs (with_con (serial_write unknown_message (k_con s)) s)
  end.
End Syscall.
Arguments kst : clear implicits.
Arguments outcome : clear implicits.
Arguments round : clear implicits.

(** On the machine: an access goes to the physical address the tables give, and
    faults when the page is not mapped. *)
#[export] Instance machine_user {A} `{!FrameAllocator A} : UserKernel (machine (A:=A)) := {|
  uk_load cr3 va mc :=
    let p := paging_translate (vmem (mc_vm mc)) cr3 va in
    if p =? 0 then None else Some (load8 (vmem (mc_vm mc)) p);
  uk_store cr3 va b mc :=
    let p := paging_translate (vmem (mc_vm mc)) cr3 va in
    if p =? 0 then None else Some (set_mem (store8 (vmem (mc_vm mc)) p b) mc);
  uk_mmap cr3 cursor len mc :=
    let '(r, c, v) := mmap_in cr3 cursor len (mc_vm mc) in (r, c, set_vm v mc);
  uk_munmap cr3 addr len mc := let '(r, v) := munmap_in cr3 addr len (mc_vm mc) in (r, set_vm v mc)
|}.
