(* ===== verification/SyscallSpec.v ===== *)
(** What the system calls of Syscall.v do.

    [UserKernelOk] says what a store to user memory does to what can be loaded;
    [machine_user_ok] proves it of the machine from the invariant of an address space.
    The calls are specified against it: which arguments are refused, what arrives in
    the buffers of the caller, and when a waiting call comes back. *)

From stdpp Require Import prelude numbers functions list gmap strings.
From Stdlib Require Import ZArith Lia.
From S2P Require Import Prelude Memory Frames Pmm Kheap Alloc Paging Space Screen Digits Term Tty Bytes Pcb Percpu Scheduler Elf Image ImageDemo Vfs Process Machine SysText Mmap Syscall.

Open Scope Z_scope.

(** ** Arguments *)

(** The range lies in the window of user memory. *)
Definition in_window (ptr len : Z) : Prop := USER_MIN ≤ ptr ∧ ptr + len < USER_MAX ∧ len ≤ 0x1000000000.

Lemma user_ptr_ok_window ptr len :
  0 ≤ ptr < 18446744073709551616 → 0 ≤ len < 18446744073709551616 →
  user_ptr_ok ptr len = true ↔ in_window ptr len.
Proof.
  intros Hp Hl. unfold user_ptr_ok, in_window, USER_MIN, USER_MAX, PROCESS_USER_STACK_TOP.
  rewrite !andb_true_iff, !Z.leb_le, !Z.ltb_lt. split.
  - intros [[[? ?] ?] Hlt]. rewrite u64_small in Hlt by lia. lia.
  - intros (? & ? & ?). rewrite u64_small by lia. lia.
Qed.

(** The ranges of user memory a call is given, by its registers. *)
Definition pointer_args (regs : syscall_regs) : list (Z * Z) :=
  match sys_of (sr_rax regs) with
  | Some SYS_WRITE => [(sr_rsi regs, sr_rdx regs)]
  | Some SYS_READ => if sr_rdx regs =? 0 then [] else [(sr_rsi regs, sr_rdx regs)]
  | Some (SYS_READ_FILE | SYS_LIST_DIR) => [(sr_rdi regs, 1); (sr_rsi regs, sr_rdx regs)]
  | Some (SYS_OPEN | SYS_EXEC | SYS_MKDIR | SYS_REMOVE) => [(sr_rdi regs, 1)]
  | Some SYS_PS => [(sr_rdi regs, sr_rsi regs)]
  | Some (SYS_TCGETATTR | SYS_TCSETATTR) => [(sr_rdi regs, sizeof_termios)]
  | Some SYS_TTYWINSIZE => [(sr_rdi regs, 4)]
  | _ => []
  end.

(** The machine word in every register. *)
Definition regs_ok (r : syscall_regs) : Prop :=
  is_u64 (sr_rax r) ∧ is_u64 (sr_rdi r) ∧ is_u64 (sr_rsi r) ∧ is_u64 (sr_rdx r).

Section Refuse.
Context {K H W : Type} `{!ProcessKernel K, !UserKernel K}.
Context (percpu_base me : Z).
Implicit Types s : kst K H W.

(** The cpu runs a live process, or none. *)
Definition cur_ok (cur : Z) s : Prop :=
  current percpu_base me s = Some cur ∧ (cur ≠ 0 → is_Some (ps_procs (k_ps s) !! cur)).

Lemma vt_of_some cur s : cur_ok cur s → is_Some (vt_of cur s).
Proof.
  intros [_ Hc]. unfold vt_of. destruct (Z.eqb_spec cur 0) as [|Hne]; [by eexists|].
  destruct (Hc Hne) as [p Hp]. rewrite Hp. by eexists.
Qed.


(** A number that is no system call: -1, and a message on the serial line. *)
Lemma syscall_unknown env regs s :
  26 ≤ sr_rax regs →
  syscall_dispatch percpu_base me env regs s =
  Some (Returned (set_sr_rax SYS_ERROR regs) (with_con (serial_write unknown_message (k_con s)) s)).
Proof.
  intros Hr. unfold syscall_dispatch, sys_of. by replace (sr_rax regs <? 26) with false by lia; rewrite andb_false_r.
Qed.
End Refuse.

(** ** User memory *)

Definition user_addr (w : Z) : Prop := USER_MIN ≤ w < USER_MAX.

Class UserKernelOk (K : Type) `{!UserKernel K} : Type := {
  (** the address space [cr3] is in order *)
  uk_ok : Z → K → Prop;
  uk_store_spec : ∀ cr3 va b k, uk_ok cr3 k → user_addr va → is_Some (uk_load cr3 va k) →
    ∃ k', uk_store cr3 va b k = Some k' ∧ uk_ok cr3 k' ∧
      ∀ w, user_addr w → uk_load cr3 w k' = if w =? va then Some (u8 b) else uk_load cr3 w k
}.

Section Machine.
Context {A : Type} `{!FrameAllocator A, !FrameAllocatorOk A}.

(** An address space with the invariant, in which no user page is frame 0. *)
Definition machine_space (cr3 : Z) (mc : machine (A:=A)) : Prop :=
  space_ok (mc_vm mc) cr3 ∧
  ∀ w, uaddr w → paging_translate (vmem (mc_vm mc)) cr3 w ≠ 0 → uframe (vmem (mc_vm mc)) cr3 w ≠ None.

Lemma user_addr_uaddr w : user_addr w → uaddr w.
Proof. unfold user_addr, uaddr, USER_MIN, USER_MAX, PROCESS_USER_STACK_TOP. lia. Qed.

Lemma machine_load cr3 mc w :
  machine_space cr3 mc → uaddr w → uk_load cr3 w mc = uview (vmem (mc_vm mc)) cr3 w.
Proof.
  intros [Hs Hz] Hw. cbn [uk_load machine_user]. unfold uview.
  destruct (Z.eqb_spec (paging_translate (vmem (mc_vm mc)) cr3 w) 0) as [E|E].
  - destruct (uframe (vmem (mc_vm mc)) cr3 w) as [f|] eqn:Hf; [|done].
    destruct (uframe_spec _ _ _ _ (sp_mem _ _ Hs) Hf) as (_ & Hf0 & _ & Et).
    pose proof (Z.mod_pos_bound w 4096 ltac:(lia)). lia.
  - destruct (uframe (vmem (mc_vm mc)) cr3 w) as [f|] eqn:Hf; [|by destruct (Hz w Hw E)].
    by destruct (uframe_spec _ _ _ _ (sp_mem _ _ Hs) Hf) as (_ & _ & _ & ->).
Qed.

Lemma machine_store cr3 va b mc :
  machine_space cr3 mc → user_addr va → is_Some (uk_load cr3 va mc) →
  ∃ mc', uk_store cr3 va b mc = Some mc' ∧ machine_space cr3 mc' ∧
    ∀ w, user_addr w → uk_load cr3 w mc' = if w =? va then Some (u8 b) else uk_load cr3 w mc.
Proof.
  intros Hm Hva Hl. pose proof Hm as [Hs Hz].
  apply user_addr_uaddr in Hva as Hua. rewrite machine_load in Hl by done. unfold uview in Hl.
  destruct (uframe (vmem (mc_vm mc)) cr3 va) as [f|] eqn:Hf; [|by destruct Hl].
  destruct (uframe_spec _ _ _ _ (sp_mem _ _ Hs) Hf) as (_ & Hf0 & _ & Et).
  pose proof (Z.mod_pos_bound va 4096 ltac:(lia)) as Hmod. cbn [uk_store machine_user]. rewrite Et.
  replace (f + va mod 4096 =? 0) with false by lia.
  destruct (page_store cr3 (mc_vm mc) va 1 f (λ _, u8 b) (store8 (vmem (mc_vm mc)) (f + va mod 4096) b))
    as [(Hev & Huf & Huv) Hnew]; [done|done|done|lia|intros; apply u8_range| |].
  { intros x. unfold store8. destruct (Z.eqb_spec x (f + va mod 4096)) as [->|]; [by replace (_ && _) with true by lia|].
    by replace (_ && _) with false by lia. }
  eexists. split; [done|]. set (mc' := set_mem _ mc).
  assert (machine_space cr3 mc') as Hm'.
  { split; [apply Hev|]. intros w Hw Ht. cbn [mc_vm mc' set_mem set_vm vmem with_vmem] in *. rewrite Huf.
    apply Hz; [done|]. intros E. apply Ht. rewrite <- E. apply (write_translate (mc_vm mc) cr3 va f); [done..|].
    split; [apply (sp_mem _ _ (proj1 (proj1 Hev)))|]. intros x Hx. unfold store8.
    destruct (Z.eqb_spec x (f + va mod 4096)) as [->|]; [|done]. destruct Hx. unfold in_page. lia. }
  split; [done|]. intros w Hw%user_addr_uaddr. rewrite !machine_load by done.
  destruct (Z.eqb_spec w va) as [->|Hne].
  - specialize (Hnew 0 ltac:(lia)). by rewrite Z.add_0_r in Hnew.
  - apply Huv; [done|]. lia.
Qed.

#[export] Instance machine_user_ok : UserKernelOk (machine (A:=A)) := {|
  uk_ok := machine_space; uk_store_spec := machine_store
|}.
End Machine.

Section Buffers.
Context {K H W : Type} `{!ProcessKernel K, !UserKernel K, !UserKernelOk K}.
Context (percpu_base me : Z).
Implicit Types s : kst K H W.

(** The byte the caller sees at [w], and a range of bytes all mapped. *)
Definition ubyte s (w : Z) : option Z := uk_load (cur_cr3 me s) w (ps_kernel (k_ps s)).
Definition mapped s (va n : Z) : Prop := ∀ w, va ≤ w < va + n → user_addr w ∧ is_Some (ubyte s w).
Definition in_order s : Prop := uk_ok (cur_cr3 me s) (ps_kernel (k_ps s)).

(** Only the memory layer moved: its user memory now has [l] at [va]. *)
Definition stored (va : Z) (l : list Z) s s' : Prop :=
  (∃ k, s' = with_ps (with_kern k (k_ps s)) s) ∧ in_order s' ∧
  ∀ w, user_addr w → ubyte s' w =
    if (va <=? w) && (w <? va + Z.of_nat (length l)) then u8 <$> l !! Z.to_nat (w - va) else ubyte s w.

Lemma write_user_spec va l s :
  in_order s → mapped s va (Z.of_nat (length l)) → ∃ s', write_user me va l s = Some s' ∧ stored va l s s'.
Proof.
  revert va s. induction l as [|b l IH]; intros va s Ho Hm; cbn [write_user].
  { exists s. split; [done|]. split; [exists (ps_kernel (k_ps s)); by destruct s as [[]]|]. split; [done|].
    intros w Hw. cbn [length]. change (Z.of_nat 0) with 0.
    by replace ((va <=? w) && (w <? va + 0)) with false by lia. }
  cbn [length] in *. destruct (Hm va ltac:(lia)) as [Hua Hld].
  destruct (uk_store_spec (cur_cr3 me s) va b (ps_kernel (k_ps s)) Ho Hua Hld) as (k & -> & Hok & Hview). obind.
  set (s1 := with_ps (with_kern k (k_ps s)) s).
  assert (∀ w, user_addr w → ubyte s1 w = if w =? va then Some (u8 b) else ubyte s w) as Hv1 by exact Hview.
  destruct (IH (va + 1) s1) as (s' & -> & (k' & ->) & Ho' & Hv'); [exact Hok| |].
  { intros w Hw. destruct (Hm w ltac:(lia)) as [Hu Hw']. split; [done|]. rewrite Hv1 by done.
    by replace (w =? va) with false by lia. }
  eexists. split; [done|]. split; [by exists k'|]. split; [exact Ho'|]. intros w Hw. rewrite Hv', Hv1 by done.
  cbn [length]. rewrite Nat2Z.inj_succ, <- Z.add_1_r. pose proof (Nat2Z.is_nonneg (length l)) as Hn.
  set (n := Z.of_nat (length l)) in *. clearbody n. destruct (Z.eqb_spec w va) as [->|Hne].
  - replace ((va + 1 <=? va) && (va <? va + 1 + n)) with false by lia.
    replace ((va <=? va) && (va <? va + (n + 1))) with true by lia. by rewrite Z.sub_diag.
  - replace ((va + 1 <=? w) && (w <? va + 1 + n)) with ((va <=? w) && (w <? va + (n + 1))) by lia.
    destruct ((va <=? w) && _) eqn:E; [|done].
    by replace (Z.to_nat (w - va)) with (S (Z.to_nat (w - (va + 1)))) by lia.
Qed.
End Buffers.

(** ** Directory listings *)

Section Listing.
Context {K H W : Type} `{!ProcessKernel K, !UserKernel K, !UserKernelOk K}.
Context (me : Z).
Implicit Types s : kst K H W.

(** The whole of the text goes to the buffer, and a zero behind it. *)
Lemma sys_list_dir_text path buf len p s :
  in_order me s → user_ptr_ok path 1 = true → user_ptr_ok buf len = true →
  user_string me path s = Some p →
  let r := vfs_list_dir (Some p) true (ps_vfs (k_ps s)) in
  let text := take (room len) (concat (list_line <$> r.1)) in
  mapped me s buf (Z.of_nat (length text) + 1) → Z.of_nat (length text) < 2147483648 →
  ∃ s', sys_list_dir me path buf len s = Some (Z.of_nat (length text), s') ∧
    stored me buf (text ++ [0]) (with_ps (with_vfs r.2 (k_ps s)) s) s'.
Proof.
  intros Ho Hp Hb Hstr r text Hm Hlen. unfold sys_list_dir. rewrite Hp, Hb. cbn [negb orb]. rewrite Hstr. obind.
  fold r. assert (text = take (Z.to_nat (u32 (lb_size (fresh_buf len) - 1))) (concat (list_line <$> r.1))) as Ht by done.
  clearbody text. destruct r as [entries v]. cbn [fst snd] in *.
  destruct (list_entries_spec entries [] (fresh_buf len)) as (lb & -> & Htext); [simpl; by rewrite take_nil|]. obind.
  rewrite app_nil_l, <- Ht in Htext. rewrite Htext.
  destruct (write_user_spec me buf (text ++ [0]) (with_ps (with_vfs v (k_ps s)) s)) as (s' & -> & Hst); [exact Ho| |].
  { rewrite length_app. cbn [length]. intros w Hw. apply (Hm w). lia. }
  obind. exists s'. rewrite s32_id by lia. done.
Qed.

(** SYS_LIST_DIR with a mapped buffer of 2 bytes to 2 GiB: the caller finds in it one line
    per entry of the directory, cut after [len - 2] bytes, and a terminator; the
    length of the text is returned and no other byte of user memory changes.  A text
    that was not cut can be read back into names, sizes and kinds, when no name
    contains blanks or is longer than its column. *)
Theorem sys_list_dir_correct path buf len p s :
  in_order me s → user_ptr_ok path 1 = true → user_ptr_ok buf len = true → 2 ≤ len ≤ 2147483648 →
  user_string me path s = Some p → mapped me s buf len →
  let r := vfs_list_dir (Some p) true (ps_vfs (k_ps s)) in
  let text := take (Z.to_nat (len - 2)) (concat (list_line <$> r.1)) in
  (∃ s', sys_list_dir me path buf len s = Some (Z.of_nat (length text), s') ∧
    stored me buf (text ++ [0]) (with_ps (with_vfs r.2 (k_ps s)) s) s') ∧
  (Forall entry_ok r.1 → Z.of_nat (length (concat (list_line <$> r.1))) ≤ len - 2 → read_lines [] text = r.1).
Proof.
  intros Ho Hp Hb Hl Hstr Hm r text. assert (Z.of_nat (length text) ≤ len - 2) as Ht by (unfold text; rewrite length_take; lia).
  split.
  - pose proof (sys_list_dir_text path buf len p s Ho Hp Hb Hstr) as Hsp. rewrite room_fits in Hsp by lia. apply Hsp.
    + intros w Hw. apply Hm. fold r in Hw. fold text in Hw. lia.
    + fold r. fold text. lia.
  - intros He Hfit. unfold text. rewrite take_ge by lia. by apply read_lines_spec.
Qed.

(** With a buffer of 0 or 1 bytes the room is computed as 2^32 - 1: the whole listing is
    written, whatever its length. *)
Lemma sys_list_dir_overruns path buf len p s :
  in_order me s → user_ptr_ok path 1 = true → user_ptr_ok buf len = true → 0 ≤ len ≤ 1 →
  user_string me path s = Some p →
  let r := vfs_list_dir (Some p) true (ps_vfs (k_ps s)) in
  let text := concat (list_line <$> r.1) in
  mapped me s buf (Z.of_nat (length text) + 1) → Z.of_nat (length text) < 2147483648 →
  ∃ s', sys_list_dir me path buf len s = Some (Z.of_nat (length text), s') ∧
    stored me buf (text ++ [0]) (with_ps (with_vfs r.2 (k_ps s)) s) s'.
Proof.
  intros Ho Hp Hb Hl Hstr r text Hm Hlen. pose proof (sys_list_dir_text path buf len p s Ho Hp Hb Hstr) as Hsp.
  cbv zeta in Hsp. rewrite room_none in Hsp by lia. fold r in Hsp. fold text in Hsp. rewrite (take_ge text) in Hsp by lia. by apply Hsp.
Qed.
End Listing.

(** ** Waiting *)

Section Waiting.
Context {K H W : Type} `{!ProcessKernel K, !UserKernel K}.
Context (percpu_base me : Z).
Implicit Types s t : kst K H W.

(** From [s] the loop goes through the wake-ups [env] without ending, up to [s']. *)
Inductive idles (body : kst K H W → option (round K H W)) : list (kst K H W → kst K H W) → kst K H W → kst K H W → Prop :=
  | idles_nil s : idles body [] s s
  | idles_cons f env s s1 s' : body s = Some (R_again s1) → idles body env (f s1) s' → idles body (f :: env) s s'.

Lemma wait_idles cur body env env' regs s s' :
  idles body env s s' → wait me cur body (env ++ env') regs s = wait me cur body env' regs s'.
Proof.
  induction 1 as [|f env s s1 s' Hb _ IH]; [done|]. cbn [app wait]. rewrite Hb. obind. exact IH.
Qed.

Lemma current_hw f s :
  (∀ h, hw_gs_base (f h) = hw_gs_base h ∧ hw_kernel_gs_base (f h) = hw_kernel_gs_base h) →
  current percpu_base me (on_hw me f s) = current percpu_base me s.
Proof.
  intros Hf. unfold current, Process.process_current, get_current, percpu_current, on_hw.
  cbn [k_ps with_ps ps_cpus with_pcpus g_percpu hw upd_hw]. rewrite fn_lookup_insert.
  by destruct (Hf (hw (ps_cpus (k_ps s)) me)) as [-> ->].
Qed.

(** The process [cur] runs on this cpu and has not been told to stop. *)
Definition awake (cur : Z) s : Prop :=
  cur ≠ 0 ∧ current percpu_base me s = Some cur ∧ ∃ p, ps_procs (k_ps s) !! cur = Some p ∧ p_terminate p = false.

Lemma awake_no_terminate cur s : awake cur s → check_terminate percpu_base me s = Some (R_again s).
Proof.
  intros (Hne & Hc & p & Hp & Ht). unfold check_terminate, scheduler_terminate_requested.
  assert (Scheduler.process_current percpu_base me (sched_of s) = Some cur) as -> by exact Hc. obind.
  replace (cur =? 0) with false by lia. cbn [procs sched_of]. rewrite Hp. obind. obind. by rewrite Ht.
Qed.

Lemma current_if b s : current percpu_base me (on_hw me (set_if b) s) = current percpu_base me s.
Proof. apply current_hw. done. Qed.

Lemma on_cur_some cur f s p :
  cur ≠ 0 → ps_procs (k_ps s) !! cur = Some p →
  on_cur cur f s = Some (with_ps (with_table (<[cur := f p]> (ps_procs (k_ps s))) (k_ps s)) s).
Proof. intros Hne Hp. unfold on_cur, upd_pcb. replace (cur =? 0) with false by lia. rewrite Hp. obind. by obind. Qed.

(** The state in which a waiting loop starts. *)
Lemma start_wait_awake cur s :
  awake cur s → ∃ s', start_wait me cur s = Some s' ∧ awake cur s' ∧ scheduler_ticks s' = scheduler_ticks s.
Proof.
  intros (Hne & Hc & p & Hp & Ht). unfold start_wait. rewrite (on_cur_some cur _ s p) by done. obind.
  eexists. split; [done|]. split; [|done]. split; [done|]. split; [unfold sti; by rewrite current_if|].
  exists (set_p_blocked true p). split; [cbn; apply lookup_insert_eq|done].
Qed.

(** The end of one: the process is no longer blocked and interrupts are off again. *)
Definition wait_end (cur : Z) (b : pcb) s : kst K H W :=
  let s := cli me s in with_ps (with_table (<[cur := set_p_blocked false b]> (ps_procs (k_ps s))) (k_ps s)) s.

Lemma wait_finish cur body env regs s s' rax b :
  cur ≠ 0 → ps_procs (k_ps s') !! cur = Some b → body s = Some (R_done rax s') →
  wait me cur body env regs s = Some (Returned (set_sr_rax rax regs) (wait_end cur b s')).
Proof.
  intros Hne Hp Hb. assert (∀ e, wait me cur body e regs s =
    (t ← on_cur cur (set_p_blocked false) (cli me s'); ret rax regs t)) as Hw by (intros []; cbn [wait]; rewrite Hb; by obind).
  rewrite Hw, (on_cur_some cur _ (cli me s') b) by done. by obind.
Qed.

Lemma wait_done cur body env regs s s' rax :
  awake cur s' → body s = Some (R_done rax s') →
  ∃ t p, wait me cur body env regs s = Some (Returned (set_sr_rax rax regs) t) ∧
    ps_procs (k_ps t) !! cur = Some p ∧ p_blocked p = false ∧ scheduler_ticks t = scheduler_ticks s' ∧
    hw_if (hw (ps_cpus (k_ps t)) me) = false.
Proof.
  intros (Hne & Hc & p & Hp & Ht) Hb. rewrite (wait_finish cur body env regs s s' rax p) by done.
  eexists _, (set_p_blocked false p). split; [done|].
  split; [cbn; apply lookup_insert_eq|]. split; [done|]. split; [done|]. cbn. by rewrite fn_lookup_insert.
Qed.

(** One timer tick as the sleeper sees it. *)
Definition ticks_on (cur : Z) (f : kst K H W → kst K H W) : Prop :=
  ∀ t, awake cur t → awake cur (f t) ∧ scheduler_ticks (f t) = scheduler_ticks t + 1.

Lemma sleep_wait cur deadline env regs s :
  Forall (ticks_on cur) env → awake cur s → scheduler_ticks s ≤ deadline →
  if Z.of_nat (length env) <? deadline - scheduler_ticks s
  then ∃ t, wait me cur (sleep_round percpu_base me deadline) env regs s = Some (Waiting t)
  else ∃ t p, wait me cur (sleep_round percpu_base me deadline) env regs s = Some (Returned (set_sr_rax 0 regs) t) ∧
    ps_procs (k_ps t) !! cur = Some p ∧ p_blocked p = false ∧ scheduler_ticks t = deadline ∧
    hw_if (hw (ps_cpus (k_ps t)) me) = false.
Proof.
  intros Henv. revert s. induction Henv as [|f env Hf _ IH]; intros s Ha Hle;
    destruct (Z.eq_dec (scheduler_ticks s) deadline) as [E|E].
  1,3: rewrite (proj2 (Z.ltb_ge _ _)) by (cbn [length]; lia);
    subst deadline; apply wait_done; [done|]; unfold sleep_round; by rewrite Z.ltb_irrefl.
  all: assert (sleep_round percpu_base me deadline s = Some (R_again s)) as Hr
    by (unfold sleep_round; replace (scheduler_ticks s <? deadline) with true by lia; by apply (awake_no_terminate cur)).
  - cbn [length]. change (Z.of_nat 0) with 0. replace (0 <? deadline - scheduler_ticks s) with true by lia.
    exists s. cbn [wait]. rewrite Hr. by obind.
  - destruct (Hf s Ha) as [Ha' Ht']. specialize (IH (f s) Ha' ltac:(lia)). rewrite Ht' in IH.
    cbn [wait]. rewrite Hr. obind. cbn [length]. rewrite Nat2Z.inj_succ.
    replace (Z.succ (Z.of_nat (length env)) <? deadline - scheduler_ticks s)
      with (Z.of_nat (length env) <? deadline - (scheduler_ticks s + 1)); [exact IH|].
    apply eq_true_iff_eq. rewrite !Z.ltb_lt. lia.
Qed.

End Waiting.

(** ** Children *)

(** Stores to user memory leave the kernel's heap and the set of address spaces alone. *)
Class UserProcessOk (K : Type) `{!ProcessKernel K, !ProcessKernelOk K, !UserKernel K} : Type :=
  uk_store_pk : ∀ cr3 va b k k' X S, pk_ok k X S → uk_store cr3 va b k = Some k' → pk_ok k' X S.

Section Children.
Context {K H W : Type} `{!ProcessKernel K, !ProcessKernelOk K, !UserKernel K, !UserKernelOk K, !UserProcessOk K}.
Context (percpu_base me : Z).
Implicit Types s t : kst K H W.

Lemma write_user_pk va l s s' X S :
  write_user me va l s = Some s' → pk_ok (ps_kernel (k_ps s)) X S → pk_ok (ps_kernel (k_ps s')) X S.
Proof.
  revert va s. induction l as [|b l IH]; intros va s Hw Hk; cbn [write_user] in Hw; [by injection Hw as <-|].
  destruct (uk_store (cur_cr3 me s) va b (ps_kernel (k_ps s))) as [k|] eqn:E; [|done].
  apply (IH (va + 1) (with_ps (with_kern k (k_ps s)) s) Hw). by eapply uk_store_pk.
Qed.

Lemma app_pivot (z : Z) l1 l2 m1 m2 :
  NoDup (l1 ++ z :: l2) → NoDup (m1 ++ z :: m2) → m1 ++ z :: m2 = l1 ++ z :: l2 → m1 = l1 ∧ m2 = l2.
Proof.
  revert m1. induction l1 as [|x l1 IH]; intros [|y m1] Hl Hm E; cbn [app] in *; simplify_eq.
  - done.
  - apply NoDup_cons in Hm as [Hm _]. destruct Hm. set_solver.
  - apply NoDup_cons in Hl as [Hl _]. destruct Hl. set_solver.
  - apply NoDup_cons in Hl as [_ Hl]. apply NoDup_cons in Hm as [_ Hm]. destruct (IH m1 Hl Hm ltac:(done)) as [-> ->]. done.
Qed.

(** The children of [cur] are the chain [l] of live processes, each of which owns its
    memory; the wanted pid is [pid] (0 for any). *)
Record family (cur : Z) (b : pcb) (l : list Z) (X : gmap Z Z) (S : gset Z) s : Prop := {
  fam_pk : pk_ok (ps_kernel (k_ps s)) X S;
  fam_cur : cur ≠ 0 ∧ ps_procs (k_ps s) !! cur = Some b ∧ cur ∉ l;
  fam_chain : sib_seg (ps_procs (k_ps s)) (p_children b) l 0;
  fam_list : NoDup l ∧ Forall (λ a, 0 < a) l ∧ Z.of_nat (length l) < 2 ^ 64;
  fam_owned : ∀ z c, z ∈ l → ps_procs (k_ps s) !! z = Some c → ∃ X0, Process.owned X X0 S z c
}.

(** The status goes to a place the caller can be given it, or nowhere. *)
Definition status_ok (status : Z) s : Prop :=
  status = 0 ∨ (in_order me s ∧ is_u64 status ∧ in_window status 4 ∧ mapped me s status 4).
Definition status_stored (status : Z) (st : Z) s s' : Prop :=
  if status =? 0 then s' = s else stored me status (le_bytes 4 st) s s'.

Lemma write_status status st s :
  status_ok status s →
  ∃ s', (if truthy status && user_ptr_ok status 4 then write_user me status (le_bytes 4 st) s else Some s) = Some s' ∧
    status_stored status st s s' ∧ ∀ X S, pk_ok (ps_kernel (k_ps s)) X S → pk_ok (ps_kernel (k_ps s')) X S.
Proof.
  unfold status_stored, truthy. intros [->|(Ho & Hu & Hw & Hm)]; [by exists s|].
  assert (user_ptr_ok status 4 = true) as Hok by (apply user_ptr_ok_window; [exact Hu|lia|done]).
  destruct Hw as (Hlow & _). unfold USER_MIN, PAGING_USER_BASE in Hlow. replace (status =? 0) with false by lia.
  rewrite Hok. cbn [negb andb]. destruct (write_user_spec me status (le_bytes 4 st) s Ho) as (s' & E & Hst).
  { intros w Hw'. apply Hm. exact Hw'. }
  exists s'. split; [done|]. split; [done|]. intros X S. by apply (write_user_pk status (le_bytes 4 st)).
Qed.

Lemma waitpid_round_reaps cur want status vt b l X S s :
  family cur b l X S s → status_ok status s →
  (∃ a c, a ∈ l ∧ ps_procs (k_ps s) !! a = Some c ∧ is_zombie (if want <=? 0 then 0 else want) c = true) →
  ∃ l1 z l2 c s' p b', l = l1 ++ z :: l2 ∧ ps_procs (k_ps s) !! z = Some c ∧
    is_zombie (if want <=? 0 then 0 else want) c = true ∧
    (∀ a d, a ∈ l1 → ps_procs (k_ps s) !! a = Some d → is_zombie (if want <=? 0 then 0 else want) d = false) ∧
    status_stored status (p_exit_status c) s s' ∧
    process_reap_child cur z (k_ps s') = Some p ∧ ps_procs p !! z = None ∧
    ps_procs p !! cur = Some b' ∧ sib_seg (ps_procs p) (p_children b') (l1 ++ l2) 0 ∧
    waitpid_round percpu_base me cur want status vt s = Some (R_done (p_pid c) (with_ps p s')).
Proof.
  intros [Hpk (Hne & Hb & Hnl) Hch (Hnd & Hpos & Hlen) Hown] Hst (a & c & Ha & Hac & Hz).
  set (pid := if want <=? 0 then 0 else want) in *.
  destruct (process_wait_spec cur pid b l (k_ps s) X S) as (z & Hfind & Hcase); [done..|].
  destruct (Z.eqb_spec z 0) as [->|Hz0]; [by rewrite (Hcase a c Ha Hac) in Hz|].
  destruct Hcase as (l1 & l2 & d & El & Hd & Hzd & Hfirst & _).
  destruct (write_status status (p_exit_status d) s Hst) as (s' & Hw & Hstored & Hpk').
  assert (ps_procs (k_ps s') = ps_procs (k_ps s)) as Ep.
  { unfold status_stored in Hstored. destruct (status =? 0); [by rewrite Hstored|]. by destruct Hstored as ((k & ->) & _). }
  destruct (process_wait_spec cur pid b l (k_ps s') X S) as (z' & Hfind' & Hcase'); rewrite ?Ep; [by apply Hpk'|done..|].
  assert (z' = z) as ->.
  { unfold process_find_zombie_child in Hfind, Hfind'. rewrite Ep in Hfind'. congruence. }
  replace (z =? 0) with false in Hcase' by lia. rewrite Ep in Hcase'. destruct Hcase' as (m1 & m2 & d' & El' & Hd' & _ & _ & Hreap).
  assert (m1 = l1 ∧ m2 = l2) as [-> ->].
  { rewrite El in El'. apply (app_pivot z); [by rewrite <- El| |by rewrite El'].
    rewrite <- El', <- El. exact Hnd. }
  assert (d' = d) as -> by congruence. destruct (Hown z d) as [X0 HX0]; [rewrite El; apply elem_of_app; right; by left|done|].
  destruct (Hreap X0 HX0) as (p & b' & Hr & Hgone & Hb' & Hsib & _).
  exists l1, z, l2, d, s', p, b'. split_and!; try done. unfold waitpid_round. fold pid. rewrite Hfind. obind.
  replace (z =? 0) with false by lia. cbn [negb]. rewrite Hd. obind. rewrite Hw. obind. rewrite Hr. by obind.
Qed.

Lemma sys_waitpid_spec env env' regs cur vt b l X S s s1 s2 :
  sys_of (sr_rax regs) = Some SYS_WAITPID → cur ≠ 0 → current percpu_base me s = Some cur → vt_of cur s = Some vt →
  start_wait me cur s = Some s1 →
  let want := s64 (sr_rdi regs) in
  let pid := if want <=? 0 then 0 else want in
  idles (waitpid_round percpu_base me cur want (sr_rsi regs) vt) env s1 s2 →
  family cur b l X S s2 → status_ok (sr_rsi regs) s2 →
  (∃ a c, a ∈ l ∧ ps_procs (k_ps s2) !! a = Some c ∧ is_zombie pid c = true) →
  ∃ l1 z l2 c s3 p b', l = l1 ++ z :: l2 ∧ ps_procs (k_ps s2) !! z = Some c ∧ is_zombie pid c = true ∧
    (∀ a d, a ∈ l1 → ps_procs (k_ps s2) !! a = Some d → is_zombie pid d = false) ∧
    status_stored (sr_rsi regs) (p_exit_status c) s2 s3 ∧
    process_reap_child cur z (k_ps s3) = Some p ∧ ps_procs p !! z = None ∧
    ps_procs p !! cur = Some b' ∧ sib_seg (ps_procs p) (p_children b') (l1 ++ l2) 0 ∧
    syscall_dispatch percpu_base me (env ++ env') regs s =
      Some (Returned (set_sr_rax (p_pid c) regs) (wait_end me cur b' (with_ps p s3))).
Proof.
  intros Hsys Hne Hcur Hvt Hs1 want pid Hidle Hfam Hst Hex.
  destruct (waitpid_round_reaps cur want (sr_rsi regs) vt b l X S s2 Hfam Hst Hex)
    as (l1 & z & l2 & c & s3 & p & b' & H1 & H2 & H3 & H4 & H5 & H6 & H7 & H8 & H9 & Hround).
  exists l1, z, l2, c, s3, p, b'. split_and!; try done. unfold syscall_dispatch. rewrite Hsys. unfold sys_waitpid.
  rewrite Hcur. obind. replace (cur =? 0) with false by lia. rewrite Hvt. obind. rewrite Hs1. obind. fold want.
  rewrite (wait_idles me cur _ env env' regs s1 s2 Hidle). by apply wait_finish.
Qed.

(** C17: SYS_WAITPID comes back in the first round in which a wanted child is a zombie, whatever
    happened in the rounds before: it stores the child's exit status where the caller
    asked for it, takes the first such child out of the list of children and destroys
    it, and returns its pid with the caller unblocked and interrupts off. *)
Theorem sys_waitpid_reaps env env' regs cur vt b l X S s s1 s2 :
  sys_of (sr_rax regs) = Some SYS_WAITPID → cur ≠ 0 → current percpu_base me s = Some cur → vt_of cur s = Some vt →
  start_wait me cur s = Some s1 →
  let want := s64 (sr_rdi regs) in
  let pid := if want <=? 0 then 0 else want in
  idles (waitpid_round percpu_base me cur want (sr_rsi regs) vt) env s1 s2 →
  family cur b l X S s2 → status_ok (sr_rsi regs) s2 →
  (∃ a c, a ∈ l ∧ ps_procs (k_ps s2) !! a = Some c ∧ is_zombie pid c = true) →
  ∃ l1 z l2 c s3 p b', l = l1 ++ z :: l2 ∧ ps_procs (k_ps s2) !! z = Some c ∧ is_zombie pid c = true ∧
    (∀ a d, a ∈ l1 → ps_procs (k_ps s2) !! a = Some d → is_zombie pid d = false) ∧
    status_stored (sr_rsi regs) (p_exit_status c) s2 s3 ∧
    process_reap_child cur z (k_ps s3) = Some p ∧ ps_procs p !! z = None ∧
    ps_procs p !! cur = Some b' ∧ sib_seg (ps_procs p) (p_children b') (l1 ++ l2) 0 ∧
    syscall_dispatch percpu_base me (env ++ env') regs s =
      Some (Returned (set_sr_rax (p_pid c) regs) (wait_end me cur b' (with_ps p s3))).
Proof. apply sys_waitpid_spec. Qed.
End Children.

(** ** Reading a line *)

Section ReadLine.
Context {K H W : Type} `{!ProcessKernel K, !UserKernel K, !UserKernelOk K}.
Context (percpu_base me : Z).
Implicit Types s t : kst K H W.

(** What [tty_getline] hands over for a finished line [l]. *)
Lemma tty_getline_bytes vt buf size l k :
  0 ≤ vt < TTY_VT_MAX → 1 ≤ size → ready (Tty.vts k vt) = true → line_is (Tty.vts k vt) l →
  let n := Z.min (size - 1) (Z.of_nat (length l)) in
  ∃ m, tty_getline vt buf size (λ _, 0) k = (n, m, with_vt k vt (with_line (Tty.vts k vt) (line (Tty.vts k vt)) 0 false)) ∧
    ((λ i, m (buf + Z.of_nat i)) <$> seq 0 (Z.to_nat n)) = take (Z.to_nat n) l.
Proof.
  intros Hvt Hs Hr [Hlen Hc] n. unfold tty_getline. replace (TTY_VT_MAX <=? vt) with false by lia. rewrite Hr. cbn [negb].
  replace (if size - 1 <? len (Tty.vts k vt) then size - 1 else len (Tty.vts k vt)) with n
    by (unfold n; rewrite Hlen; destruct (Z.ltb_spec (size - 1) (Z.of_nat (length l))); lia).
  eexists. split; [done|]. apply list_eq. intros i. rewrite list_lookup_fmap.
  destruct (decide (i < Z.to_nat n)%nat) as [Hi|Hi].
  - rewrite lookup_seq_lt, lookup_take_lt by done. cbn [fmap option_fmap option_map Nat.add].
    destruct (lookup_lt_is_Some_2 l i) as [c Hl]; [unfold n in Hi; lia|]. rewrite Hl. destruct (Hc i c Hl) as [E Hcr].
    unfold store8 at 1. replace (buf + Z.of_nat i =? buf + n) with false by lia. rewrite copy_line_mem by lia.
    replace ((buf <=? buf + Z.of_nat i) && (buf + Z.of_nat i <? buf + n)) with true by (symmetry; apply andb_true_iff; lia).
    replace (buf + Z.of_nat i - buf) with (Z.of_nat i) by lia. rewrite E. by rewrite u8_small by lia.
  - rewrite lookup_seq_ge, lookup_take_ge by lia. done.
Qed.

Lemma line_round_reads vt buf len l s :
  0 ≤ vt < TTY_VT_MAX → 1 ≤ len < 2147483648 → in_order me s → mapped me s buf len →
  let k := k_kbd (drain s) in
  ready (Tty.vts k vt) = true → line_is (Tty.vts k vt) l →
  let text := take (Z.to_nat (len - 1)) l in
  ∃ s', line_round percpu_base me vt buf len s = Some (R_done (Z.of_nat (length text)) s') ∧
    stored me buf (text ++ [0])
      (with_kbd (with_vt k vt (with_line (Tty.vts k vt) (line (Tty.vts k vt)) 0 false)) (drain s)) s'.
Proof.
  intros Hvt Hlen Ho Hm k Hr Hl text. unfold line_round, tty_line_ready. fold k. replace (TTY_VT_MAX <=? vt) with false by lia.
  rewrite Hr. unfold read_line. rewrite s32_id by lia. fold k.
  destruct (tty_getline_bytes vt buf len l k Hvt ltac:(lia) Hr Hl) as (m & -> & Hbytes).
  set (n := Z.min (len - 1) (Z.of_nat (length l))) in *.
  assert (take (Z.to_nat n) l = text) as Ht.
  { unfold text, n. destruct (Z.le_ge_cases (len - 1) (Z.of_nat (length l))); [by rewrite Z.min_l|].
    rewrite Z.min_r, !take_ge by lia. done. }
  assert (Z.of_nat (length text) = n) as Hn by (rewrite <- Ht, length_take; lia).
  rewrite Hbytes, Ht. set (s0 := with_kbd _ (drain s)).
  destruct (write_user_spec me buf text s0) as (s1 & -> & (k1 & E1) & Ho1 & Hv1); [done|intros w Hw; apply (Hm w); lia|]. obind.
  destruct (write_user_spec me (buf + n) [0] s1) as (s2 & -> & (k2 & E2) & Ho2 & Hv2); [done| |].
  { intros w Hw. cbn [length] in Hw. destruct (Hm w ltac:(lia)) as [Hu Hb]. split; [done|]. rewrite Hv1 by done.
    replace ((buf <=? w) && (w <? buf + Z.of_nat (length text))) with false; [done|].
    symmetry. apply andb_false_iff. rewrite Z.leb_gt, Z.ltb_ge. lia. }
  obind. exists s2. rewrite u64_small by lia. split; [by rewrite Hn|]. split; [|split; [done|]].
  { exists k2. by rewrite E2, E1. }
  intros w Hw. rewrite Hv2, Hv1 by done. rewrite length_app, Nat2Z.inj_add. cbn [length]. change (Z.of_nat 1) with 1.
  rewrite Hn. destruct (Z.eq_dec w (buf + n)) as [->|Hne].
  - replace ((buf + n <=? buf + n) && (buf + n <? buf + n + 1)) with true by lia.
    replace ((buf <=? buf + n) && (buf + n <? buf + (n + 1))) with true by lia. rewrite Z.sub_diag.
    rewrite lookup_app_r by lia. by replace (Z.to_nat (buf + n - buf) - length text)%nat with O by lia.
  - replace ((buf + n <=? w) && (w <? buf + n + 1)) with false by lia.
    replace ((buf <=? w) && (w <? buf + (n + 1))) with ((buf <=? w) && (w <? buf + n)) by lia.
    destruct ((buf <=? w) && (w <? buf + n)) eqn:E; [|done]. rewrite lookup_app_l by lia. done.
Qed.

(** SYS_READ on descriptor 0 of a terminal in canonical mode comes back in the first round in
    which a line is finished, with at most [len - 1] of its bytes and a terminator in
    the caller's buffer, their number in rax, the line taken out of the terminal and
    every other byte of user memory as it was. *)
Theorem sys_read_line env env' regs cur b vt l s s1 s2 :
  sys_of (sr_rax regs) = Some SYS_READ → sr_rdi regs = 0 → 1 ≤ sr_rdx regs < 2147483648 →
  user_ptr_ok (sr_rsi regs) (sr_rdx regs) = true →
  cur ≠ 0 → current percpu_base me s = Some cur → vt_of cur s = Some vt → 0 ≤ vt < TTY_VT_MAX →
  tty_raw_mode vt (k_kbd s) = false → start_wait me cur s = Some s1 →
  idles (line_round percpu_base me vt (sr_rsi regs) (sr_rdx regs)) env s1 s2 →
  in_order me s2 → mapped me s2 (sr_rsi regs) (sr_rdx regs) → ps_procs (k_ps s2) !! cur = Some b →
  let k := k_kbd (drain s2) in
  ready (Tty.vts k vt) = true → line_is (Tty.vts k vt) l →
  let text := take (Z.to_nat (sr_rdx regs - 1)) l in
  ∃ s3, stored me (sr_rsi regs) (text ++ [0])
      (with_kbd (with_vt k vt (with_line (Tty.vts k vt) (line (Tty.vts k vt)) 0 false)) (drain s2)) s3 ∧
    syscall_dispatch percpu_base me (env ++ env') regs s =
      Some (Returned (set_sr_rax (Z.of_nat (length text)) regs) (wait_end me cur b s3)).
Proof.
  intros Hsys Hfd Hlen Hptr Hne Hcur Hvt Hvtr Hmode Hs1 Hidle Ho Hm Hb k Hr Hl text.
  destruct (line_round_reads vt (sr_rsi regs) (sr_rdx regs) l s2 Hvtr Hlen Ho Hm Hr Hl) as (s3 & Hround & Hst).
  exists s3. split; [exact Hst|]. unfold syscall_dispatch. rewrite Hsys. unfold sys_read. rewrite Hfd, Hptr.
  replace (sr_rdx regs =? 0) with false by lia. change (s64 0 =? 0) with true. cbn [negb]. unfold read_tty.
  rewrite Hcur. obind. rewrite Hvt. obind. rewrite Hmode, Hs1. obind.
  rewrite (wait_idles me cur _ env env' regs s1 s2 Hidle). apply (wait_finish me cur _ env' regs s2 s3); [done| |exact Hround].
  destruct Hst as ((k3 & ->) & _). exact Hb.
Qed.
End ReadLine.
