(* ===== verification/SyscallDemo.v ===== *)
(** The theorems on system calls at a concrete state.

    The small memory layer of Machine.v is given one page of user memory, shared by
    its address spaces, and a process runs on the first cpu: with a child that has
    ended, a terminal in canonical mode, and a file system that can be listed. *)

From stdpp Require Import prelude numbers functions list gmap strings.
From Stdlib Require Import ZArith Lia.
From S2P Require Import Prelude Memory Frames Pmm Kheap Alloc Paging Screen Digits Term Tty Bytes Pcb Percpu Scheduler Elf Image ImageDemo Vfs Process Machine SysText Mmap Syscall SyscallSpec.

Open Scope Z_scope.

(** ** User memory for the small memory layer *)

Definition toy_page (va : Z) : bool := (USER_MIN <=? va) && (va <? USER_MIN + 4096).

#[export] Instance toy_user : UserKernel toy := {|
  uk_load cr3 va k := if toy_page va then Some (u8 (default 0 (head (toy_bufs k va)))) else None;
  uk_store cr3 va b k :=
    if toy_page va then Some (Toy (toy_next k) (toy_space k) (λ x, if x =? va then [b] else toy_bufs k x)) else None;
  uk_mmap cr3 cursor len k := (SYS_ERROR, cursor, k);
  uk_munmap cr3 addr len k := (-1, k)
|}.

#[export] Program Instance toy_user_ok : UserKernelOk toy := {| uk_ok := λ _ _, True |}.
Next Obligation.
  intros cr3 va b k _ _ Hl. cbn [uk_load uk_store toy_user] in *.
  destruct (toy_page va) eqn:Hp; [|by destruct Hl]. eexists. split; [done|]. split; [done|].
  intros w _. cbn [toy_bufs]. destruct (Z.eqb_spec w va) as [->|]; [by rewrite Hp|done].
Qed.

#[export] Instance toy_user_process : UserProcessOk toy.
Proof.
  intros cr3 va b k k' X S Hk Hs. cbn [uk_store toy_user] in Hs. destruct (toy_page va); [|done].
  injection Hs as <-. exact Hk.
Qed.

(** ** The state *)

(** A root directory with a file and a directory. *)
Definition demo_entries : list (list Z * Z * bool) := [([97; 46; 99], 1234, false); ([98; 105; 110], 0, true)].
Definition listfs : fs_type (list Z) := {|
  fs_name := Some [108];
  fs_probe := None; fs_mount := None; fs_read_file := None;
  fs_write_file := None; fs_stat_file := None; fs_read_at := None; fs_write_at := None;
  fs_list_dir := Some (λ ctx p w, (demo_entries, w));
  fs_mkdir := None; fs_remove := None
|}.

(** The terminal after a line has been typed. *)
Definition demo_kbd : kbd := foldl (λ k c, tty_input_char c k) (keyboard_stack_init kbd_bss) [104; 105; 10].

Definition demo_user_kernel : toy := Toy 1048576 10 (λ x, if x =? USER_MIN then [slash] else []).
Definition demo_kst : kst toy (heap pmm) (list Z) := {|
  k_ps := PState demo_user_kernel (ps_procs demo_state) 4 demo_cpus
            (Vfs [listfs] 1 [Mount [slash] listfs 1 5] demo_heap demo_elf);
  k_rq := λ _, CpuRq 0 0 0 0 0; k_lock := false; k_uptime := 100; k_ncpu := 1;
  k_kbd := demo_kbd; k_con := demo_console; k_video := true; k_serial_in := []
|}.

Definition demo_call (rax rdi rsi rdx : Z) : syscall_regs := SyscallRegs rax 0 0 rdx rsi rdi 0 0 0 0 0 0 0 0 0.

Lemma demo_awake : awake demo_base 0 4096 demo_kst.
Proof. split; [done|]. split; [reflexivity|]. exists demo_parent. split; reflexivity. Qed.

Lemma demo_mapped n va : USER_MIN ≤ va → va + n ≤ USER_MIN + 4096 → mapped 0 demo_kst va n.
Proof.
  intros Hl Hu w Hw. unfold ubyte. cbn [uk_load toy_user].
  replace (toy_page w) with true by (unfold toy_page; lia). split; [|by eexists].
  unfold user_addr, USER_MIN, USER_MAX, PAGING_USER_BASE, PROCESS_USER_STACK_TOP in *. lia.
Qed.

(** ** Witnesses *)


Lemma demo_entries_ok : Forall entry_ok demo_entries.
Proof.
  unfold demo_entries. repeat (apply Forall_cons; split); try apply Forall_nil; try done.
  all: split; [repeat (apply Forall_cons; split); try apply Forall_nil; done|split; [vm_compute; lia|lia]].
Qed.

Lemma sys_list_dir_witness :
  (∃ s', sys_list_dir 0 USER_MIN (USER_MIN + 16) 200 demo_kst = Some (103, s')) ∧
  read_lines [] (take 198 (concat (list_line <$> demo_entries))) = demo_entries.
Proof.
  destruct (sys_list_dir_correct 0 USER_MIN (USER_MIN + 16) 200 [slash] demo_kst) as [(s' & E & _) Hread];
    [exact I|reflexivity|reflexivity|lia|vm_compute; reflexivity|apply demo_mapped; lia|]. split.
  - exists s'. etransitivity; [exact E|]. vm_compute. reflexivity.
  - apply Hread; [exact demo_entries_ok|vm_compute; discriminate].
Defined.

(** A tick that only counts. *)
Definition demo_tick (s : kst toy (heap pmm) (list Z)) : kst toy (heap pmm) (list Z) :=
  KSt (k_ps s) (k_rq s) (k_lock s) (k_uptime s + 1) (k_ncpu s) (k_kbd s) (k_con s) (k_video s) (k_serial_in s).

Lemma demo_tick_on : ticks_on demo_base 0 4096 demo_tick.
Proof. intros t Ht. split; [exact Ht|reflexivity]. Qed.


(** The state in which the process waits. *)
Definition demo_waiting : kst toy (heap pmm) (list Z) :=
  sti 0 (with_ps (with_table (<[4096 := set_p_blocked true demo_parent]> (ps_procs (k_ps demo_kst))) (k_ps demo_kst)) demo_kst).

Lemma demo_start : start_wait 0 4096 demo_kst = Some demo_waiting.
Proof.
  unfold start_wait. pose proof (on_cur_some 4096 (set_p_blocked true) demo_kst demo_parent ltac:(done) eq_refl) as E.
  rewrite E. obind. unfold demo_waiting. reflexivity.
Qed.

(** The family of the process: the chain 8192, 12288, of which the second has ended. *)
Definition demo_heap_of : gmap Z Z :=
  <[131072 := PROCESS_KSTACK_SIZE]> (<[49152 := PROCESS_KSTACK_SIZE]> (<[12288 := sizeof_process]>
    (<[8192 := sizeof_process]> {[4096 := sizeof_process]}))).

Lemma demo_family : family 4096 (set_p_blocked true demo_parent) [8192; 12288] demo_heap_of demo_spaces demo_waiting.
Proof.
  split.
  - change (toy_ok demo_user_kernel demo_heap_of demo_spaces). split; [done|]. split; [done|]. split.
    + intros p [n Hp]. unfold demo_heap_of in Hp. rewrite !lookup_insert_Some, lookup_singleton_Some in Hp.
      cbn [toy_next demo_user_kernel]. lia.
    + intros c Hc. unfold demo_spaces in Hc. cbn [toy_space demo_user_kernel]. set_solver by lia.
  - split; [done|]. split; [reflexivity|]. set_solver.
  - cbn [sib_seg]. split; [reflexivity|]. split; [discriminate|]. exists demo_child. split; [reflexivity|].
    split; [reflexivity|]. split; [discriminate|]. exists demo_zombie. split; reflexivity.
  - split; [apply NoDup_cons; split; [set_solver|apply NoDup_singleton]|]. split; [repeat constructor|simpl; lia].
  - intros z c [->|[->|Hz%elem_of_nil]%elem_of_cons]%elem_of_cons Hc; [| |done].
    + assert (Some demo_child = Some c) as [= <-] by (rewrite <- Hc; reflexivity).
      exists (delete 49152 (delete 8192 demo_heap_of)). split; [|split; [reflexivity|unfold demo_spaces; set_solver]].
      right. exists 49152. split_and!; try (discriminate || reflexivity || lia).
    + assert (Some demo_zombie = Some c) as [= <-] by (rewrite <- Hc; reflexivity).
      exists (delete 131072 (delete 12288 demo_heap_of)). split; [|split; [reflexivity|unfold demo_spaces; set_solver]].
      right. exists 131072. split_and!; try (discriminate || reflexivity || lia).
Qed.

Lemma sys_waitpid_witness :
  ∃ t, syscall_dispatch demo_base 0 [] (demo_call 18 (-1) (USER_MIN + 64) 0) demo_kst =
    Some (Returned (set_sr_rax 3 (demo_call 18 (-1) (USER_MIN + 64) 0)) t).
Proof.
  destruct (sys_waitpid_reaps demo_base 0 [] [] (demo_call 18 (-1) (USER_MIN + 64) 0) 4096 0
    (set_p_blocked true demo_parent) [8192; 12288] demo_heap_of demo_spaces demo_kst demo_waiting demo_waiting)
    as (l1 & z & l2 & c & s3 & p & b' & El & Hc & Hz & Hno & _ & _ & _ & _ & _ & E).
  - reflexivity.
  - discriminate.
  - reflexivity.
  - reflexivity.
  - exact demo_start.
  - apply idles_nil.
  - exact demo_family.
  - right. split; [exact I|]. split; [by vm_compute|]. split; [by vm_compute|].
    exact (demo_mapped 4 (USER_MIN + 64) ltac:(lia) ltac:(lia)).
  - exists 12288, demo_zombie. split; [set_solver|]. split; reflexivity.
  - eexists. etransitivity; [exact E|]. do 3 f_equal.
    assert (z ∈ [8192; 12288]) as [->|[->|Hn%elem_of_nil]%elem_of_cons]%elem_of_cons; [rewrite El; set_solver| | |done].
    + assert (Some demo_child = Some c) as [= <-] by (rewrite <- Hc; reflexivity). by vm_compute in Hz.
    + assert (Some demo_zombie = Some c) as [= <-] by (rewrite <- Hc; reflexivity). reflexivity.
Defined.

Lemma sys_read_line_witness :
  ∃ s3, (∃ t, syscall_dispatch demo_base 0 [] (demo_call 2 0 (USER_MIN + 64) 100) demo_kst =
      Some (Returned (set_sr_rax 3 (demo_call 2 0 (USER_MIN + 64) 100)) t) ∧
      t = wait_end 0 4096 (set_p_blocked true demo_parent) s3) ∧
    ubyte 0 s3 (USER_MIN + 64) = Some 104 ∧ ubyte 0 s3 (USER_MIN + 67) = Some 0.
Proof.
  destruct (sys_read_line demo_base 0 [] [] (demo_call 2 0 (USER_MIN + 64) 100) 4096 (set_p_blocked true demo_parent) 0
    [104; 105; 10] demo_kst demo_waiting demo_waiting) as (s3 & (_ & _ & Hv) & E).
  - reflexivity.
  - reflexivity.
  - cbn. lia.
  - reflexivity.
  - discriminate.
  - reflexivity.
  - reflexivity.
  - unfold TTY_VT_MAX. lia.
  - reflexivity.
  - exact demo_start.
  - apply idles_nil.
  - exact I.
  - exact (demo_mapped 100 (USER_MIN + 64) ltac:(lia) ltac:(lia)).
  - reflexivity.
  - reflexivity.
  - split; [reflexivity|]. intros i c Hi. destruct i as [|[|[|i]]]; simpl in Hi; simplify_eq; by vm_compute.
  - exists s3. split; [eexists; split; [exact E|done]|]. split.
    + rewrite Hv by (by vm_compute). vm_compute. reflexivity.
    + rewrite Hv by (by vm_compute). vm_compute. reflexivity.
Defined.
