(* ===== verification/Lifecycle.v ===== *)
(** Processes from [fork] to [waitpid].

    The system calls that create and end processes go through the process table, the
    memory of Process.v and the queues of Scheduler.v.  [kernel_memory_ok] discharges
    what the scheduler asks of the memory of processes with what Process.v asks of the
    memory layer: the invariant that ties the table to the heap and to the address
    spaces ([layout]) is the [pm_ok] of the scheduler.  With it the theorems of both
    components compose: a forked child is queued with the invariant of the queues
    kept, and the code given to [exit] is what the parent's [waitpid] stores. *)

From stdpp Require Import prelude numbers functions list gmap strings.
From Stdlib Require Import ZArith Lia.
From S2P Require Import Prelude Memory Frames Pmm Kheap Alloc Paging Screen Digits Term Tty Bytes Pcb Percpu Scheduler Elf Image Vfs Process Machine SysText Mmap Syscall SyscallSpec SyscallDemo.

Open Scope Z_scope.

(** ** The memory of the processes *)

(** The block of the kernel stack.  A process whose stack could not be allocated has a
    top but no block: the pointer it frees is null. *)
Definition stack_of (p : pcb) : option Z :=
  if p_kernel_stack_top p =? 0 then None
  else let k := u64 (p_kernel_stack_top p - PROCESS_KSTACK_SIZE) in if k =? 0 then None else Some k.

Record layout (P : gmap Z pcb) (X : gmap Z Z) (S : gset Z) : Prop := {
  lay_block : ∀ a p, P !! a = Some p → is_Some (X !! a) ∧ p_cr3 p ∈ S;
  lay_stack : ∀ a p k, P !! a = Some p → stack_of p = Some k → is_Some (X !! k) ∧ P !! k = None;
  lay_apart : ∀ a b p q, P !! a = Some p → P !! b = Some q → a ≠ b →
    p_cr3 p ≠ p_cr3 q ∧ ∀ k, stack_of p = Some k → stack_of q ≠ Some k
}.

Lemma stack_of_owned p q : Scheduler.owned p = Scheduler.owned q → stack_of p = stack_of q ∧ p_cr3 p = p_cr3 q.
Proof. intros [= E1 E2]. unfold stack_of. by rewrite E1, E2. Qed.

Lemma owned_lookup (P P' : gmap Z pcb) a p :
  (∀ a, Scheduler.owned <$> P' !! a = Scheduler.owned <$> P !! a) → P' !! a = Some p →
  ∃ p0, P !! a = Some p0 ∧ stack_of p = stack_of p0 ∧ p_cr3 p = p_cr3 p0.
Proof.
  intros E Hp. specialize (E a). rewrite Hp in E. destruct (P !! a) as [p0|]; [|done]. exists p0. split; [done|].
  apply stack_of_owned. by apply (inj Some).
Qed.

Lemma layout_ext P P' X S :
  (∀ a, Scheduler.owned <$> P' !! a = Scheduler.owned <$> P !! a) → layout P X S → layout P' X S.
Proof.
  intros E [Hb Hs Ha]. split.
  - intros a p Hp. destruct (owned_lookup P P' a p E Hp) as (p0 & Hp0 & _ & ->). by apply (Hb a).
  - intros a p k Hp Hk. destruct (owned_lookup P P' a p E Hp) as (p0 & Hp0 & Es & _). rewrite Es in Hk.
    destruct (Hs a p0 k Hp0 Hk) as [? Hn]. split; [done|]. specialize (E k). rewrite Hn in E. by destruct (P' !! k).
  - intros a b p q Hp Hq Hab. destruct (owned_lookup P P' a p E Hp) as (p0 & Hp0 & Es & ->).
    destruct (owned_lookup P P' b q E Hq) as (q0 & Hq0 & -> & ->). rewrite Es. by apply (Ha a b).
Qed.

Section Memory.
Context {K : Type} `{!ProcessKernel K, !ProcessKernelOk K}.
Implicit Types (k : K) (P : gmap Z pcb) (X : gmap Z Z) (S : gset Z).

(** A process is destroyed: its stack, its address space and its block are gone and
    the other processes keep theirs. *)
Lemma layout_destroy P X S k a p :
  pk_ok k X S → layout P X S → P !! a = Some p →
  ∃ k' X', pm_destroy p a k = Some k' ∧ pk_ok k' X' (S ∖ {[p_cr3 p]}) ∧ layout (delete a P) X' (S ∖ {[p_cr3 p]}).
Proof.
  intros Hk [Hb Hs Ha] Hp. destruct (Hb a p Hp) as [HXa Hc].
  set (X1 := match stack_of p with Some s => delete s X | None => X end).
  assert (∀ b q, P !! b = Some q → is_Some (X1 !! b)) as HX1.
  { intros b q Hq. unfold X1. destruct (stack_of p) as [s|] eqn:Es; [|by apply (Hb b q)].
    destruct (Hs a p s Hp Es) as [_ Hn]. rewrite lookup_delete_ne by congruence. by apply (Hb b q). }
  assert (∃ k1, (if truthy (p_kernel_stack_top p) then pk_free (u64 (p_kernel_stack_top p - PROCESS_KSTACK_SIZE)) k else Some k)
                = Some k1 ∧ pk_ok k1 X1 S) as (k1 & Ek1 & Hk1).
  { unfold X1, stack_of, truthy in *. destruct (p_kernel_stack_top p =? 0) eqn:E0; cbn [negb]; [by exists k|].
    destruct (Z.eqb_spec (u64 (p_kernel_stack_top p - PROCESS_KSTACK_SIZE)) 0) as [E|E].
    - rewrite E. exists k. split; [apply pk_free_null|done].
    - apply pk_free_spec; [done|]. apply (Hs a p _ Hp). unfold stack_of. rewrite E0. by destruct (Z.eqb_spec (u64 (p_kernel_stack_top p - PROCESS_KSTACK_SIZE)) 0). }
  pose proof (pk_free_space_spec k1 X1 S (p_cr3 p) Hk1 Hc) as Hk2.
  destruct (pk_free_spec _ _ _ a Hk2 (HX1 a p Hp)) as (k' & Ek' & Hk').
  exists k', (delete a X1). split; [unfold pm_destroy, kernel_memory; rewrite Ek1; by obind|]. split; [done|]. split.
  - intros b q [Hne Hq]%lookup_delete_Some. rewrite lookup_delete_ne by done. split; [by apply (HX1 b q)|].
    destruct (Hb b q Hq) as [_ Hcq]. destruct (Ha a b p q Hp Hq Hne) as [Hcc _]. set_solver.
  - intros b q s [Hne Hq]%lookup_delete_Some Es. destruct (Hs b q s Hq Es) as [HXs Hn].
    split; [|rewrite lookup_delete_None; by right]. assert (s ≠ a) as Hsa by congruence. rewrite lookup_delete_ne by done.
    unfold X1. destruct (stack_of p) as [s'|] eqn:Es'; [|done]. rewrite lookup_delete_ne; [done|]. intros <-.
    by apply (proj2 (Ha a b p q Hp Hq Hne) s').
  - intros b c q r [_ Hq]%lookup_delete_Some [_ Hr]%lookup_delete_Some. by apply (Ha b c).
Qed.

(** The table, the heap and the address spaces fit together. *)
Definition layout_ok P k : Prop := ∃ X S, pk_ok k X S ∧ layout P X S.

#[export] Program Instance kernel_memory_ok : ProcessMemoryOk K := {| pm_ok := layout_ok |}.
Next Obligation. intros P P' k E (X & S & Hk & Hl). exists X, S. split; [done|]. by apply (layout_ext P). Qed.
Next Obligation.
  intros P k a p (X & S & Hk & Hl) Hp. destruct (layout_destroy P X S k a p Hk Hl Hp) as (k' & X' & E & Hk' & Hl').
  exists k'. split; [done|]. by exists X', (S ∖ {[p_cr3 p]}).
Qed.

(** A new process in a layout. *)
Lemma layout_add P X X' S a p c :
  layout P X S → X !! a = None → 0 < a → c ∉ S → p_cr3 p = c → stack_taken X X' a (p_kernel_stack_top p) →
  layout (<[a := p]> P) X' ({[c]} ∪ S).
Proof.
  intros [Hb Hs Ha] Hn Ha0 Hc Ec Hst.
  assert (P !! a = None) as HPa by (destruct (P !! a) as [q|] eqn:E; [destruct (Hb a q E) as [[? ?] _]; congruence|done]).
  assert (is_Some (X' !! a) ∧ (∀ x, is_Some (X !! x) → is_Some (X' !! x)) ∧
          ∀ j, stack_of p = Some j → is_Some (X' !! j) ∧ X !! j = None ∧ j ≠ a) as (HXa & Hmon & Hsk).
  { destruct Hst as [[Et ->]|(s & Hsr & Et & Hsa & Hsn & ->)].
    - split; [rewrite lookup_insert_eq; by eexists|]. split.
      + intros x Hx. destruct (decide (a = x)) as [->|]; [rewrite lookup_insert_eq; by eexists|by rewrite lookup_insert_ne].
      + intros j. unfold stack_of. rewrite Et. done.
    - split; [rewrite lookup_insert_ne, lookup_insert_eq by done; by eexists|]. split.
      + intros x Hx. destruct (decide (s = x)) as [->|]; [rewrite lookup_insert_eq; by eexists|]. rewrite lookup_insert_ne by done.
        destruct (decide (a = x)) as [->|]; [rewrite lookup_insert_eq; by eexists|by rewrite lookup_insert_ne].
      + intros j. unfold stack_of. rewrite Et. replace (s + PROCESS_KSTACK_SIZE =? 0) with false by (unfold PROCESS_KSTACK_SIZE; lia).
        replace (s + PROCESS_KSTACK_SIZE - PROCESS_KSTACK_SIZE) with s by lia. rewrite u64_small by lia.
        replace (s =? 0) with false by lia. intros [= <-]. split; [rewrite lookup_insert_eq; by eexists|]. done. }
  assert (∀ b q j, P !! b = Some q → stack_of q = Some j → stack_of p ≠ Some j) as Hold.
  { intros b q j Hq Ej Ej'. destruct (Hs b q j Hq Ej) as [[? ?] _]. destruct (Hsk j Ej') as (_ & ? & _). congruence. }
  split.
  - intros b q [[<- <-]|[Hne Hq]]%lookup_insert_Some; [split; [done|set_solver]|]. destruct (Hb b q Hq) as [? ?].
    split; [by apply Hmon|set_solver].
  - intros b q j [[<- <-]|[Hne Hq]]%lookup_insert_Some Ej.
    + destruct (Hsk j Ej) as (HXk & Hkn & Hka). split; [done|]. rewrite lookup_insert_ne by done.
      destruct (P !! j) as [r|] eqn:E; [|done]. destruct (Hb j r E) as [[? ?] _]. congruence.
    + destruct (Hs b q j Hq Ej) as [HXk HPk]. split; [by apply Hmon|]. rewrite lookup_insert_ne; [done|].
      intros <-. destruct HXk. congruence.
  - intros b d q r [[<- <-]|[Hne Hq]]%lookup_insert_Some [[<- <-]|[Hne' Hr]]%lookup_insert_Some Hbd; [done| | |by apply (Ha b d)].
    + split; [destruct (Hb d r Hr) as [_ ?]; congruence|]. intros j Ej Ej'. by apply (Hold d r j).
    + split; [destruct (Hb b q Hq) as [_ ?]; congruence|]. intros j Ej Ej'. by apply (Hold b q j).
Qed.
End Memory.

(** ** Exit and wait *)

Section Life.
Context {K H W : Type} `{!ProcessKernel K, !ProcessKernelOk K, !UserKernel K, !UserKernelOk K, !UserProcessOk K}.
Context (percpu_base me : Z).
Implicit Types (s t : kst K H W) (q : Z → list Z).

Lemma sched_put (x : sched K) s : sched_of (put_sched x s) = x.
Proof. by destruct x. Qed.

Lemma exit_status_value v : s32 (Z.shiftl (Z.land v 0xFF) 8) = 256 * (v mod 256).
Proof.
  change 0xFF with (Z.ones 8). rewrite Z.land_ones by lia. rewrite Z.shiftl_mul_pow2 by lia. change (2 ^ 8) with 256.
  pose proof (Z.mod_pos_bound v 256 ltac:(lia)). rewrite s32_id by lia. lia.
Qed.

Lemma exit_status_bytes v : le_bytes 4 (256 * (v mod 256)) = [0; v mod 256; 0; 0].
Proof.
  pose proof (Z.mod_pos_bound v 256 ltac:(lia)) as Hv. set (c := v mod 256) in *. clearbody c.
  assert (∀ i, Z.shiftr (256 * c) (8 * i) = 256 * c / 2 ^ (8 * i) ∨ i < 0) as Hs.
  { intros i. destruct (Z.lt_ge_cases i 0); [by right|]. left. apply Z.shiftr_div_pow2. lia. }
  unfold le_bytes. cbn [seq fmap list_fmap]. repeat f_equal.
  - destruct (Hs (Z.of_nat 0)) as [->|]; [|lia]. change (2 ^ (8 * Z.of_nat 0)) with 1. unfold u8. rewrite Z.div_1_r. rewrite Z.mul_comm. apply Z_mod_mult.
  - destruct (Hs (Z.of_nat 1)) as [->|]; [|lia]. change (2 ^ (8 * Z.of_nat 1)) with 256. rewrite Z.mul_comm, Z.div_mul by lia. by apply u8_small.
  - destruct (Hs (Z.of_nat 2)) as [->|]; [|lia]. change (2 ^ (8 * Z.of_nat 2)) with 65536. rewrite Z.div_small by lia. done.
  - destruct (Hs (Z.of_nat 3)) as [->|]; [|lia]. change (2 ^ (8 * Z.of_nat 3)) with 16777216. rewrite Z.div_small by lia. done.
Qed.

(** A process with a parent exits: it is in no queue any more, and what is left of it
    holds the encoded code. *)
Lemma sys_exit_spec regs q s z p :
  wf percpu_base q (sched_of s) → cpu_in me → cur_of (sched_of s) me = z → z ≠ 0 →
  ps_procs (k_ps s) !! z = Some p → p_parent p ≠ 0 →
  ∃ out s' c, sys_exit percpu_base me regs s = Some (Left out s') ∧ wf percpu_base (q_drop q me z) (sched_of s') ∧
    ps_procs (k_ps s') !! z = Some c ∧ p_state c = PROC_ZOMBIE ∧ p_exit_status c = 256 * (sr_rdi regs mod 256) ∧
    p_pid c = p_pid p ∧ p_parent c = p_parent p ∧ p_next_sibling c = p_next_sibling p.
Proof.
  intros Hwf Hme Hcur Hz Hp Hpar. unfold sys_exit.
  destruct (exit_spec percpu_base q (sched_of s) me (Z.shiftl (Z.land (sr_rdi regs) 0xFF) 8) Hwf Hme)
    as (out & x & -> & Hw & _ & _ & Hg & _). obind. rewrite Hcur in Hg. cbn [procs sched_of] in Hg. rewrite Hp in Hg.
  unfold gone in Hg. rewrite exit_status_value in Hg. unfold truthy in Hg. replace (p_parent p =? 0) with false in Hg by lia.
  cbn [negb] in Hg. destruct Hg as (c & Hc & Hst & Hes & Hpc & Hpid & Hsib).
  exists out, (put_sched x s), c. split; [done|]. rewrite sched_put. unfold exit_queue in Hw. rewrite Hcur in Hw.
  replace (z =? 0) with false in Hw by lia. split; [done|]. done.
Qed.

(** C13: From [exit] to [waitpid].  A process with a parent that calls SYS_EXIT leaves every queue
    and stays as a zombie.  When the parent's SYS_WAITPID for its pid, on whatever cpu
    and after whatever rounds of waiting, sees the table as the exit left it, the call
    returns the pid, the process is gone, and the caller's status word is the bytes
    0, code mod 256, 0, 0. *)
Theorem exit_status_reaches_parent env regs q s z p :
  sys_of (sr_rax regs) = Some SYS_EXIT →
  wf percpu_base q (sched_of s) → cpu_in me → cur_of (sched_of s) me = z → z ≠ 0 →
  ps_procs (k_ps s) !! z = Some p → p_parent p ≠ 0 → 0 < p_pid p < 2 ^ 63 →
  ∃ out s', syscall_dispatch percpu_base me env regs s = Some (Left out s') ∧
    wf percpu_base (q_drop q me z) (sched_of s') ∧
    ∀ me' wenv wenv' wregs vt b l X S t0 t1 t2,
      sys_of (sr_rax wregs) = Some SYS_WAITPID → sr_rdi wregs = p_pid p →
      current percpu_base me' t0 = Some (p_parent p) → vt_of (p_parent p) t0 = Some vt →
      start_wait me' (p_parent p) t0 = Some t1 →
      idles (waitpid_round percpu_base me' (p_parent p) (p_pid p) (sr_rsi wregs) vt) wenv t1 t2 →
      ps_procs (k_ps t2) = ps_procs (k_ps s') → family (p_parent p) b l X S t2 → z ∈ l →
      (∀ y d, y ∈ l → ps_procs (k_ps t2) !! y = Some d → p_pid d = p_pid p → y = z) →
      status_ok me' (sr_rsi wregs) t2 →
      ∃ t3 t4, syscall_dispatch percpu_base me' (wenv ++ wenv') wregs t0 = Some (Returned (set_sr_rax (p_pid p) wregs) t4) ∧
        ps_procs (k_ps t4) !! z = None ∧
        (sr_rsi wregs ≠ 0 → stored me' (sr_rsi wregs) [0; sr_rdi regs mod 256; 0; 0] t2 t3) ∧
        ∃ ps, t4 = with_ps ps t3.
Proof.
  intros Hsys Hwf Hme Hcur Hz Hp Hpar Hpid.
  destruct (sys_exit_spec regs q s z p Hwf Hme Hcur Hz Hp Hpar) as (out & s' & c & E & Hw & Hc & Hst & Hes & Hpc & _).
  exists out, s'. split; [unfold syscall_dispatch; by rewrite Hsys|]. split; [done|].
  intros me' wenv wenv' wregs vt b l X S t0 t1 t2 Hws Hwp Hwc Hvt Hs1 Hidle Ht2 Hfam Hzl Huniq Hstat.
  assert (s64 (sr_rdi wregs) = p_pid p) as Ew by (rewrite Hwp; by rewrite s64_id by lia).
  pose proof (sys_waitpid_spec percpu_base me' wenv wenv' wregs (p_parent p) vt b l X S t0 t1 t2 Hws Hpar Hwc Hvt Hs1) as Hspec.
  cbv zeta in Hspec. rewrite Ew in Hspec. replace (p_pid p <=? 0) with false in Hspec by lia.
  assert (is_zombie (p_pid p) c = true) as Hzc.
  { unfold is_zombie. rewrite Hst, Hpc, Z.eqb_refl, orb_true_r. by rewrite bool_decide_true. }
  destruct (Hspec Hidle Hfam Hstat) as (l1 & y & l2 & d & t3 & pp & b' & El & Hd & Hzd & _ & Hsto & _ & Hgone & Hb' & _ & Hret).
  { exists z, c. rewrite Ht2. done. }
  assert (y = z) as ->.
  { apply (Huniq y d); [rewrite El; apply elem_of_app; right; by left|done|]. unfold is_zombie in Hzd.
    replace (p_pid p =? 0) with false in Hzd by lia. apply andb_true_iff in Hzd as [_ Hzd]. by apply Z.eqb_eq. }
  assert (d = c) as -> by (rewrite Ht2 in Hd; congruence). rewrite Hpc in Hret.
  eexists t3, _. split; [exact Hret|]. split.
  { cbn. rewrite lookup_insert_ne; [done|]. intros E'. rewrite <- E' in Hzl. by destruct (fam_cur _ _ _ _ _ _ Hfam) as (_ & _ & Hn). }
  split; [|by eexists]. intros Hnz. unfold status_stored in Hsto. rewrite Hes, exit_status_bytes in Hsto.
  by replace (sr_rsi wregs =? 0) with false in Hsto by lia.
Qed.

(** A round of waiting with nothing to report. *)
Lemma waitpid_round_again cur want status vt s :
  process_find_zombie_child cur (if want <=? 0 then 0 else want) (k_ps s) = Some 0 →
  (tty_sigint_consume vt (k_kbd s)).1 = false →
  awake percpu_base me cur (with_kbd (tty_sigint_consume vt (k_kbd s)).2 s) →
  waitpid_round percpu_base me cur want status vt s = Some (R_again (with_kbd (tty_sigint_consume vt (k_kbd s)).2 s)).
Proof.
  intros Hz Hi Ha. unfold waitpid_round. rewrite Hz. obind. change (negb (0 =? 0)) with false. cbv iota.
  destruct (tty_sigint_consume vt (k_kbd s)) as [b k]. cbn [fst snd] in *. rewrite Hi. by apply (awake_no_terminate percpu_base me cur).
Qed.

(** ** Fork *)

(** A new entry of the table, with the memory that goes with it. *)
Lemma wf_add q (x : sched K) a p m :
  wf percpu_base q x → procs x !! a = None → 0 < a < 18446744073709551616 → layout_ok (<[a := p]> (procs x)) m →
  wf percpu_base q (with_mach m (with_procs (<[a := p]> (procs x)) x)) ∧ ∀ d, cpu_in d → a ∉ q d.
Proof.
  intros [H0 Hl] Hn Ha Hm. assert (∀ c b, cpu_in c → b ∈ q c → b ≠ a) as Hq.
  { intros c b Hc Hb ->. destruct (wf_elem percpu_base q x c a H0 Hc Hb) as (_ & y & Hy). congruence. }
  split; [|intros d Hd Hin; by apply (Hq d a Hd Hin)]. split; [|done].
  assert (∀ b y, b ≠ a → (<[a := p]> (procs x)) !! b = Some y → procs x !! b = Some y) as Hold
    by (intros b y Hne; by rewrite lookup_insert_ne).
  split; cbn [procs rq with_mach with_procs smp_cpu_count s_cpus s_mach]; try apply H0; try done.
  - intros b y [[<- _]|[_ Hy]]%lookup_insert_Some; [done|]. by apply (wf_addr _ _ _ H0 b y).
  - intros c Hc. apply (chain_ext (procs x)); [|by apply H0]. intros b Hb. by rewrite lookup_insert_ne by (symmetry; by apply (Hq c)).
  - intros c b y Hc Hb Hy. apply (wf_home _ _ _ H0 c b); [done..|]. by apply Hold; [apply (Hq c)|].
  - intros c b y Hc Hb Hy. apply (wf_state _ _ _ H0 c b); [done..|]. by apply Hold; [apply (Hq c)|].
Qed.

Lemma wf_mach q (x : sched K) m : wf percpu_base q x → layout_ok (procs x) m → wf percpu_base q (with_mach m x).
Proof. intros [H0 Hl] Hm. split; [|done]. split; try apply H0. exact Hm. Qed.

(** C14: SYS_FORK.  With the scheduler and the memory in order, the call comes back.  Either -1 and
    the process table and the queues are as before, or the pid of a new process: it
    has the caller's registers with 0 in rax, its open files and an address space
    shared with no other process, is the first child of the caller, and is queued
    ready in front of the least loaded cpu; the invariants hold again. *)
Theorem sys_fork_queues_child env regs q s parent pp :
  sys_of (sr_rax regs) = Some SYS_FORK → wf percpu_base q (sched_of s) → cpu_in me →
  cur_of (sched_of s) me = parent → parent ≠ 0 → ps_procs (k_ps s) !! parent = Some pp →
  let c := least_loaded_locked (sched_of s) in
  ∃ rax s', syscall_dispatch percpu_base me env regs s = Some (Returned (set_sr_rax rax regs) s') ∧
    ((rax = SYS_ERROR ∧ ps_procs (k_ps s') = ps_procs (k_ps s) ∧ wf percpu_base q (sched_of s')) ∨
     (rax = next_pid (k_ps s) ∧ ∃ child b, ps_procs (k_ps s) !! child = None ∧
        wf percpu_base (<[c := child :: q c]> q) (sched_of s') ∧
        ps_procs (k_ps s') !! child = Some b ∧ p_state b = PROC_READY ∧ p_cpu b = c ∧ p_pid b = next_pid (k_ps s) ∧
        p_ctx b = fork_ctx regs (pc_user_rsp (g_percpu (ps_cpus (k_ps s)) me)) ∧ p_files b = p_files pp ∧
        p_parent b = parent ∧ p_next_sibling b = p_children pp ∧
        (∃ pp', ps_procs (k_ps s') !! parent = Some pp' ∧ p_children pp' = child) ∧
        ∀ a d, a ≠ child → ps_procs (k_ps s') !! a = Some d → p_cr3 d ≠ p_cr3 b)).
Proof.
  intros Hsys Hwf Hme Hcur Hp0 Hpp c. unfold syscall_dispatch. rewrite Hsys. unfold sys_fork.
  pose proof Hwf as [H0 Hlock]. destruct (wf_mem _ _ _ H0) as (X & S & Hk & Hlay). cbn [procs s_mach sched_of] in Hk, Hlay.
  destruct (process_fork_spec percpu_base me regs parent pp (k_ps s) X S Hk) as (child & p' & -> & Ecpu & Hcase).
  { intros a y Hy. by apply (lay_block _ _ _ Hlay a y). }
  { by apply (wf_cpus _ _ _ H0). }
  { exact Hcur. }
  { done. }
  { done. }
  { by apply (lay_block _ _ _ Hlay parent). }
  obind. destruct (Z.eqb_spec child 0) as [->|Hch].
  { destruct Hcase as [Ep Hk']. exists SYS_ERROR, (with_ps p' s). split; [done|]. left. split; [done|]. split; [done|].
    replace (sched_of (with_ps p' s)) with (with_mach (ps_kernel p') (sched_of s))
      by (unfold sched_of, with_mach; cbn; by rewrite Ep, Ecpu).
    apply wf_mach; [done|]. by exists X, S. }
  destruct Hcase as (cr & top & X' & Hchr & Hxn & Hcn & Hst & Ep & Hk').
  set (b0 := forked parent pp (next_pid (k_ps s)) cr top regs (pc_user_rsp (g_percpu (ps_cpus (k_ps s)) me))) in *.
  pose proof (layout_add _ X X' S child b0 cr Hlay Hxn ltac:(lia) Hcn eq_refl Hst) as Hlay'.
  assert (ps_procs (k_ps s) !! child = None) as Hpn.
  { destruct (ps_procs (k_ps s) !! child) as [y|] eqn:E; [|done]. destruct (lay_block _ _ _ Hlay child y E) as [[? ?] _]. congruence. }
  destruct (wf_add q (sched_of s) child b0 (ps_kernel p') Hwf Hpn ltac:(lia)) as [[H1 Hl1] Hfresh]; [by exists X', ({[cr]} ∪ S)|].
  assert (parent ≠ child) as Hne by congruence.
  pose proof (wf0_upd_proc percpu_base q _ parent (set_p_children child) pp H1) as H2.
  cbn [procs with_mach with_procs sched_of] in H2. rewrite lookup_insert_ne in H2 by done. specialize (H2 Hpp eq_refl eq_refl).
  set (x := with_procs _ _) in H2. assert (sched_of (with_ps p' s) = x) as Ex.
  { unfold x, sched_of, with_procs, with_mach. cbn. by rewrite Ep, Ecpu. }
  assert (procs x !! child = Some b0) as Hb0 by (unfold x; cbn; by rewrite lookup_insert_ne, lookup_insert_eq).
  unfold Syscall.enqueue. rewrite Ex.
  destruct (enqueue_spec percpu_base q x me child b0 (conj H2 Hl1) Hb0 Hfresh) as (y & -> & Hwy & Ey & _). obind. obind.
  change (least_loaded_locked x) with c in Hwy, Ey.
  assert (∀ a, procs y !! a = if decide (a = child) then Some (set_p_next (rq_head (rq x c)) (make_ready c b0)) else procs x !! a) as Hy.
  { intros a. rewrite Ey, enqueued_procs. done. }
  cbn [k_ps put_sched ps_procs]. rewrite Hy, decide_True by done. obind. eexists _, _. split; [done|]. right. split; [done|].
  exists child, (set_p_next (rq_head (rq x c)) (make_ready c b0)). split; [done|]. rewrite sched_put. split; [done|].
  cbn [k_ps put_sched ps_procs]. split; [by rewrite Hy, decide_True|]. do 7 (split; [done|]). split.
  - exists (set_p_children child pp). split; [|done]. rewrite Hy, decide_False by done. unfold x. cbn. apply lookup_insert_eq.
  - intros a d Ha Hd. rewrite Hy, decide_False in Hd by done. intros E.
    destruct (wf_mem _ _ _ H2) as (X2 & S2 & _ & Hl2). change (procs x !! a = Some d) in Hd.
    by destruct (lay_apart _ _ _ Hl2 a child d b0 Hd Hb0 Ha) as [Hcc _].
Qed.
End Life.

(** ** Witnesses *)

(** A process at 4096 waiting on the second cpu, its child at 8192 running on the first. *)
Definition life_parent : pcb := set_p_blocked true (set_p_cpu 1 (demo_proc 1 1 32768 0 8192 0 PROC_RUNNING)).
Definition life_child : pcb := demo_proc 2 2 65536 4096 0 0 PROC_RUNNING.
Definition life_cpus : cpus :=
  Cpus (λ i, Percpu 0 0 1234 i i (if i =? 0 then 8192 else if i =? 1 then 4096 else 0) 0 0)
       (λ i, CpuHw (percpu_addr demo_base i) (percpu_addr demo_base i) 0 0 false).
Definition life_table : gmap Z pcb := {[4096 := life_parent; 8192 := life_child]}.
Definition life_queues (c : Z) : list Z := if c =? 0 then [8192] else if c =? 1 then [4096] else [].
Definition life_kst : kst toy (heap pmm) (list Z) := {|
  k_ps := PState demo_user_kernel life_table 4 life_cpus (Vfs [listfs] 1 [Mount [slash] listfs 1 5] demo_heap demo_elf);
  k_rq := λ c, CpuRq (if c =? 0 then 8192 else if c =? 1 then 4096 else 0) (if c <? 2 then 1 else 0) 0 0 0;
  k_lock := false; k_uptime := 100; k_ncpu := 2;
  k_kbd := demo_kbd; k_con := demo_console; k_video := true; k_serial_in := []
|}.

Definition life_heap : gmap Z Z :=
  <[49152 := PROCESS_KSTACK_SIZE]> (<[16384 := PROCESS_KSTACK_SIZE]> (<[8192 := sizeof_process]> {[4096 := sizeof_process]})).

Lemma life_cases a p : life_table !! a = Some p → (a = 4096 ∧ p = life_parent) ∨ (a = 8192 ∧ p = life_child).
Proof. unfold life_table. rewrite lookup_insert_Some, lookup_singleton_Some. naive_solver. Qed.

Lemma life_pk_ok : toy_ok demo_user_kernel life_heap {[1; 2]}.
Proof.
  split; [done|]. split; [done|]. split.
  - intros p [n Hp]. unfold life_heap in Hp. rewrite !lookup_insert_Some, lookup_singleton_Some in Hp.
    cbn [toy_next demo_user_kernel]. lia.
  - intros c Hc. cbn [toy_space demo_user_kernel]. set_solver by lia.
Qed.

Lemma life_layout : layout life_table life_heap {[1; 2]}.
Proof.
  split.
  - intros a p [[-> ->]|[-> ->]]%life_cases; (split; [by eexists|set_solver]).
  - intros a p k [[-> ->]|[-> ->]]%life_cases; intros [= <-]; (split; [by eexists|reflexivity]).
  - intros a b p q [[-> ->]|[-> ->]]%life_cases [[-> ->]|[-> ->]]%life_cases Hab; try done;
      (split; [discriminate|]; intros k [= <-]; discriminate).
Qed.

Lemma life_wf : wf demo_base life_queues (sched_of life_kst).
Proof.
  assert (∀ c a, a ∈ life_queues c → (c = 0 ∧ a = 8192) ∨ (c = 1 ∧ a = 4096)) as Hq.
  { intros c a. unfold life_queues. destruct (Z.eqb_spec c 0) as [->|]; [set_solver|].
    destruct (Z.eqb_spec c 1) as [->|]; set_solver. }
  split; [|done]. split; cbn [procs rq sched_of smp_cpu_count s_cpus s_mach k_ps life_kst ps_procs ps_kernel ps_cpus].
  - intros a p [[-> _]|[-> _]]%life_cases; lia.
  - intros c Hc. cbn [rq_head k_rq life_kst]. unfold life_queues. destruct (c =? 0); [|destruct (c =? 1)]; cbn [chain]; [..|done].
    + split; [done|]. split; [done|]. by exists life_child.
    + split; [done|]. split; [done|]. by exists life_parent.
  - intros c Hc. cbn [rq_count k_rq life_kst]. unfold life_queues, cpu_in in *. destruct (Z.eqb_spec c 0) as [->|]; [done|].
    destruct (Z.eqb_spec c 1) as [->|]; [done|]. by replace (c <? 2) with false by lia.
  - intros c Hc. unfold life_queues. destruct (c =? 0); [apply NoDup_singleton|].
    destruct (c =? 1); [apply NoDup_singleton|apply NoDup_nil_2].
  - intros c a p Hc [[-> ->]|[-> ->]]%Hq [[? ->]|[? ->]]%life_cases; try done.
  - intros c a p Hc [[-> ->]|[-> ->]]%Hq [[? ->]|[? ->]]%life_cases; try done; right; done.
  - intros c Hc. unfold cur_of. cbn. unfold life_queues. destruct (c =? 0); [right; set_solver|].
    destruct (c =? 1); [right; set_solver|by left].
  - intros c Hc. split; [done|]. split; [done|]. left. split; [done|]. by left.
  - cbn. unfold PERCPU_MAX_CPUS. lia.
  - exists life_heap, {[1; 2]}. split; [exact life_pk_ok|exact life_layout].
Qed.

Lemma sys_fork_witness :
  ∃ s' child, syscall_dispatch demo_base 0 [] (demo_call 16 0 0 0) life_kst =
      Some (Returned (set_sr_rax 4 (demo_call 16 0 0 0)) s') ∧
    wf demo_base (<[0 := child :: life_queues 0]> life_queues) (sched_of s') ∧ life_table !! child = None.
Proof.
  destruct (sys_fork_queues_child demo_base 0 [] (demo_call 16 0 0 0) life_queues life_kst 8192 life_child)
    as (rax & s' & E & Hcase).
  - reflexivity.
  - exact life_wf.
  - unfold cpu_in, PERCPU_MAX_CPUS. lia.
  - reflexivity.
  - discriminate.
  - reflexivity.
  - assert ((λ o : option (outcome toy (heap pmm) (list Z)), match o with Some (Returned r _) => Some (sr_rax r) | _ => None end)
      (syscall_dispatch demo_base 0 [] (demo_call 16 0 0 0) life_kst) = Some 4) as Hr by (vm_compute; reflexivity).
    rewrite E in Hr. injection Hr as Hr. cbn in Hr. subst rax. destruct Hcase as [[Hbad _]|(_ & child & b & Hn & Hw & _)]; [discriminate Hbad|].
    exists s', child. split; [exact E|]. split; [exact Hw|exact Hn].
Defined.

(** The parent asleep, and the child after its exit with code 7. *)
Definition life_asleep : kst toy (heap pmm) (list Z) :=
  sti 1 (with_ps (with_table (<[4096 := set_p_blocked true life_parent]> (ps_procs (k_ps life_kst))) (k_ps life_kst)) life_kst).
Definition life_zombie : pcb := set_p_state PROC_ZOMBIE (set_p_exit_status 1792 life_child).

Lemma life_start : start_wait 1 4096 life_kst = Some life_asleep.
Proof.
  unfold start_wait. pose proof (on_cur_some 4096 (set_p_blocked true) life_kst life_parent ltac:(done) eq_refl) as E.
  rewrite E. obind. unfold life_asleep. reflexivity.
Qed.

Lemma life_idles s' : idles (waitpid_round demo_base 1 4096 2 (USER_MIN + 64) 0) [λ _, s'] life_asleep s'.
Proof.
  eapply idles_cons; [|apply idles_nil]. apply waitpid_round_again; [vm_compute; reflexivity|vm_compute; reflexivity|].
  split; [discriminate|]. split; [reflexivity|]. exists (set_p_blocked true life_parent). split; reflexivity.
Qed.

Definition left_state (o : option (outcome toy (heap pmm) (list Z))) : option (gmap Z pcb * toy) :=
  match o with Some (Left _ s) => Some (ps_procs (k_ps s), ps_kernel (k_ps s)) | _ => None end.

Lemma life_exit out s' :
  syscall_dispatch demo_base 0 [] (demo_call 0 7 0 0) life_kst = Some (Left out s') →
  ps_procs (k_ps s') = <[8192 := life_zombie]> life_table ∧ ps_kernel (k_ps s') = demo_user_kernel.
Proof.
  intros E. assert (left_state (syscall_dispatch demo_base 0 [] (demo_call 0 7 0 0) life_kst) =
    Some (<[8192 := life_zombie]> life_table, demo_user_kernel)) as H by (vm_compute; reflexivity).
  rewrite E in H. injection H as E1 E2. done.
Qed.

Lemma life_family s' :
  ps_procs (k_ps s') = <[8192 := life_zombie]> life_table → ps_kernel (k_ps s') = demo_user_kernel →
  family (H:=heap pmm) (W:=list Z) 4096 life_parent [8192] life_heap {[1; 2]} s'.
Proof.
  intros Ep Ek. split; rewrite ?Ep, ?Ek.
  - exact life_pk_ok.
  - split; [done|]. split; [reflexivity|set_solver].
  - cbn [sib_seg]. split; [reflexivity|]. split; [discriminate|]. exists life_zombie. split; reflexivity.
  - split; [apply NoDup_singleton|]. split; [by repeat constructor|simpl; lia].
  - intros z c ->%list_elem_of_singleton. rewrite lookup_insert_eq. intros [= <-].
    exists (delete 49152 (delete 8192 life_heap)). split; [|split; [reflexivity|set_solver]].
    right. exists 49152. split_and!; try (discriminate || reflexivity || lia).
Qed.

Lemma exit_status_witness :
  ∃ s' (t3 t4 : kst toy (heap pmm) (list Z)), (∃ out, syscall_dispatch demo_base 0 [] (demo_call 0 7 0 0) life_kst = Some (Left out s')) ∧
    syscall_dispatch demo_base 1 [λ _, s'] (demo_call 18 2 (USER_MIN + 64) 0) life_kst =
      Some (Returned (set_sr_rax 2 (demo_call 18 2 (USER_MIN + 64) 0)) t4) ∧
    ps_procs (k_ps t4) !! 8192 = None ∧ ubyte 1 t3 (USER_MIN + 65) = Some 7.
Proof.
  destruct (exit_status_reaches_parent demo_base 0 [] (demo_call 0 7 0 0) life_queues life_kst 8192 life_child)
    as (out & s' & E & _ & Hwait).
  - reflexivity.
  - exact life_wf.
  - unfold cpu_in, PERCPU_MAX_CPUS. lia.
  - reflexivity.
  - discriminate.
  - reflexivity.
  - discriminate.
  - cbn. lia.
  - destruct (life_exit out s' E) as [Ep Ek].
    destruct (Hwait 1 [λ _, s'] [] (demo_call 18 2 (USER_MIN + 64) 0) 0 life_parent [8192] life_heap {[1; 2]} life_kst life_asleep s')
      as (t3 & t4 & Er & Hgone & Hst & _).
    + reflexivity.
    + reflexivity.
    + reflexivity.
    + reflexivity.
    + exact life_start.
    + apply life_idles.
    + reflexivity.
    + by apply life_family.
    + set_solver.
    + intros y d ->%list_elem_of_singleton _ _. reflexivity.
    + right. split; [exact I|]. split; [by vm_compute|]. split; [by vm_compute|].
      intros w Hw. unfold ubyte. cbn [uk_load toy_user]. cbn in Hw.
      replace (toy_page w) with true by (unfold toy_page; unfold USER_MIN in *; lia). split; [|by eexists].
      unfold user_addr, USER_MIN, USER_MAX, PAGING_USER_BASE, PROCESS_USER_STACK_TOP in *. lia.
    + exists s', t3, t4. split; [by exists out|]. split; [exact Er|]. split; [exact Hgone|].
      destruct (Hst ltac:(discriminate)) as (_ & _ & Hv). rewrite Hv by (by vm_compute). vm_compute. reflexivity.
Defined.
