(* ===== verification/FatName.v ===== *)
(** FAT32 names (fs/fat32.c): short 8.3 names, long names spread over directory
    entries, comparison, and the components of a path.

    A directory entry is its list of 32 bytes; a string is the list of its bytes
    before the terminator.  [byte e i] reads byte [i] of an entry.  Functions that
    fill an output array of [out_size] characters return the string they leave
    there.  [None] in [lfn_fill_part] is a read of the name beyond its
    terminator. *)

From stdpp Require Import prelude numbers list.
From Stdlib Require Import ZArith Lia.
From S2P Require Import Prelude.

Open Scope Z_scope.

Definition FAT32_DIR_ATTR_DIRECTORY : Z := 0x10.
Definition FAT32_DIR_ATTR_LFN : Z := 0x0F.
Definition FAT32_NAME_MAX : Z := 256.
Definition LFN_MAX_PARTS : Z := 20.

Definition byte (e : list Z) (i : nat) : Z := nth i e 0.
Definition len (s : list Z) : Z := Z.of_nat (length s).

(** The string in an array: what precedes the first zero. *)
Fixpoint cut0 (s : list Z) : list Z :=
  match s with
  | [] => []
  | c :: s => if c =? 0 then [] else c :: cut0 s
  end.

Definition upper (c : Z) : Z := if (97 <=? c) && (c <=? 122) then c - 97 + 65 else c.

(** ** Reading names *)

(** One of the two loops of [build_short_name]: the bytes of a field up to the first
    space, in upper case, while the output has room. *)
Fixpoint copy_field (src : list Z) (out_size : Z) (out : list Z) : list Z :=
  match src with
  | [] => out
  | c :: src =>
      if negb (len out + 1 <? out_size) then out
      else if c =? 32 then out
      else copy_field src out_size (out ++ [upper c])
  end.

Definition build_short_name (entry : list Z) (out_size : Z) : list Z :=
  let out := copy_field (take 8 entry) out_size [] in
  cut0 (if negb (byte entry 8 =? 32) then
          let out := if len out + 1 <? out_size then out ++ [46] else out in
          copy_field (take 3 (drop 8 entry)) out_size out
        else out).

Definition lfn_off (i : nat) : nat :=
  if (i <? 5)%nat then 1 + 2 * i else if (i <? 11)%nat then 14 + 2 * (i - 5) else 28 + 2 * (i - 11).

Fixpoint parse_chars (e : list Z) (ix : list nat) : list Z :=
  match ix with
  | [] => []
  | i :: ix =>
      let off := lfn_off i in
      let ch := u16 (Z.lor (byte e off) (u16 (Z.shiftl (byte e (off + 1)) 8))) in
      if (ch =? 0) || (ch =? 0xFFFF) then []
      else (if byte e (off + 1) =? 0 then byte e off else 63) :: parse_chars e ix
  end.

Definition lfn_parse_part (e : list Z) : list Z := parse_chars e (seq 0 13).

(** [lfn_acc_t]: the sequence number and the characters of each part so far. *)
Notation lfn_acc := (list (Z * list Z)) (only parsing).

Definition lfn_add_part (a : lfn_acc) (e : list Z) : lfn_acc :=
  if LFN_MAX_PARTS <=? Z.of_nat (length a) then []
  else a ++ [(Z.land (byte e 0) 0x3F, lfn_parse_part e)].

Fixpoint append_chars (cs : list Z) (out_size : Z) (out : list Z) : list Z :=
  match cs with
  | [] => out
  | c :: cs => if len out + 1 <? out_size then append_chars cs out_size (out ++ [c]) else out
  end.

Definition lfn_assemble (a : lfn_acc) (out_size : Z) : list Z :=
  foldl (λ out s, match List.find (λ q, q.1 =? s) a with
                  | Some q => append_chars q.2 out_size out
                  | None => out
                  end) [] (seqZ 1 (Z.of_nat (length a))).

Fixpoint name_matches (a b : list Z) : bool :=
  match a, b with
  | c :: a, d :: b => if negb (upper c =? upper d) then false else name_matches a b
  | [], [] => true
  | _, _ => false
  end.

(** ** Writing names *)

Definition valid_short_char (c : Z) : bool :=
  ((65 <=? c) && (c <=? 90)) || ((48 <=? c) && (c <=? 57)) ||
  ((c =? 95) || (c =? 45) || (c =? 33) || (c =? 36) || (c =? 94)).

(** The last dot of the name, or -1. *)
Definition last_dot (name : list Z) : Z :=
  foldl (λ d i, if byte name i =? 46 then Z.of_nat i else d) (-1) (seq 0 (length name)).

(** The loop over the base name: at most 8 characters, up to the last dot. *)
Fixpoint encode_base (p : list Z) (dot : Z) (out : list Z) : option (list Z) :=
  match p with
  | [] => Some out
  | c :: p =>
      if negb (len out <? 8) then Some out
      else if negb (dot =? -1) && (len out =? dot) then Some out
      else if negb (valid_short_char (upper c)) then None
      else encode_base p dot (out ++ [upper c])
  end.

Fixpoint encode_ext (e : list Z) (n : nat) (out : list Z) : option (list Z) :=
  match n, e with
  | Datatypes.S n, c :: e =>
      if negb (valid_short_char (upper c)) then None else encode_ext e n (out ++ [upper c])
  | _, _ => Some out
  end.

Definition pad_field (n : nat) (s : list Z) : list Z := s ++ replicate (n - length s) 32.

Definition encode_short_name (name : list Z) : option (list Z) :=
  let dot := last_dot name in
  if dot =? 0 then None
  else
    base ← encode_base name dot [];
    if len base =? 0 then None
    else
      ext ← (if negb (dot =? -1) then encode_ext (drop (Z.to_nat (dot + 1)) name) 3 [] else Some []);
      Some (pad_field 8 base ++ pad_field 3 ext).

Definition lfn_checksum (short11 : list Z) : Z :=
  foldl (λ sum c, u8 (u8 (Z.shiftl (Z.land sum 1) 7 + Z.shiftr sum 1) + c)) 0 short11.

(** The name needs no long entries: [short_is_exact]. *)
Definition short_is_exact (name : list Z) : bool :=
  forallb (λ c, (c =? 46) || (negb ((97 <=? c) && (c <=? 122)) && negb ((c =? 32) || negb (valid_short_char c)))) name.

Definition lfn_parts_for (name : list Z) : Z :=
  match encode_short_name name with
  | None => 0
  | Some _ => if short_is_exact name then 0 else (len name + 12) / 13
  end.

(** Reading a character of a string; [None] past its terminator. *)
Definition char_at (name : list Z) (i : Z) : option Z :=
  if i <? 0 then None else if i <? len name then name !! Z.to_nat i else if i =? len name then Some 0 else None.

Definition char_offsets : list nat := [1; 3; 5; 7; 9; 14; 16; 18; 20; 22; 24; 28; 30]%nat.

Fixpoint fill_chars (name : list Z) (char_start : Z) (i : Z) (offs : list nat) (e : list Z) : option (list Z) :=
  match offs with
  | [] => Some e
  | o :: offs =>
      c ← char_at name (u32 (char_start + i));
      fill_chars name char_start (i + 1) offs (<[(o + 1)%nat := 0]> (<[o := c]> e))
  end.

Definition lfn_fill_part (name : list Z) (char_start seq : Z) (set_first : bool) (checksum : Z) : option (list Z) :=
  let e := replicate 32 0xFF in
  let e := <[0%nat := if set_first then u8 (Z.lor seq 0x40) else seq]> e in
  let e := <[27%nat := 0]> (<[26%nat := 0]> (<[13%nat := checksum]> (<[11%nat := FAT32_DIR_ATTR_LFN]> e))) in
  fill_chars name char_start 0 char_offsets e.

(** ** Paths *)

Fixpoint skip_slashes (p : list Z) : list Z :=
  match p with
  | c :: p' => if c =? 47 then skip_slashes p' else p
  | [] => []
  end.

(** The characters up to the next slash, the first [out_size - 1] of them kept. *)
Fixpoint take_component (p : list Z) (out_size : Z) (out : list Z) : list Z * list Z :=
  match p with
  | c :: p' =>
      if c =? 47 then (out, p)
      else take_component p' out_size (if len out + 1 <? out_size then out ++ [c] else out)
  | [] => (out, p)
  end.

(** The component and the rest of the path; [None] is [false]. *)
Definition split_component (p : list Z) (out_size : Z) : option (list Z * list Z) :=
  match skip_slashes p with
  | [] => None
  | p => let '(out, rest) := take_component p out_size [] in
         if len out =? 0 then None else Some (out, rest)
  end.

(** The loop that collects at most 8 components, each of them accepted by [ok]. *)
Fixpoint split_path (fuel : nat) (ok : list Z → bool) (p : list Z) (acc : list (list Z)) : option (list (list Z)) :=
  match fuel with
  | O => Some acc
  | Datatypes.S fuel =>
      match split_component p FAT32_NAME_MAX with
      | None => Some acc
      | Some (comp, p) =>
          if 8 <=? Z.of_nat (length acc) then None
          else if negb (ok comp) then None
          else split_path fuel ok p (acc ++ [comp])
      end
  end.

Definition path_components (ok : list Z → bool) (p : list Z) : option (list (list Z)) :=
  split_path (Datatypes.S (length p)) ok p [].

Definition valid_component_name (name : list Z) : bool :=
  match name with
  | [] => false
  | [46] => false
  | [46; 46] => false
  | _ => forallb (λ c, negb ((s8 c <? 0x20) || (c =? 0x7F)) &&
                       negb (existsb (Z.eqb c) [42; 63; 60; 62; 124; 34; 58; 92])) name
  end.

(** ** Short names survive the round trip *)

Lemma upper_upper c : upper (upper c) = upper c.
Proof. unfold upper. destruct ((97 <=? c) && (c <=? 122)) eqn:E; [|by rewrite E]. by replace (_ && _) with false by lia. Qed.

Definition short_char (c : Z) : Prop := valid_short_char (upper c) = true.

Lemma short_char_plain c : short_char c → c ≠ 46 ∧ upper c ≠ 32 ∧ upper c ≠ 0.
Proof. unfold short_char, valid_short_char, upper. destruct ((97 <=? c) && (c <=? 122)) eqn:E; intros Hc; lia. Qed.

Lemma last_dot_snoc l c : last_dot (l ++ [c]) = if c =? 46 then Z.of_nat (length l) else last_dot l.
Proof.
  unfold last_dot. rewrite length_app, Nat.add_1_r, seq_S, foldl_app. cbn [foldl]. simpl (0 + length l)%nat.
  replace (byte (l ++ [c]) (length l)) with c by (unfold byte; by rewrite app_nth2, Nat.sub_diag by lia).
  destruct (c =? 46); [done|].
  assert (∀ n d, (n ≤ length l)%nat → foldl (λ d i, if byte (l ++ [c]) i =? 46 then Z.of_nat i else d) d (seq 0 n) =
    foldl (λ d i, if byte l i =? 46 then Z.of_nat i else d) d (seq 0 n)) as Hn; [|by apply Hn].
  intros n d. induction n as [|n IH]; intros Hle; [done|]. rewrite seq_S, !foldl_app. cbn [foldl]. rewrite IH by lia.
  simpl (0 + n)%nat. unfold byte at 1. by rewrite app_nth1 by lia.
Qed.

Lemma last_dot_app l k : Forall short_char k → last_dot (l ++ k) = last_dot l.
Proof.
  induction k as [|c k IH] using rev_ind; intros Hk; [by rewrite app_nil_r|].
  apply Forall_app in Hk as [Hk Hc]. apply Forall_singleton, short_char_plain in Hc as [Hc _].
  rewrite app_assoc, last_dot_snoc. replace (c =? 46) with false by lia. by apply IH.
Qed.

Lemma encode_base_short base rest dot out :
  Forall short_char base → len out + len base ≤ 8 → (dot = -1 ∨ len out + len base = dot) →
  (rest = [] ∨ dot = len out + len base) →
  encode_base (base ++ rest) dot out = Some (out ++ (upper <$> base)).
Proof.
  revert out. induction base as [|c base IH]; intros out Hb Hl Hd Hr; simpl.
  - rewrite app_nil_r. destruct rest as [|c rest]; [done|]. destruct Hr as [|Hr]; [done|].
    cbn [encode_base]. destruct (len out <? 8); [|done]. cbn [negb]. unfold len in *. simpl in Hr.
    replace (negb (dot =? -1) && (Z.of_nat (length out) =? dot)) with true by lia. done.
  - apply Forall_cons in Hb as [Hc Hb]. unfold len in *. cbn [length] in *. rewrite Nat2Z.inj_succ in *.
    replace (Z.of_nat (length out) <? 8) with true by lia. cbn [negb].
    replace (negb (dot =? -1) && (Z.of_nat (length out) =? dot)) with false by lia.
    rewrite Hc. cbn [negb]. rewrite IH; [by rewrite <- app_assoc|done|rewrite length_app; simpl; lia..|].
    rewrite length_app. simpl. destruct Hr as [-> |Hr]; [by left|right; lia].
Qed.

Lemma encode_ext_short ext n out :
  Forall short_char ext → (length ext ≤ n)%nat → encode_ext ext n out = Some (out ++ (upper <$> ext)).
Proof.
  revert n out. induction ext as [|c ext IH]; intros n out He Hn; [rewrite app_nil_r; by destruct n|].
  apply Forall_cons in He as [Hc He]. destruct n as [|n]; simpl in Hn; [lia|]. cbn [encode_ext]. rewrite Hc. cbn [negb].
  rewrite IH by (done || lia). by rewrite <- app_assoc.
Qed.

(** Copying a padded field gives back what was put there. *)
Lemma copy_field_short u k size out :
  Forall short_char u → len out + len u < size →
  copy_field ((upper <$> u) ++ replicate k 32) size out = out ++ (upper <$> u).
Proof.
  revert out. induction u as [|c u IH]; intros out Hu Hl; simpl.
  - rewrite app_nil_r. destruct k as [|k]; [done|]. simpl. by destruct (negb _).
  - apply Forall_cons in Hu as [Hc Hu]. destruct (short_char_plain c Hc) as (_ & H32 & _). unfold len in *. cbn [length] in Hl.
    rewrite Nat2Z.inj_succ in Hl. replace (Z.of_nat (length out) + 1 <? size) with true by lia. cbn [negb].
    replace (upper c =? 32) with false by lia. rewrite upper_upper, IH; [by rewrite <- app_assoc|done|rewrite length_app; simpl; lia].
Qed.

Lemma cut0_id s : Forall (λ c, c ≠ 0) s → cut0 s = s.
Proof. induction 1 as [|c s Hc Hs IH]; [done|]. simpl. replace (c =? 0) with false by lia. by rewrite IH. Qed.

Lemma name_matches_upper s : name_matches (upper <$> s) s = true.
Proof. induction s as [|c s IH]; [done|]. simpl. by rewrite upper_upper, Z.eqb_refl. Qed.

(** A base of 1 to 8 characters and an extension of at most 3. *)
Record short_form (name base ext : list Z) : Prop := {
  sf_name : name = base ∧ ext = [] ∨ name = base ++ 46 :: ext ∧ ext ≠ [];
  sf_base : 1 ≤ len base ≤ 8;
  sf_ext : len ext ≤ 3;
  sf_chars : Forall short_char (base ++ ext)
}.

Lemma encode_short_form name base ext :
  short_form name base ext →
  encode_short_name name = Some (pad_field 8 (upper <$> base) ++ pad_field 3 (upper <$> ext)).
Proof.
  intros [Hn Hb He [Hcb Hce]%Forall_app]. unfold encode_short_name, len in *.
  assert (∀ rest dot, dot = -1 ∧ rest = [] ∨ dot = Z.of_nat (length base) →
    encode_base (base ++ rest) dot [] = Some (upper <$> base)) as Henc.
  { intros rest dot Hd. rewrite encode_base_short; [done|done|unfold len; simpl; lia|unfold len; simpl; lia|].
    unfold len; simpl. destruct Hd as [[_ ->]| ->]; [by left|right; lia]. }
  assert (last_dot base = -1) as Hlb by (apply (last_dot_app [] base Hcb)).
  destruct Hn as [[-> ->]|[-> Hne]].
  - rewrite Hlb. cbn [Z.eqb]. specialize (Henc [] (-1) ltac:(by left)). rewrite app_nil_r in Henc. rewrite Henc. obind.
    rewrite length_fmap. replace (Z.of_nat (length base) =? 0) with false by lia. done.
  - assert (last_dot (base ++ 46 :: ext) = Z.of_nat (length base)) as Hld.
    { rewrite cons_middle, app_assoc, last_dot_app by done. by rewrite last_dot_snoc. }
    rewrite Hld. replace (Z.of_nat (length base) =? 0) with false by lia. rewrite Henc by (by right). obind.
    rewrite length_fmap. replace (Z.of_nat (length base) =? 0) with false by lia.
    replace (Z.of_nat (length base) =? -1) with false by lia. cbn [negb].
    replace (Z.to_nat (Z.of_nat (length base) + 1)) with (length (base ++ [46])) by (rewrite length_app; simpl; lia).
    replace (base ++ 46 :: ext) with ((base ++ [46]) ++ ext) by (by rewrite <- app_assoc).
    rewrite drop_app_length. by rewrite encode_ext_short by (done || lia).
Qed.

Lemma length_pad_field n s : (length s ≤ n)%nat → length (pad_field n s) = n.
Proof. intros Hl. unfold pad_field. rewrite length_app, length_replicate. lia. Qed.

Lemma short_form_read name base ext :
  short_form name base ext →
  ∃ e, encode_short_name name = Some e ∧ length e = 11%nat ∧
    ∀ rest, build_short_name (e ++ rest) FAT32_NAME_MAX = upper <$> name ∧
      name_matches (build_short_name (e ++ rest) FAT32_NAME_MAX) name = true.
Proof.
  intros Hs. eexists. split; [by apply encode_short_form|]. destruct Hs as [Hn Hb He [Hcb Hce]%Forall_app].
  unfold len in *. assert (length (pad_field 8 (upper <$> base)) = 8%nat) as L8 by (apply length_pad_field; rewrite length_fmap; lia).
  assert (length (pad_field 3 (upper <$> ext)) = 3%nat) as L3 by (apply length_pad_field; rewrite length_fmap; lia).
  split; [by rewrite length_app, L8, L3|]. intros rest.
  assert (build_short_name ((pad_field 8 (upper <$> base) ++ pad_field 3 (upper <$> ext)) ++ rest) FAT32_NAME_MAX = upper <$> name) as E;
    [|rewrite E; split; [done|apply name_matches_upper]].
  unfold build_short_name. rewrite <- app_assoc.
  rewrite (take_app_length' _ _ 8 (eq_sym L8)), (drop_app_length' _ _ 8 (eq_sym L8)), (take_app_length' _ _ 3 (eq_sym L3)).
  replace (byte _ 8) with (byte (pad_field 3 (upper <$> ext)) 0).
  2:{ unfold byte. rewrite app_nth2 by lia. rewrite L8. simpl. by rewrite app_nth1 by lia. }
  assert (copy_field (pad_field 8 (upper <$> base)) FAT32_NAME_MAX [] = upper <$> base) as ->
    by (unfold pad_field; rewrite copy_field_short; [done|done|unfold len, FAT32_NAME_MAX; simpl; lia]).
  assert (Forall (λ c, c ≠ 0) (upper <$> base ++ ext)) as Hnz.
  { apply Forall_fmap, Forall_app. split; (eapply Forall_impl; [done|]); intros x Hx; apply (short_char_plain x Hx). }
  rewrite fmap_app in Hnz. apply Forall_app in Hnz as [Hzb Hze].
  destruct Hn as [[-> ->]|[-> Hne]].
  - simpl. by apply cut0_id.
  - destruct ext as [|x ext]; [done|]. apply Forall_cons in Hce as [Hx Hce]. destruct (short_char_plain x Hx) as (_ & H32 & _).
    replace (byte (pad_field 3 (upper <$> x :: ext)) 0) with (upper x) by done. replace (upper x =? 32) with false by lia. cbn [negb].
    replace (len (upper <$> base) + 1 <? FAT32_NAME_MAX) with true by (unfold len, FAT32_NAME_MAX; rewrite length_fmap; lia).
    unfold pad_field. rewrite copy_field_short.
    + rewrite cut0_id; [by rewrite fmap_app, <- app_assoc|]. rewrite !Forall_app. split_and!; try done. by repeat constructor.
    + by constructor.
    + unfold len, FAT32_NAME_MAX in *. rewrite length_app, length_fmap. simpl in *. lia.
Qed.

(** A name in 8.3 form (1 to 8 characters, optionally a dot and 1 to 3 more, all of
    them allowed in short names) is encoded, and the entry made from the encoding,
    whatever its other bytes, is read as the upper-case name and matches the name
    again. *)
Theorem short_name_roundtrip name base ext :
  short_form name base ext →
  ∃ e, encode_short_name name = Some e ∧ length e = 11%nat ∧
    ∀ rest, build_short_name (e ++ rest) FAT32_NAME_MAX = upper <$> name ∧
      name_matches (build_short_name (e ++ rest) FAT32_NAME_MAX) name = true.
Proof. apply short_form_read. Qed.

Lemma short_name_witness :
  short_form [114; 101; 97; 100; 109; 101; 46; 116; 120; 116] [114; 101; 97; 100; 109; 101] [116; 120; 116] ∧
  ∃ e, encode_short_name [114; 101; 97; 100; 109; 101; 46; 116; 120; 116] = Some e.
Proof.
  assert (short_form [114; 101; 97; 100; 109; 101; 46; 116; 120; 116] [114; 101; 97; 100; 109; 101] [116; 120; 116]) as Hs.
  { split; [right; split; [reflexivity|discriminate]|unfold len; simpl; lia|unfold len; simpl; lia|repeat constructor]. }
  split; [exact Hs|]. destruct (short_name_roundtrip _ _ _ Hs) as (e & He & _). exists e. exact He.
Defined.

(** ** Long names *)

(** The 32 bytes of a part with sequence byte [sb], checksum [ck] and characters
    [cs 0] to [cs 12]. *)
Definition part_bytes (sb ck : Z) (cs : Z → Z) : list Z :=
  [sb; cs 0; 0; cs 1; 0; cs 2; 0; cs 3; 0; cs 4; 0; FAT32_DIR_ATTR_LFN; 0xFF; ck; cs 5; 0; cs 6; 0; cs 7; 0; cs 8; 0;
   cs 9; 0; cs 10; 0; 0; 0; cs 11; 0; cs 12; 0].

Lemma lfn_fill_explicit name start sq first ck cs :
  (∀ i, 0 ≤ i < 13 → char_at name (u32 (start + i)) = Some (cs i)) →
  lfn_fill_part name start sq first ck = Some (part_bytes (if first then u8 (Z.lor sq 0x40) else sq) ck cs).
Proof.
  intros Hc. unfold lfn_fill_part. set (sb := if first then _ else _). unfold char_offsets. cbn [fill_chars].
  rewrite !Hc by lia. reflexivity.
Qed.

Lemma parse_part_bytes sb ck cs :
  (∀ i, 0 ≤ i < 13 → 0 < cs i < 256) → lfn_parse_part (part_bytes sb ck cs) = cs <$> seqZ 0 13.
Proof.
  intros Hc. unfold lfn_parse_part. change (seqZ 0 13) with [0; 1; 2; 3; 4; 5; 6; 7; 8; 9; 10; 11; 12].
  cbn [seq parse_chars]. unfold lfn_off. cbn [Nat.ltb Nat.leb Nat.add Nat.sub Nat.mul]. unfold byte, part_bytes. cbn [nth].
  assert (∀ i, 0 ≤ i < 13 → u16 (Z.lor (cs i) (u16 (Z.shiftl 0 8))) = cs i) as E.
  { intros i Hi. change (u16 (Z.shiftl 0 8)) with 0. rewrite Z.lor_0_r. apply Z.mod_small. specialize (Hc i Hi). lia. }
  rewrite !E by lia. cbn [Z.eqb].
  assert (∀ i, 0 ≤ i < 13 → (cs i =? 0) || (cs i =? 0xFFFF) = false) as N by (intros i Hi; specialize (Hc i Hi); lia).
  rewrite !N by lia. reflexivity.
Qed.

(** The characters of a part inside the name. *)
Lemma lfn_fill_inside name start sq first ck :
  Forall (λ c, 0 < c < 256) name → 0 ≤ start → start + 13 ≤ len name → len name < 4294967296 →
  ∃ e, lfn_fill_part name start sq first ck = Some e ∧ length e = 32%nat ∧
    byte e 0 = (if first then u8 (Z.lor sq 0x40) else sq) ∧ byte e 11 = FAT32_DIR_ATTR_LFN ∧
    (is_u8 ck → is_u8 (byte e 0) → Forall is_u8 e) ∧ lfn_parse_part e = take 13 (drop (Z.to_nat start) name).
Proof.
  intros Hn Hs Hl Hlen. unfold len in *. set (cs := λ i, byte name (Z.to_nat (start + i))).
  assert (∀ i, 0 ≤ i < 13 → name !! Z.to_nat (start + i) = Some (cs i)) as Hcs.
  { intros i Hi. unfold cs, byte. destruct (lookup_lt_is_Some_2 name (Z.to_nat (start + i)) ltac:(lia)) as [x Hx].
    by rewrite (nth_lookup_Some _ _ 0 _ Hx). }
  assert (∀ i, 0 ≤ i < 13 → char_at name (u32 (start + i)) = Some (cs i)) as Hc.
  { intros i Hi. rewrite u32_small by lia. unfold char_at, len. replace (start + i <? 0) with false by lia.
    replace (start + i <? Z.of_nat (length name)) with true by lia. by apply Hcs. }
  eexists. split; [by apply lfn_fill_explicit|]. split; [done|]. split; [done|]. split; [done|].
  assert (∀ i, 0 ≤ i < 13 → 0 < cs i < 256) as Hr by (intros i Hi; specialize (Hcs i Hi); by apply (Forall_lookup_1 _ _ _ _ Hn Hcs)).
  split.
  { intros Hck Hsb. unfold part_bytes in *. assert (∀ i, 0 ≤ i < 13 → is_u8 (cs i)) as Hu by (intros i Hi; specialize (Hr i Hi); unfold is_u8; lia).
    repeat (apply Forall_cons_2; [first [exact Hsb | exact Hck | apply Hu; lia | unfold is_u8, FAT32_DIR_ATTR_LFN; lia]|]).
    apply Forall_nil_2. }
  rewrite parse_part_bytes; [|done].
  apply list_eq. intros i. rewrite list_lookup_fmap. destruct (decide (i < 13)%nat) as [Hi|Hi].
  - rewrite lookup_seqZ_lt, lookup_take_lt, lookup_drop by lia. simpl. rewrite <- Hcs by lia. f_equal. lia.
  - rewrite lookup_seqZ_ge, lookup_take_ge by lia. done.
Qed.

(** A part that would start before the name reads outside it. *)
Lemma lfn_fill_outside name k sq first ck :
  0 < k → k < 13 → len name < 4294967296 - 13 → lfn_fill_part name (u32 (- k)) sq first ck = None.
Proof.
  intros H0 Hk Hlen. unfold lfn_fill_part. set (sb := if first then _ else _). unfold char_offsets. cbn [fill_chars].
  assert (u32 (u32 (- k) + 0) = 4294967296 - k) as -> by (unfold u32; dlia).
  unfold char_at. replace (4294967296 - k <? 0) with false by lia. replace (4294967296 - k <? len name) with false by lia.
  replace (4294967296 - k =? len name) with false by lia. done.
Qed.

(** Assembling parts numbered from 1 in order. *)
Lemma append_chars_room cs size out : len out + len cs < size → append_chars cs size out = out ++ cs.
Proof.
  revert out. induction cs as [|x cs IH]; intros out Hl; [by rewrite app_nil_r|]. unfold len in *. cbn [length] in Hl.
  rewrite Nat2Z.inj_succ in Hl. cbn [append_chars]. unfold len at 1. replace (Z.of_nat (length out) + 1 <? size) with true by lia.
  rewrite IH; [by rewrite <- app_assoc|rewrite length_app; simpl; lia].
Qed.

Definition numbered (parts : list (list Z)) : list (Z * list Z) := imap (λ i p, (Z.of_nat i + 1, p)) parts.

Lemma find_numbered parts i p : parts !! i = Some p → List.find (λ q, q.1 =? Z.of_nat i + 1) (numbered parts) = Some (Z.of_nat i + 1, p).
Proof.
  unfold numbered. intros Hp.
  assert (∀ k l i, l !! i = Some p → List.find (λ q : Z * list Z, q.1 =? Z.of_nat (k + i) + 1)
    (imap (λ i p, (Z.of_nat (k + i) + 1, p)) l) = Some (Z.of_nat (k + i) + 1, p)) as Hg.
  { intros k l. revert k. induction l as [|x l IH]; intros k j Hj; [done|]. rewrite imap_cons. cbn [List.find compose fst].
    destruct j as [|j]; simpl in Hj.
    - injection Hj as ->. by rewrite Z.eqb_refl.
    - assert ((Z.of_nat (k + 0) + 1 =? Z.of_nat (k + S j) + 1) = false) as -> by (apply Z.eqb_neq; lia).
      specialize (IH (S k) j Hj). replace (k + S j)%nat with (S k + j)%nat by lia. rewrite <- IH. f_equal. apply imap_ext.
      intros i' x' _. simpl. do 2 f_equal. lia. }
  specialize (Hg 0%nat parts i Hp). simpl in Hg. rewrite <- Hg. f_equal.
Qed.

Lemma lfn_assemble_numbered parts size :
  len (concat parts) < size → lfn_assemble (numbered parts) size = concat parts.
Proof.
  intros Hl. unfold lfn_assemble. replace (length (numbered parts)) with (length parts) by (unfold numbered; by rewrite length_imap).
  assert (∀ n, (n ≤ length parts)%nat → foldl (λ out s, match List.find (λ q, q.1 =? s) (numbered parts) with
    | Some q => append_chars q.2 size out | None => out end) [] (seqZ 1 (Z.of_nat n)) = concat (take n parts)) as Hn.
  2:{ rewrite (Hn (length parts)) by lia. by rewrite take_ge. }
  induction n as [|n IH]; intros Hle; [done|]. rewrite Nat2Z.inj_succ, <- Z.add_1_r, seqZ_app by lia. rewrite foldl_app, IH by lia.
  destruct (lookup_lt_is_Some_2 parts n ltac:(lia)) as [p Hp]. change (seqZ (1 + Z.of_nat n) 1) with [1 + Z.of_nat n].
  cbn [foldl]. replace (1 + Z.of_nat n) with (Z.of_nat n + 1) by lia. rewrite (find_numbered parts n p Hp). cbn [snd].
  rewrite (take_S_r _ _ _ Hp), concat_app. cbn [concat]. rewrite app_nil_r. apply append_chars_room.
  assert (concat parts = concat (take n parts) ++ p ++ concat (drop (S n) parts)) as E.
  { rewrite <- (take_drop_middle _ _ _ Hp) at 1. by rewrite concat_app. }
  rewrite E in Hl. unfold len in *. rewrite !length_app in Hl. lia.
Qed.

(** ** A name that is lost *)

Lemma name_matches_length a b : name_matches a b = true → length a = length b.
Proof.
  revert b. induction a as [|x a IH]; intros [|y b]; simpl; try done. destruct (upper x =? upper y); [|done]. intros Hm. by rewrite (IH b).
Qed.

Lemma encode_base_nodot p out :
  Forall short_char p → encode_base p (-1) out = Some (out ++ (upper <$> take (8 - length out) p)).
Proof.
  revert out. induction p as [|c p IH]; intros out Hp; simpl; [by rewrite take_nil, app_nil_r|].
  apply Forall_cons in Hp as [Hc Hp]. unfold len. destruct (Z.ltb_spec (Z.of_nat (length out)) 8) as [Hl|Hl]; cbn [negb].
  - rewrite Hc. cbn [negb andb]. rewrite IH by done. rewrite length_app. simpl (length [_]).
    replace (8 - length out)%nat with (S (8 - (length out + 1))) by lia. simpl. by rewrite <- app_assoc.
  - replace (8 - length out)%nat with 0%nat by lia. by rewrite app_nil_r.
Qed.

Lemma valid_upper c : valid_short_char c = true → upper c = c ∧ short_char c.
Proof.
  intros Hc. assert (upper c = c) as E; [|split; [done|]; unfold short_char; by rewrite E].
  unfold upper. unfold valid_short_char in Hc. by replace ((97 <=? c) && (c <=? 122)) with false by lia.
Qed.

(** A name of more than 8 upper-case characters without a dot gets no long entries,
    although the comment promises them for every name the short form would lose: the
    entry holds its first 8 characters, and the name does not match it. *)
Theorem long_short_name_lost name :
  Forall (λ c, valid_short_char c = true) name → 8 < len name →
  lfn_parts_for name = 0 ∧
  ∃ e, encode_short_name name = Some e ∧
    ∀ rest, build_short_name (e ++ rest) FAT32_NAME_MAX = take 8 name ∧
      name_matches (build_short_name (e ++ rest) FAT32_NAME_MAX) name = false.
Proof.
  intros Hv Hl. unfold len in Hl.
  assert (Forall short_char name ∧ upper <$> name = name) as [Hs Hup].
  { split; [eapply Forall_impl; [exact Hv|]; intros x Hx; by apply valid_upper|].
    rewrite <- (list_fmap_id name) at 2. apply Forall_fmap_ext. eapply Forall_impl; [exact Hv|]. intros x Hx. by apply valid_upper. }
  assert (short_form (take 8 name) (take 8 name) [] ∧ encode_short_name name = encode_short_name (take 8 name)) as [Hsf Eenc].
  { assert (Forall short_char (take 8 name)) as Hs8 by (by apply Forall_take). split.
    - split; [by left|unfold len; rewrite length_take; lia|unfold len; simpl; lia|by rewrite app_nil_r].
    - unfold encode_short_name. rewrite (last_dot_app [] name Hs : last_dot name = _), (last_dot_app [] (take 8 name) Hs8 : last_dot (take 8 name) = _).
      change (last_dot []) with (-1). cbn [Z.eqb]. rewrite !encode_base_nodot by done. simpl (8 - length [])%nat.
      by rewrite take_take. }
  destruct (short_form_read _ _ _ Hsf) as (e & Ee & _ & Hread).
  assert (upper <$> take 8 name = take 8 name) as Hup8 by (rewrite fmap_take; by rewrite Hup).
  rewrite <- Eenc in Ee. split.
  - unfold lfn_parts_for. rewrite Ee. replace (short_is_exact name) with true; [done|]. symmetry. unfold short_is_exact.
    apply forallb_forall. intros x Hx. assert (valid_short_char x = true) as Hvx.
    { rewrite Forall_forall in Hv. apply Hv. by apply list_elem_of_In. }
    rewrite Hvx. unfold valid_short_char in Hvx. destruct (Z.eqb_spec x 32); [lia|]. cbn [negb orb andb].
    replace ((97 <=? x) && (x <=? 122)) with false by lia. cbn. by destruct (x =? 46).
  - exists e. split; [done|]. intros rest. destruct (Hread rest) as [Hb _]. rewrite Hb, Hup8. split; [done|].
    destruct (name_matches (take 8 name) name) eqn:E; [|done]. apply name_matches_length in E. rewrite length_take in E. lia.
Qed.

Lemma long_short_name_witness :
  lfn_parts_for [65; 66; 67; 68; 69; 70; 71; 72; 73] = 0 ∧
  ∃ e, encode_short_name [65; 66; 67; 68; 69; 70; 71; 72; 73] = Some e ∧
    name_matches (build_short_name (e ++ []) FAT32_NAME_MAX) [65; 66; 67; 68; 69; 70; 71; 72; 73] = false.
Proof.
  destruct (long_short_name_lost [65; 66; 67; 68; 69; 70; 71; 72; 73]) as (Hp & e & He & Hr).
  - repeat constructor.
  - unfold len. simpl. lia.
  - split; [exact Hp|]. exists e. split; [exact He|]. apply (Hr []).
Defined.

(** ** The bound on the components is enough *)

Lemma skip_slashes_length p : (length (skip_slashes p) ≤ length p)%nat.
Proof. induction p as [|c p IH]; simpl; [lia|]. destruct (c =? 47); simpl; lia. Qed.

Lemma take_component_length p size out : (length (take_component p size out).2 ≤ length p)%nat.
Proof.
  revert out. induction p as [|c p IH]; intros out; simpl; [lia|]. destruct (c =? 47); simpl; [lia|].
  specialize (IH (if len out + 1 <? size then out ++ [c] else out)). lia.
Qed.

Lemma skip_slashes_head p c q : skip_slashes p = c :: q → c ≠ 47.
Proof. induction p as [|x p IH]; simpl; [done|]. destruct (Z.eqb_spec x 47); [done|]. by intros [= <- _]. Qed.

Lemma split_component_shorter p size comp rest : split_component p size = Some (comp, rest) → (length rest < length p)%nat.
Proof.
  unfold split_component. pose proof (skip_slashes_length p) as Hs. destruct (skip_slashes p) as [|c q] eqn:E; [done|].
  pose proof (skip_slashes_head p c q E) as Hc. simpl in *. replace (c =? 47) with false by lia.
  pose proof (take_component_length q size (if len [] + 1 <? size then [] ++ [c] else [])) as Hl.
  destruct (take_component q size _) as [out r]. simpl in *. destruct (len out =? 0); [done|]. intros [= _ <-]. lia.
Qed.

(** More rounds than characters change nothing: the loop has ended. *)
Lemma split_path_fuel ok p acc n m :
  (length p < n)%nat → (length p < m)%nat → split_path n ok p acc = split_path m ok p acc.
Proof.
  revert p acc m. induction n as [|n IH]; intros p acc [|m] Hn Hm; try lia. simpl.
  destruct (split_component p FAT32_NAME_MAX) as [[comp rest]|] eqn:E; [|done]. apply split_component_shorter in E.
  destruct (8 <=? _); [done|]. destruct (negb _); [done|]. apply IH; lia.
Qed.
