(* ===== verification/Fat.v ===== *)
(** FAT32 volumes (fs/fat32.c): mounting, the allocation table, cluster chains, and
    reading and writing the data of a chain.

    The disk is reached through [block_read] and [block_write] only ([BlockIO]);
    cluster buffers are on the heap, where an allocation may fail.  Code that uses
    both runs in the monad [fatM]: the state passes through, and [None] is an access
    outside an object or a loop that does not end.  The static buffer [fat_sector]
    is always filled before it is used, so it is a local value.  All counters are
    [uint32_t].

    [fat_get] is the value of a table entry on the disk and [chain] the list of
    clusters that starts at one; the theorems say what every operation does to
    entries and to the bytes of clusters. *)

From stdpp Require Import prelude functions numbers list gmap.
From Stdlib Require Import ZArith Lia.
From S2P Require Import Prelude Memory Frames Kheap Alloc Bytes FatName.

Open Scope Z_scope.

Definition FAT32_EOC : Z := 0x0FFFFFF8.
Definition FAT32_BAD : Z := 0x0FFFFFF7.
Definition sizeof_fat32_ctx : Z := 48.

(** [fat32_ctx_t]; [fc_dev] is the pointer to the device. *)
Record fat32_ctx : Type := Fat32Ctx {
  fc_dev : Z;
  bytes_per_sector : Z;
  sectors_per_cluster : Z;
  reserved_sectors : Z;
  fat_count : Z;
  fat_size : Z;
  root_cluster : Z;
  data_start : Z;
  fat_start : Z;
  bytes_per_cluster : Z
}.

(** Block devices as a file system sees them: a read gives the bytes or fails, a
    write says whether it succeeded. *)
Class BlockIO (D : Type) : Type := {
  bio_sector_size : Z → D → Z;
  bio_read : Z → Z → Z → D → option (list Z);
  bio_write : Z → Z → Z → list Z → D → bool * D
}.

Record fat_state (D H : Type) : Type := FatState { f_disk : D; f_heap : H; f_ctxs : gmap Z fat32_ctx }.
Arguments FatState {D H}. Arguments f_disk {D H}. Arguments f_heap {D H}. Arguments f_ctxs {D H}.

(** ** The monad *)

Section Monad.
Context {S : Type}.

Definition stM (X : Type) : Type := S → option (X * S).
Definition ret {X} (x : X) : stM X := λ s, Some (x, s).
#[export] Instance stM_bind : MBind stM := λ X Y f m s, '(x, s) ← m s; f x s.
Definition fault {X} : stM X := λ _, None.
Definition lift {X} (o : option X) : stM X := λ s, x ← o; Some (x, s).

(** [while (1) { .. }]: [inl] goes round again with new locals, [inr] leaves. *)
Definition loop_step {L R} (body : L → stM (L + R)) (p : L * S) : L * S + option (R * S) :=
  match body p.1 p.2 with
  | None => inr None
  | Some (inl l, s) => inl (l, s)
  | Some (inr r, s) => inr (Some (r, s))
  end.
Definition loop {L R} (fuel : positive) (body : L → stM (L + R)) (l : L) : stM R :=
  λ s, mjoin (while_ fuel (loop_step body) (l, s)).

(** The computation ends without a fault, in a result and a state with [Q]. *)
Definition runs {X} (m : stM X) (s : S) (Q : X → S → Prop) : Prop := ∃ x s', m s = Some (x, s') ∧ Q x s'.

Lemma runs_ret {X} (x : X) s (Q : X → S → Prop) : Q x s → runs (ret x) s Q.
Proof. intros HQ. by exists x, s. Qed.

Lemma runs_bind {X Y} (m : stM X) (f : X → stM Y) s (P : X → S → Prop) (Q : Y → S → Prop) :
  runs m s P → (∀ x s', P x s' → runs (f x) s' Q) → runs (m ≫= f) s Q.
Proof.
  intros (x & s1 & E & HP) Hf. destruct (Hf x s1 HP) as (y & s2 & E2 & HQ). exists y, s2. split; [|done].
  unfold mbind, stM_bind. by rewrite E.
Qed.

Lemma runs_weaken {X} (m : stM X) s (P Q : X → S → Prop) : runs m s P → (∀ x s', P x s' → Q x s') → runs m s Q.
Proof. intros (x & s' & E & HP) HPQ. exists x, s'. split; [done|]. by apply HPQ. Qed.

Lemma bind_run {X Y} (m : stM X) (f : X → stM Y) s x s' : m s = Some (x, s') → (m ≫= f) s = f x s'.
Proof. intros E. unfold mbind, stM_bind. by rewrite E. Qed.

Lemma bind_fault {X Y} (m : stM X) (f : X → stM Y) s : m s = None → (m ≫= f) s = None.
Proof. intros E. unfold mbind, stM_bind. by rewrite E. Qed.

(** A loop with an invariant and a measure ends. *)
Lemma runs_loop {L R} fuel (body : L → stM (L + R)) l s (I : L → S → Prop) (μ : L → S → Z) (Q : R → S → Prop) :
  I l s → μ l s < Zpos fuel →
  (∀ l s, I l s → 0 ≤ μ l s ∧
    runs (body l) s (λ r s', match r with inl l' => I l' s' ∧ μ l' s' < μ l s | inr x => Q x s' end)) →
  runs (loop fuel body l) s Q.
Proof.
  intros HI Hm Hb. unfold loop, runs.
  destruct (while_total (λ p, I p.1 p.2) (λ p, μ p.1 p.2) (λ r, ∃ x s', r = Some (x, s') ∧ Q x s') fuel
    (loop_step body) (l, s) HI Hm) as (r & -> & x & s' & -> & HQ).
  - intros [l1 s1] HI1. cbn [fst snd] in *. destruct (Hb l1 s1 HI1) as (H0 & r & s2 & E & Hr). split; [done|].
    unfold loop_step. cbn [fst snd]. rewrite E. destruct r as [l2|x]; [done|]. by exists x, s2.
  - by exists x, s'.
Qed.
End Monad.
Arguments stM : clear implicits.

(** More rounds than a 32-bit counter has values. *)
Definition fat_fuel : positive := 4294967298.

Section Fat.
Context {D H : Type} `{!BlockIO D, !HeapAllocator H}.
Notation fatM := (stM (fat_state D H)).

Definition with_disk (d : D) (s : fat_state D H) : fat_state D H := FatState d (f_heap s) (f_ctxs s).
Definition with_fheap (h : H) (s : fat_state D H) : fat_state D H := FatState (f_disk s) h (f_ctxs s).

Definition block_read (dev lba count : Z) : fatM (option (list Z)) := λ s, Some (bio_read dev lba count (f_disk s), s).
Definition block_write (dev lba count : Z) (data : list Z) : fatM bool :=
  λ s, let '(ok, d) := bio_write dev lba count data (f_disk s) in Some (ok, with_disk d s).
Definition kalloc (size : Z) : fatM Z := λ s, '(p, h) ← ha_alloc size 16 (f_heap s); Some (p, with_fheap h s).
Definition kfree (p : Z) : fatM () := λ s, h ← ha_free p (f_heap s); Some ((), with_fheap h s).

Definition le16 (b : list Z) (o : nat) : Z := Z.lor (byte b o) (Z.shiftl (byte b (o + 1)) 8).
Definition le32 (b : list Z) (o : nat) : Z :=
  Z.lor (Z.lor (Z.lor (byte b o) (Z.shiftl (byte b (o + 1)) 8)) (Z.shiftl (byte b (o + 2)) 16)) (Z.shiftl (byte b (o + 3)) 24).

Definition FAT32_SIGNATURE : list Z := [70; 65; 84; 51; 50; 32; 32; 32].

Definition fat32_probe (dev : Z) : fatM bool := λ s,
  if (dev =? 0) || negb (bio_sector_size dev (f_disk s) =? 512) then Some (false, s)
  else
    (r ← block_read dev 0 1;
     match r with
     | None => ret false
     | Some b =>
         if negb (byte b 510 =? 0x55) || negb (byte b 511 =? 0xAA) then ret false
         else if bool_decide (take 8 (drop 82 b) = FAT32_SIGNATURE) then ret true
         else ret (negb (le16 b 14 =? 0) && negb (byte b 16 =? 0) && negb (le32 b 36 =? 0) && (2 <=? le32 b 44))
     end) s.

(** The context of a boot sector; [None] is the sector being refused. *)
Definition parse_bpb (dev : Z) (b : list Z) : option fat32_ctx :=
  let bps := le16 b 11 in
  let spc := byte b 13 in
  if negb (bps =? 512) then None
  else if (spc =? 0) || negb (Z.land spc (spc - 1) =? 0) then None
  else if (byte b 16 =? 0) || (le32 b 36 =? 0) || (le32 b 44 <? 2) then None
  else Some (Fat32Ctx dev bps spc (le16 b 14) (byte b 16) (le32 b 36) (le32 b 44)
               (u32 (le16 b 14 + byte b 16 * le32 b 36)) (le16 b 14) (bps * spc)).

Definition add_ctx (p : Z) (c : fat32_ctx) : fatM () := λ s, Some ((), FatState (f_disk s) (f_heap s) (<[p := c]> (f_ctxs s))).

(** The address of the new context, or 0 for [false]. *)
Definition fat32_mount (dev : Z) : fatM Z :=
  if dev =? 0 then ret 0
  else
    p ← kalloc sizeof_fat32_ctx;
    if p =? 0 then ret 0
    else
      r ← block_read dev 0 1;
      match r ≫= parse_bpb dev with
      | None => ret 0
      | Some c => add_ctx p c;; ret p
      end.

Definition cluster_to_lba (c : fat32_ctx) (cluster : Z) : Z :=
  u32 (data_start c + u32 (u32 (cluster - 2) * sectors_per_cluster c)).
Definition cluster_valid (cluster : Z) : bool := (2 <=? cluster) && (cluster <? FAT32_BAD).

Definition entry_lba (c : fat32_ctx) (cluster : Z) : Z := u32 (fat_start c + u32 (cluster * 4) / bytes_per_sector c).
Definition entry_off (c : fat32_ctx) (cluster : Z) : nat := Z.to_nat (u32 (cluster * 4) mod bytes_per_sector c).

Definition fat_read_entry (c : fat32_ctx) (cluster : Z) : fatM Z :=
  r ← block_read (fc_dev c) (entry_lba c cluster) 1;
  match r with
  | None => ret FAT32_BAD
  | Some b => ret (Z.land (le32 b (entry_off c cluster)) 0x0FFFFFFF)
  end.

Definition put32 (b : list Z) (o : nat) (v : Z) : list Z :=
  <[(o + 3)%nat := u8 (Z.shiftr v 24)]> (<[(o + 2)%nat := u8 (Z.shiftr v 16)]>
    (<[(o + 1)%nat := u8 (Z.shiftr v 8)]> (<[o := u8 v]> b))).

Definition fat_write_entry (c : fat32_ctx) (cluster value : Z) : fatM bool :=
  r ← block_read (fc_dev c) (entry_lba c cluster) 1;
  match r with
  | None => ret false
  | Some b =>
      let o := entry_off c cluster in
      let newval := Z.lor (Z.land (le32 b o) 0xF0000000) (Z.land value 0x0FFFFFFF) in
      block_write (fc_dev c) (entry_lba c cluster) 1 (put32 b o newval)
  end.

Definition cluster_read (c : fat32_ctx) (cluster count : Z) : fatM (option (list Z)) :=
  block_read (fc_dev c) (cluster_to_lba c cluster) count.
Definition cluster_write (c : fat32_ctx) (cluster : Z) (data : list Z) : fatM bool :=
  block_write (fc_dev c) (cluster_to_lba c cluster) (sectors_per_cluster c) data.

(** [fat32_read]: the bytes stored in the buffer; [tmp] is the address of the bounce
    buffer. *)
Definition read_round (c : fat32_ctx) (buffer_size : Z) (l : list Z * Z * Z)
    : fatM (list Z * Z * Z + list Z * Z) :=
  let '(out, cluster, tmp) := l in
  let total := len out in
  if negb (cluster_valid cluster && (total <? buffer_size)) then ret (inr (out, tmp))
  else
    let chunk := Z.min (bytes_per_cluster c) (buffer_size - total) in
    let sectors := chunk / bytes_per_sector c in
    if (0 <? sectors) && (chunk mod bytes_per_sector c =? 0) then
      r ← cluster_read c cluster sectors;
      match r with
      | None => ret (inr (out, tmp))
      | Some b => next ← fat_read_entry c cluster; ret (inl (out ++ b, next, tmp))
      end
    else
      tmp ← (if tmp =? 0 then kalloc (bytes_per_cluster c) else ret tmp);
      if tmp =? 0 then ret (inr (out, tmp))
      else
        r ← cluster_read c cluster (sectors_per_cluster c);
        match r with
        | None => ret (inr (out, tmp))
        | Some b => next ← fat_read_entry c cluster; ret (inl (out ++ take (Z.to_nat chunk) b, next, tmp))
        end.

Definition fat32_read (c : fat32_ctx) (start_cluster buffer_size : Z) : fatM (list Z) :=
  if buffer_size =? 0 then ret []
  else
    r ← loop fat_fuel (read_round c buffer_size) ([], start_cluster, 0);
    let '(out, tmp) := r in
    (if truthy tmp then kfree tmp else ret ());;
    ret out.

(** The walk to the cluster of an offset: the clusters passed and the one reached. *)
Definition seek_round (c : fat32_ctx) (stop : Z) (l : Z * Z * Z) : fatM (Z * Z * Z + Z * Z) :=
  let '(cl_idx, prev, cluster) := l in
  if (cl_idx <? stop) && cluster_valid cluster then
    next ← fat_read_entry c cluster; ret (inl (cl_idx + 1, cluster, next))
  else ret (inr (prev, cluster)).

Definition read_at_round (c : fat32_ctx) (buffer_size : Z) (l : list Z * Z * Z)
    : fatM (list Z * Z * Z + list Z) :=
  let '(out, cluster, in_cluster) := l in
  let bpc := bytes_per_cluster c in
  if negb (len out <? buffer_size) then ret (inr out)
  else
    let chunk := Z.min (buffer_size - len out) (bpc - in_cluster) in
    r ← cluster_read c cluster (sectors_per_cluster c);
    match r with
    | None => ret (inr out)
    | Some b =>
        let out := out ++ (if (in_cluster =? 0) && (chunk =? bpc) then b
                           else take (Z.to_nat chunk) (drop (Z.to_nat in_cluster) b)) in
        let in_cluster := in_cluster + chunk in
        if in_cluster =? bpc then
          next ← fat_read_entry c cluster;
          if negb (cluster_valid next) then ret (inr out) else ret (inl (out, next, 0))
        else ret (inl (out, cluster, in_cluster))
    end.

Definition fat32_read_at (c : fat32_ctx) (start_cluster offset buffer_size : Z) : fatM (list Z) :=
  if buffer_size =? 0 then ret []
  else
    let bpc := bytes_per_cluster c in
    r ← loop fat_fuel (seek_round c (offset / bpc)) (0, start_cluster, start_cluster);
    let '(_, cluster) := r in
    if negb (cluster_valid cluster) then ret []
    else
      tmp ← kalloc bpc;
      if tmp =? 0 then ret []
      else
        out ← loop fat_fuel (read_at_round c buffer_size) ([], cluster, offset mod bpc);
        kfree tmp;;
        ret out.

(** ** Allocation *)

Definition find_round (c : fat32_ctx) (total : Z) (cl : Z) : fatM (Z + Z) :=
  if negb (cl <? total) then ret (inr 0)
  else v ← fat_read_entry c cl; if v =? 0 then ret (inr cl) else ret (inl (cl + 1)).

Definition fat32_find_free (c : fat32_ctx) : fatM Z :=
  loop fat_fuel (find_round c (u32 (fat_size c * bytes_per_sector c) / 4)) 2.

Definition fat32_alloc_cluster (c : fat32_ctx) : fatM Z :=
  cl ← fat32_find_free c;
  if cl =? 0 then ret 0
  else ok ← fat_write_entry c cl FAT32_EOC; ret (if (ok : bool) then cl else 0).

Definition free_round (c : fat32_ctx) (l : Z * Z) : fatM (Z * Z + ()) :=
  let '(cl, guard) := l in
  if negb (cluster_valid cl && (guard <? 0x1000000)) then ret (inr ())
  else
    next ← fat_read_entry c cl;
    ok ← fat_write_entry c cl 0;
    if negb ok then ret (inr ())
    else if (next =? cl) || (FAT32_BAD <=? next) then ret (inr ())
    else ret (inl (next, guard + 1)).

Definition fat32_free_chain (c : fat32_ctx) (start : Z) : fatM () := loop fat_fuel (free_round c) (start, 0).

(** ** Writing the data of a chain *)

(** The cluster to write to, allocated and linked when the chain has ended; [None]
    is the [break]. *)
Definition write_target (c : fat32_ctx) (first prev cluster : Z) : fatM (option (Z * Z)) :=
  if cluster_valid cluster then ret (Some (first, cluster))
  else
    newcl ← fat32_alloc_cluster c;
    if newcl =? 0 then ret None
    else if first =? 0 then ret (Some (newcl, newcl))
    else
      ok ← fat_write_entry c prev newcl;
      if negb ok then fat32_free_chain c newcl;; ret None else ret (Some (first, newcl)).

(** [data] copied into a buffer at [off]. *)
Definition splice (buf : list Z) (off : nat) (data : list Z) : list Z :=
  take off buf ++ data ++ drop (off + length data) buf.

(** One chunk into the cluster. *)
Definition write_chunk (c : fat32_ctx) (cluster in_cluster : Z) (data : list Z) : fatM bool :=
  if (in_cluster =? 0) && (len data =? bytes_per_cluster c) then cluster_write c cluster data
  else
    r ← cluster_read c cluster (sectors_per_cluster c);
    match r with
    | None => ret false
    | Some b => cluster_write c cluster (splice b (Z.to_nat in_cluster) data)
    end.

(** Locals: [done], [*first_cluster], [prev], [cluster], [in_cluster]. *)
Definition write_round (c : fat32_ctx) (src : list Z) (size : Z) (l : Z * Z * Z * Z * Z)
    : fatM (Z * Z * Z * Z * Z + Z * Z) :=
  let '(done, first, prev, cluster, in_cluster) := l in
  let bpc := bytes_per_cluster c in
  if negb (done <? size) then ret (inr (done, first))
  else
    t ← write_target c first prev cluster;
    match t with
    | None => ret (inr (done, first))
    | Some (first, cluster) =>
        let chunk := Z.min (size - done) (bpc - in_cluster) in
        ok ← write_chunk c cluster in_cluster (take (Z.to_nat chunk) (drop (Z.to_nat done) src));
        if negb ok then ret (inr (done, first))
        else
          let done := done + chunk in
          let in_cluster := in_cluster + chunk in
          if in_cluster =? bpc then
            next ← fat_read_entry c cluster; ret (inl (done, first, cluster, next, 0))
          else ret (inl (done, first, prev, cluster, in_cluster))
    end.

(** The bytes written and the first cluster of the file afterwards.  [src] holds
    the [size] bytes of the buffer. *)
Definition fat32_write (c : fat32_ctx) (first_cluster offset : Z) (src : list Z) (size : Z) : fatM (Z * Z) :=
  if size =? 0 then ret (0, first_cluster)
  else
    let bpc := bytes_per_cluster c in
    cbuf ← kalloc bpc;
    if cbuf =? 0 then ret (0, first_cluster)
    else
      r ← loop fat_fuel (seek_round c (offset / bpc)) (0, first_cluster, first_cluster);
      let '(prev, cluster) := r in
      r ← loop fat_fuel (write_round c src size) (0, first_cluster, prev, cluster, offset mod bpc);
      kfree cbuf;;
      ret r.
End Fat.

(** ** Volumes *)

Definition bio_bytes (f : Z → Z) (a n : Z) : list Z := (λ i, f (a + i)) <$> seqZ 0 n.

Lemma len_bio_bytes f a n : 0 ≤ n → len (bio_bytes f a n) = n.
Proof. intros Hn. unfold len, bio_bytes. rewrite length_fmap, length_seqZ. lia. Qed.

Lemma byte_bio_bytes f a n i : Z.of_nat i < n → byte (bio_bytes f a n) i = f (a + Z.of_nat i).
Proof.
  intros Hi. unfold byte, bio_bytes. apply nth_lookup_Some with (d := 0).
  rewrite list_lookup_fmap, lookup_seqZ_lt by lia. simpl. do 2 f_equal.
Qed.

Lemma byte_lookup (l : list Z) i : (i < length l)%nat → l !! i = Some (byte l i).
Proof. intros Hi. unfold byte. destruct (lookup_lt_is_Some_2 l i Hi) as [x Hx]. by rewrite (nth_lookup_Some l i 0 x Hx). Qed.

Lemma byte_ext (l k : list Z) : length l = length k → (∀ i, (i < length l)%nat → byte l i = byte k i) → l = k.
Proof.
  intros Hl He. apply list_eq. intros i. destruct (decide (i < length l)%nat) as [Hi|Hi].
  - rewrite !byte_lookup by lia. by rewrite He.
  - rewrite !lookup_ge_None_2 by lia. done.
Qed.

Lemma byte_insert_eq (l : list Z) i v : (i < length l)%nat → byte (<[i := v]> l) i = v.
Proof. intros Hi. unfold byte. apply nth_lookup_Some. by apply list_lookup_insert_eq. Qed.
Lemma byte_insert_ne (l : list Z) i j v : i ≠ j → byte (<[i := v]> l) j = byte l j.
Proof. intros Hi. unfold byte. rewrite !nth_lookup. by rewrite list_lookup_insert_ne. Qed.

(** The value of four bytes. *)
Lemma le32_val b o :
  is_u8 (byte b o) → is_u8 (byte b (o + 1)) → is_u8 (byte b (o + 2)) → is_u8 (byte b (o + 3)) →
  le32 b o = byte b o + 256 * byte b (o + 1) + 65536 * byte b (o + 2) + 16777216 * byte b (o + 3).
Proof.
  unfold le32, is_u8. intros H0 H1 H2 H3. rewrite (lor_add _ _ 8), (lor_add _ _ 16), (lor_add _ _ 24) by lia. lia.
Qed.

Lemma le16_val b o :
  is_u8 (byte b o) → is_u8 (byte b (o + 1)) → le16 b o = byte b o + 256 * byte b (o + 1).
Proof. unfold le16, is_u8. intros H0 H1. rewrite lor_add by lia. lia. Qed.

Lemma length_put32 b o v : length (put32 b o v) = length b.
Proof. unfold put32. by rewrite !length_insert. Qed.

(** Decides the comparisons of indices. *)
Ltac natcmp :=
  repeat match goal with
  | |- context [(?i =? ?j)%nat] => first [rewrite (proj2 (Nat.eqb_eq i j)) by lia | rewrite (proj2 (Nat.eqb_neq i j)) by lia]
  end.

Lemma byte_put32 b o v i :
  (o + 3 < length b)%nat →
  byte (put32 b o v) i =
  if (i =? o)%nat then u8 v else if (i =? o + 1)%nat then u8 (Z.shiftr v 8)
  else if (i =? o + 2)%nat then u8 (Z.shiftr v 16) else if (i =? o + 3)%nat then u8 (Z.shiftr v 24) else byte b i.
Proof.
  intros Ho. unfold put32.
  destruct (Nat.eqb_spec i (o + 3)) as [-> |H3].
  { rewrite byte_insert_eq by (rewrite !length_insert; lia).
    by natcmp. }
  rewrite byte_insert_ne by done. destruct (Nat.eqb_spec i (o + 2)) as [-> |H2].
  { rewrite byte_insert_eq by (rewrite !length_insert; lia).
    by natcmp. }
  rewrite byte_insert_ne by done. destruct (Nat.eqb_spec i (o + 1)) as [-> |H1].
  { rewrite byte_insert_eq by (rewrite !length_insert; lia).
    by natcmp. }
  rewrite byte_insert_ne by done. destruct (Nat.eqb_spec i o) as [-> |H0]; [apply byte_insert_eq; lia|by apply byte_insert_ne].
Qed.

Lemma le32_put32 b o v : (o + 3 < length b)%nat → 0 ≤ v < 4294967296 → le32 (put32 b o v) o = v.
Proof.
  intros Ho Hv. rewrite le32_val; rewrite !byte_put32 by done;
    natcmp; try apply u8_range.
  unfold u8. rewrite !Z.shiftr_div_pow2 by lia. simpl (2 ^ _). dlia.
Qed.

(** What the file system relies on: transfers inside the device succeed, and the
    device keeps its bytes. *)
Class BlockIOOk (D : Type) `{!BlockIO D} : Type := {
  bio_size : Z → D → Z;
  bio_byte : Z → D → Z → Z;
  bio_byte_u8 : ∀ dev d x, is_u8 (bio_byte dev d x);
  bio_read_spec : ∀ dev d lba count, 0 ≤ lba → 0 < count → lba + count ≤ bio_size dev d →
    bio_read dev lba count d = Some (bio_bytes (bio_byte dev d) (512 * lba) (512 * count));
  bio_write_spec : ∀ dev d lba count data, 0 ≤ lba → 0 < count → lba + count ≤ bio_size dev d →
    len data = 512 * count → Forall is_u8 data →
    ∃ d', bio_write dev lba count data d = (true, d') ∧ bio_size dev d' = bio_size dev d ∧
      ∀ x, bio_byte dev d' x =
        if (512 * lba <=? x) && (x <? 512 * (lba + count)) then byte data (Z.to_nat (x - 512 * lba))
        else bio_byte dev d x
}.

Section Volume.
Context {D H : Type} `{!BlockIO D, !BlockIOOk D, !HeapAllocator H, !HeapAllocatorOk H}.
Context (c : fat32_ctx).
Notation fatM := (stM (fat_state D H)).
Implicit Types s : fat_state D H.

(** The number of entries of the table. *)
Definition entries : Z := fat_size c * 128.

(** The geometry of a volume whose table and clusters lie inside the device. *)
Record geometry (sectors : Z) : Prop := {
  ge_bps : bytes_per_sector c = 512;
  ge_spc : 1 ≤ sectors_per_cluster c ≤ 128;
  ge_bpc : bytes_per_cluster c = 512 * sectors_per_cluster c;
  ge_fat : 0 < fat_size c ∧ entries ≤ FAT32_BAD;
  ge_start : 0 ≤ fat_start c ∧ fat_start c + fat_size c ≤ data_start c;
  ge_data : data_start c + (entries - 2) * sectors_per_cluster c ≤ sectors;
  ge_lba : sectors ≤ 4294967296
}.

Notation disk_byte s := (bio_byte (fc_dev c) (f_disk s)) (only parsing).

Definition fat_word s (cl : Z) : Z := le32 (bio_bytes (disk_byte s) (512 * fat_start c + 4 * cl) 4) 0.
Definition fat_get s (cl : Z) : Z := Z.land (fat_word s cl) 0x0FFFFFFF.
Definition cluster_bytes s (cl : Z) : list Z :=
  bio_bytes (disk_byte s) (512 * (data_start c + (cl - 2) * sectors_per_cluster c)) (bytes_per_cluster c).

(** The volume holds the table [F] and the clusters [B]; [X] are the live heap
    pointers. *)
Record vol s (F : Z → Z) (B : Z → list Z) (X : gset Z) : Prop := {
  vol_geom : geometry (bio_size (fc_dev c) (f_disk s));
  vol_fat : ∀ cl, 0 ≤ cl < entries → fat_get s cl = F cl;
  vol_data : ∀ cl, 2 ≤ cl < entries → cluster_bytes s cl = B cl;
  vol_heap : ha_ok (f_heap s) X
}.

Lemma entry_at n cl : geometry n → 0 ≤ cl < entries →
  entry_lba c cl = fat_start c + 4 * cl / 512 ∧ Z.of_nat (entry_off c cl) = 4 * cl mod 512 ∧
  fat_start c + 4 * cl / 512 + 1 ≤ n ∧ 4 * cl mod 512 + 4 ≤ 512 ∧
  512 * (fat_start c + 4 * cl / 512) + 4 * cl mod 512 = 512 * fat_start c + 4 * cl ∧
  4 * cl / 512 + 1 ≤ fat_size c.
Proof.
  intros [Hb Hs Hp [Hf Hbad] [H0 Hst] Hd Hl] Hcl. unfold entry_lba, entry_off, entries, FAT32_BAD in *.
  rewrite Hb, (u32_small (cl * 4)) by lia. rewrite (Z.mul_comm cl 4).
  pose proof (Z.mod_pos_bound (4 * cl) 512). pose proof (Z.div_mod (4 * cl) 512).
  assert (4 * cl / 512 + 1 ≤ fat_size c) by dlia.
  assert (0 ≤ (fat_size c * 128 - 2) * sectors_per_cluster c) by (apply Z.mul_nonneg_nonneg; lia).
  rewrite u32_small by (split; [apply Z.add_nonneg_nonneg; [lia|apply Z.div_pos; lia]|lia]).
  rewrite Z2Nat.id by lia. split_and!; lia.
Qed.

Lemma cluster_at n cl : geometry n → 2 ≤ cl < entries →
  cluster_to_lba c cl = data_start c + (cl - 2) * sectors_per_cluster c ∧
  0 ≤ data_start c + (cl - 2) * sectors_per_cluster c ∧
  data_start c + (cl - 2) * sectors_per_cluster c + sectors_per_cluster c ≤ n.
Proof.
  intros [Hb Hs Hp [Hf Hbad] [H0 Hst] Hd Hl] Hcl. unfold cluster_to_lba, entries, FAT32_BAD in *.
  assert (0 ≤ (cl - 2) * sectors_per_cluster c) by (apply Z.mul_nonneg_nonneg; lia).
  assert ((cl - 2) * sectors_per_cluster c + sectors_per_cluster c ≤ (fat_size c * 128 - 2) * sectors_per_cluster c).
  { replace ((cl - 2) * sectors_per_cluster c + sectors_per_cluster c) with ((cl - 1) * sectors_per_cluster c) by lia.
    apply Z.mul_le_mono_nonneg_r; lia. }
  rewrite (u32_small (cl - 2)), (u32_small ((cl - 2) * _)), u32_small by lia. split_and!; lia.
Qed.

Lemma entry_valid n cl : geometry n → 2 ≤ cl < entries → cluster_valid cl = true.
Proof. intros Hg Hcl. unfold cluster_valid. destruct (ge_fat _ Hg) as [_ Hb]. lia. Qed.

(** The sector of a table entry. *)
Lemma sector_read s cl : geometry (bio_size (fc_dev c) (f_disk s)) → 0 ≤ cl < entries →
  ∃ b, bio_read (fc_dev c) (entry_lba c cl) 1 (f_disk s) = Some b ∧ len b = 512 ∧
    (∀ i, (i < 512)%nat → byte b i = disk_byte s (512 * entry_lba c cl + Z.of_nat i)) ∧
    le32 b (entry_off c cl) = fat_word s cl.
Proof.
  intros Hg Hcl. destruct (entry_at _ cl Hg Hcl) as (El & Eo & Hn & Ho & Ea & _).
  destruct (ge_start _ Hg) as [H0 _]. pose proof (Z.div_pos (4 * cl) 512 ltac:(lia) ltac:(lia)).
  rewrite bio_read_spec by lia. eexists. split; [done|]. rewrite len_bio_bytes by lia. split; [done|].
  assert (∀ i, (i < 512)%nat → byte (bio_bytes (disk_byte s) (512 * entry_lba c cl) (512 * 1)) i =
    disk_byte s (512 * entry_lba c cl + Z.of_nat i)) as Hb by (intros i Hi; apply byte_bio_bytes; lia).
  split; [done|]. unfold fat_word, le32. rewrite !Hb by lia. rewrite !byte_bio_bytes by lia.
  rewrite !Nat2Z.inj_add, !Z.add_assoc.
  replace (512 * entry_lba c cl + Z.of_nat (entry_off c cl)) with (512 * fat_start c + 4 * cl) by lia.
  by rewrite !Z.add_0_r.
Qed.

Lemma fat_read_entry_ok s F B X cl : vol s F B X → 0 ≤ cl < entries → fat_read_entry c cl s = Some (F cl, s).
Proof.
  intros Hv Hcl. destruct (sector_read s cl (vol_geom _ _ _ _ Hv) Hcl) as (b & Hb & _ & _ & Ew).
  unfold fat_read_entry, block_read, mbind, stM_bind. rewrite Hb. obind. unfold ret. rewrite Ew.
  by rewrite <- (vol_fat _ _ _ _ Hv cl Hcl).
Qed.

Lemma read_entry_runs s F B X cl :
  vol s F B X → 0 ≤ cl < entries → runs (fat_read_entry c cl) s (λ v s', v = F cl ∧ s' = s).
Proof. intros Hv Hcl. exists (F cl), s. split; [by eapply fat_read_entry_ok|done]. Qed.

(** What is on the disk outside the bytes that changed. *)
Lemma fat_word_frame s s' cl :
  (∀ x, 512 * fat_start c + 4 * cl ≤ x < 512 * fat_start c + 4 * cl + 4 → disk_byte s' x = disk_byte s x) →
  fat_word s' cl = fat_word s cl.
Proof. intros He. unfold fat_word, le32. rewrite !byte_bio_bytes by lia. by rewrite !He by lia. Qed.

Lemma bio_bytes_frame f g a n : (∀ x, a ≤ x < a + n → f x = g x) → bio_bytes f a n = bio_bytes g a n.
Proof.
  intros He. unfold bio_bytes. apply list_fmap_ext. intros i x Hx. apply lookup_seqZ in Hx as [-> Hi]. apply He. lia.
Qed.

Lemma disk_u8 s x : is_u8 (disk_byte s x).
Proof. apply bio_byte_u8. Qed.

Lemma fat_word_u32 s cl : 0 ≤ fat_word s cl < 4294967296.
Proof.
  unfold fat_word. assert (∀ k, (k < 4)%nat → is_u8 (byte (bio_bytes (disk_byte s) (512 * fat_start c + 4 * cl) 4) k)) as Hb.
  { intros k Hk. rewrite byte_bio_bytes by lia. apply disk_u8. }
  rewrite le32_val by (apply Hb; lia). pose proof (Hb 0%nat ltac:(lia)). pose proof (Hb 1%nat ltac:(lia)).
  pose proof (Hb 2%nat ltac:(lia)). pose proof (Hb 3%nat ltac:(lia)). unfold is_u8 in *. simpl Nat.add. lia.
Qed.

(** The new value of an entry: the four reserved bits stay. *)
Definition new_word (w v : Z) : Z := Z.lor (Z.land w 0xF0000000) (Z.land v 0x0FFFFFFF).

Lemma land28 v : Z.land v 0x0FFFFFFF = v mod 2 ^ 28.
Proof. change 0x0FFFFFFF with (Z.ones 28). apply Z.land_ones. lia. Qed.

Lemma new_word_val w v : new_word w v = v mod 2 ^ 28 + w / 2 ^ 28 mod 16 * 2 ^ 28.
Proof.
  unfold new_word. rewrite land28, Z.lor_comm.
  assert (Z.land w 0xF0000000 = Z.shiftl (Z.land (Z.shiftr w 28) (Z.ones 4)) 28) as ->.
  { change 0xF0000000 with (Z.shiftl (Z.ones 4) 28). apply Z.bits_inj'. intros n Hn. rewrite Z.land_spec.
    destruct (Z.lt_ge_cases n 28).
    - rewrite !Z.shiftl_spec_low by lia. apply andb_false_r.
    - rewrite !Z.shiftl_spec by lia. rewrite Z.land_spec, Z.shiftr_spec by lia.
      replace (n - 28 + 28) with n by lia. done. }
  rewrite lor_add by (done || apply Z.mod_pos_bound; lia).
  by rewrite Z.land_ones, Z.shiftr_div_pow2 by lia.
Qed.

Lemma new_word_u32 w v : 0 ≤ new_word w v < 4294967296.
Proof.
  rewrite new_word_val. pose proof (Z.mod_pos_bound v (2 ^ 28) ltac:(lia)).
  pose proof (Z.mod_pos_bound (w / 2 ^ 28) 16 ltac:(lia)). lia.
Qed.

Lemma new_word_value w v : Z.land (new_word w v) 0x0FFFFFFF = Z.land v 0x0FFFFFFF.
Proof. rewrite !land28, new_word_val, Z.mod_add by lia. by rewrite Z.mod_mod by lia. Qed.

(** The sector written back differs from the one read in the entry only. *)
Lemma put_sector s cl b v x :
  0 ≤ cl < entries → geometry (bio_size (fc_dev c) (f_disk s)) → len b = 512 →
  (∀ i, (i < 512)%nat → byte b i = disk_byte s (512 * entry_lba c cl + Z.of_nat i)) →
  let a := 512 * fat_start c + 4 * cl in
  (if (512 * entry_lba c cl <=? x) && (x <? 512 * (entry_lba c cl + 1))
   then byte (put32 b (entry_off c cl) v) (Z.to_nat (x - 512 * entry_lba c cl)) else disk_byte s x) =
  if (a <=? x) && (x <? a + 4) then byte (put32 b (entry_off c cl) v) (Z.to_nat (x - a) + entry_off c cl) else disk_byte s x.
Proof.
  intros Hcl Hg Hl Hb a. destruct (entry_at _ cl Hg Hcl) as (El & Eo & Hn & Ho & Ea & _).
  assert (512 * entry_lba c cl + Z.of_nat (entry_off c cl) = a) as Ea' by (unfold a; lia).
  assert (Z.of_nat (entry_off c cl) + 4 ≤ 512) as Ho' by lia. clearbody a. unfold len in Hl.
  destruct ((512 * entry_lba c cl <=? x) && (x <? 512 * (entry_lba c cl + 1))) eqn:E1.
  - destruct ((a <=? x) && (x <? a + 4)) eqn:E2; [f_equal; lia|].
    rewrite byte_put32 by lia. natcmp. rewrite Hb by lia. f_equal. lia.
  - replace ((a <=? x) && (x <? a + 4)) with false by lia. done.
Qed.

Lemma fat_write_raw s cl v :
  geometry (bio_size (fc_dev c) (f_disk s)) → 0 ≤ cl < entries →
  ∃ d, fat_write_entry c cl v s = Some (true, with_disk d s) ∧
    bio_size (fc_dev c) d = bio_size (fc_dev c) (f_disk s) ∧
    (∀ x, ¬ (512 * fat_start c + 4 * cl ≤ x < 512 * fat_start c + 4 * cl + 4) →
      disk_byte (with_disk d s) x = disk_byte s x) ∧
    fat_word (with_disk d s) cl = new_word (fat_word s cl) v.
Proof.
  intros Hg Hcl. destruct (sector_read s cl Hg Hcl) as (b & Hr & Hl & Hb & Ew).
  destruct (entry_at _ cl Hg Hcl) as (El & Eo & Hn & Ho & Ea & _). destruct (ge_start _ Hg) as [H0 _].
  pose proof (Z.div_pos (4 * cl) 512 ltac:(lia) ltac:(lia)).
  unfold fat_write_entry, block_read, block_write, mbind, stM_bind. rewrite Hr. obind.
  fold (new_word (le32 b (entry_off c cl)) v). rewrite Ew. set (nv := new_word _ _).
  destruct (bio_write_spec (fc_dev c) (f_disk s) (entry_lba c cl) 1 (put32 b (entry_off c cl) nv)) as (d & -> & Es & Hd);
    [lia|lia|lia|unfold len in *; rewrite length_put32; lia| |].
  { apply Forall_lookup_2. intros i z Hz. pose proof (lookup_lt_Some _ _ _ Hz) as Hi. rewrite byte_lookup in Hz by done.
    injection Hz as <-. rewrite length_put32 in Hi. unfold len in Hl. rewrite byte_put32 by lia.
    repeat (destruct (_ =? _)%nat; [apply u8_range|]). rewrite Hb by lia. apply disk_u8. }
  exists d. split; [done|]. split; [done|]. cbn [f_disk with_disk].
  assert (∀ x, bio_byte (fc_dev c) d x = if (512 * fat_start c + 4 * cl <=? x) && (x <? 512 * fat_start c + 4 * cl + 4)
    then byte (put32 b (entry_off c cl) nv) (Z.to_nat (x - (512 * fat_start c + 4 * cl)) + entry_off c cl) else disk_byte s x) as Hd'.
  { intros x. rewrite Hd. by apply put_sector. }
  split.
  - intros x Hx. rewrite Hd'. replace (_ && _) with false by lia. done.
  - assert (le32 (put32 b (entry_off c cl) nv) (entry_off c cl) = nv) as <-.
    { apply le32_put32; [unfold len in Hl; lia|apply new_word_u32]. }
    assert (∀ k, (k < 4)%nat → bio_byte (fc_dev c) d (512 * fat_start c + 4 * cl + Z.of_nat k) =
      byte (put32 b (entry_off c cl) nv) (entry_off c cl + k)) as Hk.
    { intros k Hk. rewrite Hd'. replace (_ && _) with true by lia. f_equal. lia. }
    unfold fat_word at 1, le32. cbn [f_disk with_disk]. rewrite !byte_bio_bytes by lia. rewrite !Hk by lia.
    by rewrite Nat.add_0_r.
Qed.

(** Only the disk moved. *)
Definition same_rest s s' : Prop := f_heap s' = f_heap s ∧ f_ctxs s' = f_ctxs s.

Lemma fat_write_entry_ok s F B X cl v :
  vol s F B X → 0 ≤ cl < entries →
  runs (fat_write_entry c cl v) s (λ ok s', ok = true ∧ vol s' (<[cl := Z.land v 0x0FFFFFFF]> F) B X ∧ same_rest s s').
Proof.
  intros [Hg Hf Hb Hh] Hcl. destruct (fat_write_raw s cl v Hg Hcl) as (d & E & Es & Hx & Hw).
  exists true, (with_disk d s). split; [done|]. split; [done|]. split; [|done].
  destruct (ge_start _ Hg) as [_ Hst]. destruct (ge_spc _ Hg) as [Hspc _]. split; cbn [f_disk with_disk f_heap]; [by rewrite Es|..|done].
  - intros cl' Hcl'. unfold fat_get. destruct (decide (cl = cl')) as [<-|Hne].
    + rewrite fn_lookup_insert, Hw. apply new_word_value.
    + rewrite fn_lookup_insert_ne by done. rewrite <- Hf by done. unfold fat_get. f_equal. apply fat_word_frame.
      intros x Hr. apply Hx. lia.
  - intros cl' Hcl'. rewrite <- Hb by done. apply bio_bytes_frame. intros x Hr. apply Hx. unfold entries in *.
    assert (0 ≤ (cl' - 2) * sectors_per_cluster c) by (apply Z.mul_nonneg_nonneg; lia). lia.
Qed.

Lemma cluster_len s F B X cl : vol s F B X → 2 ≤ cl < entries → len (B cl) = bytes_per_cluster c.
Proof.
  intros Hv Hcl. rewrite <- (vol_data _ _ _ _ Hv cl Hcl). apply len_bio_bytes.
  pose proof (vol_geom _ _ _ _ Hv) as [? ? -> ? ? ? ?]. lia.
Qed.

Lemma cluster_u8 s F B X cl : vol s F B X → 2 ≤ cl < entries → Forall is_u8 (B cl).
Proof.
  intros Hv Hcl. rewrite <- (vol_data _ _ _ _ Hv cl Hcl). apply Forall_fmap, Forall_true. intros x. apply disk_u8.
Qed.

Lemma cluster_read_ok s F B X cl :
  vol s F B X → 2 ≤ cl < entries → cluster_read c cl (sectors_per_cluster c) s = Some (Some (B cl), s).
Proof.
  intros Hv Hcl. pose proof (vol_geom _ _ _ _ Hv) as Hg. destruct (cluster_at _ cl Hg Hcl) as (El & H0 & Hn).
  unfold cluster_read, block_read. rewrite El. pose proof (ge_spc _ Hg). rewrite bio_read_spec by lia.
  rewrite <- (vol_data _ _ _ _ Hv cl Hcl). unfold cluster_bytes. by rewrite (ge_bpc _ Hg).
Qed.

Lemma cluster_read_runs s F B X cl :
  vol s F B X → 2 ≤ cl < entries →
  runs (cluster_read c cl (sectors_per_cluster c)) s (λ r s', r = Some (B cl) ∧ s' = s).
Proof. intros Hv Hcl. exists (Some (B cl)), s. split; [by eapply cluster_read_ok|done]. Qed.

(** Fewer sectors from the start of the cluster. *)
Lemma cluster_read_part s F B X cl n :
  vol s F B X → 2 ≤ cl < entries → 0 < n ≤ sectors_per_cluster c →
  cluster_read c cl n s = Some (Some (take (Z.to_nat (512 * n)) (B cl)), s).
Proof.
  intros Hv Hcl Hn. pose proof (vol_geom _ _ _ _ Hv) as Hg. destruct (cluster_at _ cl Hg Hcl) as (El & H0 & Hle).
  unfold cluster_read, block_read. rewrite El, bio_read_spec by lia. do 3 f_equal.
  rewrite <- (vol_data _ _ _ _ Hv cl Hcl). unfold cluster_bytes, bio_bytes. rewrite (ge_bpc _ Hg), <- fmap_take. f_equal.
  apply list_eq. intros i. destruct (decide (i < Z.to_nat (512 * n))%nat).
  - rewrite lookup_take_lt by done. rewrite !lookup_seqZ_lt by lia. done.
  - rewrite lookup_take_ge by lia. apply lookup_seqZ_ge. lia.
Qed.

Lemma cluster_write_ok s F B X cl data :
  vol s F B X → 2 ≤ cl < entries → len data = bytes_per_cluster c → Forall is_u8 data →
  runs (cluster_write c cl data) s (λ ok s', ok = true ∧ vol s' F (<[cl := data]> B) X ∧ same_rest s s').
Proof.
  intros [Hg Hf Hb Hh] Hcl Hl Hu. destruct (cluster_at _ cl Hg Hcl) as (El & H0 & Hn).
  pose proof (ge_spc _ Hg) as Hspc. pose proof (ge_bpc _ Hg) as Hbpc. destruct (ge_start _ Hg) as [Hs0 Hst].
  destruct (bio_write_spec (fc_dev c) (f_disk s) (cluster_to_lba c cl) (sectors_per_cluster c) data) as (d & Ew & Es & Hd);
    [lia|lia|lia|lia|done|].
  exists true, (with_disk d s). unfold cluster_write, block_write. rewrite Ew. split; [done|]. split; [done|]. split; [|done].
  rewrite El in Hd. set (a := data_start c + (cl - 2) * sectors_per_cluster c) in *.
  split; cbn [f_disk with_disk f_heap]; [by rewrite Es|..|done].
  - intros cl' Hcl'. rewrite <- Hf by done. unfold fat_get. f_equal. apply fat_word_frame. intros x Hx.
    cbn [f_disk with_disk]. rewrite Hd. replace (_ && _) with false; [done|]. unfold entries in *.
    assert (0 ≤ (cl - 2) * sectors_per_cluster c) by (apply Z.mul_nonneg_nonneg; lia). lia.
  - intros cl' Hcl'. destruct (decide (cl = cl')) as [<-|Hne].
    + rewrite fn_lookup_insert. unfold len in Hl. apply byte_ext; unfold cluster_bytes; fold a.
      { pose proof (len_bio_bytes (disk_byte (with_disk d s)) (512 * a) (bytes_per_cluster c) ltac:(lia)) as E. unfold len in E. lia. }
      intros i Hi. pose proof (len_bio_bytes (disk_byte (with_disk d s)) (512 * a) (bytes_per_cluster c) ltac:(lia)) as E. unfold len in E.
      rewrite byte_bio_bytes by lia. cbn [f_disk with_disk]. rewrite Hd. replace (_ && _) with true by lia. f_equal. lia.
    + rewrite fn_lookup_insert_ne by done. rewrite <- Hb by done. apply bio_bytes_frame. intros x Hx.
      cbn [f_disk with_disk]. rewrite Hd. replace (_ && _) with false; [done|]. unfold a in *.
      assert ((cl - 2) * sectors_per_cluster c + sectors_per_cluster c ≤ (cl' - 2) * sectors_per_cluster c ∨
              (cl' - 2) * sectors_per_cluster c + sectors_per_cluster c ≤ (cl - 2) * sectors_per_cluster c) by nia. lia.
Qed.

Lemma vol_ext s F G B C X :
  (∀ cl, 0 ≤ cl < entries → G cl = F cl) → (∀ cl, 2 ≤ cl < entries → C cl = B cl) → vol s F B X → vol s G C X.
Proof.
  intros HF HB [Hg Hf Hb Hh]. split; try done; intros cl Hcl; [rewrite HF by done|rewrite HB by done]; auto.
Qed.

(** The heap has no room for a buffer of this size. *)
Definition no_room (size : Z) s : Prop := ∃ h, ha_alloc size 16 (f_heap s) = Some (0, h).

Lemma kalloc_ok s F B X size :
  vol s F B X → 0 < size < 2 ^ 61 →
  runs (kalloc size) s (λ p s', f_disk s' = f_disk s ∧ f_ctxs s' = f_ctxs s ∧
    ((p = 0 ∧ no_room size s ∧ vol s' F B X) ∨ (p ≠ 0 ∧ p ∉ X ∧ vol s' F B ({[p]} ∪ X)))).
Proof.
  intros [Hg Hf Hb Hh] Hs. destruct (ha_alloc_spec _ _ size 16 Hh Hs ltac:(by right)) as (p & h & E & Hp).
  exists p, (with_fheap h s). unfold kalloc. rewrite E. split; [done|]. split; [done|]. split; [done|].
  destruct Hp as [[-> Hp]|(Hne & Hni & Hp)]; [left|right]; (split; [done|]).
  - split; [by exists h|]. by split.
  - split; [done|]. by split.
Qed.

Lemma kfree_ok s F B X p :
  vol s F B X → p ∈ X →
  runs (kfree p) s (λ _ s', f_disk s' = f_disk s ∧ f_ctxs s' = f_ctxs s ∧ vol s' F B (X ∖ {[p]})).
Proof.
  intros [Hg Hf Hb Hh] Hp. destruct (ha_free_spec _ _ p Hh Hp) as (h & E & Hh').
  exists (), (with_fheap h s). unfold kfree. rewrite E. split; [done|]. split; [done|]. split; [done|]. by split.
Qed.

(** A buffer that was taken is given back. *)
Lemma fat_kfree_buf s F B X p :
  vol s F B ({[p]} ∪ X) → p ∉ X →
  runs (kfree p) s (λ _ s', f_disk s' = f_disk s ∧ f_ctxs s' = f_ctxs s ∧ vol s' F B X).
Proof.
  intros Hv Hp. eapply runs_weaken; [apply (kfree_ok _ _ _ _ p Hv); set_solver|].
  intros _ s' (? & ? & Hv'). replace (({[p]} ∪ X) ∖ {[p]}) with X in Hv' by set_solver. done.
Qed.

Lemma table_size s F B X : vol s F B X → u32 (fat_size c * bytes_per_sector c) / 4 = entries.
Proof.
  intros Hv. destruct (vol_geom _ _ _ _ Hv) as [-> ? ? [? ?] ? ? ?]. unfold entries, FAT32_BAD in *.
  rewrite u32_small by lia. dlia.
Qed.

(** The first free cluster, or none. *)
Definition first_free (F : Z → Z) (r : Z) : Prop :=
  (r = 0 ∧ ∀ cl, 2 ≤ cl < entries → F cl ≠ 0) ∨
  (2 ≤ r < entries ∧ F r = 0 ∧ ∀ cl, 2 ≤ cl < r → F cl ≠ 0).

Lemma find_free_ok s F B X :
  vol s F B X → runs (fat32_find_free c) s (λ r s', s' = s ∧ first_free F r).
Proof.
  intros Hv. unfold fat32_find_free. rewrite (table_size _ _ _ _ Hv). destruct (ge_fat _ (vol_geom _ _ _ _ Hv)) as [_ Hbad].
  unfold FAT32_BAD in Hbad.
  apply (runs_loop _ _ _ _ (λ cl s', s' = s ∧ 2 ≤ cl ∧ ∀ k, 2 ≤ k < cl → k < entries → F k ≠ 0) (λ cl _, Z.max 0 (entries + 1 - cl))).
  - split; [done|]. split; [lia|]. intros; lia.
  - unfold fat_fuel. lia.
  - intros cl s1 (-> & H2 & Hall). split; [lia|]. unfold find_round. destruct (Z.ltb_spec cl entries) as [Hcl|Hcl]; cbn [negb].
    + unfold mbind, stM_bind, runs. rewrite (fat_read_entry_ok _ _ _ _ cl Hv) by lia. obind. cbn [fst snd].
      destruct (Z.eqb_spec (F cl) 0) as [E|E].
      * exists (inr cl), s. split; [done|]. split; [done|]. right. split; [lia|]. split; [done|]. intros k Hk. apply Hall; lia.
      * exists (inl (cl + 1)), s. split; [done|]. split; [|lia]. split; [done|]. split; [lia|]. intros k Hk Hke.
        destruct (decide (k = cl)) as [-> |]; [done|]. apply Hall; lia.
    + apply runs_ret. split; [done|]. left. split; [done|]. intros k Hk. apply Hall; lia.
Qed.

Lemma alloc_cluster_ok s F B X :
  vol s F B X →
  runs (fat32_alloc_cluster c) s (λ r s', first_free F r ∧ same_rest s s' ∧
    vol s' (if r =? 0 then F else <[r := FAT32_EOC]> F) B X).
Proof.
  intros Hv. unfold fat32_alloc_cluster. eapply runs_bind; [apply (find_free_ok _ _ _ _ Hv)|].
  intros r s1 [-> Hr]. destruct (Z.eqb_spec r 0) as [-> |Hne]; [by apply runs_ret|].
  assert (2 ≤ r < entries) as Hr2 by (destruct Hr as [[? _]|[? _]]; [lia|done]).
  eapply runs_bind; [apply (fat_write_entry_ok _ _ _ _ r FAT32_EOC Hv); lia|].
  intros ok s2 (-> & Hv2 & Hs2). apply runs_ret. split; [done|]. split; [done|]. by replace (r =? 0) with false by lia.
Qed.

(** ** Chains *)

(** The clusters of a file or directory: from [start] through the table to an entry
    that is no cluster. *)
Fixpoint chain (F : Z → Z) (start : Z) (l : list Z) : Prop :=
  match l with
  | [] => cluster_valid start = false
  | a :: l => start = a ∧ 2 ≤ a < entries ∧ chain F (F a) l
  end.

Lemma chain_frame F G start l : (∀ a, a ∈ l → G a = F a) → chain F start l → chain G start l.
Proof.
  revert start. induction l as [|a l IH]; intros start HG; simpl; [done|]. intros (-> & Ha & Hl).
  split; [done|]. split; [done|]. rewrite HG by left. apply IH; [|done]. intros x Hx. apply HG. by right.
Qed.

Lemma chain_bounds F start l a : chain F start l → a ∈ l → 2 ≤ a < entries.
Proof.
  revert start. induction l as [|x l IH]; intros start; simpl; [by intros _ ?%elem_of_nil|].
  intros (-> & Hx & Hl) [-> |Ha]%elem_of_cons; [done|]. by apply (IH (F x)).
Qed.

(** The table with the entries of [l] cleared. *)
Definition freed (l : list Z) (F : Z → Z) (x : Z) : Z := if bool_decide (x ∈ l) then 0 else F x.

Lemma free_chain_ok s F B X start l :
  vol s F B X → chain F start l → NoDup l → Z.of_nat (length l) ≤ 0x1000000 →
  runs (fat32_free_chain c start) s (λ _ s', vol s' (freed l F) B X ∧ same_rest s s').
Proof.
  intros Hv Hch Hnd Hlen. unfold fat32_free_chain.
  apply (runs_loop _ _ _ _
    (λ '(cl, g) s', ∃ l1 l2, l = l1 ++ l2 ∧ g = Z.of_nat (length l1) ∧ chain F cl l2 ∧ vol s' (freed l1 F) B X ∧ same_rest s s')
    (λ '(_, g) _, Z.max 0 (0x1000001 - g))).
  - exists [], l. split; [done|]. split; [done|]. split; [done|]. split; [|done].
    eapply vol_ext; [| |exact Hv]; [|done]. intros cl _. unfold freed. by rewrite bool_decide_false by (by intros ?%elem_of_nil).
  - unfold fat_fuel. simpl length. lia.
  - intros [cl g] s1 (l1 & l2 & -> & -> & Hc2 & Hv1 & Hs1). split; [lia|]. unfold free_round.
    destruct l2 as [|a l2]; simpl in Hc2.
    { rewrite Hc2. cbn [andb negb]. apply runs_ret. rewrite app_nil_r. done. }
    destruct Hc2 as (-> & Ha & Hc2). rewrite length_app in Hlen. simpl length in Hlen.
    rewrite (entry_valid _ a (vol_geom _ _ _ _ Hv) Ha). replace (Z.of_nat (length l1) <? 0x1000000) with true by lia. cbn [andb negb].
    apply NoDup_app in Hnd as (Hnd1 & Hdis & (Ha2 & Hnd2)%NoDup_cons).
    assert (a ∉ l1) as Ha1 by (intros ?; apply (Hdis a); set_solver).
    eapply runs_bind; [apply (read_entry_runs _ _ _ _ a Hv1); lia|].
    intros next s2 [-> ->]. assert (freed l1 F a = F a) as -> by (unfold freed; by rewrite bool_decide_false).
    eapply runs_bind; [apply (fat_write_entry_ok _ _ _ _ a 0 Hv1); lia|].
    intros ok s3 (-> & Hv3 & Hs3). cbn [negb].
    assert (vol s3 (freed (l1 ++ [a]) F) B X) as Hv3'.
    { eapply vol_ext; [| |exact Hv3]; [|done]. intros cl _. unfold freed. destruct (decide (cl = a)) as [-> |Hne].
      - rewrite fn_lookup_insert. by rewrite bool_decide_true by set_solver.
      - rewrite fn_lookup_insert_ne by done. destruct (decide (cl ∈ l1)); [rewrite !bool_decide_true by set_solver|rewrite !bool_decide_false by set_solver]; done. }
    assert (same_rest s s3) as Hs by (destruct Hs1, Hs3; split; congruence).
    destruct l2 as [|b l2]; simpl in Hc2.
    + destruct ((F a =? a) || (FAT32_BAD <=? F a)) eqn:E; apply runs_ret; [done|].
      split; [|lia]. exists (l1 ++ [a]), []. rewrite length_app, app_nil_r. simpl. split; [done|]. split; [lia|]. done.
    + destruct Hc2 as (Eb & Hb & Hc2). assert (b ≠ a) as Hba by set_solver.
      destruct (ge_fat _ (vol_geom _ _ _ _ Hv)) as [_ Hbad].
      replace ((F a =? a) || (FAT32_BAD <=? F a)) with false by lia. apply runs_ret. split; [|lia].
      exists (l1 ++ [a]), (b :: l2). rewrite length_app, <- app_assoc. simpl. split; [done|]. split; [lia|]. done.
Qed.

(** The bytes of a chain. *)
Definition contents (B : Z → list Z) (l : list Z) : list Z := concat (B <$> l).

Lemma chain_valid n F start l : geometry n → chain F start l → cluster_valid start = negb (bool_decide (l = [])).
Proof.
  intros Hg. destruct l as [|a l]; simpl; [done|]. intros (-> & Ha & _). by apply (entry_valid n).
Qed.

Lemma seek_ok s F B X start l stop :
  vol s F B X → chain F start l → 0 ≤ stop < 4294967296 →
  runs (loop fat_fuel (seek_round c stop) (0, start, start)) s
    (λ '(prev, cl) s', s' = s ∧ chain F cl (drop (Z.to_nat stop) l) ∧ prev = default start (last (take (Z.to_nat stop) l))).
Proof.
  intros Hv Hch Hst. pose proof (vol_geom _ _ _ _ Hv) as Hg.
  apply (runs_loop _ _ _ _ (λ '(i, prev, cl) s', s' = s ∧ 0 ≤ i ≤ stop ∧ (Z.to_nat i ≤ length l)%nat ∧
    chain F cl (drop (Z.to_nat i) l) ∧ prev = default start (last (take (Z.to_nat i) l))) (λ '(i, _, _) _, stop - i)).
  - split; [done|]. split; [lia|]. simpl. split; [lia|]. rewrite drop_0. done.
  - unfold fat_fuel. lia.
  - intros [[i prev] cl] s1 (-> & Hi & Hil & Hc & ->). split; [lia|]. unfold seek_round.
    rewrite (chain_valid _ F cl (drop (Z.to_nat i) l) Hg Hc).
    destruct (drop (Z.to_nat i) l) as [|a l2] eqn:Ed.
    + rewrite bool_decide_true by done. rewrite andb_false_r. apply runs_ret. split; [done|].
      assert (length l ≤ Z.to_nat i)%nat as Hle by (apply (f_equal length) in Ed; rewrite length_drop in Ed; simpl in Ed; lia).
      rewrite !(drop_ge l), !(take_ge l) by lia. done.
    + rewrite bool_decide_false by done. rewrite andb_true_r. simpl in Hc. destruct Hc as (-> & Ha & Hc).
      assert (l !! Z.to_nat i = Some a) as Hla by (rewrite <- (Nat.add_0_r (Z.to_nat i)), <- lookup_drop, Ed; done).
      destruct (Z.ltb_spec i stop) as [Hlt|Hge].
      * eapply runs_bind; [apply (read_entry_runs _ _ _ _ a Hv); lia|]. intros next s2 [-> ->]. apply runs_ret.
        split; [|lia]. split; [done|]. split; [lia|]. replace (Z.to_nat (i + 1)) with (S (Z.to_nat i)) by lia.
        split; [by apply lookup_lt_Some in Hla|]. split.
        -- replace (drop (S (Z.to_nat i)) l) with l2; [done|]. by rewrite (drop_S _ _ _ Hla) in Ed; injection Ed.
        -- rewrite (take_S_r _ _ _ Hla), last_snoc. done.
      * apply runs_ret. replace stop with i by lia. rewrite Ed. split; [done|]. split; [|done]. split; [done|]. split; [done|exact Hc].
Qed.

Lemma take_drop_cluster (b k : list Z) i n :
  0 ≤ i ≤ len b → 0 ≤ n →
  let m := Z.min n (len b - i) in
  take (Z.to_nat n) (drop (Z.to_nat i) (b ++ k)) =
    take (Z.to_nat m) (drop (Z.to_nat i) b) ++ take (Z.to_nat (n - m)) k.
Proof.
  intros Hi Hn m. unfold len in *. rewrite drop_app_le by lia. rewrite take_app, length_drop. f_equal.
  - destruct (Z.le_ge_cases n (Z.of_nat (length b) - i)); [f_equal; lia|]. rewrite !take_ge; [done|rewrite length_drop; lia|rewrite length_drop; lia].
  - f_equal. lia.
Qed.

Lemma read_at_loop s F B X l cl pos n :
  vol s F B X → chain F cl l → l ≠ [] → 0 ≤ pos < bytes_per_cluster c → 0 ≤ n < 4294967296 →
  runs (loop fat_fuel (read_at_round c n) ([], cl, pos)) s
    (λ out s', s' = s ∧ out = take (Z.to_nat n) (drop (Z.to_nat pos) (contents B l))).
Proof.
  intros Hv Hch Hl Hpos Hn. pose proof (vol_geom _ _ _ _ Hv) as Hg. set (res := take _ _).
  apply (runs_loop _ _ _ _ (λ '(out, cl, pos) s', s' = s ∧ 0 ≤ pos < bytes_per_cluster c ∧ len out ≤ n ∧
    ∃ a l2, chain F cl (a :: l2) ∧ out ++ take (Z.to_nat (n - len out)) (drop (Z.to_nat pos) (contents B (a :: l2))) = res)
    (λ '(out, _, _) _, n - len out)).
  - split; [done|]. split; [done|]. split; [unfold len; simpl; lia|]. destruct l as [|a l2]; [done|].
    exists a, l2. split; [done|]. unfold res. simpl. do 2 f_equal. unfold len. simpl. lia.
  - unfold fat_fuel, len. simpl. lia.
  - intros [[out cl1] pos1] s1 (-> & Hp & Hlo & a & l2 & Hc & Hres). split; [lia|]. unfold read_at_round.
    destruct (Z.ltb_spec (len out) n) as [Hlt|Hge]; cbn [negb].
    2:{ apply runs_ret. split; [done|]. rewrite <- Hres. replace (n - len out) with 0 by lia. by rewrite app_nil_r. }
    destruct Hc as (-> & Ha & Hc). pose proof (cluster_len _ _ _ _ a Hv Ha) as Hba.
    set (m := Z.min (n - len out) (bytes_per_cluster c - pos1)). assert (0 < m) as Hm by lia.
    unfold contents in Hres. simpl in Hres. rewrite (take_drop_cluster (B a)) in Hres by lia.
    rewrite Hba in Hres. fold m in Hres. fold (contents B l2) in Hres.
    eapply runs_bind; [by apply (cluster_read_runs _ _ _ _ a Hv)|]. intros r s2 [-> ->].
    assert (∀ b : bool, (if (pos1 =? 0) && (m =? bytes_per_cluster c) then B a else take (Z.to_nat m) (drop (Z.to_nat pos1) (B a))) =
      take (Z.to_nat m) (drop (Z.to_nat pos1) (B a))) as Hchunk.
    { intros _. destruct ((pos1 =? 0) && (m =? bytes_per_cluster c)) eqn:E; [|done].
      replace (Z.to_nat pos1) with 0%nat by lia. rewrite drop_0, take_ge; [done|]. unfold len in Hba. lia. }
    rewrite (Hchunk true). set (chunk := take (Z.to_nat m) (drop (Z.to_nat pos1) (B a))) in *.
    assert (len chunk = m) as Hch1 by (unfold chunk, len in *; rewrite length_take, length_drop; lia).
    assert (len (out ++ chunk) = len out + m) as Hlen by (unfold len in *; rewrite length_app; lia).
    assert (n - len out - m = n - len (out ++ chunk)) as Hrem by lia. rewrite Hrem, app_assoc in Hres.
    destruct (Z.eqb_spec (pos1 + m) (bytes_per_cluster c)) as [Hend|Hmore].
    + eapply runs_bind; [apply (read_entry_runs _ _ _ _ a Hv); lia|]. intros next s3 [-> ->].
      rewrite (chain_valid _ F (F a) l2 Hg Hc). destruct l2 as [|b l3].
      * rewrite bool_decide_true by done. apply runs_ret. split; [done|]. rewrite <- Hres. unfold contents. simpl. by rewrite take_nil, app_nil_r.
      * rewrite bool_decide_false by done. apply runs_ret. split; [|lia]. split; [done|]. split; [lia|]. split; [lia|].
        exists b, l3. split; [done|]. by rewrite drop_0.
    + apply runs_ret. split; [|lia]. split; [done|]. split; [lia|]. split; [lia|]. exists a, l2. split; [done|].
      rewrite <- Hres. replace (n - len (out ++ chunk)) with 0 by lia. done.
Qed.

(** Dropping whole clusters. *)
Lemma contents_drop s F B X start l k :
  vol s F B X → chain F start l → (k ≤ length l)%nat →
  drop (Z.to_nat (bytes_per_cluster c) * k) (contents B l) = contents B (drop k l).
Proof.
  intros Hv Hc. revert start k Hc. induction l as [|a l IH]; intros start k Hc Hk; simpl in *.
  { replace k with 0%nat by lia. by rewrite Nat.mul_0_r. }
  destruct k as [|k]; [by rewrite Nat.mul_0_r|]. destruct Hc as (-> & Ha & Hc). simpl.
  pose proof (cluster_len _ _ _ _ a Hv Ha) as Hba. unfold len in Hba. unfold contents in *. simpl.
  rewrite Nat.mul_succ_r, drop_app_ge by lia. rewrite <- (IH (F a) k Hc) by lia. f_equal. lia.
Qed.

Lemma contents_len s F B X l :
  vol s F B X → (∀ a, a ∈ l → 2 ≤ a < entries) → len (contents B l) = bytes_per_cluster c * Z.of_nat (length l).
Proof.
  intros Hv. induction l as [|a l IH]; intros Hc; [unfold len; simpl; lia|].
  pose proof (cluster_len _ _ _ _ a Hv (Hc a ltac:(left))) as Hba. specialize (IH (λ x Hx, Hc x ltac:(by right))).
  unfold contents, len in *. cbn [fmap list_fmap concat length]. rewrite length_app, Nat2Z.inj_add, Nat2Z.inj_succ, IH, Hba. lia.
Qed.

Lemma chain_contents_length s F B X start l :
  vol s F B X → chain F start l → len (contents B l) = bytes_per_cluster c * Z.of_nat (length l).
Proof. intros Hv Hc. apply (contents_len _ _ _ _ _ Hv). intros a. by apply (chain_bounds F start). Qed.

Lemma read_at_spec s F B X start l off n :
  vol s F B X → chain F start l → 0 ≤ off < 4294967296 → 0 ≤ n < 4294967296 →
  runs (fat32_read_at c start off n) s (λ out s', f_disk s' = f_disk s ∧ f_ctxs s' = f_ctxs s ∧ vol s' F B X ∧
    (out = take (Z.to_nat n) (drop (Z.to_nat off) (contents B l)) ∨ (out = [] ∧ no_room (bytes_per_cluster c) s))).
Proof.
  intros Hv Hch Hoff Hn. pose proof (vol_geom _ _ _ _ Hv) as Hg. pose proof (ge_spc _ Hg) as Hspc. pose proof (ge_bpc _ Hg) as Hbpc.
  unfold fat32_read_at. destruct (Z.eqb_spec n 0) as [-> |Hn0]; [apply runs_ret; split_and!; try done; by left|].
  set (bpc := bytes_per_cluster c) in *. assert (0 ≤ off / bpc < 4294967296) as Hk by (split; [apply Z.div_pos; lia|apply Z.div_lt_upper_bound; nia]).
  eapply runs_bind; [by apply (seek_ok _ _ _ _ start l (off / bpc) Hv)|]. intros [prev cl] s1 (-> & Hc & _).
  rewrite (chain_valid _ F cl _ Hg Hc). destruct (drop (Z.to_nat (off / bpc)) l) as [|a l2] eqn:Ed.
  { rewrite bool_decide_true by done. apply runs_ret. do 3 (split; [done|]). left.
    rewrite (drop_ge (contents B l)), take_nil; [done|]. pose proof (chain_contents_length _ _ _ _ _ _ Hv Hch) as Hlen.
    apply (f_equal length) in Ed. rewrite length_drop in Ed. simpl in Ed. unfold len in Hlen. fold bpc in Hlen.
    assert (Z.of_nat (length l) ≤ off / bpc) as Hle by lia. pose proof (Z.mul_div_le off bpc ltac:(lia)). nia. }
  rewrite bool_decide_false by done. cbn [negb].
  eapply runs_bind; [apply (kalloc_ok _ _ _ _ bpc Hv); lia|]. intros tmp s1 (Ed1 & Ec1 & [(-> & Hno & Hv1)|(Hne & Hni & Hv1)]).
  { rewrite Z.eqb_refl. apply runs_ret. do 3 (split; [done|]). by right. }
  replace (tmp =? 0) with false by lia. pose proof (Z.mod_pos_bound off bpc ltac:(lia)) as Hmod.
  eapply runs_bind; [apply (read_at_loop _ F B _ (a :: l2) cl (off mod bpc) n Hv1); done|]. intros out s2 (-> & ->).
  eapply runs_bind; [by apply (fat_kfree_buf _ _ _ _ tmp Hv1)|]. intros _ s3 (Ed3 & Ec3 & Hv3). apply runs_ret.
  split; [congruence|]. split; [congruence|]. split; [done|]. left. f_equal.
  assert (Z.to_nat (off / bpc) ≤ length l)%nat as Hkl.
  { apply (f_equal length) in Ed. rewrite length_drop in Ed. simpl in Ed. lia. }
  rewrite <- Ed, <- (contents_drop _ _ _ _ start l _ Hv Hch Hkl), drop_drop. f_equal. fold bpc.
  pose proof (Z.div_mod off bpc ltac:(lia)). pose proof (Z.div_pos off bpc ltac:(lia) ltac:(lia)). nia.
Qed.

(** ** Writing *)

(** [C] is [C0] with [data] written at [off], possibly longer than both. *)
Definition over (C0 : list Z) (off : nat) (data C : list Z) : Prop :=
  ∃ tail, C = take off C0 ++ data ++ drop (off + length data) C0 ++ tail.

Lemma over_nil C off : over C off [] C.
Proof. exists []. rewrite app_nil_r. simpl. by rewrite Nat.add_0_r, take_drop. Qed.

Lemma over_grow C0 off d C t : length C = (off + length d)%nat → (off ≤ length C0)%nat → over C0 off d C → over C0 off d (C ++ t).
Proof.
  intros Hl Ho [tail ->]. rewrite !length_app, length_take, length_drop in Hl.
  assert (drop (off + length d) C0 = []) as E by (apply nil_length_inv; rewrite length_drop; lia).
  assert (tail = []) as -> by (apply nil_length_inv; lia). rewrite !app_nil_r, E. exists t. rewrite E. simpl. by rewrite <- !app_assoc.
Qed.

Lemma over_step C0 off d A x y x' :
  (off ≤ length C0)%nat → over C0 off d (A ++ x ++ y) → length A = (off + length d)%nat → length x' = length x →
  over C0 off (d ++ x') (A ++ x' ++ y).
Proof.
  intros Ho [tail E] HA Hx. rewrite (app_assoc (take off C0)) in E. apply app_inj_1 in E as [-> E]; [|rewrite length_app, length_take; lia].
  exists (drop (length x - length (drop (off + length d) C0)) tail). rewrite <- !app_assoc. do 3 f_equal.
  assert (y = drop (length x) (drop (off + length d) C0 ++ tail)) as -> by (by rewrite <- E, drop_app_length).
  rewrite drop_app. f_equal. rewrite drop_drop, length_app. f_equal. lia.
Qed.

(** Writing into one cluster of a chain. *)
Lemma contents_update B la a lc b : a ∉ la → a ∉ lc → contents (<[a := b]> B) (la ++ a :: lc) = contents B la ++ b ++ contents B lc.
Proof.
  intros H1 H2. unfold contents. rewrite fmap_app, concat_app. simpl. rewrite fn_lookup_insert. f_equal; [|f_equal].
  - f_equal. apply list_fmap_ext. intros i x Hx. apply fn_lookup_insert_ne. intros ->. apply H1. by eapply list_elem_of_lookup_2.
  - f_equal. apply list_fmap_ext. intros i x Hx. apply fn_lookup_insert_ne. intros ->. apply H2. by eapply list_elem_of_lookup_2.
Qed.

Lemma contents_app B l k : contents B (l ++ k) = contents B l ++ contents B k.
Proof. unfold contents. by rewrite fmap_app, concat_app. Qed.

Lemma contents_ext B B' l : (∀ a, a ∈ l → B' a = B a) → contents B' l = contents B l.
Proof. intros He. unfold contents. f_equal. apply list_fmap_ext. intros i x Hx. apply He. by eapply list_elem_of_lookup_2. Qed.

(** A new cluster [r] linked behind the last one. *)
Lemma chain_extend F start l p r :
  chain F start (l ++ [p]) → NoDup (l ++ [p]) → r ∉ l ++ [p] → 2 ≤ r < entries →
  chain (<[p := r]> (<[r := FAT32_EOC]> F)) start ((l ++ [p]) ++ [r]).
Proof.
  revert start. induction l as [|a l IH]; intros start; simpl.
  - intros (-> & Hp & _) _ Hr Hre. split; [done|]. split; [done|]. rewrite fn_lookup_insert. split; [done|]. split; [done|].
    rewrite fn_lookup_insert_ne by set_solver. by rewrite fn_lookup_insert.
  - intros (-> & Ha & Hl) (Hna & Hnd)%NoDup_cons Hr Hre. split; [done|]. split; [done|].
    rewrite !fn_lookup_insert_ne by set_solver. apply IH; [done|done|set_solver|done].
Qed.

(** The chain from a position in the list. *)
Lemma chain_suffix F start l a k : chain F start (l ++ a :: k) → 2 ≤ a < entries ∧ chain F (F a) k.
Proof.
  revert start. induction l as [|x l IH]; intros start; simpl; [tauto|]. intros (_ & _ & Hl). by eapply IH.
Qed.

(** From the table [F] and clusters [B] with the file [l] to [F1], [B1] with the file
    [l1]: clusters that were free may have been added, nothing outside the file
    changed. *)
Record grown (F : Z → Z) (B : Z → list Z) (l : list Z) (F1 : Z → Z) (B1 : Z → list Z) (l1 : list Z) : Prop := {
  gr_app : ∃ news, l1 = l ++ news ∧ Forall (λ a, F a = 0) news;
  gr_nodup : NoDup l1;
  gr_used : ∀ a, a ∈ l1 → F1 a ≠ 0;
  gr_frame : ∀ x, x ∉ l1 → F1 x = F x ∧ B1 x = B x
}.

Lemma grown_refl F B l : NoDup l → (∀ a, a ∈ l → F a ≠ 0) → grown F B l F B l.
Proof. intros Hnd Hu. split; try done. exists []. by rewrite app_nil_r. Qed.

(** No cluster is free. *)
Definition full (F : Z → Z) : Prop := ∀ cl, 2 ≤ cl < entries → F cl ≠ 0.

Lemma grown_add F B l F1 B1 l1 F2 r :
  grown F B l F1 B1 l1 → F1 r = 0 → F2 r ≠ 0 → (∀ a, a ∈ l1 → F2 a ≠ 0) → (∀ x, x ∉ l1 → x ≠ r → F2 x = F1 x) →
  grown F B l F2 B1 (l1 ++ [r]).
Proof.
  intros [(news & -> & Hn) Hnd Hu Hfr] Hr H2r H2 Hframe. assert (r ∉ l ++ news) as Hrl by (intros Hin; by apply (Hu r Hin)).
  split.
  - exists (news ++ [r]). split; [by rewrite app_assoc|]. apply Forall_app. split; [done|]. apply Forall_singleton.
    by destruct (Hfr r Hrl) as [<- _].
  - apply NoDup_app. split; [done|]. split; [set_solver|apply NoDup_singleton].
  - intros a [Ha| ->%list_elem_of_singleton]%elem_of_app; [by apply H2|done].
  - intros x Hx. rewrite Hframe by set_solver. apply Hfr. set_solver.
Qed.

Lemma write_target_ok s F B l F1 B1 X first prev la lb cl :
  vol s F1 B1 X → chain F1 first (la ++ lb) → chain F1 cl lb → (la ++ lb = [] → first = 0) →
  (∀ a, last la = Some a → prev = a) → grown F B l F1 B1 (la ++ lb) →
  runs (write_target c first prev cl) s (λ t s',
    match t with
    | None => vol s' F1 B1 X ∧ full F1
    | Some (first', a) => ∃ F2 lc, vol s' F2 B1 X ∧ chain F2 first' (la ++ a :: lc) ∧ grown F B l F2 B1 (la ++ a :: lc) ∧
        ((lb = a :: lc) ∨ (lb = [] ∧ lc = []))
    end).
Proof.
  intros Hv Hch Hcl Hfirst Hprev Hgr. pose proof (vol_geom _ _ _ _ Hv) as Hg. unfold write_target.
  rewrite (chain_valid _ F1 cl lb Hg Hcl). destruct lb as [|a lc].
  2:{ rewrite bool_decide_false by done. apply runs_ret. destruct Hcl as (-> & _). exists F1, lc. split_and!; try done. by left. }
  rewrite bool_decide_true by done. cbn [negb]. rewrite app_nil_r in *.
  eapply runs_bind; [apply (alloc_cluster_ok _ _ _ _ Hv)|]. intros r s1 (Hr & _ & Hv1).
  destruct (Z.eqb_spec r 0) as [-> |Hr0]; [apply runs_ret; split; [done|]; destruct Hr as [[_ Hr]|[? _]]; [done|lia]|].
  destruct Hr as [[? _]|(Hre & Hrf & _)]; [done|].
  assert (r ∉ la) as Hrl by (intros Hin; by apply (gr_used _ _ _ _ _ _ Hgr r Hin)).
  destruct (decide (la = [])) as [-> |Hla].
  { rewrite Hfirst by done. cbn [Z.eqb]. apply runs_ret. exists (<[r := FAT32_EOC]> F1), []. split; [done|]. simpl.
    split; [by rewrite fn_lookup_insert|]. split; [|by right]. apply (grown_add _ _ _ F1 B1 []); try done.
    - by rewrite fn_lookup_insert.
    - by intros ? ?%elem_of_nil.
    - intros x _ Hx. by rewrite fn_lookup_insert_ne. }
  destruct (exists_last Hla) as (l0 & p & ->). rewrite (Hprev p) by (by rewrite last_snoc).
  assert (first ≠ 0) as Hf0.
  { destruct l0; simpl in Hch; destruct Hch as (-> & ? & _); lia. }
  replace (first =? 0) with false by lia. destruct (chain_suffix F1 first l0 p [] Hch) as [Hp _].
  eapply runs_bind; [apply (fat_write_entry_ok _ _ _ _ p r Hv1); lia|]. intros ok s2 (-> & Hv2 & _). cbn [negb]. apply runs_ret.
  assert (Z.land r 0x0FFFFFFF = r) as Er.
  { rewrite land28, Z.mod_small; [done|]. destruct (ge_fat _ Hg) as [_ ?]. unfold FAT32_BAD in *. lia. }
  rewrite Er in Hv2. exists (<[p := r]> (<[r := FAT32_EOC]> F1)), []. split; [done|].
  assert (p ≠ r) as Hpr by set_solver. split; [|split; [|by right]].
  - apply chain_extend; try done. by apply (gr_nodup _ _ _ _ _ _ Hgr).
  - apply (grown_add _ _ _ F1 B1); try done.
    + rewrite fn_lookup_insert_ne by done. by rewrite fn_lookup_insert.
    + intros a Ha. destruct (decide (a = p)) as [-> |Hap]; [rewrite fn_lookup_insert; lia|].
      rewrite !fn_lookup_insert_ne by set_solver. by apply (gr_used _ _ _ _ _ _ Hgr).
    + intros x Hx Hxr. rewrite !fn_lookup_insert_ne by set_solver. done.
Qed.

Lemma write_chunk_ok s F B X a pos data :
  vol s F B X → 2 ≤ a < entries → 0 ≤ pos → pos + len data ≤ bytes_per_cluster c → Forall is_u8 data →
  runs (write_chunk c a pos data) s (λ ok s', ok = true ∧ vol s' F (<[a := splice (B a) (Z.to_nat pos) data]> B) X).
Proof.
  intros Hv Ha Hp Hle Hu. pose proof (cluster_len _ _ _ _ a Hv Ha) as Hl. pose proof (cluster_u8 _ _ _ _ a Hv Ha) as Hbu.
  unfold write_chunk. destruct ((pos =? 0) && (len data =? bytes_per_cluster c)) eqn:E.
  - assert (splice (B a) (Z.to_nat pos) data = data) as ->.
    { unfold splice, len in *. replace (Z.to_nat pos) with 0%nat by lia. rewrite take_0, drop_ge by lia. by rewrite app_nil_r. }
    eapply runs_weaken; [apply (cluster_write_ok _ _ _ _ a data Hv); done || lia|]. tauto.
  - eapply runs_bind; [by apply (cluster_read_runs _ _ _ _ a Hv)|]. intros r s1 [-> ->].
    eapply runs_weaken; [apply (cluster_write_ok _ _ _ _ a _ Hv); [done|..]|tauto].
    + unfold splice, len in *. rewrite !length_app, length_take, length_drop. lia.
    + unfold splice. rewrite !Forall_app. split_and!; [by apply Forall_take|done|by apply Forall_drop].
Qed.

(** The write loop up to [n] bytes of [src]: the file [l1] of table [F1]. *)
Definition written (F : Z → Z) (B : Z → list Z) (l : list Z) (off : Z) (src : list Z) (n first : Z)
    (F1 : Z → Z) (B1 : Z → list Z) (l1 : list Z) : Prop :=
  chain F1 first l1 ∧ (l1 = [] → first = 0) ∧ grown F B l F1 B1 l1 ∧
  over (contents B l) (Z.to_nat off) (take (Z.to_nat n) src) (contents B1 l1).

(** One chunk at the current position. *)
Lemma written_step s F B l off src n m first F1 B1 la a lc X :
  vol s F1 B1 X → written F B l off src n first F1 B1 (la ++ a :: lc) →
  0 ≤ off → off ≤ len (contents B l) → 0 ≤ n → 0 ≤ m → n + m ≤ len src →
  let pos := off + n - bytes_per_cluster c * Z.of_nat (length la) in
  0 ≤ pos → pos + m ≤ bytes_per_cluster c →
  written F B l off src (n + m) first F1
    (<[a := splice (B1 a) (Z.to_nat pos) (take (Z.to_nat m) (drop (Z.to_nat n) src))]> B1) (la ++ a :: lc).
Proof.
  intros Hv (Hch & Hf & Hgr & Hov) Ho Hol Hn Hm Hsrc pos Hp0 Hpm. split; [done|]. split; [done|].
  pose proof (gr_nodup _ _ _ _ _ _ Hgr) as Hnd. apply NoDup_app in Hnd as (_ & Hdis & (Hac & _)%NoDup_cons).
  assert (a ∉ la) as Hal by (intros ?; apply (Hdis a); set_solver).
  destruct (chain_suffix _ _ _ _ _ Hch) as [Ha _]. pose proof (cluster_len _ _ _ _ a Hv Ha) as Hla.
  split.
  - destruct Hgr as [Happ Hnd Hu Hfr]. split; try done. intros x Hx. rewrite fn_lookup_insert_ne by set_solver. by apply Hfr.
  - rewrite contents_update by done. rewrite contents_app in Hov. change (contents B1 (a :: lc)) with (B1 a ++ contents B1 lc) in Hov.
    set (chunk := take (Z.to_nat m) (drop (Z.to_nat n) src)).
    assert (length chunk = Z.to_nat m) as Hcl by (unfold chunk, len in *; rewrite length_take, length_drop; lia).
    assert (take (Z.to_nat (n + m)) src = take (Z.to_nat n) src ++ chunk) as ->.
    { unfold chunk. rewrite <- (take_drop (Z.to_nat n) (take _ src)), take_take, skipn_firstn_comm. f_equal; f_equal; lia. }
    unfold splice. rewrite Hcl. rewrite <- (take_drop (Z.to_nat pos) (B1 a)) in Hov.
    rewrite <- (take_drop (Z.to_nat m) (drop (Z.to_nat pos) (B1 a))) in Hov. rewrite drop_drop in Hov.
    rewrite <- !app_assoc in *. rewrite app_assoc in Hov |- *. apply (over_step _ _ _ _ (take (Z.to_nat m) (drop (Z.to_nat pos) (B1 a)))).
    + unfold len in Hol. lia.
    + done.
    + assert (len (contents B1 la) = bytes_per_cluster c * Z.of_nat (length la)) as Hlc.
      { apply (contents_len _ _ _ _ _ Hv). intros x Hx. apply (chain_bounds _ _ _ x Hch). set_solver. }
      unfold len in *. rewrite length_app, !length_take. lia.
    + unfold len in *. rewrite length_take, length_drop. lia.
Qed.

(** The position of the write loop in the file. *)
Record at_pos (F1 : Z → Z) (la lb : list Z) (prev cl pos p : Z) : Prop := {
  ap_chain : chain F1 cl lb;
  ap_prev : ∀ a, last la = Some a → prev = a;
  ap_pos : pos = p - bytes_per_cluster c * Z.of_nat (length la);
  ap_range : 0 ≤ pos < bytes_per_cluster c
}.

(** What [fat32_write] leaves: [n] bytes are in the file, all of them unless the
    volume is full. *)
Definition write_post (F : Z → Z) (B : Z → list Z) (l : list Z) (off : Z) (src : list Z) (X : gset Z)
    (r : Z * Z) (s' : fat_state D H) : Prop :=
  ∃ F1 B1 l1, vol s' F1 B1 X ∧ written F B l off src r.1 r.2 F1 B1 l1 ∧ 0 ≤ r.1 ≤ len src ∧ (r.1 = len src ∨ full F1).

Section WriteLoop.
Context (F : Z → Z) (B : Z → list Z) (l : list Z) (off : Z) (src : list Z) (X : gset Z).
Context (Hoff : 0 ≤ off ≤ len (contents B l)) (Hsrc : Forall is_u8 src) (Hsize : off + len src < 4294967296).

Definition write_inv (st : Z * Z * Z * Z * Z) (s : fat_state D H) : Prop :=
  let '(n, first, prev, cl, pos) := st in
  0 ≤ n ≤ len src ∧ ∃ F1 B1 la lb, vol s F1 B1 X ∧ written F B l off src n first F1 B1 (la ++ lb) ∧
    at_pos F1 la lb prev cl pos (off + n).

(** After the target cluster is known. *)
Lemma write_rest s n first F1 B1 la a lc prev pos :
  vol s F1 B1 X → written F B l off src n first F1 B1 (la ++ a :: lc) →
  0 ≤ n < len src → pos = off + n - bytes_per_cluster c * Z.of_nat (length la) → 0 ≤ pos < bytes_per_cluster c →
  (∀ x, last la = Some x → prev = x) →
  let m := Z.min (len src - n) (bytes_per_cluster c - pos) in
  runs (ok ← write_chunk c a pos (take (Z.to_nat m) (drop (Z.to_nat n) src));
        if negb ok then ret (inr (n, first))
        else if pos + m =? bytes_per_cluster c then
          next ← fat_read_entry c a; ret (inl (n + m, first, a, next, 0))
        else ret (inl (n + m, first, prev, a, pos + m))) s
    (λ r s', match r with inl st => write_inv st s' ∧ len src - st.1.1.1.1 < len src - n | inr x => False end).
Proof.
  intros Hv Hw Hn Epos Hpos Hprev m. assert (0 < m ∧ pos + m ≤ bytes_per_cluster c ∧ n + m ≤ len src) as (Hm & Hpm & Hnm) by lia.
  pose proof (written_step s F B l off src n m first F1 B1 la a lc X Hv Hw ltac:(lia) ltac:(lia) ltac:(lia) ltac:(lia) Hnm) as Hst.
  cbv zeta in Hst. rewrite <- Epos in Hst. specialize (Hst ltac:(lia) Hpm).
  destruct Hw as (Hch & _ & _ & _). destruct (chain_suffix _ _ _ _ _ Hch) as [Ha Hc].
  set (chunk := take (Z.to_nat m) (drop (Z.to_nat n) src)) in *.
  assert (len chunk = m) as Hlc by (unfold chunk, len in *; rewrite length_take, length_drop; lia).
  eapply runs_bind; [apply (write_chunk_ok _ _ _ _ a pos chunk Hv Ha); [lia|lia|by apply Forall_take, Forall_drop]|].
  intros ok s1 (-> & Hv1). cbn [negb]. destruct (Z.eqb_spec (pos + m) (bytes_per_cluster c)) as [E|E].
  - eapply runs_bind; [apply (read_entry_runs _ _ _ _ a Hv1); lia|]. intros next s2 [-> ->]. apply runs_ret. cbn [fst].
    split; [|lia]. split; [lia|]. eexists F1, _, (la ++ [a]), lc. split; [exact Hv1|]. rewrite <- app_assoc. split; [exact Hst|].
    split; [done|by intros x; rewrite last_snoc; intros [= ->]|rewrite length_app; simpl; lia|lia].
  - apply runs_ret. cbn [fst]. split; [|lia]. split; [lia|]. eexists F1, _, la, (a :: lc). split; [exact Hv1|]. split; [exact Hst|].
    split; [done|done|lia|lia].
Qed.

Lemma write_loop_ok s st :
  write_inv st s → runs (loop fat_fuel (write_round c src (len src)) st) s (write_post F B l off src X).
Proof.
  intros Hi. apply (runs_loop _ _ _ _ write_inv (λ st _, len src - st.1.1.1.1)); [done|..].
  { destruct st as [[[[n first] prev] cl] pos]. destruct Hi as [? _]. cbn [fst]. unfold fat_fuel. lia. }
  clear s st Hi. intros [[[[n first] prev] cl] pos] s (Hn & F1 & B1 & la & lb & Hv & Hw & [Hc Hp Ep Hr]). cbn [fst]. split; [lia|].
  unfold write_round. destruct (Z.ltb_spec n (len src)) as [Hlt|Hge]; cbn [negb].
  2:{ apply runs_ret. exists F1, B1, (la ++ lb). cbn [fst snd]. split; [done|]. split; [done|]. split; [lia|]. left. lia. }
  pose proof Hw as (Hch & Hf0 & Hgr & Hov).
  eapply runs_bind; [by apply (write_target_ok s F B l F1 B1 X first prev la lb cl)|].
  intros [[first' a]|] s1; cbn beta iota.
  2:{ intros [Hv1 Hfull]. apply runs_ret. exists F1, B1, (la ++ lb). cbn [fst snd]. split; [done|]. split; [done|]. split; [lia|]. by right. }
  intros (F2 & lc & Hv1 & Hch1 & Hgr1 & Hcase).
  assert (written F B l off src n first' F2 B1 (la ++ a :: lc)) as Hw1.
  { split; [done|]. split; [intros E; by apply app_nil in E as [_ ?]|]. split; [done|]. destruct Hcase as [-> |[-> ->]]; [done|].
    rewrite app_nil_r in Hov, Hch. rewrite contents_app. apply over_grow; [|unfold len in *; lia|done].
    pose proof (chain_contents_length _ _ _ _ _ _ Hv Hch) as Hl. destruct Hov as [tail E].
    assert (length (contents B1 la) = length (contents B1 la)) as E' by done. rewrite E in E' at 2.
    rewrite !length_app, !length_take in *. unfold len in *. rewrite length_drop in E'. lia. }
  eapply runs_weaken; [apply (write_rest s1 n first' F2 B1 la a lc prev pos); done || lia|].
  intros [st|x] s2; [|done]. tauto.
Qed.
End WriteLoop.

(** A file: a chain without repetitions, every entry in use; an empty file has no
    first cluster. *)
Record file (F : Z → Z) (first : Z) (l : list Z) : Prop := {
  fl_chain : chain F first l;
  fl_nodup : NoDup l;
  fl_used : ∀ a, a ∈ l → F a ≠ 0;
  fl_empty : l = [] → first = 0
}.

Lemma write_spec s F B X first l off src :
  vol s F B X → file F first l → 0 ≤ off ≤ bytes_per_cluster c * Z.of_nat (length l) → Forall is_u8 src →
  off + len src < 4294967296 →
  runs (fat32_write c first off src (len src)) s (λ r s',
    (r = (0, first) ∧ vol s' F B X ∧ no_room (bytes_per_cluster c) s) ∨ write_post F B l off src X r s').
Proof.
  intros Hv [Hch Hnd Hu Hf0] Hoff Hsrc Hsz. pose proof (vol_geom _ _ _ _ Hv) as Hg. pose proof (ge_spc _ Hg) as Hspc. pose proof (ge_bpc _ Hg) as Hbpc.
  assert (∀ s' Y, vol s' F B Y → written F B l off src 0 first F B l) as Hw0.
  { intros s' Y _. split; [done|]. split; [done|]. split; [by apply grown_refl|]. rewrite take_0. apply over_nil. }
  pose proof (chain_contents_length _ _ _ _ _ _ Hv Hch) as Hlen. unfold fat32_write. set (bpc := bytes_per_cluster c) in *.
  destruct (Z.eqb_spec (len src) 0) as [E0|Hs0].
  { apply runs_ret. right. exists F, B, l. cbn [fst snd]. split; [done|]. split; [by eapply Hw0|]. unfold len in *. split; [lia|]. left. lia. }
  assert (0 < len src) as Hs1 by (unfold len in *; lia).
  eapply runs_bind; [apply (kalloc_ok _ _ _ _ bpc Hv); lia|]. intros buf s1 (_ & _ & [(-> & Hno & Hv1)|(Hne & Hni & Hv1)]).
  { rewrite Z.eqb_refl. apply runs_ret. by left. }
  replace (buf =? 0) with false by lia.
  assert (0 ≤ off / bpc < 4294967296) as Hk by (split; [apply Z.div_pos; lia|apply Z.div_lt_upper_bound; nia]).
  assert (Z.to_nat (off / bpc) ≤ length l)%nat as Hkl.
  { assert (off / bpc ≤ Z.of_nat (length l)) by (apply Z.div_le_upper_bound; lia). lia. }
  eapply runs_bind; [by apply (seek_ok _ _ _ _ first l (off / bpc) Hv1)|]. intros [prev cl] s2 (-> & Hc & ->).
  eapply runs_bind; [apply (write_loop_ok F B l off src ({[buf]} ∪ X)); [lia|done|done|]|].
  - split; [lia|]. exists F, B, (take (Z.to_nat (off / bpc)) l), (drop (Z.to_nat (off / bpc)) l). rewrite take_drop.
    split; [done|]. split; [by eapply Hw0|]. pose proof (Z.mod_pos_bound off bpc ltac:(lia)).
    split; [done|by intros a ->| |done]. rewrite length_take, Nat.min_l by lia. fold bpc.
    pose proof (Z.div_mod off bpc ltac:(lia)). rewrite Z2Nat.id by lia. lia.
  - intros r s3 (F1 & B1 & l1 & Hv3 & Hrest). eapply runs_bind; [by apply (fat_kfree_buf _ _ _ _ buf Hv3)|].
    intros _ s4 (_ & _ & Hv4). apply runs_ret. right. by exists F1, B1, l1.
Qed.

Lemma read_back C0 off data C : (off ≤ length C0)%nat → over C0 off data C → take (length data) (drop off C) = data.
Proof.
  intros Ho [tail ->]. rewrite drop_app_length' by (rewrite length_take; lia). by rewrite take_app_length.
Qed.

(** The allocation table.  Writing an entry and reading any entry back gives the
    new value (its low 28 bits) at that entry and the old value everywhere else; the
    four reserved bits of the entry, all clusters and the heap are unchanged. *)
Theorem fat_entry_roundtrip s F B X cl v :
  vol s F B X → 0 ≤ cl < entries →
  ∃ s', fat_write_entry c cl v s = Some (true, s') ∧ same_rest s s' ∧
    fat_word s' cl / 2 ^ 28 = fat_word s cl / 2 ^ 28 ∧
    (∀ k, 2 ≤ k < entries → cluster_bytes s' k = B k) ∧
    ∀ k, 0 ≤ k < entries → fat_read_entry c k s' = Some (if k =? cl then v mod 2 ^ 28 else F k, s').
Proof.
  intros Hv Hcl. destruct (fat_write_entry_ok _ _ _ _ cl v Hv Hcl) as (ok & s' & E & -> & Hv' & Hs). exists s'. split; [done|]. split; [done|].
  split; [|split; [apply (vol_data _ _ _ _ Hv')|]].
  - destruct (fat_write_raw s cl v (vol_geom _ _ _ _ Hv) Hcl) as (d & E' & _ & _ & Hw). rewrite E' in E. injection E as <-.
    rewrite Hw, new_word_val, Z.div_add by lia. pose proof (Z.mod_pos_bound v (2 ^ 28) ltac:(lia)).
    pose proof (fat_word_u32 s cl). rewrite (Z.div_small (v mod _)), Z.mod_small by dlia. done.
  - intros k Hk. rewrite (fat_read_entry_ok _ _ _ _ k Hv' Hk). destruct (Z.eqb_spec k cl) as [-> |Hne].
    + by rewrite fn_lookup_insert, land28.
    + by rewrite fn_lookup_insert_ne.
Qed.

(** Allocation takes the free cluster with the lowest number, marks it as the end of
    a chain and changes no other entry and no cluster; it fails exactly when no entry
    is free, and then changes nothing. *)
Theorem fat32_alloc_cluster_correct s F B X :
  vol s F B X →
  ∃ r s', fat32_alloc_cluster c s = Some (r, s') ∧ first_free F r ∧ same_rest s s' ∧
    vol s' (if r =? 0 then F else <[r := FAT32_EOC]> F) B X.
Proof. intros Hv. apply (alloc_cluster_ok _ _ _ _ Hv). Qed.

(** Freeing a chain of at most 2^24 clusters ends, makes exactly its clusters free
    and changes no other entry and no cluster. *)
Theorem fat32_free_chain_correct s F B X start l :
  vol s F B X → chain F start l → NoDup l → Z.of_nat (length l) ≤ 0x1000000 →
  ∃ s', fat32_free_chain c start s = Some ((), s') ∧ vol s' (freed l F) B X ∧ same_rest s s'.
Proof.
  intros Hv Hc Hnd Hl. destruct (free_chain_ok s F B X start l Hv Hc Hnd Hl) as ([] & s' & E & ?). by exists s'.
Qed.


(** C36: Writing at an offset up to the end of the chain ends.  The bytes written replace
    those of the file at the offset and leave its other bytes alone; the chain is
    extended with clusters that were free, nothing outside the file's clusters and
    their entries changes, and all bytes are written unless the volume is full or
    the heap has no room.  Reading the written range back gives the data. *)
Theorem fat32_write_correct s F B X first l off src :
  vol s F B X → file F first l → 0 ≤ off ≤ bytes_per_cluster c * Z.of_nat (length l) → Forall is_u8 src →
  off + len src < 4294967296 →
  ∃ n first' s', fat32_write c first off src (len src) s = Some ((n, first'), s') ∧
    ((n = 0 ∧ first' = first ∧ vol s' F B X ∧ no_room (bytes_per_cluster c) s) ∨
     ∃ F1 B1 l1, vol s' F1 B1 X ∧ chain F1 first' l1 ∧ grown F B l F1 B1 l1 ∧
       over (contents B l) (Z.to_nat off) (take (Z.to_nat n) src) (contents B1 l1) ∧
       (n = len src ∨ (0 ≤ n < len src ∧ full F1)) ∧
       ∃ out s2, fat32_read_at c first' off n s' = Some (out, s2) ∧
         (out = take (Z.to_nat n) src ∨ no_room (bytes_per_cluster c) s')).
Proof.
  intros Hv Hfl Hoff Hsrc Hsz. destruct (write_spec s F B X first l off src Hv Hfl Hoff Hsrc Hsz) as ([n first'] & s' & E & Hcase).
  exists n, first', s'. split; [done|]. destruct Hcase as [([= -> ->] & ? & ?)|(F1 & B1 & l1 & Hv1 & (Hch & Hf & Hgr & Hov) & Hn & Hfull)]; [by left|].
  right. exists F1, B1, l1. cbn [fst snd] in *. do 4 (split; [done|]). split.
  { destruct Hfull as [|Hfull]; [by left|]. destruct (decide (n = len src)); [by left|right]. split; [lia|done]. }
  destruct (read_at_spec s' F1 B1 X first' l1 off n Hv1 Hch ltac:(lia) ltac:(lia)) as (out & s2 & E2 & _ & _ & _ & Hout).
  exists out, s2. split; [done|]. destruct Hout as [-> |[_ Hno]]; [left|by right].
  pose proof (chain_contents_length _ _ _ _ _ _ Hv (fl_chain _ _ _ Hfl)) as Hlen.
  replace (Z.to_nat n) with (length (take (Z.to_nat n) src)) at 1 by (rewrite length_take; unfold len in *; lia).
  apply (read_back (contents B l)); [unfold len in *; lia|done].
Qed.
End Volume.
