(* ===== verification/FatDir.v ===== *)
(** FAT32 directories and files (fs/fat32.c): scanning a directory, opening, creating,
    replacing and removing files and directories, and the operations registered with
    the virtual file system.

    The state and the monad are those of Fat.v.  A visitor of [read_directory] is a
    function on its own state that says whether to stop.  [None] is also a write
    outside a cluster buffer, a read of a name past its end, or a scan that never
    ends. *)

From stdpp Require Import prelude functions numbers list gmap.
From Stdlib Require Import ZArith Lia.
From S2P Require Import Prelude Memory Frames Kheap Alloc Bytes FatName Fat.

Open Scope Z_scope.

Record fat32_dirent : Type := Dirent {
  de_name : list Z;
  de_size : Z;
  de_first_cluster : Z;
  de_is_dir : bool
}.

Definition make_dirent (entry name : list Z) : fat32_dirent :=
  let is_dir := truthy (Z.land (byte entry 11) FAT32_DIR_ATTR_DIRECTORY) in
  Dirent (take 255 name) (if is_dir then 0 else le32 entry 28)
    (Z.lor (Z.shiftl (le16 entry 20) 16) (le16 entry 26)) is_dir.

Definition entry_at (buf : list Z) (off : Z) : list Z := take 32 (drop (Z.to_nat off) buf).

Definition FAT32_ERRNO_ENOENT : Z := 2.
Definition FAT32_ERRNO_EEXIST : Z := 17.
Definition FAT32_ERRNO_EISDIR : Z := 21.
Definition FAT32_ERRNO_EINVAL : Z := 22.
Definition FAT32_ERRNO_ENOTEMPTY : Z := 39.
Definition REMOVE_MAX_CHILDREN : Z := 512.

(** A checked copy into a buffer. *)
Definition put_at (buf : list Z) (off : Z) (data : list Z) : option (list Z) :=
  if (0 <=? off) && (off + len data <=? len buf) then Some (splice buf (Z.to_nat off) data) else None.

Fixpoint put_all (buf : list Z) (off : Z) (fields : list (Z * list Z)) : option (list Z) :=
  match fields with
  | [] => Some buf
  | (o, data) :: fields => buf ← put_at buf (off + o) data; put_all buf off fields
  end.

Definition b8 (v k : Z) : Z := Z.land (Z.shiftr v k) 0xFF.

(** The fields an entry for a file or directory gets; the others keep their bytes. *)
Definition entry_fields (short11 : list Z) (first_cluster size : Z) (is_dir : bool) : list (Z * list Z) :=
  [(0, short11); (11, [if is_dir then FAT32_DIR_ATTR_DIRECTORY else 0x20]);
   (20, [b8 first_cluster 16; b8 first_cluster 24]); (26, [b8 first_cluster 0; b8 first_cluster 8]);
   (28, [b8 size 0; b8 size 8; b8 size 16; b8 size 24])].

Section FatDir.
Context {D H : Type} `{!BlockIO D, !HeapAllocator H}.
Notation fatM := (stM (fat_state D H)).
Implicit Types c : fat32_ctx.

(** ** Scanning *)

Section Scan.
Context {U : Type} (visit : U → Z → Z → list Z → list Z → U * bool).

(** One entry of the buffer: [inr (u, found)] ends the scan. *)
Definition scan_entry (cluster : Z) (buf : list Z) (i : Z) (st : list (Z * list Z) * U)
    : (list (Z * list Z) * U) + (U * bool) :=
  let '(acc, u) := st in
  let entry := entry_at buf (i * 32) in
  let b0 := byte entry 0 in
  if b0 =? 0 then inr (u, false)
  else if b0 =? 0xE5 then inl ([], u)
  else if Z.land (byte entry 11) FAT32_DIR_ATTR_LFN =? FAT32_DIR_ATTR_LFN then inl (lfn_add_part acc entry, u)
  else
    let name := if 0 <? Z.of_nat (length acc) then lfn_assemble acc FAT32_NAME_MAX
                else build_short_name entry FAT32_NAME_MAX in
    let '(u, stop) := visit u cluster (i * 32) entry name in
    if (stop : bool) then inr (u, true) else inl ([], u).

Definition scan_cluster c (cluster : Z) (buf : list Z) (st : list (Z * list Z) * U) :=
  for_ 0 (bytes_per_cluster c / 32) (scan_entry cluster buf) st.

(** One round of the [while]: nothing in it moves to the next cluster. *)
Definition dir_round c (cluster : Z) (st : list (Z * list Z) * U) : fatM (list (Z * list Z) * U + U * bool) :=
  if negb (cluster_valid cluster) then ret (inr (st.2, false))
  else
    r ← cluster_read c cluster (sectors_per_cluster c);
    match r with
    | None => ret (inr (st.2, false))
    | Some buf => ret (scan_cluster c cluster buf st)
    end.

Definition read_directory c (dir_cluster : Z) (u : U) : fatM (U * bool) :=
  buf ← kalloc (bytes_per_cluster c);
  if buf =? 0 then ret (u, false)
  else
    r ← loop fat_fuel (dir_round c dir_cluster) ([], u);
    kfree buf;;
    ret r.
End Scan.

Definition open_visit (name : list Z) (u : option fat32_dirent) (cluster offset : Z) (entry n : list Z)
    : option fat32_dirent * bool :=
  match u with
  | Some _ => (u, true)
  | None => if name_matches n name then (Some (make_dirent entry n), true) else (None, false)
  end.

Definition find_entry c (dir_cluster : Z) (name : list Z) : fatM (option fat32_dirent) :=
  r ← read_directory (open_visit name) c dir_cluster None; ret r.1.

(** [fat32_entry_loc_t] *)
Record entry_loc : Type := EntryLoc { el_d : fat32_dirent; el_cluster : Z; el_offset : Z }.

Definition locate_visit (name : list Z) (u : option entry_loc) (cluster offset : Z) (entry n : list Z)
    : option entry_loc * bool :=
  match u with
  | Some _ => (u, true)
  | None => if name_matches n name then (Some (EntryLoc (make_dirent entry n) cluster offset), true) else (None, false)
  end.

Definition locate_entry c (dir_cluster : Z) (name : list Z) : fatM (option entry_loc) :=
  r ← read_directory (locate_visit name) c dir_cluster None; ret r.1.

(** ** Creating entries *)

(** The first run of [slots] unused entries in a cluster: its offset. *)
Definition free_run c (slots : Z) (buf : list Z) : option Z :=
  match for_ 0 (bytes_per_cluster c / 32) (λ i run,
          let b0 := byte buf (Z.to_nat (i * 32)) in
          if (b0 =? 0) || (b0 =? 0xE5) then
            if run + 1 =? slots then inr ((i - (slots - 1)) * 32) else inl (run + 1)
          else inl 0) 0 with
  | inl _ => None
  | inr off => Some off
  end.

Definition slots_round c (slots : Z) (l : Z * Z) : fatM (Z * Z + (Z * Z + Z)) :=
  let '(cluster, last) := l in
  if negb (cluster_valid cluster) then ret (inr (inr last))
  else
    r ← cluster_read c cluster (sectors_per_cluster c);
    match r with
    | None => ret (inr (inr last))
    | Some buf =>
        match free_run c slots buf with
        | Some off => ret (inr (inl (cluster, off)))
        | None => next ← fat_read_entry c cluster; ret (inl (next, cluster))
        end
    end.

Definition dir_find_free_slots c (dir_cluster slots : Z) : fatM (option (Z * Z)) :=
  buf ← kalloc (bytes_per_cluster c);
  if buf =? 0 then ret None
  else
    r ← loop fat_fuel (slots_round c slots) (dir_cluster, dir_cluster);
    kfree buf;;
    match r with
    | inl found => ret (Some found)
    | inr last_cluster =>
        newcl ← fat32_alloc_cluster c;
        if newcl =? 0 then ret None
        else
          ok ← fat_write_entry c last_cluster newcl;
          if negb ok then fat32_free_chain c newcl;; ret None
          else
            zbuf ← kalloc (bytes_per_cluster c);
            if zbuf =? 0 then ret None
            else
              ok ← cluster_write c newcl (replicate (Z.to_nat (bytes_per_cluster c)) 0);
              kfree zbuf;;
              if negb ok then fat32_free_chain c newcl;; ret None else ret (Some (newcl, 0))
    end.

(** A cluster is read, changed by [f] and written back: [None] of [f] is [false]. *)
Definition edit_cluster c (cluster : Z) (f : list Z → fatM (option (list Z))) : fatM bool :=
  buf ← kalloc (bytes_per_cluster c);
  if buf =? 0 then ret false
  else
    r ← cluster_read c cluster (sectors_per_cluster c);
    match r with
    | None => kfree buf;; ret false
    | Some b =>
        r ← f b;
        match r with
        | None => kfree buf;; ret false
        | Some b => ok ← cluster_write c cluster b; kfree buf;; ret ok
        end
    end.

Definition write_dir_entry_at c (cluster offset : Z) (name : list Z) (first_cluster size : Z) (is_dir : bool) : fatM bool :=
  edit_cluster c cluster (λ b,
    match encode_short_name name with
    | None => ret None
    | Some short11 => b ← lift (put_all b offset (entry_fields short11 first_cluster size is_dir)); ret (Some b)
    end).

(** The long entries above the slot at [offset]; the inner [None] is a slot above the
    start of the cluster. *)
Definition put_part (name : list Z) (offset parts checksum p : Z) (b : list Z) : list Z + option () :=
  let char_start := u32 (len name - (p + 1) * 13) in
  let slot := offset - (p + 1) * 32 in
  if slot <? 0 then inr (Some ())
  else match (e ← lfn_fill_part name char_start (u8 (parts - p)) (p =? 0) checksum; put_at b slot e) with
       | None => inr None
       | Some b => inl b
       end.

Definition create_dir_entries c (cluster offset : Z) (name : list Z) (first_cluster size : Z) (is_dir : bool) : fatM bool :=
  let parts := lfn_parts_for name in
  if parts =? 0 then write_dir_entry_at c cluster offset name first_cluster size is_dir
  else
    short11 ← lift (encode_short_name name);
    edit_cluster c cluster (λ b,
      match for_ 0 parts (put_part name offset parts (lfn_checksum short11)) b with
      | inr None => fault
      | inr (Some _) => ret None
      | inl b => b ← lift (put_all b offset (entry_fields short11 first_cluster size is_dir)); ret (Some b)
      end).

(** ** Paths *)

(** The directory of the last component: [inr code] is the error. *)
Fixpoint walk_dirs c (dir_cluster : Z) (comps : list (list Z)) : fatM (Z + Z) :=
  match comps with
  | [] => ret (inl dir_cluster)
  | name :: comps =>
      r ← find_entry c dir_cluster name;
      match r with
      | None => ret (inr (- FAT32_ERRNO_ENOENT))
      | Some e => if negb (de_is_dir e) then ret (inr (- FAT32_ERRNO_EISDIR)) else walk_dirs c (de_first_cluster e) comps
      end
  end.

(** The components before the last, and the last. *)
Definition split_last (comps : list (list Z)) : option (list (list Z) * list Z) :=
  match last comps with
  | None => None
  | Some name => Some (take (length comps - 1) comps, name)
  end.

Definition any_name (_ : list Z) : bool := true.

Fixpoint open_walk (fuel : nat) c (dir_cluster : Z) (path : list Z) : fatM (option fat32_dirent) :=
  match fuel with
  | O => fault
  | Datatypes.S fuel =>
      match split_component path FAT32_NAME_MAX with
      | None => ret None
      | Some (component, path) =>
          r ← find_entry c dir_cluster component;
          match r with
          | None => ret None
          | Some e =>
              if bool_decide (path = []) then ret (Some e)
              else if negb (de_is_dir e) then ret None
              else open_walk fuel c (de_first_cluster e) path
          end
      end
  end.

Definition fat32_open c (path : list Z) : fatM (option fat32_dirent) :=
  open_walk (Datatypes.S (length path)) c (root_cluster c) path.

Definition fat32_stat c (path : list Z) : fatM (option (Z * bool)) :=
  r ← fat32_open c path; ret ((λ e, (de_size e, de_is_dir e)) <$> r).

(** ** Whole files *)

(** The clusters of a new file; [None] is the loop giving up. *)
Definition store_round c (data : list Z) (size total : Z) (l : Z * Z * Z) : fatM (Z * Z * Z + option Z) :=
  let '(i, first_cluster, prev) := l in
  let bpc := bytes_per_cluster c in
  if negb (i <? total) then ret (inr (Some first_cluster))
  else
    cl ← fat32_alloc_cluster c;
    if cl =? 0 then ret (inr None)
    else
      ok ← (if first_cluster =? 0 then ret true else fat_write_entry c prev cl);
      if negb ok then fat32_free_chain c first_cluster;; ret (inr None)
      else
        let first_cluster := if first_cluster =? 0 then cl else first_cluster in
        let chunk := Z.min bpc (u32 (size - i * bpc)) in
        let cbuf := splice (replicate (Z.to_nat bpc) 0) 0 (take (Z.to_nat chunk) (drop (Z.to_nat (u32 (i * bpc))) data)) in
        ok ← cluster_write c cl cbuf;
        if negb ok then fat32_free_chain c first_cluster;; ret (inr None)
        else ret (inl (i + 1, first_cluster, cl)).

Definition fat32_write_file c (path : list Z) (buffer : option (list Z)) (size : Z) : fatM bool :=
  if (0 <? size) && bool_decide (buffer = None) then ret false
  else
    match path_components any_name path ≫= split_last with
    | None => ret false
    | Some (dirs, name) =>
        r ← walk_dirs c (root_cluster c) dirs;
        match r with
        | inr _ => ret false
        | inl dir_cluster =>
            loc ← locate_entry c dir_cluster name;
            cbuf ← kalloc (bytes_per_cluster c);
            if cbuf =? 0 then ret false
            else
              let total := u32 (u32 (size + bytes_per_cluster c) - 1) / bytes_per_cluster c in
              r ← loop fat_fuel (store_round c (default [] buffer) size total) (0, 0, 0);
              kfree cbuf;;
              match r with
              | None => ret false
              | Some first_cluster =>
                  match loc with
                  | Some loc =>
                      (if 2 <=? de_first_cluster (el_d loc) then fat32_free_chain c (de_first_cluster (el_d loc)) else ret ());;
                      write_dir_entry_at c (el_cluster loc) (el_offset loc) name first_cluster size false
                  | None =>
                      let parts := lfn_parts_for name in
                      slot ← dir_find_free_slots c dir_cluster (parts + 1);
                      match slot with
                      | None => ret false
                      | Some (slot_cluster, slot_offset) =>
                          create_dir_entries c slot_cluster (slot_offset + parts * 32) name first_cluster size false
                      end
                  end
              end
        end
    end.

Definition fat32_update_size c (path : list Z) (first_cluster size : Z) : fatM bool :=
  match path_components any_name path ≫= split_last with
  | None => ret false
  | Some (dirs, name) =>
      r ← walk_dirs c (root_cluster c) dirs;
      match r with
      | inr _ => ret false
      | inl dir_cluster =>
          loc ← locate_entry c dir_cluster name;
          match loc with
          | None => ret false
          | Some loc => write_dir_entry_at c (el_cluster loc) (el_offset loc) name first_cluster size false
          end
      end
  end.

(** ** Directories *)

Definition dot_fields (name : list Z) (cluster : Z) : list (Z * list Z) :=
  [(0, name); (11, [FAT32_DIR_ATTR_DIRECTORY]); (20, [b8 cluster 16; b8 cluster 24]); (26, [b8 cluster 0; b8 cluster 8])].

Definition write_dot_entries c (dir_cluster parent_cluster : Z) : fatM bool :=
  buf ← kalloc (bytes_per_cluster c);
  if buf =? 0 then ret false
  else
    b ← lift (b ← put_all (replicate (Z.to_nat (bytes_per_cluster c)) 0) 0 (dot_fields [46] dir_cluster);
              put_all b 32 (dot_fields [46; 46] parent_cluster));
    ok ← cluster_write c dir_cluster b;
    kfree buf;;
    ret ok.

Definition fat32_mkdir c (path : list Z) : fatM Z :=
  match path_components valid_component_name path ≫= split_last with
  | None => ret (- FAT32_ERRNO_EINVAL)
  | Some (dirs, name) =>
      r ← walk_dirs c (root_cluster c) dirs;
      match r with
      | inr code => ret code
      | inl dir_cluster =>
          existing ← find_entry c dir_cluster name;
          match existing with
          | Some _ => ret (- FAT32_ERRNO_EEXIST)
          | None =>
              new_cluster ← fat32_alloc_cluster c;
              if new_cluster =? 0 then ret (- FAT32_ERRNO_ENOTEMPTY)
              else
                ok ← write_dot_entries c new_cluster dir_cluster;
                if negb ok then fat32_free_chain c new_cluster;; ret (- FAT32_ERRNO_EINVAL)
                else
                  let parts := lfn_parts_for name in
                  slot ← dir_find_free_slots c dir_cluster (parts + 1);
                  match slot with
                  | None => fat32_free_chain c new_cluster;; ret (- FAT32_ERRNO_ENOTEMPTY)
                  | Some (slot_cluster, slot_offset) =>
                      ok ← create_dir_entries c slot_cluster (slot_offset + parts * 32) name new_cluster 0 true;
                      if negb ok then fat32_free_chain c new_cluster;; ret (- FAT32_ERRNO_EINVAL) else ret 0
                  end
          end
      end
  end.

(** The long entries directly above [off] get the deleted mark; [n] bounds their
    number. *)
Fixpoint delete_parts (n : nat) (off : Z) (b : list Z) : list Z :=
  match n with
  | O => b
  | Datatypes.S n =>
      if off <? 0 then b
      else if byte b (Z.to_nat off + 11) =? FAT32_DIR_ATTR_LFN then delete_parts n (off - 32) (<[Z.to_nat off := 0xE5]> b)
      else b
  end.

Definition mark_entry_deleted c (cluster offset : Z) : fatM bool :=
  buf ← kalloc (bytes_per_cluster c);
  if buf =? 0 then ret false
  else
    r ← cluster_read c cluster (sectors_per_cluster c);
    match r with
    | None => kfree buf;; ret false
    | Some b =>
        let b0 := byte b (Z.to_nat offset) in
        if (b0 =? 0) || (b0 =? 0xE5) then kfree buf;; ret true
        else
          ok ← cluster_write c cluster (delete_parts (length b) (offset - 32) (<[Z.to_nat offset := 0xE5]> b));
          kfree buf;;
          ret ok
    end.

Definition remove_collect_visit (items : list entry_loc) (cluster offset : Z) (entry name : list Z) : list entry_loc * bool :=
  if REMOVE_MAX_CHILDREN <=? Z.of_nat (length items) then (items, true)
  else (items ++ [EntryLoc (make_dirent entry name) cluster offset], false).

(** The loop over the collected children; [rec] removes a directory. *)
Fixpoint remove_children c (rec : Z → fatM Z) (items : list entry_loc) : fatM Z :=
  match items with
  | [] => ret 0
  | ch :: items =>
      let first := de_first_cluster (el_d ch) in
      rc ← (if de_is_dir (el_d ch) then rec first
            else (if 2 <=? first then fat32_free_chain c first else ret ());; ret 0);
      if negb (rc =? 0) then ret rc
      else mark_entry_deleted c (el_cluster ch) (el_offset ch);; remove_children c rec items
  end.

(** [depth] counts down the 17 levels the code allows. *)
Fixpoint remove_levels (depth : nat) c (dir_cluster : Z) : fatM Z :=
  match depth with
  | O => ret (- FAT32_ERRNO_ENOTEMPTY)
  | Datatypes.S depth =>
      r ← read_directory remove_collect_visit c dir_cluster [];
      rc ← remove_children c (remove_levels depth c) r.1;
      if negb (rc =? 0) then ret rc
      else (if 2 <=? dir_cluster then fat32_free_chain c dir_cluster else ret ());; ret 0
  end.

Definition remove_recursive c (dir_cluster : Z) : fatM Z := remove_levels 17 c dir_cluster.

Definition fat32_remove c (path : list Z) : fatM Z :=
  match path_components any_name path ≫= split_last with
  | None => ret (- FAT32_ERRNO_EINVAL)
  | Some (dirs, name) =>
      r ← walk_dirs c (root_cluster c) dirs;
      match r with
      | inr code => ret code
      | inl dir_cluster =>
          loc ← locate_entry c dir_cluster name;
          match loc with
          | None => ret (- FAT32_ERRNO_ENOENT)
          | Some loc =>
              let first := de_first_cluster (el_d loc) in
              rc ← (if de_is_dir (el_d loc) then remove_recursive c first
                    else (if 2 <=? first then fat32_free_chain c first else ret ());; ret 0);
              if negb (rc =? 0) then ret rc
              else mark_entry_deleted c (el_cluster loc) (el_offset loc);; ret 0
          end
      end
  end.

(** The entries the callback is given, in order. *)
Definition list_visit (l : list (list Z * Z * bool)) (cluster offset : Z) (entry name : list Z)
    : list (list Z * Z * bool) * bool :=
  let d := make_dirent entry name in (l ++ [(de_name d, de_size d, de_is_dir d)], false).

Definition fat32_list_dir_ctx c (path : list Z) : fatM (list (list Z * Z * bool)) :=
  dir ← (if bool_decide (path = []) || bool_decide (path = [47]) then ret (Some (root_cluster c))
         else
           r ← fat32_open c path;
           match r with
           | Some e => ret (if de_is_dir e then Some (de_first_cluster e) else None)
           | None => ret None
           end);
  match dir with
  | None => ret []
  | Some dir_cluster => r ← read_directory list_visit c dir_cluster []; ret r.1
  end.

(** ** The operations registered with the virtual file system *)

(** [ctx] is the pointer kept by the mount. *)
Definition with_ctx {X} (vctx : Z) (null : X) (f : fat32_ctx → fatM X) : fatM X := λ s,
  if vctx =? 0 then Some (null, s) else c ← f_ctxs s !! vctx; f c s.

Definition fat32_vfs_read_at (vctx : Z) (path : list Z) (offset buffer_size : Z) : fatM (Z * list Z) :=
  with_ctx vctx (-1, []) (λ c,
    r ← fat32_open c path;
    match r with
    | None => ret (-1, [])
    | Some e =>
        if de_is_dir e then ret (-1, [])
        else if de_size e <=? offset then ret (0, [])
        else
          out ← fat32_read_at c (de_first_cluster e) offset (Z.min buffer_size (de_size e - offset));
          ret (s32 (len out), out)
    end).

Definition fat32_vfs_write_at (vctx : Z) (path : list Z) (offset : Z) (buffer : option (list Z)) (size : Z) : fatM (option Z) :=
  with_ctx vctx None (λ c,
    if (0 <? size) && bool_decide (buffer = None) then ret None
    else
      r ← fat32_open c path;
      match r with
      | None => ret None
      | Some e =>
          if de_is_dir e then ret None
          else
            w ← (match buffer with
                 | Some src => fat32_write c (de_first_cluster e) offset src size
                 | None => ret (0, de_first_cluster e)
                 end);
            if negb (w.1 =? size) then ret None
            else
              let new_size := if de_size e <? u32 (offset + size) then u32 (offset + size) else de_size e in
              ok ← fat32_update_size c path w.2 new_size;
              ret (if (ok : bool) then Some new_size else None)
      end).

Definition fat32_vfs_stat_file (vctx : Z) (path : list Z) : fatM (option (Z * bool)) :=
  with_ctx vctx None (λ c, fat32_stat c path).

Definition fat32_vfs_read_file (vctx : Z) (path : list Z) (buffer_size : Z) : fatM (Z * list Z) :=
  with_ctx vctx (-1, []) (λ c,
    r ← fat32_open c path;
    match r with
    | None => ret (-1, [])
    | Some e =>
        if de_is_dir e then ret (-1, [])
        else
          out ← fat32_read c (de_first_cluster e) (Z.min buffer_size (de_size e));
          ret (s32 (len out), out)
    end).

Definition fat32_vfs_write_file (vctx : Z) (path : list Z) (buffer : option (list Z)) (size : Z) : fatM bool :=
  with_ctx vctx false (λ c, fat32_write_file c path buffer size).
Definition fat32_vfs_list_dir (vctx : Z) (path : list Z) : fatM (list (list Z * Z * bool)) :=
  with_ctx vctx [] (λ c, fat32_list_dir_ctx c path).
Definition fat32_vfs_mkdir (vctx : Z) (path : list Z) : fatM Z :=
  with_ctx vctx (- FAT32_ERRNO_EINVAL) (λ c, fat32_mkdir c path).
Definition fat32_vfs_remove (vctx : Z) (path : list Z) : fatM Z :=
  with_ctx vctx (- FAT32_ERRNO_EINVAL) (λ c, fat32_remove c path).
Definition fat32_vfs_mount (dev : Z) : fatM Z := fat32_mount dev.
End FatDir.

(** ** Entries in a buffer *)

Lemma for_ext {St R} (f g : Z → St → St + R) lo hi s :
  (∀ i s, lo ≤ i < hi → f i s = g i s) → for_ lo hi f s = for_ lo hi g s.
Proof.
  intros Hfg. destruct (Z.le_gt_cases hi lo) as [Hle|Hgt]; [by rewrite !for_end|].
  remember (Z.to_nat (hi - lo)) as n eqn:En. revert lo s Hfg Hgt En. induction n as [|n IH]; intros lo s Hfg Hgt En; [lia|].
  rewrite !for_unfold by lia. rewrite Hfg by lia. destruct (g lo s) as [s'|r]; [|done].
  destruct (Z.le_gt_cases hi (lo + 1)); [by rewrite !for_end|]. apply IH; [|lia|lia]. intros i t Hi. apply Hfg. lia.
Qed.

(** An entry in its place: what is before, the entry, what is after. *)
Lemma put_at_inside pre e post o data e' :
  put_at e o data = Some e' → put_at (pre ++ e ++ post) (len pre + o) data = Some (pre ++ e' ++ post).
Proof.
  unfold put_at, len. destruct (_ && _) eqn:E; [|done]. apply andb_true_iff in E as [E1%Z.leb_le E2%Z.leb_le]. intros [= <-]. rewrite !length_app, !Nat2Z.inj_add.
  replace (_ && _) with true by (symmetry; apply andb_true_iff; split; apply Z.leb_le; lia). unfold splice. f_equal.
  replace (Z.to_nat (Z.of_nat (length pre) + o)) with (length pre + Z.to_nat o)%nat by lia.
  rewrite <- Nat.add_assoc. rewrite take_app_add, drop_app_add'. 2: done.
  rewrite take_app_le by lia. rewrite drop_app_le by lia. by rewrite <- !app_assoc.
Qed.

Lemma length_put_at b o data b' : put_at b o data = Some b' → length b' = length b.
Proof.
  unfold put_at, splice, len. destruct (_ && _) eqn:E; [|done]. apply andb_true_iff in E as [E1%Z.leb_le E2%Z.leb_le]. intros [= <-]. rewrite !length_app, length_take, length_drop. lia.
Qed.

Lemma put_all_inside pre e post fields e' :
  put_all e 0 fields = Some e' → put_all (pre ++ e ++ post) (len pre) fields = Some (pre ++ e' ++ post).
Proof.
  revert e. induction fields as [|[o data] fields IH]; intros e; simpl; [by intros [= ->]|].
  destruct (put_at e (0 + o) data) as [e1|] eqn:E; [|done]. obind. intros H1. rewrite Z.add_0_l in E.
  rewrite (put_at_inside pre e post o data e1 E). obind. by apply IH.
Qed.

Lemma b8_val v k : 0 ≤ k → b8 v k = v / 2 ^ k mod 256.
Proof. intros Hk. unfold b8. rewrite Z.shiftr_div_pow2 by done. change 0xFF with (Z.ones 8). by rewrite Z.land_ones by lia. Qed.

(** The entry that is written. *)
Lemma new_entry_ok e short11 first size is_dir :
  length e = 32%nat → length short11 = 11%nat → 0 ≤ first < 4294967296 → 0 ≤ size < 4294967296 →
  ∃ e', put_all e 0 (entry_fields short11 first size is_dir) = Some e' ∧ length e' = 32%nat ∧
    (∃ rest, e' = short11 ++ rest) ∧ byte e' 11 = (if is_dir then FAT32_DIR_ATTR_DIRECTORY else 0x20) ∧
    ∀ n, make_dirent e' n = Dirent (take 255 n) (if is_dir then 0 else size) first is_dir.
Proof.
  intros He Hs Hf Hz. do 32 (destruct e as [|? e]; [done|]). destruct e; [|done].
  do 11 (destruct short11 as [|? short11]; [done|]). destruct short11; [|done].
  match goal with |- context [put_all ?b 0 ?f] =>
    let r := eval cbv -[b8] in (put_all b 0 f) in match r with Some ?x => exists x end end.
  split; [reflexivity|]. split; [reflexivity|]. split; [eexists; reflexivity|]. split; [by destruct is_dir|].
  intros n. unfold make_dirent, byte. cbn [nth]. f_equal.
  - replace (truthy _) with is_dir by (by destruct is_dir). destruct is_dir; [done|].
    rewrite le32_val; unfold byte; cbn [nth Nat.add]; rewrite ?b8_val by lia; try (apply Z.mod_pos_bound; lia).
    simpl (2 ^ _). dlia.
  - rewrite Z.lor_comm, !le16_val; unfold byte; cbn [nth Nat.add]; rewrite ?b8_val by lia; try (apply Z.mod_pos_bound; lia).
    rewrite lor_add; [simpl (2 ^ _); dlia|lia|]. simpl (2 ^ _). dlia.
  - by destruct is_dir.
Qed.

Lemma entry_at_mid pre e post : length e = 32%nat → entry_at (pre ++ e ++ post) (len pre) = e.
Proof.
  intros He. unfold entry_at, len. rewrite Nat2Z.id, drop_app_length. rewrite <- He. by rewrite take_app_length.
Qed.

Lemma entry_at_prefix pre x y o : 0 ≤ o → o + 32 ≤ len pre → entry_at (pre ++ x) o = entry_at (pre ++ y) o.
Proof.
  intros H0 Ho. unfold entry_at, len in *. rewrite !drop_app_le, !take_app_le by (rewrite ?length_drop; lia). done.
Qed.

(** What is in an encoded name. *)
Lemma encode_base_out p dot out r : encode_base p dot out = Some r → (length out ≤ 8)%nat → Forall (λ c, valid_short_char c = true) out →
  (length r ≤ 8)%nat ∧ Forall (λ c, valid_short_char c = true) r.
Proof.
  revert out. induction p as [|c p IH]; intros out; simpl; [by intros [= ->]|].
  destruct (Z.ltb_spec (len out) 8) as [Hl|]; cbn [negb]; [|by intros [= ->]]. destruct (_ && _); [by intros [= ->]|].
  destruct (valid_short_char (upper c)) eqn:E; cbn [negb]; [|done]. intros Hr Hlen Ho. apply (IH _ Hr).
  - unfold len in Hl. rewrite length_app. simpl. lia.
  - apply Forall_app. split; [done|]. by apply Forall_singleton.
Qed.

Lemma encode_ext_out e n out r : encode_ext e n out = Some r → Forall (λ c, valid_short_char c = true) out →
  (length r ≤ length out + n)%nat ∧ Forall (λ c, valid_short_char c = true) r.
Proof.
  revert e out. induction n as [|n IH]; intros e out; [destruct e; intros [= ->]; split; (lia || done)|].
  destruct e as [|c e]; simpl; [intros [= ->] Ho; split; [lia|done]|]. destruct (valid_short_char (upper c)) eqn:E; cbn [negb]; [|done].
  intros Hr Ho. destruct (IH _ _ Hr) as [Hl Hf]; [apply Forall_app; split; [done|by apply Forall_singleton]|].
  rewrite length_app in Hl. simpl in Hl. split; [lia|done].
Qed.

Lemma valid_char_range x : valid_short_char x = true → 32 < x < 128.
Proof. unfold valid_short_char. intros Hx. lia. Qed.

Lemma pad_field_u8 n s : Forall (λ c, valid_short_char c = true) s → Forall is_u8 (pad_field n s).
Proof.
  intros Hs. apply Forall_app. split.
  - eapply Forall_impl; [exact Hs|]. intros x Hx%valid_char_range. unfold is_u8. lia.
  - apply Forall_replicate. unfold is_u8. lia.
Qed.

Lemma encode_spec name e :
  encode_short_name name = Some e → length e = 11%nat ∧ Forall is_u8 e ∧ 32 < byte e 0 < 128.
Proof.
  unfold encode_short_name. destruct (last_dot name =? 0); [done|].
  destruct (encode_base name (last_dot name) []) as [base|] eqn:Eb; [|done]. obind.
  destruct (encode_base_out _ _ _ _ Eb ltac:(simpl; lia) ltac:(constructor)) as [Hb Fb].
  destruct (Z.eqb_spec (len base) 0) as [|Hne]; [done|].
  set (x := if negb _ then _ else _). destruct x as [ext|] eqn:Ex; [|done]. obind. intros [= <-].
  assert ((length ext ≤ 3)%nat ∧ Forall (λ c, valid_short_char c = true) ext) as [He Fe].
  { unfold x in Ex. destruct (negb _); [|injection Ex as <-; split; [simpl; lia|constructor]].
    by apply (encode_ext_out _ _ _ _ Ex). }
  split; [by rewrite length_app, !length_pad_field|]. split; [apply Forall_app; split; by apply pad_field_u8|].
  destruct base as [|b0 base]; [done|]. apply Forall_cons in Fb as [Hb0 _]. by apply valid_char_range.
Qed.

Lemma put_all_u8 b off fields b' :
  put_all b off fields = Some b' → Forall is_u8 b → Forall (λ f, Forall is_u8 f.2) fields → Forall is_u8 b'.
Proof.
  revert b. induction fields as [|[o data] fields IH]; intros b; simpl; [by intros [= ->]|].
  destruct (put_at b (off + o) data) as [b1|] eqn:E; [|done]. obind. intros H1 Hb [Hd Hf]%Forall_cons. apply (IH _ H1); [|done].
  unfold put_at in E. destruct (_ && _); [|done]. injection E as <-. unfold splice. simpl in Hd.
  rewrite !Forall_app. split_and!; [by apply Forall_take|done|by apply Forall_drop].
Qed.

Lemma b8_u8 v k : is_u8 (b8 v k).
Proof. unfold b8, is_u8. change 0xFF with (Z.ones 8). rewrite Z.land_ones by lia. by apply Z.mod_pos_bound. Qed.

Lemma entry_fields_u8 short11 first size is_dir : Forall is_u8 short11 → Forall (λ f, Forall is_u8 f.2) (entry_fields short11 first size is_dir).
Proof.
  intros Hs. unfold entry_fields. repeat constructor; cbn [snd]; try done; try apply b8_u8;
    destruct is_dir; unfold FAT32_DIR_ATTR_DIRECTORY; lia.
Qed.

(** ** The long entries *)

Definition chunk (name : list Z) (j : nat) : list Z := take 13 (drop (13 * j) name).
Definition chunks (name : list Z) (n : nat) : list (list Z) := chunk name <$> seq 0 n.

Lemma concat_chunks name n : (length name = 13 * n)%nat → concat (chunks name n) = name.
Proof.
  intros Hl. rewrite <- (take_ge name (13 * n)) at 2 by lia. clear Hl. induction n as [|n IH]; [by rewrite Nat.mul_0_r|].
  unfold chunks in *. rewrite seq_S, fmap_app, concat_app, IH. simpl (concat (_ <$> [_])). rewrite app_nil_r. unfold chunk. simpl (0 + n)%nat.
  rewrite <- (take_drop (13 * n) (take (13 * S n) name)), take_take, skipn_firstn_comm. f_equal; f_equal; lia.
Qed.

(** Part number [k + 1] of the name, as an entry. *)
Definition is_part (name : list Z) (k : nat) (e : list Z) : Prop :=
  length e = 32%nat ∧ Forall is_u8 e ∧ byte e 0 ≠ 0 ∧ byte e 0 ≠ 0xE5 ∧ Z.land (byte e 0) 0x3F = Z.of_nat k + 1 ∧
  byte e 11 = FAT32_DIR_ATTR_LFN ∧ lfn_parse_part e = chunk name k.

Lemma part_ok name parts ck p :
  Forall (λ c, 0 < c < 256) name → (length name = 13 * parts)%nat → (parts ≤ 19)%nat → is_u8 ck → (p < parts)%nat →
  ∃ e, lfn_fill_part name (u32 (len name - (Z.of_nat p + 1) * 13)) (u8 (Z.of_nat parts - Z.of_nat p)) (Z.of_nat p =? 0) ck = Some e ∧
    is_part name (parts - 1 - p) e.
Proof.
  intros Hn Hl H19 Hck Hp. unfold len. rewrite Hl.
  assert (u32 (Z.of_nat (13 * parts) - (Z.of_nat p + 1) * 13) = Z.of_nat (13 * (parts - 1 - p))) as -> by (rewrite u32_small; lia).
  rewrite u8_small by lia.
  destruct (lfn_fill_inside name (Z.of_nat (13 * (parts - 1 - p))) (Z.of_nat parts - Z.of_nat p) (Z.of_nat p =? 0) ck)
    as (e & E & H32 & H0 & H11 & Hu8 & Hparse); [done|lia|unfold len; lia|unfold len; lia|].
  exists e. split; [done|]. set (q := Z.of_nat parts - Z.of_nat p) in *. assert (0 < q < 64) as Hq by lia.
  assert (∃ t, (t = 0 ∨ t = 1) ∧ byte e 0 = q + t * 2 ^ 6) as (t & Ht & Eb).
  { rewrite H0. destruct (Z.of_nat p =? 0); [exists 1|exists 0]; (split; [lia|]); [|lia].
    change 0x40 with (Z.shiftl 1 6). rewrite lor_add by lia. apply u8_small. lia. }
  split; [done|]. split; [|split; [lia|]; split; [lia|]; split; [|split; [done|]]].
  - apply Hu8; [done|]. rewrite Eb. unfold is_u8. lia.
  - rewrite Eb. change 0x3F with (Z.ones 6). rewrite Z.land_ones, Z.mod_add, Z.mod_small by lia. lia.
  - rewrite Hparse. unfold chunk. by rewrite Nat2Z.id.
Qed.

(** The loop over the parts fills the slots above [off]. *)
Lemma parts_loop name parts ck b off :
  Forall (λ c, 0 < c < 256) name → (length name = 13 * parts)%nat → (parts ≤ 19)%nat → is_u8 ck →
  32 * Z.of_nat parts ≤ off → off ≤ len b →
  ∃ es, for_ 0 (Z.of_nat parts) (put_part name off (Z.of_nat parts) ck) b =
      inl (take (Z.to_nat (off - 32 * Z.of_nat parts)) b ++ concat es ++ drop (Z.to_nat off) b) ∧
    length es = parts ∧ ∀ j e, es !! j = Some e → is_part name j e.
Proof.
  intros Hn Hl H19 Hck Ho Hob.
  pose proof (for_ind (λ i b', ∃ p es, i = Z.of_nat p ∧ (p ≤ parts)%nat ∧
      b' = take (Z.to_nat (off - 32 * i)) b ++ concat es ++ drop (Z.to_nat off) b ∧ length es = p ∧
      ∀ j e, es !! j = Some e → is_part name (parts - p + j) e) (λ _, False)
    0 (Z.of_nat parts) (put_part name off (Z.of_nat parts) ck) b ltac:(lia)) as Hrun.
  feed Hrun.
  { exists 0%nat, []. split; [done|]. split; [lia|]. split; [|done]. rewrite Z.mul_0_r, Z.sub_0_r. simpl. by rewrite take_drop. }
  feed Hrun.
  { intros i b1 Hi (p & es & -> & Hp & -> & Hes & Hpart). unfold put_part.
    replace (off - (Z.of_nat p + 1) * 32 <? 0) with false by lia.
    destruct (part_ok name parts ck p Hn Hl H19 Hck ltac:(lia)) as (e & -> & He). obind.
    unfold len in Hob. set (q := Z.to_nat (off - (Z.of_nat p + 1) * 32)).
    assert (take (Z.to_nat (off - 32 * Z.of_nat p)) b = take q b ++ entry_at b (Z.of_nat q)) as Et.
    { unfold entry_at. rewrite Nat2Z.id. rewrite <- (take_drop q (take (Z.to_nat (off - 32 * Z.of_nat p)) b)), take_take, skipn_firstn_comm.
      f_equal; f_equal; lia. }
    assert (length (take q b) = q) as Hq by (rewrite length_take; lia).
    assert (length (entry_at b (Z.of_nat q)) = 32%nat) as H32 by (unfold entry_at; rewrite Nat2Z.id, length_take, length_drop; lia).
    rewrite Et, <- app_assoc. replace (off - (Z.of_nat p + 1) * 32) with (len (take q b) + 0) by (unfold len; rewrite Hq; unfold q; lia).
    destruct He as (He32 & He).
    rewrite (put_at_inside _ (entry_at b (Z.of_nat q)) _ 0 e e).
    2:{ unfold put_at, len. rewrite He32, H32. cbn. unfold splice. rewrite He32, drop_ge by lia. cbn. by rewrite app_nil_r. }
    exists (S p), (e :: es). split; [lia|]. split; [lia|]. split; [|split; [simpl; lia|]].
    - replace (Z.to_nat (off - 32 * (Z.of_nat p + 1))) with q by (unfold q; lia). simpl. by rewrite <- app_assoc.
    - intros [|j] e' Hj; simpl in Hj.
      + injection Hj as <-. replace (parts - S p + 0)%nat with (parts - 1 - p)%nat by lia. by split.
      + replace (parts - S p + S j)%nat with (parts - p + j)%nat by lia. by apply Hpart. }
  destruct (for_ _ _ _ _) as [b'|r]; [|done]. destruct Hrun as (p & es & Ep & _ & -> & Hes & Hpart).
  assert (p = parts) as -> by lia. exists es. split; [done|]. split; [done|]. intros j e Hj. specialize (Hpart j e Hj).
  by rewrite Nat.sub_diag in Hpart.
Qed.

Lemma concat_length32 (es : list (list Z)) : (∀ j e, es !! j = Some e → length e = 32%nat) → length (concat es) = (32 * length es)%nat.
Proof.
  induction es as [|e es IH]; intros He; [done|]. simpl. rewrite length_app, (He 0%nat e eq_refl), IH; [lia|].
  intros j x Hj. apply (He (S j) x Hj).
Qed.

(** Entry [j] of a run of entries. *)
Lemma entry_at_concat pre es post j e :
  (∀ j e, es !! j = Some e → length e = 32%nat) → es !! j = Some e →
  entry_at (pre ++ concat es ++ post) (len pre + 32 * Z.of_nat j) = e.
Proof.
  intros H32 Hj. rewrite <- (take_drop_middle es j e Hj), concat_app. simpl. rewrite <- !app_assoc, app_assoc.
  assert (length (concat (take j es)) = 32 * j)%nat as Hl.
  { rewrite concat_length32; [rewrite length_take; apply lookup_lt_Some in Hj; lia|].
    intros k x Hk. apply lookup_take_Some in Hk as [Hk _]. by apply (H32 k). }
  replace (len pre + 32 * Z.of_nat j) with (len (pre ++ concat (take j es))) by (unfold len; rewrite length_app, Hl; lia).
  apply entry_at_mid. by apply (H32 j).
Qed.

Section ScanParts.
Context {U : Type} (visit : U → Z → Z → list Z → list Z → U * bool) (cl : Z).

Lemma scan_prefix pre x y n st :
  0 ≤ n → 32 * n ≤ len pre → for_ 0 n (scan_entry visit cl (pre ++ x)) st = for_ 0 n (scan_entry visit cl (pre ++ y)) st.
Proof.
  intros Hn Hl. apply for_ext. intros i t Hi. unfold scan_entry. destruct t as [acc u].
  by rewrite (entry_at_prefix pre x y (i * 32)) by lia.
Qed.

Lemma numbered_snoc l p : numbered (l ++ [p]) = numbered l ++ [(Z.of_nat (length l) + 1, p)].
Proof. unfold numbered. rewrite imap_app. simpl. do 3 f_equal. lia. Qed.

(** The parts of a long name are collected in order. *)
Lemma scan_parts pre post es name u :
  (length es ≤ 19)%nat → (∀ j e, es !! j = Some e → is_part name j e) → 32 * (len pre / 32) = len pre →
  for_ (len pre / 32) (len pre / 32 + Z.of_nat (length es)) (scan_entry visit cl (pre ++ concat es ++ post)) ([], u) =
    inl (numbered (chunks name (length es)), u).
Proof.
  intros H19 Hes Hpre. set (i0 := len pre / 32) in *.
  pose proof (for_ind (λ i st, ∃ k, i = i0 + Z.of_nat k ∧ st = (numbered (chunks name k), u)) (λ _ : U * bool, False)
    i0 (i0 + Z.of_nat (length es)) (scan_entry visit cl (pre ++ concat es ++ post)) ([], u) ltac:(lia)) as Hrun.
  feed Hrun; [exists 0%nat; split; [lia|done]|].
  feed Hrun.
  { intros i st Hi (k & -> & ->). destruct (lookup_lt_is_Some_2 es k ltac:(lia)) as [e He].
    unfold scan_entry. replace ((i0 + Z.of_nat k) * 32) with (len pre + 32 * Z.of_nat k) by lia.
    rewrite (entry_at_concat pre es post k e) by (done || intros j x Hj; apply (Hes j x Hj)).
    destruct (Hes k e He) as (_ & _ & Hz & He5 & Hseq & H11 & Hparse).
    replace (byte e 0 =? 0) with false by lia. replace (byte e 0 =? 0xE5) with false by lia. rewrite H11. cbn [Z.land Z.eqb].
    change (Z.land FAT32_DIR_ATTR_LFN FAT32_DIR_ATTR_LFN =? FAT32_DIR_ATTR_LFN) with true. cbv iota.
    exists (S k). split; [lia|]. f_equal. unfold lfn_add_part, LFN_MAX_PARTS.
    assert (length (chunks name k) = k) as Hck by (unfold chunks; by rewrite length_fmap, length_seq).
    assert (length (numbered (chunks name k)) = k) as Hlk by (unfold numbered; by rewrite length_imap).
    rewrite Hlk. replace (20 <=? Z.of_nat k) with false by lia. rewrite Hseq, Hparse.
    unfold chunks at 2. rewrite seq_S, fmap_app. simpl (fmap _ [_]). rewrite numbered_snoc. fold (chunks name k). by rewrite Hck. }
  destruct (for_ _ _ _ _) as [st|r]; [|done]. destruct Hrun as (k & Ek & ->). by replace k with (length es) by lia.
Qed.
End ScanParts.

(** ** Directories on a volume *)

Section DirVolume.
Context {D H : Type} `{!BlockIO D, !BlockIOOk D, !HeapAllocator H, !HeapAllocatorOk H}.
Context (c : fat32_ctx).
Implicit Types s : fat_state D H.

Lemma bpc_range s F B X : vol c s F B X → 0 < bytes_per_cluster c < 2 ^ 61 ∧ bytes_per_cluster c mod 32 = 0.
Proof.
  intros Hv. destruct (vol_geom _ _ _ _ _ Hv) as [_ Hs -> _ _ _ _]. split; [lia|].
  replace (512 * sectors_per_cluster c) with (16 * sectors_per_cluster c * 32) by lia. apply Z.mod_mul. lia.
Qed.

(** A scan that meets the end mark or is stopped by the visitor ends in the first
    cluster. *)
Lemma read_directory_ok {U} (visit : U → Z → Z → list Z → list Z → U * bool) s F B X dir u r :
  vol c s F B X → 2 ≤ dir < entries c → scan_cluster visit c dir (B dir) ([], u) = inr r →
  runs (read_directory visit c dir u) s (λ x s', f_disk s' = f_disk s ∧ f_ctxs s' = f_ctxs s ∧ vol c s' F B X ∧
    (x = r ∨ (x = (u, false) ∧ no_room (bytes_per_cluster c) s))).
Proof.
  intros Hv Hd Hscan. destruct (bpc_range _ _ _ _ Hv) as [Hb _]. unfold read_directory.
  eapply runs_bind; [apply (kalloc_ok c _ _ _ _ _ Hv Hb)|]. intros buf s1 (E1 & C1 & [(-> & Hno & Hv1)|(Hne & Hni & Hv1)]).
  { rewrite Z.eqb_refl. apply runs_ret. do 3 (split; [done|]). by right. }
  replace (buf =? 0) with false by lia.
  eapply (runs_bind _ _ _ (λ (x : U * bool) (s' : fat_state D H), x = r ∧ s' = s1)).
  - apply (runs_loop _ _ _ _ (λ l s', l = ([], u) ∧ s' = s1) (λ _ _, 0)); [done|unfold fat_fuel; lia|].
    intros l s' [-> ->]. split; [lia|]. unfold dir_round. rewrite (entry_valid c _ dir (vol_geom _ _ _ _ _ Hv1) Hd). cbn [negb].
    eapply runs_bind; [by apply (cluster_read_runs c _ _ _ _ dir Hv1)|]. intros x s2 [-> ->]. rewrite Hscan. by apply runs_ret.
  - intros x s2 [-> ->]. eapply runs_bind; [by apply (fat_kfree_buf c _ _ _ _ buf Hv1)|]. intros _ s3 (E3 & C3 & Hv3). apply runs_ret.
    split; [congruence|]. split; [congruence|]. split; [done|]. by left.
Qed.

Lemma edit_ok s F B X cl f b' :
  vol c s F B X → 2 ≤ cl < entries c → (∀ t, f (B cl) t = Some (Some b', t)) → length b' = length (B cl) → Forall is_u8 b' →
  runs (edit_cluster c cl f) s (λ ok s', f_ctxs s' = f_ctxs s ∧
    ((ok = true ∧ vol c s' F (<[cl := b']> B) X) ∨ (ok = false ∧ no_room (bytes_per_cluster c) s ∧ vol c s' F B X))).
Proof.
  intros Hv Hcl Hf Hl Hu. destruct (bpc_range _ _ _ _ Hv) as [Hb _]. unfold edit_cluster.
  eapply runs_bind; [apply (kalloc_ok c _ _ _ _ _ Hv Hb)|]. intros buf s1 (_ & C1 & [(-> & Hno & Hv1)|(Hne & Hni & Hv1)]).
  { rewrite Z.eqb_refl. apply runs_ret. split; [done|]. by right. }
  replace (buf =? 0) with false by lia.
  eapply runs_bind; [by apply (cluster_read_runs c _ _ _ _ cl Hv1)|]. intros x s2 [-> ->].
  eapply (runs_bind _ _ _ (λ (x : option (list Z)) (s' : fat_state D H), x = Some b' ∧ s' = s1)); [exists (Some b'), s1; by rewrite Hf|]. intros x s2 [-> ->].
  eapply runs_bind; [apply (cluster_write_ok c _ _ _ _ cl b' Hv1 Hcl); [|done]|].
  { rewrite <- (cluster_len c _ _ _ _ cl Hv Hcl). unfold len. by rewrite Hl. }
  intros ok s2 (-> & Hv2 & [_ C2]). eapply runs_bind; [by apply (fat_kfree_buf c _ _ _ _ buf Hv2)|]. intros _ s3 (_ & C3 & Hv3).
  apply runs_ret. split; [congruence|]. by left.
Qed.

(** Names the code stores so that they can be found again: short forms, and long names
    whose length is a multiple of 13. *)
Inductive storable (name : list Z) : nat → list Z → Prop :=
  | storable_short base ext : short_form name base ext → lfn_parts_for name = 0 → storable name 0 (upper <$> name)
  | storable_long parts : lfn_parts_for name = Z.of_nat parts → (0 < parts ≤ 19)%nat → (length name = 13 * parts)%nat →
      Forall (λ x, 0 < x < 256) name → storable name parts name.

Lemma name_matches_refl name : name_matches name name = true.
Proof. induction name as [|x name IH]; [done|]. simpl. by rewrite Z.eqb_refl. Qed.

(** The scan arrives at the written entry with the parts of the name. *)
Lemma scan_new name cl buf i acc e n first size (is_dir : bool) :
  entry_at buf (i * 32) = e → 32 < byte e 0 < 128 → byte e 11 = (if is_dir then FAT32_DIR_ATTR_DIRECTORY else 0x20) →
  (if 0 <? Z.of_nat (length acc) then lfn_assemble acc FAT32_NAME_MAX else build_short_name e FAT32_NAME_MAX) = n →
  name_matches n name = true → make_dirent e n = Dirent (take 255 n) (if is_dir then 0 else size) first is_dir →
  scan_entry (open_visit name) cl buf i (acc, None) = inr (Some (Dirent (take 255 n) (if is_dir then 0 else size) first is_dir), true).
Proof.
  intros He H0 H11 Hn Hm Hd. unfold scan_entry. rewrite He. replace (byte e 0 =? 0) with false by lia.
  replace (byte e 0 =? 0xE5) with false by lia. rewrite H11.
  replace (_ =? FAT32_DIR_ATTR_LFN) with false by (by destruct is_dir). rewrite Hn. cbn [open_visit]. by rewrite Hm, Hd.
Qed.

(** The cluster after [create_dir_entries]: what was before the slots, the long
    entries, the entry, what was after. *)
Record created (name : list Z) (parts : nat) (shown : list Z) (off first size : Z) (is_dir : bool) (b b' : list Z) (es : list (list Z)) (e : list Z) : Prop := {
  cr_buf : b' = take (Z.to_nat (off - 32 * Z.of_nat parts)) b ++ concat es ++ e ++ drop (Z.to_nat off + 32) b;
  cr_parts : length es = parts ∧ ∀ j x, es !! j = Some x → is_part name j x;
  cr_entry : length e = 32%nat ∧ 32 < byte e 0 < 128 ∧ byte e 11 = (if is_dir then FAT32_DIR_ATTR_DIRECTORY else 0x20);
  cr_dirent : ∀ n, make_dirent e n = Dirent (take 255 n) (if is_dir then 0 else size) first is_dir;
  cr_name : (if (0 <? Z.of_nat parts) then lfn_assemble (numbered (chunks name parts)) FAT32_NAME_MAX
             else build_short_name e FAT32_NAME_MAX) = shown
}.

(** The entry itself, behind whatever was put above it. *)
Lemma put_entry b off short11 first size is_dir :
  0 ≤ off → off + 32 ≤ len b → Forall is_u8 b → length short11 = 11%nat → Forall is_u8 short11 →
  0 ≤ first < 4294967296 → 0 ≤ size < 4294967296 →
  ∃ e, put_all b off (entry_fields short11 first size is_dir) = Some (take (Z.to_nat off) b ++ e ++ drop (Z.to_nat off + 32) b) ∧
    Forall is_u8 (take (Z.to_nat off) b ++ e ++ drop (Z.to_nat off + 32) b) ∧
    length e = 32%nat ∧ (∃ rest, e = short11 ++ rest) ∧ byte e 11 = (if is_dir then FAT32_DIR_ATTR_DIRECTORY else 0x20) ∧
    ∀ n, make_dirent e n = Dirent (take 255 n) (if is_dir then 0 else size) first is_dir.
Proof.
  intros H0 Hl Hb H11 Hs Hf Hz. unfold len in Hl.
  assert (b = take (Z.to_nat off) b ++ entry_at b off ++ drop (Z.to_nat off + 32) b) as Eb.
  { unfold entry_at. rewrite <- drop_drop. by rewrite take_drop, take_drop. }
  assert (length (entry_at b off) = 32%nat) as H32 by (unfold entry_at; rewrite length_take, length_drop; lia).
  destruct (new_entry_ok (entry_at b off) short11 first size is_dir H32 H11 Hf Hz) as (e & Ep & He).
  assert (put_all b off (entry_fields short11 first size is_dir) = Some (take (Z.to_nat off) b ++ e ++ drop (Z.to_nat off + 32) b)) as Hput.
  { pose proof (put_all_inside (take (Z.to_nat off) b) (entry_at b off) (drop (Z.to_nat off + 32) b) _ _ Ep) as Hp.
    replace (len (take (Z.to_nat off) b)) with off in Hp by (unfold len; rewrite length_take; lia). by rewrite <- Eb in Hp. }
  exists e. split; [done|]. split; [|done]. apply (put_all_u8 _ _ _ _ Hput Hb). by apply entry_fields_u8.
Qed.

Lemma checksum_u8 l : is_u8 (lfn_checksum l).
Proof.
  unfold lfn_checksum. induction l as [|x l IH] using rev_ind; [unfold is_u8; simpl; lia|]. rewrite foldl_app. apply u8_range.
Qed.

(** Every storable name can be created where there is room. *)
Lemma created_ok name parts shown cl off first size is_dir s F B X :
  vol c s F B X → 2 ≤ cl < entries c → storable name parts shown →
  0 ≤ off - 32 * Z.of_nat parts → off + 32 ≤ bytes_per_cluster c → 0 ≤ first < 4294967296 → 0 ≤ size < 4294967296 →
  ∃ b' es e, created name parts shown off first size is_dir (B cl) b' es e ∧ length b' = length (B cl) ∧
    runs (create_dir_entries c cl off name first size is_dir) s (λ ok s', f_ctxs s' = f_ctxs s ∧
      ((ok = true ∧ vol c s' F (<[cl := b']> B) X) ∨ (ok = false ∧ no_room (bytes_per_cluster c) s ∧ vol c s' F B X))).
Proof.
  intros Hv Hcl Hst H0 Hoff Hf Hz. pose proof (cluster_len c _ _ _ _ cl Hv Hcl) as Hl. pose proof (cluster_u8 c _ _ _ _ cl Hv Hcl) as Hu.
  unfold create_dir_entries. destruct Hst as [base ext Hsf Hp0|parts Hp Hp19 Hlen Hn].
  - destruct (short_form_read _ _ _ Hsf) as (short11 & Eenc & H11 & Hread). destruct (encode_spec _ _ Eenc) as (_ & Hu11 & Hb0).
    destruct (put_entry (B cl) off short11 first size is_dir ltac:(lia) ltac:(lia) Hu H11 Hu11 Hf Hz)
      as (e & Hput & Hu' & He32 & [rest ->] & Ha & Hd).
    eexists _, [], (short11 ++ rest). split; [split; [simpl; by rewrite Z.sub_0_r|done| |done|apply Hread]|].
    { split; [done|]. split; [|done]. unfold byte in *. rewrite app_nth1 by lia. done. }
    split; [unfold len in *; rewrite !length_app, length_take, length_drop in *; lia|].
    rewrite Hp0. cbn [Z.eqb]. unfold write_dir_entry_at. apply edit_ok; try done.
    + intros t. rewrite Eenc. unfold lift, mbind, stM_bind. rewrite Hput. done.
    + unfold len in *. rewrite !length_app, length_take, length_drop in *. lia.
  - rewrite Hp. replace (Z.of_nat parts =? 0) with false by lia.
    assert (∃ short11, encode_short_name name = Some short11) as [short11 Eenc].
    { unfold lfn_parts_for in Hp. destruct (encode_short_name name) as [x|]; [by exists x|lia]. }
    destruct (encode_spec _ _ Eenc) as (H11 & Hu11 & Hb0). unfold len in Hl.
    destruct (parts_loop name parts (lfn_checksum short11) (B cl) off Hn Hlen ltac:(lia) (checksum_u8 _) ltac:(lia) ltac:(unfold len; lia))
      as (es & Hloop & Hes & Hpart).
    set (b1 := take (Z.to_nat (off - 32 * Z.of_nat parts)) (B cl) ++ concat es ++ drop (Z.to_nat off) (B cl)) in *.
    assert (∀ j e, es !! j = Some e → length e = 32%nat) as H32 by (intros j e Hj; by apply (Hpart j e Hj)).
    pose proof (concat_length32 es H32) as Hcl32.
    assert (length b1 = length (B cl)) as Hb1 by (unfold b1; rewrite !length_app, length_take, length_drop; lia).
    assert (Forall is_u8 b1) as Hub1.
    { unfold b1. rewrite !Forall_app. split_and!; [by apply Forall_take| |by apply Forall_drop]. apply Forall_concat, Forall_lookup_2.
      intros j x Hj. by apply (Hpart j x Hj). }
    destruct (put_entry b1 off short11 first size is_dir ltac:(lia) ltac:(unfold len; lia) Hub1 H11 Hu11 Hf Hz)
      as (e & Hput & Hu' & He32 & [rest ->] & Ha & Hd).
    assert (take (Z.to_nat off) b1 = take (Z.to_nat (off - 32 * Z.of_nat parts)) (B cl) ++ concat es) as Et.
    { unfold b1. rewrite app_assoc. apply take_app_length'. rewrite length_app, length_take. lia. }
    assert (drop (Z.to_nat off + 32) b1 = drop (Z.to_nat off + 32) (B cl)) as Ed.
    { unfold b1. rewrite app_assoc, <- drop_drop, drop_app_length', drop_drop; [done|]. rewrite length_app, length_take. lia. }
    rewrite Et, Ed in Hput, Hu'. rewrite <- app_assoc in Hput, Hu'.
    eexists _, es, (short11 ++ rest). split; [split; [reflexivity|done| |done|]|].
    + split; [done|]. split; [|done]. unfold byte in *. rewrite app_nth1 by lia. done.
    + replace (0 <? Z.of_nat parts) with true by lia. rewrite lfn_assemble_numbered, concat_chunks by (rewrite ?concat_chunks; done || unfold len, FAT32_NAME_MAX; lia). done.
    + assert (length (take (Z.to_nat (off - 32 * Z.of_nat parts)) (B cl) ++ concat es ++ (short11 ++ rest) ++ drop (Z.to_nat off + 32) (B cl)) = length (B cl)) as Hlen'.
      { rewrite (length_app (take _ _)), (length_app (concat es)), (length_app (short11 ++ rest)), length_take, length_drop. lia. }
      split; [done|].
      eapply (runs_bind _ _ _ (λ (x : list Z) (s' : fat_state D H), x = short11 ∧ s' = s)); [exists short11, s; split; [unfold lift; by rewrite Eenc|done]|].
      intros x s' [-> ->]. apply edit_ok; try done. intros t. rewrite Hloop. unfold lift, mbind, stM_bind. by rewrite Hput.
Qed.

Lemma scan_created name parts shown dir off first size is_dir b b' es e :
  created name parts shown off first size is_dir b b' es e → (parts ≤ 19)%nat → name_matches shown name = true →
  off mod 32 = 0 → 0 ≤ off - 32 * Z.of_nat parts → off + 32 ≤ len b → len b = bytes_per_cluster c →
  for_ 0 (off / 32 - Z.of_nat parts) (scan_entry (open_visit name) dir b) ([], None) = inl ([], None) →
  scan_cluster (open_visit name) c dir b' ([], None) =
    inr (Some (Dirent (take 255 shown) (if is_dir then 0 else size) first is_dir), true).
Proof.
  intros [-> [Hes Hpart] (H32 & Hb0 & Ha) Hd Hn] H19 Hm Hmod Hge Hlen Hbpc Hscan. unfold scan_cluster. rewrite <- Hbpc.
  set (pre := take _ b) in *. set (i0 := off / 32 - Z.of_nat parts) in *.
  assert (len pre = 32 * i0 ∧ 0 ≤ i0) as [Hpre Hi0] by (unfold pre, len in *; rewrite length_take; dlia).
  assert (len pre / 32 = i0) as Hdiv by (rewrite Hpre, Z.mul_comm; apply Z.div_mul; lia).
  rewrite (for_split 0 i0) by dlia.
  rewrite (scan_prefix _ _ pre _ (drop (Z.to_nat (off - 32 * Z.of_nat parts)) b) i0) by lia.
  unfold pre at 1. rewrite take_drop, Hscan.
  rewrite (for_split i0 (i0 + Z.of_nat parts)) by dlia.
  pose proof (scan_parts (open_visit name) dir pre (e ++ drop (Z.to_nat off + 32) b) es name None ltac:(lia) Hpart ltac:(lia)) as Hp.
  rewrite Hdiv, Hes in Hp. rewrite Hp. rewrite for_unfold by dlia.
  rewrite (scan_new name dir _ (i0 + Z.of_nat parts) _ e shown first size is_dir); try done.
  - assert (∀ j x, es !! j = Some x → length x = 32%nat) as Hx by (intros j x Hj; by apply (Hpart j x Hj)).
    replace ((i0 + Z.of_nat parts) * 32) with (len (pre ++ concat es)).
    + rewrite app_assoc. by apply entry_at_mid.
    + unfold len in *. rewrite length_app, (concat_length32 es Hx), Hes. lia.
  - rewrite <- Hn. unfold numbered. rewrite length_imap. unfold chunks. by rewrite length_fmap, length_seq.
Qed.

Lemma storable_facts name parts shown : storable name parts shown → (parts ≤ 19)%nat ∧ name_matches shown name = true ∧ take 255 shown = shown.
Proof.
  intros [base ext Hsf _|parts' _ Hp Hl _].
  - split; [lia|]. split; [apply name_matches_upper|]. destruct Hsf as [Hn Hb He _]. apply take_ge. rewrite length_fmap. unfold len in *.
    destruct Hn as [[-> _]|[-> _]]; rewrite ?length_app; simpl; lia.
  - split; [lia|]. split; [apply name_matches_refl|]. apply take_ge. lia.
Qed.


(** ** What goes wrong *)

Lemma scan_goes_on {U} (visit : U → Z → Z → list Z → list Z → U * bool) cl b st :
  (∀ i, 0 ≤ i < bytes_per_cluster c / 32 → byte (entry_at b (i * 32)) 0 ≠ 0) → (∀ u x o e n, (visit u x o e n).2 = false) →
  0 < bytes_per_cluster c → ∃ st', scan_cluster visit c cl b st = inl st'.
Proof.
  intros Hb Hvis Hpos. unfold scan_cluster.
  pose proof (for_ind (λ _ _, True) (λ _ : U * bool, False) 0 (bytes_per_cluster c / 32) (scan_entry visit cl b) st
    ltac:(apply Z.div_pos; lia) I) as Hrun.
  feed Hrun.
  { intros i [acc u] Hi _. unfold scan_entry. specialize (Hb i Hi).
    destruct (Z.eqb_spec (byte (entry_at b (i * 32)) 0) 0) as [E|_]; [done|].
    destruct (_ =? 0xE5); [done|]. destruct (_ =? FAT32_DIR_ATTR_LFN); [done|]. set (n := if 0 <? _ then _ else _).
    specialize (Hvis u cl (i * 32) (entry_at b (i * 32)) n). destruct (visit _ _ _ _ _) as [u' stop]. simpl in Hvis. by rewrite Hvis. }
  destruct (for_ _ _ _ _) as [st'|r]; [by exists st'|done].
Qed.

(** The scan of a directory never moves on from its first cluster.  If no entry of
    that cluster is the end mark, a scan that is not stopped by its visitor (listing a
    directory, looking for a name that is not there) does not end, whatever the number
    of rounds it is given. *)
Theorem fat32_full_directory_hangs {U} (visit : U → Z → Z → list Z → list Z → U * bool) s F B X dir u :
  vol c s F B X → 2 ≤ dir < entries c →
  (∀ i, 0 ≤ i < bytes_per_cluster c / 32 → byte (entry_at (B dir) (i * 32)) 0 ≠ 0) →
  (∀ u x o e n, (visit u x o e n).2 = false) →
  ∀ fuel, loop fuel (dir_round visit c dir) ([], u) s = None.
Proof.
  intros Hv Hd Hfull Hvis fuel. destruct (bpc_range _ _ _ _ Hv) as [Hb _]. unfold loop.
  rewrite (while_diverges (λ p, p.2 = s)); [done|done|]. intros [st s'] Hs. simpl in Hs. subst s'.
  destruct (scan_goes_on visit dir (B dir) st Hfull Hvis ltac:(lia)) as [st' Hst]. exists (st', s). split; [|done].
  unfold loop_step, dir_round. cbn [fst snd]. rewrite (entry_valid c _ dir (vol_geom _ _ _ _ _ Hv) Hd). cbn [negb].
  unfold mbind, stM_bind. rewrite (cluster_read_ok c _ _ _ _ dir Hv Hd). obind. unfold ret. by rewrite Hst.
Qed.

(** The parts loop faults on the part that would begin before the name. *)
Lemma parts_fault name parts ck b off :
  Forall (λ x, 0 < x < 256) name → 13 * (parts - 1) < len name < 13 * parts → parts ≤ 20 →
  32 * parts ≤ off → off ≤ len b → for_ 0 parts (put_part name off parts ck) b = inr None.
Proof.
  intros Hn Hl H20 Ho Hob. assert (0 ≤ len name) by (unfold len; lia).
  pose proof (for_ind (λ i b', i < parts ∧ len b' = len b) (λ r, r = None) 0 parts (put_part name off parts ck) b ltac:(lia)) as Hrun.
  feed Hrun; [split; [lia|done]|].
  feed Hrun.
  { intros p b' Hp [_ Hb]. unfold put_part. replace (off - (p + 1) * 32 <? 0) with false by lia.
    destruct (decide (p = parts - 1)) as [-> |Hne].
    - replace (len name - (parts - 1 + 1) * 13) with (- (13 * parts - len name)) by lia.
      rewrite lfn_fill_outside by lia. done.
    - destruct (lfn_fill_inside name (u32 (len name - (p + 1) * 13)) (u8 (parts - p)) (p =? 0) ck) as (e & -> & H32 & _).
      + done.
      + apply u32_range.
      + rewrite u32_small by lia. lia.
      + lia.
      + obind. assert (len e = 32) as He by (unfold len; lia). unfold put_at. rewrite He.
        replace (_ && _) with true by (symmetry; apply andb_true_iff; split; apply Z.leb_le; lia).
        split; [lia|]. unfold splice, len in *. rewrite !length_app, length_take, length_drop, H32. lia. }
  destruct (for_ _ _ _ _) as [b'|r]; [lia|by subst].
Qed.

(** Creating an entry for a name that needs long entries and whose length is not a
    multiple of 13 reads far outside the name: the first character of its first part
    has an index near 2^32.  The call does not return a result. *)
Theorem fat32_long_name_faults name dir off first size is_dir s F B X p h :
  vol c s F B X → 2 ≤ dir < entries c → Forall (λ x, 0 < x < 256) name → len name ≤ 255 →
  lfn_parts_for name ≠ 0 → len name mod 13 ≠ 0 →
  32 * lfn_parts_for name ≤ off → off ≤ bytes_per_cluster c →
  ha_alloc (bytes_per_cluster c) 16 (f_heap s) = Some (p, h) → p ≠ 0 →
  create_dir_entries c dir off name first size is_dir s = None.
Proof.
  intros Hv Hd Hn H255 Hparts Hmod Ho Hoff Hal Hp. unfold create_dir_entries. replace (lfn_parts_for name =? 0) with false by lia.
  assert (∃ e, encode_short_name name = Some e ∧ lfn_parts_for name = (len name + 12) / 13) as (e & Ee & Ep).
  { unfold lfn_parts_for in *. destruct (encode_short_name name) as [e|]; [|done]. exists e. split; [done|]. by destruct (short_is_exact name). }
  rewrite (bind_run _ _ s e s) by (unfold lift; by rewrite Ee). unfold edit_cluster.
  rewrite (bind_run _ _ s p (with_fheap h s)) by (unfold kalloc; by rewrite Hal). replace (p =? 0) with false by lia.
  assert (ha_ok h ({[p]} ∪ X)) as Hh.
  { destruct (bpc_range _ _ _ _ Hv) as [Hb _].
    destruct (ha_alloc_spec _ _ (bytes_per_cluster c) 16 (vol_heap _ _ _ _ _ Hv) Hb ltac:(by right)) as (p' & h' & E & Hcase).
    rewrite Hal in E. injection E as <- <-. destruct Hcase as [[? _]|(_ & _ & ?)]; done. }
  assert (vol c (with_fheap h s) F B ({[p]} ∪ X)) as Hv1 by (destruct Hv; by split).
  rewrite (bind_run _ _ _ _ _ (cluster_read_ok c _ _ _ _ dir Hv1 Hd)). apply bind_fault.
  rewrite parts_fault; [done|done|rewrite Ep; dlia|rewrite Ep; dlia|done|].
  rewrite (cluster_len c _ _ _ _ dir Hv Hd). lia.
Qed.
End DirVolume.
