(* ===== verification/FatDemo.v ===== *)
(** A small FAT32 volume: a disk as a function from byte addresses, which meets the
    laws of [BlockIO], and the theorems of the FAT32 files at concrete volumes. *)

From stdpp Require Import prelude functions numbers list gmap.
From Stdlib Require Import ZArith Lia.
From S2P Require Import Prelude Memory Frames Pmm Kheap Alloc Bytes FatName Fat FatDir.

Open Scope Z_scope.

Record fdisk : Type := FDisk { fd_sectors : Z; fd_bytes : Z → Z }.

#[export] Instance fdisk_io : BlockIO fdisk := {|
  bio_sector_size dev d := 512;
  bio_read dev lba count d :=
    if (0 <=? lba) && (0 <? count) && (lba + count <=? fd_sectors d)
    then Some (bio_bytes (λ x, u8 (fd_bytes d x)) (512 * lba) (512 * count)) else None;
  bio_write dev lba count data d :=
    if (0 <=? lba) && (0 <? count) && (lba + count <=? fd_sectors d)
    then (true, FDisk (fd_sectors d) (λ x,
            if (512 * lba <=? x) && (x <? 512 * (lba + count)) then byte data (Z.to_nat (x - 512 * lba)) else fd_bytes d x))
    else (false, d)
|}.

#[export] Program Instance fdisk_io_ok : BlockIOOk fdisk := {|
  bio_size dev d := fd_sectors d;
  bio_byte dev d x := u8 (fd_bytes d x)
|}.
Next Obligation. intros. apply u8_range. Qed.
Next Obligation. intros dev d lba count H0 Hc Hs. simpl in *. by replace (_ && _) with true by lia. Qed.
Next Obligation.
  intros dev d lba count data H0 Hc Hs Hl Hu. simpl in *. replace (_ && (lba + count <=? _)) with true by lia.
  eexists. split; [done|]. split; [done|]. intros x. simpl. destruct ((512 * lba <=? x) && (x <? 512 * (lba + count))) eqn:E; [|done].
  apply u8_small. apply (Forall_lookup_1 _ _ (Z.to_nat (x - 512 * lba)) _ Hu). apply byte_lookup. unfold len in Hl. lia.
Qed.

(** One table sector after the boot sector, clusters of one sector from sector 2 on,
    the root directory at cluster 2. *)
Definition demo_ctx : fat32_ctx := Fat32Ctx 1 512 1 1 1 1 2 2 1 512.
Definition demo_entry (cl v : Z) : list (Z * Z) := [(512 + 4 * cl, u8 v); (513 + 4 * cl, u8 (Z.shiftr v 8)); (514 + 4 * cl, u8 (Z.shiftr v 16)); (515 + 4 * cl, u8 (Z.shiftr v 24))].
Definition patch (l : list (Z * Z)) (x : Z) : Z := match List.find (λ p, p.1 =? x) l with Some p => p.2 | None => 0 end.

Definition empty_volume : fat_state fdisk (heap pmm) :=
  FatState (FDisk 128 (patch (demo_entry 2 FAT32_EOC))) demo_heap {[ 64 := demo_ctx ]}.

(** The volume with a file of two clusters, 3 and 4. *)
Definition file_volume : fat_state fdisk (heap pmm) :=
  FatState (FDisk 128 (patch (demo_entry 2 FAT32_EOC ++ demo_entry 3 4 ++ demo_entry 4 FAT32_EOC ++
    [(1536, 10); (1537, 11); (2047, 12); (2048, 13); (2049, 14)]))) demo_heap {[ 64 := demo_ctx ]}.

(** The volume with a root directory of deleted entries and no end mark. *)
Definition full_volume : fat_state fdisk (heap pmm) :=
  FatState (FDisk 128 (λ x, if (1024 <=? x) && (x <? 1536) then 0xE5 else patch (demo_entry 2 FAT32_EOC) x)) demo_heap {[ 64 := demo_ctx ]}.

Lemma demo_vol (f : Z → Z) :
  let s := FatState (FDisk 128 f) demo_heap {[ 64 := demo_ctx ]} in
  vol demo_ctx s (fat_get demo_ctx s) (cluster_bytes demo_ctx s) ∅.
Proof.
  intros s. split; [|done|done|].
  - split; unfold entries, FAT32_BAD; simpl; lia.
  - exists [demo_used; demo_rest]. split; [apply demo_heap_inv|]. intros p Hp. set_solver.
Qed.

Notation demo_F s := (fat_get demo_ctx s) (only parsing).
Notation demo_B s := (cluster_bytes demo_ctx s) (only parsing).

Lemma demo_chain : chain demo_ctx (demo_F file_volume) 3 [3; 4].
Proof.
  split; [done|]. split; [unfold entries; simpl; lia|]. assert (demo_F file_volume 3 = 4) as -> by (vm_compute; reflexivity).
  split; [done|]. split; [unfold entries; simpl; lia|]. vm_compute. reflexivity.
Qed.

Lemma fat_entry_witness :
  ∃ s', fat_write_entry demo_ctx 5 0x1ABCDEF0 empty_volume = Some (true, s') ∧
    fat_read_entry demo_ctx 5 s' = Some (0x0ABCDEF0, s') ∧ fat_read_entry demo_ctx 2 s' = Some (FAT32_EOC, s').
Proof.
  destruct (fat_entry_roundtrip demo_ctx empty_volume (demo_F empty_volume) (demo_B empty_volume) ∅ 5 0x1ABCDEF0)
    as (s' & E & _ & _ & _ & Hr).
  - apply demo_vol.
  - unfold entries. simpl. lia.
  - exists s'. split; [exact E|]. split.
    + exact (Hr 5 ltac:(unfold entries; simpl; lia)).
    + assert (demo_F empty_volume 2 = FAT32_EOC) as <- by (vm_compute; reflexivity). exact (Hr 2 ltac:(unfold entries; simpl; lia)).
Defined.

Lemma fat32_alloc_witness :
  ∃ s', fat32_alloc_cluster demo_ctx file_volume = Some (5, s') ∧
    vol demo_ctx s' (<[5 := FAT32_EOC]> (demo_F file_volume)) (demo_B file_volume) ∅.
Proof.
  destruct (fat32_alloc_cluster_correct demo_ctx file_volume (demo_F file_volume) (demo_B file_volume) ∅)
    as (r & s' & E & _ & _ & Hv).
  - apply demo_vol.
  - assert (fst <$> fat32_alloc_cluster demo_ctx file_volume = Some 5) as Er by (vm_compute; reflexivity).
    rewrite E in Er. cbn [fmap option_fmap option_map fst] in Er. injection Er as ->. exists s'. split; [exact E|exact Hv].
Defined.

Lemma fat32_free_witness :
  ∃ s', fat32_free_chain demo_ctx 3 file_volume = Some ((), s') ∧
    vol demo_ctx s' (freed [3; 4] (demo_F file_volume)) (demo_B file_volume) ∅.
Proof.
  destruct (fat32_free_chain_correct demo_ctx file_volume (demo_F file_volume) (demo_B file_volume) ∅ 3 [3; 4])
    as (s' & E & Hv & _).
  - apply demo_vol.
  - exact demo_chain.
  - apply NoDup_cons. split; [set_solver|apply NoDup_singleton].
  - simpl. lia.
  - exists s'. split; [exact E|exact Hv].
Defined.


Lemma fat32_write_witness :
  ∃ s' F1 B1 l1, fat32_write demo_ctx 3 1022 [1; 2; 3; 4] (len [1; 2; 3; 4]) file_volume = Some ((4, 3), s') ∧
    vol demo_ctx s' F1 B1 ∅ ∧ chain demo_ctx F1 3 l1 ∧
    over (contents (demo_B file_volume) [3; 4]) 1022 [1; 2; 3; 4] (contents B1 l1).
Proof.
  destruct (fat32_write_correct demo_ctx file_volume (demo_F file_volume) (demo_B file_volume) ∅ 3 [3; 4] 1022 [1; 2; 3; 4])
    as (n & first' & s' & E & Hcase).
  - apply demo_vol.
  - split.
    + exact demo_chain.
    + apply NoDup_cons. split; [set_solver|apply NoDup_singleton].
    + intros a [-> |[-> |Ha%elem_of_nil]%elem_of_cons]%elem_of_cons; [vm_compute; discriminate|vm_compute; discriminate|done].
    + discriminate.
  - simpl. lia.
  - repeat constructor; lia.
  - unfold len. simpl. lia.
  - assert (fst <$> fat32_write demo_ctx 3 1022 [1; 2; 3; 4] (len [1; 2; 3; 4]) file_volume = Some (4, 3)) as Er by (vm_compute; reflexivity).
    rewrite E in Er. cbn [fmap option_fmap option_map fst] in Er. injection Er as -> ->.
    destruct Hcase as [[? _]|(F1 & B1 & l1 & Hv & Hc & _ & Ho & _)]; [discriminate|].
    exists s', F1, B1, l1. split; [exact E|]. split; [exact Hv|]. split; [exact Hc|]. exact Ho.
Defined.

(** A directory with a name of 13 lower-case letters. *)
Definition long_name : list Z := [97; 98; 99; 100; 101; 102; 103; 104; 105; 106; 107; 108; 109].


Lemma full_directory_witness :
  loop fat_fuel (dir_round list_visit demo_ctx 2) ([], []) full_volume = None.
Proof.
  apply (fat32_full_directory_hangs demo_ctx list_visit full_volume (demo_F full_volume) (demo_B full_volume) ∅ 2 []).
  - apply demo_vol.
  - unfold entries. simpl. lia.
  - intros i Hi. change (bytes_per_cluster demo_ctx / 32) with 16 in Hi.
    assert (i = 0 ∨ i = 1 ∨ i = 2 ∨ i = 3 ∨ i = 4 ∨ i = 5 ∨ i = 6 ∨ i = 7 ∨ i = 8 ∨ i = 9 ∨ i = 10 ∨ i = 11 ∨ i = 12 ∨ i = 13 ∨ i = 14 ∨ i = 15) as Hc by lia.
    repeat (destruct Hc as [-> |Hc]; [vm_compute; discriminate|]). subst i. vm_compute. discriminate.
  - intros. reflexivity.
Defined.

(** readme.txt in lower case. *)
Definition plain_name : list Z := [114; 101; 97; 100; 109; 101; 46; 116; 120; 116].

Lemma fat32_long_name_witness : create_dir_entries demo_ctx 2 32 plain_name 7 0 false empty_volume = None.
Proof.
  assert (match ha_alloc 512 16 demo_heap with Some (p, _) => negb (p =? 0) | None => false end = true) as Hc by (vm_compute; reflexivity).
  destruct (ha_alloc 512 16 demo_heap) as [[p h]|] eqn:E; [|discriminate Hc].
  apply (fat32_long_name_faults demo_ctx plain_name 2 32 7 0 false empty_volume (demo_F empty_volume) (demo_B empty_volume) ∅ p h).
  - apply demo_vol.
  - unfold entries. simpl. lia.
  - repeat constructor; lia.
  - unfold len. simpl. lia.
  - vm_compute. discriminate.
  - vm_compute. discriminate.
  - vm_compute. discriminate.
  - vm_compute. discriminate.
  - exact E.
  - intros ->. discriminate Hc.
Defined.

(** A directory that was just made cannot be removed: its own entry "." is taken for a
    child until the depth limit is reached. *)
Example fat32_rmdir_refused :
  ('(r1, s) ← fat32_mkdir demo_ctx [68] empty_volume; '(r2, _) ← fat32_remove demo_ctx [68] s; Some (r1, r2)) = Some (0, -39).
Proof. vm_compute. reflexivity. Qed.

(** A file written, read, changed and removed through the registered operations. *)
Example fat32_session :
  ('(w, s) ← fat32_vfs_write_file 64 [47; 65; 46; 84] (Some [1; 2; 3]) 3 empty_volume;
   '(n, s) ← fat32_vfs_write_at 64 [97; 46; 116] 2 (Some [9; 9; 9]) 3 s;
   '(r, s) ← fat32_vfs_read_file 64 [47; 97; 46; 116] 10 s;
   '(d, s) ← fat32_vfs_remove 64 [65; 46; 84] s;
   '(l, _) ← fat32_vfs_list_dir 64 [] s;
   Some (w, n, r, d, l)) = Some (true, Some 5, (5, [1; 2; 9; 9; 9]), 0, []).
Proof. vm_compute. reflexivity. Qed.
